(* ===== verification/_CoqProject ===== *)
-Q . S2P
Prelude.v
Machine.v
CString.v
RingBuffer.v
MemUtils.v
Alloc.v
Adt.v
Vsprintf.v
Iodev.v
Proxy.v
UartProxy.v
UsbDesc.v
Dwc2.v
Dwc2Spec.v
Dwc2Regs.v
Dwc2Props.v
Checksum.v
Inflate.v
InflateBits.v
Huffman.v
InflateSafe.v
InflateUnsized.v
Deflate.v
Gzip.v
MinLz.v
Lzma.v
Xz.v
RangeCoder.v
LzmaSpec.v
XzStream.v
XzProps.v
XzSafe.v
Mmu.v
Fdt.v
FdtSpec.v
FdtRw.v
FdtRwSpec.v
FdtProps.v
Kboot.v
KbootProps.v
Payload.v
PayloadProps.v
Uart.v
Drivers.v
Startup.v
Usb.v
