(* ===== verification/Prelude.v ===== *)
(** * mini-haywire: a verification library for the firmware under src/

    mini-haywire is a boot loader and hardware playground for 32-bit ARM
    machines with an Apple device tree: it is loaded by the vendor's boot
    loader, relocates itself, turns the MMU on, brings up a UART and a USB
    device controller, and then either serves remote procedure calls of a
    Python client or starts what is appended to its image.  The target is bare
    metal with a 32-bit address space: [int], [long], [size_t] and pointers
    have 32 bits, [char] is unsigned.  This library translates the C code into
    executable functions and proves what they promise.

    ** How the code is modelled

    - The result of a call is an [outcome] (below): a normal return, an access
      the machine or the language does not allow, a failed [assert] or [panic],
      or a loop whose fuel ran out.  Code is written in the monad of outcomes.
    - Memory is a finite map from addresses to bytes (Machine.v); a load or a
      store outside of it is [Fault].  Integers are [Z] with the wrap-around
      written out ([u8], [u32], [u64], [s32]).
    - State of a component is a record that its operations return.  Out
      parameters are results.  A part that is not under src/, or that is not
      modelled, is a parameter: the USB controller is the class [Dwc2Hw], the
      drivers behind an I/O device are the operations of [iodev_ops], the
      calls that the proxy passes on are fields of [services].
    - A loop over a count recurses on the count.  A loop that the data ends
      takes fuel.  Every theorem about such a loop says which fuel is enough:
      the number of mapped bytes for C strings ([str_fuel]), a bound on the
      bits of the source for the decompressors, twice the size of the structure
      block for device trees ([walk_fuel]); the exception is
      [fdt_negative_length_diverges], which says that no fuel is.

    ** The parts and where they are

    - string.c, sysinc/string.h: CString.v.  The C names are kept throughout.
    - ringbuffer.c: RingBuffer.v; the abstract state is a queue.
    - utils.h, utils.c (registers, polls, block copies, spinlock): MemUtils.v.
    - heapblock.c, [top_of_memory_alloc]: Alloc.v.
    - adt.c, adt.h (the vendor's device tree): Adt.v; the abstract state is a
      tree of properties.
    - vsprintf.c: Vsprintf.v; the specification builds the output text.
    - iodev.c (devices, console): Iodev.v.
    - proxy.c, proxy.h (remote procedure calls): Proxy.v.  uartproxy.c (frames
      on the wire): UartProxy.v, on top of Proxy.v and Iodev.v.
    - usb_types.h and the tables of usb_dwc2.c: UsbDesc.v.  usb_dwc2.c (the
      device controller): Dwc2.v, its invariant and the meaning of its handlers
      in Dwc2Spec.v, what it writes to the registers of a controller that keeps a
      log of them in Dwc2Regs.v, the theorems in Dwc2Props.v.  The bulk pipes
      use RingBuffer.v.
    - tinf/: Checksum.v, Inflate.v (tinflate.c), Gzip.v (containers).  The
      reader as a list of bits is InflateBits.v, canonical codes are Huffman.v,
      arbitrary input is InflateSafe.v and InflateUnsized.v, RFC 1951 is
      Deflate.v.
    - minilzlib/: MinLz.v (inputbuf.c, dictbuf.c, rangedec.c), Lzma.v
      (lzmadec.c), Xz.v (lzma2dec.c, xzstream.c), a state monad over the memory
      and the static structures.  RangeCoder.v is the encoder and what the
      decoder makes of its code, LzmaSpec.v gives packets their meaning and
      their code, XzStream.v does so for chunks, XzProps.v for files;
      XzSafe.v is about arbitrary input.
    - memory.c (caches, translation table): Mmu.v, which reads the tree through
      Adt.v.
    - libfdt/ (fdt.c, fdt_ro.c, fdt_rw.c, fdt_wip.c, fdt_addresses.c): Fdt.v and
      FdtRw.v; the blob as tokens and as a tree is FdtSpec.v, changes are
      FdtRwSpec.v, the theorems are FdtProps.v.
    - kboot.c (the kernel's device tree, the boot variables, the log): Kboot.v,
      a state monad over the memory, the C heap (the class [Malloc]), the
      allocator at the top of memory and the static variables; the theorems
      are KbootProps.v.
    - uart.c: Uart.v, with the class [Mmio] of a device behind registers and the
      laws of the UART; it implements the contract of Iodev.v.
    - timer.c, wdt.c, clkrstgen.c, firmware.c, [udelay]: Drivers.v.
    - usb.c, usbphy.h: Usb.v, on top of Dwc2.v, Iodev.v and Drivers.v.
    - startup.c, main.c: Startup.v.
    - payload.c: Payload.v, on top of Kboot.v, Gzip.v, Xz.v, FdtRw.v and
      Alloc.v; the theorems are PayloadProps.v.

    ** What the theorems show

    - Data structures: the ring is a FIFO queue under every sequence of reads
      and writes; allocations are disjoint from each other; the console hands
      every device the stream of bytes in order, without the part it missed.
    - Device trees: lookups in both formats are lookups in the tree that the
      blob encodes, and [fdt_setprop] is the update of that tree, or leaves it
      as it was when there is no room.
    - Text: [vsnprintf] produces the specified text, cut to the buffer and
      terminated, and returns its length, for widths of any number of digits;
      numbers print and read back.
    - Decompression: every DEFLATE stream of RFC 1951 is turned into the data
      it stands for; on any input the decoder ends and stays inside its two
      buffers.  A file with a gzip header of any optional fields is accepted when
      the checksums of header and data and the length are right, and refused when
      one of them is wrong.
      An xz file of one block, of raw chunks and of LZMA packets with the one
      property byte that is supported, is decoded to the data that they stand for
      and its end is found; a number of rounds above the size of the output is
      enough.  The theorem names the limits: 2^28 bytes of output, at most 65535 bytes in a
      compressed chunk and no reset of the dictionary but the first.  On any input of known size the xz
      decoder ends and stays inside its two buffers, too.
    - USB: in every reachable state the driver's invariant holds and endpoint 0
      rests; each control request is answered as specified, down to the stall
      bit and to the transfers that are armed; the pipes deliver bytes in order;
      from a bus reset on the windows of the FIFOs, as they are programmed, are
      disjoint.  Three theorems
      show inputs that the driver does not survive.
    - Proxy: a request fills in the reply as its opcode says; what is written
      is read back over the wire; the session ends for the next stage exactly when
      [kboot_boot] succeeds or an exit is asked for; a damaged frame is answered with an error, executes
      nothing, and the receiver finds the next frame.
    - Booting: the loader finds every payload of an image, unpacks gzip and xz
      files, and keeps the last kernel, device tree and initramfs and the
      variables intact; the memory node lists the usable ranges (and the
      initrd twice); the log device keeps the last 16 KiB.
    - Drivers: the UART keeps the contract of an I/O device; [udelay] waits long
      enough and ends; setting up one USB PHY, with tuning words that fit
      their fields, takes its delays and leaves the other PHY alone; the USB consoles are
      registered with the first pipe of a controller each and all of them are shut
      down before the next stage.  Start: the relocation adds the load address to the words
      of its table and to nothing else; the vendor's tree survives its move to the top of memory, which shrinks by the
      tree and a guard page.
    - Memory: after [mmu_init] the table maps RAM and the I/O ranges of the
      tree to themselves, with their attributes, and nothing else.

    ** Not modelled

    - dlmalloc/ is a third-party allocator; its callers take the block as a
      parameter.
    - fdt_overlay.c, fdt_sw.c, fdt_empty_tree.c and fdt_strerror.c are linked
      but not called.
    - Assembly (start.S, exception_asm.S, memory_asm.S): its effect is a list of
      processor operations in Mmu.v, and a parameter elsewhere.
    - The barrier instruction at the end of [udelay] (isb) and messages that are
      printed change nothing that is modelled.
    - mini_main calls the parts in order and has no state; chickens.c and
      exception.c print what they find.
    - The Python client and the build files do not run on the machine.

    The rest of this file is the prelude: outcomes, machine integers, the
    automation and the lemmas on lists and integers that all files share. *)

From Stdlib Require Export ZArith Lia.
From Stdlib Require Export Ascii String.
From stdpp Require Export base numbers list gmap.

#[export] Set Default Proof Using "Type".
#[global] Open Scope Z_scope.

(** ** Outcomes of C code

    [Done a] is a normal return.  [Fault] is an access outside mapped memory
    or outside an object, or another undefined operation (the data abort
    handler of exception.c reboots).  [Panic] is a failed [assert] or a call to
    [panic], which end in [flush_and_reboot].  [Stuck] is a loop whose fuel ran
    out: every theorem about a fuelled function states that this does not
    happen. *)
Inductive outcome (A : Type) : Type :=
| Done (a : A)
| Fault
| Panic
| Stuck.
Arguments Done {A} a.
Arguments Fault {A}.
Arguments Panic {A}.
Arguments Stuck {A}.

#[export] Instance outcome_ret : MRet outcome := fun A a => Done a.
#[export] Instance outcome_bind : MBind outcome := fun A B f x =>
  match x with
  | Done a => f a
  | Fault => Fault
  | Panic => Panic
  | Stuck => Stuck
  end.
#[export] Instance outcome_fmap : FMap outcome := fun A B f x =>
  match x with
  | Done a => Done (f a)
  | Fault => Fault
  | Panic => Panic
  | Stuck => Stuck
  end.

(** Code that changes a state of type [S]. *)
Definition ST (S A : Type) : Type := S -> outcome (A * S).
#[export] Instance ST_ret S : MRet (ST S) := fun A a s => Done (a, s).
#[export] Instance ST_bind S : MBind (ST S) := fun A B f k s => '(a, s) ← k s; f a s.
Definition gets {S A} (f : S -> A) : ST S A := fun s => Done (f s, s).
Definition modify {S} (f : S -> S) : ST S unit := fun s => Done (tt, f s).
Definition lift {S A} (o : outcome A) : ST S A := fun s => a ← o; Done (a, s).

Definition of_option {A} (o : option A) : outcome A :=
  match o with Some a => Done a | None => Fault end.

(** [assert(b)] of sysinc/assert.h. *)
Definition c_assert (b : bool) : outcome unit := if b then Done tt else Panic.

(** ** Machine integers: unsigned values are kept in [0, 2^w) *)
Definition wrap (w x : Z) : Z := x mod 2 ^ w.
Abbreviation u8 := (wrap 8).
Abbreviation u16 := (wrap 16).
Abbreviation u32 := (wrap 32).
Abbreviation u64 := (wrap 64).

(** Two's complement reading of the low [w] bits. *)
Definition signed (w x : Z) : Z :=
  let y := x mod 2 ^ w in if y <? 2 ^ (w - 1) then y else y - 2 ^ w.
Abbreviation s32 := (signed 32).

Definition is_byte (b : Z) : Prop := 0 <= b < 256.
Abbreviation are_bytes := (Forall is_byte).

(** Array access by a C integer: out of range is an error, never a default. *)
Definition znth {A} (l : list A) (i : Z) : outcome A :=
  if i <? 0 then Fault else of_option (l !! Z.to_nat i).
Definition zset {A} (l : list A) (i : Z) (x : A) : outcome (list A) :=
  if (0 <=? i) && (i <? Z.of_nat (length l)) then Done (<[Z.to_nat i := x]> l)
  else Fault.

Definition zlen {A} (l : list A) : Z := Z.of_nat (length l).

Definition ALIGN_UP (w x a : Z) : Z := Z.land (wrap w (x + (a - 1))) (wrap w (Z.lnot (a - 1))).
Definition BIT (n : Z) : Z := 2 ^ n.
(** The next multiple of 4. *)
Definition pad4 (n : Z) : Z := 4 * ((n + 3) / 4).

(** The bytes of a string literal, without its terminator. *)
Definition bytes_of (s : string) : list Z :=
  map (fun c => Z.of_N (N_of_ascii c)) (list_ascii_of_string s).

(** Keep integer operations folded under [cbn] and [simpl]. *)
#[global] Arguments Z.eqb : simpl never.
#[global] Arguments Z.ltb : simpl never.
#[global] Arguments Z.leb : simpl never.
#[global] Arguments Z.add : simpl never.
#[global] Arguments Z.sub : simpl never.
#[global] Arguments Z.mul : simpl never.
#[global] Arguments Z.pow : simpl never.
#[global] Arguments Z.div : simpl never.
#[global] Arguments Z.modulo : simpl never.
#[global] Arguments Z.of_nat : simpl never.
#[global] Arguments wrap : simpl never.
#[global] Arguments zlen : simpl never.

(** ** Automation *)
Create HintDb haywire.
Create Rewrite HintDb haywire.

(** Let [lia] see through [/] and [mod]. *)
Ltac Zify.zify_post_hook ::= Z.to_euclidean_division_equations.

(** Turn boolean comparisons in the context and the goal into propositions. *)
Ltac b2p :=
  repeat match goal with
  | H : (_ && _)%bool = true |- _ => apply andb_true_iff in H as [? ?]
  | H : (_ || _)%bool = false |- _ => apply orb_false_iff in H as [? ?]
  | H : negb _ = true |- _ => apply negb_true_iff in H
  | H : negb _ = false |- _ => apply negb_false_iff in H
  | H : (_ =? _) = true |- _ => apply Z.eqb_eq in H
  | H : (_ =? _) = false |- _ => apply Z.eqb_neq in H
  | H : (_ <? _) = true |- _ => apply Z.ltb_lt in H
  | H : (_ <? _) = false |- _ => apply Z.ltb_ge in H
  | H : (_ <=? _) = true |- _ => apply Z.leb_le in H
  | H : (_ <=? _) = false |- _ => apply Z.leb_gt in H
  end.

(** Case analysis on the first comparison or match discriminee in the goal. *)
Ltac case_if :=
  match goal with
  | |- context [if ?b then _ else _] => destruct b eqn:?
  end.

(** Decide a boolean comparison in the goal with [lia]. *)
Ltac bdec :=
  repeat match goal with
  | |- context [?a =? ?b] =>
      first [ replace (a =? b) with true by (symmetry; apply Z.eqb_eq; lia)
            | replace (a =? b) with false by (symmetry; apply Z.eqb_neq; lia) ]
  | |- context [?a <? ?b] =>
      first [ replace (a <? b) with true by (symmetry; apply Z.ltb_lt; lia)
            | replace (a <? b) with false by (symmetry; apply Z.ltb_ge; lia) ]
  | |- context [?a <=? ?b] =>
      first [ replace (a <=? b) with true by (symmetry; apply Z.leb_le; lia)
            | replace (a <=? b) with false by (symmetry; apply Z.leb_gt; lia) ]
  end; cbn [andb orb negb].

(** ** The outcome monad *)
Section outcome_laws.
Context {A B : Type}.

Lemma bind_Done (a : A) (f : A -> outcome B) : (Done a ≫= f) = f a.
Proof. reflexivity. Qed.

Lemma bind_Done_inv (x : outcome A) (f : A -> outcome B) b :
  x ≫= f = Done b -> exists a, x = Done a /\ f a = Done b.
Proof. destruct x; naive_solver. Qed.

Lemma bind_assoc {C} (x : outcome A) (f : A -> outcome B) (g : B -> outcome C) :
  (x ≫= f) ≫= g = x ≫= (fun a => f a ≫= g).
Proof. by destruct x. Qed.

Lemma bind_ext (x : outcome A) (f g : A -> outcome B) :
  (forall a, f a = g a) -> x ≫= f = x ≫= g.
Proof. intros H. destruct x; [apply H|done..]. Qed.
End outcome_laws.

(** Runs of computations with a state. *)
Section state_laws.
Context {S A B : Type}.
Implicit Types (s : S).

Lemma run_bind (x : ST S A) (f : A -> ST S B) s a s' : x s = Done (a, s') -> (x ≫= f) s = f a s'.
Proof. intros H. unfold mbind, ST_bind. by rewrite H. Qed.

Lemma run_bind_bind {C} (x : ST S A) (f : A -> ST S B) (g : B -> ST S C) s b s' :
  (x ≫= f) s = Done (b, s') -> (x ≫= (fun a => f a ≫= g)) s = g b s'.
Proof. unfold mbind, ST_bind. destruct (x s) as [[a s1]| | |]; cbn; [|done..]. intros H. by rewrite H. Qed.

Lemma run_ret (a : A) (f : A -> ST S B) s : (mret a ≫= f) s = f a s.
Proof. reflexivity. Qed.

Lemma run_gets (g : S -> A) (f : A -> ST S B) s : (gets g ≫= f) s = f (g s) s.
Proof. reflexivity. Qed.

Lemma run_modify (g : S -> S) (f : unit -> ST S B) s : (modify g ≫= f) s = f tt (g s).
Proof. reflexivity. Qed.
End state_laws.

(** Split a hypothesis [x ≫= f = Done b] into the runs of [x] and [f]. *)
Ltac inv_bind H :=
  let a := fresh "a" in let H1 := fresh "Hrun" in
  apply bind_Done_inv in H as (a & H1 & H).

(** Discharge the first assertion of the goal with [lia]. *)
Ltac c_ok :=
  match goal with
  | |- context [c_assert ?b] =>
      replace (c_assert b) with (Done tt) by (symmetry; unfold c_assert; bdec; reflexivity)
  end; rewrite ?bind_Done.

(** ** Integers *)
Lemma wrap_small w x : 0 <= x < 2 ^ w -> wrap w x = x.
Proof. apply Z.mod_small. Qed.

Lemma wrap_range w x : 0 <= w -> 0 <= wrap w x < 2 ^ w.
Proof. intros. apply Z.mod_pos_bound. lia. Qed.

Lemma wrap_wrap w x : wrap w (wrap w x) = wrap w x.
Proof. apply Zmod_mod. Qed.

Lemma wrap_add_l w x y : wrap w (wrap w x + y) = wrap w (x + y).
Proof. unfold wrap. by rewrite Zplus_mod_idemp_l. Qed.

Lemma wrap_mul_l w x y : wrap w (wrap w x * y) = wrap w (x * y).
Proof. unfold wrap. by rewrite Zmult_mod_idemp_l. Qed.

Lemma u32_small x : 0 <= x < 2 ^ 32 -> u32 x = x.
Proof. intros. by apply wrap_small. Qed.

Lemma u8_small x : is_byte x -> u8 x = x.
Proof. intros. by apply wrap_small. Qed.

Lemma u8_byte x : is_byte (u8 x).
Proof. unfold is_byte. by apply (wrap_range 8 x). Qed.

Lemma mod_add_inj n a i j :
  0 <= i < n -> 0 <= j < n -> (a + i) mod n = (a + j) mod n -> i = j.
Proof.
  intros Hi Hj H. pose proof (Z.div_mod (a + i) n). pose proof (Z.div_mod (a + j) n).
  assert (i - j = n * ((a + i) / n - (a + j) / n)) by lia.
  assert ((a + i) / n - (a + j) / n = 0) by nia. lia.
Qed.


(** A bit above [k] of a value below [2^k]. *)
Lemma testbit_high x k n : 0 <= x < 2 ^ k -> k <= n -> Z.testbit x n = false.
Proof.
  intros Hx Hn. destruct (decide (x = 0)) as [->|]; [apply Z.bits_0|].
  apply Z.bits_above_log2; [lia|]. apply Z.log2_lt_pow2; [lia|].
  eapply Z.lt_le_trans; [apply Hx|]. apply Z.pow_le_mono_r; lia.
Qed.

(** Or-ing in a value above the bits in use adds it. *)
Lemma lor_disjoint lo k hi : 0 <= k -> 0 <= lo < 2 ^ k -> Z.lor lo (2 ^ k * hi) = lo + 2 ^ k * hi.
Proof.
  intros Hk Hl. rewrite Z.mul_comm, <- Z.shiftl_mul_pow2 by lia.
  assert (Z.land lo (Z.shiftl hi k) = 0) as E.
  { apply Z.bits_inj'. intros n Hn. rewrite Z.land_spec, Z.bits_0.
    destruct (decide (n < k)).
    - rewrite Z.shiftl_spec_low by lia. apply andb_false_r.
    - by rewrite (testbit_high lo k) by lia. }
  by rewrite Z.add_nocarry_lxor, Z.lxor_lor.
Qed.

(** Clearing the low [k] bits of a 32-bit value. *)
Lemma land_align_mask x k :
  0 <= k <= 32 -> 0 <= x < 2 ^ 32 ->
  Z.land x (u32 (Z.lnot (2 ^ k - 1))) = 2 ^ k * (x / 2 ^ k).
Proof.
  intros Hk Hx. replace (2 ^ k - 1) with (Z.ones k) by (rewrite Z.ones_equiv; lia).
  assert (Z.land x (u32 (Z.lnot (Z.ones k))) = Z.ldiff x (Z.ones k)) as ->.
  { apply Z.bits_inj'. intros n Hn. unfold wrap.
    rewrite Z.land_spec, Z.ldiff_spec. destruct (decide (n < 32)).
    - rewrite Z.mod_pow2_bits_low by lia. rewrite Z.lnot_spec by lia. done.
    - by rewrite (testbit_high x 32) by lia. }
  rewrite Z.ldiff_ones_r, Z.shiftl_mul_pow2, Z.shiftr_div_pow2 by lia. lia.
Qed.

Lemma ALIGN_UP_pow2 k x :
  0 <= k < 32 -> 0 <= x -> x + 2 ^ k <= 2 ^ 32 ->
  ALIGN_UP 32 x (2 ^ k) = 2 ^ k * ((x + 2 ^ k - 1) / 2 ^ k).
Proof.
  intros Hk Hx Hr. unfold ALIGN_UP. replace (x + (2 ^ k - 1)) with (x + 2 ^ k - 1) by lia.
  rewrite u32_small by lia. by apply land_align_mask; lia.
Qed.

Lemma pad4_bounds n : n <= pad4 n < n + 4.
Proof. unfold pad4. lia. Qed.

Lemma s32_small x : 0 <= x < 2 ^ 31 -> s32 x = x.
Proof. intros. unfold signed. rewrite Z.mod_small by lia. bdec. done. Qed.

#[export] Hint Resolve wrap_small wrap_range u32_small u8_small u8_byte : haywire.

(** ** Lists *)
Section lists.
Context {A : Type}.
Implicit Types l : list A.

Lemma zlen_nil : zlen (@nil A) = 0.
Proof. done. Qed.

Lemma zlen_cons x l : zlen (x :: l) = 1 + zlen l.
Proof. unfold zlen. cbn [length]. lia. Qed.

Lemma zlen_app l1 l2 : zlen (l1 ++ l2) = zlen l1 + zlen l2.
Proof. unfold zlen. rewrite length_app. lia. Qed.

Lemma zlen_replicate n (x : A) : zlen (replicate n x) = Z.of_nat n.
Proof. unfold zlen. by rewrite length_replicate. Qed.

Lemma zlen_nonneg l : 0 <= zlen l.
Proof. unfold zlen. lia. Qed.

Lemma to_nat_zlen l : Z.to_nat (zlen l) = length l.
Proof. unfold zlen. lia. Qed.

Lemma znth_Done l i x : znth l i = Done x <-> 0 <= i /\ l !! Z.to_nat i = Some x.
Proof.
  unfold znth, of_option. destruct (i <? 0) eqn:?; b2p.
  - split; [done|lia].
  - destruct (l !! Z.to_nat i) as [y|]; split.
    + by intros [= ->].
    + by intros [_ [= ->]].
    + done.
    + by intros [_ ?].
Qed.

Lemma znth_lt l i : 0 <= i < zlen l -> exists x, znth l i = Done x.
Proof.
  intros. unfold zlen in *. destruct (lookup_lt_is_Some_2 l (Z.to_nat i)) as [x Hx]; [lia|].
  exists x. apply znth_Done. split; [lia|done].
Qed.

Lemma zset_Done l i x : 0 <= i < zlen l -> zset l i x = Done (<[Z.to_nat i := x]> l).
Proof. intros. unfold zset, zlen in *. bdec. done. Qed.
End lists.

#[export] Hint Rewrite @zlen_nil @zlen_cons @zlen_app @zlen_replicate : haywire.
