(* ===== verification/Machine.v ===== *)
(** * Flat 32-bit memory

    The target is a bare-metal ARMv7 core: pointers are 32-bit addresses into
    one address space.  A memory maps the addresses that are backed by RAM to
    bytes; any other access aborts ([Fault]). *)
From S2P Require Import Prelude.

Abbreviation mem := (gmap Z Z).

Definition load8 (m : mem) (a : Z) : outcome Z := of_option (m !! u32 a).

Definition store8 (m : mem) (a v : Z) : outcome mem :=
  match m !! u32 a with
  | Some _ => Done (<[u32 a := u8 v]> m)
  | None => Fault
  end.

(** Little-endian access to [n] consecutive bytes. *)
Fixpoint load_le (n : nat) (m : mem) (a : Z) : outcome Z :=
  match n with
  | O => Done 0
  | S n' => b ← load8 m a; r ← load_le n' m (a + 1); Done (b + 256 * r)
  end.

Fixpoint store_le (n : nat) (m : mem) (a v : Z) : outcome mem :=
  match n with
  | O => Done m
  | S n' => m' ← store8 m a v; store_le n' m' (a + 1) (v / 256)
  end.

(** Whole blocks, byte by byte. *)
Fixpoint load_bytes (n : nat) (m : mem) (a : Z) : outcome (list Z) :=
  match n with
  | O => Done []
  | S n' => b ← load8 m a; r ← load_bytes n' m (a + 1); Done (b :: r)
  end.

Fixpoint store_bytes (m : mem) (a : Z) (bs : list Z) : outcome mem :=
  match bs with
  | [] => Done m
  | b :: bs' => m' ← store8 m a b; store_bytes m' (a + 1) bs'
  end.

(** ** Assertions on memory contents *)

(** The bytes [bs] are stored from address [a] on, inside the address space. *)
Fixpoint bytes_at (m : mem) (a : Z) (bs : list Z) : Prop :=
  match bs with
  | [] => True
  | b :: bs' => (m !! a = Some b /\ 0 <= a < 2 ^ 32) /\ bytes_at m (a + 1) bs'
  end.

(** [n] bytes from [a] are backed by memory. *)
Definition region (m : mem) (a n : Z) : Prop :=
  exists old, zlen old = n /\ bytes_at m a old.

(** The memory in which [bs] replaces the bytes from [a] on. *)
Fixpoint write_bytes (m : mem) (a : Z) (bs : list Z) : mem :=
  match bs with
  | [] => m
  | b :: bs' => <[a := b]> (write_bytes m (a + 1) bs')
  end.

(** Little-endian encoding of an integer. *)
Fixpoint le_bytes (n : nat) (v : Z) : list Z :=
  match n with
  | O => []
  | S n' => u8 v :: le_bytes n' (v / 256)
  end.

Fixpoint le_value (bs : list Z) : Z :=
  match bs with
  | [] => 0
  | b :: bs' => b + 256 * le_value bs'
  end.

Section memory_facts.
Implicit Types (m : mem) (a b : Z) (bs : list Z).

Lemma bytes_at_app m a bs1 bs2 :
  bytes_at m a (bs1 ++ bs2) <-> bytes_at m a bs1 /\ bytes_at m (a + zlen bs1) bs2.
Proof.
  revert a. induction bs1 as [|b bs1 IH]; intros a; cbn [app bytes_at].
  - rewrite zlen_nil, Z.add_0_r. tauto.
  - rewrite IH, zlen_cons. replace (a + 1 + zlen bs1) with (a + (1 + zlen bs1)) by lia. tauto.
Qed.

Lemma bytes_at_lookup m a bs i b :
  bytes_at m a bs -> bs !! i = Some b ->
  m !! (a + Z.of_nat i) = Some b /\ 0 <= a + Z.of_nat i < 2 ^ 32.
Proof.
  revert a i. induction bs as [|b' bs IH]; intros a i; [done|].
  intros [[Hb Ha] Hbs] Hi. destruct i as [|i]; cbn in Hi.
  - simplify_eq. replace (a + Z.of_nat 0) with a by lia. done.
  - destruct (IH (a + 1) i Hbs Hi) as [? ?].
    replace (a + Z.of_nat (S i)) with (a + 1 + Z.of_nat i) by lia. done.
Qed.

Lemma bytes_at_of_lookup m a bs :
  (forall i b, bs !! i = Some b ->
     m !! (a + Z.of_nat i) = Some b /\ 0 <= a + Z.of_nat i < 2 ^ 32) ->
  bytes_at m a bs.
Proof.
  revert a. induction bs as [|b bs IH]; intros a H; cbn; [done|]. split.
  - specialize (H O b eq_refl). by replace (a + Z.of_nat 0) with a in H by lia.
  - apply IH. intros i b' Hi. specialize (H (S i) b' Hi).
    by replace (a + 1 + Z.of_nat i) with (a + Z.of_nat (S i)) by lia.
Qed.

Lemma bytes_at_bounds m a bs :
  bytes_at m a bs -> bs <> [] -> 0 <= a /\ a + zlen bs <= 2 ^ 32.
Proof.
  intros H Hne. destruct bs as [|b bs]; [done|].
  split; [by destruct H as [[_ ?] _]; lia|].
  destruct (lookup_lt_is_Some_2 (b :: bs) (length bs)) as [x Hx]; [cbn; lia|].
  destruct (bytes_at_lookup _ _ _ _ _ H Hx). rewrite zlen_cons. unfold zlen. lia.
Qed.

Lemma load8_lookup m a b : m !! a = Some b -> 0 <= a < 2 ^ 32 -> load8 m a = Done b.
Proof. intros H ?. unfold load8. rewrite u32_small by done. by rewrite H. Qed.

Lemma load8_bytes_at m a bs i b :
  bytes_at m a bs -> bs !! i = Some b -> load8 m (a + Z.of_nat i) = Done b.
Proof. intros H Hi. destruct (bytes_at_lookup _ _ _ _ _ H Hi). by apply load8_lookup. Qed.

Lemma load_le_bytes_at m a bs :
  bytes_at m a bs -> load_le (length bs) m a = Done (le_value bs).
Proof.
  revert a. induction bs as [|b bs IH]; intros a H; cbn; [done|].
  destruct H as [[Hb Ha] H]. rewrite (load8_lookup _ _ _ Hb Ha). cbn.
  by rewrite (IH _ H).
Qed.

Lemma lookup_write_bytes m a bs k :
  write_bytes m a bs !! k =
    if (a <=? k) && (k <? a + zlen bs) then bs !! Z.to_nat (k - a) else m !! k.
Proof.
  revert a. induction bs as [|b bs IH]; intros a; cbn [write_bytes].
  - rewrite zlen_nil. case_if; b2p; [lia|done].
  - rewrite zlen_cons, lookup_insert. pose proof (zlen_nonneg bs). case_decide as Hk.
    + subst. bdec. by replace (Z.to_nat (k - k)) with O by lia.
    + rewrite IH. destruct (decide (a <= k < a + (1 + zlen bs))).
      * bdec. by replace (Z.to_nat (k - a)) with (S (Z.to_nat (k - (a + 1)))) by lia.
      * destruct (decide (a <= k)); bdec; reflexivity.
Qed.

Lemma bytes_at_write_eq m a bs :
  0 <= a -> a + zlen bs <= 2 ^ 32 -> bytes_at (write_bytes m a bs) a bs.
Proof.
  intros. apply bytes_at_of_lookup. intros i b Hi.
  pose proof (lookup_lt_Some _ _ _ Hi). unfold zlen in *.
  rewrite lookup_write_bytes. unfold zlen. bdec.
  replace (Z.to_nat (a + Z.of_nat i - a)) with i by lia. split; [done|lia].
Qed.

Lemma bytes_at_write_disj m a bs a' bs' :
  a' + zlen bs' <= a \/ a + zlen bs <= a' ->
  bytes_at m a' bs' -> bytes_at (write_bytes m a bs) a' bs'.
Proof.
  intros Hd H. apply bytes_at_of_lookup. intros i b Hi.
  destruct (bytes_at_lookup _ _ _ _ _ H Hi) as [? ?].
  pose proof (lookup_lt_Some _ _ _ Hi). unfold zlen in Hd.
  rewrite lookup_write_bytes. unfold zlen.
  destruct Hd; [|destruct (decide (a <= a' + Z.of_nat i)); [|lia]]; bdec; done.
Qed.

Lemma bytes_at_frame m m' a bs :
  (forall k, a <= k < a + zlen bs -> m' !! k = m !! k) -> bytes_at m a bs -> bytes_at m' a bs.
Proof.
  intros Hk H. apply bytes_at_of_lookup. intros i x Hi. destruct (bytes_at_lookup _ _ _ _ _ H Hi) as [Hx ?].
  apply lookup_lt_Some in Hi. rewrite Hk by (unfold zlen; lia). done.
Qed.

Lemma region_lookup m a n k : region m a n -> a <= k < a + n -> is_Some (m !! k) /\ 0 <= k < 2 ^ 32.
Proof.
  intros (old & <- & H) Hk. unfold zlen in Hk.
  destruct (lookup_lt_is_Some_2 old (Z.to_nat (k - a))) as [x Hx]; [lia|].
  destruct (bytes_at_lookup _ _ _ _ _ H Hx) as [Hm ?].
  replace (a + Z.of_nat (Z.to_nat (k - a))) with k in * by lia. by split; [eexists|].
Qed.

Lemma region_intro m a n :
  0 <= n -> (forall k, a <= k < a + n -> is_Some (m !! k) /\ 0 <= k < 2 ^ 32) -> region m a n.
Proof.
  intros Hn. remember (Z.to_nat n) as l eqn:Hl. revert n a Hl Hn.
  induction l as [|l IH]; intros n a Hl Hn H.
  - exists []. split; [unfold zlen; cbn; lia|done].
  - destruct (H a) as [[x Hx] ?]; [lia|].
    destruct (IH (n - 1) (a + 1)) as (old & Hlen & Hold); [lia|lia|intros; apply H; lia|].
    exists (x :: old). split; [rewrite zlen_cons; lia|]. by cbn.
Qed.

Lemma region_insert m a n k v : region m a n -> region (<[k := v]> m) a n.
Proof.
  intros H. pose proof H as (old & Hn & _). apply region_intro; [pose proof (zlen_nonneg old); lia|].
  intros j Hj. destruct (region_lookup _ _ _ _ H Hj) as [? ?]. split; [|done].
  rewrite lookup_insert. case_decide; [by eexists|done].
Qed.

Lemma region_sub m a n a' n' :
  region m a n -> 0 <= n' -> a <= a' -> a' + n' <= a + n -> region m a' n'.
Proof. intros H ???. apply region_intro; [done|]. intros. apply (region_lookup _ _ _ _ H). lia. Qed.

Lemma region_write m a n k bs : region m a n -> region (write_bytes m k bs) a n.
Proof. intros H. revert k. induction bs; intros k; cbn; auto using region_insert. Qed.

Lemma bytes_at_region m a bs : bytes_at m a bs -> region m a (zlen bs).
Proof. intros. by exists bs. Qed.

Lemma bytes_at_insert_ne m a bs k v :
  k < a \/ a + zlen bs <= k -> bytes_at m a bs -> bytes_at (<[k := v]> m) a bs.
Proof.
  intros Hk H. apply (bytes_at_write_disj m k [v] a bs); [|done].
  rewrite zlen_cons, zlen_nil. lia.
Qed.

Lemma write_bytes_insert m a bs k v :
  k < a \/ a + zlen bs <= k ->
  write_bytes (<[k := v]> m) a bs = <[k := v]> (write_bytes m a bs).
Proof.
  intros Hk. apply map_eq. intros j. rewrite lookup_insert, !lookup_write_bytes, lookup_insert.
  case_decide; subst; [destruct Hk; bdec|done].
  - done.
  - destruct (decide (a <= j)); bdec; done.
Qed.

Lemma write_bytes_app m a bs1 bs2 :
  write_bytes m a (bs1 ++ bs2) = write_bytes (write_bytes m (a + zlen bs1) bs2) a bs1.
Proof.
  revert a. induction bs1 as [|b bs1 IH]; intros a; cbn.
  - by rewrite zlen_nil, Z.add_0_r.
  - rewrite IH, zlen_cons. by replace (a + 1 + zlen bs1) with (a + (1 + zlen bs1)) by lia.
Qed.

Lemma write_bytes_app_up m a bs1 bs2 :
  write_bytes m a (bs1 ++ bs2) = write_bytes (write_bytes m a bs1) (a + zlen bs1) bs2.
Proof.
  apply map_eq. intros k. rewrite !lookup_write_bytes, zlen_app.
  pose proof (zlen_nonneg bs1). pose proof (zlen_nonneg bs2).
  destruct (decide (a <= k)); [|bdec; done].
  destruct (decide (k < a + zlen bs1)).
  - bdec. rewrite lookup_app_l; [done|]. unfold zlen in *. lia.
  - destruct (decide (k < a + (zlen bs1 + zlen bs2))); bdec; [|done].
    rewrite lookup_app_r by (unfold zlen in *; lia). f_equal. unfold zlen. lia.
Qed.

Lemma bytes_at_size m a bs : bytes_at m a bs -> (length bs <= size m)%nat.
Proof.
  revert m a. induction bs as [|b bs IH]; intros m a H; [cbn; lia|].
  destruct H as [[Hb _] H]. cbn [length].
  assert (bytes_at (delete a m) (a + 1) bs) as Hd.
  { apply bytes_at_of_lookup. intros i x Hi.
    destruct (bytes_at_lookup _ _ _ _ _ H Hi). rewrite lookup_delete_ne by lia. done. }
  specialize (IH _ _ Hd).
  assert (size m <> 0)%nat by (apply map_size_non_empty_iff; intros ->; done).
  rewrite map_size_delete_Some in IH by eauto. lia.
Qed.

Lemma store8_Done m a v :
  is_Some (m !! a) -> 0 <= a < 2 ^ 32 -> store8 m a v = Done (<[a := u8 v]> m).
Proof. intros [x Hx] ?. unfold store8. rewrite u32_small by done. by rewrite Hx. Qed.

Lemma store_le_spec n m a v :
  region m a (Z.of_nat n) -> store_le n m a v = Done (write_bytes m a (le_bytes n v)).
Proof.
  revert m a v. induction n as [|n IH]; intros m a v Hr; [done|]. cbn.
  destruct (region_lookup _ _ _ a Hr) as [? ?]; [lia|].
  rewrite store8_Done, bind_Done by done. rewrite IH, write_bytes_insert; [done|lia|].
  apply region_insert. eapply region_sub; [exact Hr|lia..].
Qed.

Lemma load_bytes_spec m a bs : bytes_at m a bs -> load_bytes (length bs) m a = Done bs.
Proof.
  revert a. induction bs as [|b bs IH]; intros a H; cbn; [done|].
  destruct H as [[Hb Ha] H]. rewrite (load8_lookup _ _ _ Hb Ha). cbn. by rewrite (IH _ H).
Qed.

Lemma store_bytes_spec m a bs :
  are_bytes bs -> region m a (zlen bs) -> store_bytes m a bs = Done (write_bytes m a bs).
Proof.
  intros Hbs. revert m a. induction Hbs as [|b bs Hb _ IH]; intros m a Hr; [done|]. cbn.
  rewrite zlen_cons in Hr. pose proof (zlen_nonneg bs).
  destruct (region_lookup _ _ _ a Hr) as [? ?]; [lia|].
  rewrite store8_Done, bind_Done, u8_small by done. rewrite IH, write_bytes_insert; [done|lia|].
  apply region_insert. eapply region_sub; [exact Hr|lia..].
Qed.

(** The same for values that are cut to bytes as they are stored. *)
Lemma store_bytes_u8 m a bs :
  region m a (zlen bs) -> store_bytes m a bs = Done (write_bytes m a (map u8 bs)).
Proof.
  revert m a. induction bs as [|b bs IH]; intros m a Hr; [done|]. cbn.
  rewrite zlen_cons in Hr. pose proof (zlen_nonneg bs).
  destruct (region_lookup _ _ _ a Hr) as [? ?]; [lia|].
  rewrite store8_Done, bind_Done by done. rewrite IH, write_bytes_insert; [done|lia|].
  apply region_insert. eapply region_sub; [exact Hr|lia..].
Qed.

(** A block that runs into an unmapped address is not stored. *)
Lemma store_bytes_overrun m a bs k :
  0 <= k < zlen bs -> m !! u32 (a + k) = None -> store_bytes m a bs = Fault.
Proof.
  revert m a k. induction bs as [|b bs IH]; intros m a k Hk Hn; [unfold zlen in Hk; cbn [length] in Hk; lia|].
  rewrite zlen_cons in Hk. cbn [store_bytes]. unfold store8. destruct (decide (k = 0)) as [->|].
  - rewrite Z.add_0_r in Hn. by rewrite Hn.
  - destruct (m !! u32 a) eqn:Em; [|done]. rewrite bind_Done. apply (IH _ (a + 1) (k - 1)); [lia|].
    replace (a + 1 + (k - 1)) with (a + k) by lia. rewrite lookup_insert_ne; [done|]. intros E. congruence.
Qed.

Lemma le_bytes_le_value bs : are_bytes bs -> le_bytes (length bs) (le_value bs) = bs.
Proof.
  induction 1 as [|b bs Hb _ IH]; [done|]. cbn. unfold is_byte in Hb. f_equal.
  - unfold wrap. change (2 ^ 8) with 256. lia.
  - by replace ((b + 256 * le_value bs) / 256) with (le_value bs) by lia.
Qed.

Lemma le_bytes_length n v : length (le_bytes n v) = n.
Proof. revert v. induction n; intros; cbn; auto. Qed.

Lemma le_bytes_are_bytes n v : are_bytes (le_bytes n v).
Proof. revert v. induction n; intros; cbn; constructor; auto with haywire. Qed.

Lemma le_value_le_bytes n v : le_value (le_bytes n v) = v mod 2 ^ (8 * Z.of_nat n).
Proof.
  revert v. induction n as [|n IH]; intros v.
  - cbn [le_bytes le_value]. change (8 * Z.of_nat 0) with 0. by rewrite Z.mod_1_r.
  - cbn [le_bytes le_value]. rewrite IH. unfold wrap.
    replace (8 * Z.of_nat (S n)) with (8 + 8 * Z.of_nat n) by lia.
    rewrite Z.pow_add_r by lia. rewrite Z.rem_mul_r by lia. reflexivity.
Qed.

(** Only the low [8 * n] bits are encoded. *)
Lemma le_bytes_mod n v : le_bytes n (v mod 2 ^ (8 * Z.of_nat n)) = le_bytes n v.
Proof.
  rewrite <- le_value_le_bytes. rewrite <- (le_bytes_length n v) at 1.
  apply le_bytes_le_value, le_bytes_are_bytes.
Qed.

Lemma load_le_le_bytes n m a v :
  bytes_at m a (le_bytes n v) -> 0 <= v < 2 ^ (8 * Z.of_nat n) -> load_le n m a = Done v.
Proof.
  intros H Hv. rewrite <- (le_bytes_length n v) at 1. rewrite load_le_bytes_at by done.
  by rewrite le_value_le_bytes, Z.mod_small.
Qed.

Lemma zlen_le_bytes n v : zlen (le_bytes n v) = Z.of_nat n.
Proof. unfold zlen. by rewrite le_bytes_length. Qed.

Lemma le_value_range bs : are_bytes bs -> 0 <= le_value bs < 2 ^ (8 * zlen bs).
Proof.
  unfold zlen. induction 1 as [|b bs Hb _ IH]; cbn [le_value length]; [cbn; lia|].
  replace (8 * Z.of_nat (S (length bs))) with (8 + 8 * Z.of_nat (length bs)) by lia.
  rewrite Z.pow_add_r by lia. unfold is_byte in Hb. lia.
Qed.
End memory_facts.

#[export] Hint Rewrite zlen_le_bytes : haywire.
#[export] Hint Resolve bytes_at_write_eq bytes_at_write_disj load8_bytes_at : haywire.

(** Run the load of a byte whose location is known. *)
Ltac ld H := rewrite (load8_lookup _ _ _ H) by done; rewrite ?bind_Done.

(** Discharge a fact about a concrete memory by evaluation. *)
Ltac concrete :=
  match goal with
  | |- region _ _ _ => fail "give the old contents"
  | |- are_bytes _ => by repeat constructor
  | |- _ => vm_compute; repeat split; congruence
  end.
Ltac concrete_region old := exists old; split; [done|concrete].
