(* ===== verification/CString.v ===== *)
(** * Memory and string routines (src/string.c, sysinc/string.h)

    Every routine works on the flat memory of Machine.v; pointers are
    addresses and [NULL] is 0.  Loops bounded by a count recurse on it.  Loops
    that run to a terminator take fuel [S (size m)], one more than the number
    of mapped bytes: each iteration consumes a different mapped byte, so the
    theorems show that the fuel never runs out on terminated strings. *)
From S2P Require Import Prelude.
From S2P Require Import Machine.

Definition NULL : Z := 0.

(** ** Counted loops *)
Fixpoint copy_up (n : nat) (m : mem) (dest src : Z) : outcome mem :=
  match n with
  | O => Done m
  | S n' => c ← load8 m src; m' ← store8 m dest c; copy_up n' m' (dest + 1) (src + 1)
  end.

Fixpoint copy_down (n : nat) (m : mem) (dest src : Z) : outcome mem :=
  match n with
  | O => Done m
  | S n' => c ← load8 m (src - 1); m' ← store8 m (dest - 1) c; copy_down n' m' (dest - 1) (src - 1)
  end.

Definition memcpy (m : mem) (s1 s2 n : Z) : outcome (Z * mem) :=
  m' ← copy_up (Z.to_nat n) m s1 s2; Done (s1, m').

Definition memmove (m : mem) (s1 s2 n : Z) : outcome (Z * mem) :=
  m' ← (if s1 <=? s2 then copy_up (Z.to_nat n) m s1 s2
        else copy_down (Z.to_nat n) m (s1 + n) (s2 + n));
  Done (s1, m').

Fixpoint memcmp_loop (n : nat) (m : mem) (p1 p2 : Z) : outcome Z :=
  match n with
  | O => Done 0
  | S n' =>
      c1 ← load8 m p1; c2 ← load8 m p2;
      if c1 =? c2 then memcmp_loop n' m (p1 + 1) (p2 + 1) else Done (c1 - c2)
  end.
Definition memcmp (m : mem) (s1 s2 n : Z) : outcome Z := memcmp_loop (Z.to_nat n) m s1 s2.

Fixpoint memset_loop (n : nat) (m : mem) (p c : Z) : outcome mem :=
  match n with
  | O => Done m
  | S n' => m' ← store8 m p (u8 c); memset_loop n' m' (p + 1) c
  end.
Definition memset (m : mem) (s c n : Z) : outcome (Z * mem) :=
  m' ← memset_loop (Z.to_nat n) m s c; Done (s, m').

Fixpoint memchr_loop (n : nat) (m : mem) (p c : Z) : outcome Z :=
  match n with
  | O => Done NULL
  | S n' => b ← load8 m p; if b =? u8 c then Done p else memchr_loop n' m (p + 1) c
  end.
Definition memchr (m : mem) (s c n : Z) : outcome Z := memchr_loop (Z.to_nat n) m s c.

(** ** Terminated strings *)
Definition str_fuel (m : mem) : nat := S (size m).

Fixpoint strcpy_loop (fuel : nat) (m : mem) (s1 s2 : Z) : outcome mem :=
  match fuel with
  | O => Stuck
  | S fuel' =>
      c ← load8 m s2; m' ← store8 m s1 c;
      if c =? 0 then Done m' else strcpy_loop fuel' m' (s1 + 1) (s2 + 1)
  end.
Definition strcpy (m : mem) (s1 s2 : Z) : outcome (Z * mem) :=
  m' ← strcpy_loop (str_fuel m) m s1 s2; Done (s1, m').

(** The copying loop of [strncpy]: it stops with the remaining count, which
    still counts the terminator when one was copied. *)
Fixpoint strncpy_loop (n : nat) (m : mem) (s1 s2 : Z) : outcome (nat * Z * mem) :=
  match n with
  | O => Done (O, s1, m)
  | S n' =>
      c ← load8 m s2; m' ← store8 m s1 c;
      if c =? 0 then Done (n, s1 + 1, m') else strncpy_loop n' m' (s1 + 1) (s2 + 1)
  end.
Definition strncpy (m : mem) (s1 s2 n : Z) : outcome (Z * mem) :=
  '(k, p, m1) ← strncpy_loop (Z.to_nat n) m s1 s2;
  m2 ← memset_loop (Nat.pred k) m1 p 0;
  Done (s1, m2).

Fixpoint strcmp_loop (fuel : nat) (m : mem) (s1 s2 : Z) : outcome Z :=
  match fuel with
  | O => Stuck
  | S fuel' =>
      c1 ← load8 m s1; c2 ← load8 m s2;
      if negb (c1 =? 0) && (c1 =? c2) then strcmp_loop fuel' m (s1 + 1) (s2 + 1)
      else Done (c1 - c2)
  end.
Definition strcmp (m : mem) (s1 s2 : Z) : outcome Z := strcmp_loop (str_fuel m) m s1 s2.

Fixpoint strncmp_loop (n : nat) (m : mem) (s1 s2 : Z) : outcome Z :=
  match n with
  | O => Done 0
  | S n' =>
      c1 ← load8 m s1; c2 ← load8 m s2;
      if negb (c1 =? 0) && (c1 =? c2) then strncmp_loop n' m (s1 + 1) (s2 + 1)
      else Done (c1 - c2)
  end.
Definition strncmp (m : mem) (s1 s2 n : Z) : outcome Z := strncmp_loop (Z.to_nat n) m s1 s2.

Fixpoint strlen_loop (fuel : nat) (m : mem) (s rc : Z) : outcome Z :=
  match fuel with
  | O => Stuck
  | S fuel' => c ← load8 m (s + rc); if c =? 0 then Done rc else strlen_loop fuel' m s (rc + 1)
  end.
Definition strlen (m : mem) (s : Z) : outcome Z := strlen_loop (str_fuel m) m s 0.

Fixpoint strnlen_loop (n : nat) (m : mem) (s rc : Z) : outcome Z :=
  match n with
  | O => Done rc
  | S n' => c ← load8 m (s + rc); if c =? 0 then Done rc else strnlen_loop n' m s (rc + 1)
  end.
Definition strnlen (m : mem) (s n : Z) : outcome Z := strnlen_loop (Z.to_nat n) m s 0.

Fixpoint strchr_loop (fuel : nat) (m : mem) (s c : Z) : outcome Z :=
  match fuel with
  | O => Stuck
  | S fuel' =>
      b ← load8 m s;
      if b =? u8 c then Done s else if b =? 0 then Done NULL else strchr_loop fuel' m (s + 1) c
  end.
Definition strchr (m : mem) (s c : Z) : outcome Z := strchr_loop (str_fuel m) m s c.

(** The descending loop of [strrchr]; [i] is the index after the last one
    that was examined. *)
Fixpoint strrchr_loop (i : nat) (m : mem) (s c : Z) : outcome Z :=
  match i with
  | O => Done NULL
  | S i' =>
      b ← load8 m (s + Z.of_nat i');
      if b =? u8 c then Done (s + Z.of_nat i') else strrchr_loop i' m s c
  end.
Definition strrchr (m : mem) (s c : Z) : outcome Z :=
  i ← strlen m s; strrchr_loop (S (Z.to_nat i)) m s c.

(** The inner loop of [strstr]: how far [p2] matches at [p1]. *)
Fixpoint strstr_match (fuel : nat) (m : mem) (p1 p2 : Z) : outcome Z :=
  match fuel with
  | O => Stuck
  | S fuel' =>
      c2 ← load8 m p2;
      if c2 =? 0 then Done p2
      else c1 ← load8 m p1;
           if c1 =? c2 then strstr_match fuel' m (p1 + 1) (p2 + 1) else Done p2
  end.
Fixpoint strstr_loop (fuel : nat) (m : mem) (s1 s2 : Z) : outcome Z :=
  match fuel with
  | O => Stuck
  | S fuel' =>
      c ← load8 m s1;
      if c =? 0 then Done NULL
      else p2 ← strstr_match (str_fuel m) m s1 s2;
           e ← load8 m p2;
           if e =? 0 then Done s1 else strstr_loop fuel' m (s1 + 1) s2
  end.
Definition strstr (m : mem) (s1 s2 : Z) : outcome Z := strstr_loop (str_fuel m) m s1 s2.

(** ** Numbers: [long] has 32 bits; signed overflow is undefined. *)
Definition is_digit (c : Z) : bool := (48 <=? c) && (c <=? 57).

Fixpoint atol_loop (fuel : nat) (m : mem) (s val : Z) : outcome Z :=
  match fuel with
  | O => Stuck
  | S fuel' =>
      c ← load8 m s;
      if is_digit c then
        let val' := val * 10 + (c - 48) in
        if val' <? 2 ^ 31 then atol_loop fuel' m (s + 1) val' else Fault
      else Done val
  end.
Definition atol (m : mem) (s : Z) : outcome Z :=
  c ← load8 m s;
  if c =? 45 then val ← atol_loop (str_fuel m) m (s + 1) 0; Done (- val)
  else atol_loop (str_fuel m) m s 0.

Definition tolower (c : Z) : Z := if (65 <=? c) && (c <=? 90) then c - 65 + 97 else c.
Definition toupper (c : Z) : Z := if (97 <=? c) && (c <=? 122) then c - 97 + 65 else c.

(** ** Specification vocabulary *)

(** The C string [s] (its bytes before the terminator) is stored at [a]. *)
Definition cstr_at (m : mem) (a : Z) (s : list Z) : Prop :=
  Forall (fun c => 0 < c < 256) s /\ bytes_at m a (s ++ [0]).

(** The C library's comparison of two terminated strings: the difference of
    the first bytes that differ, the terminator included. *)
Fixpoint str_compare (s t : list Z) : Z :=
  match s, t with
  | [], [] => 0
  | [], d :: _ => - d
  | c :: _, [] => c
  | c :: s', d :: t' => if c =? d then str_compare s' t' else c - d
  end.

(** The offset of the first occurrence of [t] in [s]. *)
Fixpoint find_sub (s t : list Z) (i : Z) : option Z :=
  if bool_decide (t `prefix_of` s) then Some i
  else match s with [] => None | _ :: s' => find_sub s' t (i + 1) end.

(** The value of a list of decimal digits (ASCII), most significant first. *)
Definition dec_value (acc : Z) (ds : list Z) : Z := fold_left (fun v c => v * 10 + (c - 48)) ds acc.

(** ** Counted loops: correctness *)
Section counted.
Implicit Types (m : mem) (bs : list Z).

Lemma copy_up_spec bs m d s :
  are_bytes bs -> bytes_at m s bs -> region m d (zlen bs) ->
  d <= s \/ s + zlen bs <= d ->
  copy_up (length bs) m d s = Done (write_bytes m d bs).
Proof.
  revert m d s. induction bs as [|b bs IH]; intros m d s Hb Hs Hd Hov; [done|].
  inversion Hb; subst. rewrite zlen_cons in *. destruct Hs as [[Hx ?] Hs'].
  pose proof (zlen_nonneg bs). destruct (region_lookup _ _ _ d Hd) as [? ?]; [lia|].
  cbn. ld Hx.
  rewrite store8_Done, bind_Done, u8_small by done.
  rewrite IH, write_bytes_insert; [done|lia|done| | |lia].
  - apply bytes_at_insert_ne; [lia|done].
  - apply region_insert. eapply region_sub; [exact Hd|lia..].
Qed.

Lemma copy_down_spec bs m d s :
  are_bytes bs -> bytes_at m s bs -> region m d (zlen bs) -> s <= d ->
  copy_down (length bs) m (d + zlen bs) (s + zlen bs) = Done (write_bytes m d bs).
Proof.
  revert m. induction bs as [|b bs IH] using rev_ind; intros m Hb Hs Hd Hle; [done|].
  apply Forall_app in Hb as [Hbs Hb]. inversion Hb; subst.
  apply bytes_at_app in Hs as [Hs [[Hl ?] _]].
  rewrite length_app, Nat.add_1_r. autorewrite with haywire in *. pose proof (zlen_nonneg bs).
  destruct (region_lookup _ _ _ (d + zlen bs) Hd) as [? ?]; [lia|].
  cbn. replace (s + (zlen bs + (1 + 0)) - 1) with (s + zlen bs) by lia.
  replace (d + (zlen bs + (1 + 0)) - 1) with (d + zlen bs) by lia.
  ld Hl.
  rewrite store8_Done, bind_Done, u8_small by done.
  rewrite IH, write_bytes_app; [done|done| | |done].
  - apply bytes_at_insert_ne; [lia|done].
  - apply region_insert. eapply region_sub; [exact Hd|lia..].
Qed.

Lemma memcpy_spec bs m d s n :
  n = zlen bs -> are_bytes bs -> bytes_at m s bs -> region m d n ->
  d <= s \/ s + n <= d ->
  memcpy m d s n = Done (d, write_bytes m d bs).
Proof.
  intros -> ????. unfold memcpy. rewrite to_nat_zlen.
  by rewrite copy_up_spec.
Qed.

Lemma memcmp_spec xs ys m p q n :
  n = zlen xs -> zlen xs = zlen ys -> bytes_at m p xs -> bytes_at m q ys ->
  exists r, memcmp m p q n = Done r /\ (r = 0 <-> xs = ys).
Proof.
  intros ->. unfold memcmp. rewrite to_nat_zlen.
  revert ys p q. induction xs as [|x xs IH]; intros [|y ys] p q Hl Hp Hq;
    rewrite ?zlen_cons in Hl; try (unfold zlen in Hl; cbn in Hl; lia).
  - by exists 0.
  - destruct Hp as [[Hx ?] Hp'], Hq as [[Hy ?] Hq']. cbn.
    ld Hx. ld Hy.
    case_if; b2p.
    + destruct (IH ys (p + 1) (q + 1)) as (r & -> & Hr); [lia|done..|].
      exists r. split; [done|]. rewrite Hr. split; [by intros ->; subst|by intros [= ->]].
    + exists (x - y). split; [done|]. split; [lia|]. intros [=]. lia.
Qed.

Lemma memset_loop_spec k m p c :
  region m p (Z.of_nat k) -> memset_loop k m p c = Done (write_bytes m p (replicate k (u8 c))).
Proof.
  revert m p. induction k as [|k IH]; intros m p Hr; [done|]. cbn.
  destruct (region_lookup _ _ _ p Hr) as [? ?]; [lia|].
  rewrite store8_Done, bind_Done by done. rewrite !wrap_wrap.
  rewrite IH, write_bytes_insert; [done|lia|].
  apply region_insert. eapply region_sub; [exact Hr|lia..].
Qed.

Lemma memchr_loop_spec bs m p c :
  bytes_at m p bs ->
  (exists i, bs !! i = Some (u8 c) /\ (forall j, (j < i)%nat -> bs !! j ≠ Some (u8 c)) /\
     memchr_loop (length bs) m p c = Done (p + Z.of_nat i)) \/
  ((u8 c ∉ bs) /\ memchr_loop (length bs) m p c = Done NULL).
Proof.
  revert p. induction bs as [|b bs IH]; intros p H.
  - right. split; [apply not_elem_of_nil|done].
  - destruct H as [[Hb ?] H']. cbn. ld Hb.
    case_if; b2p.
    + left. exists O. split; [by subst|]. split; [lia|]. by rewrite Z.add_0_r.
    + destruct (IH (p + 1) H') as [(i & Hi & Hmin & ->)|[Hn ->]].
      * left. exists (S i). split; [done|]. split; [|f_equal; lia].
        intros [|j] Hj; [cbn; congruence|apply Hmin; lia].
      * right. split; [|done]. rewrite not_elem_of_cons. by split.
Qed.
End counted.

(** ** Terminated strings: correctness *)
Section strings.
Implicit Types (m : mem) (s t : list Z).

Lemma cstr_nil m a : cstr_at m a [] <-> m !! a = Some 0 /\ 0 <= a < 2 ^ 32.
Proof. unfold cstr_at. cbn. split; [by intros (_ & ? & _)|]. intros. split; [constructor|done]. Qed.

Lemma cstr_cons m a c s :
  cstr_at m a (c :: s) <->
  0 < c < 256 /\ (m !! a = Some c /\ 0 <= a < 2 ^ 32) /\ cstr_at m (a + 1) s.
Proof. unfold cstr_at. cbn. rewrite Forall_cons. tauto. Qed.

Lemma cstr_fuel m a s : cstr_at m a s -> (length s < str_fuel m)%nat.
Proof.
  intros [_ H]. apply bytes_at_size in H. rewrite length_app in H. unfold str_fuel. cbn in H. lia.
Qed.

Lemma cstr_load m a s i :
  cstr_at m a s -> (i <= length s)%nat -> exists c, load8 m (a + Z.of_nat i) = Done c /\ (s ++ [0]) !! i = Some c.
Proof.
  intros [_ H] Hi. destruct (lookup_lt_is_Some_2 (s ++ [0]) i) as [c Hc].
  { rewrite length_app. cbn. lia. }
  exists c. split; [|done]. by apply (load8_bytes_at m a (s ++ [0])).
Qed.

Lemma cstr_bytes m a s : cstr_at m a s -> are_bytes s.
Proof. intros [H _]. eapply Forall_impl; [exact H|]. unfold is_byte. cbn. lia. Qed.

Lemma strlen_loop_spec fuel m a rc s :
  cstr_at m (a + rc) s -> (length s < fuel)%nat -> strlen_loop fuel m a rc = Done (rc + zlen s).
Proof.
  revert rc s. induction fuel as [|fuel IH]; intros rc s H Hf; [lia|]. cbn.
  destruct s as [|c s].
  - apply cstr_nil in H as [H ?]. ld H. bdec.
    rewrite zlen_nil. f_equal. lia.
  - apply cstr_cons in H as (? & [H ?] & Hs). ld H.
    bdec. replace (a + rc + 1) with (a + (rc + 1)) in Hs by lia.
    rewrite (IH (rc + 1) s), zlen_cons; [f_equal; lia|done|cbn in Hf; lia].
Qed.

Lemma strlen_spec m a s : cstr_at m a s -> strlen m a = Done (zlen s).
Proof.
  intros H. unfold strlen. rewrite (strlen_loop_spec _ _ _ _ s).
  - f_equal.
  - by rewrite Z.add_0_r.
  - by eapply cstr_fuel.
Qed.

Lemma strcmp_loop_spec fuel m a b s t :
  cstr_at m a s -> cstr_at m b t -> (length s < fuel)%nat ->
  strcmp_loop fuel m a b = Done (str_compare s t).
Proof.
  revert a b s t. induction fuel as [|fuel IH]; intros a b s t Hs Ht Hf; [lia|]. cbn.
  destruct s as [|c s].
  - apply cstr_nil in Hs as [Ha ?]. ld Ha.
    destruct t as [|d t].
    + apply cstr_nil in Ht as [Hb ?]. by ld Hb.
    + apply cstr_cons in Ht as (? & [Hb ?] & Ht). by ld Hb.
  - apply cstr_cons in Hs as (? & [Ha ?] & Hs). ld Ha.
    destruct t as [|d t].
    + apply cstr_nil in Ht as [Hb ?]. ld Hb. cbn.
      bdec. f_equal. lia.
    + apply cstr_cons in Ht as (? & [Hb ?] & Ht). ld Hb. cbn.
      bdec. destruct (c =? d) eqn:?; [|done]. apply IH; [done..|]. cbn in Hf. lia.
Qed.

Lemma strcmp_spec m a b s t :
  cstr_at m a s -> cstr_at m b t -> strcmp m a b = Done (str_compare s t).
Proof. intros Hs Ht. apply strcmp_loop_spec; [done..|]. by eapply cstr_fuel. Qed.

Lemma str_compare_eq s t :
  Forall (fun c => 0 < c) s -> Forall (fun c => 0 < c) t -> str_compare s t = 0 <-> s = t.
Proof.
  intros Hs. revert t. induction Hs as [|c s Hc _ IH]; intros [|d t] Ht; cbn; try done.
  - inversion Ht; subst. split; [lia|done].
  - split; [lia|done].
  - inversion Ht; subst. case_if; b2p.
    + rewrite IH by done. split; [by intros ->; subst|by intros [= ->]].
    + split; [lia|]. intros [=]. lia.
Qed.

Lemma strcpy_loop_spec fuel m d a s :
  cstr_at m a s -> region m d (zlen s + 1) -> d + zlen s + 1 <= a \/ a + zlen s + 1 <= d ->
  (length s < fuel)%nat ->
  strcpy_loop fuel m d a = Done (write_bytes m d (s ++ [0])).
Proof.
  revert m d a s. induction fuel as [|fuel IH]; intros m d a s Hs Hr Hd Hf; [lia|]. cbn.
  pose proof (zlen_nonneg s). destruct (region_lookup _ _ _ d Hr) as [? ?]; [lia|].
  destruct s as [|c s].
  - apply cstr_nil in Hs as [Ha ?]. ld Ha.
    by rewrite store8_Done, bind_Done by done.
  - apply cstr_cons in Hs as (? & [Ha ?] & Hs). ld Ha.
    rewrite store8_Done, bind_Done by done. rewrite zlen_cons in *. bdec.
    rewrite u8_small by (unfold is_byte; lia).
    rewrite (IH _ _ _ s); [|split; [apply Hs|]| | |cbn in Hf; lia].
    + rewrite write_bytes_insert by lia. done.
    + apply bytes_at_insert_ne; [|apply Hs]. autorewrite with haywire. lia.
    + apply region_insert. eapply region_sub; [exact Hr|lia..].
    + lia.
Qed.

Lemma strcpy_spec m d a s :
  cstr_at m a s -> region m d (zlen s + 1) -> d + zlen s + 1 <= a \/ a + zlen s + 1 <= d ->
  strcpy m d a = Done (d, write_bytes m d (s ++ [0])).
Proof. intros ???. unfold strcpy. by rewrite (strcpy_loop_spec _ _ _ _ s) by eauto using cstr_fuel. Qed.
End strings.

Section searching.
Implicit Types (m : mem) (s t : list Z).

Lemma strncpy_loop_spec n m d a s :
  cstr_at m a s -> region m d (Z.of_nat n) -> d + Z.of_nat n <= a \/ a + zlen s + 1 <= d ->
  strncpy_loop n m d a =
    if decide (length s < n)%nat
    then Done ((n - length s)%nat, d + zlen s + 1, write_bytes m d (s ++ [0]))
    else Done (O, d + Z.of_nat n, write_bytes m d (take n s)).
Proof.
  revert m d a s. induction n as [|n IH]; intros m d a s Hs Hr Hd.
  { cbn. by rewrite Z.add_0_r, take_0. }
  cbn [strncpy_loop]. pose proof (zlen_nonneg s). destruct (region_lookup _ _ _ d Hr) as [? ?]; [lia|].
  destruct s as [|c s].
  - apply cstr_nil in Hs as [Ha ?]. ld Ha. rewrite store8_Done, bind_Done by done.
    case_decide; [|cbn in *; lia]. change (zlen []) with 0. by rewrite Z.add_0_r, Nat.sub_0_r.
  - apply cstr_cons in Hs as (? & [Ha ?] & Hs). ld Ha.
    rewrite store8_Done, bind_Done by done. rewrite zlen_cons in *. bdec.
    rewrite u8_small by (unfold is_byte; lia).
    rewrite (IH _ _ _ s); [|split; [apply Hs|]| |lia].
    + rewrite !write_bytes_insert by lia. cbn [length take].
      do 2 case_decide; try lia; cbn [app write_bytes].
      * by replace (d + 1 + zlen s + 1) with (d + (1 + zlen s) + 1) by lia.
      * by replace (d + 1 + Z.of_nat n) with (d + Z.of_nat (S n)) by lia.
    + apply bytes_at_insert_ne; [|apply Hs]. autorewrite with haywire. lia.
    + apply region_insert. eapply region_sub; [exact Hr|lia..].
Qed.

Lemma strchr_loop_spec fuel m a c s :
  cstr_at m a s -> (length s < fuel)%nat ->
  (exists i, (s ++ [0]) !! i = Some (u8 c) /\
     (forall j, (j < i)%nat -> (s ++ [0]) !! j ≠ Some (u8 c)) /\
     strchr_loop fuel m a c = Done (a + Z.of_nat i)) \/
  ((u8 c ∉ s ++ [0]) /\ strchr_loop fuel m a c = Done NULL).
Proof.
  revert a s. induction fuel as [|fuel IH]; intros a s Hs Hf; [lia|]. cbn [strchr_loop].
  destruct s as [|b s].
  - apply cstr_nil in Hs as [Ha ?]. ld Ha. cbn. case_if; b2p.
    + left. exists O. cbn. split; [congruence|]. split; [lia|]. by rewrite Z.add_0_r.
    + right. split; [|done]. set_solver.
  - apply cstr_cons in Hs as (? & [Ha ?] & Hs). ld Ha. case_if; b2p.
    + left. exists O. cbn. split; [congruence|]. split; [lia|]. by rewrite Z.add_0_r.
    + bdec. destruct (IH (a + 1) s Hs) as [(i & Hi & Hmin & ->)|[Hn ->]]; [cbn in Hf; lia|..].
      * left. exists (S i). split; [done|]. split; [|f_equal; lia].
        intros [|j] Hj; [cbn; congruence|apply Hmin; lia].
      * right. split; [|done]. cbn. rewrite not_elem_of_cons. by split.
Qed.

Lemma strstr_match_spec fuel m p q s t :
  cstr_at m p s -> cstr_at m q t -> (length t < fuel)%nat ->
  exists p' e, strstr_match fuel m p q = Done p' /\ load8 m p' = Done e /\
    (e = 0 <-> t `prefix_of` s).
Proof.
  revert p q s t. induction fuel as [|fuel IH]; intros p q s t Hs Ht Hf; [lia|]. cbn [strstr_match].
  destruct t as [|d t].
  - apply cstr_nil in Ht as [Hq ?]. ld Hq. exists q, 0. rewrite (load8_lookup _ _ _ Hq) by done.
    repeat split; [|done..]. intros _. apply prefix_nil.
  - pose proof Ht as Ht0. apply cstr_cons in Ht as (? & [Hq ?] & Ht). ld Hq. bdec.
    destruct s as [|c s].
    + apply cstr_nil in Hs as [Hp ?]. ld Hp. bdec. exists q, d.
      rewrite (load8_lookup _ _ _ Hq) by done. repeat split; [lia|].
      intros H'. by apply prefix_nil_not in H'.
    + apply cstr_cons in Hs as (? & [Hp ?] & Hs). ld Hp. case_if; b2p.
      * subst. destruct (IH (p + 1) (q + 1) s t) as (p' & e & Hm & Hl & He); [done..|cbn in Hf; lia|].
        exists p', e. split; [done|]. split; [done|]. rewrite He. split.
        -- intros. by apply prefix_cons.
        -- by apply prefix_cons_inv_2.
      * exists q, d. rewrite (load8_lookup _ _ _ Hq) by done. repeat split; [lia|].
        intros H'. apply prefix_cons_inv_1 in H'. congruence.
Qed.

Lemma strstr_loop_spec fuel m p q s t i :
  cstr_at m p s -> cstr_at m q t -> s ≠ [] \/ t ≠ [] -> (length s < fuel)%nat ->
  strstr_loop fuel m p q =
    Done (match find_sub s t i with Some j => p + (j - i) | None => NULL end).
Proof.
  revert p s i. induction fuel as [|fuel IH]; intros p s i Hs Ht Hne Hf; [lia|]. cbn [strstr_loop].
  destruct s as [|c s].
  - apply cstr_nil in Hs as [Hp ?]. ld Hp. cbn. rewrite bool_decide_eq_false_2; [done|].
    destruct t as [|d t]; [by destruct Hne|]. apply prefix_nil_not.
  - pose proof Hs as Hs0. apply cstr_cons in Hs as (? & [Hp ?] & Hs). ld Hp. bdec.
    destruct (strstr_match_spec (str_fuel m) m p q (c :: s) t) as (p' & e & -> & He & Hpre);
      [done|done|by eapply cstr_fuel|].
    rewrite bind_Done, He, bind_Done. cbn [find_sub]. case_if; b2p.
    + rewrite bool_decide_eq_true_2 by tauto. f_equal. lia.
    + rewrite bool_decide_eq_false_2 by tauto.
      destruct (decide (t = [])) as [->|].
      { destruct Hpre as [_ Hpre]. specialize (Hpre (prefix_nil _)). done. }
      rewrite (IH (p + 1) s (i + 1)); [|done|done|by right|cbn in Hf; lia].
      destruct (find_sub s t (i + 1)); [|done]. f_equal. lia.
Qed.

Lemma dec_value_mono acc ds :
  0 <= acc -> forallb is_digit ds = true -> acc <= dec_value acc ds.
Proof.
  unfold dec_value, is_digit. revert acc. induction ds as [|d ds IH]; intros acc Ha Hd; cbn in *; [lia|].
  b2p. transitivity (acc * 10 + (d - 48)); [lia|]. apply IH; [lia|done].
Qed.

Lemma atol_loop_spec fuel m a ds rest acc :
  cstr_at m a (ds ++ rest) -> forallb is_digit ds = true ->
  match rest with [] => True | c :: _ => is_digit c = false end ->
  0 <= acc -> dec_value acc ds < 2 ^ 31 -> (length ds < fuel)%nat ->
  atol_loop fuel m a acc = Done (dec_value acc ds).
Proof.
  revert a ds acc. induction fuel as [|fuel IH]; intros a ds acc Hs Hd Hr Ha Hv Hf; [lia|].
  cbn [atol_loop]. destruct ds as [|d ds].
  - destruct rest as [|c rest].
    + apply cstr_nil in Hs as [Hp ?]. by ld Hp.
    + apply cstr_cons in Hs as (? & [Hp ?] & _). ld Hp. by rewrite Hr.
  - apply cstr_cons in Hs as (? & [Hp ?] & Hs). ld Hp. cbn in Hd. b2p.
    replace (is_digit d) with true. unfold is_digit in *. b2p. cbn zeta.
    pose proof (dec_value_mono (acc * 10 + (d - 48)) ds) as Hm. cbn in Hv.
    change (dec_value acc (d :: ds)) with (dec_value (acc * 10 + (d - 48)) ds) in *.
    assert (acc * 10 + (d - 48) < 2 ^ 31) by (specialize (Hm ltac:(lia) ltac:(done)); unfold dec_value in *; cbn in *; lia).
    bdec. apply IH; [done..|lia|done|cbn in Hf; lia].
Qed.
End searching.

Lemma strrchr_loop_spec i m a c bs :
  bytes_at m a bs -> (i <= length bs)%nat ->
  (exists j, (j < i)%nat /\ bs !! j = Some (u8 c) /\
     (forall k, (j < k < i)%nat -> bs !! k ≠ Some (u8 c)) /\
     strrchr_loop i m a c = Done (a + Z.of_nat j)) \/
  ((forall k, (k < i)%nat -> bs !! k ≠ Some (u8 c)) /\ strrchr_loop i m a c = Done NULL).
Proof.
  intros H. induction i as [|i IH]; intros Hi; [right; split; [lia|done]|]. cbn.
  destruct (lookup_lt_is_Some_2 bs i) as [b Hb]; [lia|].
  rewrite (load8_bytes_at _ _ _ _ _ H Hb), bind_Done. case_if; b2p.
  - left. exists i. repeat split; [lia|congruence|lia].
  - destruct IH as [(j & ? & ? & Hmax & ->)|[Hn ->]]; [lia|left|right].
    + exists j. split; [lia|]. split; [done|]. split; [|done].
      intros k Hk. destruct (decide (k = i)) as [->|]; [congruence|apply Hmax; lia].
    + split; [|done]. intros k Hk. destruct (decide (k = i)) as [->|]; [congruence|apply Hn; lia].
Qed.

(** ** Properties *)

(** A small memory for the witnesses: [bs] from address 4096 on, then zeros. *)
Definition demo_mem (bs : list Z) (n : nat) : mem := write_bytes ∅ 4096 (bs ++ replicate n 0).

Lemma memmove_spec (m : mem) (d s : Z) (bs : list Z) :
  are_bytes bs -> bytes_at m s bs -> region m d (zlen bs) ->
  memmove m d s (zlen bs) = Done (d, write_bytes m d bs).
Proof.
  intros Hb Hs Hd. unfold memmove. rewrite to_nat_zlen.
  case_if; b2p; [rewrite copy_up_spec by auto|rewrite copy_down_spec by (auto; lia)]; done.
Qed.

(** C21: [memmove] copies the source bytes to the destination whatever the
    overlap of the two ranges, changes no other byte, and never leaves the two
    ranges: the result is the memory with the original source bytes written at
    the destination. *)
Theorem memmove_correct (m : mem) (d s : Z) (bs : list Z) :
  are_bytes bs -> bytes_at m s bs -> region m d (zlen bs) ->
  memmove m d s (zlen bs) = Done (d, write_bytes m d bs).
Proof. apply memmove_spec. Qed.

Lemma memmove_correct_witness :
  memmove (demo_mem [1; 2; 3; 4; 5] 3) 4098 4096 5 =
    Done (4098, demo_mem [1; 2; 1; 2; 3; 4; 5] 1).
Proof.
  refine (eq_trans (memmove_correct _ 4098 4096 [1; 2; 3; 4; 5] _ _ _) _).
  - by repeat constructor.
  - vm_compute. repeat split; congruence.
  - exists [3; 4; 5; 0; 0]. split; [reflexivity|]. vm_compute. repeat split; congruence.
  - vm_compute. reflexivity.
Defined.

(** C34: [strncpy] of a terminated string to a mapped block of [n] bytes that does
    not overlap it returns the block and writes exactly its [n] bytes: the string, cut to [n] bytes
    without a terminator when it is longer, and padded with zeros when it is shorter;
    nothing else in memory changes. *)
Theorem strncpy_correct (m : mem) (d a n : Z) (s : list Z) :
  0 <= n -> cstr_at m a s -> region m d n -> d + n <= a \/ a + zlen s + 1 <= d ->
  strncpy m d a n =
    Done (d, write_bytes m d (take (Z.to_nat n) (s ++ replicate (Z.to_nat n) 0))).
Proof.
  intros Hn Hs Hd Hov. unfold strncpy.
  rewrite (strncpy_loop_spec _ _ _ _ s) by (rewrite ?Z2Nat.id; auto). pose proof (zlen_nonneg s).
  assert (zlen s = Z.of_nat (length s)) by done.
  case_decide as Hl; rewrite bind_Done.
  - rewrite memset_loop_spec.
    + rewrite bind_Done. do 2 f_equal.
      replace (d + zlen s + 1) with (d + zlen (s ++ [0])) by (autorewrite with haywire; lia).
      rewrite <- write_bytes_app_up. f_equal.
      rewrite take_app_ge by lia. rewrite <- app_assoc. f_equal.
      rewrite take_replicate, Nat.min_l by lia.
      by replace (Z.to_nat n - length s)%nat with (S (Nat.pred (Z.to_nat n - length s))) at 2 by lia.
    + apply region_write. eapply region_sub; [exact Hd|lia..].
  - rewrite memset_loop_spec by (eapply region_write, region_sub; [exact Hd|cbn; lia..]).
    rewrite bind_Done. do 2 f_equal. by rewrite take_app_le by lia.
Qed.

Lemma strncpy_correct_witness :
  strncpy (demo_mem [104; 105; 0; 9; 9; 9; 9] 1) 4099 4096 4 =
    Done (4099, demo_mem [104; 105; 0; 104; 105; 0; 0] 1).
Proof.
  rewrite (strncpy_correct (demo_mem [104; 105; 0; 9; 9; 9; 9] 1) 4099 4096 4 [104; 105]).
  - vm_compute. reflexivity.
  - lia.
  - split; [by repeat constructor|]. vm_compute. repeat split; congruence.
  - exists [9; 9; 9; 9]. split; [reflexivity|]. vm_compute. repeat split; congruence.
  - right. vm_compute. congruence.
Defined.

(** [strstr] returns the first occurrence of the needle, or [NULL] when
    there is none, for every haystack and needle that are not both empty. *)
Theorem strstr_correct (m : mem) (p q : Z) (s t : list Z) :
  cstr_at m p s -> cstr_at m q t -> s ≠ [] \/ t ≠ [] ->
  strstr m p q = Done (match find_sub s t 0 with Some j => p + j | None => NULL end).
Proof.
  intros Hs Ht Hne. unfold strstr.
  rewrite (strstr_loop_spec _ _ _ _ s t 0) by eauto using cstr_fuel.
  destruct (find_sub s t 0); [|done]. by rewrite Z.sub_0_r.
Qed.

Lemma strstr_correct_witness :
  strstr (demo_mem [97; 97; 98; 97; 98; 99; 0; 97; 98; 99] 1) 4096 4103 = Done 4099.
Proof.
  rewrite (strstr_correct _ 4096 4103 [97; 97; 98; 97; 98; 99] [97; 98; 99]).
  - reflexivity.
  - split; [by repeat constructor|]. vm_compute. repeat split; congruence.
  - split; [by repeat constructor|]. vm_compute. repeat split; congruence.
  - left. congruence.
Defined.

(** With an empty haystack and an empty needle the code returns [NULL], where
    the C library returns the haystack. *)
Lemma strstr_empty_empty (m : mem) (p q : Z) : cstr_at m p [] -> strstr m p q = Done NULL.
Proof. intros [Hp ?]%cstr_nil. unfold strstr, str_fuel. cbn. by ld Hp. Qed.
