(* ===== verification/RingBuffer.v ===== *)
(** * Byte ring buffer (src/ringbuffer.c, src/ringbuffer.h)

    The buffer keeps one slot free, so a ring of length [len] holds at most
    [len - 1] bytes.  The abstract state is the queue [contents]; [read] and
    [write] are shown to be dequeue and enqueue on it. *)
From S2P Require Import Prelude.

Record ringbuffer_t : Type := Ring {
  buffer : list Z;
  len : Z;
  rd : Z;   (* the field [read] *)
  wr : Z;   (* the field [write] *)
}.

(** [calloc_bfr] and [calloc_buffer] say whether the two [calloc] calls
    succeed; [calloc] returns zeroed memory. *)
Definition ringbuffer_alloc (calloc_bfr calloc_buffer : bool) (n : Z) : option ringbuffer_t :=
  if negb calloc_bfr then None
  else if negb calloc_buffer then None
  else Some (Ring (replicate (Z.to_nat n) 0) n 0 0).

(** [x % len]; the division by zero is undefined. *)
Definition c_mod (x n : Z) : outcome Z := if n =? 0 then Fault else Done (x mod n).

(** The bytes stored through [target], in order; their number is the C result. *)
Fixpoint ringbuffer_read (n : nat) (bfr : ringbuffer_t) : outcome (list Z * ringbuffer_t) :=
  match n with
  | O => Done ([], bfr)
  | S n' =>
      if rd bfr =? wr bfr then Done ([], bfr)
      else
        c ← znth (buffer bfr) (rd bfr);
        r ← c_mod (u32 (rd bfr + 1)) (len bfr);
        '(cs, bfr') ← ringbuffer_read n' (Ring (buffer bfr) (len bfr) r (wr bfr));
        Done (c :: cs, bfr')
  end.

(** [src] holds the [len] bytes offered; the result is the number written. *)
Fixpoint ringbuffer_write (src : list Z) (bfr : ringbuffer_t) : outcome (Z * ringbuffer_t) :=
  match src with
  | [] => Done (0, bfr)
  | c :: src' =>
      w ← c_mod (u32 (wr bfr + 1)) (len bfr);
      if w =? rd bfr then Done (0, bfr)
      else
        buf ← zset (buffer bfr) (wr bfr) c;
        w' ← c_mod (u32 (wr bfr + 1)) (len bfr);
        '(k, bfr') ← ringbuffer_write src' (Ring buf (len bfr) (rd bfr) w');
        Done (k + 1, bfr')
  end.

Definition ringbuffer_get_used (bfr : ringbuffer_t) : Z :=
  let read := rd bfr in
  let write := if wr bfr <? rd bfr then u32 (wr bfr + len bfr) else wr bfr in
  u32 (write - read).

Definition ringbuffer_get_free (bfr : ringbuffer_t) : Z :=
  u32 (len bfr - ringbuffer_get_used bfr).

(** ** Abstract queue *)

(** Well-formed rings: the indices stay inside the buffer. *)
Definition ring_wf (b : ringbuffer_t) : Prop :=
  zlen (buffer b) = len b /\ 0 < len b < 2 ^ 31 /\ 0 <= rd b < len b /\ 0 <= wr b < len b.

(** The queued bytes, oldest first. *)
Definition contents (b : ringbuffer_t) : list Z :=
  take (Z.to_nat (ringbuffer_get_used b)) (drop (Z.to_nat (rd b)) (buffer b ++ buffer b)).

(** ** Operation sequences *)
Inductive ring_op : Type :=
| Rput (src : list Z)
| Rget (n : nat).

(** [ring_steps b ops out acc b']: running [ops] from [b] returns the bytes
    [out], accepts the bytes [acc] and ends in [b']. *)
Inductive ring_steps : ringbuffer_t -> list ring_op -> list Z -> list Z -> ringbuffer_t -> Prop :=
| rs_nil b : ring_steps b [] [] [] b
| rs_put b src k b1 ops out acc b2 :
    ringbuffer_write src b = Done (k, b1) ->
    ring_steps b1 ops out acc b2 ->
    ring_steps b (Rput src :: ops) out (take (Z.to_nat k) src ++ acc) b2
| rs_get b n cs b1 ops out acc b2 :
    ringbuffer_read n b = Done (cs, b1) ->
    ring_steps b1 ops out acc b2 ->
    ring_steps b (Rget n :: ops) (cs ++ out) acc b2.

Section ring.
Implicit Types b : ringbuffer_t.

Lemma used_value b :
  ring_wf b ->
  ringbuffer_get_used b = if wr b <? rd b then wr b + len b - rd b else wr b - rd b.
Proof.
  intros (? & ? & ? & ?). unfold ringbuffer_get_used, wrap.
  destruct (wr b <? rd b) eqn:?; b2p; rewrite ?(Z.mod_small (wr b + len b)) by lia;
    rewrite Z.mod_small; lia.
Qed.

Lemma used_range b : ring_wf b -> 0 <= ringbuffer_get_used b < len b.
Proof. intros H. rewrite used_value by done. destruct H as (? & ? & ? & ?). case_if; b2p; lia. Qed.

Lemma double_length b : ring_wf b -> Z.of_nat (length (buffer b ++ buffer b)) = 2 * len b.
Proof. intros (Hl & _). unfold zlen in Hl. rewrite length_app. lia. Qed.

Lemma contents_length b : ring_wf b -> zlen (contents b) = ringbuffer_get_used b.
Proof.
  intros H. pose proof (used_range b H). pose proof (double_length b H).
  unfold zlen, contents. rewrite length_take, length_drop. destruct H as (? & ? & ? & ?). lia.
Qed.

Lemma contents_lookup b i :
  ring_wf b -> Z.of_nat i < ringbuffer_get_used b ->
  contents b !! i = buffer b !! Z.to_nat ((rd b + Z.of_nat i) mod len b).
Proof.
  intros H Hi. pose proof (used_range b H). unfold contents.
  destruct H as (Hl & ? & ? & ?). unfold zlen in Hl.
  rewrite lookup_take_lt, lookup_drop by lia.
  destruct (decide (rd b + Z.of_nat i < len b)).
  - rewrite lookup_app_l, Z.mod_small by lia. f_equal. lia.
  - rewrite lookup_app_r by lia. f_equal.
    replace ((rd b + Z.of_nat i) mod len b) with (rd b + Z.of_nat i - len b); [lia|].
    apply Z.mod_unique_pos with 1; lia.
Qed.

Lemma contents_empty b : ring_wf b -> rd b = wr b -> contents b = [].
Proof.
  intros H He. apply nil_length_inv. pose proof (contents_length b H) as Hc.
  rewrite used_value in Hc by done. rewrite He in Hc. unfold zlen in Hc.
  destruct (wr b <? wr b) eqn:?; b2p; lia.
Qed.

(** Advancing the read index pops the first byte. *)
Lemma contents_pop b :
  ring_wf b -> rd b ≠ wr b ->
  let b' := Ring (buffer b) (len b) ((rd b + 1) mod len b) (wr b) in
  exists c, buffer b !! Z.to_nat (rd b) = Some c /\ contents b = c :: contents b' /\ ring_wf b'.
Proof.
  intros H Hne b'. pose proof H as (Hl & ? & ? & ?). unfold zlen in Hl.
  assert (ring_wf b') as H'.
  { repeat split; cbn; unfold zlen; try lia; apply Z.mod_pos_bound; lia. }
  destruct (lookup_lt_is_Some_2 (buffer b) (Z.to_nat (rd b))) as [c Hc]; [lia|].
  exists c. split; [done|]. split; [|done].
  assert (ringbuffer_get_used b = 1 + ringbuffer_get_used b') as Hu.
  { rewrite !used_value by done. cbn. destruct (decide (rd b + 1 = len b)) as [He|].
    - rewrite He, Z_mod_same_full. repeat case_if; b2p; lia.
    - rewrite (Z.mod_small (rd b + 1)) by lia. repeat case_if; b2p; lia. }
  pose proof (contents_length b H) as L1. pose proof (contents_length b' H') as L2.
  unfold zlen in *. apply list_eq_same_length with (length (contents b)); [cbn; lia|done|].
  intros i x y Hi. rewrite contents_lookup by (done || lia).
  destruct i as [|i]; cbn [lookup list_lookup].
  - rewrite Z.add_0_r, Z.mod_small by lia. congruence.
  - rewrite contents_lookup by (done || lia). cbn.
    rewrite Zplus_mod_idemp_l. replace (rd b + Z.of_nat (S i)) with (rd b + 1 + Z.of_nat i) by lia.
    congruence.
Qed.

(** Storing at the write index and advancing it appends a byte. *)
Lemma contents_push b c :
  ring_wf b -> (wr b + 1) mod len b ≠ rd b ->
  let b' := Ring (<[Z.to_nat (wr b) := c]> (buffer b)) (len b) (rd b) ((wr b + 1) mod len b) in
  contents b' = contents b ++ [c] /\ ring_wf b'.
Proof.
  intros H Hne b'. pose proof H as (Hl & ? & ? & ?). unfold zlen in Hl.
  assert (ring_wf b') as H'.
  { repeat split; cbn; unfold zlen; rewrite ?length_insert; try lia; apply Z.mod_pos_bound; lia. }
  split; [|done].
  assert (ringbuffer_get_used b' = 1 + ringbuffer_get_used b /\
          (rd b + ringbuffer_get_used b) mod len b = wr b) as [Hu Hw].
  { rewrite !used_value by done. cbn. destruct (decide (wr b + 1 = len b)) as [He|].
    - rewrite He, Z_mod_same_full in *. repeat case_if; b2p; try lia.
      split; [lia|]. rewrite Z.mod_small; lia.
    - rewrite (Z.mod_small (wr b + 1)) in * by lia. repeat case_if; b2p; split; try lia.
      + replace (rd b + (wr b + len b - rd b)) with (wr b + 1 * len b) by lia.
        rewrite Z_mod_plus_full. apply Z.mod_small. lia.
      + rewrite Z.mod_small; lia. }
  pose proof (contents_length b H) as L1. pose proof (contents_length b' H') as L2.
  pose proof (used_range b H). pose proof (used_range b' H') as Hr'. cbn in Hr'.
  unfold zlen in *. apply list_eq_same_length with (length (contents b')); [rewrite length_app; cbn; lia|done|].
  intros i x y Hi. rewrite contents_lookup by (done || lia). cbn.
  destruct (decide (i < length (contents b))%nat).
  - rewrite lookup_app_l, contents_lookup by (done || lia).
    rewrite list_lookup_insert_ne; [congruence|]. intros He.
    pose proof (Z.mod_pos_bound (rd b + Z.of_nat i) (len b)).
    assert (ringbuffer_get_used b = Z.of_nat i); [|lia].
    apply (mod_add_inj (len b) (rd b)); lia.
  - assert (i = length (contents b)) as -> by lia. rewrite lookup_app_r, Nat.sub_diag by lia.
    rewrite L1, Hw. rewrite list_lookup_insert_eq by lia. cbn. congruence.
Qed.
End ring.

Lemma u32_succ b x : ring_wf b -> 0 <= x < len b -> u32 (x + 1) = x + 1.
Proof. intros (_ & ? & _) ?. apply u32_small. lia. Qed.

Lemma c_mod_Done x n : n ≠ 0 -> c_mod x n = Done (x mod n).
Proof. intros. unfold c_mod. by bdec. Qed.

(** The two operations always return; shared by the properties below. *)
Lemma read_spec (n : nat) (b : ringbuffer_t) :
  ring_wf b ->
  exists b', ringbuffer_read n b = Done (take n (contents b), b') /\
    contents b' = drop n (contents b) /\ ring_wf b' /\ len b' = len b.
Proof.
  revert b. induction n as [|n IH]; intros b H.
  { exists b. rewrite take_0, drop_0. done. }
  cbn [ringbuffer_read]. pose proof H as (? & ? & ? & ?). case_if; b2p.
  - exists b. rewrite contents_empty by done. done.
  - destruct (contents_pop b H) as (c & Hc & -> & H'); [done|].
    assert (znth (buffer b) (rd b) = Done c) as -> by (apply znth_Done; split; [lia|done]).
    rewrite bind_Done, (u32_succ b), c_mod_Done, bind_Done by (done || lia).
    destruct (IH _ H') as (b' & -> & ? & ? & ?). exists b'. by rewrite bind_Done.
Qed.

Lemma write_spec (src : list Z) (b : ringbuffer_t) :
  ring_wf b ->
  let k := Z.min (zlen src) (len b - 1 - zlen (contents b)) in
  exists b', ringbuffer_write src b = Done (k, b') /\
    contents b' = contents b ++ take (Z.to_nat k) src /\ ring_wf b' /\ len b' = len b.
Proof.
  revert b. induction src as [|c src IH]; intros b H k; pose proof (used_range b H);
    pose proof (contents_length b H).
  { exists b. assert (k = 0) as -> by (unfold k; rewrite zlen_nil; lia).
    rewrite take_nil, app_nil_r. done. }
  pose proof H as (Hl & ? & ? & ?). cbn [ringbuffer_write].
  rewrite (u32_succ b), c_mod_Done, bind_Done by (done || lia).
  pose proof (zlen_nonneg src). pose proof (used_value b H) as Hu. case_if; b2p.
  - exists b. assert (k = 0) as ->; [|rewrite take_0, app_nil_r; done].
    unfold k. rewrite zlen_cons. destruct (decide (wr b + 1 = len b)) as [He|].
    + rewrite He, Z_mod_same_full in *. destruct (wr b <? rd b) eqn:?; b2p; lia.
    + rewrite Z.mod_small in * by lia. destruct (wr b <? rd b) eqn:?; b2p; lia.
  - rewrite zset_Done, !bind_Done by lia. destruct (contents_push b c H) as [Hc H']; [done|].
    destruct (IH _ H') as (b' & -> & Hc' & Hwf & Hlen). rewrite bind_Done.
    pose proof (used_range _ H') as Hur. rewrite <- contents_length in Hur by done.
    rewrite Hc in *. cbn [len] in *. autorewrite with haywire in *.
    exists b'. split; [do 2 f_equal; unfold k; rewrite zlen_cons; lia|]. split; [|done].
    rewrite Hc', <- app_assoc. f_equal. unfold k. rewrite zlen_cons.
    by replace (Z.to_nat (Z.min (1 + zlen src) (len b - 1 - zlen (contents b))))
      with (S (Z.to_nat (Z.min (zlen src) (len b - 1 - (zlen (contents b) + (1 + 0)))))) by lia.
Qed.

(** ** Properties *)

(** [ringbuffer_read] dequeues: it delivers the oldest [n] queued bytes (all
    of them when fewer are queued), in order, and leaves exactly the others
    queued; the indices stay inside the buffer. *)
Theorem ringbuffer_read_correct (n : nat) (b : ringbuffer_t) :
  ring_wf b ->
  exists b', ringbuffer_read n b = Done (take n (contents b), b') /\
    contents b' = drop n (contents b) /\ ring_wf b' /\ len b' = len b.
Proof. apply read_spec. Qed.

Lemma ringbuffer_read_correct_witness :
  exists b', ringbuffer_read 3 (Ring [7; 8; 0; 5; 6] 5 3 2) = Done ([5; 6; 7], b') /\
    contents b' = [8].
Proof.
  destruct (ringbuffer_read_correct 3 (Ring [7; 8; 0; 5; 6] 5 3 2)) as (b' & Hr & Hc & _).
  - vm_compute. repeat split; congruence.
  - exists b'. split; [exact Hr|exact Hc].
Defined.

(** [ringbuffer_write] enqueues the longest prefix of the offered bytes that
    fits in the [len - 1] byte capacity, returns its length, keeps what was
    queued in front of it, and keeps the indices inside the buffer. *)
Theorem ringbuffer_write_correct (src : list Z) (b : ringbuffer_t) :
  ring_wf b ->
  let k := Z.min (zlen src) (len b - 1 - zlen (contents b)) in
  exists b', ringbuffer_write src b = Done (k, b') /\
    contents b' = contents b ++ take (Z.to_nat k) src /\ ring_wf b' /\ len b' = len b.
Proof. apply write_spec. Qed.

Lemma ringbuffer_write_correct_witness :
  exists b', ringbuffer_write [1; 2; 3; 4] (Ring [7; 8; 0; 5; 6] 5 4 1) = Done (2, b') /\
    contents b' = [6; 7; 1; 2].
Proof.
  destruct (ringbuffer_write_correct [1; 2; 3; 4] (Ring [7; 8; 0; 5; 6] 5 4 1)) as (b' & Hr & Hc & _).
  - vm_compute. repeat split; congruence.
  - exists b'. split; [exact Hr|exact Hc].
Defined.

(** C16: a ring is a FIFO: over any sequence of reads and writes the bytes
    delivered so far followed by the bytes still queued are exactly the bytes
    initially queued followed by the bytes accepted, in order; nothing is
    lost, duplicated or reordered, and every sequence can be run. *)
Theorem ring_fifo (ops : list ring_op) (b : ringbuffer_t) :
  ring_wf b ->
  (exists out acc b', ring_steps b ops out acc b') /\
  (forall out acc b', ring_steps b ops out acc b' ->
     out ++ contents b' = contents b ++ acc /\ ring_wf b').
Proof.
  intros H. split.
  - revert b H. induction ops as [|[src|n] ops IH]; intros b H.
    + exists [], [], b. constructor.
    + destruct (write_spec src b H) as (b1 & Hw & _ & H1 & _).
      destruct (IH b1 H1) as (out & acc & b' & ?). do 3 eexists. by econstructor.
    + destruct (read_spec n b H) as (b1 & Hr & _ & H1 & _).
      destruct (IH b1 H1) as (out & acc & b' & ?). do 3 eexists. by econstructor.
  - intros out acc b' Hs. induction Hs as [|b src k b1 ops out acc b2 Hw _ IH|b n cs b1 ops out acc b2 Hr _ IH].
    + by rewrite app_nil_r.
    + destruct (write_spec src b H) as (b1' & Hw' & Hc & H1 & _).
      rewrite Hw in Hw'. simplify_eq. destruct (IH H1) as [-> ?]. by rewrite Hc, <- app_assoc.
    + destruct (read_spec n b H) as (b1' & Hr' & Hc & H1 & _).
      rewrite Hr in Hr'. simplify_eq. destruct (IH H1) as [IHe ?].
      rewrite <- app_assoc, IHe, Hc, app_assoc, take_drop. done.
Qed.

Lemma ring_fifo_witness :
  let b := Ring [0; 0; 0] 3 0 0 in
  (exists out acc b', ring_steps b [Rput [1; 2; 3]; Rget 1; Rput [4]; Rget 9] out acc b') /\
  (forall out acc b', ring_steps b [Rput [1; 2; 3]; Rget 1; Rput [4]; Rget 9] out acc b' ->
     out ++ contents b' = contents b ++ acc /\ ring_wf b').
Proof. apply ring_fifo. vm_compute. repeat split; congruence. Defined.

(** [ringbuffer_get_used] is the number of queued bytes, but
    [ringbuffer_get_free] counts the slot that is never filled: it is one more
    than the number of bytes that a write can still accept, so offering that
    many bytes always leaves exactly one of them unwritten. *)
Theorem ringbuffer_free_overstates (b : ringbuffer_t) (src : list Z) :
  ring_wf b -> zlen src = ringbuffer_get_free b ->
  ringbuffer_get_used b = zlen (contents b) /\
  ringbuffer_get_free b = len b - zlen (contents b) /\
  exists b', ringbuffer_write src b = Done (ringbuffer_get_free b - 1, b').
Proof.
  intros H Hs. pose proof (used_range b H). pose proof (contents_length b H) as Hc.
  assert (ringbuffer_get_free b = len b - zlen (contents b)) as Hf.
  { unfold ringbuffer_get_free. rewrite <- Hc in *. destruct H as (? & ? & ?). apply u32_small. lia. }
  split; [done|]. split; [done|]. destruct (write_spec src b H) as (b' & Hw & _).
  exists b'. rewrite Hw. do 2 f_equal. lia.
Qed.

Lemma ringbuffer_free_overstates_witness :
  let b := Ring [7; 8; 0; 5; 6] 5 3 2 in
  ringbuffer_get_used b = zlen (contents b) /\
  ringbuffer_get_free b = len b - zlen (contents b) /\
  exists b', ringbuffer_write [9] b = Done (ringbuffer_get_free b - 1, b').
Proof.
  apply ringbuffer_free_overstates.
  - vm_compute. repeat split; congruence.
  - reflexivity.
Defined.
