(* ===== verification/MemUtils.v ===== *)
(** * Register and block access helpers (src/utils.h, src/utils.c)

    The [volatile] accessors of utils.h, the read-modify-write helpers built on
    them, the polling loops, the unit-wise block copies, and the spinlock. *)
From S2P Require Import Prelude.
From S2P Require Import Machine.
From S2P Require Import CString.

(** A [volatile] access of [n] bytes; a misaligned pointer is undefined. *)
Definition c_read (n : nat) (m : mem) (a : Z) : outcome Z :=
  if a mod Z.of_nat n =? 0 then load_le n m a else Fault.
Definition c_write (n : nat) (m : mem) (a v : Z) : outcome mem :=
  if a mod Z.of_nat n =? 0 then store_le n m a v else Fault.

(** ** Accessors and read-modify-write, per width *)
Definition read64 (m : mem) (addr : Z) : outcome Z := c_read 8 m (u32 addr).
Definition write64 (m : mem) (addr val : Z) : outcome mem := c_write 8 m (u32 addr) (wrap 64 val).
Definition clear64 (m : mem) (addr val : Z) : outcome (Z * mem) :=
  reg ← read64 m addr; let ret := Z.land reg (wrap 64 (Z.lnot val)) in
  m' ← write64 m addr ret; Done (ret, m').
Definition set64 (m : mem) (addr val : Z) : outcome (Z * mem) :=
  reg ← read64 m addr; let ret := Z.lor reg (wrap 64 val) in
  m' ← write64 m addr ret; Done (ret, m').
Definition writeread64 (m : mem) (addr data : Z) : outcome (Z * mem) :=
  m' ← write64 m addr data; v ← read64 m' addr; Done (v, m').
Definition mask64 (m : mem) (addr clear set : Z) : outcome (Z * mem) :=
  val ← read64 m addr;
  let val := Z.lor (Z.land val (wrap 64 (Z.lnot clear))) (wrap 64 set) in
  m' ← write64 m addr val; Done (val, m').

Definition read32 (m : mem) (addr : Z) : outcome Z := c_read 4 m (u32 addr).
Definition write32 (m : mem) (addr val : Z) : outcome mem := c_write 4 m (u32 addr) (wrap 32 val).
Definition clear32 (m : mem) (addr val : Z) : outcome (Z * mem) :=
  reg ← read32 m addr; let ret := Z.land reg (wrap 32 (Z.lnot val)) in
  m' ← write32 m addr ret; Done (ret, m').
Definition set32 (m : mem) (addr val : Z) : outcome (Z * mem) :=
  reg ← read32 m addr; let ret := Z.lor reg (wrap 32 val) in
  m' ← write32 m addr ret; Done (ret, m').
Definition writeread32 (m : mem) (addr data : Z) : outcome (Z * mem) :=
  m' ← write32 m addr data; v ← read32 m' addr; Done (v, m').
Definition mask32 (m : mem) (addr clear set : Z) : outcome (Z * mem) :=
  val ← read32 m addr;
  let val := Z.lor (Z.land val (wrap 32 (Z.lnot clear))) (wrap 32 set) in
  m' ← write32 m addr val; Done (val, m').

Definition read16 (m : mem) (addr : Z) : outcome Z := c_read 2 m (u32 addr).
Definition write16 (m : mem) (addr val : Z) : outcome mem := c_write 2 m (u32 addr) (wrap 16 val).
Definition clear16 (m : mem) (addr val : Z) : outcome (Z * mem) :=
  reg ← read16 m addr; let ret := Z.land reg (wrap 16 (Z.lnot val)) in
  m' ← write16 m addr ret; Done (ret, m').
Definition set16 (m : mem) (addr val : Z) : outcome (Z * mem) :=
  reg ← read16 m addr; let ret := Z.lor reg (wrap 16 val) in
  m' ← write16 m addr ret; Done (ret, m').
Definition writeread16 (m : mem) (addr data : Z) : outcome (Z * mem) :=
  m' ← write16 m addr data; v ← read16 m' addr; Done (v, m').
Definition mask16 (m : mem) (addr clear set : Z) : outcome (Z * mem) :=
  val ← read16 m addr;
  let val := Z.lor (Z.land val (wrap 16 (Z.lnot clear))) (wrap 16 set) in
  m' ← write16 m addr val; Done (val, m').

Definition read8 (m : mem) (addr : Z) : outcome Z := c_read 1 m (u32 addr).
Definition write8 (m : mem) (addr val : Z) : outcome mem := c_write 1 m (u32 addr) (wrap 8 val).
Definition clear8 (m : mem) (addr val : Z) : outcome (Z * mem) :=
  reg ← read8 m addr; let ret := Z.land reg (wrap 8 (Z.lnot val)) in
  m' ← write8 m addr ret; Done (ret, m').
Definition set8 (m : mem) (addr val : Z) : outcome (Z * mem) :=
  reg ← read8 m addr; let ret := Z.lor reg (wrap 8 val) in
  m' ← write8 m addr ret; Done (ret, m').
Definition writeread8 (m : mem) (addr data : Z) : outcome (Z * mem) :=
  m' ← write8 m addr data; v ← read8 m' addr; Done (v, m').
Definition mask8 (m : mem) (addr clear set : Z) : outcome (Z * mem) :=
  val ← read8 m addr;
  let val := Z.lor (Z.land val (wrap 8 (Z.lnot clear))) (wrap 8 set) in
  m' ← write8 m addr val; Done (val, m').

(** ** Polling

    The polled register is a device: [reg i] is the value of the [i]-th read.
    [while (--timeout > 0)] on a 32-bit [timeout] makes [timeout - 1] reads,
    and 2^32 - 1 reads when [timeout] is 0.  The result is the C status and the
    number of reads. *)
Fixpoint poll_loop (n : nat) (match_ : Z -> bool) (reg : nat -> Z) (i : nat) : Z * nat :=
  match n with
  | O => (-1, i)
  | S n' => if match_ (reg i) then (0, S i) else poll_loop n' match_ reg (S i)
  end.
Definition poll32 (reg : nat -> Z) (mask target timeout : Z) : Z * nat :=
  poll_loop (Z.to_nat (u32 (timeout - 1))) (fun v => u32 (Z.land v mask) =? target) reg 0.
(** [poll64] keeps the masked value in a [u32] before it is compared. *)
Definition poll64 (reg : nat -> Z) (mask target timeout : Z) : Z * nat :=
  poll_loop (Z.to_nat (u32 (timeout - 1))) (fun v => u32 (Z.land v mask) =? target) reg 0.

(** ** Block operations in fixed units *)
Fixpoint set_units (n count : nat) (m : mem) (dst v : Z) : outcome mem :=
  match count with
  | O => Done m
  | S c => m' ← c_write n m dst v; set_units n c m' (dst + Z.of_nat n) v
  end.
Fixpoint copy_units (n count : nat) (m : mem) (dst src : Z) : outcome mem :=
  match count with
  | O => Done m
  | S c =>
      v ← c_read n m src; m' ← c_write n m dst v;
      copy_units n c m' (dst + Z.of_nat n) (src + Z.of_nat n)
  end.

Definition memset64 (m : mem) (dst value size : Z) : outcome mem :=
  set_units 8 (Z.to_nat (size / 8)) m dst (wrap 64 value).
Definition memcpy64 (m : mem) (dst src size : Z) : outcome mem :=
  copy_units 8 (Z.to_nat (size / 8)) m dst src.

Definition memset32 (m : mem) (dst value size : Z) : outcome mem :=
  set_units 4 (Z.to_nat (size / 4)) m dst (wrap 32 value).
Definition memcpy32 (m : mem) (dst src size : Z) : outcome mem :=
  copy_units 4 (Z.to_nat (size / 4)) m dst src.

Definition memset16 (m : mem) (dst value size : Z) : outcome mem :=
  set_units 2 (Z.to_nat (size / 2)) m dst (wrap 16 value).
Definition memcpy16 (m : mem) (dst src size : Z) : outcome mem :=
  copy_units 2 (Z.to_nat (size / 2)) m dst src.
Definition memset8 (m : mem) (dst value size : Z) : outcome mem :=
  set_units 1 (Z.to_nat size) m dst (u8 value).
(** [memcpy8] walks both blocks through [u16] pointers, [size] times. *)
Definition memcpy8 (m : mem) (dst src size : Z) : outcome mem :=
  copy_units 2 (Z.to_nat size) m dst src.

(** ** Spinlock *)
Record spinlock_t : Type := Spin { lock : Z; count : Z }.
Definition SPINLOCK_INIT : spinlock_t := Spin (-1) 0.
Definition spin_init (l : spinlock_t) : spinlock_t := Spin (-1) 0.
Definition spin_lock (smp_id : Z) (l : spinlock_t) : outcome spinlock_t :=
  _ ← c_assert ((lock l =? -1) || (lock l =? smp_id)); Done (Spin smp_id (count l + 1)).
Definition spin_unlock (l : spinlock_t) : outcome spinlock_t :=
  let l' := Spin (lock l) (count l - 1) in _ ← c_assert (0 <=? count l'); Done l'.

(** ** Helper lemmas *)
Lemma c_read_spec n m a bs :
  length bs = n -> a mod Z.of_nat n = 0 -> bytes_at m a bs -> c_read n m a = Done (le_value bs).
Proof. intros <- Ha H. unfold c_read. rewrite Ha. bdec. by apply load_le_bytes_at. Qed.

Lemma c_write_spec n m a v :
  a mod Z.of_nat n = 0 -> region m a (Z.of_nat n) ->
  c_write n m a v = Done (write_bytes m a (le_bytes n v)).
Proof. intros Ha H. unfold c_write. rewrite Ha. bdec. by apply store_le_spec. Qed.

(** One unit after another: the copy of [count] units is a copy of their bytes,
    for disjoint blocks and for a destination at or below the source. *)
Lemma copy_units_spec n count m dst src bs :
  (0 < n)%nat -> length bs = (count * n)%nat -> are_bytes bs ->
  dst mod Z.of_nat n = 0 -> src mod Z.of_nat n = 0 ->
  bytes_at m src bs -> region m dst (zlen bs) -> dst <= src \/ src + zlen bs <= dst ->
  copy_units n count m dst src = Done (write_bytes m dst bs).
Proof.
  intros Hn. revert m dst src bs.
  induction count as [|c IH]; intros m dst src bs Hl Hb Hd Hs Hsrc Hdst Hov.
  { by destruct bs. }
  assert (exists u rest, bs = u ++ rest /\ length u = n) as (u & rest & -> & Hu).
  { exists (take n bs), (drop n bs). rewrite take_drop, length_take. split; [done|lia]. }
  rewrite length_app in Hl. apply Forall_app in Hb as [Hub Hrb]. rewrite zlen_app in *.
  apply bytes_at_app in Hsrc as [Hus Hrs]. pose proof (zlen_nonneg rest).
  assert (zlen u = Z.of_nat n) as Hzu by (unfold zlen; lia). rewrite Hzu in *.
  cbn [copy_units]. rewrite (c_read_spec n m src u), bind_Done by done.
  rewrite c_write_spec, bind_Done; [|done|eapply region_sub; [exact Hdst|lia..]].
  replace (le_bytes n (le_value u)) with u by (rewrite <- Hu; symmetry; by apply le_bytes_le_value).
  rewrite (IH _ _ _ rest).
  - by rewrite write_bytes_app_up, Hzu.
  - lia.
  - done.
  - rewrite <- Zplus_mod_idemp_r, Z_mod_same_full, Z.add_0_r. done.
  - rewrite <- Zplus_mod_idemp_r, Z_mod_same_full, Z.add_0_r. done.
  - apply bytes_at_write_disj; [lia|done].
  - apply region_write. eapply region_sub; [exact Hdst|lia..].
  - lia.
Qed.

Lemma set_units_spec n count m dst v :
  (0 < n)%nat -> dst mod Z.of_nat n = 0 -> region m dst (Z.of_nat count * Z.of_nat n) ->
  set_units n count m dst v =
    Done (write_bytes m dst (mjoin (replicate count (le_bytes n v)))).
Proof.
  intros Hn. revert m dst. induction count as [|c IH]; intros m dst Hd Hr; [done|].
  cbn [set_units replicate mjoin list_join].
  rewrite c_write_spec, bind_Done; [|done|eapply region_sub; [exact Hr|lia..]].
  rewrite IH, write_bytes_app_up.
  - unfold zlen. by rewrite le_bytes_length.
  - rewrite <- Zplus_mod_idemp_r, Z_mod_same_full, Z.add_0_r. done.
  - apply region_write. eapply region_sub; [exact Hr|lia..].
Qed.

(** ** Properties *)

(** [memcpy64], [memcpy32] and [memcpy16] copy [size] bytes rounded down to
    whole units and nothing else ("if size is not aligned, the remaining bytes
    are not copied", utils.h), for aligned blocks that do not overlap or whose
    destination does not lie above the source. *)
Theorem memcpy_units_correct (m : mem) (dst src size : Z) (bs rest : list Z) :
  are_bytes bs -> bytes_at m src bs -> region m dst (zlen bs) ->
  dst <= src \/ src + zlen bs <= dst -> zlen (bs ++ rest) = size ->
  (dst mod 8 = 0 -> src mod 8 = 0 -> zlen bs mod 8 = 0 -> zlen rest < 8 ->
     memcpy64 m dst src size = Done (write_bytes m dst bs)) /\
  (dst mod 4 = 0 -> src mod 4 = 0 -> zlen bs mod 4 = 0 -> zlen rest < 4 ->
     memcpy32 m dst src size = Done (write_bytes m dst bs)) /\
  (dst mod 2 = 0 -> src mod 2 = 0 -> zlen bs mod 2 = 0 -> zlen rest < 2 ->
     memcpy16 m dst src size = Done (write_bytes m dst bs)).
Proof.
  intros Hb Hs Hd Hov Hsz. rewrite zlen_app in Hsz.
  pose proof (zlen_nonneg bs). pose proof (zlen_nonneg rest).
  repeat split; intros Hda Hsa Hl Hr; apply copy_units_spec; try done; try lia; unfold zlen in *; lia.
Qed.

Lemma memcpy_units_correct_witness :
  let m := demo_mem [1; 2; 3; 4; 5; 6; 7; 8; 9] 7 in
  memcpy32 m 4104 4096 7 = Done (write_bytes m 4104 [1; 2; 3; 4]).
Proof.
  intros m. refine (proj1 (proj2 (memcpy_units_correct m 4104 4096 7 [1; 2; 3; 4] [5; 6; 7] _ _ _ _ _)) _ _ _ _).
  - concrete.
  - concrete.
  - concrete_region [9; 0; 0; 0].
  - right. concrete.
  - done.
  - done.
  - done.
  - done.
  - done.
Defined.

(** [memcpy8] copies twice as many bytes as it is asked to: it overwrites
    the [size] bytes that follow the destination block with the bytes that
    follow the source block. *)
Theorem memcpy8_copies_double (m : mem) (dst src : Z) (bs : list Z) (size : Z) :
  0 <= size -> are_bytes bs -> zlen bs = 2 * size ->
  dst mod 2 = 0 -> src mod 2 = 0 ->
  bytes_at m src bs -> region m dst (2 * size) -> dst <= src \/ src + 2 * size <= dst ->
  memcpy8 m dst src size = Done (write_bytes m dst bs).
Proof.
  intros H0 Hb Hl Hd Hs Hsrc Hdst Hov. unfold memcpy8. rewrite <- Hl in *.
  apply copy_units_spec; try done; unfold zlen in *; lia.
Qed.

Lemma memcpy8_copies_double_witness :
  memcpy8 (demo_mem [1; 2; 3; 4; 9; 9; 9; 9] 0) 4100 4096 2 = Done (demo_mem [1; 2; 3; 4; 1; 2; 3; 4] 0).
Proof.
  refine (eq_trans (memcpy8_copies_double _ 4100 4096 [1; 2; 3; 4] 2 _ _ _ _ _ _ _ _) _).
  - done.
  - concrete.
  - done.
  - done.
  - done.
  - concrete.
  - concrete_region [9; 9; 9; 9].
  - right. concrete.
  - concrete.
Defined.
