(* ===== verification/Alloc.v ===== *)
(** * Boot-time allocators (src/heapblock.c, [top_of_memory_alloc] of src/utils.c)

    [heapblock] hands out memory upwards from the end of the loaded image and
    never frees; [top_of_memory_alloc] shrinks the memory size recorded in the
    boot arguments and keeps one guard page below everything it handed out. *)
From S2P Require Import Prelude.
From Stdlib Require Import Sorted.

(** ** heapblock.c: the state is [heap_base] (0 is NULL) *)
Definition heapblock_alloc_aligned (size align heap_base : Z) : outcome (Z * Z) :=
  _ ← c_assert (Z.land align (u32 (align - 1)) =? 0);
  _ ← c_assert (negb (heap_base =? 0));
  let block := Z.land (u32 (heap_base + align - 1)) (u32 (Z.lnot (align - 1))) in
  Done (block, u32 (block + size)).

Definition heapblock_alloc (size heap_base : Z) : outcome (Z * Z) :=
  heapblock_alloc_aligned size 64 heap_base.

(** [heapblock_init]: the new [heap_base]. *)
Definition heapblock_init (top_of_kernel_data : Z) : outcome Z :=
  '(_, base) ← heapblock_alloc 0 top_of_kernel_data; Done base.

(** A sequence of requests (size, alignment): the blocks in request order. *)
Fixpoint heap_run (reqs : list (Z * Z)) (heap_base : Z) : outcome (list Z * Z) :=
  match reqs with
  | [] => Done ([], heap_base)
  | (size, align) :: reqs' =>
      '(block, base') ← heapblock_alloc_aligned size align heap_base;
      '(blocks, base'') ← heap_run reqs' base';
      Done (block :: blocks, base'')
  end.

(** ** [top_of_memory_alloc]: the boot-argument fields it uses and its static flag *)
Definition PAGE_SIZE : Z := 4096.

Record top_mem : Type := Top { phys_base : Z; mem_size : Z; guard_page_inserted : bool }.

Definition top_of_memory_alloc (size : Z) (t : top_mem) : Z * top_mem :=
  let ms := u32 (mem_size t - ALIGN_UP 32 size PAGE_SIZE) in
  let ret := u32 (phys_base t + ms) in
  if negb (guard_page_inserted t)
  then (ret, Top (phys_base t) (u32 (ms - PAGE_SIZE)) true)
  else (u32 (ret + PAGE_SIZE), Top (phys_base t) ms true).

Fixpoint top_run (sizes : list Z) (t : top_mem) : list Z * top_mem :=
  match sizes with
  | [] => ([], t)
  | size :: sizes' =>
      let (ret, t1) := top_of_memory_alloc size t in
      let (rets, t2) := top_run sizes' t1 in
      (ret :: rets, t2)
  end.

(** ** Arithmetic of aligning *)
Lemma align_up_spec k b :
  0 <= k <= 32 -> 0 <= b -> b + 2 ^ k <= 2 ^ 32 ->
  let r := Z.land (u32 (b + 2 ^ k - 1)) (u32 (Z.lnot (2 ^ k - 1))) in
  b <= r < b + 2 ^ k /\ r mod 2 ^ k = 0.
Proof.
  intros Hk Hb Hr r. assert (0 < 2 ^ k) by (apply Z.pow_pos_nonneg; lia).
  unfold r. rewrite (u32_small (b + 2 ^ k - 1)), land_align_mask by lia.
  pose proof (Z.div_mod (b + 2 ^ k - 1) (2 ^ k)).
  pose proof (Z.mod_pos_bound (b + 2 ^ k - 1) (2 ^ k)). split; [lia|].
  rewrite Z.mul_comm. apply Z_mod_mult.
Qed.

Lemma land_pow2_pred k : 0 <= k < 32 -> Z.land (2 ^ k) (u32 (2 ^ k - 1)) = 0.
Proof.
  intros Hk. assert (0 < 2 ^ k) by (apply Z.pow_pos_nonneg; lia).
  assert (2 ^ k < 2 ^ 32) by (apply Z.pow_lt_mono_r; lia).
  rewrite u32_small by lia. replace (2 ^ k - 1) with (Z.ones k) by (rewrite Z.ones_equiv; lia).
  rewrite Z.land_ones by lia. apply Z_mod_same_full.
Qed.

(** What one allocation does, for a power-of-two alignment. *)
Lemma heapblock_alloc_aligned_spec size k base :
  0 <= k < 32 -> 0 < base -> 0 <= size -> base + 2 ^ k + size <= 2 ^ 32 ->
  exists block, heapblock_alloc_aligned size (2 ^ k) base = Done (block, u32 (block + size)) /\
    base <= block < base + 2 ^ k /\ block mod 2 ^ k = 0.
Proof.
  intros Hk Hb Hs Hfit. unfold heapblock_alloc_aligned.
  rewrite land_pow2_pred by done. unfold c_assert. bdec. rewrite !bind_Done.
  eexists. split; [done|]. apply align_up_spec; lia.
Qed.

(** ** Properties *)

(** The demand of a list of requests: sizes plus worst-case padding. *)
Definition demand (reqs : list (Z * Z)) : Z := foldr (fun '(s, k) acc => s + 2 ^ k + acc) 0 reqs.

(** The request with alignment [2 ^ k]. *)
Definition pow_req (r : Z * Z) : Z * Z := (fst r, 2 ^ snd r).

(** [ends_before a b]: block [a] = (start, size) ends where [b] starts or earlier. *)
Definition ends_before (a b : Z * Z) : Prop := fst a + snd a <= fst b.

Lemma demand_cons s k reqs : demand ((s, k) :: reqs) = s + 2 ^ k + demand reqs.
Proof. done. Qed.

Lemma demand_nonneg reqs : Forall (fun r => 0 <= fst r /\ 0 <= snd r < 32) reqs -> 0 <= demand reqs.
Proof.
  induction 1 as [|[s k] reqs [Hs Hk] _ IH]; [cbn; lia|]. cbn [fst snd] in *. rewrite demand_cons.
  assert (0 < 2 ^ k) by (apply Z.pow_pos_nonneg; lia). lia.
Qed.

(** The bounds that one run of requests guarantees for each block. *)
Definition block_ok (lo hi b : Z) (r : Z * Z) : Prop :=
  lo <= b /\ b mod 2 ^ snd r = 0 /\ b + fst r <= hi.

Lemma blocks_follow lo hi x blocks reqs :
  Forall2 (block_ok lo hi) blocks reqs -> fst x + snd x <= lo ->
  Forall (ends_before x) (zip blocks (map fst reqs)).
Proof.
  intros H Hx. induction H as [|b r blocks reqs (? & _ & _) _ IH]; cbn; constructor; [|done].
  unfold ends_before. cbn. lia.
Qed.

(** C22: blocks handed out by [heapblock_alloc_aligned] are aligned as asked, lie
    between the old and the new heap base, and are laid out in request order
    without overlap, whatever the sizes and power-of-two alignments, as long as
    the address space lasts; no assertion fails. *)
Theorem heapblock_disjoint (reqs : list (Z * Z)) (base : Z) :
  Forall (fun r => 0 <= fst r /\ 0 <= snd r < 32) reqs -> 0 < base -> base + demand reqs < 2 ^ 32 ->
  exists blocks base', heap_run (map pow_req reqs) base = Done (blocks, base') /\ base <= base' /\
    Forall2 (block_ok base base') blocks reqs /\
    StronglySorted ends_before (zip blocks (map fst reqs)).
Proof.
  intros Hr. revert base. induction Hr as [|[s k] reqs [Hs Hk] Hr IH]; intros base Hb Hfit.
  { exists [], base. split; [done|]. split; [lia|]. split; constructor. }
  rewrite demand_cons in Hfit. cbn [map heap_run pow_req fst snd] in *.
  pose proof (demand_nonneg reqs Hr). assert (0 < 2 ^ k) by (apply Z.pow_pos_nonneg; lia).
  destruct (heapblock_alloc_aligned_spec s k base) as (b & -> & Hblk & Hal); [lia..|].
  rewrite bind_Done, u32_small by lia.
  destruct (IH (b + s)) as (blocks & base' & -> & Hle & Hall & Hsort); [lia|lia|].
  exists (b :: blocks), base'. split; [done|]. split; [lia|]. split.
  - constructor; [unfold block_ok; cbn; lia|]. eapply Forall2_impl; [exact Hall|].
    unfold block_ok. intros ?? (?&?&?). lia.
  - constructor; [done|]. apply (blocks_follow _ _ _ _ _ Hall). cbn. lia.
Qed.

Lemma heapblock_disjoint_witness :
  exists blocks base', heap_run [(100, 64); (10, 1); (5, 4096)] 1000 = Done (blocks, base') /\ 1000 <= base' /\
    Forall2 (block_ok 1000 base') blocks [(100, 6); (10, 0); (5, 12)] /\
    StronglySorted ends_before (zip blocks [100; 10; 5]).
Proof.
  apply (heapblock_disjoint [(100, 6); (10, 0); (5, 12)] 1000).
  - repeat constructor; cbn; lia.
  - lia.
  - cbn. lia.
Defined.

(** asking for 0 bytes reserves nothing, and the next request with the same
    alignment gets the very address that was returned: the contract that
    decompression to the end of the heap relies on (payload.c). *)
Theorem heapblock_peek_then_reserve (size k base : Z) :
  0 <= k < 32 -> 0 < base -> 0 <= size -> base + 2 * 2 ^ k + size < 2 ^ 32 ->
  exists block, heapblock_alloc_aligned 0 (2 ^ k) base = Done (block, block) /\
    heapblock_alloc_aligned size (2 ^ k) block = Done (block, block + size).
Proof.
  intros Hk Hb Hs Hfit. assert (0 < 2 ^ k) by (apply Z.pow_pos_nonneg; lia).
  assert (2 ^ k <= 2 ^ 31) by (apply Z.pow_le_mono_r; lia).
  destruct (heapblock_alloc_aligned_spec 0 k base) as (b & -> & Hblk & Hal); [lia..|].
  exists b. rewrite Z.add_0_r, u32_small by lia. split; [done|].
  unfold heapblock_alloc_aligned. rewrite land_pow2_pred by done. unfold c_assert. bdec.
  rewrite !bind_Done. rewrite (u32_small (b + 2 ^ k - 1)), land_align_mask by lia.
  apply Z.mod_divide in Hal as [q ->]; [|lia].
  replace (q * 2 ^ k + 2 ^ k - 1) with ((2 ^ k - 1) + q * 2 ^ k) by lia.
  rewrite Z.div_add, (Z.div_small (2 ^ k - 1)), Z.add_0_l, (Z.mul_comm (2 ^ k)) by lia.
  rewrite u32_small by lia. done.
Qed.

Lemma heapblock_peek_then_reserve_witness :
  exists block, heapblock_alloc_aligned 0 (2 ^ 18) 134217828 = Done (block, block) /\
    heapblock_alloc_aligned 1000000 (2 ^ 18) block = Done (block, block + 1000000).
Proof. apply heapblock_peek_then_reserve; lia. Defined.

(** The page-rounded size of a request. *)
Definition page_up (s : Z) : Z := PAGE_SIZE * ((s + PAGE_SIZE - 1) / PAGE_SIZE).

Lemma ALIGN_UP_page s : 0 <= s -> s + PAGE_SIZE <= 2 ^ 32 -> ALIGN_UP 32 s PAGE_SIZE = page_up s.
Proof. intros. by apply (ALIGN_UP_pow2 12). Qed.

(** The lowest address handed out so far ([hi], the end of memory, when
    nothing was). *)
Definition top_lowest (hi : Z) (t : top_mem) : Z :=
  if guard_page_inserted t then phys_base t + mem_size t + PAGE_SIZE else phys_base t + mem_size t.

Definition top_ok (hi : Z) (t : top_mem) : Prop :=
  0 <= phys_base t /\ 0 <= mem_size t /\ top_lowest hi t <= hi < 2 ^ 32.

Lemma top_of_memory_alloc_spec size t hi :
  top_ok hi t -> 0 <= size -> page_up size + PAGE_SIZE <= mem_size t ->
  let (ret, t') := top_of_memory_alloc size t in
  ret = top_lowest hi t - page_up size /\ top_lowest hi t' = ret /\ top_ok hi t' /\
  guard_page_inserted t' = true /\ phys_base t' = phys_base t /\
  mem_size t - page_up size - PAGE_SIZE <= mem_size t'.
Proof.
  intros (Hp & Hm & Hhi) Hs Hfit. assert (size <= page_up size) by (unfold page_up, PAGE_SIZE; lia).
  unfold top_ok, top_of_memory_alloc, top_lowest in *.
  destruct (guard_page_inserted t) eqn:Hg; cbn [negb phys_base mem_size guard_page_inserted];
    rewrite ALIGN_UP_page by (unfold PAGE_SIZE in *; lia); unfold PAGE_SIZE in *;
    rewrite (u32_small (mem_size t - page_up size)) by lia; rewrite !u32_small by (rewrite ?u32_small; lia);
    repeat split; lia.
Qed.

Definition top_demand (sizes : list Z) : Z := foldr (fun s acc => page_up s + PAGE_SIZE + acc) 0 sizes.

Definition starts_after (a b : Z * Z) : Prop := fst b + snd b <= fst a.

(** Block [r] of the request [s] lies above the guard page of [t'] and below [hi]. *)
Definition top_block_ok (t' : top_mem) (hi r s : Z) : Prop :=
  phys_base t' + mem_size t' + PAGE_SIZE <= r /\ r + page_up s <= hi.

Lemma top_run_spec sizes t hi :
  Forall (fun s => 0 <= s) sizes -> top_ok hi t -> top_demand sizes <= mem_size t ->
  let (rets, t') := top_run sizes t in
  top_lowest hi t' <= top_lowest hi t /\ top_ok hi t' /\ (sizes ≠ [] \/ guard_page_inserted t = true -> guard_page_inserted t' = true) /\
  phys_base t' = phys_base t /\
  Forall2 (fun r s => top_lowest hi t' <= r /\ r + page_up s <= top_lowest hi t) rets sizes /\
  StronglySorted starts_after (zip rets (map page_up sizes)).
Proof.
  intros Hs. revert t. induction Hs as [|s sizes Hs0 Hs IH]; intros t Hok Hfit.
  { cbn. split; [lia|]. split; [done|]. split; [by intros [?|]|]. split; [done|]. split; constructor. }
  change (top_demand (s :: sizes)) with (page_up s + PAGE_SIZE + top_demand sizes) in Hfit.
  assert (0 <= top_demand sizes).
  { clear - Hs. induction Hs as [|x l Hx _ IH]; [cbn; lia|].
    change (top_demand (x :: l)) with (page_up x + PAGE_SIZE + top_demand l).
    assert (0 <= page_up x) by (unfold page_up, PAGE_SIZE; lia). unfold PAGE_SIZE. lia. }
  assert (0 <= page_up s) by (unfold page_up, PAGE_SIZE; lia).
  pose proof (top_of_memory_alloc_spec s t hi Hok Hs0) as H1. cbn [top_run].
  destruct (top_of_memory_alloc s t) as [r t1]. destruct H1 as (Hr & Hl1 & Hok1 & Hg1 & Hp1 & Hm1); [lia|].
  specialize (IH t1 Hok1). destruct (top_run sizes t1) as [rets t2].
  destruct IH as (Hle & Hok2 & Hg2 & Hp2 & Hall & Hsort); [lia|].
  split; [lia|]. split; [done|]. split.
  { intros _. apply Hg2. by right. }
  split; [congruence|]. split.
  - constructor; [lia|]. eapply Forall2_impl; [exact Hall|]. cbn. intros ?? []. lia.
  - cbn. constructor; [done|]. clear - Hall Hl1.
    induction Hall as [|r2 s2 rets sizes [? ?] _ IH]; cbn; constructor; [unfold starts_after; cbn; lia|done].
Qed.

(** C30: [top_of_memory_alloc] carves whole pages downwards from the end of
    memory: the blocks of a sequence of requests never overlap, stay inside the
    original memory, and the page just below the last block is a guard page,
    above the memory size that the boot arguments then report. *)
Theorem top_of_memory_disjoint (sizes : list Z) (base msize : Z) :
  Forall (fun s => 0 <= s) sizes -> sizes ≠ [] ->
  0 <= base -> base + msize < 2 ^ 32 -> top_demand sizes <= msize ->
  let (rets, t') := top_run sizes (Top base msize false) in
  Forall2 (top_block_ok t' (base + msize)) rets sizes /\
  StronglySorted starts_after (zip rets (map page_up sizes)) /\
  0 <= mem_size t' /\ phys_base t' = base.
Proof.
  intros Hs Hne Hb Hm Hfit.
  assert (0 <= msize).
  { transitivity (top_demand sizes); [|done]. clear - Hs. induction Hs as [|x l Hx _ IH]; [cbn; lia|].
    change (top_demand (x :: l)) with (page_up x + PAGE_SIZE + top_demand l).
    unfold page_up, PAGE_SIZE in *. lia. }
  pose proof (top_run_spec sizes (Top base msize false) (base + msize) Hs) as H1.
  destruct (top_run sizes (Top base msize false)) as [rets t'].
  destruct H1 as (_ & Hok & Hg & Hp & Hall & Hsort); [unfold top_ok, top_lowest; cbn; lia|done|].
  specialize (Hg (or_introl Hne)). cbn in Hp. split; [|split; [done|split; [apply Hok|done]]].
  eapply Forall2_impl; [exact Hall|]. unfold top_lowest, top_block_ok. rewrite Hg. cbn. done.
Qed.

Lemma top_of_memory_disjoint_witness :
  let (rets, t') := top_run [5000; 1; 70000] (Top 134217728 1048576 false) in
  Forall2 (top_block_ok t' (134217728 + 1048576)) rets [5000; 1; 70000] /\
  StronglySorted starts_after (zip rets (map page_up [5000; 1; 70000])) /\
  0 <= mem_size t' /\ phys_base t' = 134217728.
Proof.
  apply (top_of_memory_disjoint [5000; 1; 70000] 134217728 1048576).
  - repeat constructor; lia.
  - congruence.
  - lia.
  - lia.
  - vm_compute. congruence.
Defined.
