(* ===== verification/Adt.v ===== *)
(** * Apple device tree reader (src/adt.c, src/adt.h)

    The tree is a packed blob in memory: a node is a property count, a child
    count, the properties and the children; a property is a 32-byte name, a
    size and the value padded to 4 bytes.  The reader works on byte offsets
    from the base [adt].  The second half gives the abstract tree that such a
    blob encodes. *)
From S2P Require Import Prelude.
From S2P Require Import Machine.
From S2P Require Import CString.

Definition ADT_ERR_NOTFOUND : Z := 1.
Definition ADT_ERR_BADOFFSET : Z := 4.
Definition ADT_ERR_BADNCELLS : Z := 14.
Definition ADT_ERR_BADVALUE : Z := 15.
Definition ADT_ERR_BADLENGTH : Z := 20.

(** Where the string literals of adt.c live. *)
Record adt_rodata : Type := Rodata {
  lit_name : Z;            (* "name" *)
  lit_address_cells : Z;   (* "#address-cells" *)
  lit_size_cells : Z;      (* "#size-cells" *)
  lit_ranges : Z;          (* "ranges" *)
  lit_compatible : Z;      (* "compatible" *)
}.

(** ** Header fields *)
Definition adt_get_property_count (m : mem) (adt offset : Z) : outcome Z := load_le 4 m (adt + offset).
Definition adt_get_child_count (m : mem) (adt offset : Z) : outcome Z := load_le 4 m (adt + offset + 4).
Definition prop_size (m : mem) (prop : Z) : outcome Z := load_le 4 m (prop + 32).

Definition adt_first_property_offset (offset : Z) : Z := s32 (offset + 8).
Definition adt_next_property_offset (m : mem) (adt offset : Z) : outcome Z :=
  size ← prop_size m (adt + offset);
  Done (s32 (offset + 36 + ALIGN_UP 32 size 4)).

Definition adt_check_node_offset (m : mem) (adt offset : Z) : outcome Z :=
  if (offset <? 0) || negb (Z.rem offset 4 =? 0) then Done (- ADT_ERR_BADOFFSET)
  else
    pc ← adt_get_property_count m adt offset;
    cc ← adt_get_child_count m adt offset;
    if (2048 <? pc) || (pc =? 0) || (2048 <? cc) then Done (- ADT_ERR_BADOFFSET) else Done 0.

Definition adt_check_prop_offset (m : mem) (adt offset : Z) : outcome Z :=
  if (offset <? 0) || negb (Z.rem offset 4 =? 0) then Done (- ADT_ERR_BADOFFSET)
  else
    size ← prop_size m (adt + offset);
    if negb (Z.land size 0x7ff00000 =? 0) then Done (- ADT_ERR_BADOFFSET) else Done 0.

Definition adt_check_header (m : mem) (adt : Z) : outcome Z := adt_check_node_offset m adt 0.

(** ** Name comparison *)
Definition adt_string_eq (m : mem) (a b len : Z) : outcome bool :=
  l ← strlen m a;
  if l =? len then r ← memcmp m a b len; Done (r =? 0) else Done false.

Definition adt_nodename_eq (m : mem) (a b len : Z) : outcome bool :=
  r ← memcmp m a b len;
  if negb (r =? 0) then Done false
  else
    c ← load8 m (a + len);
    if c =? 0 then Done true
    else
      at_sign ← memchr m b 64 len;
      if at_sign =? NULL then Done (c =? 64) else Done false.

(** ** Properties *)
Fixpoint property_loop (n : nat) (m : mem) (adt poff name namelen : Z) : outcome Z :=
  match n with
  | O => Done NULL
  | S n' =>
      eq ← adt_string_eq m (u32 (adt + poff)) name namelen;
      if eq : bool then Done (u32 (adt + poff))
      else poff' ← adt_next_property_offset m adt poff; property_loop n' m adt poff' name namelen
  end.

(** The address of the property, or [NULL]. *)
Definition adt_get_property_namelen (m : mem) (adt offset name namelen : Z) : outcome Z :=
  cnt ← adt_get_property_count m adt offset;
  property_loop (Z.to_nat cnt) m adt (adt_first_property_offset offset) name namelen.

Definition adt_get_property (m : mem) (adt nodeoffset name : Z) : outcome Z :=
  namelen ← strlen m name; adt_get_property_namelen m adt nodeoffset name namelen.

(** The value's address and [*lenp]; [None] is the [NULL] result, which leaves
    [*lenp] alone. *)
Definition adt_getprop_namelen (m : mem) (adt nodeoffset name namelen : Z) : outcome (option (Z * Z)) :=
  prop ← adt_get_property_namelen m adt nodeoffset name namelen;
  if prop =? NULL then Done None
  else size ← prop_size m prop; Done (Some (u32 (prop + 36), size)).

Definition adt_getprop (m : mem) (adt nodeoffset name : Z) : outcome (option (Z * Z)) :=
  namelen ← strlen m name; adt_getprop_namelen m adt nodeoffset name namelen.

(** The name's address, the value's address and the length. *)
Definition adt_getprop_by_offset (m : mem) (adt offset : Z) : outcome (option (Z * Z * Z)) :=
  let prop := u32 (adt + offset) in
  if prop =? NULL then Done None
  else size ← prop_size m prop; Done (Some (prop, u32 (prop + 36), size)).

Definition adt_setprop (m : mem) (adt nodeoffset name value len : Z) : outcome (Z * mem) :=
  p ← adt_getprop m adt nodeoffset name;
  match p with
  | None => Done (- ADT_ERR_NOTFOUND, m)
  | Some (prop, plen) =>
      if negb (len =? plen) then Done (- ADT_ERR_BADLENGTH, m)
      else '(_, m') ← memcpy m prop value len; Done (s32 len, m')
  end.

Definition adt_getprop_copy (m : mem) (adt nodeoffset name out len : Z) : outcome (Z * mem) :=
  p ← adt_getprop m adt nodeoffset name;
  match p with
  | None => Done (- ADT_ERR_NOTFOUND, m)
  | Some (prop, plen) =>
      if negb (plen =? len) then Done (- ADT_ERR_BADLENGTH, m)
      else '(_, m') ← memcpy m out prop len; Done (s32 len, m')
  end.

(** [ADT_GETPROP] on a local [u32]: the variable keeps its value [v] unless the
    property exists and has 4 bytes. *)
Definition adt_getprop_u32 (m : mem) (adt nodeoffset name v : Z) : outcome Z :=
  p ← adt_getprop m adt nodeoffset name;
  match p with
  | Some (prop, plen) => if plen =? 4 then load_le 4 m prop else Done v
  | None => Done v
  end.

Definition adt_get_name (r : adt_rodata) (m : mem) (adt nodeoffset : Z) : outcome Z :=
  p ← adt_getprop m adt nodeoffset (lit_name r);
  Done (match p with Some (v, _) => v | None => NULL end).

(** ** Walking the tree *)
Fixpoint iter_offset (n : nat) (f : Z -> outcome Z) (offset : Z) : outcome Z :=
  match n with
  | O => Done offset
  | S n' => o ← f offset; iter_offset n' f o
  end.

Definition adt_first_child_offset (m : mem) (adt offset : Z) : outcome Z :=
  cnt ← adt_get_property_count m adt offset;
  iter_offset (Z.to_nat cnt) (adt_next_property_offset m adt) (adt_first_property_offset offset).

(** The recursion descends one level per call. *)
Fixpoint next_sibling (fuel : nat) (m : mem) (adt offset : Z) : outcome Z :=
  match fuel with
  | O => Stuck
  | S fuel' =>
      cnt ← adt_get_child_count m adt offset;
      first ← adt_first_child_offset m adt offset;
      iter_offset (Z.to_nat cnt) (next_sibling fuel' m adt) first
  end.
Definition adt_next_sibling_offset (m : mem) (adt offset : Z) : outcome Z :=
  next_sibling (str_fuel m) m adt offset.

Fixpoint subnode_loop (n : nat) (r : adt_rodata) (m : mem) (adt offset name namelen : Z) : outcome Z :=
  match n with
  | O => Done (- ADT_ERR_NOTFOUND)
  | S n' =>
      cname ← adt_get_name r m adt offset;
      eq ← adt_nodename_eq m cname name namelen;
      if eq : bool then Done offset
      else offset' ← adt_next_sibling_offset m adt offset; subnode_loop n' r m adt offset' name namelen
  end.

Definition adt_subnode_offset_namelen (r : adt_rodata) (m : mem) (adt offset name namelen : Z) : outcome Z :=
  err ← adt_check_header m adt;
  if negb (err =? 0) then Done err
  else
    cnt ← adt_get_child_count m adt offset;
    if cnt =? 0 then Done (- ADT_ERR_NOTFOUND)
    else first ← adt_first_child_offset m adt offset;
         subnode_loop (Z.to_nat cnt) r m adt first name namelen.

Definition adt_subnode_offset (r : adt_rodata) (m : mem) (adt parentoffset name : Z) : outcome Z :=
  namelen ← strlen m name; adt_subnode_offset_namelen r m adt parentoffset name namelen.

Fixpoint skip_slashes (fuel : nat) (m : mem) (p : Z) : outcome Z :=
  match fuel with
  | O => Stuck
  | S fuel' => c ← load8 m p; if c =? 47 then skip_slashes fuel' m (p + 1) else Done p
  end.

(** The result and the offsets stored through [offsets]. *)
Fixpoint path_loop (fuel : nat) (r : adt_rodata) (m : mem) (adt p end_ offset : Z) : outcome (Z * list Z) :=
  match fuel with
  | O => Stuck
  | S fuel' =>
      c ← load8 m p;
      if c =? 0 then Done (offset, [0])
      else
        p ← skip_slashes (str_fuel m) m p;
        c ← load8 m p;
        if c =? 0 then Done (offset, [0])
        else
          q ← strchr m p 47;
          let q := if q =? NULL then end_ else q in
          offset' ← adt_subnode_offset_namelen r m adt offset p (q - p);
          if offset' <? 0 then Done (offset', [0])
          else '(res, trace) ← path_loop fuel' r m adt q end_ offset'; Done (res, offset' :: trace)
  end.

Definition adt_path_offset_trace (r : adt_rodata) (m : mem) (adt path : Z) : outcome (Z * list Z) :=
  l ← strlen m path;
  err ← adt_check_header m adt;
  if negb (err =? 0) then Done (err, []) else path_loop (str_fuel m) r m adt path (path + l) 0.

Definition adt_path_offset (r : adt_rodata) (m : mem) (adt path : Z) : outcome Z :=
  '(offset, _) ← adt_path_offset_trace r m adt path; Done offset.

(** ** Registers and address translation *)
Fixpoint get_cells_loop (n : nat) (i : Z) (m : mem) (src dst : Z) : outcome (Z * Z) :=
  match n with
  | O => Done (dst, src)
  | S n' =>
      w ← load_le 4 m src;
      get_cells_loop n' (i + 1) m (src + 4) (Z.lor dst (u64 (Z.shiftl w (32 * i))))
  end.
(** The value and the advanced source pointer. *)
Definition get_cells (m : mem) (src cells : Z) : outcome (Z * Z) :=
  get_cells_loop (Z.to_nat cells) 0 m src 0.

(** [while (path[cur + 1]) cur++;] *)
Fixpoint path_last (fuel : nat) (path : list Z) (cur : Z) : outcome Z :=
  match fuel with
  | O => Stuck
  | S fuel' => x ← znth path (cur + 1); if x =? 0 then Done cur else path_last fuel' path (cur + 1)
  end.

Definition path_parent (path : list Z) (cur : Z) : outcome Z :=
  if 0 <? cur then znth path (cur - 1) else Done 0.

(** The [while (range_cnt--)] loop: the translated address. *)
Fixpoint range_loop (n : nat) (m : mem) (ranges a_cells pa_cells s_cells addr size : Z) : outcome Z :=
  match n with
  | O => Done addr
  | S n' =>
      '(c_addr, ranges) ← get_cells m ranges a_cells;
      '(p_addr, ranges) ← get_cells m ranges pa_cells;
      '(c_size, ranges) ← get_cells m ranges s_cells;
      if (c_addr <=? addr) && (u64 (addr + size) <=? u64 (c_addr + c_size))
      then Done (u64 (addr - c_addr + p_addr))
      else range_loop n' m ranges a_cells pa_cells s_cells addr size
  end.

(** The [while (parent)] loop: [inl] is an early return with that status. *)
Fixpoint translate_loop (fuel : nat) (r : adt_rodata) (m : mem) (adt : Z) (path : list Z)
    (cur parent a_cells s_cells addr size : Z) : outcome (Z + Z) :=
  if parent =? 0 then Done (inr addr)
  else
    match fuel with
    | O => Stuck
    | S fuel' =>
        let node := parent in
        parent' ← path_parent path (cur - 1);
        p ← adt_getprop m adt node (lit_ranges r);
        match p with
        | None => Done (inr addr)
        | Some (ranges, ranges_len) =>
            pa_cells ← adt_getprop_u32 m adt parent' (lit_address_cells r) 2;
            if (pa_cells <? 1) || (2 <? pa_cells) || (2 <? s_cells) then Done (inl ADT_ERR_BADNCELLS)
            else
              let range_cnt := ranges_len / (4 * (pa_cells + a_cells + s_cells)) in
              addr' ← range_loop (Z.to_nat range_cnt) m ranges a_cells pa_cells s_cells addr size;
              s_cells' ← adt_getprop_u32 m adt parent' (lit_size_cells r) s_cells;
              translate_loop fuel' r m adt path (cur - 1) parent' pa_cells s_cells' addr' size
        end
    end.

(** The status and, on success, the values stored through [paddr] and [psize]. *)
Definition adt_get_reg (r : adt_rodata) (m : mem) (adt : Z) (path : list Z) (prop idx : Z)
    : outcome (Z * option (Z * Z)) :=
  first ← znth path 0;
  if first =? 0 then Done (- ADT_ERR_BADOFFSET, None)
  else
    cur ← path_last (length path) path 0;
    node ← znth path cur;
    parent ← path_parent path cur;
    a_cells ← adt_getprop_u32 m adt parent (lit_address_cells r) 2;
    s_cells ← adt_getprop_u32 m adt parent (lit_size_cells r) 1;
    if (a_cells <? 1) || (2 <? a_cells) || (2 <? s_cells) then Done (ADT_ERR_BADNCELLS, None)
    else
      p ← adt_getprop m adt node prop;
      match p with
      | None => Done (- ADT_ERR_NOTFOUND, None)
      | Some (reg, reg_len) =>
          if reg_len =? 0 then Done (- ADT_ERR_NOTFOUND, None)
          else if reg_len <? u32 ((idx + 1) * (a_cells + s_cells) * 4)
          then Done (- ADT_ERR_BADVALUE, None)
          else
            '(addr, reg) ← get_cells m (reg + 4 * u32 (idx * (a_cells + s_cells))) a_cells;
            '(size, reg) ← get_cells m reg s_cells;
            res ← translate_loop (length path) r m adt path cur parent a_cells s_cells addr size;
            match res with
            | inl status => Done (status, None)
            | inr addr => Done (0, Some (u32 addr, u32 size))
            end
      end.

Fixpoint compatible_loop (fuel : nat) (m : mem) (list_ end_ compat : Z) : outcome bool :=
  match fuel with
  | O => Stuck
  | S fuel' =>
      if list_ =? end_ then Done false
      else
        c ← strcmp m list_ compat;
        if c =? 0 then Done true
        else l ← strlen m list_; compatible_loop fuel' m (list_ + (l + 1)) end_ compat
  end.
Definition adt_is_compatible (r : adt_rodata) (m : mem) (adt nodeoffset compat : Z) : outcome bool :=
  p ← adt_getprop m adt nodeoffset (lit_compatible r);
  match p with
  | None => Done false
  | Some (list_, len) => compatible_loop (str_fuel m) m list_ (list_ + len) compat
  end.

(** ** The tree that a blob encodes *)
Inductive adt_tree : Type :=
| ANode (props : list (list Z * list Z)) (children : list adt_tree).

Definition tree_props (t : adt_tree) := let (ps, _) := t in ps.
Definition tree_children (t : adt_tree) := let (_, cs) := t in cs.

Definition prop_bytes (p : list Z * list Z) : list Z :=
  let (name, value) := p in
  name ++ replicate (32 - length name) 0 ++ le_bytes 4 (zlen value) ++
  value ++ replicate (Z.to_nat (pad4 (zlen value) - zlen value)) 0.

Fixpoint flatten (t : adt_tree) : list Z :=
  match t with
  | ANode ps cs =>
      le_bytes 4 (zlen ps) ++ le_bytes 4 (zlen cs) ++
      flat_map prop_bytes ps ++ flat_map flatten cs
  end.

(** Names are C strings that fit in 31 bytes. *)
Definition name_ok (s : list Z) : Prop := Forall (fun c => 0 < c < 256) s /\ zlen s < 32.

Inductive tree_ok : adt_tree -> Prop :=
| tree_ok_node ps cs :
    Forall (fun p => name_ok (fst p) /\ are_bytes (snd p)) ps -> Forall tree_ok cs ->
    tree_ok (ANode ps cs).

(** The tree [t] is stored at offset [off] of the blob at [adt]; the blob ends
    below [limit]. *)
Definition tree_at (m : mem) (adt off : Z) (t : adt_tree) : Prop :=
  tree_ok t /\ 0 < adt /\ 0 <= off /\ off + zlen (flatten t) < 2 ^ 31 /\
  adt + off + zlen (flatten t) <= 2 ^ 32 /\ bytes_at m (adt + off) (flatten t).

(** The value of the first property called [name]. *)
Definition assoc_prop (ps : list (list Z * list Z)) (name : list Z) : option (list Z) :=
  snd <$> List.find (fun p => bool_decide (fst p = name)) ps.

(** ** Layout lemmas *)
Lemma zlen_prop_bytes p : name_ok (fst p) -> zlen (prop_bytes p) = 36 + pad4 (zlen (snd p)).
Proof.
  destruct p as [name value]. intros [_ Hn]. cbn [fst snd prop_bytes] in *.
  autorewrite with haywire. pose proof (pad4_bounds (zlen value)). unfold zlen in *. lia.
Qed.

(** A property record at [off]: its C name, its size field and its value. *)
Lemma prop_bytes_fields m a p :
  name_ok (fst p) -> zlen (snd p) < 2 ^ 31 -> bytes_at m a (prop_bytes p) ->
  cstr_at m a (fst p) /\ prop_size m a = Done (zlen (snd p)) /\ bytes_at m (a + 36) (snd p).
Proof.
  destruct p as [name value]. intros [Hnz Hn] Hv H. cbn [fst snd prop_bytes] in *.
  pose proof (zlen_nonneg value). pose proof (zlen_nonneg name).
  assert (zlen (name ++ replicate (32 - length name) 0) = 32) as H32.
  { autorewrite with haywire. unfold zlen in *. lia. }
  rewrite app_assoc in H. apply bytes_at_app in H as [Hname H]. rewrite H32 in H.
  apply bytes_at_app in H as [Hsz H]. rewrite zlen_le_bytes in H.
  apply bytes_at_app in H as [Hval _]. split; [|split].
  - split; [done|]. replace (32 - length name)%nat with (S (31 - length name)) in Hname by (unfold zlen in *; lia).
    cbn [replicate] in Hname. apply (bytes_at_app _ _ (name ++ [0]) (replicate (31 - length name) 0)).
    by rewrite <- app_assoc.
  - apply load_le_le_bytes; [done|]. cbn. lia.
  - by replace (a + 32 + Z.of_nat 4) with (a + 36) in Hval by lia.
Qed.

Lemma next_property_spec m adt off p :
  name_ok (fst p) -> 0 <= off -> off + zlen (prop_bytes p) < 2 ^ 31 ->
  bytes_at m (adt + off) (prop_bytes p) ->
  adt_next_property_offset m adt off = Done (off + zlen (prop_bytes p)).
Proof.
  intros Hn Hoff Hb H. rewrite zlen_prop_bytes in * by done.
  pose proof (zlen_nonneg (snd p)). pose proof (pad4_bounds (zlen (snd p))).
  destruct (prop_bytes_fields m (adt + off) p Hn) as (_ & Hs & _); [lia|done|].
  unfold adt_next_property_offset. rewrite Hs, bind_Done.
  replace (ALIGN_UP 32 (zlen (snd p)) 4) with (pad4 (zlen (snd p))).
  - rewrite s32_small by lia. f_equal. lia.
  - symmetry. unfold pad4. replace (zlen (snd p) + 3) with (zlen (snd p) + 4 - 1) by lia.
    apply (ALIGN_UP_pow2 2); lia.
Qed.

Abbreviation props_ok := (Forall (fun p => name_ok (fst p) /\ are_bytes (snd p))).

Lemma properties_skip m adt ps off :
  props_ok ps -> 0 <= off -> off + zlen (flat_map prop_bytes ps) < 2 ^ 31 ->
  bytes_at m (adt + off) (flat_map prop_bytes ps) ->
  iter_offset (length ps) (adt_next_property_offset m adt) off =
    Done (off + zlen (flat_map prop_bytes ps)).
Proof.
  intros Hps. revert off. induction Hps as [|p ps [Hn _] Hps IH]; intros off Hoff Hb H.
  { cbn. by rewrite zlen_nil, Z.add_0_r. }
  cbn [flat_map length iter_offset] in *. rewrite zlen_app in *. apply bytes_at_app in H as [Hp H].
  pose proof (zlen_nonneg (prop_bytes p)). pose proof (zlen_nonneg (flat_map prop_bytes ps)).
  rewrite (next_property_spec _ _ _ p), bind_Done by (done || lia).
  rewrite IH; [f_equal; lia|lia|lia|]. by rewrite Z.add_assoc.
Qed.

Lemma zlen_flatten t : zlen (flatten t) = 8 + zlen (flat_map prop_bytes (tree_props t)) + zlen (flat_map flatten (tree_children t)).
Proof. destruct t as [ps cs]. cbn [flatten tree_props tree_children]. autorewrite with haywire. lia. Qed.

(** Every property takes at least 36 bytes, every node at least 8. *)
Lemma zlen_flat_map_ge {A} (f : A -> list Z) k l :
  (forall x, x ∈ l -> k <= zlen (f x)) -> k * zlen l <= zlen (flat_map f l).
Proof.
  intros H. induction l as [|x l IH]; cbn [flat_map]; autorewrite with haywire; [lia|].
  specialize (H x) as Hx. specialize (Hx ltac:(constructor)).
  assert (k * zlen l <= zlen (flat_map f l)); [|lia]. apply IH. intros. apply H. by constructor.
Qed.

(** The header fields and the two bodies of a stored node. *)
Lemma tree_at_fields m adt off t :
  tree_at m adt off t ->
  adt_get_property_count m adt off = Done (zlen (tree_props t)) /\
  adt_get_child_count m adt off = Done (zlen (tree_children t)) /\
  props_ok (tree_props t) /\ Forall tree_ok (tree_children t) /\
  bytes_at m (adt + off + 8) (flat_map prop_bytes (tree_props t)) /\
  bytes_at m (adt + off + 8 + zlen (flat_map prop_bytes (tree_props t))) (flat_map flatten (tree_children t)).
Proof.
  intros ([ps cs Hps Hcs] & Ha & Hoff & Hlim & Hwrap & H). pose proof (zlen_flatten (ANode ps cs)) as Hl.
  cbn [tree_props tree_children] in *.
  assert (36 * zlen ps <= zlen (flat_map prop_bytes ps)).
  { apply zlen_flat_map_ge. intros p Hp. rewrite Forall_forall in Hps. destruct (Hps p) as [Hn _]; [done|].
    rewrite zlen_prop_bytes by done. pose proof (pad4_bounds (zlen (snd p))). pose proof (zlen_nonneg (snd p)). lia. }
  assert (8 * zlen cs <= zlen (flat_map flatten cs)).
  { apply zlen_flat_map_ge. intros c _. rewrite zlen_flatten.
    pose proof (zlen_nonneg (flat_map prop_bytes (tree_props c))).
    pose proof (zlen_nonneg (flat_map flatten (tree_children c))). lia. }
  pose proof (zlen_nonneg ps). pose proof (zlen_nonneg cs).
  cbn [flatten] in H. apply bytes_at_app in H as [Hpcb H]. apply bytes_at_app in H as [Hccb H].
  rewrite !zlen_le_bytes in *. apply bytes_at_app in H as [Hpb Hcb].
  replace (adt + off + Z.of_nat 4 + Z.of_nat 4) with (adt + off + 8) in * by lia.
  split; [|split; [|done]].
  - apply load_le_le_bytes; [done|]. cbn. lia.
  - apply load_le_le_bytes; [done|]. cbn. lia.
Qed.

Lemma first_child_spec m adt off t :
  tree_at m adt off t ->
  adt_first_child_offset m adt off = Done (off + 8 + zlen (flat_map prop_bytes (tree_props t))).
Proof.
  intros H. destruct (tree_at_fields _ _ _ _ H) as (Hpc & _ & Hps & _ & Hp & _).
  destruct H as (_ & ? & ? & Hlim & _ & _). rewrite zlen_flatten in Hlim.
  pose proof (zlen_nonneg (flat_map prop_bytes (tree_props t))).
  pose proof (zlen_nonneg (flat_map flatten (tree_children t))).
  unfold adt_first_child_offset. rewrite Hpc, bind_Done, to_nat_zlen.
  unfold adt_first_property_offset. rewrite s32_small by lia.
  rewrite properties_skip; [done|done|lia|lia|]. by rewrite Z.add_assoc.
Qed.

(** Consecutive trees from [off] on. *)
Definition trees_at (m : mem) (adt off : Z) (cs : list adt_tree) : Prop :=
  Forall tree_ok cs /\ 0 < adt /\ 0 <= off /\ off + zlen (flat_map flatten cs) < 2 ^ 31 /\
  adt + off + zlen (flat_map flatten cs) <= 2 ^ 32 /\ bytes_at m (adt + off) (flat_map flatten cs).

Lemma trees_at_cons m adt off c cs :
  trees_at m adt off (c :: cs) -> tree_at m adt off c /\ trees_at m adt (off + zlen (flatten c)) cs.
Proof.
  intros (Hok & ? & ? & Hl & Hw & H). cbn [flat_map] in *. rewrite zlen_app in *.
  apply bytes_at_app in H as [Hbc Hbs]. inversion Hok; subst.
  pose proof (zlen_nonneg (flatten c)). pose proof (zlen_nonneg (flat_map flatten cs)).
  split; (split; [done|]); repeat split; try lia; try done. by rewrite Z.add_assoc.
Qed.

Lemma children_at m adt off t :
  tree_at m adt off t ->
  trees_at m adt (off + 8 + zlen (flat_map prop_bytes (tree_props t))) (tree_children t).
Proof.
  intros H. destruct (tree_at_fields _ _ _ _ H) as (_ & _ & _ & Hcs & _ & Hc).
  destruct H as (_ & ? & ? & Hlim & Hw & _). rewrite zlen_flatten in *.
  pose proof (zlen_nonneg (flat_map prop_bytes (tree_props t))).
  pose proof (zlen_nonneg (flat_map flatten (tree_children t))).
  split; [done|]. repeat split; try lia. by rewrite !Z.add_assoc.
Qed.

Lemma next_sibling_spec fuel m adt off t :
  tree_at m adt off t -> zlen (flatten t) < Z.of_nat fuel ->
  next_sibling fuel m adt off = Done (off + zlen (flatten t)).
Proof.
  revert off t. induction fuel as [|fuel IH]; intros off t H Hf; [pose proof (zlen_nonneg (flatten t)); lia|].
  cbn [next_sibling]. destruct (tree_at_fields _ _ _ _ H) as (_ & -> & _).
  rewrite (first_child_spec _ _ _ _ H), !bind_Done, to_nat_zlen.
  pose proof (children_at _ _ _ _ H) as Hc. rewrite zlen_flatten in *. rewrite !Z.add_assoc.
  pose proof (zlen_nonneg (flat_map prop_bytes (tree_props t))).
  revert Hc Hf. generalize (tree_children t) as cs.
  generalize (off + 8 + zlen (flat_map prop_bytes (tree_props t))) as o.
  intros o cs. revert o. induction cs as [|c cs IHc]; intros o Hc Hf; cbn [length iter_offset].
  { cbn. by rewrite zlen_nil, Z.add_0_r. }
  apply trees_at_cons in Hc as [Hc1 Hc2]. cbn [flat_map] in *. rewrite zlen_app in *.
  pose proof (zlen_nonneg (flatten c)). pose proof (zlen_nonneg (flat_map flatten cs)).
  rewrite (IH o c), bind_Done by (done || lia).
  rewrite IHc; [f_equal; lia|done|lia].
Qed.

Lemma next_sibling_offset_spec m adt off t :
  tree_at m adt off t -> adt_next_sibling_offset m adt off = Done (off + zlen (flatten t)).
Proof.
  intros H. apply next_sibling_spec; [done|]. destruct H as (_ & _ & _ & _ & _ & H).
  apply bytes_at_size in H. unfold str_fuel, zlen. lia.
Qed.

(** ** Property lookup *)
Lemma bytes_at_inj m a xs ys :
  bytes_at m a xs -> bytes_at m a ys -> length xs = length ys -> xs = ys.
Proof.
  revert a ys. induction xs as [|x xs IH]; intros a [|y ys] Hx Hy Hl; cbn in Hl; try lia; [done|].
  destruct Hx as [[Hx _] Hxs], Hy as [[Hy _] Hys]. f_equal; [congruence|]. by apply (IH (a + 1)); [..|lia].
Qed.

Lemma adt_string_eq_spec m a b s t :
  cstr_at m a s -> bytes_at m b t -> adt_string_eq m a b (zlen t) = Done (bool_decide (s = t)).
Proof.
  intros Hs Ht. unfold adt_string_eq. rewrite (strlen_spec _ _ _ Hs), bind_Done.
  destruct (zlen s =? zlen t) eqn:E; b2p.
  - destruct (memcmp_spec s t m a b (zlen t)) as (x & -> & Hx); [done|done| |done|].
    { destruct Hs as [_ Hs]. by apply bytes_at_app in Hs as [? _]. }
    cbn. f_equal. destruct (decide (x = 0)); bdec; case_bool_decide; naive_solver.
  - rewrite bool_decide_false by congruence. done.
Qed.

Lemma property_loop_spec m adt ps off np name :
  props_ok ps -> 0 < adt -> 0 <= off -> off + zlen (flat_map prop_bytes ps) < 2 ^ 31 ->
  adt + off + zlen (flat_map prop_bytes ps) <= 2 ^ 32 ->
  bytes_at m (adt + off) (flat_map prop_bytes ps) -> bytes_at m np name ->
  match assoc_prop ps name with
  | Some v => exists p, 0 < p < 2 ^ 32 /\ property_loop (length ps) m adt off np (zlen name) = Done p /\
                        prop_size m p = Done (zlen v) /\ bytes_at m (p + 36) v /\
                        (v <> [] -> p + 36 < 2 ^ 32)
  | None => property_loop (length ps) m adt off np (zlen name) = Done NULL
  end.
Proof.
  intros Hps Ha. revert off. induction Hps as [|p ps [Hn _] Hps IH]; intros off Hoff Hb Hw H Hnp; [done|].
  unfold assoc_prop. cbn [flat_map length property_loop List.find] in *. rewrite zlen_app in *.
  apply bytes_at_app in H as [Hp H].
  pose proof (zlen_nonneg (flat_map prop_bytes ps)).
  pose proof (zlen_prop_bytes p Hn). pose proof (pad4_bounds (zlen (snd p))). pose proof (zlen_nonneg (snd p)).
  destruct (prop_bytes_fields m (adt + off) p Hn) as (Hs & Hsz & Hv); [lia|done|].
  rewrite u32_small by lia. rewrite (adt_string_eq_spec _ _ _ _ _ Hs Hnp), bind_Done.
  case_bool_decide; cbn [fmap option_fmap option_map].
  - exists (adt + off). do 4 (split; [done || lia|]). intros Hne.
    destruct (snd p) eqn:E; [done|]. rewrite zlen_cons in *. pose proof (zlen_nonneg l). lia.
  - rewrite (next_property_spec _ _ _ p), bind_Done by (done || lia).
    apply (IH (off + zlen (prop_bytes p))); [lia|lia|lia|by rewrite Z.add_assoc|done].
Qed.

(** [adt_getprop_namelen] and [adt_getprop] on a stored node. *)
Lemma adt_getprop_namelen_spec m adt off t np name :
  tree_at m adt off t -> bytes_at m np name ->
  match assoc_prop (tree_props t) name with
  | Some v => exists a, adt_getprop_namelen m adt off np (zlen name) = Done (Some (u32 a, zlen v)) /\
                        bytes_at m a v /\ (v <> [] -> 0 <= a < 2 ^ 32)
  | None => adt_getprop_namelen m adt off np (zlen name) = Done None
  end.
Proof.
  intros H Hnp. destruct (tree_at_fields _ _ _ _ H) as (Hpc & _ & Hps & _ & Hp & _).
  destruct H as (_ & ? & ? & Hlim & Hw & _). rewrite zlen_flatten in *.
  pose proof (zlen_nonneg (flat_map prop_bytes (tree_props t))).
  pose proof (zlen_nonneg (flat_map flatten (tree_children t))).
  unfold adt_getprop_namelen, adt_get_property_namelen. rewrite Hpc, bind_Done, to_nat_zlen.
  unfold adt_first_property_offset. rewrite s32_small by lia.
  pose proof (property_loop_spec m adt (tree_props t) (off + 8) np name Hps) as L.
  destruct (assoc_prop (tree_props t) name) as [v|].
  - destruct L as (p & ? & -> & Hsz & Hv & ?); [lia..|by rewrite Z.add_assoc|done|].
    rewrite bind_Done. unfold NULL. bdec. rewrite Hsz, bind_Done. exists (p + 36).
    split; [done|split; [done|lia]].
  - rewrite L; [done|lia..|by rewrite Z.add_assoc|done].
Qed.

Lemma cstr_at_bytes m a s : cstr_at m a s -> bytes_at m a s.
Proof. intros [_ H]. by apply bytes_at_app in H as [? _]. Qed.

Lemma adt_getprop_spec m adt off t np name :
  tree_at m adt off t -> cstr_at m np name ->
  match assoc_prop (tree_props t) name with
  | Some v => exists a, adt_getprop m adt off np = Done (Some (u32 a, zlen v)) /\
                        bytes_at m a v /\ (v <> [] -> 0 <= a < 2 ^ 32)
  | None => adt_getprop m adt off np = Done None
  end.
Proof.
  intros H Hn. unfold adt_getprop. rewrite (strlen_spec _ _ _ Hn), bind_Done.
  apply adt_getprop_namelen_spec; [done|]. by apply cstr_at_bytes.
Qed.

(** ** Finding children by name and resolving paths *)

(** A node's name: the ["name"] property without its terminator. *)
Definition node_name (t : adt_tree) : list Z :=
  match assoc_prop (tree_props t) (bytes_of "name") with Some v => removelast v | None => [] end.

(** Every node but the root carries a well-formed name. *)
Definition has_name (t : adt_tree) : Prop :=
  exists s, Forall (fun c => 0 < c < 256) s /\ assoc_prop (tree_props t) (bytes_of "name") = Some (s ++ [0]).
Inductive tree_named : adt_tree -> Prop :=
| tree_named_node ps cs :
    Forall (fun c => has_name c /\ tree_named c) cs -> tree_named (ANode ps cs).

(** The query [q] matches the name [s]: equal, or [s] continues with a unit
    address (["@..."]) that [q] does not have. *)
Definition nodename_match (s q : list Z) : bool :=
  bool_decide (s = q) ||
  (bool_decide (64 ∉ q) && bool_decide (take (length q) s = q) && bool_decide (s !! length q = Some 64)).

Definition find_child (cs : list adt_tree) (q : list Z) : option adt_tree :=
  List.find (fun c => nodename_match (node_name c) q) cs.

Fixpoint tree_walk (t : adt_tree) (path : list (list Z)) : option adt_tree :=
  match path with
  | [] => Some t
  | q :: path' => c ← find_child (tree_children t) q; tree_walk c path'
  end.

(** The components of a path: the maximal pieces without ['/']. *)
Definition emit (cur : list Z) : list (list Z) := match cur with [] => [] | _ => [cur] end.
Fixpoint split_path (cur s : list Z) : list (list Z) :=
  match s with
  | [] => emit cur
  | c :: s' => if c =? 47 then emit cur ++ split_path [] s' else split_path (cur ++ [c]) s'
  end.

Lemma nodename_eq_spec m a b s q :
  cstr_at m a s -> bytes_at m b q -> Forall (fun c => 0 < c < 256) q -> 0 < b ->
  adt_nodename_eq m a b (zlen q) = Done (nodename_match s q).
Proof.
  intros Hs Hb Hq Hbp. unfold adt_nodename_eq.
  assert (Hcmp : exists x, memcmp m a b (zlen q) = Done x /\ (x = 0 <-> take (length q) s = q)).
  { unfold memcmp. rewrite to_nat_zlen. clear Hbp. revert a b s Hs Hb.
    induction Hq as [|y q Hy Hq IH]; intros a b s Hs Hb; [by exists 0|].
    destruct Hb as [[Hyb ?] Hb]. cbn [length memcmp_loop].
    destruct s as [|x s].
    - apply cstr_nil in Hs as [Ha ?]. ld Ha. ld Hyb. bdec. eexists; split; [done|]. cbn. split; [lia|done].
    - apply cstr_cons in Hs as (? & [Hx ?] & Hs). ld Hx. ld Hyb.
      destruct (decide (x = y)) as [->|]; bdec.
      + destruct (IH _ _ _ Hs Hb) as (v & Hv & Hv'). exists v. split; [done|]. cbn. rewrite Hv'. split; congruence.
      + eexists; split; [done|]. cbn. split; [lia|congruence]. }
  destruct Hcmp as (x & -> & Hx). rewrite bind_Done. unfold nodename_match.
  destruct (decide (x = 0)) as [->|]; bdec.
  2: { rewrite (bool_decide_false (take _ _ = _)), andb_false_r by tauto.
       rewrite bool_decide_false; [done|]. intros ->. apply n, Hx. by rewrite firstn_all. }
  assert (take (length q) s = q) as Ht by tauto. rewrite (bool_decide_true (take _ _ = _)) by done.
  rewrite andb_true_r.
  assert (exists u, s = q ++ u) as [u ->] by (exists (drop (length q) s); rewrite <- Ht at 1; by rewrite take_drop).
  rewrite lookup_app_r, Nat.sub_diag by lia.
  destruct Hs as [Hsf Hs]. rewrite <- app_assoc in Hs. apply bytes_at_app in Hs as [_ Hs].
  apply Forall_app in Hsf as [_ Hsf].
  destruct u as [|c u].
  - destruct Hs as [[Hc ?] _]. ld Hc. bdec. by rewrite app_nil_r, bool_decide_true.
  - destruct Hs as [[Hc ?] _]. ld Hc. inversion Hsf; subst. bdec.
    rewrite (bool_decide_false (q ++ c :: u = q)).
    2: { intros E. apply (f_equal length) in E. rewrite length_app in E. cbn in E. lia. }
    unfold memchr. rewrite to_nat_zlen. cbn [orb lookup list_lookup].
    destruct (memchr_loop_spec q m b 64 Hb) as [(i & Hi & _ & ->)|[Hn ->]]; rewrite bind_Done.
    + change (u8 64) with 64 in Hi. rewrite bool_decide_false by (intros Hn; apply Hn; by eapply list_elem_of_lookup_2).
      unfold NULL. bdec. done.
    + unfold NULL. bdec. change (u8 64) with 64 in Hn. rewrite bool_decide_true by done. cbn. f_equal.
      destruct (decide (c = 64)); bdec; case_bool_decide; congruence.
Qed.

Lemma adt_get_name_spec r m adt off t :
  tree_at m adt off t -> has_name t -> cstr_at m (lit_name r) (bytes_of "name") ->
  exists a, adt_get_name r m adt off = Done a /\ cstr_at m a (node_name t).
Proof.
  intros Ht (s & Hs & Hn) Hl. unfold adt_get_name, node_name.
  pose proof (adt_getprop_spec _ _ _ _ _ _ Ht Hl) as H. rewrite Hn in H |- *.
  destruct H as (a & -> & Hv & Ha). exists a. rewrite bind_Done, removelast_last. split; [|done].
  rewrite u32_small; [done|]. apply Ha. by destruct s.
Qed.

Lemma find_child_named cs q c :
  find_child cs q = Some c -> c ∈ cs /\ nodename_match (node_name c) q = true.
Proof. intros H. apply find_some in H as [H ?]. split; [by apply list_elem_of_In|done]. Qed.

Lemma subnode_loop_spec r m adt off cs b q :
  trees_at m adt off cs -> Forall has_name cs -> cstr_at m (lit_name r) (bytes_of "name") ->
  bytes_at m b q -> Forall (fun c => 0 < c < 256) q -> 0 < b ->
  match find_child cs q with
  | Some c => exists off', subnode_loop (length cs) r m adt off b (zlen q) = Done off' /\ tree_at m adt off' c
  | None => subnode_loop (length cs) r m adt off b (zlen q) = Done (- ADT_ERR_NOTFOUND)
  end.
Proof.
  intros Hcs Hnm Hl Hb Hq Hbp. revert off Hcs. induction Hnm as [|c cs Hc _ IH]; intros off Hcs; [done|].
  apply trees_at_cons in Hcs as [Hc1 Hc2]. unfold find_child. cbn [List.find length subnode_loop].
  destruct (adt_get_name_spec r m adt off c) as (a & -> & Ha); [done..|]. rewrite bind_Done.
  rewrite (nodename_eq_spec m a b (node_name c) q), bind_Done by done.
  destruct (nodename_match (node_name c) q); [by exists off|].
  rewrite (next_sibling_offset_spec _ _ _ _ Hc1), bind_Done. by apply IH.
Qed.

(** The bounds that [adt_check_header] enforces on the root. *)
Definition root_ok (t : adt_tree) : Prop :=
  1 <= zlen (tree_props t) <= 2048 /\ zlen (tree_children t) <= 2048.

Lemma adt_check_header_spec m adt t : tree_at m adt 0 t -> root_ok t -> adt_check_header m adt = Done 0.
Proof.
  intros H [??]. destruct (tree_at_fields _ _ _ _ H) as (Hp & Hc & _).
  unfold adt_check_header, adt_check_node_offset.
  change ((0 <? 0) || negb (Z.rem 0 4 =? 0)) with false. cbn iota. rewrite Hp, Hc, !bind_Done. bdec. done.
Qed.

Lemma subnode_offset_spec r m adt t0 off t b q :
  tree_at m adt 0 t0 -> root_ok t0 ->
  tree_at m adt off t -> Forall has_name (tree_children t) -> cstr_at m (lit_name r) (bytes_of "name") ->
  bytes_at m b q -> Forall (fun c => 0 < c < 256) q -> 0 < b ->
  match find_child (tree_children t) q with
  | Some c => exists off', adt_subnode_offset_namelen r m adt off b (zlen q) = Done off' /\ tree_at m adt off' c
  | None => adt_subnode_offset_namelen r m adt off b (zlen q) = Done (- ADT_ERR_NOTFOUND)
  end.
Proof.
  intros H0 Hr H Hnm Hl Hb Hq Hbp. unfold adt_subnode_offset_namelen.
  rewrite (adt_check_header_spec _ _ _ H0 Hr), bind_Done. cbn [negb Z.eqb].
  destruct (tree_at_fields _ _ _ _ H) as (_ & -> & _). rewrite bind_Done, to_nat_zlen.
  pose proof (children_at _ _ _ _ H) as Hcs. rewrite (first_child_spec _ _ _ _ H).
  change (negb (0 =? 0)) with false. cbn iota.
  destruct (decide (zlen (tree_children t) = 0)) as [Hz|]; bdec.
  - by destruct (tree_children t); [|rewrite zlen_cons in Hz; pose proof (zlen_nonneg l); lia].
  - rewrite bind_Done. by apply subnode_loop_spec.
Qed.

(** The nodes visited along a path: each component selects a child, which is
    stored at the recorded offset. *)
Inductive walks (m : mem) (adt : Z) : Z -> adt_tree -> list (list Z) -> list Z -> Z -> adt_tree -> Prop :=
| walks_nil off t : walks m adt off t [] [] off t
| walks_cons off t q path off1 c offs off2 t2 :
    find_child (tree_children t) q = Some c -> tree_at m adt off1 c ->
    walks m adt off1 c path offs off2 t2 -> walks m adt off t (q :: path) (off1 :: offs) off2 t2.

Lemma split_path_word cur w s : 47 ∉ w -> split_path cur (w ++ s) = split_path (cur ++ w) s.
Proof.
  revert cur. induction w as [|c w IH]; intros cur H; cbn [app split_path]; [by rewrite app_nil_r|].
  apply not_elem_of_cons in H as [??]. bdec. rewrite IH by done. by rewrite <- app_assoc.
Qed.

Lemma split_path_slashes n s : split_path [] (replicate n 47 ++ s) = split_path [] s.
Proof. induction n as [|n IH]; [done|]. cbn. apply IH. Qed.

Lemma split_path_break w s : w <> [] -> s = [] \/ head s = Some 47 -> split_path w s = w :: split_path [] s.
Proof.
  intros Hw Hs. destruct w as [|c w]; [done|]. destruct s as [|d s]; [done|]. destruct Hs as [|[= ->]]; [done|].
  done.
Qed.

Lemma skip_slashes_spec fuel m p s :
  cstr_at m p s -> (length s < fuel)%nat ->
  exists n s', s = replicate n 47 ++ s' /\ head s' <> Some 47 /\
               skip_slashes fuel m p = Done (p + Z.of_nat n).
Proof.
  revert p s. induction fuel as [|fuel IH]; intros p s H Hf; [lia|]. cbn [skip_slashes].
  destruct s as [|c s].
  - apply cstr_nil in H as [H0 ?]. ld H0. exists O, []. bdec. repeat split; [done|]. f_equal. lia.
  - apply cstr_cons in H as (? & [Hc ?] & Hs). ld Hc. destruct (decide (c = 47)) as [->|]; bdec.
    + destruct (IH _ _ Hs) as (n & s' & -> & ? & ->); [cbn in Hf; lia|].
      exists (S n), s'. repeat split; [done|]. f_equal. lia.
    + exists O, (c :: s). repeat split; [naive_solver|]. f_equal. lia.
Qed.

Lemma cstr_at_drop m p s1 s2 : cstr_at m p (s1 ++ s2) -> cstr_at m (p + zlen s1) s2.
Proof.
  intros [Hf H]. apply Forall_app in Hf as [_ ?]. rewrite <- app_assoc in H.
  apply bytes_at_app in H as [_ ?]. by split.
Qed.

(** [strchr] finds where the current component ends. *)
Lemma component_end m p s :
  cstr_at m p s -> s <> [] -> head s <> Some 47 -> 0 < p ->
  exists w u x, s = w ++ u /\ w <> [] /\ 47 ∉ w /\ (u = [] \/ head u = Some 47) /\
    strchr m p 47 = Done x /\ (if x =? NULL then p + zlen s else x) = p + zlen w.
Proof.
  intros H Hne Hh Hp. unfold strchr.
  destruct (strchr_loop_spec (str_fuel m) m p 47 s H) as [(i & Hi & Hj & ->)|[Hn ->]]; [by eapply cstr_fuel|..].
  - change (u8 47) with 47 in *.
    assert (i < length s)%nat.
    { pose proof (lookup_lt_Some _ _ _ Hi) as L. rewrite length_app in L. cbn in L.
      destruct (decide (i = length s)) as [->|]; [|lia]. rewrite lookup_app_r, Nat.sub_diag in Hi by lia. done. }
    rewrite lookup_app_l in Hi by done.
    exists (take i s), (drop i s), (p + Z.of_nat i). rewrite take_drop. repeat split.
    + intros E. apply (f_equal length) in E. rewrite length_take in E. cbn in E.
      assert (i = 0)%nat as -> by lia. destruct s; naive_solver.
    + intros E. apply list_elem_of_lookup in E as [j E]. apply lookup_take_Some in E as [E ?].
      apply (Hj j); [done|]. rewrite lookup_app_l by lia. done.
    + right. rewrite head_lookup, lookup_drop, Nat.add_0_r. done.
    + unfold NULL. bdec. unfold zlen. rewrite length_take. f_equal. lia.
  - exists s, [], NULL. rewrite app_nil_r. repeat split; [done| |by left].
    intros E. apply Hn. apply elem_of_app. by left.
Qed.

Lemma path_loop_spec fuel r m adt t0 p s off t :
  tree_at m adt 0 t0 -> root_ok t0 -> cstr_at m (lit_name r) (bytes_of "name") ->
  cstr_at m p s -> 0 < p -> (length s < fuel)%nat ->
  tree_at m adt off t -> tree_named t ->
  match tree_walk t (split_path [] s) with
  | Some t' => exists offs off', path_loop fuel r m adt p (p + zlen s) off = Done (off', offs ++ [0]) /\
                                 walks m adt off t (split_path [] s) offs off' t'
  | None => exists offs, path_loop fuel r m adt p (p + zlen s) off = Done (- ADT_ERR_NOTFOUND, offs ++ [0])
  end.
Proof.
  intros H0 Hr Hl. revert p s off t. induction fuel as [|fuel IH]; intros p s off t Hs Hp Hf Ht Hn; [lia|].
  cbn [path_loop]. destruct (decide (s = [])) as [->|Hne].
  { apply cstr_nil in Hs as [Hz ?]. ld Hz. bdec. cbn. exists [], off. split; [done|constructor]. }
  assert (exists c, load8 m p = Done c /\ c <> 0) as (c & -> & Hc0).
  { destruct s as [|c s]; [done|]. apply cstr_cons in Hs as (? & [Hc ?] & _). exists c.
    rewrite (load8_lookup _ _ _ Hc) by done. split; [done|lia]. }
  rewrite bind_Done. bdec.
  destruct (skip_slashes_spec (str_fuel m) m p s Hs) as (n & s' & -> & Hh & ->); [by eapply cstr_fuel|].
  rewrite bind_Done, split_path_slashes. pose proof (cstr_at_drop _ _ _ _ Hs) as Hs'.
  rewrite zlen_app, zlen_replicate, Z.add_assoc in *.
  destruct (decide (s' = [])) as [->|Hne'].
  { apply cstr_nil in Hs' as [Hz ?]. ld Hz. bdec. cbn. exists [], off. split; [done|constructor]. }
  assert (exists c, load8 m (p + Z.of_nat n) = Done c /\ c <> 0) as (c' & -> & Hc0').
  { destruct s' as [|c' s']; [done|]. apply cstr_cons in Hs' as (? & [Hc ?] & _). exists c'.
    rewrite (load8_lookup _ _ _ Hc) by done. split; [done|lia]. }
  rewrite bind_Done. bdec.
  destruct (component_end m (p + Z.of_nat n) s' Hs') as (w & u & x & -> & Hw & Hsl & Hu & Hchr & Hend); [done..|lia|].
  rewrite Hchr, bind_Done. cbv zeta. rewrite Hend, split_path_word, app_nil_l, (split_path_break _ _ Hw Hu) by done.
  replace (p + Z.of_nat n + zlen w - (p + Z.of_nat n)) with (zlen w) by lia.
  inversion Hn as [ps cs Hcs E]. subst t. cbn [tree_walk tree_children].
  pose proof (subnode_offset_spec r m adt t0 off (ANode ps cs) (p + Z.of_nat n) w H0 Hr Ht) as L.
  cbn [tree_children] in L. destruct Hs' as [Hsf Hsb]. apply Forall_app in Hsf as [Hwf _].
  rewrite <- app_assoc in Hsb. apply bytes_at_app in Hsb as [Hwb _].
  assert (Forall has_name cs) by (eapply Forall_impl; [exact Hcs|by intros ? [? _]]).
  destruct (find_child cs w) as [c1|] eqn:Hfc; cbn [mbind option_bind].
  2: { rewrite L by (done || lia). rewrite bind_Done. unfold ADT_ERR_NOTFOUND. bdec. by exists []. }
  destruct L as (off1 & -> & Hc1); [done..|lia|]. rewrite bind_Done.
  assert (0 <= off1) by (destruct Hc1 as (_ & _ & ? & _); done). bdec.
  apply find_child_named in Hfc as Hin. destruct Hin as [Hin _].
  rewrite Forall_forall in Hcs. destruct (Hcs c1 Hin) as [_ Hn1].
  specialize (IH (p + Z.of_nat n + zlen w) u off1 c1). rewrite <- (Z.add_assoc _ (zlen w)), <- zlen_app in IH.
  rewrite app_assoc in Hs. apply cstr_at_drop in Hs. rewrite zlen_app, zlen_replicate, Z.add_assoc in Hs.
  rewrite !length_app, length_replicate in Hf.
  assert (length w <> 0)%nat by (destruct w; cbn; [done|lia]). pose proof (zlen_nonneg w).
  specialize (IH Hs ltac:(lia) ltac:(lia) Hc1 Hn1).
  destruct (tree_walk c1 (split_path [] u)) as [t'|].
  - destruct IH as (offs & off' & -> & Hwalk). exists (off1 :: offs), off'. split; [done|].
    by econstructor.
  - destruct IH as (offs & ->). by exists (off1 :: offs).
Qed.

(** ** Address translation *)

(** A ["ranges"] entry: the child address, the parent address and the size. *)
Definition range_bytes (a_cells pa_cells s_cells : nat) (e : Z * Z * Z) : list Z :=
  let '(c, p, s) := e in
  le_bytes (4 * a_cells) c ++ le_bytes (4 * pa_cells) p ++ le_bytes (4 * s_cells) s.

Definition range_fits (a_cells pa_cells s_cells : nat) (e : Z * Z * Z) : Prop :=
  let '(c, p, s) := e in
  0 <= c < 2 ^ (32 * Z.of_nat a_cells) /\ 0 <= p < 2 ^ (32 * Z.of_nat pa_cells) /\
  0 <= s < 2 ^ (32 * Z.of_nat s_cells).

(** The first range that contains all of [addr, addr + size), as sets of numbers,
    and the address moved from its child side to its parent side. *)
Definition in_range (addr size : Z) (e : Z * Z * Z) : bool :=
  let '(c, _, s) := e in (c <=? addr) && (addr + size <=? c + s).
Definition translate (ranges : list (Z * Z * Z)) (addr size : Z) : Z :=
  match List.find (in_range addr size) ranges with
  | Some (c, p, _) => addr - c + p
  | None => addr
  end.

(** Neither side of a range reaches the end of the 64-bit address space. *)
Definition range_bounded (e : Z * Z * Z) : Prop := let '(c, p, s) := e in c + s < 2 ^ 64 /\ p + s < 2 ^ 64.

Lemma get_cells_loop_spec n i m a v dst :
  bytes_at m a (le_bytes (4 * n) v) -> 0 <= i -> i + Z.of_nat n <= 2 -> 0 <= v < 2 ^ (32 * Z.of_nat n) ->
  0 <= dst < 2 ^ (32 * i) ->
  get_cells_loop n i m a dst = Done (dst + 2 ^ (32 * i) * v, a + 4 * Z.of_nat n).
Proof.
  revert i a v dst. induction n as [|n IH]; intros i a v dst H Hi Hn Hv Hd.
  { cbn in *. assert (v = 0) as -> by lia. f_equal. f_equal; lia. }
  cbn [get_cells_loop]. replace (4 * S n)%nat with (4 + 4 * n)%nat in H by lia.
  assert (le_bytes (4 + 4 * n) v = le_bytes 4 v ++ le_bytes (4 * n) (v / 2 ^ 32)) as E.
  { cbn [Nat.add le_bytes app]. rewrite !Z.div_div by lia. done. }
  rewrite E in H. apply bytes_at_app in H as [Hw H]. rewrite zlen_le_bytes in H.
  rewrite <- (le_bytes_length 4 v) at 1. rewrite (load_le_bytes_at _ _ _ Hw), le_value_le_bytes, bind_Done.
  change (8 * Z.of_nat 4) with 32.
  assert (0 <= v / 2 ^ 32 < 2 ^ (32 * Z.of_nat n)).
  { replace (32 * Z.of_nat (S n)) with (32 + 32 * Z.of_nat n) in Hv by lia. rewrite Z.pow_add_r in Hv by lia.
    split; [apply Z.div_pos; lia|apply Z.div_lt_upper_bound; lia]. }
  assert (u64 (Z.shiftl (v mod 2 ^ 32) (32 * i)) = 2 ^ (32 * i) * (v mod 2 ^ 32)) as ->.
  { rewrite Z.shiftl_mul_pow2 by lia. rewrite Z.mul_comm. apply wrap_small.
    assert (i = 0 \/ i = 1) as [-> | ->] by lia; cbn; pose proof (Z.mod_pos_bound v (2 ^ 32)); lia. }
  assert (Z.lor dst (2 ^ (32 * i) * (v mod 2 ^ 32)) = dst + 2 ^ (32 * i) * (v mod 2 ^ 32)) as ->.
  { apply lor_disjoint; lia. }
  rewrite (IH (i + 1) (a + 4) (v / 2 ^ 32)); [|done|lia|lia|done|].
  - f_equal. f_equal; [|lia]. replace (32 * (i + 1)) with (32 * i + 32) by lia.
    rewrite Z.pow_add_r by lia. pose proof (Z.div_mod v (2 ^ 32)). nia.
  - replace (32 * (i + 1)) with (32 * i + 32) by lia. rewrite Z.pow_add_r by lia.
    pose proof (Z.mod_pos_bound v (2 ^ 32)). nia.
Qed.

Lemma get_cells_spec m a (n : nat) v :
  (n <= 2)%nat -> bytes_at m a (le_bytes (4 * n) v) -> 0 <= v < 2 ^ (32 * Z.of_nat n) ->
  get_cells m a (Z.of_nat n) = Done (v, a + 4 * Z.of_nat n).
Proof.
  intros Hn H Hv. unfold get_cells. rewrite Nat2Z.id.
  rewrite (get_cells_loop_spec n 0 m a v 0); [|done|lia|lia|done|cbn; lia].
  replace (32 * 0) with 0 by lia. change (2 ^ 0) with 1. f_equal. f_equal. lia.
Qed.

(** C31: The translation loop of [adt_get_reg] finds, among the ["ranges"]
    entries as they are encoded in the tree, the first one that contains the
    whole register block, and moves the address by the distance of the range's
    two sides; without such an entry it leaves the address alone.  The register
    block and both sides of the ranges end below 2^64: the loop computes ends in
    64 bits, and one that wraps would make it miss the range or take a wrong
    one. *)
Theorem range_loop_correct (m : mem) (ranges addr size : Z) (a_cells pa_cells s_cells : nat)
    (es : list (Z * Z * Z)) :
  (a_cells <= 2)%nat -> (pa_cells <= 2)%nat -> (s_cells <= 2)%nat ->
  Forall (range_fits a_cells pa_cells s_cells) es -> Forall range_bounded es ->
  0 <= addr -> 0 <= size -> addr + size < 2 ^ 64 ->
  bytes_at m ranges (flat_map (range_bytes a_cells pa_cells s_cells) es) ->
  range_loop (length es) m ranges (Z.of_nat a_cells) (Z.of_nat pa_cells) (Z.of_nat s_cells) addr size =
    Done (translate es addr size).
Proof.
  intros Ha Hp Hs Hes Hbd Ha0 Hs0 Hend. revert ranges. induction Hes as [|[[c p] s] es (Hc & Hpp & Hss) _ IH]; intros ranges H; [done|].
  apply Forall_cons in Hbd as [[Hb1 Hb2] Hbd']. specialize (IH Hbd').
  cbn [flat_map range_bytes length range_loop] in *. rewrite <- !app_assoc in H.
  apply bytes_at_app in H as [Hcb H]. apply bytes_at_app in H as [Hpb H]. apply bytes_at_app in H as [Hsb H].
  rewrite !zlen_le_bytes in *.
  rewrite (get_cells_spec _ _ _ _ Ha Hcb Hc), bind_Done.
  replace (ranges + 4 * Z.of_nat a_cells) with (ranges + Z.of_nat (4 * a_cells)) by lia.
  rewrite (get_cells_spec _ _ _ _ Hp Hpb Hpp), bind_Done.
  replace (ranges + Z.of_nat (4 * a_cells) + 4 * Z.of_nat pa_cells)
    with (ranges + Z.of_nat (4 * a_cells) + Z.of_nat (4 * pa_cells)) by lia.
  rewrite (get_cells_spec _ _ _ _ Hs Hsb Hss), bind_Done.
  rewrite (wrap_small 64 (addr + size)), (wrap_small 64 (c + s)) by lia. unfold translate. cbn [List.find in_range].
  destruct ((c <=? addr) && (addr + size <=? c + s)) eqn:E.
  { apply andb_true_iff in E as [E1 E2]. b2p. by rewrite wrap_small by lia. }
  replace (ranges + Z.of_nat (4 * a_cells) + Z.of_nat (4 * pa_cells) + 4 * Z.of_nat s_cells)
    with (ranges + Z.of_nat (4 * a_cells) + Z.of_nat (4 * pa_cells) + Z.of_nat (4 * s_cells)) by lia.
  by apply IH.
Qed.

(** ** The reader's contract *)

(** C19: [adt_getprop] on a stored node returns the address and length of the
    value of the first property with that exact name, and [NULL] when the node
    has no such property; a prefix of a property name is not a match. *)
Theorem adt_getprop_correct (m : mem) (adt off np : Z) (t : adt_tree) (name : list Z) :
  tree_at m adt off t -> cstr_at m np name ->
  match assoc_prop (tree_props t) name with
  | Some v => exists a, adt_getprop m adt off np = Done (Some (u32 a, zlen v)) /\
                        bytes_at m a v /\ (v <> [] -> 0 <= a < 2 ^ 32)
  | None => adt_getprop m adt off np = Done None
  end.
Proof. apply adt_getprop_spec. Qed.

(** [adt_next_sibling_offset] steps over exactly the bytes of the stored
    subtree: its header, its properties with their padding and, recursively,
    all its children.  The recursion always terminates on a stored tree. *)
Theorem adt_next_sibling_correct (m : mem) (adt off : Z) (t : adt_tree) :
  tree_at m adt off t -> adt_next_sibling_offset m adt off = Done (off + zlen (flatten t)).
Proof. apply next_sibling_offset_spec. Qed.

Lemma path_offset_trace_spec (r : adt_rodata) (m : mem) (adt path : Z) (t : adt_tree) (s : list Z) :
  tree_at m adt 0 t -> root_ok t -> tree_named t ->
  cstr_at m (lit_name r) (bytes_of "name") -> cstr_at m path s -> 0 < path ->
  match tree_walk t (split_path [] s) with
  | Some t' => exists offs off', adt_path_offset_trace r m adt path = Done (off', offs ++ [0]) /\
                                 walks m adt 0 t (split_path [] s) offs off' t'
  | None => exists offs, adt_path_offset_trace r m adt path = Done (- ADT_ERR_NOTFOUND, offs ++ [0])
  end.
Proof.
  intros Ht Hr Hn Hl Hs Hp. unfold adt_path_offset_trace.
  rewrite (strlen_spec _ _ _ Hs), bind_Done, (adt_check_header_spec _ _ _ Ht Hr), bind_Done.
  apply (path_loop_spec _ r m adt t path s 0 t); try done. by eapply cstr_fuel.
Qed.

Lemma walks_end m adt off t path offs off' t' : walks m adt off t path offs off' t' -> tree_at m adt off t -> tree_at m adt off' t'.
Proof. induction 1; auto. Qed.

(** The node that a path names. *)
Lemma path_offset_spec r m adt path t s t' :
  tree_at m adt 0 t -> root_ok t -> tree_named t -> cstr_at m (lit_name r) (bytes_of "name") -> cstr_at m path s -> 0 < path ->
  tree_walk t (split_path [] s) = Some t' ->
  exists off, adt_path_offset r m adt path = Done off /\ tree_at m adt off t'.
Proof.
  intros Ht Hr Hn Hl Hs Hp Hw. pose proof (path_offset_trace_spec r m adt path t s Ht Hr Hn Hl Hs Hp) as H. rewrite Hw in H.
  destruct H as (offs & off & Hrun & Hwalk). exists off. unfold adt_path_offset. rewrite Hrun. split; [done|]. by eapply walks_end.
Qed.

(** C12: [adt_path_offset_trace] resolves a path as the abstract tree does: the
    components between slashes (empty ones ignored) select, level by level, the
    first child whose name is the component or continues it with a unit
    address.  It returns the offset of that node and writes the offsets on the
    way followed by a 0; a component without a matching child gives
    [-ADT_ERR_NOTFOUND]. *)
Theorem adt_path_offset_correct (r : adt_rodata) (m : mem) (adt path : Z) (t : adt_tree) (s : list Z) :
  tree_at m adt 0 t -> root_ok t -> tree_named t ->
  cstr_at m (lit_name r) (bytes_of "name") -> cstr_at m path s -> 0 < path ->
  match tree_walk t (split_path [] s) with
  | Some t' => exists offs off', adt_path_offset_trace r m adt path = Done (off', offs ++ [0]) /\
                                 walks m adt 0 t (split_path [] s) offs off' t'
  | None => exists offs, adt_path_offset_trace r m adt path = Done (- ADT_ERR_NOTFOUND, offs ++ [0])
  end.
Proof. apply path_offset_trace_spec. Qed.

(** ** A concrete tree *)
Definition demo_child : adt_tree :=
  ANode [(bytes_of "name", bytes_of "arm-io" ++ [0]); (bytes_of "reg", [1; 2; 3; 4; 5])] [].
Definition demo_uart : adt_tree := ANode [(bytes_of "name", bytes_of "uart0@10" ++ [0])] [].
Definition demo_root : adt_tree := ANode [(bytes_of "#address-cells", [1; 0; 0; 0])] [demo_child; demo_uart].
Definition adt_demo_rodata : adt_rodata := Rodata 256 272 288 304 320.
(** The blob at 4096, the literals below it and a path at 512. *)
Definition adt_demo_mem : mem :=
  write_bytes (write_bytes (write_bytes ∅ 256 (bytes_of "name" ++ [0])) 512 (bytes_of "//uart0" ++ [0]))
    4096 (flatten demo_root).

Lemma demo_root_at : tree_at adt_demo_mem 4096 0 demo_root.
Proof.
  split; [repeat constructor; vm_compute; congruence|].
  do 4 (split; [vm_compute; congruence|]). apply bytes_at_write_eq; vm_compute; congruence.
Qed.

Lemma demo_named : tree_named demo_root.
Proof.
  constructor. constructor; [|constructor; [|constructor]]; (split; [|repeat constructor]).
  - exists (bytes_of "arm-io"). split; [repeat constructor|reflexivity].
  - exists (bytes_of "uart0@10"). split; [repeat constructor|reflexivity].
Qed.

Lemma range_loop_correct_witness :
  let es := [(0, 0x3a00000000, 0x1000); (0x2000, 0x81900000, 0x100)] in
  range_loop 2 (demo_mem (flat_map (range_bytes 1 2 1) es) 0) 4096 1 2 1 0x2010 16 = Done 0x81900010.
Proof.
  refine (range_loop_correct (demo_mem (flat_map (range_bytes 1 2 1) [(0, 0x3a00000000, 0x1000); (0x2000, 0x81900000, 0x100)]) 0)
            4096 0x2010 16 1 2 1 [(0, 0x3a00000000, 0x1000); (0x2000, 0x81900000, 0x100)] _ _ _ _ _ _ _ _ _).
  - lia.
  - lia.
  - lia.
  - repeat (constructor; [vm_compute; intuition congruence|]). constructor.
  - repeat (constructor; [by vm_compute|]). constructor.
  - lia.
  - lia.
  - lia.
  - concrete.
Defined.

Lemma adt_getprop_correct_witness :
  exists a, adt_getprop adt_demo_mem 4096 (zlen (flatten demo_root) - zlen (flatten demo_uart)) 256 = Done (Some (u32 a, 9)) /\
            bytes_at adt_demo_mem a (bytes_of "uart0@10" ++ [0]).
Proof.
  destruct (adt_getprop_correct adt_demo_mem 4096 (zlen (flatten demo_root) - zlen (flatten demo_uart)) 256 demo_uart (bytes_of "name"))
    as (a & Ha & Hv & _).
  - split; [repeat constructor; vm_compute; congruence|]. do 4 (split; [vm_compute; congruence|]). concrete.
  - split; [repeat constructor|concrete].
  - exists a. split; [exact Ha|exact Hv].
Defined.

Lemma adt_next_sibling_correct_witness :
  adt_next_sibling_offset adt_demo_mem 4096 0 = Done (zlen (flatten demo_root)).
Proof. exact (adt_next_sibling_correct adt_demo_mem 4096 0 demo_root demo_root_at). Defined.

Lemma adt_path_offset_correct_witness :
  exists offs off', adt_path_offset_trace adt_demo_rodata adt_demo_mem 4096 512 = Done (off', offs ++ [0]) /\
                    walks adt_demo_mem 4096 0 demo_root [bytes_of "uart0"] offs off' demo_uart.
Proof.
  refine (adt_path_offset_correct adt_demo_rodata adt_demo_mem 4096 512 demo_root (bytes_of "//uart0") demo_root_at _ demo_named _ _ _).
  - vm_compute. repeat split; congruence.
  - split; [repeat constructor|concrete].
  - split; [repeat constructor|concrete].
  - lia.
Defined.
