(* ===== verification/Vsprintf.v ===== *)
(** * Formatted output (src/vsprintf.c)

    [vsnprintf] reads the format one character at a time and keeps the state of
    the current conversion; every output character goes through [OUTCHAR],
    which counts it and stores it only while there is room.  Arguments are a
    list of words: taking one as another type than it was passed with is
    undefined ([Fault]). *)
From S2P Require Import Prelude.
From S2P Require Import Machine.
From S2P Require Import CString.

Definition INT_MAX : Z := 2147483647.
Definition MAX_CONVERT_LENGTH : Z := 43.

(** Format read states. *)
Inductive print_state : Type :=
| PRINT_S_DEFAULT | PRINT_S_FLAGS | PRINT_S_WIDTH | PRINT_S_DOT | PRINT_S_PRECISION | PRINT_S_MOD | PRINT_S_CONV.

(** Format flags. *)
Definition PRINT_F_MINUS : Z := 1.
Definition PRINT_F_PLUS : Z := 2.
Definition PRINT_F_SPACE : Z := 4.
Definition PRINT_F_NUM : Z := 8.
Definition PRINT_F_ZERO : Z := 16.
Definition PRINT_F_QUOTE : Z := 32.
Definition PRINT_F_UP : Z := 64.
Definition PRINT_F_UNSIGNED : Z := 128.

(** Conversion flags; 0 is none. *)
Definition PRINT_C_CHAR : Z := 1.
Definition PRINT_C_SHORT : Z := 2.
Definition PRINT_C_LONG : Z := 3.
Definition PRINT_C_LLONG : Z := 4.
Definition PRINT_C_SIZE : Z := 6.
Definition PRINT_C_PTRDIFF : Z := 7.
Definition PRINT_C_INTMAX : Z := 8.

(** A variable argument: a 32-bit word (int, long, size_t, pointer) or a
    64-bit one. *)
Inductive varg : Type :=
| A32 (v : Z)
| A64 (v : Z).

Definition va_arg32 (args : list varg) : outcome (Z * list varg) :=
  match args with A32 v :: rest => Done (u32 v, rest) | _ => Fault end.
Definition va_arg64 (args : list varg) : outcome (Z * list varg) :=
  match args with A64 v :: rest => Done (u64 v, rest) | _ => Fault end.

Definition has (flags f : Z) : bool := negb (Z.land flags f =? 0).
Definition ISDIGIT (ch : Z) : bool := (48 <=? ch) && (ch <=? 57).
Definition CHARTOINT (ch : Z) : Z := ch - 48.

(** ** Output: memory and the count of characters *)
Section output.
Context (str size : Z).

Definition OUTCHAR (st : mem * Z) (ch : Z) : outcome (mem * Z) :=
  let (m, len) := st in
  m' ← (if u32 (len + 1) <? size then store8 m (str + len) ch else Done m);
  Done (m', u32 (len + 1)).

(** The counting loops around [OUTCHAR] emit the characters of a list. *)
Fixpoint outchars (cs : list Z) (st : mem * Z) : outcome (mem * Z) :=
  match cs with
  | [] => Done st
  | c :: cs' => st' ← OUTCHAR st c; outchars cs' st'
  end.

Definition printsep (st : mem * Z) : outcome (mem * Z) := OUTCHAR st 44.

(** [for (strln = 0; value[strln] ...)] *)
Fixpoint strln_loop (fuel : nat) (m : mem) (value strln precision : Z) (noprecision : bool) : outcome Z :=
  match fuel with
  | O => Stuck
  | S fuel' =>
      c ← load8 m (value + strln);
      if negb (c =? 0) && (noprecision || (strln <? precision))
      then strln_loop fuel' m value (strln + 1) precision noprecision
      else Done strln
  end.

(** The loop that copies the string's characters. *)
Fixpoint copy_value (fuel : nat) (value precision : Z) (noprecision : bool) (st : mem * Z) : outcome (mem * Z) :=
  match fuel with
  | O => Stuck
  | S fuel' =>
      c ← load8 (fst st) value;
      if negb (c =? 0) && (noprecision || (0 <? precision)) then
        st' ← OUTCHAR st c; copy_value fuel' (value + 1) (precision - 1) noprecision st'
      else Done st
  end.

(** [null_str] is where the literal ["(null)"] is. *)
Definition fmtstr (null_str value width precision flags : Z) (st : mem * Z) : outcome (mem * Z) :=
  let noprecision := precision =? -1 in
  let value := if value =? NULL then null_str else value in
  strln ← strln_loop (str_fuel (fst st)) (fst st) value 0 precision noprecision;
  let padlen := if width - strln <? 0 then 0 else width - strln in
  let padlen := if has flags PRINT_F_MINUS then - padlen else padlen in
  st ← outchars (replicate (Z.to_nat padlen) 32) st;
  st ← copy_value (str_fuel (fst st)) value precision noprecision st;
  outchars (replicate (Z.to_nat (- padlen)) 32) st.

(** ** Integers *)

(** The digit for a value below 16. *)
Definition digit_char (caps : bool) (d : Z) : Z := if d <? 10 then 48 + d else (if caps then 65 else 97) + (d - 10).

(** The digits in reverse order, at most [room] of them. *)
Fixpoint convert (room : nat) (value base : Z) (caps : bool) : list Z :=
  match room with
  | O => []
  | S room' =>
      digit_char caps (value mod base) ::
      (if value / base =? 0 then [] else convert room' (value / base) base caps)
  end.

Definition getnumsep (digits : Z) : Z := (digits - (if digits mod 3 =? 0 then 1 else 0)) / 3.

(** [while (pos > 0)]: the digits from the last stored one down. *)
Fixpoint digits_loop (pos : nat) (iconvert : list Z) (separators : Z) (st : mem * Z) : outcome (mem * Z) :=
  match pos with
  | O => Done st
  | S pos' =>
      c ← znth iconvert (Z.of_nat pos');
      st ← OUTCHAR st c;
      st ← (if (0 <? separators) && (0 <? Z.of_nat pos') && (Z.of_nat pos' mod 3 =? 0) then printsep st else Done st);
      digits_loop pos' iconvert separators st
  end.

(** [value] is an [INTMAX_T], a signed 32-bit long. *)
Definition fmtint (value base width precision flags : Z) (st : mem * Z) : outcome (mem * Z) :=
  let unsigned := has flags PRINT_F_UNSIGNED in
  let uvalue := if unsigned then u32 value else u32 (if 0 <=? value then value else - value) in
  let sign :=
    if unsigned then 0
    else if value <? 0 then 45 else if has flags PRINT_F_PLUS then 43 else if has flags PRINT_F_SPACE then 32 else 0 in
  let iconvert := convert (Z.to_nat MAX_CONVERT_LENGTH) uvalue base (has flags PRINT_F_UP) in
  let pos := zlen iconvert in
  let noprecision := precision =? -1 in
  let alt := has flags PRINT_F_NUM && negb (uvalue =? 0) in
  let precision := if alt && (base =? 8) && (precision <=? pos) then pos + 1 else precision in
  let hexprefix := if alt && (base =? 16) then (if has flags PRINT_F_UP then 88 else 120) else 0 in
  let separators := if has flags PRINT_F_QUOTE then getnumsep pos else 0 in
  let zpadlen := s32 (precision - pos - separators) in
  let spadlen := s32 (width - separators - Z.max precision pos - (if sign =? 0 then 0 else 1) - (if hexprefix =? 0 then 0 else 2)) in
  let zpadlen := if zpadlen <? 0 then 0 else zpadlen in
  let spadlen := if spadlen <? 0 then 0 else spadlen in
  let '(spadlen, zpadlen) :=
    if has flags PRINT_F_MINUS then (- spadlen, zpadlen)
    else if has flags PRINT_F_ZERO && noprecision then (0, s32 (zpadlen + spadlen))
    else (spadlen, zpadlen) in
  st ← outchars (replicate (Z.to_nat spadlen) 32) st;
  st ← (if sign =? 0 then Done st else OUTCHAR st sign);
  st ← (if hexprefix =? 0 then Done st else st ← OUTCHAR st 48; OUTCHAR st hexprefix);
  st ← outchars (replicate (Z.to_nat zpadlen) 48) st;
  st ← digits_loop (length iconvert) iconvert separators st;
  outchars (replicate (Z.to_nat (- spadlen)) 32) st.
End output.

(** ** The format interpreter *)
Record pstate : Type := P {
  p_out : mem * Z;          (* memory and [len] *)
  p_format : Z;             (* the next character of the format *)
  p_ch : Z;
  p_args : list varg;
  p_state : print_state;
  p_flags : Z;
  p_width : Z;
  p_precision : Z;
  p_base : Z;
  p_cflags : Z;
}.

Definition set_out (s : pstate) x := P x (p_format s) (p_ch s) (p_args s) (p_state s) (p_flags s) (p_width s) (p_precision s) (p_base s) (p_cflags s).
Definition set_args (s : pstate) x := P (p_out s) (p_format s) (p_ch s) x (p_state s) (p_flags s) (p_width s) (p_precision s) (p_base s) (p_cflags s).
Definition set_state (s : pstate) x := P (p_out s) (p_format s) (p_ch s) (p_args s) x (p_flags s) (p_width s) (p_precision s) (p_base s) (p_cflags s).
Definition set_flags (s : pstate) x := P (p_out s) (p_format s) (p_ch s) (p_args s) (p_state s) x (p_width s) (p_precision s) (p_base s) (p_cflags s).
Definition set_width (s : pstate) x := P (p_out s) (p_format s) (p_ch s) (p_args s) (p_state s) (p_flags s) x (p_precision s) (p_base s) (p_cflags s).
Definition set_precision (s : pstate) x := P (p_out s) (p_format s) (p_ch s) (p_args s) (p_state s) (p_flags s) (p_width s) x (p_base s) (p_cflags s).
Definition set_base (s : pstate) x := P (p_out s) (p_format s) (p_ch s) (p_args s) (p_state s) (p_flags s) (p_width s) (p_precision s) x (p_cflags s).
Definition set_cflags (s : pstate) x := P (p_out s) (p_format s) (p_ch s) (p_args s) (p_state s) (p_flags s) (p_width s) (p_precision s) (p_base s) x.

(** [ch = *format++] *)
Definition next_ch (s : pstate) : outcome pstate :=
  c ← load8 (fst (p_out s)) (p_format s);
  Done (P (p_out s) (u32 (p_format s + 1)) c (p_args s) (p_state s) (p_flags s) (p_width s) (p_precision s) (p_base s) (p_cflags s)).

(** [inr] is the [goto out] after an overflow. *)
Abbreviation step_result := (outcome (pstate + pstate)).
Definition go (s : outcome pstate) : step_result := s ← s; Done (inl s).

Section vsnprintf.
Context (str size null_str nil_str : Z).

Definition step_default (s : pstate) : step_result :=
  go (s ← (if p_ch s =? 37 then Done (set_state s PRINT_S_FLAGS)
           else o ← OUTCHAR str size (p_out s) (p_ch s); Done (set_out s o));
      next_ch s).

Definition flag_of (ch : Z) : option Z :=
  if ch =? 45 then Some PRINT_F_MINUS else if ch =? 43 then Some PRINT_F_PLUS
  else if ch =? 32 then Some PRINT_F_SPACE else if ch =? 35 then Some PRINT_F_NUM
  else if ch =? 48 then Some PRINT_F_ZERO else if ch =? 39 then Some PRINT_F_QUOTE else None.
Definition step_flags (s : pstate) : step_result :=
  match flag_of (p_ch s) with
  | Some f => go (next_ch (set_flags s (Z.lor (p_flags s) f)))
  | None => Done (inl (set_state s PRINT_S_WIDTH))
  end.

Definition step_width (s : pstate) : step_result :=
  if ISDIGIT (p_ch s) then
    let d := CHARTOINT (p_ch s) in
    if (INT_MAX - d) / 10 <? p_width s then Done (inr s)
    else go (next_ch (set_width s (10 * p_width s + d)))
  else if p_ch s =? 42 then
    go ('(v, args) ← va_arg32 (p_args s);
        let w := s32 v in
        let s := set_args s args in
        let s := if w <? 0 then set_width (set_flags s (Z.lor (p_flags s) PRINT_F_MINUS)) (s32 (- w)) else set_width s w in
        s ← next_ch s; Done (set_state s PRINT_S_DOT))
  else Done (inl (set_state s PRINT_S_DOT)).

Definition step_dot (s : pstate) : step_result :=
  if p_ch s =? 46 then go (next_ch (set_state s PRINT_S_PRECISION))
  else Done (inl (set_state s PRINT_S_MOD)).

Definition step_precision (s : pstate) : step_result :=
  let s := if p_precision s =? -1 then set_precision s 0 else s in
  if ISDIGIT (p_ch s) then
    let d := CHARTOINT (p_ch s) in
    if (INT_MAX - d) / 10 <? p_precision s then Done (inr s)
    else go (next_ch (set_precision s (10 * p_precision s + d)))
  else if p_ch s =? 42 then
    go ('(v, args) ← va_arg32 (p_args s);
        let p := s32 v in
        s ← next_ch (set_precision (set_args s args) (if p <? 0 then -1 else p));
        Done (set_state s PRINT_S_MOD))
  else Done (inl (set_state s PRINT_S_MOD)).

Definition step_mod (s : pstate) : step_result :=
  go (s ← (if p_ch s =? 104 then
             s ← next_ch s;
             if p_ch s =? 104 then s ← next_ch s; Done (set_cflags s PRINT_C_CHAR) else Done (set_cflags s PRINT_C_SHORT)
           else if p_ch s =? 108 then
             s ← next_ch s;
             if p_ch s =? 108 then s ← next_ch s; Done (set_cflags s PRINT_C_LLONG) else Done (set_cflags s PRINT_C_LONG)
           else if p_ch s =? 106 then next_ch (set_cflags s PRINT_C_INTMAX)
           else if p_ch s =? 116 then next_ch (set_cflags s PRINT_C_PTRDIFF)
           else if p_ch s =? 122 then next_ch (set_cflags s PRINT_C_SIZE)
           else Done s);
      Done (set_state s PRINT_S_CONV)).

(** The argument of [%d] and [%i]; [LLONG] is [long], so even [%lld] takes a
    32-bit argument. *)
Definition signed_arg (s : pstate) : outcome (Z * list varg) :=
  '(v, args) ← va_arg32 (p_args s);
  Done (if p_cflags s =? PRINT_C_CHAR then signed 8 v else if p_cflags s =? PRINT_C_SHORT then signed 16 v else s32 v, args).

(** The argument of [%u], [%o] and [%x], stored in the 32-bit [value]. *)
Definition unsigned_arg (s : pstate) : outcome (Z * list varg) :=
  if p_cflags s =? PRINT_C_LLONG then '(v, args) ← va_arg64 (p_args s); Done (s32 v, args)
  else
    '(v, args) ← va_arg32 (p_args s);
    Done (if p_cflags s =? PRINT_C_CHAR then u8 v else if p_cflags s =? PRINT_C_SHORT then u16 v else s32 v, args).

Definition do_fmtint (value base : Z) (s : pstate) : outcome pstate :=
  o ← fmtint str size value base (p_width s) (p_precision s) (p_flags s) (p_out s); Done (set_out s o).

Definition conv_signed (s : pstate) : outcome pstate :=
  '(value, args) ← signed_arg s; do_fmtint value 10 (set_args s args).

Definition conv_unsigned (s : pstate) : outcome pstate :=
  let s := if p_ch s =? 88 then set_flags s (Z.lor (p_flags s) PRINT_F_UP) else s in
  let s := if (p_ch s =? 88) || (p_ch s =? 120) then set_base s 16 else s in
  let s := if negb (p_ch s =? 117) && (p_base s =? 0) then set_base s 8 else s in
  let s := if p_base s =? 0 then set_base s 10 else s in
  let s := set_flags s (Z.lor (p_flags s) PRINT_F_UNSIGNED) in
  '(value, args) ← unsigned_arg s; do_fmtint value (p_base s) (set_args s args).

Definition conv_pointer (s : pstate) : outcome pstate :=
  '(v, args) ← va_arg32 (p_args s);
  let s := set_args s args in
  if v =? NULL then o ← fmtstr str size null_str nil_str (p_width s) (-1) (p_flags s) (p_out s); Done (set_out s o)
  else do_fmtint v 16 (set_flags s (Z.lor (Z.lor (p_flags s) PRINT_F_NUM) PRINT_F_UNSIGNED)).

(** [%n]: [len] is stored through the pointer at the width of its type. *)
Definition conv_n (s : pstate) : outcome pstate :=
  '(ptr, args) ← va_arg32 (p_args s);
  let n := if p_cflags s =? PRINT_C_CHAR then 1%nat else if p_cflags s =? PRINT_C_SHORT then 2%nat else 4%nat in
  m ← store_le n (fst (p_out s)) ptr (snd (p_out s));
  Done (set_out (set_args s args) (m, snd (p_out s))).

Definition step_conv (s : pstate) : step_result :=
  go (s ← (let ch := p_ch s in
           if (ch =? 100) || (ch =? 105) then conv_signed s
           else if (ch =? 88) || (ch =? 120) || (ch =? 111) || (ch =? 117) then conv_unsigned s
           else if ch =? 99 then
             '(v, args) ← va_arg32 (p_args s); o ← OUTCHAR str size (p_out s) (u8 v); Done (set_out (set_args s args) o)
           else if ch =? 115 then
             '(v, args) ← va_arg32 (p_args s);
             o ← fmtstr str size null_str v (p_width s) (p_precision s) (p_flags s) (p_out s); Done (set_out (set_args s args) o)
           else if ch =? 112 then conv_pointer s
           else if ch =? 110 then conv_n s
           else if ch =? 37 then o ← OUTCHAR str size (p_out s) ch; Done (set_out s o)
           else Done s);
      s ← next_ch s;
      Done (P (p_out s) (p_format s) (p_ch s) (p_args s) PRINT_S_DEFAULT 0 0 (-1) 0 0)).

Definition step (s : pstate) : step_result :=
  match p_state s with
  | PRINT_S_DEFAULT => step_default s
  | PRINT_S_FLAGS => step_flags s
  | PRINT_S_WIDTH => step_width s
  | PRINT_S_DOT => step_dot s
  | PRINT_S_PRECISION => step_precision s
  | PRINT_S_MOD => step_mod s
  | PRINT_S_CONV => step_conv s
  end.

(** [while (ch != 0) switch (state)]: [true] when the loop ended by overflow. *)
Fixpoint format_loop (fuel : nat) (s : pstate) : outcome (bool * pstate) :=
  if p_ch s =? 0 then Done (false, s)
  else
    match fuel with
    | O => Stuck
    | S fuel' => r ← step s; match r with inl s' => format_loop fuel' s' | inr s' => Done (true, s') end
    end.
End vsnprintf.

(** The result and the memory.  Each character of the format takes at most six
    turns, so [6 * str_fuel] turns are enough for a terminated format. *)
Definition vsnprintf (null_str nil_str : Z) (m : mem) (str size format : Z) (args : list varg) : outcome (Z * mem) :=
  let size := if (str =? NULL) && negb (size =? 0) then 0 else size in
  s ← next_ch (P (m, 0) format 0 args PRINT_S_DEFAULT 0 0 (-1) 0 0);
  '(overflow, s) ← format_loop str size null_str nil_str (6 * str_fuel m) s;
  let (m, len) := p_out s in
  m ← (if len <? size then store8 m (str + len) 0
       else if 0 <? size then store8 m (str + size - 1) 0 else Done m);
  if overflow || (INT_MAX <=? len) then Done (-1, m) else Done (len, m).

Definition vsprintf (null_str nil_str : Z) (m : mem) (buf fmt : Z) (args : list varg) : outcome (Z * mem) :=
  vsnprintf null_str nil_str m buf INT_MAX fmt args.

(** ** Digits *)

(** The value of reversed digit characters. *)
Definition digit_value (c : Z) : Z := if c <? 58 then c - 48 else if c <? 91 then c - 55 else c - 87.
Fixpoint rev_value (base : Z) (ds : list Z) : Z :=
  match ds with [] => 0 | d :: ds' => digit_value d + base * rev_value base ds' end.

(** The characters of [v], most significant digit first. *)
Definition num_text (base : Z) (caps : bool) (v : Z) : list Z :=
  rev (convert (Z.to_nat MAX_CONVERT_LENGTH) v base caps).

Lemma digit_char_value caps d : 0 <= d < 16 -> digit_value (digit_char caps d) = d.
Proof.
  intros Hd. unfold digit_char, digit_value. destruct (decide (d < 10)); bdec; [lia|].
  destruct caps; bdec; [destruct (decide (d < 12)); bdec; lia|lia].
Qed.

Lemma digit_char_range caps d : 0 <= d < 16 -> 48 <= digit_char caps d < 103.
Proof. intros Hd. unfold digit_char. destruct (decide (d < 10)), caps; bdec; lia. Qed.

Lemma convert_spec room base caps v :
  2 <= base <= 16 -> 0 <= v < base ^ Z.of_nat room -> (0 < room)%nat ->
  rev_value base (convert room v base caps) = v /\
  1 <= zlen (convert room v base caps) <= Z.of_nat room /\
  Forall (fun c => 48 <= c < 103) (convert room v base caps) /\
  (0 < v -> exists d, last (convert room v base caps) = Some d /\ digit_value d <> 0).
Proof.
  intros Hb. revert v. induction room as [|room IH]; intros v Hv Hr; [lia|]. cbn [convert].
  pose proof (Z.mod_pos_bound v base ltac:(lia)) as Hm. pose proof (digit_char_range caps (v mod base) ltac:(lia)).
  pose proof (Z.div_mod v base ltac:(lia)) as Hdm.
  destruct (decide (v / base = 0)) as [Hz|Hz]; bdec.
  - cbn iota. cbn [rev_value last]. rewrite zlen_cons, (zlen_nil (A := Z)). rewrite digit_char_value by lia.
    split; [rewrite Hz in Hdm; lia|]. split; [lia|]. split; [by constructor|].
    intros Hp. eexists. split; [done|]. rewrite digit_char_value by lia. rewrite Hz in Hdm. lia.
  - assert (0 <= v / base) by (apply Z.div_pos; lia).
    assert (v / base < base ^ Z.of_nat room).
    { apply Z.div_lt_upper_bound; [lia|]. replace (Z.of_nat (S room)) with (1 + Z.of_nat room) in Hv by lia.
      rewrite Z.pow_add_r, Z.pow_1_r in Hv by lia. lia. }
    assert (0 < room)%nat by (destruct room; [change (base ^ Z.of_nat 0) with 1 in *; lia|lia]).
    destruct (IH (v / base)) as (Hval & Hlen & Hrange & Hlast); [lia|done|].
    cbn iota. cbn [rev_value]. rewrite zlen_cons, Hval. rewrite digit_char_value by lia.
    split; [lia|]. split; [lia|]. split; [by constructor|]. intros _.
    destruct (Hlast ltac:(lia)) as (d & Hd & Hnz). exists d. split; [|done].
    by rewrite last_cons, Hd.
Qed.

(** ** What has been written *)

(** After the text [t] the count is its length, and the buffer holds as much of
    it as fits in front of the terminator. *)
Definition out_ok (m0 : mem) (str size : Z) (t : list Z) (st : mem * Z) : Prop :=
  st = (write_bytes m0 str (take (Z.to_nat (size - 1)) t), zlen t).

Section out.
#[local] Set Default Proof Using "Type*".
Context (m0 : mem) (str size : Z) (Hreg : region m0 str size) (Hsize : 0 < size) (Hstr : 0 < str) (Hend : str + size <= 2 ^ 32).

Lemma OUTCHAR_spec t st ch :
  out_ok m0 str size t st -> is_byte ch -> zlen t < INT_MAX ->
  exists st', OUTCHAR str size st ch = Done st' /\ out_ok m0 str size (t ++ [ch]) st'.
Proof.
  intros -> Hc Ht. unfold INT_MAX in Ht. pose proof (zlen_nonneg t). unfold OUTCHAR. rewrite u32_small by lia.
  destruct (decide (zlen t + 1 < size)); bdec.
  - set (m1 := write_bytes m0 str _).
    destruct (region_lookup m1 str size (str + zlen t)) as [Hs ?]; [by apply region_write|lia|].
    rewrite (store8_Done m1 _ ch Hs), bind_Done, u8_small by (done || lia). unfold m1.
    eexists. split; [done|]. unfold out_ok. f_equal; [|rewrite zlen_app, zlen_cons, zlen_nil; lia].
    rewrite !firstn_all2 by (rewrite ?length_app; unfold zlen in *; cbn; lia).
    rewrite write_bytes_app_up. done.
  - rewrite bind_Done. eexists. split; [done|]. unfold out_ok.
    rewrite take_app_le by (unfold zlen in *; lia). f_equal. rewrite zlen_app, zlen_cons, (zlen_nil (A := Z)). lia.
Qed.

Lemma outchars_spec cs t st :
  out_ok m0 str size t st -> are_bytes cs -> zlen t + zlen cs <= INT_MAX ->
  exists st', outchars str size cs st = Done st' /\ out_ok m0 str size (t ++ cs) st'.
Proof.
  intros Ho Hcs. revert t st Ho. induction Hcs as [|c cs Hc _ IH]; intros t st Ho Hl.
  - exists st. by rewrite app_nil_r.
  - rewrite zlen_cons in Hl. pose proof (zlen_nonneg cs). cbn [outchars].
    destruct (OUTCHAR_spec t st c) as (st1 & -> & Ho1); [done|done|lia|]. rewrite bind_Done.
    destruct (IH _ _ Ho1) as (st2 & -> & Ho2); [rewrite zlen_app, zlen_cons, zlen_nil; lia|].
    exists st2. split; [done|]. by rewrite <- app_assoc in Ho2.
Qed.

Lemma digits_loop_spec ds t st :
  out_ok m0 str size t st -> are_bytes ds -> zlen t + zlen ds <= INT_MAX ->
  exists st', digits_loop str size (length ds) ds 0 st = Done st' /\ out_ok m0 str size (t ++ rev ds) st'.
Proof.
  intros Ho Hds Hl.
  assert (forall n t st, (n <= length ds)%nat -> out_ok m0 str size t st -> zlen t + Z.of_nat n <= INT_MAX ->
    exists st', digits_loop str size n ds 0 st = Done st' /\ out_ok m0 str size (t ++ rev (take n ds)) st') as H.
  { clear t st Ho Hl. intros n. induction n as [|n IH]; intros t st Hn Ho Hl.
    - exists st. by rewrite app_nil_r.
    - cbn [digits_loop]. destruct (lookup_lt_is_Some_2 ds n) as [c Hc]; [lia|].
      assert (znth ds (Z.of_nat n) = Done c) as -> by (apply znth_Done; rewrite Nat2Z.id; split; [lia|done]).
      rewrite bind_Done. destruct (OUTCHAR_spec t st c) as (st1 & -> & Ho1); [done| |lia|].
      { rewrite Forall_forall in Hds. apply Hds. by eapply list_elem_of_lookup_2. }
      rewrite bind_Done. change (0 <? 0) with false. cbn [andb]. rewrite bind_Done.
      destruct (IH _ _ ltac:(lia) Ho1) as (st2 & -> & Ho2); [rewrite zlen_app, zlen_cons, zlen_nil; lia|].
      exists st2. split; [done|]. rewrite (take_S_r _ _ _ Hc), rev_app_distr. cbn [rev app]. by rewrite <- app_assoc in Ho2. }
  destruct (H (length ds) t st) as (st' & Hr & Ho'); [lia|done|done|]. exists st'. by rewrite firstn_all in Ho'.
Qed.

Lemma convert_u32 base caps v :
  2 <= base <= 16 -> 0 <= v < 2 ^ 32 ->
  let ds := convert (Z.to_nat MAX_CONVERT_LENGTH) v base caps in
  rev_value base ds = v /\ 1 <= zlen ds <= 43 /\ are_bytes ds.
Proof.
  intros Hb Hv ds. destruct (convert_spec (Z.to_nat MAX_CONVERT_LENGTH) base caps v) as (? & ? & Hr & _); [done| |unfold MAX_CONVERT_LENGTH; lia|].
  - change (Z.of_nat (Z.to_nat MAX_CONVERT_LENGTH)) with 43. split; [lia|].
    assert (2 ^ 43 <= base ^ 43) by (apply Z.pow_le_mono_l; lia). lia.
  - split; [done|]. split; [done|]. eapply Forall_impl; [exact Hr|]. intros c. unfold is_byte. cbn. lia.
Qed.

(** The text of an integer conversion without the flags [-+ #'] and without a
    precision: sign and digits, padded on the left to the width with zeros
    (after the sign) or with spaces. *)
Definition int_text (value base width flags : Z) : list Z :=
  let unsigned := has flags PRINT_F_UNSIGNED in
  let digits := num_text base (has flags PRINT_F_UP) (if unsigned then u32 value else Z.abs value) in
  let sign := if negb unsigned && (value <? 0) then [45] else [] in
  let pad := Z.to_nat (width - zlen digits - zlen sign) in
  if has flags PRINT_F_ZERO then sign ++ replicate pad 48 ++ digits else replicate pad 32 ++ sign ++ digits.

Lemma fmtint_spec value base width flags t st :
  out_ok m0 str size t st -> 2 <= base <= 16 -> - 2 ^ 31 <= value < 2 ^ 31 -> 0 <= width < 2 ^ 31 ->
  has flags PRINT_F_MINUS = false -> has flags PRINT_F_PLUS = false -> has flags PRINT_F_SPACE = false ->
  has flags PRINT_F_NUM = false -> has flags PRINT_F_QUOTE = false ->
  zlen t + zlen (int_text value base width flags) <= INT_MAX ->
  exists st', fmtint str size value base width (-1) flags st = Done st' /\
              out_ok m0 str size (t ++ int_text value base width flags) st'.
Proof.
  intros Ho Hb Hv Hw Hf1 Hf2 Hf3 Hf4 Hf5 Hl. unfold fmtint. rewrite Hf1, Hf2, Hf3, Hf4, Hf5. cbn [andb].
  unfold int_text in *.
  set (unsigned := has flags PRINT_F_UNSIGNED) in *. set (up := has flags PRINT_F_UP) in *.
  set (uvalue := if unsigned then u32 value else Z.abs value) in *.
  assert ((if unsigned then u32 value else u32 (if 0 <=? value then value else - value)) = uvalue) as ->.
  { unfold uvalue. destruct unsigned; [done|]. case_if; b2p; rewrite u32_small; lia. }
  assert (0 <= uvalue < 2 ^ 32) as Hu.
  { unfold uvalue. destruct unsigned; [apply (wrap_range 32)|]; lia. }
  destruct (convert_u32 base up uvalue Hb Hu) as (_ & Hlen & Hbytes).
  assert (zlen (num_text base up uvalue) = zlen (convert (Z.to_nat MAX_CONVERT_LENGTH) uvalue base up)) as Hlr
    by (unfold num_text, zlen; by rewrite length_rev).
  unfold num_text in *. set (ds := convert (Z.to_nat MAX_CONVERT_LENGTH) uvalue base up) in *.
  change (-1 =? -1) with true. rewrite andb_true_r.
  set (neg := negb unsigned && (value <? 0)) in *.
  assert ((if unsigned then 0 else if value <? 0 then 45 else 0) = if neg then 45 else 0) as ->
    by (unfold neg; by destruct unsigned, (value <? 0)).
  assert (((if neg then 45 else 0) =? 0) = negb neg) as -> by (by destruct neg).
  change (0 =? 0) with true. cbn iota.
  replace (s32 (-1 - zlen ds - 0)) with (-1 - zlen ds) by (unfold signed; change (2 ^ 32) with 4294967296; change (2 ^ (32 - 1)) with 2147483648; case_if; b2p; lia).
  assert (s32 (width - 0 - Z.max (-1) (zlen ds) - (if negb neg then 0 else 1) - 0) = width - zlen ds - (if neg then 1 else 0)) as ->
    by (unfold signed; change (2 ^ 32) with 4294967296; change (2 ^ (32 - 1)) with 2147483648; destruct neg; cbn [negb]; case_if; b2p; lia).
  replace (-1 - zlen ds <? 0) with true by lia. cbn iota.
  set (sign := if neg then [45] else []) in *.
  assert (zlen sign = if neg then 1 else 0) as Hsign by (unfold sign; by destruct neg).
  assert (are_bytes sign) as Hsb by (unfold sign; destruct neg; by repeat constructor).
  rewrite Hlr, Hsign in *. set (pad := width - zlen ds - (if neg then 1 else 0)) in *.
  assert (forall t st, out_ok m0 str size t st -> zlen t + zlen sign <= INT_MAX -> exists st',
    (if negb neg then Done st else OUTCHAR str size st (if neg then 45 else 0)) = Done st' /\ out_ok m0 str size (t ++ sign) st') as Hs.
  { intros t1 st1 Ho1 Hl1. unfold sign in *. destruct neg; cbn [negb].
    - rewrite zlen_cons, (zlen_nil (A := Z)) in Hl1. apply OUTCHAR_spec; [done|done|lia].
    - exists st1. by rewrite app_nil_r. }
  assert (forall c n, is_byte c -> are_bytes (replicate n c)) as Hrep by (intros; by apply Forall_replicate).
  assert (Z.to_nat (if pad <? 0 then 0 else pad) = Z.to_nat pad) as Hpad by (case_if; b2p; lia).
  pose proof (zlen_nonneg t).
  assert (0 <= (if neg then 1 else 0) <= 1) as Hn01 by (by destruct neg).
  assert (zlen (rev ds) = zlen ds) as Hrl by (unfold zlen; by rewrite length_rev).
  destruct (has flags PRINT_F_ZERO); rewrite !zlen_app, !zlen_replicate, Hrl, Hsign in Hl.
  - assert (0 <= (if pad <? 0 then 0 else pad) < 2 ^ 31) as Hp by (unfold pad in *; case_if; b2p; destruct neg; lia).
    rewrite Z.add_0_l, (s32_small _ Hp).
    change (Z.to_nat 0) with O. cbn [replicate outchars]. rewrite bind_Done.
    destruct (Hs t st Ho) as (st1 & -> & Ho1); [lia|]. rewrite !bind_Done, Hpad.
    destruct (outchars_spec (replicate (Z.to_nat pad) 48) _ _ Ho1) as (st2 & -> & Ho2);
      [by apply Hrep|rewrite zlen_app, zlen_replicate; lia|]. rewrite bind_Done.
    destruct (digits_loop_spec ds _ _ Ho2 Hbytes) as (st3 & -> & Ho3); [rewrite !zlen_app, zlen_replicate; lia|].
    rewrite bind_Done. exists st3. split; [done|]. by rewrite <- !app_assoc in Ho3.
  - rewrite Hpad. destruct (outchars_spec (replicate (Z.to_nat pad) 32) _ _ Ho) as (st1 & -> & Ho1);
      [by apply Hrep|rewrite zlen_replicate; lia|]. rewrite bind_Done.
    destruct (Hs _ st1 Ho1) as (st2 & -> & Ho2); [rewrite zlen_app, zlen_replicate; lia|]. rewrite !bind_Done.
    change (Z.to_nat 0) with O. cbn [replicate outchars]. rewrite bind_Done.
    destruct (digits_loop_spec ds _ _ Ho2 Hbytes) as (st3 & -> & Ho3); [rewrite !zlen_app, zlen_replicate; lia|].
    rewrite bind_Done. exists st3. replace (Z.to_nat (- (if pad <? 0 then 0 else pad))) with O by (case_if; b2p; lia).
    split; [done|]. by rewrite <- !app_assoc in Ho3.
Qed.

(** A string outside the buffer stays readable. *)
Definition apart (p : Z) (s : list Z) : Prop := p + zlen s + 1 <= str \/ str + size <= p.

Lemma cstr_out p s t st : cstr_at m0 p s -> apart p s -> out_ok m0 str size t st -> cstr_at (fst st) p s.
Proof.
  intros [Hf Hb] Ha ->. split; [done|]. cbn [fst]. apply bytes_at_write_disj; [|done].
  assert (zlen (take (Z.to_nat (size - 1)) t) <= size - 1 \/ size = 1 /\ zlen (take (Z.to_nat (size - 1)) t) = 0).
  { unfold zlen. rewrite length_take. lia. }
  rewrite zlen_app, zlen_cons, (zlen_nil (A := Z)). unfold apart in Ha. lia.
Qed.

Lemma apart_tail p c s : apart p (c :: s) -> apart (p + 1) s.
Proof using Type. unfold apart. rewrite zlen_cons. pose proof (zlen_nonneg s). lia. Qed.

Lemma strln_loop_spec fuel m p s n :
  cstr_at m (p + n) s -> (length s < fuel)%nat -> strln_loop fuel m p n (-1) true = Done (n + zlen s).
Proof.
  revert n s. induction fuel as [|fuel IH]; intros n s Hs Hf; [lia|]. cbn [strln_loop]. destruct s as [|c s].
  - apply cstr_nil in Hs as [H0 ?]. ld H0. cbn. by rewrite (zlen_nil (A := Z)), Z.add_0_r.
  - apply cstr_cons in Hs as (? & [Hc ?] & Hs). ld Hc. bdec. cbn [negb andb orb].
    rewrite zlen_cons. rewrite (IH (n + 1) s); [f_equal; lia|by rewrite Z.add_assoc|cbn in Hf; lia].
Qed.

Lemma copy_value_spec fuel p s prec t st :
  cstr_at m0 p s -> apart p s -> out_ok m0 str size t st -> (length s < fuel)%nat -> zlen t + zlen s <= INT_MAX ->
  exists st', copy_value str size fuel p prec true st = Done st' /\ out_ok m0 str size (t ++ s) st'.
Proof.
  revert p s prec t st. induction fuel as [|fuel IH]; intros p s prec t st Hs Ha Ho Hf Hl; [lia|]. cbn [copy_value].
  pose proof (cstr_out _ _ _ _ Hs Ha Ho) as Hs'. destruct s as [|c s].
  - apply cstr_nil in Hs' as [H0 ?]. ld H0. cbn. exists st. by rewrite app_nil_r.
  - apply cstr_cons in Hs' as (? & [Hc ?] & _). ld Hc. bdec. cbn [negb andb orb]. rewrite zlen_cons in Hl.
    pose proof (zlen_nonneg s).
    destruct (OUTCHAR_spec t st c Ho) as (st1 & -> & Ho1); [unfold is_byte; lia|lia|]. rewrite bind_Done.
    apply cstr_cons in Hs as (_ & _ & Hs). apply apart_tail in Ha.
    destruct (IH (p + 1) s (prec - 1) (t ++ [c]) st1) as (st' & -> & Ho'); [done|done|done|cbn in Hf; lia|rewrite zlen_app, zlen_cons, zlen_nil; lia|].
    exists st'. split; [done|]. by rewrite <- app_assoc in Ho'.
Qed.

Lemma fmtstr_spec null_str p s t st :
  cstr_at m0 p s -> apart p s -> p <> NULL -> out_ok m0 str size t st -> zlen t + zlen s <= INT_MAX ->
  exists st', fmtstr str size null_str p 0 (-1) 0 st = Done st' /\ out_ok m0 str size (t ++ s) st'.
Proof.
  intros Hs Ha Hp Ho Hl. unfold fmtstr. bdec. pose proof (cstr_out _ _ _ _ Hs Ha Ho) as Hs'.
  change (-1 =? -1) with true. cbn iota.
  rewrite (strln_loop_spec _ _ p s 0), bind_Done; [|by rewrite Z.add_0_r|by eapply cstr_fuel].
  pose proof (zlen_nonneg s).
  assert ((if 0 - (0 + zlen s) <? 0 then 0 else 0 - (0 + zlen s)) = 0) as -> by (case_if; b2p; lia).
  change (has 0 PRINT_F_MINUS) with false. cbn iota.
  change (Z.to_nat (- 0)) with O. change (Z.to_nat 0) with O. cbn [replicate outchars]. rewrite bind_Done.
  destruct (copy_value_spec (str_fuel (fst st)) p s (-1) t st) as (st' & -> & Ho'); [done|done|done|by eapply cstr_fuel|done|].
  exists st'. by rewrite bind_Done.
Qed.
End out.

(** ** Formats as lists of pieces *)

(** [Num sgn hex zero width v] is [%], an optional [0] flag, a width as a list of
    decimal digits (none for no width) and [d], [x] or [u]; [v] is the value that
    is printed. *)
Inductive piece : Type :=
| Lit (c : Z)
| Pct
| Num (sgn hex zero : bool) (width : list Z) (v : Z)
| Str (p : Z) (s : list Z).

(** The number that decimal digits stand for. *)
Fixpoint dec_value (ds : list Z) : Z :=
  match ds with [] => 0 | d :: ds' => d * 10 ^ zlen ds' + dec_value ds' end.

Definition piece_format (x : piece) : list Z :=
  match x with
  | Lit c => [c]
  | Pct => [37; 37]
  | Num sgn hex zero width _ =>
      [37] ++ (if zero then [48] else []) ++ map (Z.add 48) width ++
      [if sgn then 100 else if hex then 120 else 117]
  | Str _ _ => [37; 115]
  end.
Definition piece_args (x : piece) : list varg :=
  match x with Num _ _ _ _ v => [A32 v] | Str p _ => [A32 p] | _ => [] end.

(** Decimal or hexadecimal digits, sign in front, padded to the width. *)
Definition render_num (sgn hex zero : bool) (width v : Z) : list Z :=
  let digits := num_text (if sgn then 10 else if hex then 16 else 10) false (Z.abs v) in
  let sign := if v <? 0 then [45] else [] in
  let pad := Z.to_nat (width - zlen digits - zlen sign) in
  if zero then sign ++ replicate pad 48 ++ digits else replicate pad 32 ++ sign ++ digits.
Definition render (x : piece) : list Z :=
  match x with
  | Lit c => [c]
  | Pct => [37]
  | Num sgn hex zero width v => render_num sgn hex zero (dec_value width) v
  | Str _ s => s
  end.

(** A width begins with another digit than 0, which would be a flag, and is an
    [int]. *)
Definition width_ok (ds : list Z) : Prop := Forall (fun d => 0 <= d <= 9) ds /\ hd 1 ds <> 0 /\ dec_value ds <= INT_MAX.

Definition piece_ok (m : mem) (str size : Z) (x : piece) : Prop :=
  match x with
  | Lit c => 0 < c < 256 /\ c <> 37
  | Pct => True
  | Num sgn hex zero width v => width_ok width /\ (if sgn then - 2 ^ 31 <= v < 2 ^ 31 else 0 <= v < 2 ^ 32)
  | Str p s => 0 < p < 2 ^ 32 /\ cstr_at m p s /\ apart str size p s
  end.

Lemma piece_format_chars m str size x :
  piece_ok m str size x -> Forall (fun c => 0 < c < 256) (piece_format x) /\ piece_format x <> [].
Proof.
  destruct x as [c| |sgn hex zero width v|p s]; cbn [piece_ok piece_format].
  - intros [? _]. split; [|done]. constructor; [done|constructor].
  - intros _. split; [by repeat constructor|done].
  - intros [[Hw _] _]. split; [|done]. apply Forall_app. split; [by repeat constructor|].
    apply Forall_app. split; [destruct zero; by repeat constructor|].
    apply Forall_app. split; [|destruct sgn, hex; by repeat constructor].
    apply Forall_map. eapply Forall_impl; [exact Hw|]. cbn. lia.
  - intros _. split; [by repeat constructor|done].
Qed.

(** ** Running the interpreter *)
Section run.
#[local] Set Default Proof Using "Type*".
Context (m0 : mem) (str size null_str nil_str : Z).
Context (Hreg : region m0 str size) (Hsize : 0 < size) (Hstr : 0 < str) (Hend : str + size <= 2 ^ 32).
Implicit Types (out : mem * Z) (fp ch : Z) (args : list varg).

Abbreviation loop := (format_loop str size null_str nil_str).

(** [ch] is the first character of [rest] and [fp] points behind it. *)
Definition at_fmt (ch fp : Z) (rest : list Z) : Prop :=
  match rest with
  | [] => ch = 0
  | c :: rest' => ch = c /\ 0 < c < 256 /\ cstr_at m0 fp rest' /\ apart str size fp rest'
  end.

Lemma next_ch_run t rest out fp ch args st fl w p b c :
  out_ok m0 str size t out -> cstr_at m0 fp rest -> apart str size fp rest ->
  next_ch (P out fp ch args st fl w p b c) = Done (P out (u32 (fp + 1)) (hd 0 rest) args st fl w p b c) /\
  at_fmt (hd 0 rest) (u32 (fp + 1)) rest.
Proof.
  intros Ho Hs Ha. unfold next_ch. cbn [p_out p_format p_ch p_args p_state p_flags p_width p_precision p_base p_cflags].
  pose proof (cstr_out m0 str size Hreg Hsize Hstr Hend _ _ _ _ Hs Ha Ho) as Hs'. destruct rest as [|x rest].
  - apply cstr_nil in Hs' as [H0 ?]. by ld H0.
  - apply cstr_cons in Hs' as (Hx & [Hc ?] & _). ld Hc. split; [done|].
    apply cstr_cons in Hs as (_ & _ & Hs). cbn [hd at_fmt]. split; [done|]. split; [done|].
    assert (u32 (fp + 1) = fp + 1) as ->; [|split; [done|by apply apart_tail in Ha]].
    apply u32_small. destruct Hs as [_ Hs]. apply bytes_at_bounds in Hs as [? ?]; [|by destruct rest].
    rewrite zlen_app, zlen_cons, (zlen_nil (A := Z)) in *. pose proof (zlen_nonneg rest). lia.
Qed.

Lemma turn f s : p_ch s <> 0 ->
  loop (S f) s = (r ← step str size null_str nil_str s; match r with inl s' => loop f s' | inr s' => Done (true, s') end).
Proof. intros H. cbn [format_loop]. by bdec. Qed.

(** A character that is neither part of a width, a precision nor a modifier. *)
Definition plain_conv (ch : Z) : Prop :=
  ISDIGIT ch = false /\ ch <> 0 /\ ch <> 42 /\ ch <> 46 /\ ch <> 104 /\ ch <> 108 /\ ch <> 106 /\ ch <> 116 /\ ch <> 122.

Lemma to_conv f out fp ch args fl w :
  plain_conv ch ->
  loop (3 + f) (P out fp ch args PRINT_S_WIDTH fl w (-1) 0 0) = loop f (P out fp ch args PRINT_S_CONV fl w (-1) 0 0).
Proof.
  intros (Hdig&?&?&?&?&?&?&?&?).
  transitivity (loop (2 + f) (P out fp ch args PRINT_S_DOT fl w (-1) 0 0)).
  { change (3 + f)%nat with (S (2 + f)). rewrite turn by (cbn; lia).
    unfold step, step_width. cbn [p_state p_ch]. rewrite Hdig. bdec. reflexivity. }
  transitivity (loop (1 + f) (P out fp ch args PRINT_S_MOD fl w (-1) 0 0)).
  { change (2 + f)%nat with (S (1 + f)). rewrite turn by (cbn; lia).
    unfold step, step_dot. cbn [p_state p_ch]. bdec. reflexivity. }
  change (1 + f)%nat with (S f). rewrite turn by (cbn; lia).
  unfold step, step_mod, go. cbn [p_state p_ch]. bdec. reflexivity.
Qed.

Lemma from_percent f t out fp args rest :
  out_ok m0 str size t out -> cstr_at m0 fp rest -> apart str size fp rest ->
  loop (S f) (P out fp 37 args PRINT_S_DEFAULT 0 0 (-1) 0 0) =
    loop f (P out (u32 (fp + 1)) (hd 0 rest) args PRINT_S_FLAGS 0 0 (-1) 0 0) /\
  at_fmt (hd 0 rest) (u32 (fp + 1)) rest.
Proof.
  intros Ho Hs Ha. destruct (next_ch_run t rest out fp 37 args PRINT_S_FLAGS 0 0 (-1) 0 0 Ho Hs Ha) as [Hn Hat].
  split; [|done]. rewrite turn by done. unfold step, step_default, go. cbn [p_state p_ch].
  change (37 =? 37) with true. cbn iota. rewrite bind_Done.
  change (set_state _ PRINT_S_FLAGS) with (P out fp 37 args PRINT_S_FLAGS 0 0 (-1) 0 0). by rewrite Hn.
Qed.

Lemma no_flag f out fp ch args fl :
  ch <> 0 -> flag_of ch = None ->
  loop (S f) (P out fp ch args PRINT_S_FLAGS fl 0 (-1) 0 0) = loop f (P out fp ch args PRINT_S_WIDTH fl 0 (-1) 0 0).
Proof. intros H Hf. rewrite turn by done. unfold step, step_flags. cbn [p_state p_ch]. by rewrite Hf. Qed.

Lemma zero_flag f t out fp args rest :
  out_ok m0 str size t out -> cstr_at m0 fp rest -> apart str size fp rest ->
  loop (S f) (P out fp 48 args PRINT_S_FLAGS 0 0 (-1) 0 0) =
    loop f (P out (u32 (fp + 1)) (hd 0 rest) args PRINT_S_FLAGS PRINT_F_ZERO 0 (-1) 0 0) /\
  at_fmt (hd 0 rest) (u32 (fp + 1)) rest.
Proof.
  intros Ho Hs Ha. destruct (next_ch_run t rest out fp 48 args PRINT_S_FLAGS PRINT_F_ZERO 0 (-1) 0 0 Ho Hs Ha) as [Hn Hat].
  split; [|done]. rewrite turn by done. unfold step, step_flags, go. cbn [p_state p_ch].
  change (flag_of 48) with (Some PRINT_F_ZERO). cbn iota.
  change (set_flags _ _) with (P out fp 48 args PRINT_S_FLAGS PRINT_F_ZERO 0 (-1) 0 0). by rewrite Hn.
Qed.

(** What a run from one state to another does. *)
Definition reaches (k : nat) (s s' : pstate) : Prop := forall f, loop (k + f) s = loop f s'.

Lemma reaches_trans k1 k2 s1 s2 s3 : reaches k1 s1 s2 -> reaches k2 s2 s3 -> reaches (k1 + k2) s1 s3.
Proof. intros H1 H2 f. by rewrite <- Nat.add_assoc, H1, H2. Qed.

Lemma dec_value_bounds ds : Forall (fun d => 0 <= d <= 9) ds -> 0 <= dec_value ds.
Proof.
  induction 1 as [|d ds Hd _ IH]; [done|]. cbn [dec_value]. pose proof (Z.pow_nonneg 10 (zlen ds)). nia.
Qed.

(** The digits of a width, behind [w]. *)
Lemma width_digits ds t out fp ch args fl w rest :
  at_fmt ch fp (map (Z.add 48) ds ++ rest) -> out_ok m0 str size t out -> Forall (fun d => 0 <= d <= 9) ds ->
  0 <= w -> w * 10 ^ zlen ds + dec_value ds <= INT_MAX ->
  exists fp' ch', reaches (length ds) (P out fp ch args PRINT_S_WIDTH fl w (-1) 0 0)
      (P out fp' ch' args PRINT_S_WIDTH fl (w * 10 ^ zlen ds + dec_value ds) (-1) 0 0) /\ at_fmt ch' fp' rest.
Proof.
  intros Hat Ho Hds. revert fp ch w Hat. induction Hds as [|d ds Hd Hds IH]; intros fp ch w Hat Hw Hmax.
  - exists fp, ch. split; [|done]. intros f. cbn [dec_value length Nat.add]. change (10 ^ zlen (@nil Z)) with 1. by rewrite Z.mul_1_r, Z.add_0_r.
  - cbn [map app dec_value length] in *. destruct Hat as (-> & _ & Hs & Ha). pose proof (zlen_nonneg ds). rewrite zlen_cons in Hmax |- *.
    assert (10 ^ (1 + zlen ds) = 10 ^ zlen ds * 10) as E by (rewrite Z.pow_add_r by lia; lia). rewrite E in Hmax |- *. clear E.
    pose proof (dec_value_bounds ds Hds). assert (1 <= 10 ^ zlen ds) as Hp by (apply (Z.pow_le_mono_r 10 0); lia).
    destruct (next_ch_run t _ out fp (48 + d) args PRINT_S_WIDTH fl (10 * w + d) (-1) 0 0 Ho Hs Ha) as [Hn Hat].
    replace (w * (10 ^ zlen ds * 10) + (d * 10 ^ zlen ds + dec_value ds)) with ((10 * w + d) * 10 ^ zlen ds + dec_value ds) in * by lia.
    destruct (IH _ _ (10 * w + d) Hat) as (fp' & ch' & Hr & Hat'); [lia|done|]. exists fp', ch'. split; [|done].
    intros f. rewrite <- Hr. change (S (length ds) + f)%nat with (S (length ds + f)). rewrite turn by (cbn; lia).
    unfold step, step_width, go, ISDIGIT, CHARTOINT. cbn [p_state p_ch p_width]. bdec. replace (48 + d - 48) with d by lia.
    assert ((INT_MAX - d) / 10 <? w = false) as -> by nia.
    change (set_width _ _) with (P out fp (48 + d) args PRINT_S_WIDTH fl (10 * w + d) (-1) 0 0). by rewrite Hn.
Qed.

(** The end of a conversion: back to the default state. *)
Lemma conv_end f t out out' fp ch args args' rest fl w conv fl' w' p' b' :
  p_ch (P out fp ch args PRINT_S_CONV fl w (-1) 0 0) <> 0 ->
  step_conv str size null_str nil_str (P out fp ch args PRINT_S_CONV fl w (-1) 0 0) =
    go (s ← conv; s ← next_ch s; Done (P (p_out s) (p_format s) (p_ch s) (p_args s) PRINT_S_DEFAULT 0 0 (-1) 0 0)) ->
  conv = Done (P out' fp ch args' PRINT_S_CONV fl' w' p' b' 0) ->
  out_ok m0 str size t out' -> cstr_at m0 fp rest -> apart str size fp rest ->
  loop (S f) (P out fp ch args PRINT_S_CONV fl w (-1) 0 0) =
    loop f (P out' (u32 (fp + 1)) (hd 0 rest) args' PRINT_S_DEFAULT 0 0 (-1) 0 0) /\
  at_fmt (hd 0 rest) (u32 (fp + 1)) rest.
Proof.
  intros Hch Hstep -> Ho Hs Ha.
  destruct (next_ch_run t rest out' fp ch args' PRINT_S_CONV fl' w' p' b' 0 Ho Hs Ha) as [Hn Hat].
  split; [|done]. rewrite turn by done. unfold step. cbn [p_state]. rewrite Hstep. unfold go.
  rewrite bind_Done, Hn. reflexivity.
Qed.

Lemma s32_u32 v : - 2 ^ 31 <= v < 2 ^ 31 -> s32 (u32 v) = v.
Proof.
  intros Hv. unfold signed, wrap. rewrite Zmod_mod. change (2 ^ 32) with 4294967296. change (2 ^ (32 - 1)) with 2147483648.
  case_if; b2p; lia.
Qed.

Lemma u32_s32 v : 0 <= v < 2 ^ 32 -> u32 (s32 (u32 v)) = v.
Proof.
  intros Hv. unfold signed, wrap. rewrite Zmod_mod. change (2 ^ 32) with 4294967296 in *.
  change (2 ^ (32 - 1)) with 2147483648. case_if; b2p; lia.
Qed.

Lemma s32_range v : - 2 ^ 31 <= s32 v < 2 ^ 31.
Proof.
  unfold signed. change (2 ^ 32) with 4294967296. change (2 ^ (32 - 1)) with 2147483648. change (2 ^ 31) with 2147483648.
  case_if; b2p; lia.
Qed.

Definition zero_flags (zero : bool) : Z := if zero then PRINT_F_ZERO else 0.

Lemma int_text_signed v width (zero hex : bool) :
  - 2 ^ 31 <= v < 2 ^ 31 -> int_text v 10 width (zero_flags zero) = render_num true hex zero width v.
Proof. intros _. by destruct zero. Qed.

Lemma int_text_unsigned v width (zero hex : bool) :
  0 <= v < 2 ^ 32 ->
  int_text (s32 (u32 v)) (if hex then 16 else 10) width (Z.lor (zero_flags zero) PRINT_F_UNSIGNED) =
    render_num false hex zero width v.
Proof.
  intros Hv. unfold int_text, render_num.
  assert (has (Z.lor (zero_flags zero) PRINT_F_UNSIGNED) PRINT_F_UNSIGNED = true) as -> by (by destruct zero).
  assert (has (Z.lor (zero_flags zero) PRINT_F_UNSIGNED) PRINT_F_UP = false) as -> by (by destruct zero).
  assert (has (Z.lor (zero_flags zero) PRINT_F_UNSIGNED) PRINT_F_ZERO = zero) as -> by (by destruct zero).
  rewrite u32_s32, Z.abs_eq by lia. replace (v <? 0) with false by lia. by destruct zero, hex.
Qed.

Lemma conv_num f t out fp args rest (sgn hex zero : bool) width v :
  out_ok m0 str size t out -> cstr_at m0 fp rest -> apart str size fp rest ->
  0 <= width < 2 ^ 31 -> (if sgn then - 2 ^ 31 <= v < 2 ^ 31 else 0 <= v < 2 ^ 32) ->
  zlen t + zlen (render_num sgn hex zero width v) <= INT_MAX ->
  exists out',
    loop (S f) (P out fp (if sgn then 100 else if hex then 120 else 117) (A32 v :: args) PRINT_S_CONV (zero_flags zero) width (-1) 0 0) =
      loop f (P out' (u32 (fp + 1)) (hd 0 rest) args PRINT_S_DEFAULT 0 0 (-1) 0 0) /\
    at_fmt (hd 0 rest) (u32 (fp + 1)) rest /\ out_ok m0 str size (t ++ render_num sgn hex zero width v) out'.
Proof.
  intros Ho Hs Ha Hw Hv Hl. destruct sgn.
  - rewrite <- (int_text_signed v width zero hex) in * by done.
    destruct (fmtint_spec m0 str size Hreg Hsize Hstr Hend v 10 width (zero_flags zero) t out Ho) as (out' & Hf & Ho');
      [lia|lia|lia|by destruct zero..|done|].
    exists out'. apply and_assoc. split; [|done]. eapply conv_end; [done|reflexivity| |done..].
    unfold conv_signed, signed_arg, do_fmtint.
    cbn [p_ch p_args p_cflags va_arg32 set_args p_width p_precision p_flags p_out mbind outcome_bind].
    change (0 =? PRINT_C_CHAR) with false. change (0 =? PRINT_C_SHORT) with false. cbn iota.
    rewrite s32_u32, Hf by done. reflexivity.
  - rewrite <- (int_text_unsigned v width zero hex) in * by done.
    destruct (fmtint_spec m0 str size Hreg Hsize Hstr Hend (s32 (u32 v)) (if hex then 16 else 10) width
                (Z.lor (zero_flags zero) PRINT_F_UNSIGNED) t out Ho) as (out' & Hf & Ho');
      [by destruct hex|apply s32_range|lia|by destruct zero..|done|].
    exists out'. apply and_assoc. split; [|done].
    destruct hex; (eapply conv_end; [done|reflexivity| |done..]).
    + transitivity (o ← fmtint str size (s32 (u32 v)) 16 width (-1) (Z.lor (zero_flags zero) PRINT_F_UNSIGNED) out;
                    Done (P o fp 120 args PRINT_S_CONV (Z.lor (zero_flags zero) PRINT_F_UNSIGNED) width (-1) 16 0)); [reflexivity|].
      by rewrite Hf.
    + transitivity (o ← fmtint str size (s32 (u32 v)) 10 width (-1) (Z.lor (zero_flags zero) PRINT_F_UNSIGNED) out;
                    Done (P o fp 117 args PRINT_S_CONV (Z.lor (zero_flags zero) PRINT_F_UNSIGNED) width (-1) 10 0)); [reflexivity|].
      by rewrite Hf.
Qed.

Definition default_state out fp ch args : pstate := P out fp ch args PRINT_S_DEFAULT 0 0 (-1) 0 0.

(** One piece of format: its characters are consumed and its text is added. *)
Definition piece_run (x : piece) : Prop := forall t out fp ch rest args,
  at_fmt ch fp (piece_format x ++ rest) -> out_ok m0 str size t out -> piece_ok m0 str size x ->
  zlen t + zlen (render x) < INT_MAX ->
  exists k out' fp' ch', (k <= 6 * length (piece_format x))%nat /\
    reaches k (default_state out fp ch (piece_args x ++ args)) (default_state out' fp' ch' args) /\
    at_fmt ch' fp' rest /\ out_ok m0 str size (t ++ render x) out'.

Lemma run_lit c : piece_run (Lit c).
Proof.
  intros t out fp ch rest args (-> & Hc & Hs & Ha) Ho [_ Hne] Hl. cbn [render piece_args app piece_format length] in *.
  rewrite zlen_cons, (zlen_nil (A := Z)) in Hl.
  destruct (OUTCHAR_spec m0 str size Hreg Hsize Hstr Hend t out c Ho) as (out' & Hrun & Ho'); [unfold is_byte; lia|lia|].
  destruct (next_ch_run (t ++ [c]) rest out' fp c args PRINT_S_DEFAULT 0 0 (-1) 0 0 Ho' Hs Ha) as [Hn Hat].
  exists 1%nat, out', (u32 (fp + 1)), (hd 0 rest). split; [lia|]. split; [|done].
  intros f. change (1 + f)%nat with (S f). rewrite turn by (cbn; lia).
  assert (step str size null_str nil_str (default_state out fp c args) =
            go (s ← (o ← OUTCHAR str size out c; Done (P o fp c args PRINT_S_DEFAULT 0 0 (-1) 0 0)); next_ch s)) as ->.
  { unfold step, step_default, default_state. cbn [p_state p_ch]. bdec. reflexivity. }
  unfold go. rewrite Hrun, !bind_Done, Hn. reflexivity.
Qed.

Lemma run_pct : piece_run Pct.
Proof.
  intros t out fp ch rest args (-> & _ & Hs & Ha) Ho _ Hl. cbn [render piece_args app piece_format length] in *.
  rewrite zlen_cons, (zlen_nil (A := Z)) in Hl.
  destruct (from_percent 0 t out fp args _ Ho Hs Ha) as [_ (_ & _ & Hs1 & Ha1)].
  destruct (OUTCHAR_spec m0 str size Hreg Hsize Hstr Hend t out 37 Ho) as (out' & Hrun & Ho'); [done|lia|].
  assert (forall f, loop (S f) (P out (u32 (fp + 1)) 37 args PRINT_S_CONV 0 0 (-1) 0 0) =
      loop f (default_state out' (u32 (u32 (fp + 1) + 1)) (hd 0 rest) args) /\ at_fmt (hd 0 rest) (u32 (u32 (fp + 1) + 1)) rest) as Hconv.
  { intros f. eapply conv_end; [done|reflexivity| |exact Ho'|done..].
    transitivity (o ← OUTCHAR str size out 37; Done (P o (u32 (fp + 1)) 37 args PRINT_S_CONV 0 0 (-1) 0 0)); [reflexivity|].
    by rewrite Hrun. }
  exists (1 + (1 + (3 + 1)))%nat, out', (u32 (u32 (fp + 1) + 1)), (hd 0 rest). split; [lia|]. split; [|split; [apply (Hconv O)|done]].
  intros f. change (1 + (1 + (3 + 1)) + f)%nat with (S (S (3 + S f))).
  unfold default_state at 1. rewrite (proj1 (from_percent _ t out fp args _ Ho Hs Ha)). cbn [hd].
  rewrite no_flag by done. rewrite to_conv by (repeat split; done). apply Hconv.
Qed.

Lemma run_str p w : piece_run (Str p w).
Proof.
  intros t out fp ch rest args (-> & _ & Hs & Ha) Ho (Hp & Hw & Hwa) Hl. cbn [render piece_args app piece_format length] in *.
  destruct (from_percent 0 t out fp (A32 p :: args) _ Ho Hs Ha) as [_ (_ & _ & Hs1 & Ha1)].
  destruct (fmtstr_spec m0 str size Hreg Hsize Hstr Hend null_str p w t out Hw Hwa) as (out' & Hrun & Ho');
    [unfold NULL; lia|done|exact (Z.lt_le_incl _ _ Hl)|].
  assert (forall f, loop (S f) (P out (u32 (fp + 1)) 115 (A32 p :: args) PRINT_S_CONV 0 0 (-1) 0 0) =
      loop f (default_state out' (u32 (u32 (fp + 1) + 1)) (hd 0 rest) args) /\ at_fmt (hd 0 rest) (u32 (u32 (fp + 1) + 1)) rest) as Hconv.
  { intros f. eapply conv_end; [done|reflexivity| |exact Ho'|done..].
    transitivity (o ← fmtstr str size null_str (u32 p) 0 (-1) 0 out; Done (P o (u32 (fp + 1)) 115 args PRINT_S_CONV 0 0 (-1) 0 0)); [reflexivity|].
    rewrite (u32_small p) by lia. by rewrite Hrun. }
  exists (1 + (1 + (3 + 1)))%nat, out', (u32 (u32 (fp + 1) + 1)), (hd 0 rest). split; [lia|]. split; [|split; [apply (Hconv O)|done]].
  intros f. change (1 + (1 + (3 + 1)) + f)%nat with (S (S (3 + S f))).
  unfold default_state at 1. rewrite (proj1 (from_percent _ t out fp _ _ Ho Hs Ha)). cbn [hd].
  rewrite no_flag by done. rewrite to_conv by (repeat split; done). apply Hconv.
Qed.

Definition conv_char (sgn hex : bool) : Z := if sgn then 100 else if hex then 120 else 117.

Lemma conv_char_plain sgn hex : plain_conv (conv_char sgn hex) /\ flag_of (conv_char sgn hex) = None /\ conv_char sgn hex <> 0.
Proof. by destruct sgn, hex. Qed.

(** From the flags on: the digits of the width, the conversion character, the
    text. *)
Lemma num_tail t out fp ch args rest (sgn hex zero : bool) (ds : list Z) v :
  at_fmt ch fp (map (Z.add 48) ds ++ conv_char sgn hex :: rest) -> out_ok m0 str size t out ->
  width_ok ds -> (if sgn then - 2 ^ 31 <= v < 2 ^ 31 else 0 <= v < 2 ^ 32) ->
  zlen t + zlen (render_num sgn hex zero (dec_value ds) v) <= INT_MAX ->
  exists k out' fp' ch', (k <= 5 + length ds)%nat /\
    reaches k (P out fp ch (A32 v :: args) PRINT_S_FLAGS (zero_flags zero) 0 (-1) 0 0) (default_state out' fp' ch' args) /\
    at_fmt ch' fp' rest /\ out_ok m0 str size (t ++ render_num sgn hex zero (dec_value ds) v) out'.
Proof.
  intros Hat Ho (Hds & Hhd & Hmax) Hv Hl. destruct (conv_char_plain sgn hex) as (Hplain & Hflag & Hnz).
  assert (ch <> 0 /\ flag_of ch = None) as [Hch Hfl].
  { destruct ds as [|d ds]; destruct Hat as (-> & _ & _); [done|]. pose proof (Forall_inv Hds). cbn in Hhd. cbn beta in *.
    split; [lia|]. unfold flag_of. by bdec. }
  destruct (width_digits ds t out fp ch (A32 v :: args) (zero_flags zero) 0 _ Hat Ho Hds) as (fp1 & ch1 & Hr1 & Hat1); [lia|lia|].
  rewrite Z.mul_0_l, Z.add_0_l in Hr1. destruct Hat1 as (-> & _ & Hs & Ha).
  assert (0 <= dec_value ds < 2 ^ 31) as Hw by (pose proof (dec_value_bounds ds Hds); unfold INT_MAX in *; lia).
  destruct (conv_num 0 t out fp1 args rest sgn hex zero _ v Ho Hs Ha Hw Hv Hl) as (out' & _ & Hat' & Ho').
  exists (1 + (length ds + (3 + 1)))%nat, out', (u32 (fp1 + 1)), (hd 0 rest). split; [lia|]. split; [|done].
  intros f. change (1 + (length ds + (3 + 1)) + f)%nat with (S (length ds + (3 + 1) + f)). rewrite no_flag by done.
  rewrite <- Nat.add_assoc, Hr1. change (3 + 1 + f)%nat with (3 + S f)%nat. rewrite to_conv by done.
  destruct (conv_num f t out fp1 args rest sgn hex zero _ v Ho Hs Ha Hw Hv Hl) as (out2 & Hrun & _ & Ho2).
  unfold conv_char. rewrite Hrun. by replace out2 with out' by (unfold out_ok in *; congruence).
Qed.

Lemma run_num sgn hex zero width v : piece_run (Num sgn hex zero width v).
Proof.
  intros t out fp ch rest args (-> & _ & Hs & Ha) Ho [Hw Hv] Hl.
  cbn [render piece_args piece_format app] in *. fold (conv_char sgn hex) in *.
  rewrite <- !app_assoc in Hs, Ha. cbn [app] in Hs, Ha.
  pose proof (proj2 (from_percent 0 t out fp (A32 v :: args) _ Ho Hs Ha)) as Hat1.
  assert (forall x y : list Z, length (37 :: x ++ y ++ [conv_char sgn hex]) = (2 + length x + length y)%nat) as Hlen
    by (intros; cbn; rewrite !length_app; cbn; lia).
  rewrite Hlen. destruct zero; cbn [app] in *.
  - destruct Hat1 as (_ & _ & Hs1 & Ha1).
    pose proof (proj2 (zero_flag 0 t out _ (A32 v :: args) _ Ho Hs1 Ha1)) as Hat2.
    destruct (num_tail t out _ _ args rest sgn hex true width v Hat2 Ho Hw Hv (Z.lt_le_incl _ _ Hl))
      as (k & out' & fp' & ch' & Hk & Hr & Hat' & Ho').
    exists (1 + (1 + k))%nat, out', fp', ch'. split; [rewrite length_map; cbn; lia|]. split; [|done].
    intros f. change (1 + (1 + k) + f)%nat with (S (S (k + f))). unfold default_state at 1.
    rewrite (proj1 (from_percent _ t out fp (A32 v :: args) _ Ho Hs Ha)). cbn [hd].
    rewrite (proj1 (zero_flag _ t out _ (A32 v :: args) _ Ho Hs1 Ha1)). apply Hr.
  - destruct (num_tail t out _ _ args rest sgn hex false width v Hat1 Ho Hw Hv (Z.lt_le_incl _ _ Hl))
      as (k & out' & fp' & ch' & Hk & Hr & Hat' & Ho').
    exists (1 + k)%nat, out', fp', ch'. split; [rewrite length_map; cbn; lia|]. split; [|done].
    intros f. change (1 + k + f)%nat with (S (k + f)). unfold default_state at 1.
    rewrite (proj1 (from_percent _ t out fp (A32 v :: args) _ Ho Hs Ha)). apply Hr.
Qed.

Lemma run_piece x : piece_run x.
Proof. destruct x; [apply run_lit|apply run_pct|apply run_num|apply run_str]. Qed.

Lemma run_pieces ps t out fp ch args fuel :
  at_fmt ch fp (flat_map piece_format ps) -> out_ok m0 str size t out -> Forall (piece_ok m0 str size) ps ->
  zlen t + zlen (flat_map render ps) < INT_MAX -> (6 * length (flat_map piece_format ps) <= fuel)%nat ->
  exists s', loop fuel (default_state out fp ch (flat_map piece_args ps ++ args)) = Done (false, s') /\
             out_ok m0 str size (t ++ flat_map render ps) (p_out s').
Proof.
  intros Hat Ho Hps. revert t out fp ch fuel Hat Ho. induction Hps as [|x ps Hx _ IH]; intros t out fp ch fuel Hat Ho Hl Hf.
  - cbn in Hat. subst ch. exists (default_state out fp 0 args). rewrite app_nil_r. split; [by destruct fuel|done].
  - cbn [flat_map] in *. rewrite zlen_app in Hl. pose proof (zlen_nonneg (flat_map render ps)).
    rewrite length_app in Hf. rewrite <- app_assoc.
    destruct (run_piece x t out fp ch (flat_map piece_format ps) (flat_map piece_args ps ++ args) Hat Ho Hx)
      as (k & out' & fp' & ch' & Hk & Hr & Hat' & Ho'); [lia|].
    destruct (IH (t ++ render x) out' fp' ch' (fuel - k)%nat Hat' Ho') as (s' & Hrun & Hs'); [rewrite zlen_app; lia|lia|].
    exists s'. rewrite (app_assoc t). split; [|done].
    replace fuel with (k + (fuel - k))%nat by lia. by rewrite Hr.
Qed.
End run.

(** C32: [convert] is the inverse of reading a number: the digits it leaves in
    the buffer, read back in its base, give the value; there is at least one,
    they fit the 43-byte buffer (so the loop always ends because the value is
    exhausted), and a nonzero value has no leading zero. *)
Theorem convert_roundtrip (base v : Z) (caps : bool) :
  2 <= base <= 16 -> 0 <= v < 2 ^ 32 ->
  let ds := convert (Z.to_nat MAX_CONVERT_LENGTH) v base caps in
  rev_value base ds = v /\ 1 <= zlen ds <= MAX_CONVERT_LENGTH /\
  (0 < v -> exists d, last ds = Some d /\ digit_value d <> 0).
Proof.
  intros Hb Hv ds. destruct (convert_spec (Z.to_nat MAX_CONVERT_LENGTH) base caps v) as (? & ? & _ & ?); [done| |unfold MAX_CONVERT_LENGTH; lia|done].
  change (Z.of_nat (Z.to_nat MAX_CONVERT_LENGTH)) with 43. split; [lia|].
  assert (2 ^ 43 <= base ^ 43) by (apply Z.pow_le_mono_l; lia). lia.
Qed.

Lemma convert_roundtrip_witness : rev_value 16 (convert (Z.to_nat MAX_CONVERT_LENGTH) 0xDEADBEEF 16 false) = 0xDEADBEEF.
Proof. refine (proj1 (convert_roundtrip 16 0xDEADBEEF false _ _)); lia. Defined.

(** C5: [vsnprintf] formats as documented, for formats made of literal text,
    [%%], [%s] and [%d], [%u], [%x] with an optional [0] flag and a width of any
    number of digits.  For a buffer of at least one byte that
    holds neither the format nor a string argument, and a text shorter than
    INT_MAX, it returns the length of the complete text, and the buffer receives as much of
    the text as fits in [size - 1] bytes followed by a terminator; no byte
    outside the buffer changes.  The interpreter always terminates on such a
    format. *)
Theorem vsnprintf_correct (null_str nil_str : Z) (m : mem) (str size fmt : Z) (ps : list piece) :
  let text := flat_map render ps in
  region m str size -> 0 < size -> 0 < str -> str + size <= 2 ^ 32 ->
  cstr_at m fmt (flat_map piece_format ps) -> apart str size fmt (flat_map piece_format ps) ->
  Forall (piece_ok m str size) ps -> zlen text < INT_MAX ->
  vsnprintf null_str nil_str m str size fmt (flat_map piece_args ps) =
    Done (zlen text, write_bytes m str (take (Z.to_nat (size - 1)) text ++ [0])).
Proof.
  intros text Hreg Hsize Hstr Hend Hfmt Hap Hps Hl. pose proof (zlen_nonneg text).
  assert (out_ok m str size [] (m, 0)) as Ho by (unfold out_ok; by rewrite take_nil).
  unfold vsnprintf. replace (str =? NULL) with false by (unfold NULL; lia). cbn [andb].
  destruct (next_ch_run m str size Hreg Hsize Hstr Hend [] _ (m, 0) fmt 0 (flat_map piece_args ps) PRINT_S_DEFAULT 0 0 (-1) 0 0 Ho Hfmt Hap)
    as [-> Hat].
  rewrite bind_Done. pose proof (cstr_fuel _ _ _ Hfmt).
  destruct (run_pieces m str size null_str nil_str Hreg Hsize Hstr Hend ps [] (m, 0) _ _ [] (6 * str_fuel m) Hat Ho Hps)
    as (s' & Hrun & Hs'); [cbn [app]; rewrite zlen_nil; fold text; lia|lia|].
  rewrite app_nil_r in Hrun. unfold default_state in Hrun. rewrite Hrun, bind_Done. cbn iota. cbn [app] in Hs'.
  rewrite Hs'. fold text. cbn [orb]. set (m1 := write_bytes m str (take (Z.to_nat (size - 1)) text)).
  assert (region m1 str size) as Hreg1 by (by apply region_write).
  set (k := Z.min (zlen text) (size - 1)).
  assert (zlen (take (Z.to_nat (size - 1)) text) = k) as Hk by (unfold k, zlen in *; rewrite length_take; lia).
  destruct (region_lookup m1 str size (str + k) Hreg1) as [Hk1 ?]; [lia|].
  assert (store8 m1 (str + k) 0 = Done (write_bytes m str (take (Z.to_nat (size - 1)) text ++ [0]))) as Hst.
  { rewrite store8_Done by done. rewrite write_bytes_app_up, Hk. done. }
  replace (INT_MAX <=? zlen text) with false by lia.
  destruct (decide (zlen text < size)); bdec.
  - replace k with (zlen text) in Hst by lia. rewrite Hst. reflexivity.
  - replace (str + k) with (str + size - 1) in Hst by lia. rewrite Hst. reflexivity.
Qed.

(** ["n=%012d %s"] with 16 bytes of room. *)
Definition printf_mem : mem :=
  write_bytes (write_bytes (write_bytes ∅ 4096 (replicate 16 1)) 256 (bytes_of "n=%012d %s" ++ [0])) 512 (bytes_of "ok!" ++ [0]).
Definition printf_pieces : list piece := [Lit 110; Lit 61; Num true false true [1; 2] (-7); Lit 32; Str 512 (bytes_of "ok!")].

Lemma vsnprintf_correct_witness :
  vsnprintf 0 0 printf_mem 4096 16 256 [A32 (-7); A32 512] =
    Done (18, write_bytes printf_mem 4096 (bytes_of "n=-00000000007 " ++ [0])).
Proof.
  refine (vsnprintf_correct 0 0 printf_mem 4096 16 256 printf_pieces _ _ _ _ _ _ _ _).
  - concrete_region (replicate 16 1).
  - lia.
  - lia.
  - lia.
  - split; [repeat constructor|concrete].
  - left. vm_compute. congruence.
  - constructor; [cbn; lia|]. constructor; [cbn; lia|]. constructor; [split; [|lia]; split; [repeat constructor; lia|split; [done|vm_compute; congruence]]|]. constructor; [cbn; lia|].
    constructor; [|constructor]. split; [lia|]. split; [split; [repeat constructor|concrete]|left; vm_compute; congruence].
  - done.
Defined.
