(* ===== verification/Iodev.v ===== *)
(** * I/O devices and the console (src/iodev.c, src/iodev.h)

    A device is a table of optional operations, a lock and its usage flags.
    The operations belong to the drivers: here they are functions on an
    abstract world [W] (the hardware and the drivers' own state).  The console
    keeps the last 8192 bytes and, per device, how far the device has got. *)
From S2P Require Import Prelude.
From S2P Require Import MemUtils.

Definition IODEV_UART : Z := 0.
Definition IODEV_USB_VUART : Z := 1.
Definition IODEV_USB0 : Z := 2.
Definition USB_IODEV_COUNT : Z := 8.
Definition IODEV_MAX : Z := IODEV_USB0 + USB_IODEV_COUNT.
Definition IODEV_LOG : Z := IODEV_MAX.
Definition IODEV_NUM : Z := 11.
Definition USAGE_CONSOLE : Z := 1.
Definition USAGE_UARTPROXY : Z := 2.
Definition CONSOLE_BUFFER_SIZE : Z := 8192.

Section iodev.
Context {W : Type}.

(** The operations take the device's [opaque] word.  [read] returns the bytes
    it stored into the caller's buffer beside its result. *)
Record iodev_ops : Type := Ops {
  op_can_read : option (Z -> W -> outcome (Z * W));
  op_can_write : option (Z -> W -> outcome (bool * W));
  op_read : option (Z -> Z -> W -> outcome (Z * list Z * W));
  op_write : option (Z -> list Z -> W -> outcome (Z * W));
  op_queue : option (Z -> list Z -> W -> outcome (Z * W));
  op_flush : option (Z -> W -> outcome W);
  op_handle_events : option (Z -> W -> outcome W);
}.

(** [ops] is a pointer, [None] when it is NULL. *)
Record iodev : Type := Dev {
  dev_ops : option iodev_ops;
  dev_lock : spinlock_t;
  dev_usage : Z;
  dev_opaque : Z;
}.

(** The file's global state, this core's [smp_id()] and [mmu_active()]. *)
Record iodev_state : Type := Ist {
  iodevs : list (option iodev);
  con_buf : list Z;
  con_wp : Z;
  con_rp : list Z;
  in_iodev : Z;
  console_lock : spinlock_t;
  mmu_active : bool;
  cpu : Z;
  world : W;
}.

Definition set_iodevs (s : iodev_state) d := Ist d (con_buf s) (con_wp s) (con_rp s) (in_iodev s) (console_lock s) (mmu_active s) (cpu s) (world s).
Definition set_world (s : iodev_state) w := Ist (iodevs s) (con_buf s) (con_wp s) (con_rp s) (in_iodev s) (console_lock s) (mmu_active s) (cpu s) w.
Definition set_con (s : iodev_state) b wp := Ist (iodevs s) b wp (con_rp s) (in_iodev s) (console_lock s) (mmu_active s) (cpu s) (world s).
Definition set_rp_list (s : iodev_state) r := Ist (iodevs s) (con_buf s) (con_wp s) r (in_iodev s) (console_lock s) (mmu_active s) (cpu s) (world s).
Definition set_in_iodev (s : iodev_state) n := Ist (iodevs s) (con_buf s) (con_wp s) (con_rp s) n (console_lock s) (mmu_active s) (cpu s) (world s).
Definition set_console_lock (s : iodev_state) l := Ist (iodevs s) (con_buf s) (con_wp s) (con_rp s) (in_iodev s) l (mmu_active s) (cpu s) (world s).

Definition set_dev_lock (d : iodev) l := Dev (dev_ops d) l (dev_usage d) (dev_opaque d).
Definition set_dev_usage (d : iodev) u := Dev (dev_ops d) (dev_lock d) u (dev_opaque d).

(** ** Registration *)
Definition iodev_register_device (id : Z) (dev : option iodev) (s : iodev_state) : outcome iodev_state :=
  if IODEV_MAX <=? id then Done s else l ← zset (iodevs s) id dev; Done (set_iodevs s l).

Definition iodev_unregister_device (id : Z) (s : iodev_state) : outcome (option iodev * iodev_state) :=
  if (id <? IODEV_USB0) || (IODEV_MAX <=? id) then Done (None, s)
  else dev ← znth (iodevs s) id; l ← zset (iodevs s) id None; Done (dev, set_iodevs s l).

(** ** Device calls *)

(** [if (mmu_active()) spin_lock/spin_unlock(&iodevs[id]->lock)] *)
Definition dev_locking (f : spinlock_t -> outcome spinlock_t) (id : Z) (s : iodev_state) : outcome iodev_state :=
  if mmu_active s then
    d ← znth (iodevs s) id; dev ← of_option d;
    l ← f (dev_lock dev);
    devs ← zset (iodevs s) id (Some (set_dev_lock dev l)); Done (set_iodevs s devs)
  else Done s.

(** The shape the seven wrappers share: the default when the device or the
    operation is missing, otherwise the operation under the device's lock. *)
Definition call_op {Op A : Type} (id : Z) (sel : iodev_ops -> option Op)
    (dflt : iodev_state -> outcome (A * iodev_state)) (run : Op -> Z -> W -> outcome (A * W))
    (s : iodev_state) : outcome (A * iodev_state) :=
  d ← znth (iodevs s) id;
  match d with
  | None => dflt s
  | Some dev =>
      ops ← of_option (dev_ops dev);
      match sel ops with
      | None => dflt s
      | Some f =>
          s1 ← dev_locking (spin_lock (cpu s)) id s;
          '(a, w) ← run f (dev_opaque dev) (world s1);
          s2 ← dev_locking spin_unlock id (set_world s1 w);
          Done (a, s2)
      end
  end.

Definition iodev_can_read (id : Z) : iodev_state -> outcome (Z * iodev_state) :=
  call_op id op_can_read (fun s => Done (0, s)) (fun f o w => f o w).
Definition iodev_can_write (id : Z) : iodev_state -> outcome (bool * iodev_state) :=
  call_op id op_can_write (fun s => Done (false, s)) (fun f o w => f o w).
Definition iodev_read (id length : Z) : iodev_state -> outcome (Z * list Z * iodev_state) :=
  call_op id op_read (fun s => Done ((-1, []), s)) (fun f o w => f o length w).
Definition iodev_write (id : Z) (buf : list Z) : iodev_state -> outcome (Z * iodev_state) :=
  call_op id op_write (fun s => Done (-1, s)) (fun f o w => f o buf w).
Definition iodev_queue (id : Z) (buf : list Z) : iodev_state -> outcome (Z * iodev_state) :=
  call_op id op_queue (iodev_write id buf) (fun f o w => f o buf w).
Definition iodev_flush (id : Z) (s : iodev_state) : outcome iodev_state :=
  '(_, s') ← call_op id op_flush (fun s => Done (tt, s)) (fun f o w => w' ← f o w; Done (tt, w')) s; Done s'.

Definition iodev_lock (id : Z) (s : iodev_state) : outcome iodev_state :=
  d ← znth (iodevs s) id;
  match d with None => Done s | Some _ => dev_locking (spin_lock (cpu s)) id s end.
Definition iodev_unlock (id : Z) (s : iodev_state) : outcome iodev_state :=
  d ← znth (iodevs s) id;
  match d with None => Done s | Some _ => dev_locking spin_unlock id s end.

Definition iodev_set_usage (id usage : Z) (s : iodev_state) : outcome iodev_state :=
  d ← znth (iodevs s) id;
  match d with
  | None => Done s
  | Some dev => devs ← zset (iodevs s) id (Some (set_dev_usage dev usage)); Done (set_iodevs s devs)
  end.
Definition iodev_get_usage (id : Z) (s : iodev_state) : outcome Z :=
  d ← znth (iodevs s) id; Done (match d with Some dev => dev_usage dev | None => 0 end).
Definition iodev_get_opaque (id : Z) (s : iodev_state) : outcome Z :=
  if IODEV_MAX <=? id then Done 0
  else d ← znth (iodevs s) id; Done (match d with Some dev => dev_opaque dev | None => 0 end).

(** ** The console *)
Definition console_locking (f : spinlock_t -> outcome spinlock_t) (do_lock : bool) (s : iodev_state)
    : outcome iodev_state :=
  if do_lock then l ← f (console_lock s); Done (set_console_lock s l) else Done s.

(** The direct path to the UART: a mark, then the text, bypassing the lock. *)
Definition uart_direct (mark : Z) (buf : list Z) (s : iodev_state) : outcome iodev_state :=
  if zlen buf =? 0 then Done s
  else
    d ← znth (iodevs s) IODEV_UART; dev ← of_option d;
    if Z.land (dev_usage dev) USAGE_CONSOLE =? 0 then Done s
    else
      ops ← of_option (dev_ops dev); f ← of_option (op_write ops);
      '(_, w) ← f (dev_opaque dev) [mark] (world s);
      '(_, w) ← f (dev_opaque dev) buf w;
      Done (set_world s w).

Definition set_rp (id v : Z) (s : iodev_state) : outcome iodev_state :=
  r ← zset (con_rp s) id v; Done (set_rp_list s r).

(** [&con_buf[start]], [n] bytes. *)
Definition con_slice (s : iodev_state) (start n : Z) : list Z :=
  take (Z.to_nat n) (drop (Z.to_nat start) (con_buf s)).

(** [while (con_rp[id] < con_wp)]: [false] is the [goto next_dev]. *)
Fixpoint flush_loop (fuel : nat) (id : Z) (s : iodev_state) : outcome (bool * iodev_state) :=
  rp ← znth (con_rp s) id;
  if rp <? con_wp s then
    match fuel with
    | O => Stuck
    | S fuel' =>
        let buf_rp := rp mod CONSOLE_BUFFER_SIZE in
        let block := Z.min (con_wp s - rp) (CONSOLE_BUFFER_SIZE - buf_rp) in
        '(ret, s1) ← iodev_write id (con_slice s buf_rp block) s;
        if ret <=? 0 then Done (false, s1)
        else
          rp1 ← znth (con_rp s1) id;
          s2 ← set_rp id (u32 (rp1 + ret)) s1;
          flush_loop fuel' id s2
    end
  else Done (true, s).

(** [while (wrote < length)], with [p] the rest of the buffer. *)
Fixpoint current_loop (fuel : nat) (id : Z) (p : list Z) (s : iodev_state) : outcome iodev_state :=
  match p with
  | [] => Done s
  | _ =>
      match fuel with
      | O => Stuck
      | S fuel' =>
          '(ret, s1) ← iodev_write id p s;
          if ret <=? 0 then Done s1
          else
            rp1 ← znth (con_rp s1) id;
            s2 ← set_rp id (u32 (rp1 + ret)) s1;
            current_loop fuel' id (drop (Z.to_nat ret) p) s2
      end
  end.

(** The body of the loop over the devices. *)
Definition console_device (id : Z) (buf : list Z) (s : iodev_state) : outcome iodev_state :=
  d ← znth (iodevs s) id;
  match d with
  | None => Done s
  | Some dev =>
      if Z.land (dev_usage dev) USAGE_CONSOLE =? 0 then set_rp id (u32 (con_wp s + zlen buf)) s
      else
        '(cw, s1) ← iodev_can_write id s;
        if negb cw then Done s1
        else
          rp ← znth (con_rp s1) id;
          s2 ← (if CONSOLE_BUFFER_SIZE <? con_wp s1
                then set_rp id (Z.max (con_wp s1 - CONSOLE_BUFFER_SIZE) rp) s1 else Done s1);
          '(go_on, s3) ← flush_loop (S (Z.to_nat (con_wp s2))) id s2;
          if go_on : bool then current_loop (length buf) id buf s3 else Done s3
  end.

Fixpoint console_devices (n : nat) (id : Z) (buf : list Z) (s : iodev_state) : outcome iodev_state :=
  match n with
  | O => Done s
  | S n' => s1 ← console_device id buf s; console_devices n' (id + 1) buf s1
  end.

(** [memcpy(&con_buf[buf_wp], ..., block)] *)
Definition splice (l : list Z) (start : Z) (bs : list Z) : list Z :=
  take (Z.to_nat start) l ++ bs ++ drop (Z.to_nat start + length bs) l.

(** [while (length)] over the part of [buf] that is kept. *)
Fixpoint store_loop (fuel : nat) (buf : list Z) (s : iodev_state) : outcome iodev_state :=
  match buf with
  | [] => Done s
  | _ =>
      match fuel with
      | O => Stuck
      | S fuel' =>
          let buf_wp := con_wp s mod CONSOLE_BUFFER_SIZE in
          let block := Z.min (zlen buf) (CONSOLE_BUFFER_SIZE - buf_wp) in
          store_loop fuel' (drop (Z.to_nat block) buf)
            (set_con s (splice (con_buf s) buf_wp (take (Z.to_nat block) buf)) (u32 (con_wp s + block)))
      end
  end.

Definition console_store (buf : list Z) (s : iodev_state) : outcome iodev_state :=
  if CONSOLE_BUFFER_SIZE <? zlen buf then
    let skip := zlen buf - CONSOLE_BUFFER_SIZE in
    store_loop (length buf) (drop (Z.to_nat skip) buf) (set_con s (con_buf s) (u32 (con_wp s + skip)))
  else store_loop (length buf) buf s.

(** [is_boot_cpu()] is constantly true. *)
Definition is_boot_cpu : bool := true.

Definition iodev_console_write (buf : list Z) (s : iodev_state) : outcome iodev_state :=
  let do_lock := mmu_active s in
  if negb do_lock && negb is_boot_cpu then uart_direct 42 buf s
  else
    s ← console_locking (spin_lock (cpu s)) do_lock s;
    if negb (in_iodev s =? 0) then
      s ← uart_direct 43 buf s; console_locking spin_unlock do_lock s
    else
      s ← console_devices (Z.to_nat IODEV_NUM) 0 buf (set_in_iodev s (in_iodev s + 1));
      s ← console_store buf s;
      console_locking spin_unlock do_lock (set_in_iodev s (in_iodev s - 1)).

Definition iodev_handle_events (id : Z) (s : iodev_state) : outcome iodev_state :=
  let do_lock := mmu_active s in
  s ← console_locking (spin_lock (cpu s)) do_lock s;
  if negb (in_iodev s =? 0) then console_locking spin_unlock do_lock s
  else
    let s := set_in_iodev s (in_iodev s + 1) in
    d ← znth (iodevs s) id; dev ← of_option d; ops ← of_option (dev_ops dev);
    s ← match op_handle_events ops with
        | None => Done s
        | Some f => w ← f (dev_opaque dev) (world s); Done (set_world s w)
        end;
    let s := set_in_iodev s (in_iodev s - 1) in
    '(cw, s) ← iodev_can_write id s;
    s ← (if cw : bool then iodev_console_write [] s else Done s);
    console_locking spin_unlock do_lock s.

(** The loop of kick and flush: [f] for every console device. *)
Fixpoint for_console (f : Z -> iodev_state -> outcome iodev_state) (n : nat) (id : Z) (s : iodev_state)
    : outcome iodev_state :=
  match n with
  | O => Done s
  | S n' =>
      d ← znth (iodevs s) id;
      s ← match d with
          | None => Done s
          | Some dev => if Z.land (dev_usage dev) USAGE_CONSOLE =? 0 then Done s else f id s
          end;
      for_console f n' (id + 1) s
  end.
Definition iodev_console_kick (s : iodev_state) : outcome iodev_state :=
  s ← iodev_console_write [] s; for_console iodev_handle_events (Z.to_nat IODEV_NUM) 0 s.
Definition iodev_console_flush (s : iodev_state) : outcome iodev_state :=
  for_console iodev_flush (Z.to_nat IODEV_NUM) 0 s.
End iodev.
Arguments iodev_ops W : clear implicits.
Arguments iodev W : clear implicits.
Arguments iodev_state W : clear implicits.

(** ** What the console relies on

    A console world can say which bytes each device has accepted so far and
    which received bytes wait in it. *)
Class ConsoleWorld (W : Type) : Type := {
  accepted : Z -> W -> list Z;
  pending : Z -> W -> list Z;
}.

(** Input only arrives. *)
Definition arrives {W} `{!ConsoleWorld W} (w w' : W) : Prop := forall j, exists more, pending j w' = pending j w ++ more.
(** A call on device [id] touches no other device's output and drops no input. *)
Definition only_dev {W} `{!ConsoleWorld W} (id : Z) (w w' : W) : Prop :=
  (forall j, j <> id -> accepted j w' = accepted j w) /\ arrives w w'.

(** The driver contract of one device: [write] takes a prefix of what it is
    given and appends it to the device's output; [can_write] and
    [handle_events] send nothing; [read] consumes from the front of the input
    when enough is there, and [can_read] sees whether there is any. *)
Record driver_ok {W} `{!ConsoleWorld W} (id opaque : Z) (o : iodev_ops W) : Prop := DriverOk {
  write_ok f bs w : op_write o = Some f ->
    exists ret w', f opaque bs w = Done (ret, w') /\ -1 <= ret <= zlen bs /\
      accepted id w' = accepted id w ++ take (Z.to_nat ret) bs /\ only_dev id w w';
  can_write_ok f w : op_can_write o = Some f ->
    exists b w', f opaque w = Done (b, w') /\ accepted id w' = accepted id w /\ only_dev id w w';
  handle_events_ok f w : op_handle_events o = Some f ->
    exists w', f opaque w = Done w' /\ accepted id w' = accepted id w /\ only_dev id w w';
  read_ok f n w : op_read o = Some f -> 0 <= n <= zlen (pending id w) ->
    exists w' more, f opaque n w = Done (n, take (Z.to_nat n) (pending id w), w') /\
      (forall j, accepted j w' = accepted j w) /\ pending id w' = drop (Z.to_nat n) (pending id w) ++ more;
}.

Section console_spec.
Context {W : Type} `{!ConsoleWorld W}.
Implicit Types s : iodev_state W.

Definition lock_ok (c : Z) (l : spinlock_t) : Prop := (lock l = -1 \/ lock l = c) /\ 0 <= count l.

(** A device of the console: its table is there, keeps the contract, and its
    lock is free or ours. *)
Definition dev_ok (c id : Z) (d : option (iodev W)) : Prop :=
  match d with
  | None => True
  | Some dev => lock_ok c (dev_lock dev) /\
                exists o, dev_ops dev = Some o /\ driver_ok id (dev_opaque dev) o
  end.
Definition devices_ok s : Prop :=
  zlen (iodevs s) = IODEV_NUM /\ zlen (con_rp s) = IODEV_NUM /\
  forall i d, iodevs s !! i = Some d -> dev_ok (cpu s) (Z.of_nat i) d.

(** What device calls leave alone: everything but locks and the world. *)
Definition same_table (d1 d2 : list (option (iodev W))) : Prop :=
  forall i : nat, option_map (option_map (fun d => (dev_ops d, dev_usage d, dev_opaque d))) (d1 !! i) =
            option_map (option_map (fun d => (dev_ops d, dev_usage d, dev_opaque d))) (d2 !! i).
Definition same_console s1 s2 : Prop :=
  con_buf s1 = con_buf s2 /\ con_wp s1 = con_wp s2 /\ con_rp s1 = con_rp s2 /\ in_iodev s1 = in_iodev s2 /\
  console_lock s1 = console_lock s2 /\ mmu_active s1 = mmu_active s2 /\ cpu s1 = cpu s2 /\
  same_table (iodevs s1) (iodevs s2).

Lemma same_console_refl s : same_console s s.
Proof. by repeat split. Qed.

Lemma same_console_trans s1 s2 s3 : same_console s1 s2 -> same_console s2 s3 -> same_console s1 s3.
Proof.
  intros (?&?&?&?&?&?&?&T1) (?&?&?&?&?&?&?&T2). repeat split; congruence.
Qed.

Lemma set_lock_ok s (id : Z) dev l :
  devices_ok s -> iodevs s !! Z.to_nat id = Some (Some dev) -> 0 <= id -> lock_ok (cpu s) l ->
  devices_ok (set_iodevs s (<[Z.to_nat id := Some (set_dev_lock dev l)]> (iodevs s))) /\
  same_console s (set_iodevs s (<[Z.to_nat id := Some (set_dev_lock dev l)]> (iodevs s))).
Proof.
  intros (Hn & Hr & Hd) Hdev Hid Hl. split; [split; [|split]|].
  - cbn. unfold zlen in *. by rewrite length_insert.
  - done.
  - intros i d Hi. cbn in Hi. apply list_lookup_insert_Some in Hi as [(<- & <- & _)|[_ Hi]]; [|by apply Hd].
    pose proof (Hd _ _ Hdev) as [_ H]. cbn. by split.
  - repeat split. intros i. cbn. destruct (decide (i = Z.to_nat id)) as [->|].
    + rewrite list_lookup_insert_eq by (by eapply lookup_lt_Some). by rewrite Hdev.
    + by rewrite list_lookup_insert_ne.
Qed.

Lemma spin_lock_ok c l : lock_ok c l -> exists l', spin_lock c l = Done l' /\ lock_ok c l' /\ 0 < count l' /\ count l' = count l + 1.
Proof.
  intros [Hl Hc]. unfold spin_lock, c_assert. exists (Spin c (count l + 1)). split.
  - destruct Hl as [Hl | Hl]; rewrite Hl; [done|]. by rewrite (Z.eqb_refl c), orb_true_r.
  - split; [split; cbn; [by right|lia]|cbn; lia].
Qed.

Lemma spin_unlock_ok c l : lock_ok c l -> 0 < count l -> exists l', spin_unlock l = Done l' /\ lock_ok c l' /\ count l' = count l - 1.
Proof.
  intros [Hl Hc] Hp. exists (Spin (lock l) (count l - 1)). unfold spin_unlock, c_assert. cbn. bdec.
  split; [done|split; [split; cbn; [done|lia]|done]].
Qed.

Lemma dev_locking_run (f : spinlock_t -> outcome spinlock_t) (id : Z) s dev l :
  0 <= id -> devices_ok s -> iodevs s !! Z.to_nat id = Some (Some dev) ->
  f (dev_lock dev) = Done l -> mmu_active s = true ->
  dev_locking f id s = Done (set_iodevs s (<[Z.to_nat id := Some (set_dev_lock dev l)]> (iodevs s))).
Proof.
  intros Hid (Hn & _) Hdev Hf Hm. unfold dev_locking. rewrite Hm.
  assert (znth (iodevs s) id = Done (Some dev)) as -> by (by apply znth_Done).
  cbn. rewrite Hf. cbn. rewrite zset_Done; [done|].
  apply lookup_lt_Some in Hdev. unfold zlen. lia.
Qed.

(** A present operation runs on the world and leaves the console alone. *)
Lemma call_op_spec {Op A} id (sel : iodev_ops W -> option Op) dflt (run : Op -> Z -> W -> outcome (A * W)) s dev o f a w' :
  0 <= id -> devices_ok s -> iodevs s !! Z.to_nat id = Some (Some dev) -> dev_ops dev = Some o -> sel o = Some f ->
  run f (dev_opaque dev) (world s) = Done (a, w') ->
  exists s', call_op id sel dflt run s = Done (a, s') /\ same_console s s' /\ devices_ok s' /\ world s' = w'.
Proof.
  intros Hid Hok Hdev Ho Hf Hrun. unfold call_op.
  assert (znth (iodevs s) id = Done (Some dev)) as -> by (by apply znth_Done).
  cbn. rewrite Ho. cbn. rewrite Hf. destruct (mmu_active s) eqn:Hm.
  - pose proof Hok as (_ & _ & Hd). destruct (Hd _ _ Hdev) as [Hl _].
    destruct (spin_lock_ok _ _ Hl) as (l1 & Hl1 & Hok1 & Hc1 & _).
    destruct (spin_unlock_ok _ _ Hok1 Hc1) as (l2 & Hl2 & Hok2 & _).
    rewrite (dev_locking_run _ _ _ _ l1), bind_Done by done. cbn [world set_iodevs]. rewrite Hrun, bind_Done.
    destruct (set_lock_ok s id dev l1 Hok Hdev Hid Hok1) as [Hd1 Hs1].
    set (s1 := set_iodevs s _) in *.
    assert (devices_ok (set_world s1 w')) as Hd1' by done.
    assert (iodevs (set_world s1 w') !! Z.to_nat id = Some (Some (set_dev_lock dev l1))) as Hdev1.
    { cbn. rewrite list_lookup_insert_eq; [done|]. by eapply lookup_lt_Some. }
    rewrite (dev_locking_run _ _ _ _ l2 Hid Hd1' Hdev1) by done. cbn [mbind outcome_bind].
    eexists. split; [done|]. destruct (set_lock_ok _ id _ l2 Hd1' Hdev1 Hid Hok2) as [Hd2 Hs2].
    split; [|split; [exact Hd2|done]]. eapply same_console_trans; [exact Hs1|].
    eapply same_console_trans; [|exact Hs2]. by repeat split.
  - assert (forall g, dev_locking g id s = Done s) as E by (intros; unfold dev_locking; by rewrite Hm).
    rewrite E, bind_Done, Hrun, bind_Done. unfold dev_locking. cbn. rewrite Hm. cbn.
    eexists. split; [done|]. split; [|split; [exact Hok|done]]. by repeat split.
Qed.

Lemma call_op_absent {Op A} id (sel : iodev_ops W -> option Op) dflt (run : Op -> Z -> W -> outcome (A * W)) s dev o :
  0 <= id -> iodevs s !! Z.to_nat id = Some (Some dev) -> dev_ops dev = Some o -> sel o = None ->
  call_op id sel dflt run s = dflt s.
Proof.
  intros Hid Hdev Ho Hf. unfold call_op.
  assert (znth (iodevs s) id = Done (Some dev)) as -> by (by apply znth_Done).
  cbn. rewrite Ho. cbn. by rewrite Hf.
Qed.

Lemma only_dev_refl id w : only_dev id w w.
Proof. split; [done|]. intros j. exists []. by rewrite app_nil_r. Qed.

Lemma arrives_trans w1 w2 w3 : arrives w1 w2 -> arrives w2 w3 -> arrives w1 w3.
Proof.
  intros H1 H2 j. destruct (H1 j) as [m1 E1], (H2 j) as [m2 E2]. exists (m1 ++ m2). by rewrite E2, E1, app_assoc.
Qed.

Lemma only_dev_trans id w1 w2 w3 : only_dev id w1 w2 -> only_dev id w2 w3 -> only_dev id w1 w3.
Proof.
  intros [H1 A1] [H2 A2]. split; [|by eapply arrives_trans]. intros j Hj. by rewrite H2, H1.
Qed.

(** [accepted] grows by [bs] for [id] and is unchanged for the others. *)
Definition sent (id : Z) (bs : list Z) (w w' : W) : Prop :=
  accepted id w' = accepted id w ++ bs /\ only_dev id w w'.

Lemma sent_nil id w : sent id [] w w.
Proof. split; [by rewrite app_nil_r|apply only_dev_refl]. Qed.

Lemma sent_trans id b1 b2 w1 w2 w3 : sent id b1 w1 w2 -> sent id b2 w2 w3 -> sent id (b1 ++ b2) w1 w3.
Proof.
  intros [H1 H1'] [H2 H2']. split; [by rewrite H2, H1, app_assoc|]. by eapply only_dev_trans.
Qed.

Lemma iodev_write_spec id bs s dev :
  0 <= id -> devices_ok s -> iodevs s !! Z.to_nat id = Some (Some dev) ->
  exists ret s', iodev_write id bs s = Done (ret, s') /\ -1 <= ret <= zlen bs /\
    same_console s s' /\ devices_ok s' /\ sent id (take (Z.to_nat ret) bs) (world s) (world s').
Proof.
  intros Hid Hok Hdev. pose proof Hok as (_ & _ & Hd). destruct (Hd _ _ Hdev) as (_ & o & Ho & Hdrv).
  rewrite Z2Nat.id in Hdrv by done. pose proof (zlen_nonneg bs). unfold iodev_write.
  destruct (op_write o) as [f|] eqn:Hf.
  - destruct (write_ok _ _ _ Hdrv f bs (world s) Hf) as (ret & w' & Hrun & Hret & Hacc).
    destruct (call_op_spec id op_write (fun s => Done (-1, s)) (fun f o w => f o bs w) s dev o f ret w') as (s' & Hc & Hsame & Hok' & Hw); [done..|].
    exists ret, s'. rewrite Hw. do 4 (split; [done|]). exact Hacc.
  - rewrite (call_op_absent _ _ _ _ _ dev o) by done. exists (-1), s.
    split; [done|]. split; [lia|]. split; [apply same_console_refl|]. split; [done|]. apply sent_nil.
Qed.

Lemma iodev_can_write_spec id s dev :
  0 <= id -> devices_ok s -> iodevs s !! Z.to_nat id = Some (Some dev) ->
  exists b s', iodev_can_write id s = Done (b, s') /\ same_console s s' /\ devices_ok s' /\
    sent id [] (world s) (world s').
Proof.
  intros Hid Hok Hdev. pose proof Hok as (_ & _ & Hd). destruct (Hd _ _ Hdev) as (_ & o & Ho & Hdrv).
  rewrite Z2Nat.id in Hdrv by done. unfold iodev_can_write.
  destruct (op_can_write o) as [f|] eqn:Hf.
  - destruct (can_write_ok _ _ _ Hdrv f (world s) Hf) as (b & w' & Hrun & Hacc & Hoth).
    destruct (call_op_spec id op_can_write (fun s => Done (false, s)) (fun f o w => f o w) s dev o f b w') as (s' & Hc & Hsame & Hok' & Hw); [done..|].
    exists b, s'. rewrite Hw. do 3 (split; [done|]). split; [by rewrite Hacc, app_nil_r|done].
  - rewrite (call_op_absent _ _ _ _ _ dev o) by done. exists false, s.
    split; [done|]. split; [apply same_console_refl|]. split; [done|]. apply sent_nil.
Qed.

(** ** Slices of the console stream *)
Definition slice (a b : Z) (l : list Z) : list Z := take (Z.to_nat (b - a)) (drop (Z.to_nat a) l).

Lemma slice_nil a l : slice a a l = [].
Proof. unfold slice. by rewrite Z.sub_diag. Qed.

Lemma slice_app a b c l : 0 <= a -> a <= b -> b <= c -> slice a b l ++ slice b c l = slice a c l.
Proof.
  intros. unfold slice. replace (Z.to_nat (c - a)) with (Z.to_nat (b - a) + Z.to_nat (c - b))%nat by lia.
  rewrite <- take_take_drop, drop_drop. do 3 f_equal. lia.
Qed.

Lemma take_slice n a b l : 0 <= n <= b - a -> take (Z.to_nat n) (slice a b l) = slice a (a + n) l.
Proof. intros. unfold slice. rewrite take_take. f_equal. lia. Qed.

Lemma zlen_slice a b l : 0 <= a -> a <= b <= zlen l -> zlen (slice a b l) = b - a.
Proof. intros. unfold slice, zlen in *. rewrite length_take, length_drop. lia. Qed.

Lemma slice_app_l a b l l' : 0 <= a -> b <= zlen l -> slice a b (l ++ l') = slice a b l.
Proof.
  intros. unfold slice, zlen in *. destruct (decide (a <= b)); [|by replace (Z.to_nat (b - a)) with O by lia].
  rewrite drop_app_le by lia. rewrite take_app_le; [done|]. rewrite length_drop. lia.
Qed.

Lemma slice_suffix n l p : slice (zlen l) (zlen l + n) (l ++ p) = take (Z.to_nat n) p.
Proof. unfold slice. rewrite to_nat_zlen, drop_app_length. f_equal. lia. Qed.

(** The ring holds the last [CONSOLE_BUFFER_SIZE] bytes of the stream. *)
Definition ring_holds (buf : list Z) (wp : Z) (stream : list Z) : Prop :=
  zlen buf = CONSOLE_BUFFER_SIZE /\ zlen stream = wp /\
  forall i, 0 <= i -> wp - CONSOLE_BUFFER_SIZE <= i < wp ->
    buf !! Z.to_nat (i mod CONSOLE_BUFFER_SIZE) = stream !! Z.to_nat i.

Lemma con_slice_spec s stream rp n :
  ring_holds (con_buf s) (con_wp s) stream ->
  0 <= rp -> con_wp s - CONSOLE_BUFFER_SIZE <= rp -> 0 <= n <= con_wp s - rp ->
  n <= CONSOLE_BUFFER_SIZE - rp mod CONSOLE_BUFFER_SIZE ->
  con_slice s (rp mod CONSOLE_BUFFER_SIZE) n = slice rp (rp + n) stream.
Proof.
  intros (Hb & Hw & Hr) H0 Hrp Hn Hblk. unfold con_slice, slice. replace (rp + n - rp) with n by lia.
  apply list_eq. intros i. destruct (decide (i < Z.to_nat n)%nat).
  - rewrite !lookup_take_lt by done. rewrite !lookup_drop.
    specialize (Hr (rp + Z.of_nat i) ltac:(lia) ltac:(lia)).
    replace (Z.to_nat rp + i)%nat with (Z.to_nat (rp + Z.of_nat i)) by lia. rewrite <- Hr. f_equal.
    unfold CONSOLE_BUFFER_SIZE in *. lia.
  - by rewrite !lookup_take_ge by lia.
Qed.

(** ** The two write loops *)
Lemma set_rp_spec id v s :
  0 <= id -> devices_ok s -> id < IODEV_NUM ->
  set_rp id v s = Done (set_rp_list s (<[Z.to_nat id := v]> (con_rp s))) /\
  devices_ok (set_rp_list s (<[Z.to_nat id := v]> (con_rp s))).
Proof.
  intros Hid (Hn & Hr & Hd) Hlt. unfold set_rp. rewrite zset_Done by lia. split; [done|].
  split; [done|split; [|done]]. cbn. unfold zlen in *. by rewrite length_insert.
Qed.

Lemma znth_rp s id rp : 0 <= id -> con_rp s !! Z.to_nat id = Some rp -> znth (con_rp s) id = Done rp.
Proof. intros. by apply znth_Done. Qed.

Lemma same_console_dev s s' (i : nat) dev :
  same_console s s' -> iodevs s !! i = Some (Some dev) ->
  exists dev', iodevs s' !! i = Some (Some dev') /\ dev_usage dev' = dev_usage dev.
Proof.
  intros (_&_&_&_&_&_&_&T) H. specialize (T i). rewrite H in T. cbn in T.
  destruct (iodevs s' !! i) as [[dev'|]|]; try done. cbn in T. injection T as _ Hu _. by exists dev'.
Qed.

Lemma same_console_rp s s' r : same_console s s' -> same_console (set_rp_list s r) (set_rp_list s' r).
Proof. intros (?&?&?&?&?&?&?&?). by repeat split. Qed.

Lemma same_console_rp_insert s s' i v w :
  same_console (set_rp_list s (<[i := v]> (con_rp s))) s' ->
  same_console (set_rp_list s (<[i := w]> (con_rp s))) (set_rp_list s' (<[i := w]> (con_rp s'))).
Proof.
  intros H. pose proof H as (_&_&Hrp&_). cbn in Hrp. rewrite <- Hrp, list_insert_insert_eq.
  by apply (same_console_rp _ _ (<[i := w]> (con_rp s))) in H.
Qed.

Lemma same_console_rp_id s i rp : con_rp s !! i = Some rp -> same_console (set_rp_list s (<[i := rp]> (con_rp s))) s.
Proof. intros H. rewrite list_insert_id by done. by repeat split. Qed.

Lemma flush_loop_spec fuel id dev s stream rp :
  0 <= id < IODEV_NUM -> devices_ok s -> iodevs s !! Z.to_nat id = Some (Some dev) ->
  ring_holds (con_buf s) (con_wp s) stream -> con_rp s !! Z.to_nat id = Some rp ->
  0 <= rp -> con_wp s - CONSOLE_BUFFER_SIZE <= rp <= con_wp s -> con_wp s < 2 ^ 32 ->
  con_wp s - rp < Z.of_nat fuel ->
  exists go s' rp', flush_loop fuel id s = Done (go, s') /\ rp <= rp' <= con_wp s /\
    (go = true -> rp' = con_wp s) /\
    same_console (set_rp_list s (<[Z.to_nat id := rp']> (con_rp s))) s' /\ devices_ok s' /\
    sent id (slice rp rp' stream) (world s) (world s').
Proof.
  revert s dev rp. induction fuel as [|fuel IH]; intros s dev rp Hid Hok Hdev Hring Hrp H0 Hb Hw Hf; [lia|].
  cbn [flush_loop]. rewrite (znth_rp _ _ rp) by (done || lia). rewrite bind_Done.
  destruct (decide (rp = con_wp s)) as [Hend|].
  { exists true, s, rp. bdec. rewrite slice_nil. do 3 (split; [done || lia|]).
    split; [by apply same_console_rp_id|]. split; [done|]. apply sent_nil. }
  bdec. set (block := Z.min _ _).
  assert (0 < block <= con_wp s - rp) by (unfold block, CONSOLE_BUFFER_SIZE; lia).
  rewrite (con_slice_spec s stream) by (done || unfold block, CONSOLE_BUFFER_SIZE in *; lia).
  destruct (iodev_write_spec id (slice rp (rp + block) stream) s dev) as (ret & s1 & -> & Hret & Hsame & Hok1 & Hs1); [lia|done..|].
  rewrite bind_Done. pose proof Hring as (_ & Hlen & _).
  rewrite zlen_slice in Hret by lia.
  destruct (decide (ret <= 0)).
  { exists false, s1, rp. bdec. rewrite slice_nil. replace (Z.to_nat ret) with O in Hs1 by lia.
    do 3 (split; [done || lia|]). split; [|by split].
    rewrite list_insert_id by done. by destruct Hsame as (?&?&?&?&?&?&?&?). }
  bdec. rewrite take_slice in Hs1 by lia.
  pose proof Hsame as (Hcb & Hwp & Hcrp & _).
  rewrite (znth_rp s1 _ rp) by (rewrite <- ?Hcrp; done || lia). rewrite bind_Done, u32_small by lia.
  destruct (set_rp_spec id (rp + ret) s1) as [-> Hok2]; [lia|done|lia|]. rewrite bind_Done.
  set (s2 := set_rp_list s1 _) in *.
  destruct (same_console_dev s s1 _ _ Hsame Hdev) as (dev1 & Hdev1 & _).
  destruct (IH s2 dev1 (rp + ret)) as (go & s' & rp' & Hrun & Hrp' & Hgo & Hsame' & Hok' & Hs'); cbn.
  - done.
  - done.
  - done.
  - by rewrite <- Hcb, <- Hwp.
  - rewrite list_lookup_insert_eq; [done|]. rewrite <- Hcrp. by eapply lookup_lt_Some.
  - lia.
  - lia.
  - lia.
  - lia.
  - exists go, s', rp'. cbn in *. rewrite <- Hwp in *. split; [done|]. split; [lia|]. split; [done|].
    split; [|split; [done|]].
    + eapply same_console_trans; [|exact Hsame']. rewrite list_insert_insert_eq, <- Hcrp.
      apply (same_console_rp _ _ (<[Z.to_nat id := rp']> (con_rp s))) in Hsame. exact Hsame.
    + rewrite <- (slice_app rp (rp + ret) rp') by lia. by eapply sent_trans.
Qed.

Lemma current_loop_spec fuel id dev s p rp :
  0 <= id < IODEV_NUM -> devices_ok s -> iodevs s !! Z.to_nat id = Some (Some dev) ->
  con_rp s !! Z.to_nat id = Some rp -> 0 <= rp -> rp + zlen p < 2 ^ 32 -> (length p <= fuel)%nat ->
  exists s' n, current_loop fuel id p s = Done s' /\ 0 <= n <= zlen p /\
    same_console (set_rp_list s (<[Z.to_nat id := rp + n]> (con_rp s))) s' /\ devices_ok s' /\
    sent id (take (Z.to_nat n) p) (world s) (world s').
Proof.
  revert s dev p rp. induction fuel as [|fuel IH]; intros s dev p rp Hid Hok Hdev Hrp H0 Hw Hf;
    (destruct p as [|c p]; [exists s, 0; rewrite Z.add_0_r; split; [done|]; split; [done|]; split; [by apply same_console_rp_id|];
                            split; [done|]; apply sent_nil|]); [cbn in Hf; lia|].
  cbn [current_loop]. set (q := c :: p) in *.
  destruct (iodev_write_spec id q s dev) as (ret & s1 & -> & Hret & Hsame & Hok1 & Hs1); [lia|done..|].
  rewrite bind_Done. pose proof (zlen_nonneg q).
  destruct (decide (ret <= 0)).
  { bdec. exists s1, 0. rewrite Z.add_0_r. replace (Z.to_nat ret) with O in Hs1 by lia. split; [done|]. split; [lia|].
    split; [|by split]. rewrite list_insert_id by done. by destruct Hsame as (?&?&?&?&?&?&?&?). }
  bdec. pose proof Hsame as (_ & Hwp & Hcrp & _).
  rewrite (znth_rp s1 _ rp) by (rewrite <- ?Hcrp; done || lia). rewrite bind_Done, u32_small by lia.
  destruct (set_rp_spec id (rp + ret) s1) as [-> Hok2]; [lia|done|lia|]. rewrite bind_Done.
  destruct (same_console_dev s s1 _ _ Hsame Hdev) as (dev1 & Hdev1 & _).
  assert (zlen (drop (Z.to_nat ret) q) = zlen q - ret) as Hdr by (unfold zlen in *; rewrite length_drop; lia).
  destruct (IH (set_rp_list s1 (<[Z.to_nat id := rp + ret]> (con_rp s1))) dev1 (drop (Z.to_nat ret) q) (rp + ret))
    as (s' & n' & Hrun & Hn' & Hsame' & Hok' & Hs'); cbn [con_rp set_rp_list iodevs world] in *.
  - done.
  - done.
  - done.
  - rewrite list_lookup_insert_eq; [done|]. rewrite <- Hcrp. by eapply lookup_lt_Some.
  - lia.
  - lia.
  - unfold zlen in *. lia.
  - exists s', (ret + n'). split; [done|]. split; [lia|]. split; [|split; [done|]].
    + eapply same_console_trans; [|exact Hsame']. rewrite Z.add_assoc. rewrite list_insert_insert_eq, <- Hcrp.
      apply (same_console_rp _ _ (<[Z.to_nat id := rp + ret + n']> (con_rp s))) in Hsame. exact Hsame.
    + replace (Z.to_nat (ret + n')) with (Z.to_nat ret + Z.to_nat n')%nat by lia.
      rewrite <- take_take_drop. by eapply sent_trans.
Qed.

(** ** One device, all devices *)

(** What one call with [stream'] the console stream after it does to a device
    that had read up to [rp] and received [out]. *)
Definition delivered (d : option (iodev W)) (wp rp rp' : Z) (stream' out out' : list Z) : Prop :=
  match d with
  | None => rp' = rp /\ out' = out
  | Some dev =>
      if Z.land (dev_usage dev) USAGE_CONSOLE =? 0 then rp' = zlen stream' /\ out' = out
      else exists a, (a = rp \/ a = Z.max (wp - CONSOLE_BUFFER_SIZE) rp) /\ a <= rp' <= zlen stream' /\
                     out' = out ++ slice a rp' stream'
  end.

Lemma console_device_spec id d buf s stream rp :
  0 <= id < IODEV_NUM -> devices_ok s -> iodevs s !! Z.to_nat id = Some d ->
  ring_holds (con_buf s) (con_wp s) stream -> con_rp s !! Z.to_nat id = Some rp ->
  0 <= rp <= con_wp s -> con_wp s + zlen buf < 2 ^ 32 ->
  exists s' rp', console_device id buf s = Done s' /\
    same_console (set_rp_list s (<[Z.to_nat id := rp']> (con_rp s))) s' /\ devices_ok s' /\ 0 <= rp' /\
    delivered d (con_wp s) rp rp' (stream ++ buf) (accepted id (world s)) (accepted id (world s')) /\
    only_dev id (world s) (world s').
Proof.
  intros Hid Hok Hdev Hring Hrp Hb Hw. pose proof (zlen_nonneg buf).
  pose proof Hring as (_ & Hlen & _). unfold console_device.
  assert (znth (iodevs s) id = Done d) as -> by (apply znth_Done; split; [lia|done]). rewrite bind_Done.
  destruct d as [dev|]; cbn [delivered].
  2: { exists s, rp. split; [done|]. split; [by apply same_console_rp_id|].
       split; [done|]. split; [lia|]. split; [by split|apply only_dev_refl]. }
  destruct (Z.land (dev_usage dev) USAGE_CONSOLE =? 0).
  { rewrite u32_small by lia. destruct (set_rp_spec id (con_wp s + zlen buf) s) as [-> Hok2]; [lia|done|lia|].
    exists (set_rp_list s (<[Z.to_nat id := con_wp s + zlen buf]> (con_rp s))), (con_wp s + zlen buf).
    rewrite zlen_app. split; [done|]. split; [apply same_console_refl|].
    split; [done|]. split; [lia|]. split; [split; [lia|done]|apply only_dev_refl]. }
  destruct (iodev_can_write_spec id s dev) as (b & s1 & -> & Hsame1 & Hok1 & Hs1); [lia|done..|].
  rewrite bind_Done. pose proof Hsame1 as (Hcb & Hwp & Hcrp & _).
  destruct Hs1 as [Hs1 Hs1']. rewrite app_nil_r in Hs1.
  destruct b; cbn [negb].
  2: { exists s1, rp. split; [done|]. split; [|split; [done|]].
       { eapply same_console_trans; [|exact Hsame1]. by apply same_console_rp_id. }
       split; [lia|]. split; [|done]. exists rp. rewrite slice_nil, app_nil_r, zlen_app. split; [by left|]. split; [lia|done]. }
  rewrite (znth_rp s1 _ rp) by (rewrite <- ?Hcrp; done || lia). rewrite bind_Done, <- Hwp.
  set (rp0 := if CONSOLE_BUFFER_SIZE <? con_wp s then Z.max (con_wp s - CONSOLE_BUFFER_SIZE) rp else rp).
  destruct (set_rp_spec id rp0 s1) as [Hset Hok2]; [lia|done|lia|].
  set (s2 := set_rp_list s1 (<[Z.to_nat id := rp0]> (con_rp s1))) in *.
  assert (exists s2', (if CONSOLE_BUFFER_SIZE <? con_wp s
          then set_rp id (Z.max (con_wp s - CONSOLE_BUFFER_SIZE) rp) s1 else Done s1) = Done s2' /\
          same_console (set_rp_list s (<[Z.to_nat id := rp0]> (con_rp s))) s2' /\ devices_ok s2' /\ world s2' = world s1) as
    (s2' & -> & Hsame2 & Hok2' & Hw2).
  { unfold rp0 in *. destruct (CONSOLE_BUFFER_SIZE <? con_wp s).
    - exists s2. rewrite Hset. split; [done|]. split; [|done]. unfold s2. rewrite <- Hcrp. by apply same_console_rp.
    - exists s1. split; [done|]. split; [|done]. eapply same_console_trans; [|exact Hsame1]. by apply same_console_rp_id. }
  rewrite bind_Done. clearbody s2. clear Hset Hok2 s2. rename s2' into s2.
  assert (rp0 = rp \/ rp0 = Z.max (con_wp s - CONSOLE_BUFFER_SIZE) rp) as Hrp0 by (unfold rp0; case_if; auto).
  assert (con_wp s - CONSOLE_BUFFER_SIZE <= rp0 <= con_wp s /\ 0 <= rp0) as [Hb0 Hb0'].
  { unfold rp0, CONSOLE_BUFFER_SIZE in *. case_if; b2p; lia. }
  clearbody rp0. pose proof Hsame2 as (Hcb2 & Hwp2 & Hcrp2 & _). cbn [con_buf con_wp con_rp set_rp_list] in *.
  destruct (same_console_dev (set_rp_list s (<[Z.to_nat id := rp0]> (con_rp s))) s2 _ _ Hsame2 Hdev) as (dev2 & Hdev2 & _).
  assert (con_rp s2 !! Z.to_nat id = Some rp0) as Hrp2.
  { rewrite <- Hcrp2, list_lookup_insert_eq; [done|]. by eapply lookup_lt_Some. }
  destruct (flush_loop_spec (S (Z.to_nat (con_wp s2))) id dev2 s2 stream rp0)
    as (go & s3 & rp3 & -> & Hrp3 & Hgo & Hsame3 & Hok3 & Hs3); [done|done|done|by rewrite <- Hcb2, <- Hwp2|done|lia..|].
  rewrite bind_Done. rewrite <- Hwp2 in *. destruct Hs3 as [Hs3 Hs3'].
  assert (same_console (set_rp_list s (<[Z.to_nat id := rp3]> (con_rp s))) s3) as Hsame3'.
  { eapply same_console_trans; [|exact Hsame3].
    by apply (same_console_rp_insert _ _ _ _ rp3) in Hsame2. }
  destruct go; cbn iota.
  - specialize (Hgo eq_refl). subst rp3. pose proof Hsame3' as (_ & _ & Hcrp3 & _). cbn [con_rp set_rp_list] in Hcrp3.
    destruct (same_console_dev (set_rp_list s (<[Z.to_nat id := con_wp s]> (con_rp s))) s3 _ _ Hsame3' Hdev) as (dev3 & Hdev3 & _).
    destruct (current_loop_spec (length buf) id dev3 s3 buf (con_wp s)) as (s' & n & -> & Hn & Hsame4 & Hok4 & Hs4 & Hs4');
      [done|done|done| |lia|lia|lia|].
    { rewrite <- Hcrp3, list_lookup_insert_eq; [done|]. by eapply lookup_lt_Some. }
    exists s', (con_wp s + n). split; [done|]. split; [|split; [done|split; [lia|split]]].
    + eapply same_console_trans; [|exact Hsame4]. by apply (same_console_rp_insert _ _ _ _ (con_wp s + n)) in Hsame3'.
    + exists rp0. rewrite zlen_app. split; [done|]. split; [lia|]. rewrite Hs4, Hs3, Hw2, Hs1, <- app_assoc. f_equal.
      rewrite <- (slice_app rp0 (con_wp s) (con_wp s + n)) by lia. rewrite slice_app_l by lia. f_equal.
      rewrite <- Hlen. symmetry. apply slice_suffix.
    + rewrite Hw2 in Hs3'. by eauto using only_dev_trans.
  - exists s3, rp3. split; [done|]. split; [done|]. split; [done|]. split; [lia|]. split.
    + exists rp0. rewrite zlen_app. split; [done|]. split; [lia|]. rewrite Hs3, Hw2, Hs1. f_equal.
      rewrite slice_app_l by lia. done.
    + rewrite Hw2 in Hs3'. by eauto using only_dev_trans.
Qed.

Lemma same_console_delivered s s' i d :
  same_console s s' -> iodevs s !! i = Some d ->
  exists d', iodevs s' !! i = Some d' /\
    forall wp rp rp' st o o', delivered d' wp rp rp' st o o' -> delivered d wp rp rp' st o o'.
Proof.
  intros (_&_&_&_&_&_&_&T) H. specialize (T i). rewrite H in T. cbn in T.
  destruct (iodevs s' !! i) as [d'|]; [|done]. cbn in T. exists d'. split; [done|].
  destruct d as [dev|], d' as [dev'|]; try done. cbn in T. injection T as _ Hu _. cbn [delivered]. by rewrite Hu.
Qed.

Lemma console_devices_spec n id buf s stream :
  0 <= id -> id + Z.of_nat n <= IODEV_NUM -> devices_ok s ->
  ring_holds (con_buf s) (con_wp s) stream -> con_wp s + zlen buf < 2 ^ 32 ->
  (forall (i : nat) rp, id <= Z.of_nat i -> con_rp s !! i = Some rp -> 0 <= rp <= con_wp s) ->
  exists s', console_devices n id buf s = Done s' /\
    same_console (set_rp_list s (con_rp s')) s' /\ devices_ok s' /\ arrives (world s) (world s') /\
    forall (i : nat) d rp, iodevs s !! i = Some d -> con_rp s !! i = Some rp ->
      exists rp', con_rp s' !! i = Some rp' /\
        if (id <=? Z.of_nat i) && (Z.of_nat i <? id + Z.of_nat n)
        then 0 <= rp' /\ delivered d (con_wp s) rp rp' (stream ++ buf) (accepted (Z.of_nat i) (world s)) (accepted (Z.of_nat i) (world s'))
        else rp' = rp /\ accepted (Z.of_nat i) (world s') = accepted (Z.of_nat i) (world s).
Proof.
  revert id s. induction n as [|n IH]; intros id s Hid Hn Hok Hring Hw Hrps; cbn [console_devices].
  { exists s. split; [done|]. split; [by repeat split|]. split; [done|]. split; [apply (only_dev_refl 0)|]. intros i d rp _ Hrp. exists rp.
    split; [done|]. case_if; b2p; [lia|done]. }
  pose proof Hok as (Hl1 & Hl2 & _). unfold zlen in Hl1, Hl2.
  destruct (lookup_lt_is_Some_2 (iodevs s) (Z.to_nat id)) as [d Hd]; [lia|].
  destruct (lookup_lt_is_Some_2 (con_rp s) (Z.to_nat id)) as [rp Hrp]; [lia|].
  destruct (console_device_spec id d buf s stream rp) as (s1 & rp1 & -> & Hsame1 & Hok1 & Hrp1 & Hdel & Hoth & Harr);
    [lia|done|done|done|done|apply (Hrps (Z.to_nat id)); [lia|done]|done|].
  rewrite bind_Done. pose proof Hsame1 as (Hcb & Hwp & Hcrp & _). cbn [con_buf con_wp con_rp set_rp_list] in Hcb, Hwp, Hcrp.
  destruct (IH (id + 1) s1) as (s' & -> & Hsame' & Hok' & Harr' & Hall); [lia|lia|done|by rewrite <- Hcb, <- Hwp|by rewrite <- Hwp| |].
  { intros i rpi Hi. rewrite <- Hcrp, <- Hwp, list_lookup_insert_ne by lia. apply Hrps. lia. }
  exists s'. split; [done|]. split; [|split; [done|split; [by eapply arrives_trans|]]].
  { eapply same_console_trans; [|exact Hsame']. by apply (same_console_rp _ _ (con_rp s')) in Hsame1. }
  intros i di rpi Hdi Hrpi.
  assert (iodevs (set_rp_list s (<[Z.to_nat id := rp1]> (con_rp s))) !! i = Some di) as Hdi1 by done.
  destruct (same_console_delivered _ _ _ _ Hsame1 Hdi1) as (d1 & Hd1 & Hconv).
  destruct (decide (i = Z.to_nat id)) as [->|Hne].
  - rewrite Hd in Hdi. rewrite Hrp in Hrpi. simplify_eq.
    destruct (Hall (Z.to_nat id) d1 rp1 Hd1) as (rp' & Hrp' & Hrest).
    { rewrite <- Hcrp, list_lookup_insert_eq; [done|]. by eapply lookup_lt_Some. }
    exists rp'. split; [done|]. revert Hrest. case_if; b2p; [lia|]. intros [-> Hacc]. bdec. rewrite Z2Nat.id in * by lia.
    rewrite Hacc. split; [lia|done].
  - destruct (Hall i d1 rpi Hd1) as (rp' & Hrp' & Hrest).
    { rewrite <- Hcrp, list_lookup_insert_ne by done. done. }
    exists rp'. split; [done|]. rewrite <- Hwp, (Hoth (Z.of_nat i)) in Hrest by lia.
    destruct (decide (id <= Z.of_nat i)); [destruct (decide (Z.of_nat i < id + Z.of_nat (S n)))|].
    + revert Hrest. bdec. intros [? ?]. split; [lia|]. by apply Hconv.
    + revert Hrest. bdec. done.
    + revert Hrest. bdec. done.
Qed.

(** ** Storing the text in the ring *)

(** The ring holds the stream from position [lo] on. *)
Definition ring_part (lo : Z) (buf : list Z) (wp : Z) (stream : list Z) : Prop :=
  zlen buf = CONSOLE_BUFFER_SIZE /\ zlen stream = wp /\
  forall i, lo <= i -> 0 <= i -> wp - CONSOLE_BUFFER_SIZE <= i < wp ->
    buf !! Z.to_nat (i mod CONSOLE_BUFFER_SIZE) = stream !! Z.to_nat i.

Lemma zlen_splice l start bs :
  0 <= start -> start + zlen bs <= zlen l -> zlen (splice l start bs) = zlen l.
Proof. intros. unfold splice, zlen in *. rewrite !length_app, length_take, length_drop. lia. Qed.

Lemma lookup_splice l start bs j :
  0 <= start -> start + zlen bs <= zlen l -> 0 <= j < zlen l ->
  splice l start bs !! Z.to_nat j =
    if (start <=? j) && (j <? start + zlen bs) then bs !! Z.to_nat (j - start) else l !! Z.to_nat j.
Proof.
  intros Hs Hl Hj. unfold splice, zlen in *.
  destruct (decide (j < start)); [|destruct (decide (j < start + Z.of_nat (length bs)))]; bdec.
  - rewrite lookup_app_l by (rewrite length_take; lia). apply lookup_take_lt. lia.
  - rewrite lookup_app_r by (rewrite length_take; lia). rewrite length_take, lookup_app_l by lia. f_equal. lia.
  - rewrite lookup_app_r by (rewrite length_take; lia). rewrite length_take, lookup_app_r by lia.
    rewrite lookup_drop. f_equal. lia.
Qed.

Lemma ring_part_step lo buf wp stream bs :
  ring_part lo buf wp stream -> 0 <= wp -> zlen bs <= CONSOLE_BUFFER_SIZE - wp mod CONSOLE_BUFFER_SIZE ->
  ring_part lo (splice buf (wp mod CONSOLE_BUFFER_SIZE) bs) (wp + zlen bs) (stream ++ bs).
Proof.
  intros (Hb & Hw & Hr) H0 Hl. pose proof (zlen_nonneg bs). unfold ring_part, CONSOLE_BUFFER_SIZE in *.
  split; [rewrite zlen_splice; lia|]. split; [rewrite zlen_app; lia|]. intros i Hlo Hi Hrange.
  rewrite lookup_splice by lia. destruct (decide (wp <= i)).
  - replace (i mod 8192) with (wp mod 8192 + (i - wp)) by lia. bdec.
    rewrite lookup_app_r by (unfold zlen in *; lia). f_equal. unfold zlen in *. lia.
  - rewrite lookup_app_l by (unfold zlen in *; lia). rewrite <- Hr by lia.
    destruct (decide (wp mod 8192 <= i mod 8192)); [|bdec; done].
    assert (wp mod 8192 + zlen bs <= i mod 8192) by lia. bdec. done.
Qed.

Lemma store_loop_spec lo fuel p s stream :
  ring_part lo (con_buf s) (con_wp s) stream -> 0 <= con_wp s -> con_wp s + zlen p < 2 ^ 32 -> (length p <= fuel)%nat ->
  exists buf', store_loop fuel p s = Done (set_con s buf' (con_wp s + zlen p)) /\
               ring_part lo buf' (con_wp s + zlen p) (stream ++ p).
Proof.
  revert p s stream. induction fuel as [|fuel IH]; intros p s stream Hr H0 Hw Hf.
  - destruct p; [|cbn in Hf; lia]. exists (con_buf s). rewrite zlen_nil, Z.add_0_r, app_nil_r. by destruct s.
  - destruct p as [|c p].
    { exists (con_buf s). rewrite zlen_nil, Z.add_0_r, app_nil_r. by destruct s. }
    cbn [store_loop]. set (q := c :: p) in *. set (block := Z.min _ _).
    assert (1 <= zlen q) by (unfold q; rewrite zlen_cons; pose proof (zlen_nonneg p); lia).
    assert (0 < block <= zlen q /\ block <= CONSOLE_BUFFER_SIZE - con_wp s mod CONSOLE_BUFFER_SIZE).
    { unfold block, CONSOLE_BUFFER_SIZE. lia. }
    assert (zlen (take (Z.to_nat block) q) = block) as Hbl by (unfold zlen in *; rewrite length_take; lia).
    assert (zlen (drop (Z.to_nat block) q) = zlen q - block) as Hdl by (unfold zlen in *; rewrite length_drop; lia).
    rewrite u32_small by lia.
    pose proof (ring_part_step _ _ _ _ (take (Z.to_nat block) q) Hr H0 ltac:(lia)) as Hr'. rewrite Hbl in Hr'.
    destruct (IH (drop (Z.to_nat block) q) (set_con s (splice (con_buf s) (con_wp s mod CONSOLE_BUFFER_SIZE) (take (Z.to_nat block) q)) (con_wp s + block)) _ Hr')
      as (buf' & Hrun & Hr''); cbn [con_wp con_buf set_con] in *; [lia|lia|unfold zlen in *; lia|].
    exists buf'. rewrite Hdl, <- app_assoc, take_drop in *. replace (con_wp s + zlen q) with (con_wp s + block + (zlen q - block)) by lia.
    split; [|done]. exact Hrun.
Qed.

Lemma console_store_spec p s stream :
  ring_holds (con_buf s) (con_wp s) stream -> con_wp s + zlen p < 2 ^ 32 ->
  exists buf', console_store p s = Done (set_con s buf' (con_wp s + zlen p)) /\
               ring_holds buf' (con_wp s + zlen p) (stream ++ p).
Proof.
  intros (Hb & Hl & Hr) Hw. pose proof (zlen_nonneg stream). unfold console_store. case_if; b2p.
  - set (skip := zlen p - CONSOLE_BUFFER_SIZE).
    assert (zlen (take (Z.to_nat skip) p) = skip /\ zlen (drop (Z.to_nat skip) p) = CONSOLE_BUFFER_SIZE) as [Ht Hd].
    { unfold skip, CONSOLE_BUFFER_SIZE, zlen in *. rewrite length_take, length_drop. lia. }
    unfold CONSOLE_BUFFER_SIZE in *. rewrite u32_small by lia.
    destruct (store_loop_spec (con_wp s + skip) (length p) (drop (Z.to_nat skip) p) (set_con s (con_buf s) (con_wp s + skip)) (stream ++ take (Z.to_nat skip) p))
      as (buf' & Hrun & Hr'); cbn [con_wp con_buf set_con] in *.
    + split; [done|]. split; [rewrite zlen_app; lia|]. lia.
    + lia.
    + lia.
    + rewrite length_drop. lia.
    + exists buf'. rewrite <- app_assoc, take_drop in Hr'.
      replace (con_wp s + skip + zlen (drop (Z.to_nat skip) p)) with (con_wp s + zlen p) in * by lia.
      split; [exact Hrun|]. destruct Hr' as (? & ? & Hr'). split; [done|]. split; [done|]. intros i Hi Hrange.
      apply Hr'; unfold CONSOLE_BUFFER_SIZE in *; lia.
  - destruct (store_loop_spec 0 (length p) p s stream) as (buf' & Hrun & Hr'); [|lia|lia|lia|].
    + split; [done|]. split; [done|]. intros i _. apply Hr.
    + exists buf'. split; [done|]. destruct Hr' as (? & ? & Hr'). split; [done|]. split; [done|]. intros i Hi.
      by apply Hr'.
Qed.

(** ** The console invariant *)
Definition con_inv s (stream : list Z) : Prop :=
  in_iodev s = 0 /\ lock_ok (cpu s) (console_lock s) /\ devices_ok s /\
  ring_holds (con_buf s) (con_wp s) stream /\
  forall (i : nat) rp, con_rp s !! i = Some rp -> 0 <= rp <= con_wp s.

(** One console call, with what it leaves alone. *)
Lemma console_write_run s (stream buf : list Z) :
  con_inv s stream -> zlen stream + zlen buf < 2 ^ 32 ->
  exists s', iodev_console_write buf s = Done s' /\ con_inv s' (stream ++ buf) /\
    (forall (i : nat) d rp, iodevs s !! i = Some d -> con_rp s !! i = Some rp ->
      exists rp', con_rp s' !! i = Some rp' /\
        delivered d (con_wp s) rp rp' (stream ++ buf)
          (accepted (Z.of_nat i) (world s)) (accepted (Z.of_nat i) (world s'))) /\
    same_table (iodevs s) (iodevs s') /\ arrives (world s) (world s') /\ mmu_active s' = mmu_active s /\
    cpu s' = cpu s /\ count (console_lock s') = count (console_lock s).
Proof.
  intros (Hin & Hlk & Hok & Hring & Hrps) Hw. pose proof Hring as (_ & Hlen & _). pose proof (zlen_nonneg buf).
  unfold iodev_console_write, is_boot_cpu. rewrite andb_false_r.
  assert (exists l1, console_locking (spin_lock (cpu s)) (mmu_active s) s = Done (set_console_lock s l1) /\
            lock_ok (cpu s) l1 /\ (mmu_active s = true -> 0 < count l1) /\
            count l1 = count (console_lock s) + (if mmu_active s then 1 else 0)) as (l1 & -> & Hl1 & Hc1 & Hn1).
  { unfold console_locking. destruct (mmu_active s).
    - destruct (spin_lock_ok _ _ Hlk) as (l1 & -> & ? & ? & ?). by exists l1.
    - exists (console_lock s). rewrite Z.add_0_r. by destruct s. }
  rewrite bind_Done. cbn [in_iodev set_console_lock]. rewrite Hin. change (negb (0 =? 0)) with false. cbn iota.
  set (s0 := set_in_iodev _ _).
  destruct (console_devices_spec (Z.to_nat IODEV_NUM) 0 buf s0 stream) as (s1 & -> & Hsame & Hok1 & Harr & Hall);
    [lia|done|done|done|cbn; lia|intros; by eapply Hrps|].
  rewrite bind_Done. pose proof Hsame as (Hcb & Hwp & Hcrp & Hin1 & Hcl & Hmmu & Hcpu & Htab).
  cbn [con_buf con_wp con_rp in_iodev console_lock mmu_active cpu set_rp_list s0 set_in_iodev set_console_lock] in Hcb, Hwp, Hcrp, Hin1, Hcl, Hmmu, Hcpu, Htab.
  destruct (console_store_spec buf s1 stream) as (buf' & -> & Hring'); [by rewrite <- Hcb, <- Hwp|lia|].
  rewrite bind_Done, <- Hwp in *.
  assert (forall (i : nat) d rp, iodevs s !! i = Some d -> con_rp s !! i = Some rp ->
      exists rp', con_rp s1 !! i = Some rp' /\ 0 <= rp' /\
        delivered d (con_wp s) rp rp' (stream ++ buf)
          (accepted (Z.of_nat i) (world s)) (accepted (Z.of_nat i) (world s1))) as Hdel.
  { intros i d rp Hd Hrp. destruct (Hall i d rp Hd Hrp) as (rp' & Hrp' & Hx). exists rp'. split; [done|].
    destruct Hok as (Hn & _). apply lookup_lt_Some in Hd. unfold zlen, IODEV_NUM in *. revert Hx. bdec. done. }
  set (s2 := set_in_iodev _ _).
  assert (exists l2, console_locking spin_unlock (mmu_active s) s2 = Done (set_console_lock s2 l2) /\ lock_ok (cpu s) l2 /\
            count l2 = count (console_lock s)) as (l2 & -> & Hl2 & Hn2).
  { unfold console_locking. cbn [console_lock s2 set_in_iodev set_con]. rewrite <- Hcl. destruct (mmu_active s).
    - destruct (spin_unlock_ok _ _ Hl1 (Hc1 eq_refl)) as (l2 & -> & ? & ?). exists l2. split; [done|]. split; [done|lia].
    - exists l1. split; [|split; [done|lia]]. unfold s2, set_console_lock. cbn. by rewrite Hcl. }
  eexists. split; [done|]. split; [|split; [|repeat split; [exact Htab|exact Harr|by symmetry|by symmetry|exact Hn2]]].
  2: { intros i d rp Hd Hrp. destruct (Hdel i d rp Hd Hrp) as (rp' & ? & _ & ?). by exists rp'. }
  split; [cbn; lia|]. split; [cbn; by rewrite <- Hcpu|]. split; [done|]. split; [done|].
  intros i rp' Hrp'. cbn in *. pose proof Hok as (Hn & Hr & _). pose proof Hok1 as (_ & Hr1 & _).
  unfold zlen in Hn, Hr, Hr1. pose proof (lookup_lt_Some _ _ _ Hrp').
  destruct (lookup_lt_is_Some_2 (iodevs s) i) as [d Hd]; [lia|].
  destruct (lookup_lt_is_Some_2 (con_rp s) i) as [rp Hrp]; [lia|].
  destruct (Hdel i d rp Hd Hrp) as (rp1 & Hrp1 & ? & Hx). rewrite Hrp' in Hrp1. injection Hrp1 as <-.
  split; [done|]. destruct (Hrps i rp Hrp) as [? ?]. destruct d as [dev|]; cbn [delivered] in Hx.
  - revert Hx. rewrite zlen_app. case_if; [intros [-> _]; lia|]. intros (a & _ & ? & _). lia.
  - destruct Hx as [-> _]. lia.
Qed.

(** C13: The console delivers one ordered stream to every console device.
    Writing [buf] extends the stream by [buf] and keeps the console
    invariant (the 8192-byte ring holds the end of the stream, no device is
    ahead of it).  Every console device receives a contiguous piece of the
    stream that starts where it had stopped, or, if it fell behind, at the
    oldest byte still in the ring: nothing is repeated, reordered or invented,
    and only bytes that left the ring are lost.  A device that is not a console
    is sent nothing and skips the text.  The write loops terminate, and no lock
    assertion fails. *)
Theorem console_write_stream s (stream buf : list Z) :
  con_inv s stream -> zlen stream + zlen buf < 2 ^ 32 ->
  exists s', iodev_console_write buf s = Done s' /\ con_inv s' (stream ++ buf) /\
    forall (i : nat) d rp, iodevs s !! i = Some d -> con_rp s !! i = Some rp ->
      exists rp', con_rp s' !! i = Some rp' /\
        delivered d (con_wp s) rp rp' (stream ++ buf)
          (accepted (Z.of_nat i) (world s)) (accepted (Z.of_nat i) (world s')).
Proof.
  intros Hinv Hw. destruct (console_write_run s stream buf Hinv Hw) as (s' & ? & ? & ? & _). by exists s'.
Qed.

Lemma con_inv_frame s s' stream : same_console s s' -> devices_ok s' -> con_inv s stream -> con_inv s' stream.
Proof.
  intros (E1&E2&E3&E4&E5&_&E7&_) Hok (Hin & Hlk & _ & Hring & Hrps). unfold con_inv.
  by rewrite <- E1, <- E2, <- E3, <- E4, <- E5, <- E7.
Qed.

Lemma console_locking_run s stream (b : bool) :
  con_inv s stream ->
  exists l, console_locking (spin_lock (cpu s)) b s = Done (set_console_lock s l) /\
    con_inv (set_console_lock s l) stream /\ count l = count (console_lock s) + (if b then 1 else 0).
Proof.
  intros (Hin & Hlk & Hrest). unfold console_locking. destruct b.
  - destruct (spin_lock_ok _ _ Hlk) as (l1 & -> & ? & ? & ?). exists l1. split; [done|]. split; [|done].
    split; [done|]. split; [done|exact Hrest].
  - exists (console_lock s). rewrite Z.add_0_r. split; [by destruct s|]. split; [|done].
    split; [done|]. split; [exact Hlk|exact Hrest].
Qed.

Lemma console_unlocking_run s stream (b : bool) :
  con_inv s stream -> (b = true -> 0 < count (console_lock s)) ->
  exists l, console_locking spin_unlock b s = Done (set_console_lock s l) /\
    con_inv (set_console_lock s l) stream /\ count l = count (console_lock s) - (if b then 1 else 0).
Proof.
  intros (Hin & Hlk & Hrest) Hc. unfold console_locking. destruct b.
  - destruct (spin_unlock_ok _ _ Hlk (Hc eq_refl)) as (l1 & -> & ? & ?). exists l1. split; [done|]. split; [|done].
    split; [done|]. split; [done|exact Hrest].
  - exists (console_lock s). rewrite Z.sub_0_r. split; [by destruct s|]. split; [|done].
    split; [done|]. split; [exact Hlk|exact Hrest].
Qed.

(** Running a device's events leaves the stream alone and loses no input. *)
Lemma handle_events_run id dev s stream :
  0 <= id -> con_inv s stream -> zlen stream < 2 ^ 32 -> iodevs s !! Z.to_nat id = Some (Some dev) ->
  exists s', iodev_handle_events id s = Done s' /\ con_inv s' stream /\
    same_table (iodevs s) (iodevs s') /\ arrives (world s) (world s').
Proof.
  intros Hid Hinv Hw Hdev. unfold iodev_handle_events.
  destruct (console_locking_run s stream (mmu_active s) Hinv) as (l & -> & Hinv1 & Hc). rewrite bind_Done.
  set (s1 := set_console_lock s l) in *. pose proof Hinv1 as (Hin & Hlk & Hok & Hring & Hrps). rewrite Hin.
  change (negb (0 =? 0)) with false. cbn iota. cbn [iodevs set_in_iodev].
  assert (znth (iodevs s1) id = Done (Some dev)) as -> by (by apply znth_Done). cbn [mbind outcome_bind of_option].
  pose proof Hok as (_ & _ & Hd). destruct (Hd _ _ Hdev) as (_ & o & Ho & Hdrv). rewrite Z2Nat.id in Hdrv by done.
  rewrite Ho. cbn [of_option mbind outcome_bind].
  assert (exists w, match op_handle_events o with
            | Some f => w ← f (dev_opaque dev) (world (set_in_iodev s1 (0 + 1))); Done (set_world (set_in_iodev s1 (0 + 1)) w)
            | None => Done (set_in_iodev s1 (0 + 1)) end = Done (set_world (set_in_iodev s1 1) w) /\ arrives (world s) w)
    as (w & Hrun & Harr).
  { destruct (op_handle_events o) as [f|] eqn:Hf.
    - destruct (handle_events_ok _ _ _ Hdrv f (world s) Hf) as (w' & Hrun & _ & _ & ?). exists w'. cbn. rewrite Hrun. done.
    - exists (world s). split; [done|]. apply (only_dev_refl 0). }
  cbn [world set_in_iodev in_iodev] in *. rewrite Hrun. cbn [mbind outcome_bind].
  set (s2 := set_in_iodev _ _).
  assert (con_inv s2 stream /\ iodevs s2 = iodevs s /\ world s2 = w /\ console_lock s2 = l) as (Hinv2 & Hd2 & Hw2 & Hl2) by done.
  clearbody s2. pose proof Hinv2 as (_ & _ & Hok2 & _).
  destruct (iodev_can_write_spec id s2 dev) as (b & s3 & -> & Hsame3 & Hok3 & _ & _ & Harr3); [done|done|by rewrite Hd2|].
  rewrite bind_Done. pose proof (con_inv_frame _ _ _ Hsame3 Hok3 Hinv2) as Hinv3.
  assert (exists s4, (if b : bool then iodev_console_write [] s3 else Done s3) = Done s4 /\ con_inv s4 stream /\
    same_table (iodevs s3) (iodevs s4) /\ arrives (world s3) (world s4) /\
    count (console_lock s4) = count (console_lock s3)) as (s4 & -> & Hinv4 & Htab4 & Harr4 & Hc4).
  { destruct b.
    - destruct (console_write_run s3 stream [] Hinv3) as (s4 & -> & Hinv4 & _ & ? & ? & _ & _ & ?); [rewrite zlen_nil; lia|].
      rewrite app_nil_r in Hinv4. by exists s4.
    - exists s3. split; [done|]. split; [done|]. split; [by intros ?|]. split; [apply (only_dev_refl 0)|done]. }
  rewrite bind_Done. destruct Hsame3 as (_&_&_&_&Hcl&_&_&Htab3).
  destruct (console_unlocking_run s4 stream (mmu_active s) Hinv4) as (l5 & -> & Hinv5 & _).
  { intros Hm. rewrite Hc4, <- Hcl, Hl2, Hc, Hm. destruct Hinv as (_ & [_ ?] & _). lia. }
  eexists. split; [done|]. split; [done|]. split.
  - intros i. cbn [iodevs set_console_lock]. rewrite <- (Htab4 i), <- (Htab3 i), Hd2. done.
  - rewrite Hw2 in Harr3. by eauto using arrives_trans.
Qed.

(** Reading takes the front of a device's input. *)
Lemma iodev_read_run id n dev s stream :
  0 <= id -> con_inv s stream -> iodevs s !! Z.to_nat id = Some (Some dev) ->
  (exists o, dev_ops dev = Some o /\ op_read o <> None) ->
  0 <= n <= zlen (pending id (world s)) ->
  exists s' more, iodev_read id n s = Done ((n, take (Z.to_nat n) (pending id (world s))), s') /\ con_inv s' stream /\
    same_table (iodevs s) (iodevs s') /\ pending id (world s') = drop (Z.to_nat n) (pending id (world s)) ++ more.
Proof.
  intros Hid Hinv Hdev (o & Ho & Hrd) Hn. pose proof Hinv as (_ & _ & Hok & _). pose proof Hok as (_ & _ & Hd).
  destruct (Hd _ _ Hdev) as (_ & o' & Ho' & Hdrv). rewrite Ho in Ho'. injection Ho' as <-.
  rewrite Z2Nat.id in Hdrv by done.
  destruct (op_read o) as [f|] eqn:Hf; [|done].
  destruct (read_ok _ _ _ Hdrv f n (world s) Hf Hn) as (w' & more & Hrun & _ & Hp).
  unfold iodev_read.
  destruct (call_op_spec id op_read (fun s => Done ((-1, []), s)) (fun f o w => f o n w) s dev o f (n, take (Z.to_nat n) (pending id (world s))) w')
    as (s' & -> & Hsame & Hok' & Hw); [done..|].
  exists s', more. split; [done|]. split; [by eapply con_inv_frame|]. split; [apply Hsame|]. by rewrite Hw.
Qed.

(** Printing from inside a device call goes to the UART behind a ["+"] mark and
    leaves the stream and every device's position alone. *)
Lemma console_write_reentrant s buf s' :
  in_iodev s <> 0 -> iodev_console_write buf s = Done s' ->
  con_buf s' = con_buf s /\ con_wp s' = con_wp s /\ con_rp s' = con_rp s /\ in_iodev s' = in_iodev s.
Proof.
  intros Hin H. unfold iodev_console_write, is_boot_cpu in H. rewrite andb_false_r in H.
  assert (forall (f : spinlock_t -> outcome spinlock_t) b (x y : iodev_state W), console_locking f b x = Done y ->
    con_buf y = con_buf x /\ con_wp y = con_wp x /\ con_rp y = con_rp x /\ in_iodev y = in_iodev x) as Hlk.
  { intros f b x y Hx. unfold console_locking in Hx. destruct b; [|by simplify_eq]. inv_bind Hx. by simplify_eq. }
  inv_bind H. destruct (Hlk _ _ _ _ Hrun) as (Ha & Hb & Hc & Hd). rewrite Hd in H. revert H. bdec. intros H.
  inv_bind H. destruct (Hlk _ _ _ _ H) as (-> & -> & -> & ->).
  unfold uart_direct in Hrun0. destruct (zlen buf =? 0); [by simplify_eq|].
  inv_bind Hrun0. inv_bind Hrun0. revert Hrun0. case_if; intros Hrun0; [by simplify_eq|].
  inv_bind Hrun0. inv_bind Hrun0. inv_bind Hrun0. destruct a5 as [? ?]. inv_bind Hrun0. destruct a5. by simplify_eq.
Qed.
End console_spec.

(** ** A recording world: devices that take at most three bytes per call *)
Abbreviation rec_world := (gmap Z (list Z) * gmap Z (list Z))%type.
Definition rec_out (id : Z) (w : rec_world) : list Z := default [] (fst w !! id).
Definition rec_in (id : Z) (w : rec_world) : list Z := default [] (snd w !! id).
#[export] Instance rec_console : ConsoleWorld rec_world := {| accepted := rec_out; pending := rec_in |}.

Definition rec_ops : iodev_ops rec_world := Ops
  (Some (fun o w => Done (zlen (rec_in o w), w)))
  (Some (fun _ w => Done (true, w)))
  (Some (fun o n w => Done (Z.min n (zlen (rec_in o w)), take (Z.to_nat n) (rec_in o w),
                            (fst w, <[o := drop (Z.to_nat n) (rec_in o w)]> (snd w)))))
  (Some (fun o bs w => Done (Z.min 3 (zlen bs), (<[o := rec_out o w ++ take (Z.to_nat (Z.min 3 (zlen bs))) bs]> (fst w), snd w))))
  None None None.

Lemma rec_ops_ok id : driver_ok id id rec_ops.
Proof.
  split.
  - intros f bs w [= <-]. eexists _, _. split; [done|]. pose proof (zlen_nonneg bs). split; [lia|].
    unfold accepted, rec_console, rec_out. cbn [fst]. rewrite lookup_insert_eq. split; [done|].
    split; [|intros j; exists []; by rewrite app_nil_r]. intros j Hj. unfold accepted, rec_console, rec_out. cbn [fst]. by rewrite lookup_insert_ne.
  - intros f w [= <-]. eexists _, _. split; [done|]. split; [done|apply only_dev_refl].
  - intros f w [=].
  - intros f n w [= <-] Hn. eexists _, []. unfold pending, rec_console in *. split; [by rewrite Z.min_l by lia|].
    split; [done|]. unfold rec_in. cbn [snd]. by rewrite lookup_insert_eq, app_nil_r.
Qed.

Definition rec_state_with (w : rec_world) : iodev_state rec_world :=
  Ist (Some (Dev (Some rec_ops) SPINLOCK_INIT USAGE_CONSOLE 0) :: Some (Dev (Some rec_ops) SPINLOCK_INIT USAGE_UARTPROXY 1) :: replicate 9 None)
    (replicate 8192 0) 0 (replicate 11 0) 0 SPINLOCK_INIT true 0 w.
Definition rec_state : iodev_state rec_world := rec_state_with (∅, ∅).

Lemma rec_state_with_inv w : con_inv (rec_state_with w) [].
Proof.
  split; [done|]. split; [split; [by left|done]|]. split; [split; [done|split; [done|]]|].
  - intros i d Hi. destruct i as [|[|i]]; cbn in Hi; simplify_eq.
    + split; [split; [by left|done]|]. exists rec_ops. split; [done|apply rec_ops_ok].
    + split; [split; [by left|done]|]. exists rec_ops. split; [done|apply rec_ops_ok].
    + apply (lookup_replicate_1 9) in Hi as [-> _]. done.
  - split; [split; [done|split; [done|cbn; lia]]|].
    intros i rp Hi. apply (lookup_replicate_1 11) in Hi as [-> _]. cbn. lia.
Qed.

Lemma console_write_stream_witness :
  exists s', iodev_console_write (bytes_of "hello") rec_state = Done s' /\ con_inv s' (bytes_of "hello") /\
    rec_out 0 (world s') = bytes_of "hello" /\ rec_out 1 (world s') = [].
Proof.
  destruct (console_write_stream rec_state [] (bytes_of "hello") (rec_state_with_inv _) ltac:(done)) as (s' & Hrun & Hinv & _).
  exists s'. split; [exact Hrun|]. split; [exact Hinv|].
  assert (match iodev_console_write (bytes_of "hello") rec_state with
          | Done x => rec_out 0 (world x) = bytes_of "hello" /\ rec_out 1 (world x) = [] | _ => True end) as H
    by (vm_compute; split; reflexivity).
  rewrite Hrun in H. exact H.
Defined.
