(* ===== verification/Proxy.v ===== *)
(** * Remote procedure calls of the proxy (src/proxy.c, src/proxy.h)

    [proxy_process] executes one request of the host and fills in the reply.
    The opcodes are an inductive type with the enumeration's values; the switch
    is cut into one definition per group of opcodes.  The operations of other
    parts that are not modelled in this library are fields of [services]. *)
From S2P Require Import Prelude.
From S2P Require Import Machine.
From S2P Require Import MemUtils.
From S2P Require Import Alloc.
From S2P Require Import Iodev.

(** ** Opcodes *)
Inductive ProxyOp : Type :=
| P_NOP | P_EXIT | P_CALL | P_GET_BOOTARGS | P_GET_BASE | P_SET_BAUD | P_UDELAY | P_SET_EXC_GUARD
| P_GET_EXC_COUNT | P_EL0_CALL | P_EL1_CALL | P_VECTOR | P_GL1_CALL | P_GL2_CALL | P_GET_SIMD_STATE
| P_PUT_SIMD_STATE | P_REBOOT | P_SLEEP | P_EL3_CALL | P_WRITE64 | P_WRITE32 | P_WRITE16 | P_WRITE8
| P_READ64 | P_READ32 | P_READ16 | P_READ8 | P_SET64 | P_SET32 | P_SET16 | P_SET8 | P_CLEAR64
| P_CLEAR32 | P_CLEAR16 | P_CLEAR8 | P_MASK64 | P_MASK32 | P_MASK16 | P_MASK8 | P_WRITEREAD64
| P_WRITEREAD32 | P_WRITEREAD16 | P_WRITEREAD8 | P_MEMCPY64 | P_MEMCPY32 | P_MEMCPY16 | P_MEMCPY8
| P_MEMSET64 | P_MEMSET32 | P_MEMSET16 | P_MEMSET8 | P_IC_IALLUIS | P_IC_IALLU | P_IC_IVAU
| P_DC_IVAC | P_DC_ISW | P_DC_CSW | P_DC_CISW | P_DC_ZVA | P_DC_CVAC | P_DC_CVAU | P_DC_CIVAC
| P_MMU_SHUTDOWN | P_MMU_INIT | P_MMU_DISABLE | P_MMU_RESTORE | P_MMU_INIT_SECONDARY | P_XZDEC
| P_GZDEC | P_SMP_START_SECONDARIES | P_SMP_CALL | P_SMP_CALL_SYNC | P_SMP_WAIT
| P_SMP_SET_WFE_MODE | P_SMP_IS_ALIVE | P_SMP_STOP_SECONDARIES | P_SMP_CALL_EL1
| P_SMP_CALL_EL1_SYNC | P_SMP_CALL_EL0 | P_SMP_CALL_EL0_SYNC | P_HEAPBLOCK_ALLOC | P_MALLOC
| P_MEMALIGN | P_FREE | P_TOP_OF_MEMORY_ALLOC | P_KBOOT_BOOT | P_KBOOT_SET_CHOSEN
| P_KBOOT_SET_INITRD | P_KBOOT_PREPARE_DT | P_KBOOT_GET_DT | P_PMGR_POWER_ENABLE
| P_PMGR_POWER_DISABLE | P_PMGR_ADT_POWER_ENABLE | P_PMGR_ADT_POWER_DISABLE | P_PMGR_RESET
| P_IODEV_SET_USAGE | P_IODEV_CAN_READ | P_IODEV_CAN_WRITE | P_IODEV_READ | P_IODEV_WRITE
| P_IODEV_WHOAMI | P_USB_IODEV_VUART_SETUP | P_TUNABLES_APPLY_GLOBAL | P_TUNABLES_APPLY_LOCAL
| P_TUNABLES_APPLY_LOCAL_ADDR | P_DART_INIT | P_DART_SHUTDOWN | P_DART_MAP | P_DART_UNMAP
| P_HV_INIT | P_HV_MAP | P_HV_START | P_HV_TRANSLATE | P_HV_PT_WALK | P_HV_MAP_VUART
| P_HV_TRACE_IRQ | P_HV_WDT_START | P_HV_START_SECONDARY | P_HV_SWITCH_CPU | P_HV_SET_TIME_STEALING
| P_HV_PIN_CPU | P_HV_WRITE_HCR | P_HV_MAP_VIRTIO | P_VIRTIO_PUT_BUFFER | P_HV_EXIT_CPU
| P_HV_ADD_TIME | P_FB_INIT | P_FB_SHUTDOWN | P_FB_BLIT | P_FB_UNBLIT | P_FB_FILL | P_FB_CLEAR
| P_FB_DISPLAY_LOGO | P_FB_RESTORE_LOGO | P_FB_IMPROVE_LOGO | P_PCIE_INIT | P_PCIE_SHUTDOWN
| P_NVME_INIT | P_NVME_SHUTDOWN | P_NVME_READ | P_NVME_FLUSH | P_MCC_GET_CARVEOUTS | P_DISPLAY_INIT
| P_DISPLAY_CONFIGURE | P_DISPLAY_SHUTDOWN | P_DISPLAY_START_DCP | P_DISPLAY_IS_EXTERNAL
| P_DAPF_INIT_ALL | P_DAPF_INIT | P_CPUFREQ_INIT | P_CPUFREQ_PREPARE_BAUD.

#[export] Instance ProxyOp_eq_dec : EqDecision ProxyOp.
Proof. solve_decision. Defined.

(** The enumeration: each group starts at its own base and counts up. *)
Definition op_groups : list (Z * list ProxyOp) :=
  [ (0x0,
     [P_NOP; P_EXIT; P_CALL; P_GET_BOOTARGS; P_GET_BASE; P_SET_BAUD; P_UDELAY; P_SET_EXC_GUARD;
      P_GET_EXC_COUNT; P_EL0_CALL; P_EL1_CALL; P_VECTOR; P_GL1_CALL; P_GL2_CALL; P_GET_SIMD_STATE;
      P_PUT_SIMD_STATE; P_REBOOT; P_SLEEP; P_EL3_CALL]);
    (0x100,
     [P_WRITE64; P_WRITE32; P_WRITE16; P_WRITE8; P_READ64; P_READ32; P_READ16; P_READ8; P_SET64;
      P_SET32; P_SET16; P_SET8; P_CLEAR64; P_CLEAR32; P_CLEAR16; P_CLEAR8; P_MASK64; P_MASK32;
      P_MASK16; P_MASK8; P_WRITEREAD64; P_WRITEREAD32; P_WRITEREAD16; P_WRITEREAD8]);
    (0x200,
     [P_MEMCPY64; P_MEMCPY32; P_MEMCPY16; P_MEMCPY8; P_MEMSET64; P_MEMSET32; P_MEMSET16; P_MEMSET8]);
    (0x300,
     [P_IC_IALLUIS; P_IC_IALLU; P_IC_IVAU; P_DC_IVAC; P_DC_ISW; P_DC_CSW; P_DC_CISW; P_DC_ZVA;
      P_DC_CVAC; P_DC_CVAU; P_DC_CIVAC; P_MMU_SHUTDOWN; P_MMU_INIT; P_MMU_DISABLE; P_MMU_RESTORE;
      P_MMU_INIT_SECONDARY]);
    (0x400,
     [P_XZDEC; P_GZDEC]);
    (0x500,
     [P_SMP_START_SECONDARIES; P_SMP_CALL; P_SMP_CALL_SYNC; P_SMP_WAIT; P_SMP_SET_WFE_MODE;
      P_SMP_IS_ALIVE; P_SMP_STOP_SECONDARIES; P_SMP_CALL_EL1; P_SMP_CALL_EL1_SYNC; P_SMP_CALL_EL0;
      P_SMP_CALL_EL0_SYNC]);
    (0x600,
     [P_HEAPBLOCK_ALLOC; P_MALLOC; P_MEMALIGN; P_FREE; P_TOP_OF_MEMORY_ALLOC]);
    (0x700,
     [P_KBOOT_BOOT; P_KBOOT_SET_CHOSEN; P_KBOOT_SET_INITRD; P_KBOOT_PREPARE_DT; P_KBOOT_GET_DT]);
    (0x800,
     [P_PMGR_POWER_ENABLE; P_PMGR_POWER_DISABLE; P_PMGR_ADT_POWER_ENABLE; P_PMGR_ADT_POWER_DISABLE;
      P_PMGR_RESET]);
    (0x900,
     [P_IODEV_SET_USAGE; P_IODEV_CAN_READ; P_IODEV_CAN_WRITE; P_IODEV_READ; P_IODEV_WRITE;
      P_IODEV_WHOAMI; P_USB_IODEV_VUART_SETUP]);
    (0xa00,
     [P_TUNABLES_APPLY_GLOBAL; P_TUNABLES_APPLY_LOCAL; P_TUNABLES_APPLY_LOCAL_ADDR]);
    (0xb00,
     [P_DART_INIT; P_DART_SHUTDOWN; P_DART_MAP; P_DART_UNMAP]);
    (0xc00,
     [P_HV_INIT; P_HV_MAP; P_HV_START; P_HV_TRANSLATE; P_HV_PT_WALK; P_HV_MAP_VUART;
      P_HV_TRACE_IRQ; P_HV_WDT_START; P_HV_START_SECONDARY; P_HV_SWITCH_CPU;
      P_HV_SET_TIME_STEALING; P_HV_PIN_CPU; P_HV_WRITE_HCR; P_HV_MAP_VIRTIO; P_VIRTIO_PUT_BUFFER;
      P_HV_EXIT_CPU; P_HV_ADD_TIME]);
    (0xd00,
     [P_FB_INIT; P_FB_SHUTDOWN; P_FB_BLIT; P_FB_UNBLIT; P_FB_FILL; P_FB_CLEAR; P_FB_DISPLAY_LOGO;
      P_FB_RESTORE_LOGO; P_FB_IMPROVE_LOGO]);
    (0xe00,
     [P_PCIE_INIT; P_PCIE_SHUTDOWN]);
    (0xf00,
     [P_NVME_INIT; P_NVME_SHUTDOWN; P_NVME_READ; P_NVME_FLUSH]);
    (0x1000,
     [P_MCC_GET_CARVEOUTS]);
    (0x1100,
     [P_DISPLAY_INIT; P_DISPLAY_CONFIGURE; P_DISPLAY_SHUTDOWN; P_DISPLAY_START_DCP;
      P_DISPLAY_IS_EXTERNAL]);
    (0x1200,
     [P_DAPF_INIT_ALL; P_DAPF_INIT]);
    (0x1300,
     [P_CPUFREQ_INIT; P_CPUFREQ_PREPARE_BAUD])].

(** The codes of one group, in order. *)
Fixpoint number_ops (code : Z) (ops : list ProxyOp) : list (Z * ProxyOp) :=
  match ops with [] => [] | o :: ops' => (code, o) :: number_ops (code + 1) ops' end.
Definition op_table : list (Z * ProxyOp) := flat_map (fun '(base, ops) => number_ops base ops) op_groups.
Definition decode_op (code : Z) : option ProxyOp := snd <$> List.find (fun p => fst p =? code) op_table.

(** ** Requests, replies and the state *)
Definition S_OK : Z := 0.
Definition S_BADCMD : Z := -1.
Definition GUARD_OFF : Z := 0.
Definition GUARD_SKIP : Z := 1.
Definition GUARD_MARK : Z := 2.
Definition GUARD_RETURN : Z := 3.

(** [opcode] and the six 64-bit arguments. *)
Record ProxyRequest : Type := Req { req_opcode : Z; req_args : list Z }.
Record ProxyReply : Type := Rep { rep_opcode : Z; rep_status : Z; rep_retval : Z }.

Section proxy.
Context {W : Type}.

(** The globals that requests read or write. *)
Record proxy_state : Type := PSt {
  p_mem : mem;
  p_io : iodev_state W;
  heap_base : Z;
  boot_top : top_mem;
  boot_args_addr : Z;
  base_addr : Z;
  dt : Z;
  exc_count : Z;
  exc_guard : Z;
  uartproxy_iodev : Z;
}.

Definition set_mem (s : proxy_state) x := PSt x (p_io s) (heap_base s) (boot_top s) (boot_args_addr s) (base_addr s) (dt s) (exc_count s) (exc_guard s) (uartproxy_iodev s).
Definition set_io (s : proxy_state) x := PSt (p_mem s) x (heap_base s) (boot_top s) (boot_args_addr s) (base_addr s) (dt s) (exc_count s) (exc_guard s) (uartproxy_iodev s).
Definition set_heap_base (s : proxy_state) x := PSt (p_mem s) (p_io s) x (boot_top s) (boot_args_addr s) (base_addr s) (dt s) (exc_count s) (exc_guard s) (uartproxy_iodev s).
Definition set_top (s : proxy_state) x := PSt (p_mem s) (p_io s) (heap_base s) x (boot_args_addr s) (base_addr s) (dt s) (exc_count s) (exc_guard s) (uartproxy_iodev s).
Definition set_exc_count (s : proxy_state) x := PSt (p_mem s) (p_io s) (heap_base s) (boot_top s) (boot_args_addr s) (base_addr s) (dt s) x (exc_guard s) (uartproxy_iodev s).
Definition set_exc_guard (s : proxy_state) x := PSt (p_mem s) (p_io s) (heap_base s) (boot_top s) (boot_args_addr s) (base_addr s) (dt s) (exc_count s) x (uartproxy_iodev s).
Definition set_proxy_iodev (s : proxy_state) x := PSt (p_mem s) (p_io s) (heap_base s) (boot_top s) (boot_args_addr s) (base_addr s) (dt s) (exc_count s) (exc_guard s) x.

(** Operations of other parts, on the whole state. *)
Record services : Type := Services {
  sv_call : Z -> Z -> Z -> Z -> Z -> proxy_state -> outcome (Z * proxy_state);
  sv_format : string -> Z -> list Z;                  (* one-argument printf text *)
  sv_uart_setbaud : Z -> proxy_state -> outcome proxy_state;
  sv_uart_putbyte : Z -> proxy_state -> outcome proxy_state;
  sv_mmu_shutdown : proxy_state -> outcome proxy_state;
  sv_mmu_init : proxy_state -> outcome proxy_state;
  sv_mmu_disable : proxy_state -> outcome (Z * proxy_state);
  sv_mmu_restore : Z -> proxy_state -> outcome proxy_state;
  sv_XzDecode : Z -> Z -> Z -> Z -> proxy_state -> outcome (bool * Z * proxy_state);
  sv_gzip_uncompress : Z -> Z -> Z -> Z -> proxy_state -> outcome (Z * Z * proxy_state);
  sv_malloc : Z -> proxy_state -> outcome (Z * proxy_state);
  sv_memalign : Z -> Z -> proxy_state -> outcome (Z * proxy_state);
  sv_free : Z -> proxy_state -> outcome proxy_state;
  sv_kboot_boot : Z -> proxy_state -> outcome (Z * proxy_state);
  sv_kboot_set_chosen : Z -> Z -> proxy_state -> outcome (Z * proxy_state);
  sv_kboot_set_initrd : Z -> Z -> proxy_state -> outcome proxy_state;
  sv_kboot_prepare_dt : Z -> proxy_state -> outcome (Z * proxy_state);
}.

Context (sv : services).

(** [debug_printf]: at most 511 bytes of the formatted text reach the console. *)
Definition debug_printf (text : list Z) (s : proxy_state) : outcome proxy_state :=
  io ← iodev_console_write (take 511 text) (p_io s); Done (set_io s io).

(** How a case of the switch ends: [break] with the reply and [guard_save], or
    [return]. *)
Inductive flow : Type :=
| Break (reply : ProxyReply) (guard_save : Z) (s : proxy_state)
| Return (ret : Z) (reply : ProxyReply) (s : proxy_state).

Definition retval (r : ProxyReply) (v : Z) : ProxyReply := Rep (rep_opcode r) (rep_status r) (u64 v).
Definition badcmd (r : ProxyReply) : ProxyReply := Rep (rep_opcode r) S_BADCMD (rep_retval r).

Definition arg (q : ProxyRequest) (i : nat) : Z := nth i (req_args q) 0.

(** [while (cnt--)] of [P_SET_BAUD]: the argument's low bytes, [cnt] times. *)
Fixpoint baud_loop (n : nat) (v : Z) (s : proxy_state) : outcome proxy_state :=
  match n with
  | O => Done s
  | S n' =>
      s ← sv_uart_putbyte sv (u8 v) s;
      s ← sv_uart_putbyte sv (u8 (Z.shiftr v 8)) s;
      s ← sv_uart_putbyte sv (u8 (Z.shiftr v 16)) s;
      s ← sv_uart_putbyte sv (u8 (Z.shiftr v 24)) s;
      baud_loop n' v s
  end.

(** ** System functions *)
Definition proxy_system (o : ProxyOp) (q : ProxyRequest) (r : ProxyReply) (g : Z) (s : proxy_state)
    : option (outcome flow) :=
  match o with
  | P_NOP => Some (Done (Break r g s))
  | P_EXIT => Some (Done (Return (if arg q 0 =? 0 then 1 else s32 (arg q 0)) r s))
  | P_CALL => Some ('(v, s) ← sv_call sv (u32 (arg q 0)) (arg q 1) (arg q 2) (arg q 3) (arg q 4) s;
                    Done (Break (retval r v) g s))
  | P_GET_BOOTARGS => Some (Done (Break (retval r (boot_args_addr s)) g s))
  | P_GET_BASE => Some (Done (Break (retval r (base_addr s)) g s))
  | P_SET_BAUD => Some (
      s ← debug_printf (sv_format sv "Changing baud rate to %llu..." (arg q 0) ++ [10]) s;
      s ← sv_uart_setbaud sv (s32 (arg q 0)) s;
      s ← baud_loop (Z.to_nat (u32 (arg q 1))) (arg q 2) s;
      Done (Break r g s))
  | P_UDELAY => Some (Done (Break r g s))
  | P_SET_EXC_GUARD => Some (Done (Break r (u32 (arg q 0)) (set_exc_count s 0)))
  | P_GET_EXC_COUNT => Some (Done (Break (retval r (exc_count s)) g (set_exc_count s 0)))
  | P_EL0_CALL | P_EL1_CALL | P_VECTOR | P_GL1_CALL | P_GL2_CALL | P_GET_SIMD_STATE | P_PUT_SIMD_STATE =>
      Some (Done (Break (badcmd r) g s))
  | P_REBOOT => Some Panic
  | _ => None
  end.

(** ** Register functions: the guard is set, then the access runs. *)
Definition reg_write (acc : mem -> Z -> Z -> outcome mem) (q : ProxyRequest) (r : ProxyReply) (g : Z) (s : proxy_state)
    : outcome flow :=
  let s := set_exc_guard s GUARD_SKIP in
  m ← acc (p_mem s) (arg q 0) (arg q 1); Done (Break r g (set_mem s m)).
Definition reg_read (acc : mem -> Z -> outcome Z) (q : ProxyRequest) (r : ProxyReply) (g : Z) (s : proxy_state)
    : outcome flow :=
  let s := set_exc_guard s GUARD_MARK in
  v ← acc (p_mem s) (arg q 0); Done (Break (retval r v) g s).
Definition reg_modify (acc : mem -> Z -> Z -> outcome (Z * mem)) (q : ProxyRequest) (r : ProxyReply) (g : Z)
    (s : proxy_state) : outcome flow :=
  let s := set_exc_guard s GUARD_MARK in
  '(v, m) ← acc (p_mem s) (arg q 0) (arg q 1); Done (Break (retval r v) g (set_mem s m)).
Definition reg_mask (acc : mem -> Z -> Z -> Z -> outcome (Z * mem)) (q : ProxyRequest) (r : ProxyReply) (g : Z)
    (s : proxy_state) : outcome flow :=
  let s := set_exc_guard s GUARD_MARK in
  '(v, m) ← acc (p_mem s) (arg q 0) (arg q 1) (arg q 2); Done (Break (retval r v) g (set_mem s m)).

(** [P_SLEEP] and [P_EL3_CALL] have no [break]: they report the bad command and
    fall through into [P_WRITE64]. *)
Definition proxy_regs (o : ProxyOp) (q : ProxyRequest) (r : ProxyReply) (g : Z) (s : proxy_state)
    : option (outcome flow) :=
  match o with
  | P_SLEEP | P_EL3_CALL => Some (reg_write write64 q (badcmd r) g s)
  | P_WRITE64 => Some (reg_write write64 q r g s)
  | P_WRITE32 => Some (reg_write write32 q r g s)
  | P_WRITE16 => Some (reg_write write16 q r g s)
  | P_WRITE8 => Some (reg_write write8 q r g s)
  | P_READ64 => Some (reg_read read64 q r g s)
  | P_READ32 => Some (reg_read read32 q r g s)
  | P_READ16 => Some (reg_read read16 q r g s)
  | P_READ8 => Some (reg_read read8 q r g s)
  | P_SET64 => Some (reg_modify set64 q r g s)
  | P_SET32 => Some (reg_modify set32 q r g s)
  | P_SET16 => Some (reg_modify set16 q r g s)
  | P_SET8 => Some (reg_modify set8 q r g s)
  | P_CLEAR64 => Some (reg_modify clear64 q r g s)
  | P_CLEAR32 => Some (reg_modify clear32 q r g s)
  | P_CLEAR16 => Some (reg_modify clear16 q r g s)
  | P_CLEAR8 => Some (reg_modify clear8 q r g s)
  | P_MASK64 => Some (reg_mask mask64 q r g s)
  | P_MASK32 => Some (reg_mask mask32 q r g s)
  | P_MASK16 => Some (reg_mask mask16 q r g s)
  | P_MASK8 => Some (reg_mask mask8 q r g s)
  | P_WRITEREAD64 => Some (reg_modify writeread64 q r g s)
  | P_WRITEREAD32 => Some (reg_modify writeread32 q r g s)
  | P_WRITEREAD16 => Some (reg_modify writeread16 q r g s)
  | P_WRITEREAD8 => Some (reg_modify writeread8 q r g s)
  | _ => None
  end.

(** ** Block transfers *)
Definition block_copy (copy : mem -> Z -> Z -> Z -> outcome mem) (q : ProxyRequest) (r : ProxyReply) (g : Z)
    (s : proxy_state) : outcome flow :=
  let s := set_exc_guard s GUARD_RETURN in
  m ← copy (p_mem s) (u32 (arg q 0)) (u32 (arg q 1)) (u32 (arg q 2)); Done (Break r g (set_mem s m)).
Definition block_set (set : mem -> Z -> Z -> Z -> outcome mem) (q : ProxyRequest) (r : ProxyReply) (g : Z)
    (s : proxy_state) : outcome flow :=
  let s := set_exc_guard s GUARD_RETURN in
  m ← set (p_mem s) (u32 (arg q 0)) (arg q 1) (u32 (arg q 2)); Done (Break r g (set_mem s m)).

Definition proxy_blocks (o : ProxyOp) (q : ProxyRequest) (r : ProxyReply) (g : Z) (s : proxy_state)
    : option (outcome flow) :=
  match o with
  | P_MEMCPY64 => Some (block_copy memcpy64 q r g s)
  | P_MEMCPY32 => Some (block_copy memcpy32 q r g s)
  | P_MEMCPY16 => Some (block_copy memcpy16 q r g s)
  | P_MEMCPY8 => Some (block_copy memcpy8 q r g s)
  | P_MEMSET64 => Some (block_set memset64 q r g s)
  | P_MEMSET32 => Some (block_set memset32 q r g s)
  | P_MEMSET16 => Some (block_set memset16 q r g s)
  | P_MEMSET8 => Some (block_set memset8 q r g s)
  | _ => None
  end.

(** ** Cache maintenance (no effect on memory contents) and the MMU *)
Definition proxy_cache (o : ProxyOp) (q : ProxyRequest) (r : ProxyReply) (g : Z) (s : proxy_state)
    : option (outcome flow) :=
  match o with
  | P_IC_IALLUIS | P_IC_IALLU | P_IC_IVAU | P_DC_IVAC | P_DC_ISW | P_DC_CSW | P_DC_CISW
  | P_DC_CVAC | P_DC_CVAU | P_DC_CIVAC => Some (Done (Break r g s))
  | P_DC_ZVA => Some (Done (Break (badcmd r) g s))
  | P_MMU_SHUTDOWN => Some (s ← sv_mmu_shutdown sv s; Done (Break r g s))
  | P_MMU_INIT => Some (s ← sv_mmu_init sv s; Done (Break r g s))
  | P_MMU_DISABLE => Some ('(v, s) ← sv_mmu_disable sv s; Done (Break (retval r v) g s))
  | P_MMU_RESTORE => Some (s ← sv_mmu_restore sv (u32 (arg q 0)) s; Done (Break r g s))
  | P_MMU_INIT_SECONDARY => Some (Done (Break r g s))
  | _ => None
  end.

(** ** Decompression, SMP and allocation *)
Definition proxy_data (o : ProxyOp) (q : ProxyRequest) (r : ProxyReply) (g : Z) (s : proxy_state)
    : option (outcome flow) :=
  match o with
  | P_XZDEC => Some (
      '(ok, destlen, s) ← sv_XzDecode sv (u32 (arg q 0)) (u32 (arg q 1)) (u32 (arg q 2)) (u32 (arg q 3)) s;
      Done (Break (retval r (if ok : bool then destlen else Z.lnot 0)) g s))
  | P_GZDEC => Some (
      '(ret, destlen, s) ← sv_gzip_uncompress sv (u32 (arg q 2)) (u32 (arg q 3)) (u32 (arg q 0)) (u32 (arg q 1)) s;
      Done (Break (retval r (if u32 ret =? 0 then destlen else u32 ret)) g s))
  | P_SMP_START_SECONDARIES | P_SMP_STOP_SECONDARIES => Some (Done (Break r g s))
  | P_SMP_CALL | P_SMP_CALL_SYNC | P_SMP_WAIT | P_SMP_SET_WFE_MODE | P_SMP_IS_ALIVE | P_SMP_CALL_EL1
  | P_SMP_CALL_EL1_SYNC | P_SMP_CALL_EL0 | P_SMP_CALL_EL0_SYNC => Some (Done (Break (badcmd r) g s))
  | P_HEAPBLOCK_ALLOC => Some (
      '(block, base) ← heapblock_alloc (u32 (arg q 0)) (heap_base s);
      Done (Break (retval r block) g (set_heap_base s base)))
  | P_MALLOC => Some ('(v, s) ← sv_malloc sv (u32 (arg q 0)) s; Done (Break (retval r v) g s))
  | P_TOP_OF_MEMORY_ALLOC => Some (
      let (v, t) := top_of_memory_alloc (u32 (arg q 0)) (boot_top s) in
      Done (Break (retval r v) g (set_top s t)))
  | P_MEMALIGN => Some ('(v, s) ← sv_memalign sv (u32 (arg q 0)) (u32 (arg q 1)) s; Done (Break (retval r v) g s))
  | P_FREE => Some (s ← sv_free sv (u32 (arg q 0)) s; Done (Break r g s))
  | _ => None
  end.

(** ** Booting: [P_KBOOT_BOOT] returns 1 to leave the proxy when the kernel is
    ready, and otherwise falls through into [P_KBOOT_SET_CHOSEN]. *)
Definition kboot_chosen (q : ProxyRequest) (r : ProxyReply) (g : Z) (s : proxy_state) : outcome flow :=
  '(v, s) ← sv_kboot_set_chosen sv (u32 (arg q 0)) (u32 (arg q 1)) s; Done (Break (retval r v) g s).

Definition proxy_boot (o : ProxyOp) (q : ProxyRequest) (r : ProxyReply) (g : Z) (s : proxy_state)
    : option (outcome flow) :=
  match o with
  | P_KBOOT_BOOT => Some (
      '(v, s) ← sv_kboot_boot sv (u32 (arg q 0)) s;
      if v =? 0 then Done (Return 1 r s) else kboot_chosen q r g s)
  | P_KBOOT_SET_CHOSEN => Some (kboot_chosen q r g s)
  | P_KBOOT_SET_INITRD => Some (s ← sv_kboot_set_initrd sv (u32 (arg q 0)) (u32 (arg q 1)) s; Done (Break r g s))
  | P_KBOOT_PREPARE_DT => Some ('(v, s) ← sv_kboot_prepare_dt sv (u32 (arg q 0)) s; Done (Break (retval r v) g s))
  | P_KBOOT_GET_DT => Some (Done (Break (retval r (dt s)) g s))
  | P_PMGR_POWER_ENABLE | P_PMGR_POWER_DISABLE | P_PMGR_ADT_POWER_ENABLE | P_PMGR_ADT_POWER_DISABLE
  | P_PMGR_RESET => Some (Done (Break (badcmd r) g s))
  | _ => None
  end.

(** ** I/O devices *)
Definition proxy_iodev (o : ProxyOp) (q : ProxyRequest) (r : ProxyReply) (g : Z) (s : proxy_state)
    : option (outcome flow) :=
  match o with
  | P_IODEV_SET_USAGE => Some (
      io ← iodev_set_usage (u32 (arg q 0)) (u32 (arg q 1)) (p_io s); Done (Break r g (set_io s io)))
  | P_IODEV_CAN_READ => Some (
      '(v, io) ← iodev_can_read (u32 (arg q 0)) (p_io s); Done (Break (retval r v) g (set_io s io)))
  | P_IODEV_CAN_WRITE => Some (
      '(b, io) ← iodev_can_write (u32 (arg q 0)) (p_io s);
      Done (Break (retval r (if b : bool then 1 else 0)) g (set_io s io)))
  | P_IODEV_READ => Some (
      '(v, bs, io) ← iodev_read (u32 (arg q 0)) (u32 (arg q 2)) (p_io s);
      m ← store_bytes (p_mem s) (u32 (arg q 1)) bs;
      Done (Break (retval r v) g (set_io (set_mem s m) io)))
  | P_IODEV_WRITE => Some (
      bs ← load_bytes (Z.to_nat (u32 (arg q 2))) (p_mem s) (u32 (arg q 1));
      '(v, io) ← iodev_write (u32 (arg q 0)) bs (p_io s);
      Done (Break (retval r v) g (set_io s io)))
  | P_IODEV_WHOAMI => Some (Done (Break (retval r (uartproxy_iodev s)) g s))
  | _ => None
  end.

(** ** The switch *)
Fixpoint first_case (cases : list (option (outcome flow))) (dflt : outcome flow) : outcome flow :=
  match cases with
  | [] => dflt
  | Some f :: _ => f
  | None :: cases' => first_case cases' dflt
  end.

(** Opcodes without a case, known or not, are the [default]. *)
Definition proxy_switch (q : ProxyRequest) (r : ProxyReply) (g : Z) (s : proxy_state) : outcome flow :=
  match decode_op (req_opcode q) with
  | None => Done (Break (badcmd r) g s)
  | Some o =>
      first_case
        [proxy_system o q r g s; proxy_regs o q r g s; proxy_blocks o q r g s; proxy_cache o q r g s;
         proxy_data o q r g s; proxy_boot o q r g s; proxy_iodev o q r g s]
        (Done (Break (badcmd r) g s))
  end.

(** The result, the reply and the state: [exc_guard] is restored only on the
    way through the end of the function. *)
Definition proxy_process (q : ProxyRequest) (s : proxy_state) : outcome (Z * ProxyReply * proxy_state) :=
  let guard_save := exc_guard s in
  f ← proxy_switch q (Rep (req_opcode q) S_OK 0) guard_save s;
  match f with
  | Break r g s' => Done (0, r, set_exc_guard s' g)
  | Return ret r s' => Done (ret, r, s')
  end.

(** ** What every case leaves behind *)
Definition reply_ok (q : ProxyRequest) (r : ProxyReply) : Prop :=
  rep_opcode r = req_opcode q /\ (rep_status r = S_OK \/ rep_status r = S_BADCMD) /\ 0 <= rep_retval r < 2 ^ 64.

Definition flow_ok (o : ProxyOp) (q : ProxyRequest) (g : Z) (f : flow) : Prop :=
  match f with
  | Break r g' _ => reply_ok q r /\ g' = (if decide (o = P_SET_EXC_GUARD) then u32 (arg q 0) else g)
  | Return ret r _ =>
      reply_ok q r /\ (o = P_EXIT /\ ret = (if arg q 0 =? 0 then 1 else s32 (arg q 0)) \/ o = P_KBOOT_BOOT /\ ret = 1)
  end.

Lemma retval_ok q r v : reply_ok q r -> reply_ok q (retval r v).
Proof. intros (? & ? & ?). split; [done|split; [done|]]. cbn. by apply (wrap_range 64). Qed.

Lemma badcmd_ok q r : reply_ok q r -> reply_ok q (badcmd r).
Proof. intros (? & ? & ?). split; [done|split; [by right|done]]. Qed.

Hint Resolve retval_ok badcmd_ok : haywire.

(** Run a case to its end and read off the flow. *)
Ltac run_case :=
  repeat match goal with
  | H : Done _ = Done _ |- _ => injection H as H; subst
  | H : Panic = Done _ |- _ => discriminate H
  | H : (_ ≫= _) = Done _ |- _ =>
      apply bind_Done_inv in H; let a := fresh "a" in destruct H as (a & ? & H);
      repeat match type of a with (_ * _)%type => let x := fresh "x" in destruct a as [a x] end; cbn beta iota in H
  | H : (let (_, _) := ?p in _) = Done _ |- _ => destruct p
  | H : (if ?b then _ else _) = Done _ |- _ => destruct b
  end.

Ltac solve_cases group :=
  let H := fresh in let Hr := fresh in
  intros H Hr; unfold group, reg_write, reg_read, reg_modify, reg_mask, block_copy, block_set, kboot_chosen in H;
  match type of H with context [match ?o with P_NOP => _ | _ => _ end] => destruct o end;
  try discriminate H; apply (inj Some) in H; run_case; cbn [flow_ok]; auto with haywire.

Lemma proxy_system_ok o q r g s f :
  proxy_system o q r g s = Some (Done f) -> reply_ok q r -> flow_ok o q g f.
Proof. solve_cases proxy_system. Qed.

Lemma proxy_regs_ok o q r g s f : proxy_regs o q r g s = Some (Done f) -> reply_ok q r -> flow_ok o q g f.
Proof. solve_cases proxy_regs. Qed.

Lemma proxy_blocks_ok o q r g s f : proxy_blocks o q r g s = Some (Done f) -> reply_ok q r -> flow_ok o q g f.
Proof. solve_cases proxy_blocks. Qed.

Lemma proxy_cache_ok o q r g s f : proxy_cache o q r g s = Some (Done f) -> reply_ok q r -> flow_ok o q g f.
Proof. solve_cases proxy_cache. Qed.

Lemma proxy_data_ok o q r g s f : proxy_data o q r g s = Some (Done f) -> reply_ok q r -> flow_ok o q g f.
Proof. solve_cases proxy_data. Qed.

Lemma proxy_boot_ok o q r g s f : proxy_boot o q r g s = Some (Done f) -> reply_ok q r -> flow_ok o q g f.
Proof. solve_cases proxy_boot. Qed.

Lemma proxy_iodev_ok o q r g s f : proxy_iodev o q r g s = Some (Done f) -> reply_ok q r -> flow_ok o q g f.
Proof. solve_cases proxy_iodev. Qed.

(** The opcodes without a case are not the ones with a special flow. *)
Lemma no_case_plain o q r g s :
  proxy_system o q r g s = None -> o <> P_SET_EXC_GUARD.
Proof. by destruct o. Qed.

Lemma proxy_switch_ok o q r g s f :
  decode_op (req_opcode q) = Some o -> proxy_switch q r g s = Done f -> reply_ok q r -> flow_ok o q g f.
Proof.
  intros Hd H Hr. unfold proxy_switch in H. rewrite Hd in H. cbn [first_case] in H.
  destruct (proxy_system o q r g s) eqn:E1; [subst; by eapply proxy_system_ok|].
  destruct (proxy_regs o q r g s) eqn:E2; [subst; by eapply proxy_regs_ok|].
  destruct (proxy_blocks o q r g s) eqn:E3; [subst; by eapply proxy_blocks_ok|].
  destruct (proxy_cache o q r g s) eqn:E4; [subst; by eapply proxy_cache_ok|].
  destruct (proxy_data o q r g s) eqn:E5; [subst; by eapply proxy_data_ok|].
  destruct (proxy_boot o q r g s) eqn:E6; [subst; by eapply proxy_boot_ok|].
  destruct (proxy_iodev o q r g s) eqn:E7; [subst; by eapply proxy_iodev_ok|].
  injection H as <-. cbn. apply no_case_plain in E1. rewrite decide_False by done. auto with haywire.
Qed.
End proxy.

(** ** The enumeration *)
Definition op_code (o : ProxyOp) : Z := default 0 (fst <$> List.find (fun p => bool_decide (snd p = o)) op_table).

Lemma decode_op_code o : decode_op (op_code o) = Some o.
Proof. by destruct o; vm_compute. Qed.

Section proxy_theorems.
Context {W : Type}.
Implicit Types (s : @proxy_state W) (sv : @services W).

(** What a request to boot does: the result of [kboot_boot] decides, and when it
    failed the case goes on as [P_KBOOT_SET_CHOSEN] with the same arguments. *)
Definition boot_outcome sv q s (ret : Z) (r : ProxyReply) s' : Prop :=
  exists v s1, sv_kboot_boot sv (u32 (arg q 0)) s = Done (v, s1) /\
    ((v = 0 /\ ret = 1 /\ s' = s1) \/
     (v <> 0 /\ ret = 0 /\ exists v2 s2, sv_kboot_set_chosen sv (u32 (arg q 0)) (u32 (arg q 1)) s1 = Done (v2, s2) /\
        rep_retval r = u64 v2 /\ s' = set_exc_guard s2 (exc_guard s))).

Lemma kboot_boot_process sv q s ret r s' :
  decode_op (req_opcode q) = Some P_KBOOT_BOOT -> proxy_process sv q s = Done (ret, r, s') -> boot_outcome sv q s ret r s'.
Proof.
  intros Ho H. unfold proxy_process, proxy_switch in H. rewrite Ho in H. cbn [first_case proxy_system proxy_regs proxy_blocks proxy_cache proxy_data proxy_boot] in H.
  inv_bind H. inv_bind Hrun. destruct a0 as [v s1]. exists v, s1. split; [done|]. destruct (Z.eqb_spec v 0) as [-> | Hv].
  - injection Hrun as <-. injection H as <- <- <-. by left.
  - right. unfold kboot_chosen in Hrun. inv_bind Hrun. destruct a0 as [v2 s2]. injection Hrun as <-. injection H as <- <- <-.
    split; [done|]. split; [done|]. by exists v2, s2.
Qed.

(** C18: Every request that the proxy completes gets a well-formed reply: the
    opcode is echoed, the status is [S_OK] or [S_BADCMD], the value fits its
    64-bit field.  The exception guard that a case raised is dropped again on
    the way out (and only [P_SET_EXC_GUARD] changes it).  Two requests can leave
    the loop: [P_EXIT], with its argument, and [P_KBOOT_BOOT] when [kboot_boot]
    returned 0; when it returned anything else, the reply is that of
    kboot_set_chosen with the same arguments. *)
Theorem proxy_process_reply sv q s ret r s' :
  proxy_process sv q s = Done (ret, r, s') ->
  reply_ok q r /\
  match decode_op (req_opcode q) with
  | None => ret = 0 /\ rep_status r = S_BADCMD /\ s' = set_exc_guard s (exc_guard s)
  | Some P_SET_EXC_GUARD => ret = 0 /\ exc_guard s' = u32 (arg q 0)
  | Some P_EXIT => ret = (if arg q 0 =? 0 then 1 else s32 (arg q 0))
  | Some P_KBOOT_BOOT => boot_outcome sv q s ret r s'
  | Some _ => ret = 0 /\ exc_guard s' = exc_guard s
  end.
Proof.
  intros H. pose proof (kboot_boot_process sv q s ret r s') as Hboot. unfold proxy_process in H, Hboot. rewrite H in Hboot. inv_bind H.
  assert (reply_ok q (Rep (req_opcode q) S_OK 0)) as Hr by (split; [done|split; [by left|done]]).
  destruct (decode_op (req_opcode q)) as [o|] eqn:Ho.
  - pose proof (proxy_switch_ok _ _ _ _ _ _ _ Ho Hrun Hr) as Hf.
    destruct a as [r1 g1 s1|ret1 r1 s1]; injection H as <- <- <-; cbn [flow_ok] in Hf; destruct Hf as [Hrep Hf].
    + split; [done|]. rewrite Hf. destruct o; try (split; [done|reflexivity]).
      * exfalso. unfold proxy_switch in Hrun. rewrite Ho in Hrun. cbn [first_case proxy_system] in Hrun. discriminate Hrun.
      * rewrite <- Hf. by apply Hboot.
    + split; [done|]. destruct Hf as [[-> ->]|[-> ->]]; [done|by apply Hboot].
  - unfold proxy_switch in Hrun. rewrite Ho in Hrun. injection Hrun as <-. injection H as <- <- <-.
    split; [by apply badcmd_ok|done].
Qed.

(** The write and read requests of each width. *)
Definition reg_widths : list (nat * ProxyOp * ProxyOp) :=
  [(8%nat, P_WRITE64, P_READ64); (4%nat, P_WRITE32, P_READ32); (2%nat, P_WRITE16, P_READ16); (1%nat, P_WRITE8, P_READ8)].

(** C33: A register write followed by a read of the same width and address
    returns the value cut to the width; the write changes exactly those bytes
    and no other part of the state, and the read changes nothing. *)
Theorem proxy_write_read sv s n wop rop a v :
  (n, wop, rop) ∈ reg_widths -> u32 a mod Z.of_nat n = 0 -> region (p_mem s) (u32 a) (Z.of_nat n) ->
  let s' := set_mem s (write_bytes (p_mem s) (u32 a) (le_bytes n v)) in
  proxy_process sv (Req (op_code wop) [a; v]) s = Done (0, Rep (op_code wop) S_OK 0, s') /\
  proxy_process sv (Req (op_code rop) [a]) s' = Done (0, Rep (op_code rop) S_OK (v mod 2 ^ (8 * Z.of_nat n)), s').
Proof.
  intros Hin Ha Hreg s'.
  assert (Hwr : c_write n (p_mem s) (u32 a) (wrap (8 * Z.of_nat n) v) = Done (write_bytes (p_mem s) (u32 a) (le_bytes n v))).
  { unfold wrap at 2. by rewrite c_write_spec, le_bytes_mod. }
  assert (Hrd : c_read n (p_mem s') (u32 a) = Done (wrap (8 * Z.of_nat n) v)).
  { unfold wrap at 2. rewrite <- le_value_le_bytes. apply c_read_spec; [apply le_bytes_length|done|]. cbn [p_mem set_mem s'].
    destruct Hreg as (old & Hold & Hreg). destruct old as [|b old].
    - rewrite zlen_nil in Hold. assert (n = 0)%nat as -> by lia. done.
    - apply bytes_at_bounds in Hreg as [? ?]; [|done]. apply bytes_at_write_eq; [done|]. rewrite zlen_le_bytes. lia. }
  assert (0 <= wrap (8 * Z.of_nat n) v < 2 ^ 64) as Hfit.
  { pose proof (wrap_range (8 * Z.of_nat n) v ltac:(lia)). assert (n <= 8)%nat.
    { repeat (apply elem_of_cons in Hin as [Hin|Hin]; [injection Hin as -> -> ->; lia|]). by apply elem_of_nil in Hin. }
    assert (2 ^ (8 * Z.of_nat n) <= 2 ^ 64) by (apply Z.pow_le_mono_r; lia). lia. }
  fold (wrap (8 * Z.of_nat n) v).
  assert (forall x, set_exc_guard (set_exc_guard s' x) (exc_guard s') = s') as Hback by done.
  unfold proxy_process, proxy_switch. cbn [req_opcode]. rewrite !decode_op_code.
  assert (forall acc, acc (p_mem s) a v = c_write n (p_mem s) (u32 a) (wrap (8 * Z.of_nat n) v) ->
    (f ← reg_write acc (Req (op_code wop) [a; v]) (Rep (op_code wop) S_OK 0) (exc_guard s) s;
     match f with Break r g s'0 => Done (0, r, set_exc_guard s'0 g) | Return ret r s'0 => Done (ret, r, s'0) end) =
    Done (0, Rep (op_code wop) S_OK 0, s')) as Hw.
  { intros acc Hacc. unfold reg_write. cbn [arg nth req_args p_mem set_exc_guard]. by rewrite Hacc, Hwr. }
  assert (forall acc, acc (p_mem s') a = c_read n (p_mem s') (u32 a) ->
    (f ← reg_read acc (Req (op_code rop) [a]) (Rep (op_code rop) S_OK 0) (exc_guard s') s';
     match f with Break r g s'0 => Done (0, r, set_exc_guard s'0 g) | Return ret r s'0 => Done (ret, r, s'0) end) =
    Done (0, Rep (op_code rop) S_OK (wrap (8 * Z.of_nat n) v), s')) as Hr.
  { intros acc Hacc. unfold reg_read. cbn [arg nth req_args p_mem set_exc_guard].
    change (p_mem (set_exc_guard s' GUARD_MARK)) with (p_mem s').
    rewrite Hacc, Hrd. cbn. unfold retval. cbn. rewrite (wrap_small 64) by done. done. }
  split;
    (repeat (apply elem_of_cons in Hin as [Hin|Hin]; [injection Hin as -> -> ->; first [by apply Hw | by apply Hr]|]);
     by apply elem_of_nil in Hin).
Qed.

(** [P_SLEEP] and [P_EL3_CALL] are answered with [S_BADCMD] and still write
    the second argument to the address in the first: their case lacks the
    [break] before [P_WRITE64]. *)
Theorem proxy_sleep_writes sv s o a v :
  o = P_SLEEP \/ o = P_EL3_CALL -> u32 a mod 8 = 0 -> region (p_mem s) (u32 a) 8 ->
  proxy_process sv (Req (op_code o) [a; v]) s =
    Done (0, Rep (op_code o) S_BADCMD 0, set_mem s (write_bytes (p_mem s) (u32 a) (le_bytes 8 v))).
Proof.
  intros Ho Ha Hreg. unfold proxy_process, proxy_switch. cbn [req_opcode]. rewrite decode_op_code.
  assert (write64 (p_mem s) a v = Done (write_bytes (p_mem s) (u32 a) (le_bytes 8 v))) as Hw.
  { unfold write64. rewrite c_write_spec by done. change (wrap 64 v) with (v mod 2 ^ (8 * Z.of_nat 8)).
    by rewrite le_bytes_mod. }
  destruct Ho as [-> | ->]; cbn [first_case proxy_system proxy_regs]; unfold reg_write;
    cbn [arg nth req_args p_mem set_exc_guard]; by rewrite Hw.
Qed.
End proxy_theorems.

(** ** A concrete proxy: one page of memory and the recording console *)
Definition demo_services {W} : @services W := Services
  (fun _ _ _ _ _ s => Done (0, s)) (fun _ _ => []) (fun _ s => Done s) (fun _ s => Done s)
  (fun s => Done s) (fun s => Done s) (fun s => Done (0, s)) (fun _ s => Done s)
  (fun _ _ _ _ s => Done (false, 0, s)) (fun _ _ _ _ s => Done (0, 0, s))
  (fun _ s => Done (0, s)) (fun _ _ s => Done (0, s)) (fun _ s => Done s)
  (fun _ s => Done (0, s)) (fun _ _ s => Done (0, s)) (fun _ _ s => Done s) (fun _ s => Done (0, s)).
Definition demo_proxy : @proxy_state rec_world :=
  PSt (write_bytes ∅ 4096 (replicate 64 0)) rec_state 8192 (Top 0x80000000 0x10000000 false) 0x8000 0x80008000 0 0 0 IODEV_UART.

Lemma proxy_process_reply_witness :
  reply_ok (Req 0x1200 []) (Rep 0x1200 S_BADCMD 0) /\
  boot_outcome demo_services (Req 0x700 [4096]) demo_proxy 1 (Rep 0x700 S_OK 0) demo_proxy.
Proof.
  split.
  - exact (proj1 (proxy_process_reply demo_services (Req 0x1200 []) demo_proxy 0 (Rep 0x1200 S_BADCMD 0)
                    (set_exc_guard demo_proxy 0) eq_refl)).
  - exact (proj2 (proxy_process_reply demo_services (Req 0x700 [4096]) demo_proxy 1 (Rep 0x700 S_OK 0) demo_proxy eq_refl)).
Defined.

Lemma proxy_write_read_witness :
  let s' := set_mem demo_proxy (write_bytes (p_mem demo_proxy) 4100 (le_bytes 4 0x123456789)) in
  proxy_process demo_services (Req 0x101 [4100; 0x123456789]) demo_proxy = Done (0, Rep 0x101 0 0, s') /\
  proxy_process demo_services (Req 0x105 [4100]) s' = Done (0, Rep 0x105 0 0x23456789, s').
Proof.
  refine (proxy_write_read demo_services demo_proxy 4 P_WRITE32 P_READ32 4100 0x123456789 _ _ _).
  - by apply elem_of_cons; right; apply elem_of_cons; left.
  - done.
  - concrete_region [0; 0; 0; 0].
Defined.

Lemma proxy_sleep_writes_witness :
  proxy_process demo_services (Req 0x11 [4096; 7]) demo_proxy =
    Done (0, Rep 0x11 S_BADCMD 0, set_mem demo_proxy (write_bytes (p_mem demo_proxy) 4096 [7; 0; 0; 0; 0; 0; 0; 0])).
Proof.
  refine (proxy_sleep_writes demo_services demo_proxy P_SLEEP 4096 7 _ _ _).
  - by left.
  - done.
  - concrete_region [0; 0; 0; 0; 0; 0; 0; 0].
Defined.
