(* ===== verification/UartProxy.v ===== *)
(** * The proxy's wire protocol (src/uartproxy.c, src/uartproxy.h)

    The host sends 64-byte frames: a type word whose low three bytes are the
    sync pattern, 56 bytes of request and a checksum.  The proxy hunts for the
    pattern, reads the frame, executes it and queues a 36-byte reply, followed
    by the data of a memory read. *)
From S2P Require Import Prelude.
From S2P Require Import Machine.
From S2P Require Import MemUtils.
From S2P Require Import Iodev.
From S2P Require Import Proxy.

Definition REQ_SIZE : Z := 64.
Definition REPLY_SIZE : Z := 36.
Definition REQ_NOP : Z := 0x00AA55FF.
Definition REQ_PROXY : Z := 0x01AA55FF.
Definition REQ_MEMREAD : Z := 0x02AA55FF.
Definition REQ_MEMWRITE : Z := 0x03AA55FF.
Definition REQ_BOOT : Z := 0x04AA55FF.
Definition REQ_EVENT : Z := 0x05AA55FF.
Definition ST_OK : Z := 0.
Definition ST_BADCMD : Z := -1.
Definition ST_INVAL : Z := -2.
Definition ST_XFRERR : Z := -3.
Definition ST_CSUMERR : Z := -4.
Definition PROXY_FEAT_DISABLE_DATA_CSUMS : Z := 1.
Definition PROXY_FEAT_ALL : Z := PROXY_FEAT_DISABLE_DATA_CSUMS.
Definition CHECKSUM_INIT : Z := 0xDEADBEEF.
Definition CHECKSUM_FINAL : Z := 0xADDEDBAD.
Definition CHECKSUM_SENTINEL : Z := 0xD0DECADE.
Definition DATA_END_SENTINEL : Z := 0xB0CACC10.

(** ** Checksums *)
Fixpoint checksum_block (d : list Z) (sum : Z) : Z :=
  match d with
  | [] => sum
  | b :: d' => checksum_block d' (u32 (u32 (sum * 31337) + Z.lxor b 0x5A))
  end.
Definition checksum_start (d : list Z) : Z := checksum_block d CHECKSUM_INIT.
Definition checksum_add (d : list Z) (sum : Z) : Z := checksum_block d sum.
Definition checksum_finish (sum : Z) : Z := Z.lxor sum CHECKSUM_FINAL.
Definition checksum (d : list Z) : Z := checksum_finish (checksum_start d).

(** ** Frames *)

(** Replies: the union is kept as its 24 bytes. *)
Record UartReply : Type := URep { ur_type : Z; ur_status : Z; ur_union : list Z }.
Definition reply_body (r : UartReply) : list Z := le_bytes 4 (ur_type r) ++ le_bytes 4 (ur_status r) ++ ur_union r.
(** The 36 transferred bytes, the checksum of the first 32 at the end. *)
Definition reply_bytes (r : UartReply) : list Z := reply_body r ++ le_bytes 4 (checksum (reply_body r)).

(** Store an [n]-byte field at offset [off] of a union. *)
Definition put_field (n : nat) (off : nat) (v : Z) (u : list Z) : list Z :=
  take off u ++ le_bytes n v ++ drop (off + n) u.
Definition get_field (n : nat) (off : nat) (u : list Z) : Z := le_value (take n (drop off u)).

(** The request's union, 56 bytes: [prequest], [mrequest] or [features]. *)
Definition prequest (u : list Z) : ProxyRequest :=
  Req (get_field 8 0 u) (map (fun i => get_field 8 (8 * i) u) [1; 2; 3; 4; 5; 6]%nat).
Definition mr_addr (u : list Z) : Z := get_field 8 0 u.
Definition mr_size (u : list Z) : Z := get_field 8 8 u.
Definition mr_dchecksum (u : list Z) : Z := get_field 4 16 u.
Definition features (u : list Z) : Z := get_field 8 0 u.

Definition preply_union (r : ProxyReply) : list Z :=
  le_bytes 8 (rep_opcode r) ++ le_bytes 8 (rep_status r) ++ le_bytes 8 (rep_retval r).

(** [struct uartproxy_msg_start], 16 bytes. *)
Record uartproxy_msg_start : Type := Start { st_reason : Z; st_code : Z; st_info : Z; st_reserved : Z }.
Definition start_union (x : uartproxy_msg_start) : list Z :=
  le_bytes 4 (st_reason x) ++ le_bytes 4 (st_code x) ++ le_bytes 4 (st_info x) ++ le_bytes 4 (st_reserved x) ++
  replicate 8 0.
Definition zero_union : list Z := replicate 24 0.

Section uartproxy.
Context {W : Type} (sv : @services W).

(** The proxy's own globals beside the machine state. *)
Record up_state : Type := Up {
  ps : @proxy_state W;
  iodev_proxy_buffer : list Z;
  disable_data_csums : bool;
}.
Definition set_ps (s : up_state) x := Up x (iodev_proxy_buffer s) (disable_data_csums s).
Definition set_pbuf (s : up_state) x := Up (ps s) x (disable_data_csums s).
Definition set_csums (s : up_state) x := Up (ps s) (iodev_proxy_buffer s) x.
Definition up_io (s : up_state) : iodev_state W := p_io (ps s).
Definition set_up_io (s : up_state) io := set_ps s (set_io (ps s) io).
Definition up_mem (s : up_state) : mem := p_mem (ps s).
Definition set_up_mem (s : up_state) m := set_ps s (set_mem (ps s) m).

Definition data_checksum (s : up_state) (start length : Z) : outcome Z :=
  if disable_data_csums s then Done CHECKSUM_SENTINEL
  else d ← load_bytes (Z.to_nat (u32 length)) (up_mem s) (u32 start); Done (checksum d).

(** ** Hunting for a frame *)
Definition shift_in (buf b : Z) : Z := Z.lor (Z.shiftr buf 8) (u32 (Z.shiftl b 24)).
Definition synced (buf : Z) : bool := Z.land buf 0xffffff =? 0xAA55FF.

Definition push_byte (iodev b : Z) (s : up_state) : outcome (bool * up_state) :=
  buf ← znth (iodev_proxy_buffer s) iodev;
  l ← zset (iodev_proxy_buffer s) iodev (shift_in buf b);
  Done (synced (shift_in buf b), set_pbuf s l).

(** One byte from a device: [None] when [iodev_read] did not return 1. *)
Definition read_byte (iodev : Z) (s : up_state) : outcome (option Z * up_state) :=
  '(ret, bs, io) ← iodev_read iodev 1 (up_io s);
  if ret =? 1 then b ← znth bs 0; Done (Some b, set_up_io s io) else Done (None, set_up_io s io).

(** The loop over all devices at startup: the device that completed a pattern. *)
Fixpoint scan_any (fuel : nat) (iodev : Z) (s : up_state) : outcome (Z * up_state) :=
  match fuel with
  | O => Stuck
  | S fuel' =>
      usage ← iodev_get_usage iodev (up_io s);
      '(found, s) ←
        (if Z.land usage USAGE_UARTPROXY =? 0 then Done (false, s)
         else
           io ← iodev_handle_events iodev (up_io s);
           '(can, io) ← iodev_can_read iodev io;
           let s := set_up_io s io in
           if can =? 0 then Done (false, s)
           else
             '(b, s) ← read_byte iodev s;
             match b with Some b => push_byte iodev b s | None => Done (false, s) end);
      if found : bool then Done (iodev, s)
      else scan_any fuel' (if iodev + 1 =? IODEV_MAX then 0 else iodev + 1) s
  end.

(** The [do ... while] on one device: [false] when a read failed. *)
Fixpoint scan_one (fuel : nat) (iodev : Z) (s : up_state) : outcome (bool * up_state) :=
  match fuel with
  | O => Stuck
  | S fuel' =>
      io ← iodev_handle_events iodev (up_io s);
      '(b, s) ← read_byte iodev (set_up_io s io);
      match b with
      | None => Done (false, s)
      | Some b => '(found, s) ← push_byte iodev b s; if found : bool then Done (true, s) else scan_one fuel' iodev s
      end
  end.

(** ** Executing a request: the reply's status and union, and the value of
    [ret] when [proxy_process] ran *)
Definition exec_nop (iodev : Z) (u : list Z) (s : up_state) : outcome (Z * list Z * option Z * up_state) :=
  let enabled := Z.land (features u) PROXY_FEAT_ALL in
  let enabled := if iodev =? IODEV_UART then Z.land enabled (u64 (Z.lnot PROXY_FEAT_DISABLE_DATA_CSUMS)) else enabled in
  Done (ST_OK, put_field 8 0 enabled zero_union, None,
        set_csums s (negb (Z.land enabled PROXY_FEAT_DISABLE_DATA_CSUMS =? 0))).

Definition exec_proxy (u : list Z) (s : up_state) : outcome (Z * list Z * option Z * up_state) :=
  '(ret, r, p) ← proxy_process sv (prequest u) (ps s);
  p ← (if ret <? 0 then debug_printf (sv_format sv "Proxy req error: %d" ret ++ [10]) p else Done p);
  Done (ST_OK, preply_union r, Some ret, set_ps s p).

Definition exec_memread (u : list Z) (s : up_state) : outcome (Z * list Z * option Z * up_state) :=
  if mr_size u =? 0 then Done (ST_OK, zero_union, None, s)
  else
    let s := set_ps s (set_exc_guard (set_exc_count (ps s) 0) GUARD_RETURN) in
    sum ← data_checksum s (mr_addr u) (mr_size u);
    let s := set_ps s (set_exc_guard (ps s) GUARD_OFF) in
    Done (if exc_count (ps s) =? 0 then ST_OK else ST_XFRERR, put_field 4 0 sum zero_union, None, s).

(** The write of a 0 to both ends of the target, under [GUARD_SKIP]. *)
Definition probe_target (u : list Z) (s : up_state) : outcome up_state :=
  let s := set_ps s (set_exc_guard (set_exc_count (ps s) 0) GUARD_SKIP) in
  s ← (if mr_size u =? 0 then Done s
       else
         m ← write8 (up_mem s) (mr_addr u) 0;
         m ← write8 m (u64 (mr_addr u + mr_size u - 1)) 0;
         Done (set_up_mem s m));
  Done (set_ps s (set_exc_guard (ps s) GUARD_OFF)).

Definition exec_memwrite (iodev : Z) (u : list Z) (s : up_state) : outcome (Z * list Z * option Z * up_state) :=
  s ← probe_target u s;
  if negb (exc_count (ps s) =? 0) then Done (ST_XFRERR, zero_union, None, s)
  else
    '(ret, bs, io) ← iodev_read iodev (u32 (mr_size u)) (up_io s);
    m ← store_bytes (up_mem s) (u32 (mr_addr u)) bs;
    let s := set_up_mem (set_up_io s io) m in
    if negb (u32 ret =? mr_size u) then Done (ST_XFRERR, zero_union, None, s)
    else
      sum ← data_checksum s (mr_addr u) (mr_size u);
      let un := put_field 4 0 sum zero_union in
      if negb (u32 sum =? mr_dchecksum u) then Done (ST_XFRERR, un, None, s)
      else if disable_data_csums s then
        '(ret, bs, io) ← iodev_read iodev 4 (up_io s);
        let sentinel := le_value (take 4 (bs ++ replicate 4 0)) in
        let s := set_up_io s io in
        if negb (u32 ret =? 4) || negb (sentinel =? DATA_END_SENTINEL) then Done (ST_XFRERR, un, None, s)
        else Done (ST_OK, un, None, s)
      else Done (ST_OK, un, None, s).

Definition exec_request (iodev type : Z) (u : list Z) (s : up_state) : outcome (Z * list Z * option Z * up_state) :=
  if type =? REQ_NOP then exec_nop iodev u s
  else if type =? REQ_PROXY then exec_proxy u s
  else if type =? REQ_MEMREAD then exec_memread u s
  else if type =? REQ_MEMWRITE then exec_memwrite iodev u s
  else Done (ST_BADCMD, zero_union, None, s).

(** ** Sending the reply *)
Definition send_reply (iodev type : Z) (u : list Z) (r : UartReply) (s : up_state) : outcome up_state :=
  io ← iodev_lock (uartproxy_iodev (ps s)) (up_io s);
  '(_, io) ← iodev_queue iodev (reply_bytes r) io;
  io ← (if (type =? REQ_MEMREAD) && (ur_status r =? ST_OK) then
          d ← load_bytes (Z.to_nat (u32 (mr_size u))) (up_mem s) (u32 (mr_addr u));
          '(_, io) ← iodev_queue iodev d io;
          if disable_data_csums s then '(_, io) ← iodev_queue iodev (le_bytes 4 DATA_END_SENTINEL) io; Done io
          else Done io
        else Done io);
  io ← iodev_unlock (uartproxy_iodev (ps s)) io;
  '(_, io) ← iodev_write iodev [] io;
  io ← iodev_flush iodev io;
  Done (set_up_io s io).

(** ** One turn of the main loop once a pattern was found: [Some ret] ends it *)
Definition serve_frame (iodev : Z) (s : up_state) : outcome (option Z * up_state) :=
  type ← znth (iodev_proxy_buffer s) iodev;
  '(ret, bs, io) ← iodev_read iodev (REQ_SIZE - 4) (up_io s);
  let s := set_up_io s io in
  if negb (u32 ret =? REQ_SIZE - 4) then Done (None, s)
  else
    let frame := take 60 (bs ++ replicate 60 0) in
    let u := take 56 frame in
    if negb (checksum (le_bytes 4 type ++ u) =? get_field 4 56 frame) then
      '(_, io) ← iodev_write iodev (reply_bytes (URep type ST_CSUMERR zero_union)) (up_io s);
      Done (None, set_up_io s io)
    else
      let s := set_ps s (set_proxy_iodev (ps s) iodev) in
      '(status, un, ret, s) ← exec_request iodev type u s;
      s ← send_reply iodev type u (URep type status un) s;
      Done (match ret with Some r => if r =? 0 then None else Some r | None => None end, s).

Fixpoint main_loop (fuel : nat) (start : bool) (iodev : Z) (s : up_state) : outcome (Z * up_state) :=
  match fuel with
  | O => Stuck
  | S fuel' =>
      '(go, iodev, s) ←
        (if start then '(ok, s) ← scan_one fuel iodev s; Done (ok, iodev, s)
         else '(d, s) ← scan_any fuel 0 s; Done (true, d, s));
      if go : bool then
        '(ret, s) ← serve_frame iodev s;
        match ret with Some r => Done (r, s) | None => main_loop fuel' start iodev s end
      else
        p ← debug_printf (bytes_of "Proxy: iodev read failed, exiting." ++ [10]) (ps s);
        Done (-1, set_ps s p)
  end.

(** [fuel] bounds the number of frames and of bytes skipped in front of each:
    the code waits for as long as it takes. *)
Definition uartproxy_run (fuel : nat) (start : option uartproxy_msg_start) (s : up_state) : outcome (Z * up_state) :=
  match start with
  | None =>
      '(_, io) ← iodev_write IODEV_UART (reply_bytes (URep REQ_BOOT 0 zero_union)) (up_io s);
      main_loop fuel false IODEV_MAX (set_up_io s io)
  | Some x =>
      let iodev := uartproxy_iodev (ps s) in
      '(_, io) ← iodev_write iodev (reply_bytes (URep REQ_BOOT 0 (start_union x))) (up_io s);
      main_loop fuel true iodev (set_up_io s io)
  end.

(** ** Events: [type], [len] and [event_type] in 8 bytes, the data, a checksum *)
Definition event_hdr (event_type length : Z) : list Z :=
  le_bytes 4 REQ_EVENT ++ le_bytes 2 length ++ le_bytes 2 event_type.
Definition uartproxy_send_event (event_type data length : Z) (s : up_state) : outcome up_state :=
  let hdr := event_hdr event_type length in
  csum ← (if disable_data_csums s then Done CHECKSUM_SENTINEL
          else d ← load_bytes (Z.to_nat (u16 length)) (up_mem s) data;
               Done (checksum_finish (checksum_add d (checksum_start hdr))));
  let dev := uartproxy_iodev (ps s) in
  io ← iodev_lock dev (up_io s);
  '(_, io) ← iodev_queue dev hdr io;
  d ← load_bytes (Z.to_nat (u16 length)) (up_mem s) data;
  '(_, io) ← iodev_queue dev d io;
  '(_, io) ← iodev_write dev (le_bytes 4 csum) io;
  io ← iodev_unlock dev io;
  Done (set_up_io s io).
End uartproxy.
Arguments up_state W : clear implicits.

(** ** Checksums detect damage *)
Lemma checksum_block_app a b sum : checksum_block (a ++ b) sum = checksum_block b (checksum_block a sum).
Proof. revert sum. induction a; intros; cbn; auto. Qed.

Lemma checksum_block_range d sum : 0 <= sum < 2 ^ 32 -> 0 <= checksum_block d sum < 2 ^ 32.
Proof. revert sum. induction d as [|b d IH]; intros sum H; cbn [checksum_block]; [done|]. apply IH, wrap_range. lia. Qed.

(** One step keeps different sums different, and so do different bytes. *)
Lemma checksum_step_sum a b c :
  0 <= a < 2 ^ 32 -> 0 <= b < 2 ^ 32 -> u32 (u32 (a * 31337) + c) = u32 (u32 (b * 31337) + c) -> a = b.
Proof.
  intros Ha Hb H. rewrite !wrap_add_l in H. unfold wrap in H.
  pose proof (Z.div_mod (a * 31337 + c) (2 ^ 32) ltac:(lia)). pose proof (Z.div_mod (b * 31337 + c) (2 ^ 32) ltac:(lia)).
  set (k := (a * 31337 + c) / 2 ^ 32 - (b * 31337 + c) / 2 ^ 32).
  assert ((a - b) * 31337 = 2 ^ 32 * k) as Hk by (unfold k; lia).
  lia.
Qed.

Lemma checksum_block_inj d a b :
  0 <= a < 2 ^ 32 -> 0 <= b < 2 ^ 32 -> checksum_block d a = checksum_block d b -> a = b.
Proof.
  revert a b. induction d as [|c d IH]; intros a b Ha Hb H; [done|]. cbn [checksum_block] in H.
  apply IH in H; [|apply wrap_range; lia..]. by eapply checksum_step_sum.
Qed.

Lemma lxor_byte_range x y : is_byte x -> is_byte y -> is_byte (Z.lxor x y).
Proof.
  intros Hx Hy. assert (0 <= Z.lxor x y) by (apply Z.lxor_nonneg; unfold is_byte in *; lia).
  split; [done|]. destruct (decide (Z.lxor x y = 0)) as [->|]; [lia|].
  apply Z.log2_lt_cancel. eapply Z.le_lt_trans; [apply Z.log2_lxor; unfold is_byte in *; lia|].
  change (Z.log2 256) with 8. unfold is_byte in *.
  assert (forall z, 0 <= z < 256 -> Z.log2 z < 8).
  { intros z Hz. destruct (decide (z = 0)) as [->|]; [done|]. apply Z.log2_lt_pow2; lia. }
  apply Z.max_lub_lt; auto.
Qed.

Lemma checksum_block_neq (a b : list Z) (x y : Z) :
  is_byte x -> is_byte y -> checksum (a ++ x :: b) = checksum (a ++ y :: b) -> x = y.
Proof.
  intros Hx Hy H. unfold checksum, checksum_finish, checksum_start in H. rewrite !checksum_block_app in H. cbn [checksum_block] in H.
  apply (f_equal (fun v => Z.lxor v CHECKSUM_FINAL)) in H. rewrite !Z.lxor_assoc, !Z.lxor_nilpotent, !Z.lxor_0_r in H.
  apply checksum_block_inj in H; [|apply wrap_range; lia..].
  rewrite !(Z.add_comm (u32 _)) in H. rewrite <- !(wrap_add_l 32 (Z.lxor _ _)) in H.
  pose proof (lxor_byte_range x 0x5A Hx ltac:(done)) as Hx'. pose proof (lxor_byte_range y 0x5A Hy ltac:(done)) as Hy'.
  unfold is_byte in *. rewrite !(u32_small (Z.lxor _ _)) in H by lia.
  rewrite !(Z.add_comm (Z.lxor _ _)) in H. apply mod_add_inj in H; [|lia..].
  apply (f_equal (fun v => Z.lxor v 0x5A)) in H. rewrite !Z.lxor_assoc, Z.lxor_nilpotent, !Z.lxor_0_r in H. done.
Qed.

(** The frame checksum notices every single-byte error: two blocks that
    differ in exactly one byte never have the same checksum. *)
Theorem checksum_single_error (a b : list Z) (x y : Z) :
  are_bytes (a ++ x :: b) -> is_byte y -> x <> y -> checksum (a ++ x :: b) <> checksum (a ++ y :: b).
Proof.
  intros Hb Hy Hxy H. apply Forall_app in Hb as [_ Hb]. inversion Hb; subst. by apply checksum_block_neq in H.
Qed.

(** ** Hunting for the sync pattern *)
Definition SYNC : list Z := [0xFF; 0x55; 0xAA].

Lemma le_value_4 a b c d : le_value [a; b; c; d] = a + 2 ^ 8 * b + 2 ^ 16 * c + 2 ^ 24 * d.
Proof. cbn. lia. Qed.

(** The register holds the last four bytes. *)
Lemma shift_in_le_value w b :
  are_bytes w -> length w = 4%nat -> is_byte b -> shift_in (le_value w) b = le_value (drop 1 w ++ [b]).
Proof.
  intros Hw Hl Hb. destruct w as [|w0 [|w1 [|w2 [|w3 [|]]]]]; try done.
  repeat (apply Forall_cons in Hw as [? Hw]). unfold is_byte in *. cbn [drop app].
  rewrite !le_value_4. unfold shift_in. rewrite Z.shiftr_div_pow2 by lia. rewrite Z.shiftl_mul_pow2, u32_small by lia.
  replace ((w0 + 2 ^ 8 * w1 + 2 ^ 16 * w2 + 2 ^ 24 * w3) / 2 ^ 8) with (w1 + 2 ^ 8 * w2 + 2 ^ 16 * w3) by lia.
  rewrite (Z.mul_comm b), lor_disjoint by lia. lia.
Qed.

Lemma synced_le_value w :
  are_bytes w -> length w = 4%nat -> synced (le_value w) = bool_decide (take 3 w = SYNC).
Proof.
  intros Hw Hl. destruct w as [|w0 [|w1 [|w2 [|w3 [|]]]]]; try done.
  repeat (apply Forall_cons in Hw as [? Hw]). unfold is_byte in *.
  rewrite le_value_4. unfold synced. change 0xffffff with (Z.ones 24). rewrite Z.land_ones by lia.
  replace ((w0 + 2 ^ 8 * w1 + 2 ^ 16 * w2 + 2 ^ 24 * w3) mod 2 ^ 24) with (w0 + 2 ^ 8 * w1 + 2 ^ 16 * w2) by lia.
  cbn [take]. unfold SYNC. case_bool_decide as Hs.
  - injection Hs as -> -> ->. done.
  - apply Z.eqb_neq. intros E. apply Hs. assert (w0 = 0xFF /\ w1 = 0x55 /\ w2 = 0xAA) as (-> & -> & ->) by lia. done.
Qed.

Section scan.
Context {W : Type} `{!ConsoleWorld W}.
Implicit Types s : up_state W.

Lemma same_table_dev (d1 d2 : list (option (iodev W))) (i : nat) dev :
  same_table d1 d2 -> d1 !! i = Some (Some dev) ->
  exists dev', d2 !! i = Some (Some dev') /\ dev_ops dev' = dev_ops dev.
Proof.
  intros T H. specialize (T i). rewrite H in T. cbn in T.
  destruct (d2 !! i) as [[dev'|]|]; try done. cbn in T. injection T as Ho _ _. by exists dev'.
Qed.

Lemma push_byte_run id b s w :
  0 <= id -> iodev_proxy_buffer s !! Z.to_nat id = Some (le_value w) -> are_bytes w -> length w = 4%nat -> is_byte b ->
  push_byte id b s =
    Done (bool_decide (take 3 (drop 1 w ++ [b]) = SYNC),
          set_pbuf s (<[Z.to_nat id := le_value (drop 1 w ++ [b])]> (iodev_proxy_buffer s))).
Proof.
  intros Hid Hbuf Hw Hl Hb. unfold push_byte.
  assert (znth (iodev_proxy_buffer s) id = Done (le_value w)) as -> by (by apply znth_Done). rewrite bind_Done.
  apply lookup_lt_Some in Hbuf. rewrite zset_Done, bind_Done by (unfold zlen; lia).
  rewrite shift_in_le_value by done. rewrite synced_le_value; [done| |].
  - apply Forall_app. split; [by apply Forall_drop|by constructor].
  - rewrite length_app, length_drop, Hl. done.
Qed.

Lemma scan_one_run fuel id s w bs rest dev stream :
  0 <= id -> con_inv (up_io s) stream -> zlen stream < 2 ^ 32 ->
  iodevs (up_io s) !! Z.to_nat id = Some (Some dev) -> (exists o, dev_ops dev = Some o /\ op_read o <> None) ->
  iodev_proxy_buffer s !! Z.to_nat id = Some (le_value w) -> are_bytes w -> length w = 4%nat ->
  are_bytes bs -> bs <> [] -> pending id (world (up_io s)) = bs ++ rest -> (length bs <= fuel)%nat ->
  (forall i, (0 < i < length bs)%nat -> take 3 (drop i (w ++ bs)) <> SYNC) ->
  take 3 (drop (length bs) (w ++ bs)) = SYNC ->
  exists s' more, scan_one fuel id s = Done (true, s') /\
    iodev_proxy_buffer s' !! Z.to_nat id = Some (le_value (drop (length bs) (w ++ bs))) /\
    pending id (world (up_io s')) = rest ++ more /\ up_mem s' = up_mem s /\ con_inv (up_io s') stream.
Proof.
  intros Hid Hinv Hst. revert fuel s w dev rest Hinv. induction bs as [|b bs IH];
    intros fuel s w dev rest Hinv Hdev Hrd Hbuf Hw Hl Hbs Hne Hp Hf Hno Hyes; [done|].
  destruct fuel as [|fuel]; [cbn in Hf; lia|]. cbn [scan_one].
  destruct (handle_events_run id dev (up_io s) stream Hid Hinv Hst Hdev) as (io1 & -> & Hinv1 & Htab1 & Harr1).
  rewrite bind_Done. destruct (same_table_dev _ _ _ _ Htab1 Hdev) as (dev1 & Hdev1 & Hops1).
  destruct (Harr1 id) as [m1 Hp1]. rewrite Hp, <- app_assoc in Hp1.
  assert (zlen (pending id (world io1)) >= 1) as Hlen1.
  { rewrite Hp1. cbn [app]. rewrite zlen_cons. match goal with |- context [zlen ?l] => pose proof (zlen_nonneg l) end. lia. }
  unfold read_byte. change (up_io (set_up_io s io1)) with io1.
  destruct (iodev_read_run id 1 dev1 io1 stream Hid Hinv1 Hdev1) as (io2 & m2 & -> & Hinv2 & Htab2 & Hp2); [by rewrite Hops1|lia|].
  rewrite bind_Done, Hp1 in *. cbn [app] in *. change (1 =? 1) with true. cbn iota.
  change (take (Z.to_nat 1) (b :: bs ++ rest ++ m1)) with [b]. change (znth [b] 0) with (@Done Z b). rewrite !bind_Done.
  change (drop (Z.to_nat 1) (b :: bs ++ rest ++ m1)) with (bs ++ rest ++ m1) in Hp2.
  inversion Hbs as [|? ? Hb Hbs']; subst.
  rewrite (push_byte_run id b _ w) by done. rewrite bind_Done.
  set (s2 := set_pbuf _ _).
  assert (drop 1 (w ++ b :: bs) = (drop 1 w ++ [b]) ++ bs) as Hshift.
  { rewrite <- app_assoc. cbn [app]. rewrite drop_app_le by lia. done. }
  destruct bs as [|b' bs].
  - rewrite app_nil_r in Hshift. cbn [length] in Hyes |- *. rewrite Hshift in Hyes. rewrite bool_decide_true by done.
    exists s2, (m1 ++ m2). split; [done|]. split; [|split; [|split; [done|exact Hinv2]]].
    + unfold s2. cbn [iodev_proxy_buffer set_pbuf]. rewrite Hshift.
      apply list_lookup_insert_eq. by eapply lookup_lt_Some.
    + cbn. rewrite Hp2. cbn [app]. by rewrite <- !app_assoc.
  - rewrite bool_decide_false.
    2: { intros E. apply (Hno 1%nat); [cbn; lia|]. rewrite Hshift, take_app_le; [done|].
         rewrite length_app, length_drop, Hl. cbn. lia. }
    destruct (same_table_dev _ _ _ _ Htab2 Hdev1) as (dev2 & Hdev2 & Hops2).
    destruct (IH fuel s2 (drop 1 w ++ [b]) dev2 (rest ++ m1 ++ m2)) as (s' & more & -> & Hb' & Hp' & Hm' & Hinv').
    + exact Hinv2.
    + exact Hdev2.
    + by rewrite Hops2, Hops1.
    + unfold s2. cbn [iodev_proxy_buffer set_pbuf]. apply list_lookup_insert_eq. by eapply lookup_lt_Some.
    + apply Forall_app. split; [by apply Forall_drop|by constructor].
    + rewrite length_app, length_drop, Hl. done.
    + done.
    + done.
    + cbn. rewrite Hp2. by rewrite <- !app_assoc.
    + cbn in *. lia.
    + intros i Hi. rewrite <- Hshift, drop_drop. apply (Hno (1 + i)%nat). cbn in *. lia.
    + rewrite <- Hshift, drop_drop. exact Hyes.
    + exists s', (m1 ++ m2 ++ more). split; [done|]. rewrite <- Hshift, drop_drop in Hb'.
      split; [exact Hb'|]. split; [|split; [|done]].
      * rewrite Hp'. by rewrite <- !app_assoc.
      * rewrite Hm'. done.
Qed.

(** Resynchronisation.  Whatever noise precedes it, the hunt on one device
    stops at the first four-byte window of (register contents followed by
    input) whose first three bytes are the sync pattern FF 55 AA: it consumes
    exactly the input up to and including the type byte, keeps everything
    behind it for the frame, leaves the type word in the register, and touches
    neither memory nor the console stream. *)
Theorem scan_one_syncs fuel (id : Z) s w bs rest dev stream :
  0 <= id -> con_inv (up_io s) stream -> zlen stream < 2 ^ 32 ->
  iodevs (up_io s) !! Z.to_nat id = Some (Some dev) -> (exists o, dev_ops dev = Some o /\ op_read o <> None) ->
  iodev_proxy_buffer s !! Z.to_nat id = Some (le_value w) -> are_bytes w -> length w = 4%nat ->
  are_bytes bs -> bs <> [] -> pending id (world (up_io s)) = bs ++ rest -> (length bs <= fuel)%nat ->
  (forall i, (0 < i < length bs)%nat -> take 3 (drop i (w ++ bs)) <> SYNC) ->
  take 3 (drop (length bs) (w ++ bs)) = SYNC ->
  exists s' more, scan_one fuel id s = Done (true, s') /\
    iodev_proxy_buffer s' !! Z.to_nat id = Some (le_value (drop (length bs) (w ++ bs))) /\
    pending id (world (up_io s')) = rest ++ more /\ up_mem s' = up_mem s /\ con_inv (up_io s') stream.
Proof. intros. by eapply scan_one_run. Qed.
End scan.

(** ** Memory transfers *)
Definition mem_request (addr size sum : Z) : list Z :=
  le_bytes 8 addr ++ le_bytes 8 size ++ le_bytes 4 sum ++ replicate 36 0.

Lemma mem_request_fields addr size sum :
  0 <= addr < 2 ^ 64 -> 0 <= size < 2 ^ 64 -> 0 <= sum < 2 ^ 32 ->
  mr_addr (mem_request addr size sum) = addr /\ mr_size (mem_request addr size sum) = size /\
  mr_dchecksum (mem_request addr size sum) = sum.
Proof.
  intros Ha Hs Hc. unfold mr_addr, mr_size, mr_dchecksum, get_field, mem_request. cbn [drop].
  rewrite !drop_0. split; [|split].
  - rewrite take_app_length' by (by rewrite le_bytes_length). rewrite le_value_le_bytes. by apply Z.mod_small.
  - rewrite drop_app_length' by (by rewrite le_bytes_length).
    rewrite take_app_length' by (by rewrite le_bytes_length). rewrite le_value_le_bytes. by apply Z.mod_small.
  - rewrite (app_assoc (le_bytes 8 addr)), drop_app_length' by (by rewrite length_app, !le_bytes_length).
    rewrite take_app_length' by (by rewrite le_bytes_length). rewrite le_value_le_bytes. by apply Z.mod_small.
Qed.

Lemma checksum_range d : 0 <= checksum d < 2 ^ 32.
Proof.
  unfold checksum, checksum_finish, checksum_start.
  pose proof (checksum_block_range d CHECKSUM_INIT ltac:(unfold CHECKSUM_INIT; lia)) as H.
  assert (0 <= Z.lxor (checksum_block d CHECKSUM_INIT) CHECKSUM_FINAL) by (apply Z.lxor_nonneg; unfold CHECKSUM_FINAL; lia).
  split; [done|]. destruct (decide (Z.lxor (checksum_block d CHECKSUM_INIT) CHECKSUM_FINAL = 0)) as [->|]; [lia|].
  apply Z.log2_lt_pow2; [lia|]. eapply Z.le_lt_trans; [apply Z.log2_lxor; unfold CHECKSUM_FINAL; lia|].
  apply Z.max_lub_lt; [|done].
  destruct (decide (checksum_block d CHECKSUM_INIT = 0)) as [->|]; [done|]. apply Z.log2_lt_pow2; lia.
Qed.

Lemma write8_run m a v : region m (u32 a) 1 -> write8 m a v = Done (write_bytes m (u32 a) [u8 v]).
Proof.
  intros Hr. unfold write8. rewrite c_write_spec by (done || apply Z.mod_1_r). cbn. by rewrite wrap_wrap.
Qed.

(** Writes inside a block disappear under a later write of the whole block. *)
Lemma write_bytes_absorb m a bs k v :
  a <= k < a + zlen bs -> write_bytes (<[k := v]> m) a bs = write_bytes m a bs.
Proof.
  intros Hk. apply map_eq. intros j. rewrite !lookup_write_bytes.
  destruct (decide (a <= j)); [destruct (decide (j < a + zlen bs))|]; bdec; [done|..]; rewrite lookup_insert_ne by lia; done.
Qed.

Section transfers.
Context {W : Type}.
Implicit Types (s : up_state W).

Lemma probe_target_run s addr n sum :
  0 <= addr -> 0 < n -> addr + n <= 2 ^ 32 -> 0 <= sum < 2 ^ 32 -> region (up_mem s) addr n ->
  exists m, probe_target (mem_request addr n sum) s =
      Done (set_up_mem (set_ps s (set_exc_guard (set_exc_count (ps s) 0) GUARD_OFF)) m) /\
    region m addr n /\ forall bs, zlen bs = n -> write_bytes m addr bs = write_bytes (up_mem s) addr bs.
Proof.
  intros Ha Hn Hw Hsum Hr. unfold probe_target.
  destruct (mem_request_fields addr n sum) as (-> & -> & _); [lia..|done|]. bdec.
  change (up_mem (set_ps s _)) with (up_mem s).
  assert (u32 addr = addr) as Ea by (apply u32_small; lia).
  assert (u32 (u64 (addr + n - 1)) = addr + n - 1) as Eb by (rewrite (wrap_small 64), u32_small; lia).
  rewrite write8_run; rewrite ?Ea; [|eapply region_sub; [exact Hr|lia..]]. rewrite bind_Done.
  rewrite write8_run; rewrite ?Eb; [|apply region_write; eapply region_sub; [exact Hr|lia..]].
  rewrite !bind_Done. eexists. split; [done|]. cbn [write_bytes]. split; [by do 2 apply region_insert|].
  intros bs Hbs. unfold set_up_mem. cbn [p_mem ps set_mem set_ps]. rewrite !write_bytes_absorb; [done|lia..].
Qed.

(** The messages a device is handed in one go: under the lock of the proxy's
    device each is queued, in order, and then the device is pushed and flushed. *)
Fixpoint queue_all (iodev : Z) (msgs : list (list Z)) (io : iodev_state W) : outcome (iodev_state W) :=
  match msgs with [] => Done io | m :: msgs => '(_, io) ← iodev_queue iodev m io; queue_all iodev msgs io end.

Definition send_all (iodev lk : Z) (msgs : list (list Z)) (io : iodev_state W) : outcome (iodev_state W) :=
  io ← iodev_lock lk io;
  io ← queue_all iodev msgs io;
  io ← iodev_unlock lk io;
  '(_, io) ← iodev_write iodev [] io;
  iodev_flush iodev io.

Lemma send_reply_data iodev u r d s :
  ur_status r = ST_OK -> disable_data_csums s = false ->
  load_bytes (Z.to_nat (u32 (mr_size u))) (up_mem s) (u32 (mr_addr u)) = Done d ->
  send_reply iodev REQ_MEMREAD u r s =
    (io ← send_all iodev (uartproxy_iodev (ps s)) [reply_bytes r; d] (up_io s); Done (set_up_io s io)).
Proof.
  intros Hr Hc Hl. unfold send_reply, send_all. rewrite Hr, Hl, Hc. change ((REQ_MEMREAD =? REQ_MEMREAD) && (ST_OK =? ST_OK)) with true.
  cbn [queue_all].
  destruct (iodev_lock (uartproxy_iodev (ps s)) (up_io s)) as [io| | |]; [rewrite !bind_Done, !bind_assoc|done..].
  destruct (iodev_queue iodev (reply_bytes r) io) as [[? io1]| | |]; [rewrite !bind_Done; cbn beta iota; rewrite !bind_assoc|done..].
  destruct (iodev_queue iodev d io1) as [[? io2]| | |]; [rewrite ?bind_Done; cbn beta iota; rewrite ?bind_Done, ?bind_assoc|done..].
  destruct (iodev_unlock (uartproxy_iodev (ps s)) io2) as [io3| | |]; [rewrite !bind_Done, !bind_assoc|done..].
  destruct (iodev_write iodev [] io3) as [[? io4]| | |]; [rewrite !bind_Done; reflexivity|done..].
Qed.

(** C14: A memory write from the host followed by a memory read of the same
    range, with the checksums of transferred data in use (the feature that
    replaces them by sentinels is off).  When the data arrive complete and their
    checksum is the announced one, the write succeeds and replaces exactly the
    target bytes (the probe's zeros are gone); the read then succeeds and leaves
    memory alone, and sending its reply queues on the device, one after the
    other and nothing else, the reply with the matching checksum and the data. *)
Theorem memwrite_memread s iodev addr data io sum2 :
  are_bytes data -> data <> [] -> 0 <= addr -> addr + zlen data <= 2 ^ 32 -> zlen data < 2 ^ 32 -> 0 <= sum2 < 2 ^ 32 ->
  region (up_mem s) addr (zlen data) -> disable_data_csums s = false ->
  iodev_read iodev (zlen data) (up_io s) = Done (zlen data, data, io) ->
  let un := put_field 4 0 (checksum data) zero_union in
  exists s1 s2,
    exec_memwrite iodev (mem_request addr (zlen data) (checksum data)) s = Done (ST_OK, un, None, s1) /\
    up_mem s1 = write_bytes (up_mem s) addr data /\ up_io s1 = io /\
    exec_memread (mem_request addr (zlen data) sum2) s1 = Done (ST_OK, un, None, s2) /\
    up_mem s2 = up_mem s1 /\ up_io s2 = io /\
    send_reply iodev REQ_MEMREAD (mem_request addr (zlen data) sum2) (URep REQ_MEMREAD ST_OK un) s2 =
      (io' ← send_all iodev (uartproxy_iodev (ps s)) [reply_bytes (URep REQ_MEMREAD ST_OK un); data] io;
       Done (set_up_io s2 io')).
Proof.
  intros Hd Hne Ha Hw Hlt Hs2 Hr Hcs Hread un.
  assert (0 < zlen data) as Hn by (destruct data; [done|]; rewrite zlen_cons; pose proof (zlen_nonneg data); lia).
  pose proof (checksum_range data) as Hcr.
  destruct (probe_target_run s addr (zlen data) (checksum data)) as (m & Hprobe & Hrm & Habs); [done..|].
  set (s0 := set_up_mem _ m) in Hprobe.
  assert (up_mem s0 = m /\ up_io s0 = up_io s /\ disable_data_csums s0 = false /\ exc_count (ps s0) = 0 /\ uartproxy_iodev (ps s0) = uartproxy_iodev (ps s))
    as (Em & Eio & Ecs & Eexc & Elk) by done. clearbody s0.
  set (m1 := write_bytes (up_mem s) addr data) in *.
  assert (load_bytes (Z.to_nat (u32 (zlen data))) m1 (u32 addr) = Done data) as Hld.
  { rewrite !u32_small, to_nat_zlen by lia. apply load_bytes_spec, bytes_at_write_eq; lia. }
  assert (forall x : up_state W, disable_data_csums x = false -> up_mem x = m1 -> data_checksum x addr (zlen data) = Done (checksum data)) as Hsum.
  { intros x Hx Hm. unfold data_checksum. by rewrite Hx, Hm, Hld. }
  destruct (mem_request_fields addr (zlen data) (checksum data)) as (Ea & Es & Ec); [lia..|].
  destruct (mem_request_fields addr (zlen data) sum2) as (Ea2 & Es2 & _); [lia..|].
  exists (set_up_mem (set_up_io s0 io) m1). eexists. split; [|split; [done|split; [done|split; [|split; [|split]]]]].
  - unfold exec_memwrite. rewrite Hprobe, bind_Done, Eexc, Es, Ea, Ec, Eio, Em, (u32_small (zlen data)), (u32_small addr) by lia.
    change (negb (0 =? 0)) with false. cbn iota. rewrite Hread, bind_Done, store_bytes_spec, bind_Done by done.
    rewrite Habs by done. rewrite (u32_small (zlen data)) by lia. bdec.
    rewrite Hsum, bind_Done, u32_small by done. bdec.
    change (disable_data_csums (set_up_mem _ _)) with (disable_data_csums s0). by rewrite Ecs.
  - unfold exec_memread. rewrite Es2, Ea2. bdec. rewrite Hsum by done. reflexivity.
  - done.
  - done.
  - etrans; [apply (send_reply_data _ _ _ data)|]; [done|exact Ecs|by rewrite Es2, Ea2|]. by rewrite <- Elk.
Qed.

(** C20: A frame with one damaged byte in its request is not executed: the
    answer is a reply with status [ST_CSUMERR], and apart from the device that
    was read and written nothing changes: not memory, not the options, and no
    operation of the request runs. *)
Theorem damaged_frame_rejected sv s (iodev type : Z) a x y b io1 io2 res :
  are_bytes (a ++ x :: b) -> length (a ++ x :: b) = 56%nat -> is_byte y -> x <> y ->
  znth (iodev_proxy_buffer s) iodev = Done type ->
  iodev_read iodev 60 (up_io s) =
    Done (60, a ++ y :: b ++ le_bytes 4 (checksum (le_bytes 4 type ++ a ++ x :: b)), io1) ->
  iodev_write iodev (reply_bytes (URep type ST_CSUMERR zero_union)) io1 = Done (res, io2) ->
  serve_frame sv iodev s = Done (None, set_up_io s io2).
Proof.
  intros Hb Hl Hy Hxy Htype Hread Hwrite. unfold serve_frame. rewrite Htype, bind_Done.
  change (REQ_SIZE - 4) with 60. rewrite Hread, bind_Done. change (negb (u32 60 =? 60)) with false. cbn iota zeta.
  set (c := le_bytes 4 (checksum (le_bytes 4 type ++ a ++ x :: b))).
  assert (length c = 4%nat) as Hc by apply le_bytes_length.
  assert (length (a ++ y :: b) = 56%nat) as Hl' by (rewrite length_app in *; exact Hl).
  replace (a ++ y :: b ++ c) with ((a ++ y :: b) ++ c) by (by rewrite <- app_assoc).
  rewrite (take_app_length' ((a ++ y :: b) ++ c)) by (rewrite length_app; lia).
  unfold get_field. rewrite (take_app_length' (a ++ y :: b)), (drop_app_length' (a ++ y :: b)) by done.
  rewrite firstn_all2 by lia. subst c. rewrite le_value_le_bytes, Z.mod_small by apply checksum_range.
  destruct (checksum (le_bytes 4 type ++ a ++ y :: b) =? checksum (le_bytes 4 type ++ a ++ x :: b)) eqn:E; b2p.
  - exfalso. rewrite !app_assoc in E. apply Hxy. symmetry. apply Forall_app in Hb as [_ Hb]. inversion Hb; subst.
    by apply checksum_block_neq in E.
  - change (up_io (set_up_io s io1)) with io1. rewrite Hwrite. reflexivity.
Qed.
End transfers.

(** ** Concrete exchanges *)
Definition up_demo (input : list Z) : up_state rec_world :=
  Up (set_io demo_proxy (rec_state_with (∅, {[1 := input]}))) (replicate 10 0) false.

Lemma checksum_single_error_witness : checksum (bytes_of "ab") <> checksum (bytes_of "ac").
Proof.
  refine (checksum_single_error [97] [] 98 99 _ _ _).
  - concrete.
  - done.
  - done.
Defined.

Lemma scan_one_syncs_witness :
  exists s' more, scan_one 5 1 (up_demo [0x12; 0xFF; 0x55; 0xAA; 0x01; 9; 9]) = Done (true, s') /\
    iodev_proxy_buffer s' !! 1%nat = Some REQ_PROXY /\
    pending 1 (world (up_io s')) = [9; 9] ++ more /\
    up_mem s' = p_mem demo_proxy /\ con_inv (up_io s') [].
Proof.
  refine (scan_one_syncs 5 1 (up_demo [0x12; 0xFF; 0x55; 0xAA; 0x01; 9; 9]) [0; 0; 0; 0] [0x12; 0xFF; 0x55; 0xAA; 0x01] [9; 9]
            (Dev (Some rec_ops) SPINLOCK_INIT USAGE_UARTPROXY 1) [] _ _ _ _ _ _ _ _ _ _ _ _ _ _).
  - done.
  - apply rec_state_with_inv.
  - done.
  - done.
  - by exists rec_ops.
  - done.
  - concrete.
  - done.
  - concrete.
  - done.
  - done.
  - done.
  - intros i Hi. cbn in Hi. destruct i as [|[|[|[|[|i]]]]]; first [lia | done].
  - done.
Defined.

Definition demo_data : list Z := [1; 2; 3; 4; 5].

(** Transfers need no console: two devices and an empty ring. *)
Definition up_tiny (input : list Z) : up_state rec_world :=
  Up (set_io demo_proxy (Ist [None; Some (Dev (Some rec_ops) SPINLOCK_INIT USAGE_UARTPROXY 1)] [] 0 [] 0 SPINLOCK_INIT true 0 (∅, {[1 := input]})))
    [0; REQ_PROXY] false.
Definition io_after_read (n : Z) (s : up_state rec_world) : iodev_state rec_world :=
  match iodev_read 1 n (up_io s) with Done (_, _, io) => io | _ => up_io s end.

Lemma memwrite_memread_witness :
  exists s1, exec_memwrite 1 (mem_request 4100 5 (checksum demo_data)) (up_tiny demo_data) =
      Done (ST_OK, put_field 4 0 (checksum demo_data) zero_union, None, s1) /\
    up_mem s1 = write_bytes (p_mem demo_proxy) 4100 demo_data.
Proof.
  destruct (memwrite_memread (up_tiny demo_data) 1 4100 demo_data (io_after_read 5 (up_tiny demo_data)) 0) as (s1 & s2 & H1 & H2 & _).
  - concrete.
  - done.
  - done.
  - done.
  - done.
  - done.
  - concrete_region [0; 0; 0; 0; 0].
  - done.
  - vm_compute. reflexivity.
  - exists s1. split; [exact H1|exact H2].
Defined.

Definition demo_request : list Z := replicate 56 7.
Definition demo_damaged : list Z := 7 :: 8 :: replicate 54 7 ++ le_bytes 4 (checksum (le_bytes 4 REQ_PROXY ++ demo_request)).
(** The device states after the frame is read and after the reply is sent. *)
Definition demo_io1 : iodev_state rec_world := io_after_read 60 (up_tiny demo_damaged).
Definition demo_io2 : iodev_state rec_world :=
  match iodev_write 1 (reply_bytes (URep REQ_PROXY ST_CSUMERR zero_union)) demo_io1 with Done (_, io) => io | _ => demo_io1 end.

Lemma damaged_frame_rejected_witness :
  serve_frame demo_services 1 (up_tiny demo_damaged) = Done (None, set_up_io (up_tiny demo_damaged) demo_io2).
Proof.
  assert (are_bytes ([7] ++ 7 :: replicate 54 7)) as Hb by concrete.
  assert (is_byte 8) as H8 by done.
  assert (7 <> 8) as H78 by done.
  assert (iodev_read 1 60 (up_io (up_tiny demo_damaged)) = Done (60, [7] ++ 8 :: replicate 54 7 ++ le_bytes 4 (checksum (le_bytes 4 REQ_PROXY ++ [7] ++ 7 :: replicate 54 7)), demo_io1)) as E
    by (vm_compute; reflexivity).
  assert (iodev_write 1 (reply_bytes (URep REQ_PROXY ST_CSUMERR zero_union)) demo_io1 = Done (3, demo_io2)) as E2
    by (vm_compute; reflexivity).
  exact (damaged_frame_rejected demo_services (up_tiny demo_damaged) 1 REQ_PROXY [7] 7 8 (replicate 54 7) demo_io1 demo_io2 3
           Hb eq_refl H8 H78 eq_refl E E2).
Defined.
