(* ===== verification/UsbDesc.v ===== *)
(** * USB descriptors (src/usb_types.h, the tables of src/usb_dwc2.c)

    The packed descriptor structures and their bytes on the wire, and the
    tables the gadget serves: a composite device with two CDC ACM pipes.  The
    host's side is a walk of the configuration by [bLength], and the decoding of
    a string descriptor. *)
From S2P Require Import Prelude Machine.

(** ** Logical endpoints *)
Definition USB_LEP_CTRL_OUT : Z := 0.
Definition USB_LEP_CTRL_IN : Z := 1.
Definition USB_LEP_CDC_INTR_IN : Z := 2.
Definition USB_LEP_CDC_BULK_OUT : Z := 3.
Definition USB_LEP_CDC_BULK_IN : Z := 4.
Definition USB_LEP_CDC_INTR_IN_2 : Z := 5.
Definition USB_LEP_CDC_BULK_OUT_2 : Z := 6.
Definition USB_LEP_CDC_BULK_IN_2 : Z := 7.

Definition phyEndpoints : list Z := [0x0; 0x80; 0x81; 0x2; 0x83; 0x84; 0x05; 0x86].
Definition cdc_default_line_coding : list Z := [0x80; 0x25; 0x00; 0x00; 0x00; 0x00; 0x08].

Definition USB_DEVICE_DESCRIPTOR : Z := 0x01.
Definition USB_CONFIGURATION_DESCRIPTOR : Z := 0x02.
Definition USB_STRING_DESCRIPTOR : Z := 0x03.
Definition USB_INTERFACE_DESCRIPTOR : Z := 0x04.
Definition USB_ENDPOINT_DESCRIPTOR : Z := 0x05.
Definition USB_DEVICE_QUALIFIER_DESCRIPTOR : Z := 0x06.
Definition USB_CDC_INTERFACE_FUNCTIONAL_DESCRIPTOR : Z := 0x24.
Definition USB_CDC_UNION_SUBTYPE : Z := 0x06.
Definition USB_CONFIGURATION_SELF_POWERED : Z := 0x40.
Definition USB_CONFIGURATION_ATTRIBUTE_RES1 : Z := 0x80.
Definition USB_ENDPOINT_ADDR_IN (ep : Z) : Z := Z.lor 0x80 ep.
Definition USB_ENDPOINT_ADDR_OUT (ep : Z) : Z := Z.lor 0x00 ep.
Definition USB_ENDPOINT_ATTR_TYPE_BULK : Z := 2.
Definition USB_ENDPOINT_ATTR_TYPE_INTERRUPT : Z := 3.
Definition USB_LANGID_EN_US : Z := 0x0409.
Definition CDC_DEVICE_CLASS : Z := 0x02.
Definition CDC_USB_VID : Z := 0x1209.
Definition CDC_USB_PID : Z := 0x316d.
Definition CDC_INTERFACE_CLASS : Z := 0x02.
Definition CDC_INTERFACE_CLASS_DATA : Z := 0x0a.
Definition CDC_INTERFACE_SUBCLASS_ACM : Z := 0x02.
Definition CDC_INTERFACE_PROTOCOL_NONE : Z := 0x00.
Definition STRING_DESCRIPTOR_LANGUAGES : Z := 0.
Definition STRING_DESCRIPTOR_MANUFACTURER : Z := 1.
Definition STRING_DESCRIPTOR_PRODUCT : Z := 2.
Definition STRING_DESCRIPTOR_SERIAL : Z := 3.

(** ** The packed structures *)
Record usb_device_descriptor : Type := DeviceDescriptor {
  dd_bLength : Z; dd_bDescriptorType : Z; bcdUSB : Z; bDeviceClass : Z; bDeviceSubClass : Z;
  bDeviceProtocol : Z; bMaxPacketSize0 : Z; idVendor : Z; idProduct : Z; bcdDevice : Z;
  iManufacturer : Z; iProduct : Z; iSerialNumber : Z; bNumConfigurations : Z;
}.
Definition device_bytes (d : usb_device_descriptor) : list Z :=
  [u8 (dd_bLength d); u8 (dd_bDescriptorType d)] ++ le_bytes 2 (bcdUSB d)
  ++ [u8 (bDeviceClass d); u8 (bDeviceSubClass d); u8 (bDeviceProtocol d); u8 (bMaxPacketSize0 d)]
  ++ le_bytes 2 (idVendor d) ++ le_bytes 2 (idProduct d) ++ le_bytes 2 (bcdDevice d)
  ++ [u8 (iManufacturer d); u8 (iProduct d); u8 (iSerialNumber d); u8 (bNumConfigurations d)].

Record usb_configuration_descriptor : Type := ConfigurationDescriptor {
  cd_bLength : Z; cd_bDescriptorType : Z; wTotalLength : Z; bNumInterfaces : Z;
  bConfigurationValue : Z; iConfiguration : Z; cd_bmAttributes : Z; bMaxPower : Z;
}.
Definition configuration_bytes (d : usb_configuration_descriptor) : list Z :=
  [u8 (cd_bLength d); u8 (cd_bDescriptorType d)] ++ le_bytes 2 (wTotalLength d)
  ++ [u8 (bNumInterfaces d); u8 (bConfigurationValue d); u8 (iConfiguration d); u8 (cd_bmAttributes d); u8 (bMaxPower d)].

Record usb_interface_descriptor : Type := InterfaceDescriptor {
  id_bLength : Z; id_bDescriptorType : Z; bInterfaceNumber : Z; bAlternateSetting : Z; bNumEndpoints : Z;
  bInterfaceClass : Z; bInterfaceSubClass : Z; bInterfaceProtocol : Z; iInterface : Z;
}.
Definition interface_bytes (d : usb_interface_descriptor) : list Z :=
  map u8 [id_bLength d; id_bDescriptorType d; bInterfaceNumber d; bAlternateSetting d; bNumEndpoints d;
          bInterfaceClass d; bInterfaceSubClass d; bInterfaceProtocol d; iInterface d].

Record usb_endpoint_descriptor : Type := EndpointDescriptor {
  ed_bLength : Z; ed_bDescriptorType : Z; bEndpointAddress : Z; ed_bmAttributes : Z; wMaxPacketSize : Z; bInterval : Z;
}.
Definition endpoint_bytes (d : usb_endpoint_descriptor) : list Z :=
  map u8 [ed_bLength d; ed_bDescriptorType d; bEndpointAddress d; ed_bmAttributes d]
  ++ le_bytes 2 (wMaxPacketSize d) ++ [u8 (bInterval d)].

Record cdc_union_functional_descriptor : Type := UnionDescriptor {
  bFunctionLength : Z; ud_bDescriptorType : Z; bDescriptorSubtype : Z; bControlInterface : Z; bDataInterface : Z;
}.
Definition union_bytes (d : cdc_union_functional_descriptor) : list Z :=
  map u8 [bFunctionLength d; ud_bDescriptorType d; bDescriptorSubtype d; bControlInterface d; bDataInterface d].

Record usb_device_qualifier_descriptor : Type := QualifierDescriptor {
  qd_bLength : Z; qd_bDescriptorType : Z; qd_bcdUSB : Z; qd_bDeviceClass : Z; qd_bDeviceSubClass : Z;
  qd_bDeviceProtocol : Z; qd_bMaxPacketSize0 : Z; qd_bNumConfigurations : Z; bReserved : Z;
}.
Definition qualifier_bytes (d : usb_device_qualifier_descriptor) : list Z :=
  [u8 (qd_bLength d); u8 (qd_bDescriptorType d)] ++ le_bytes 2 (qd_bcdUSB d)
  ++ map u8 [qd_bDeviceClass d; qd_bDeviceSubClass d; qd_bDeviceProtocol d; qd_bMaxPacketSize0 d;
             qd_bNumConfigurations d; bReserved d].

Definition sizeof_configuration : Z := 9.
Definition sizeof_interface : Z := 9.
Definition sizeof_endpoint : Z := 7.
Definition sizeof_union : Z := 5.

Record cdc_dev_desc : Type := CdcDevDesc {
  configuration : usb_configuration_descriptor;
  interface_management : usb_interface_descriptor;
  cdc_union_func : cdc_union_functional_descriptor;
  endpoint_notification : usb_endpoint_descriptor;
  interface_data : usb_interface_descriptor;
  endpoint_data_in : usb_endpoint_descriptor;
  endpoint_data_out : usb_endpoint_descriptor;
  sec_interface_management : usb_interface_descriptor;
  sec_cdc_union_func : cdc_union_functional_descriptor;
  sec_endpoint_notification : usb_endpoint_descriptor;
  sec_interface_data : usb_interface_descriptor;
  sec_endpoint_data_in : usb_endpoint_descriptor;
  sec_endpoint_data_out : usb_endpoint_descriptor;
}.
Definition cdc_dev_desc_bytes (d : cdc_dev_desc) : list Z :=
  configuration_bytes (configuration d) ++ interface_bytes (interface_management d)
  ++ union_bytes (cdc_union_func d) ++ endpoint_bytes (endpoint_notification d)
  ++ interface_bytes (interface_data d) ++ endpoint_bytes (endpoint_data_in d)
  ++ endpoint_bytes (endpoint_data_out d) ++ interface_bytes (sec_interface_management d)
  ++ union_bytes (sec_cdc_union_func d) ++ endpoint_bytes (sec_endpoint_notification d)
  ++ interface_bytes (sec_interface_data d) ++ endpoint_bytes (sec_endpoint_data_in d)
  ++ endpoint_bytes (sec_endpoint_data_out d).
Definition sizeof_cdc_dev_desc : Z :=
  sizeof_configuration + 2 * (2 * sizeof_interface + sizeof_union + 3 * sizeof_endpoint).

(** ** The tables *)
Definition phy (ep : Z) : Z := nth (Z.to_nat ep) phyEndpoints 0.
#[global] Arguments phy : simpl never.

Definition usb_cdc_device_descriptor : usb_device_descriptor :=
  {| dd_bLength := 18; dd_bDescriptorType := USB_DEVICE_DESCRIPTOR; bcdUSB := 0x0200;
     bDeviceClass := CDC_DEVICE_CLASS; bDeviceSubClass := 0; bDeviceProtocol := 0; bMaxPacketSize0 := 64;
     idVendor := CDC_USB_VID; idProduct := CDC_USB_PID; bcdDevice := 0x0100;
     iManufacturer := STRING_DESCRIPTOR_MANUFACTURER; iProduct := STRING_DESCRIPTOR_PRODUCT;
     iSerialNumber := STRING_DESCRIPTOR_SERIAL; bNumConfigurations := 1 |}.

Definition cdc_configuration_descriptor : cdc_dev_desc := {|
  configuration := {| cd_bLength := sizeof_configuration; cd_bDescriptorType := USB_CONFIGURATION_DESCRIPTOR;
    wTotalLength := sizeof_cdc_dev_desc; bNumInterfaces := 4; bConfigurationValue := 1; iConfiguration := 0;
    cd_bmAttributes := Z.lor USB_CONFIGURATION_ATTRIBUTE_RES1 USB_CONFIGURATION_SELF_POWERED; bMaxPower := 250 |};
  interface_management := {| id_bLength := sizeof_interface; id_bDescriptorType := USB_INTERFACE_DESCRIPTOR;
    bInterfaceNumber := 0; bAlternateSetting := 0; bNumEndpoints := 1; bInterfaceClass := CDC_INTERFACE_CLASS;
    bInterfaceSubClass := CDC_INTERFACE_SUBCLASS_ACM; bInterfaceProtocol := CDC_INTERFACE_PROTOCOL_NONE; iInterface := 0 |};
  cdc_union_func := {| bFunctionLength := sizeof_union; ud_bDescriptorType := USB_CDC_INTERFACE_FUNCTIONAL_DESCRIPTOR;
    bDescriptorSubtype := USB_CDC_UNION_SUBTYPE; bControlInterface := 0; bDataInterface := 1 |};
  endpoint_notification := {| ed_bLength := sizeof_endpoint; ed_bDescriptorType := USB_ENDPOINT_DESCRIPTOR;
    bEndpointAddress := USB_ENDPOINT_ADDR_IN (Z.land (phy USB_LEP_CDC_INTR_IN) 0xf);
    ed_bmAttributes := USB_ENDPOINT_ATTR_TYPE_INTERRUPT; wMaxPacketSize := 64; bInterval := 10 |};
  interface_data := {| id_bLength := sizeof_interface; id_bDescriptorType := USB_INTERFACE_DESCRIPTOR;
    bInterfaceNumber := 1; bAlternateSetting := 0; bNumEndpoints := 2; bInterfaceClass := CDC_INTERFACE_CLASS_DATA;
    bInterfaceSubClass := 0; bInterfaceProtocol := 0; iInterface := 0 |};
  endpoint_data_in := {| ed_bLength := sizeof_endpoint; ed_bDescriptorType := USB_ENDPOINT_DESCRIPTOR;
    bEndpointAddress := USB_ENDPOINT_ADDR_OUT (phy USB_LEP_CDC_BULK_OUT);
    ed_bmAttributes := USB_ENDPOINT_ATTR_TYPE_BULK; wMaxPacketSize := 512; bInterval := 10 |};
  endpoint_data_out := {| ed_bLength := sizeof_endpoint; ed_bDescriptorType := USB_ENDPOINT_DESCRIPTOR;
    bEndpointAddress := USB_ENDPOINT_ADDR_IN (Z.land (phy USB_LEP_CDC_BULK_IN) 0xf);
    ed_bmAttributes := USB_ENDPOINT_ATTR_TYPE_BULK; wMaxPacketSize := 512; bInterval := 10 |};
  sec_interface_management := {| id_bLength := sizeof_interface; id_bDescriptorType := USB_INTERFACE_DESCRIPTOR;
    bInterfaceNumber := 2; bAlternateSetting := 0; bNumEndpoints := 1; bInterfaceClass := CDC_INTERFACE_CLASS;
    bInterfaceSubClass := CDC_INTERFACE_SUBCLASS_ACM; bInterfaceProtocol := CDC_INTERFACE_PROTOCOL_NONE; iInterface := 0 |};
  sec_cdc_union_func := {| bFunctionLength := sizeof_union; ud_bDescriptorType := USB_CDC_INTERFACE_FUNCTIONAL_DESCRIPTOR;
    bDescriptorSubtype := USB_CDC_UNION_SUBTYPE; bControlInterface := 2; bDataInterface := 3 |};
  sec_endpoint_notification := {| ed_bLength := sizeof_endpoint; ed_bDescriptorType := USB_ENDPOINT_DESCRIPTOR;
    bEndpointAddress := USB_ENDPOINT_ADDR_IN (Z.land (phy USB_LEP_CDC_INTR_IN_2) 0xf);
    ed_bmAttributes := USB_ENDPOINT_ATTR_TYPE_INTERRUPT; wMaxPacketSize := 64; bInterval := 10 |};
  sec_interface_data := {| id_bLength := sizeof_interface; id_bDescriptorType := USB_INTERFACE_DESCRIPTOR;
    bInterfaceNumber := 3; bAlternateSetting := 0; bNumEndpoints := 2; bInterfaceClass := CDC_INTERFACE_CLASS_DATA;
    bInterfaceSubClass := 0; bInterfaceProtocol := 0; iInterface := 0 |};
  sec_endpoint_data_in := {| ed_bLength := sizeof_endpoint; ed_bDescriptorType := USB_ENDPOINT_DESCRIPTOR;
    bEndpointAddress := USB_ENDPOINT_ADDR_OUT (phy USB_LEP_CDC_BULK_OUT_2);
    ed_bmAttributes := USB_ENDPOINT_ATTR_TYPE_BULK; wMaxPacketSize := 512; bInterval := 10 |};
  sec_endpoint_data_out := {| ed_bLength := sizeof_endpoint; ed_bDescriptorType := USB_ENDPOINT_DESCRIPTOR;
    bEndpointAddress := USB_ENDPOINT_ADDR_IN (Z.land (phy USB_LEP_CDC_BULK_IN_2) 0xf);
    ed_bmAttributes := USB_ENDPOINT_ATTR_TYPE_BULK; wMaxPacketSize := 512; bInterval := 10 |};
|}.

Definition usb_cdc_device_qualifier_descriptor : usb_device_qualifier_descriptor :=
  {| qd_bLength := 10; qd_bDescriptorType := USB_DEVICE_QUALIFIER_DESCRIPTOR; qd_bcdUSB := 0x0200;
     qd_bDeviceClass := CDC_DEVICE_CLASS; qd_bDeviceSubClass := 0; qd_bDeviceProtocol := 0;
     qd_bMaxPacketSize0 := 64; qd_bNumConfigurations := 0; bReserved := 0 |}.

(** [make_usb_string_descriptor]: the object holds the UTF-16 literal with its
    terminator, which [bLength] leaves out. *)
Definition utf16 (s : list Z) : list Z := concat (map (le_bytes 2) s).
Definition make_usb_string_descriptor (s : list Z) : list Z :=
  [u8 (2 + 2 * (zlen s + 1) - 2); USB_STRING_DESCRIPTOR] ++ utf16 (s ++ [0]).

Definition str_langs : list Z := [4; USB_STRING_DESCRIPTOR] ++ le_bytes 2 USB_LANGID_EN_US.
Definition str_manufacturer : list Z := make_usb_string_descriptor (bytes_of "Haywire Linux").
(** [build_tag] is the string BUILD_TAG of the generated build_tag.h. *)
Definition str_product (build_tag : list Z) : list Z :=
  make_usb_string_descriptor (bytes_of "mini uartproxy " ++ build_tag).
Definition str_serial_dummy : list Z := make_usb_string_descriptor (bytes_of "P-0").

(** The descriptor that [usb_build_serial] allocates for a serial number: the
    length is stored in a [u8]. *)
Definition serial_descriptor (serial : list Z) : list Z :=
  [u8 (2 + 2 * zlen serial); USB_STRING_DESCRIPTOR] ++ utf16 serial.

(** ** The host's reading *)

(** Cut a configuration into its descriptors by their first byte. *)
Fixpoint walk (fuel : nat) (bs : list Z) : option (list (list Z)) :=
  match bs, fuel with
  | [], _ => Some []
  | _, O => None
  | l :: _, S fuel' =>
      if (2 <=? l) && (l <=? zlen bs) then
        rest ← walk fuel' (drop (Z.to_nat l) bs); Some (take (Z.to_nat l) bs :: rest)
      else None
  end.

(** The string a host reads in the first [n] bytes of a string descriptor. *)
Fixpoint utf16_units (bs : list Z) : list Z :=
  match bs with
  | lo :: hi :: bs' => (lo + 256 * hi) :: utf16_units bs'
  | _ => []
  end.
Definition host_string (bs : list Z) : list Z :=
  match bs with l :: _ => utf16_units (drop 2 (take (Z.to_nat l) bs)) | [] => [] end.

(** What a host knows of an interface: its number, its class, the endpoints
    announced and those found. *)
Record interface_view : Type := View { v_number : Z; v_class : Z; v_count : Z; v_endpoints : list Z }.

(** The interfaces in order, each with the endpoints that follow it. *)
Fixpoint view (ds : list (list Z)) : list Z * list interface_view :=
  match ds with
  | [] => ([], [])
  | d :: ds' =>
      let (es, vs) := view ds' in
      match d with
      | [_; 4; n; _; k; c; _; _; _] => ([], View n c k es :: vs)
      | [_; 5; a; _; _; _; _] => (a :: es, vs)
      | _ => (es, vs)
      end
  end.

(** ** The walk of the configuration *)
Definition desc_ok (d : list Z) : Prop := 2 <= zlen d /\ head d = Some (zlen d).

Lemma walk_concat ds fuel :
  Forall desc_ok ds -> (length ds <= fuel)%nat -> walk fuel (concat ds) = Some ds.
Proof.
  revert fuel. induction ds as [|d ds IH]; intros fuel Hd Hf; [by destruct fuel|].
  inversion_clear Hd as [|? ? [Hl Hh] Hds]. destruct d as [|l d]; [done|].
  injection Hh as Hh. destruct fuel as [|fuel]; cbn [length] in Hf; [lia|].
  cbn [concat app walk]. change (l :: d ++ concat ds) with ((l :: d) ++ concat ds).
  rewrite zlen_app. pose proof (zlen_nonneg (concat ds)).
  replace (2 <=? l) with true by (symmetry; apply Z.leb_le; lia).
  replace (l <=? zlen (l :: d) + zlen (concat ds)) with true by (symmetry; apply Z.leb_le; lia).
  cbn [andb]. replace (Z.to_nat l) with (length (l :: d)) by (unfold zlen in Hh; lia).
  rewrite drop_app_length, take_app_length. by rewrite IH by (done || lia).
Qed.

(** The pieces of the structure, and the lengths that make a walk succeed. *)
Definition pieces (d : cdc_dev_desc) : list (list Z) :=
  [configuration_bytes (configuration d); interface_bytes (interface_management d);
   union_bytes (cdc_union_func d); endpoint_bytes (endpoint_notification d);
   interface_bytes (interface_data d); endpoint_bytes (endpoint_data_in d);
   endpoint_bytes (endpoint_data_out d); interface_bytes (sec_interface_management d);
   union_bytes (sec_cdc_union_func d); endpoint_bytes (sec_endpoint_notification d);
   interface_bytes (sec_interface_data d); endpoint_bytes (sec_endpoint_data_in d);
   endpoint_bytes (sec_endpoint_data_out d)].
Definition lengths_ok (d : cdc_dev_desc) : Prop := Forall desc_ok (pieces d).

Lemma cdc_dev_desc_pieces d : cdc_dev_desc_bytes d = concat (pieces d).
Proof. unfold cdc_dev_desc_bytes, pieces. cbn [concat]. by rewrite app_nil_r. Qed.

Lemma zlen_cdc_dev_desc d : zlen (cdc_dev_desc_bytes d) = sizeof_cdc_dev_desc.
Proof. reflexivity. Qed.

(** ** String descriptors *)
Lemma utf16_units_utf16 s rest :
  Forall (fun c => 0 <= c < 65536) s -> utf16_units (utf16 s ++ rest) = s ++ utf16_units rest.
Proof.
  induction s as [|c s IH]; intros Hs; [done|]. inversion_clear Hs as [|? ? Hc Hs'].
  change (utf16 (c :: s)) with (le_bytes 2 c ++ utf16 s). cbn [le_bytes app utf16_units].
  rewrite IH by done. f_equal. unfold wrap. lia.
Qed.

Lemma zlen_utf16 s : zlen (utf16 s) = 2 * zlen s.
Proof.
  induction s as [|c s IH]; [done|]. change (utf16 (c :: s)) with (le_bytes 2 c ++ utf16 s).
  rewrite zlen_app, IH, zlen_cons. cbn. autorewrite with haywire. lia.
Qed.

Lemma host_string_prefix l s rest :
  Forall (fun c => 0 <= c < 65536) s -> l = 2 + 2 * zlen s ->
  host_string ([l; USB_STRING_DESCRIPTOR] ++ utf16 s ++ rest) = s.
Proof.
  intros Hs ->. cbn [host_string app]. pose proof (zlen_nonneg s).
  replace (Z.to_nat (2 + 2 * zlen s)) with (2 + length (utf16 s))%nat.
  2:{ pose proof (zlen_utf16 s). unfold zlen in *. lia. }
  cbn [Nat.add take drop]. rewrite drop_0, take_app_length.
  rewrite <- (app_nil_r (utf16 s)), utf16_units_utf16 by done. apply app_nil_r.
Qed.

(** A host that cuts the configuration descriptor by [bLength] recovers the
    thirteen structures of the source for every such table, and in the table
    the gadget serves it finds [wTotalLength] bytes, [bNumInterfaces]
    interfaces numbered from 0, each with the [bNumEndpoints] endpoints it
    announces, and together exactly the endpoints of [phyEndpoints] but the two
    control ones. *)
Theorem configuration_walk (d : cdc_dev_desc) :
  lengths_ok d ->
  walk 13 (cdc_dev_desc_bytes d) = Some (pieces d) /\
  (d = cdc_configuration_descriptor ->
   let vs := snd (view (pieces d)) in
   zlen (cdc_dev_desc_bytes d) = wTotalLength (configuration d) /\
   map v_number vs = seqZ 0 (bNumInterfaces (configuration d)) /\
   Forall (fun v => zlen (v_endpoints v) = v_count v) vs /\
   Permutation (concat (map v_endpoints vs)) (drop 2 phyEndpoints)).
Proof.
  intros H. split.
  - rewrite cdc_dev_desc_pieces. apply walk_concat; [done|]. cbn. lia.
  - intros -> vs. split; [reflexivity|]. split; [reflexivity|].
    split; [repeat constructor|reflexivity].
Qed.

Lemma configuration_walk_witness :
  walk 13 (cdc_dev_desc_bytes cdc_configuration_descriptor) = Some (pieces cdc_configuration_descriptor) /\
  map v_endpoints (snd (view (pieces cdc_configuration_descriptor))) = [[0x81]; [0x02; 0x83]; [0x84]; [0x05; 0x86]].
Proof.
  split; [|reflexivity]. apply (configuration_walk cdc_configuration_descriptor).
  repeat constructor; cbn; discriminate.
Defined.

(** A string descriptor built from at most 126 characters, by the macro or
    by [usb_build_serial], is read back by the host as the same string; a serial
    number of 127 characters wraps [bLength] to zero and reads as the empty
    string. *)
Theorem string_descriptor_decodes (s : list Z) :
  Forall (fun c => 0 <= c < 65536) s ->
  (zlen s <= 126 -> host_string (make_usb_string_descriptor s) = s /\ host_string (serial_descriptor s) = s) /\
  (zlen s = 127 -> host_string (serial_descriptor s) = []).
Proof.
  intros Hs. pose proof (zlen_nonneg s). split; intros Hl.
  - split.
    + unfold make_usb_string_descriptor, utf16 at 1. rewrite map_app, concat_app.
      apply host_string_prefix; [done|]. rewrite u8_small; unfold is_byte; lia.
    + unfold serial_descriptor. rewrite <- (app_nil_r (utf16 s)). apply host_string_prefix; [done|].
      apply u8_small. unfold is_byte. lia.
  - unfold serial_descriptor. rewrite Hl. reflexivity.
Qed.

Lemma string_descriptor_decodes_witness : host_string (serial_descriptor (bytes_of "C8QH")) = bytes_of "C8QH".
Proof.
  destruct (string_descriptor_decodes (bytes_of "C8QH")) as [H _]; [repeat constructor; cbn; lia|].
  apply H. vm_compute. discriminate.
Defined.
