(* ===== verification/Dwc2.v ===== *)
(** * DesignWare USB 2.0 device controller (src/usb_dwc2.c, src/usb_dwc2_regs.h)

    The gadget driver: endpoint 0's state machine, the descriptors and class
    requests it answers, the two bulk pipes with their ring buffers, the
    interrupt loop, and the calls usb.c makes an I/O device of.  The controller
    is the class [Dwc2Hw]: it answers register accesses from a state of its own
    and may change the memory it masters (the DMA page) at each of them. *)
From S2P Require Import Prelude Machine CString Adt RingBuffer UsbDesc.

(** ** Registers *)
Definition DWC2_DSTS_CONNECTSPD : Z := 0x6.
Definition DWC2_DSTS_HIGHSPEED : Z := 0x0.
Definition DWC2_EP_TYPE_CONTROL : Z := 0.
Definition DWC2_EP_TYPE_BULK : Z := 2.
Definition DWC2_EP_TYPE_INTR : Z := 3.
Definition DWC2_GAHBCFG : Z := 0x008.
Definition DWC2_GAHBCFG_DMA_EN : Z := BIT 5.
Definition DWC2_GUSBCFG : Z := 0x00c.
Definition DWC2_GUSBCFG_PHYIF16 : Z := BIT 3.
Definition DWC2_GRSTCTL : Z := 0x010.
Definition DWC2_GRSTCTL_CSFTRST : Z := BIT 0.
Definition DWC2_GINTSTS : Z := 0x014.
Definition DWC2_GINTSTS_GOUTNakEff : Z := BIT 7.
Definition DWC2_GINTSTS_USBSuspend : Z := BIT 11.
Definition DWC2_GINTSTS_USBRst : Z := BIT 12.
Definition DWC2_GINTSTS_ENUMDone : Z := BIT 13.
Definition DWC2_GINTSTS_IEPInt : Z := BIT 18.
Definition DWC2_GINTSTS_OEPInt : Z := BIT 19.
Definition DWC2_GINTMSK : Z := 0x018.
Definition DWC2_GINTMSK_OEPIntMsk : Z := BIT 19.
Definition DWC2_GINTMSK_IEPIntMsk : Z := BIT 18.
Definition DWC2_GINTSTS_ENUMDoneMsk : Z := BIT 13.
Definition DWC2_GINTSTS_USBRstMsk : Z := BIT 12.
Definition DWC2_GRXFSIZ : Z := 0x024.
Definition DWC2_GNPTXFSIZ : Z := 0x028.
Definition DWC2_GSNPSID : Z := 0x040.
Definition DWC2_GSNPSID_MASK : Z := 0xffff0000.
Definition DWC2_DTXFSIZ (n : Z) : Z := 0x104 + 0x4 * (n - 1).
Definition DWC2_DCFG : Z := 0x800.
Definition DCFG_NZ_STS_OUT_HSHK : Z := BIT 2.
Definition DWC2_DCTL : Z := 0x804.
Definition DWC2_DCTL_SftDisCon : Z := BIT 1.
Definition DWC2_DCTL_SGOUTNak : Z := BIT 9.
Definition DWC2_DCTL_CGOUTNak : Z := BIT 10.
Definition DWC2_DSTS : Z := 0x808.
Definition DWC2_DIEPMSK : Z := 0x810.
Definition DWC2_DIEPMSK_XferComplMsk : Z := BIT 0.
Definition DWC2_DIEPMSK_AHBErrMsk : Z := BIT 2.
Definition DWC2_DIEPMSK_TimeOUTMsk : Z := BIT 3.
Definition DWC2_DOEPMSK : Z := 0x814.
Definition DWC2_DOEPMSK_XferComplMsk : Z := BIT 0.
Definition DWC2_DOEPMSK_AHBErrMsk : Z := BIT 2.
Definition DWC2_DOEPMSK_SetUPMsk : Z := BIT 3.
Definition DWC2_DAINT : Z := 0x818.
Definition DWC2_DAINTMSK : Z := 0x81c.
Definition DWC2_DIEPCTL (ep : Z) : Z := 0x900 + 0x20 * ep.
Definition DWC2_DXEPCTLi_EnableEP : Z := BIT 31.
Definition DWC2_DXEPCTLi_DisableEP : Z := BIT 30.
Definition DWC2_DXEPCTLi_SetD0Pid : Z := BIT 28.
Definition DWC2_DXEPCTL_SetNAK : Z := BIT 27.
Definition DWC2_DXEPCTL_ClearNAK : Z := BIT 26.
Definition DWC2_DXEPCTL_Stall : Z := BIT 21.
Definition DWC2_DXEPCTL_ActivateEP : Z := BIT 15.
Definition DWC2_DIEPINT (ep : Z) : Z := 0x908 + 0x20 * ep.
Definition DWC2_DIEPINT_InTokenTXFifoEmpty : Z := BIT 4.
Definition DWC2_DIEPINT_TimeOUT : Z := BIT 3.
Definition DWC2_DIEPINT_AHBErr : Z := BIT 2.
Definition DWC2_DIEPINT_EPDisabled : Z := BIT 1.
Definition DWC2_DIEPINT_XferCompl : Z := BIT 0.
Definition DWC2_DIEPTSIZ (ep : Z) : Z := 0x910 + 0x20 * ep.
Definition DWC2_DIEPDMA (ep : Z) : Z := 0x914 + 0x20 * ep.
Definition DWC2_DOEPCTL (ep : Z) : Z := 0xb00 + 0x20 * ep.
Definition DWC2_DOEPINT (ep : Z) : Z := 0xb08 + 0x20 * ep.
Definition DWC2_DOEPINT_STUP_PKT_RCVD : Z := BIT 15.
Definition DWC2_DOEPINT_SETUP : Z := BIT 3.
Definition DWC2_DOEPINT_AHBErr : Z := BIT 2.
Definition DWC2_DOEPINT_EPDisabled : Z := BIT 1.
Definition DWC2_DOEPINT_XFER_COMPL : Z := BIT 0.
Definition DWC2_DOEPTSIZ (ep : Z) : Z := 0xb10 + 0x20 * ep.
Definition DWC2_DOEPDMA (ep : Z) : Z := 0xb14 + 0x20 * ep.

(** ** Constants of the driver *)
Definition MAX_ENDPOINTS : Z := 8.
Definition CDC_BUFFER_SIZE : Z := 0x100000.
Definition XFER_SIZE : Z := 0x4000.
Definition DMA_BUFFER_SIZE : Z := 0x4000 / 4.
(** [max(DMA_BUFFER_SIZE * MAX_ENDPOINTS, SZ_16K)] *)
Definition DMA_PAGE_SIZE : Z := Z.max (DMA_BUFFER_SIZE * MAX_ENDPOINTS) 0x4000.
Definition BULK_EP_MAX_PACKET_SIZE : Z := 0x200.
Definition RX_FIFO_SIZE : Z := (4 * 1 + 6) + 2 * ((BULK_EP_MAX_PACKET_SIZE / 4) + 8) + 1.
Definition TX_FIFO_SIZE : Z := 2 * (BULK_EP_MAX_PACKET_SIZE / 4).
Definition EP0_MAX_PACKET_SIZE : Z := 64.
Definition CDC_ACM_PIPE_MAX : Z := 2.
Definition USB_REQUEST_TYPE_STANDARD : Z := Z.shiftl 0 5.
Definition USB_REQUEST_TYPE_CLASS : Z := Z.shiftl 1 5.
Definition USB_REQUEST_TYPE_MASK : Z := Z.shiftl 3 5.
Definition USB_REQUEST_TYPE_RECIPIENT_DEVICE : Z := 0.
Definition USB_REQUEST_TYPE_RECIPIENT_INTERFACE : Z := 1.
Definition USB_REQUEST_TYPE_RECIPIENT_ENDPOINT : Z := 2.
Definition USB_REQUEST_TYPE_RECIPIENT_MASK : Z := 3.
Definition USB_REQUEST_GET_STATUS : Z := 0x00.
Definition USB_REQUEST_CLEAR_FEATURE : Z := 0x01.
Definition USB_REQUEST_SET_ADDRESS : Z := 0x05.
Definition USB_REQUEST_GET_DESCRIPTOR : Z := 0x06.
Definition USB_REQUEST_SET_CONFIGURATION : Z := 0x09.
Definition USB_FEATURE_ENDPOINT_HALT : Z := 0x00.
Definition USB_REQUEST_CDC_SET_LINE_CODING : Z := 0x20.
Definition USB_REQUEST_CDC_GET_LINE_CODING : Z := 0x21.
Definition USB_REQUEST_CDC_SET_CTRL_LINE_STATE : Z := 0x22.

(** ** The controller and the state *)

(** A register access may change the controller's state and the memory; a read
    also answers.  [hw_delay] is what happens while [udelay] waits. *)
Class Dwc2Hw (W : Type) : Type := {
  mmio_read : Z -> W -> mem -> Z * W * mem;
  mmio_write : Z -> Z -> W -> mem -> W * mem;
  hw_delay : Z -> W -> mem -> W * mem;
}.

Inductive ep0_state : Type :=
| USB_DWC2_EP0_STATE_IDLE
| USB_DWC2_EP0_STATE_SETUP_PENDING
| USB_DWC2_EP0_STATE_SETUP_HANDLE
| USB_DWC2_EP0_STATE_DATA_SEND
| USB_DWC2_EP0_STATE_DATA_RECV
| USB_DWC2_EP0_STATE_DATA_SEND_DONE
| USB_DWC2_EP0_STATE_DATA_RECV_DONE
| USB_DWC2_EP0_STATE_DATA_RECV_STATUS
| USB_DWC2_EP0_STATE_DATA_RECV_STATUS_DONE
| USB_DWC2_EP0_STATE_DATA_SEND_STATUS
| USB_DWC2_EP0_STATE_DATA_SEND_STATUS_DONE.

#[export] Instance ep0_state_eq_dec : EqDecision ep0_state.
Proof. solve_decision. Defined.

(** The fields the code uses; [transfer_data], [transfer_size], [transferred] and
    [transfer_max] are declared and never touched. *)
Record dwc2_endpoint : Type := Endpoint {
  xfer_in_progress : bool;
  zlp_pending : bool;
  in_flight : bool;
  xfer_buffer : Z;
  max_packet_size : Z;
}.

Record acm_pipe : Type := Pipe {
  host2device : option ringbuffer_t;
  device2host : option ringbuffer_t;
  ep_intr : Z;
  ep_in : Z;
  ep_out : Z;
  ready : bool;
  cdc_line_coding : list Z;
}.

(** Where [ep0_buffer] points: nowhere, to a constant object (its bytes), or to
    the line coding of a pipe. *)
Inductive ep0_source : Type :=
| Src_null
| Src_const (object : list Z)
| Src_line_coding (pipe : Z).

(** [ep0_read_buffer] is left out: it is NULL from the initial [memset] on, as
    its only assignment is commented out.  So is [setup_pkt], which is only
    stored. *)
Record dwc2_dev : Type := Dev {
  regs : Z;
  ep0_st : ep0_state;
  ep0_buffer : ep0_source;
  ep0_buffer_len : Z;
  ep0_read_buffer_len : Z;
  dma_page_p : Z;
  endpoints : list dwc2_endpoint;
  pipes : list acm_pipe;
}.

(** What the driver reads elsewhere: the device tree in memory, the address of
    the literal "serial-number", whether [calloc] finds room for the serial's
    descriptor (its result is not tested), and the generated build tag. *)
Record usb_env : Type := Env { env_mem : mem; env_adt : Z; lit_serial : Z; serial_alloc : bool; build_tag : list Z }.

(** The device, the file's two static variables, the controller and the memory. *)
Record usb (W : Type) : Type := Usb {
  dev : dwc2_dev;
  next_tx_fifo_addr : Z;
  str_serial : option (list Z);
  uw : W;
  um : mem;
}.
Arguments Usb {W} _ _ _ _ _.
Arguments dev {W} _.
Arguments next_tx_fifo_addr {W} _.
Arguments str_serial {W} _.
Arguments uw {W} _.
Arguments um {W} _.

Definition ep_progress (e : dwc2_endpoint) b := Endpoint b (zlp_pending e) (in_flight e) (xfer_buffer e) (max_packet_size e).
Definition ep_zlp (e : dwc2_endpoint) b := Endpoint (xfer_in_progress e) b (in_flight e) (xfer_buffer e) (max_packet_size e).
Definition ep_flight (e : dwc2_endpoint) b := Endpoint (xfer_in_progress e) (zlp_pending e) b (xfer_buffer e) (max_packet_size e).
Definition ep_maxpkt (e : dwc2_endpoint) n := Endpoint (xfer_in_progress e) (zlp_pending e) (in_flight e) (xfer_buffer e) n.
Definition pipe_h2d (p : acm_pipe) r := Pipe r (device2host p) (ep_intr p) (ep_in p) (ep_out p) (ready p) (cdc_line_coding p).
Definition pipe_d2h (p : acm_pipe) r := Pipe (host2device p) r (ep_intr p) (ep_in p) (ep_out p) (ready p) (cdc_line_coding p).
Definition pipe_ready (p : acm_pipe) b := Pipe (host2device p) (device2host p) (ep_intr p) (ep_in p) (ep_out p) b (cdc_line_coding p).
Definition dev_state (d : dwc2_dev) x := Dev (regs d) x (ep0_buffer d) (ep0_buffer_len d) (ep0_read_buffer_len d) (dma_page_p d) (endpoints d) (pipes d).
Definition dev_buffer (d : dwc2_dev) b n := Dev (regs d) (ep0_st d) b n (ep0_read_buffer_len d) (dma_page_p d) (endpoints d) (pipes d).
Definition dev_read_len (d : dwc2_dev) n := Dev (regs d) (ep0_st d) (ep0_buffer d) (ep0_buffer_len d) n (dma_page_p d) (endpoints d) (pipes d).
Definition dev_endpoints (d : dwc2_dev) l := Dev (regs d) (ep0_st d) (ep0_buffer d) (ep0_buffer_len d) (ep0_read_buffer_len d) (dma_page_p d) l (pipes d).
Definition dev_pipes (d : dwc2_dev) l := Dev (regs d) (ep0_st d) (ep0_buffer d) (ep0_buffer_len d) (ep0_read_buffer_len d) (dma_page_p d) (endpoints d) l.

(** ** Operations *)
Section driver.
Context {W : Type} `{HW : Dwc2Hw W}.
Implicit Types (s : usb W) (d : dwc2_dev).

Definition set_dev s d : usb W := Usb d (next_tx_fifo_addr s) (str_serial s) (uw s) (um s).
Definition set_fifo s n : usb W := Usb (dev s) n (str_serial s) (uw s) (um s).
Definition set_serial s x : usb W := Usb (dev s) (next_tx_fifo_addr s) x (uw s) (um s).
Definition set_hw s (w : W) m : usb W := Usb (dev s) (next_tx_fifo_addr s) (str_serial s) w m.
Definition set_state s x : usb W := set_dev s (dev_state (dev s) x).

(** [read32(dev->regs + off)] and [write32]; [set32] and [clear32] are a read
    and a write. *)
Definition reg_read (off : Z) s : Z * usb W :=
  let '(v, w, m) := mmio_read (u32 (regs (dev s) + off)) (uw s) (um s) in (u32 v, set_hw s w m).
Definition reg_write (off v : Z) s : usb W :=
  let (w, m) := mmio_write (u32 (regs (dev s) + off)) (u32 v) (uw s) (um s) in set_hw s w m.
Definition reg_set32 (off v : Z) s : usb W :=
  let (x, s) := reg_read off s in reg_write off (Z.lor x v) s.
Definition reg_clear32 (off v : Z) s : usb W :=
  let (x, s) := reg_read off s in reg_write off (Z.land x (u32 (Z.lnot v))) s.
Definition usb_udelay (us : Z) s : usb W :=
  let (w, m) := hw_delay us (uw s) (um s) in set_hw s w m.

(** Wait until a register shows one of the bits. *)
Fixpoint wait_bits (fuel : nat) (off bits : Z) s : outcome (usb W) :=
  match fuel with
  | O => Stuck
  | S fuel' =>
      let (v, s) := reg_read off s in
      if negb (Z.land v bits =? 0) then Done s else wait_bits fuel' off bits s
  end.

Definition get_ep (i : Z) s : outcome dwc2_endpoint := znth (endpoints (dev s)) i.
Definition upd_ep (i : Z) (f : dwc2_endpoint -> dwc2_endpoint) s : outcome (usb W) :=
  e ← get_ep i s; l ← zset (endpoints (dev s)) i (f e); Done (set_dev s (dev_endpoints (dev s) l)).
Definition get_pipe (i : Z) s : outcome acm_pipe := znth (pipes (dev s)) i.
Definition upd_pipe (i : Z) (f : acm_pipe -> acm_pipe) s : outcome (usb W) :=
  p ← get_pipe i s; l ← zset (pipes (dev s)) i (f p); Done (set_dev s (dev_pipes (dev s) l)).

Definition dir_in (pep : Z) : bool := negb (Z.land pep 0x80 =? 0).

(** ** Endpoints *)
Definition usb_dwc2_ep_activate (ep type max_packet_len : Z) s : outcome (Z * usb W) :=
  pep0 ← znth phyEndpoints ep;
  let pep := Z.land pep0 0xf in
  s ← upd_ep ep (fun e => ep_maxpkt e (u16 max_packet_len)) s;
  let val := Z.lor DWC2_DXEPCTLi_SetD0Pid DWC2_DXEPCTL_SetNAK in
  if negb (type =? DWC2_EP_TYPE_CONTROL) && negb (type =? DWC2_EP_TYPE_BULK) && negb (type =? DWC2_EP_TYPE_INTR)
  then Done (-1, s)
  else
    let '(ctl, val, shift, s) :=
      if dir_in pep0 then
        let s := reg_write (DWC2_DIEPCTL pep) 0 s in
        let val := Z.lor val (Z.shiftl pep 22) in
        let s := reg_write (DWC2_DTXFSIZ pep) (Z.lor (Z.shiftl TX_FIFO_SIZE 16) (next_tx_fifo_addr s)) s in
        let s := set_fifo s (u32 (next_tx_fifo_addr s + TX_FIFO_SIZE)) in
        let val := if (ep =? USB_LEP_CDC_INTR_IN) || (ep =? USB_LEP_CDC_INTR_IN_2)
                   then Z.lor val (Z.shiftl 1 26) else val in
        (DWC2_DIEPCTL pep, val, pep, s)
      else
        (DWC2_DOEPCTL pep, val, pep + 16, reg_write (DWC2_DOEPCTL pep) 0 s) in
    let s := if negb (u32 (regs (dev s) + ctl) =? 0)
             then reg_write ctl (Z.lor (Z.lor (Z.lor val (Z.shiftl type 18)) DWC2_DXEPCTL_ActivateEP) max_packet_len) s
             else s in
    Done (0, reg_set32 DWC2_DAINTMSK (Z.shiftl 1 shift) s).

Fixpoint ep_index (l : list Z) (epno i : Z) : Z :=
  match l with
  | [] => 0xff
  | p :: l' => if p =? epno then i else ep_index l' epno (i + 1)
  end.
Definition ep_to_num (epno : Z) : Z := ep_index phyEndpoints epno 0.

Definition usb_dwc2_ep_set_stall (ep stall : Z) s : outcome (usb W) :=
  pep ← znth phyEndpoints ep;
  let ctl := if dir_in pep then DWC2_DIEPCTL (Z.land pep 0xf) else DWC2_DOEPCTL pep in
  Done (if negb (stall =? 0) then reg_set32 ctl DWC2_DXEPCTL_Stall s else reg_clear32 ctl DWC2_DXEPCTL_Stall s).

(** Arm an OUT endpoint for [hw_xfer_size] bytes. *)
Definition usb_dwc2_ep_hw_recv (ep hw_xfer_size packet_count : Z) s : outcome (usb W) :=
  pep ← znth phyEndpoints ep;
  if dir_in pep then Done s
  else
    e ← get_ep ep s;
    let s := reg_write (DWC2_DOEPDMA pep) (xfer_buffer e) s in
    let s := reg_write (DWC2_DOEPTSIZ pep) (Z.lor (u32 (Z.shiftl packet_count 19)) hw_xfer_size) s in
    let enable := Z.lor DWC2_DXEPCTLi_EnableEP DWC2_DXEPCTL_ClearNAK in
    Done (reg_set32 (DWC2_DOEPCTL pep)
            (if ep =? 0 then
               if decide (ep0_st (dev s) = USB_DWC2_EP0_STATE_DATA_RECV) then enable else DWC2_DXEPCTLi_EnableEP
             else enable) s).

(** Arm an IN endpoint. *)
Definition usb_dwc2_ep_hw_send (ep hw_xfer_size packet_count : Z) s : outcome (usb W) :=
  pep0 ← znth phyEndpoints ep;
  let pep := Z.land pep0 0xf in
  if negb (dir_in pep0) then Done s
  else
    e ← get_ep ep s;
    let s := reg_write (DWC2_DIEPDMA pep) (xfer_buffer e) s in
    let s := reg_write (DWC2_DIEPTSIZ pep) (Z.lor (u32 (Z.shiftl packet_count 19)) hw_xfer_size) s in
    let s := reg_set32 (DWC2_DIEPCTL pep) (Z.lor DWC2_DXEPCTLi_EnableEP DWC2_DXEPCTL_ClearNAK) s in
    let s := if pep =? 0 then reg_set32 (DWC2_DOEPCTL pep) DWC2_DXEPCTL_ClearNAK s else s in
    upd_ep ep (fun e => ep_flight e (negb (hw_xfer_size =? 0))) s.

Definition usb_dwc2_start_status_phase (ep : Z) s : outcome (usb W) :=
  pep ← znth phyEndpoints ep;
  if dir_in pep then usb_dwc2_ep_hw_send ep 0 1 s else usb_dwc2_ep_hw_recv ep 64 1 s.

Definition usb_dwc2_start_setup_phase s : outcome (usb W) := usb_dwc2_ep_hw_recv USB_LEP_CTRL_OUT 64 1 s.

Definition usb_set_address (address : Z) s : usb W :=
  let (dcfg, s) := reg_read DWC2_DCFG s in
  reg_write DWC2_DCFG (Z.lor (Z.land dcfg (u32 (Z.lnot 0x7f0))) (Z.land (u32 (Z.shiftl (u8 address) 4)) 0x7f0)) s.

Definition usb_dwc2_ep_abort (fuel : nat) (ep : Z) s : outcome (usb W) :=
  s ← upd_ep ep (fun e => ep_progress (ep_flight e false) false) s;
  pep ← znth phyEndpoints ep;
  if dir_in pep then
    let pep := Z.land pep 0xf in
    let (ctl, s) := reg_read (DWC2_DIEPCTL pep) s in
    s ← (if negb (Z.land ctl DWC2_DXEPCTLi_EnableEP =? 0) then
           let s := reg_set32 (DWC2_DIEPCTL pep) DWC2_DXEPCTLi_DisableEP s in
           wait_bits fuel (DWC2_DIEPINT pep) DWC2_DIEPINT_EPDisabled s
         else Done s);
    let (i, s) := reg_read (DWC2_DIEPINT pep) s in
    Done (reg_write (DWC2_DIEPINT pep) i s)
  else
    let (ctl, s) := reg_read (DWC2_DOEPCTL pep) s in
    s ← (if negb (Z.land ctl DWC2_DXEPCTLi_EnableEP =? 0) then
           let s := reg_write DWC2_GINTSTS DWC2_GINTSTS_GOUTNakEff s in
           let s := reg_set32 DWC2_DCTL DWC2_DCTL_SGOUTNak s in
           s ← wait_bits fuel DWC2_GINTSTS DWC2_GINTSTS_GOUTNakEff s;
           let s := reg_write DWC2_GINTSTS DWC2_GINTSTS_GOUTNakEff s in
           let s := reg_set32 (DWC2_DOEPCTL pep) (Z.lor DWC2_DXEPCTLi_DisableEP DWC2_DXEPCTL_SetNAK) s in
           s ← wait_bits fuel (DWC2_DOEPINT pep) DWC2_DOEPINT_EPDisabled s;
           Done (reg_set32 DWC2_DCTL DWC2_DCTL_CGOUTNak s)
         else Done s);
    let (i, s) := reg_read (DWC2_DOEPINT pep) s in
    Done (reg_write (DWC2_DOEPINT pep) i s).

(** ** Descriptors *)
(** The descriptor [usb_build_serial] makes of the device tree's serial number. *)
Definition find_serial (env : usb_env) : outcome (list Z) :=
  p ← adt_getprop (env_mem env) (env_adt env) 0 (lit_serial env);
  match p with
  | None => Done str_serial_dummy
  | Some (serial, _) =>
      c ← load8 (env_mem env) serial;
      if c =? 0 then Done str_serial_dummy
      else
        len ← strlen (env_mem env) serial;
        bs ← load_bytes (Z.to_nat len) (env_mem env) serial;
        if serial_alloc env then Done (serial_descriptor bs) else Fault
  end.

Definition usb_build_serial (env : usb_env) s : outcome (usb W) :=
  match str_serial s with
  | Some _ => Done s
  | None => x ← find_serial env; Done (set_serial s (Some x))
  end.

Definition bLength_of (bs : list Z) : Z := nth 0 bs 0.

Definition usb_cdc_get_string_descriptor (env : usb_env) (index : Z) s : outcome (option (list Z) * Z * usb W) :=
  if index =? STRING_DESCRIPTOR_LANGUAGES then Done (Some str_langs, bLength_of str_langs, s)
  else if index =? STRING_DESCRIPTOR_MANUFACTURER then Done (Some str_manufacturer, bLength_of str_manufacturer, s)
  else if index =? STRING_DESCRIPTOR_PRODUCT then
    Done (Some (str_product (build_tag env)), bLength_of (str_product (build_tag env)), s)
  else if index =? STRING_DESCRIPTOR_SERIAL then
    s ← usb_build_serial env s;
    x ← of_option (str_serial s);
    Done (Some x, bLength_of x, s)
  else Done (None, 0, s).

(** A byte and a half-word of the setup packet, which lies in endpoint 0's
    transfer buffer and is read in place. *)
Definition setup_u8 (setup off : Z) s : outcome Z := load_le 1 (um s) (setup + off).
Definition setup_u16 (setup off : Z) s : outcome Z := load_le 2 (um s) (setup + off).

Definition usb_dwc2_handle_ep0_get_descriptor (env : usb_env) (setup : Z) s : outcome (Z * usb W) :=
  type ← setup_u8 setup 3 s;
  '(descriptor, descriptor_len, s) ←
    (if type =? USB_DEVICE_DESCRIPTOR then
       Done (Some (device_bytes usb_cdc_device_descriptor), dd_bLength usb_cdc_device_descriptor, s)
     else if type =? USB_CONFIGURATION_DESCRIPTOR then
       Done (Some (cdc_dev_desc_bytes cdc_configuration_descriptor), wTotalLength (configuration cdc_configuration_descriptor), s)
     else if type =? USB_STRING_DESCRIPTOR then
       index ← setup_u8 setup 2 s; usb_cdc_get_string_descriptor env index s
     else if type =? USB_DEVICE_QUALIFIER_DESCRIPTOR then
       Done (Some (qualifier_bytes usb_cdc_device_qualifier_descriptor), qd_bLength usb_cdc_device_qualifier_descriptor, s)
     else Done (None, 0, s));
  match descriptor with
  | Some x =>
      wLength ← setup_u16 setup 6 s;
      Done (0, set_dev s (dev_buffer (dev s) (Src_const x) (Z.min wLength descriptor_len)))
  | None => Done (-1, s)
  end.

(** ** Endpoint 0 *)
Definition ep0_stall s : outcome (usb W) :=
  s ← usb_dwc2_ep_set_stall 0 1 s; Done (set_state s USB_DWC2_EP0_STATE_IDLE).

(** The object [ep0_buffer] points to. *)
Definition ep0_object s : outcome (list Z) :=
  match ep0_buffer (dev s) with
  | Src_null => Fault
  | Src_const x => Done x
  | Src_line_coding i => p ← get_pipe i s; Done (cdc_line_coding p)
  end.

Definition usb_dwc2_ep0_start_data_send_phase s : outcome (usb W) :=
  let len := ep0_buffer_len (dev s) in
  e ← get_ep USB_LEP_CTRL_IN s;
  m ← store_bytes (um s) (xfer_buffer e) (replicate 64 0);
  x ← ep0_object s;
  if zlen x <? len then Fault
  else
    m ← store_bytes m (xfer_buffer e) (take (Z.to_nat len) x);
    let s := set_hw s (uw s) m in
    let pkt_count := u32 (len + 63) / 64 in
    let pkt_count := if len mod 64 =? 0 then pkt_count + 1 else pkt_count in
    usb_dwc2_ep_hw_send USB_LEP_CTRL_IN len pkt_count s.

Definition usb_dwc2_ep0_start_data_recv_phase s : outcome (usb W) :=
  let len := ep0_read_buffer_len (dev s) in
  e ← get_ep USB_LEP_CTRL_OUT s;
  m ← store_bytes (um s) (xfer_buffer e) (replicate (Z.to_nat len) 0xbb);
  usb_dwc2_ep_hw_recv USB_LEP_CTRL_OUT len 1 (set_hw s (uw s) m).

(** Answer with the two bytes of a static status word. *)
Definition ep0_status (status : Z) s : outcome (usb W) :=
  Done (set_state (set_dev s (dev_buffer (dev s) (Src_const (le_bytes 2 status)) 2)) USB_DWC2_EP0_STATE_DATA_SEND).

(** Activate the endpoints of pipes [i], [i + 1], ... *)
Fixpoint activate_pipes (n : nat) (i : Z) s : outcome (usb W) :=
  match n with
  | O => Done s
  | S n' =>
      p ← get_pipe i s;
      '(_, s) ← usb_dwc2_ep_activate (ep_intr p) DWC2_EP_TYPE_INTR 64 s;
      '(_, s) ← usb_dwc2_ep_activate (ep_in p) DWC2_EP_TYPE_BULK 512 s;
      '(_, s) ← usb_dwc2_ep_activate (ep_out p) DWC2_EP_TYPE_BULK 512 s;
      activate_pipes n' (i + 1) s
  end.

Definition usb_dwc2_ep0_handle_standard_device (env : usb_env) (setup : Z) s : outcome (usb W) :=
  bRequest ← setup_u8 setup 1 s;
  if bRequest =? USB_REQUEST_SET_ADDRESS then
    address ← setup_u16 setup 2 s;
    Done (set_state (usb_set_address (u8 address) s) USB_DWC2_EP0_STATE_DATA_SEND_STATUS)
  else if bRequest =? USB_REQUEST_SET_CONFIGURATION then
    configuration ← setup_u16 setup 2 s;
    if configuration =? 0 then
      let s := set_state s USB_DWC2_EP0_STATE_DATA_SEND_STATUS in
      Done (set_dev s (dev_pipes (dev s) (map (fun p => pipe_ready p false) (pipes (dev s)))))
    else if configuration =? 1 then
      s ← activate_pipes (Z.to_nat CDC_ACM_PIPE_MAX) 0 s;
      Done (set_state s USB_DWC2_EP0_STATE_DATA_SEND_STATUS)
    else ep0_stall s
  else if bRequest =? USB_REQUEST_GET_DESCRIPTOR then
    '(r, s) ← usb_dwc2_handle_ep0_get_descriptor env setup s;
    if r <? 0 then ep0_stall s else Done (set_state s USB_DWC2_EP0_STATE_DATA_SEND)
  else if bRequest =? USB_REQUEST_GET_STATUS then ep0_status 1 s
  else ep0_stall s.

Definition usb_dwc2_ep0_handle_standard_interface (setup : Z) s : outcome (usb W) :=
  bRequest ← setup_u8 setup 1 s;
  if bRequest =? USB_REQUEST_GET_STATUS then ep0_status 0 s else ep0_stall s.

Definition usb_dwc2_ep0_handle_standard_endpoint (setup : Z) s : outcome (usb W) :=
  bRequest ← setup_u8 setup 1 s;
  if bRequest =? USB_REQUEST_GET_STATUS then ep0_status 0 s
  else if bRequest =? USB_REQUEST_CLEAR_FEATURE then
    selector ← setup_u16 setup 2 s;
    if selector =? USB_FEATURE_ENDPOINT_HALT then
      wEndpoint ← setup_u16 setup 4 s;
      s ← usb_dwc2_ep_set_stall (ep_to_num (u8 wEndpoint)) 0 s;
      s ← usb_dwc2_start_status_phase USB_LEP_CTRL_IN s;
      Done (set_state s USB_DWC2_EP0_STATE_DATA_SEND_STATUS_DONE)
    else ep0_stall s
  else ep0_stall s.

Definition usb_dwc2_ep0_handle_standard (env : usb_env) (setup : Z) s : outcome (usb W) :=
  bmRequestType ← setup_u8 setup 0 s;
  let recipient := Z.land bmRequestType USB_REQUEST_TYPE_RECIPIENT_MASK in
  if recipient =? USB_REQUEST_TYPE_RECIPIENT_DEVICE then usb_dwc2_ep0_handle_standard_device env setup s
  else if recipient =? USB_REQUEST_TYPE_RECIPIENT_INTERFACE then usb_dwc2_ep0_handle_standard_interface setup s
  else if recipient =? USB_REQUEST_TYPE_RECIPIENT_ENDPOINT then usb_dwc2_ep0_handle_standard_endpoint setup s
  else ep0_stall s.

(** ** Bulk pipes *)

(** The pipe a bulk endpoint belongs to, and whether it is its OUT side. *)
Definition bulk_pipe (ep : Z) : option (Z * bool) :=
  if ep =? USB_LEP_CDC_BULK_IN then Some (0, false)
  else if ep =? USB_LEP_CDC_BULK_OUT then Some (0, true)
  else if ep =? USB_LEP_CDC_BULK_IN_2 then Some (1, false)
  else if ep =? USB_LEP_CDC_BULK_OUT_2 then Some (1, true)
  else None.

Definition usb_dwc2_cdc_get_ringbuffer (ep : Z) s : outcome (option ringbuffer_t) :=
  match bulk_pipe ep with
  | Some (i, out) => p ← get_pipe i s; Done (if out then host2device p else device2host p)
  | None => Done None
  end.

(** Store back the ring that [usb_dwc2_cdc_get_ringbuffer] points to. *)
Definition put_ringbuffer (ep : Z) (r : ringbuffer_t) s : outcome (usb W) :=
  match bulk_pipe ep with
  | Some (i, out) => upd_pipe i (fun p => if out then pipe_h2d p (Some r) else pipe_d2h p (Some r)) s
  | None => Done s
  end.

Definition usb_dwc2_cdc_start_bulk_out_xfer (ep : Z) s : outcome (usb W) :=
  e ← get_ep ep s;
  if xfer_in_progress e then Done s
  else
    r ← usb_dwc2_cdc_get_ringbuffer ep s;
    match r with
    | None => Done s
    | Some host2device =>
        if ringbuffer_get_free host2device <? XFER_SIZE then Done s
        else
          m ← store_bytes (um s) (xfer_buffer e) (replicate (Z.to_nat XFER_SIZE) 0xaa);
          s ← usb_dwc2_ep_hw_recv ep 512 1 (set_hw s (uw s) m);
          upd_ep ep (fun e => ep_progress e true) s
    end.

Definition usb_dwc2_cdc_start_bulk_in_xfer (ep : Z) s : outcome (usb W) :=
  e ← get_ep ep s;
  if xfer_in_progress e then Done s
  else
    r ← usb_dwc2_cdc_get_ringbuffer ep s;
    match r with
    | None => Done s
    | Some device2host =>
        '(bs, device2host) ← ringbuffer_read (Z.to_nat XFER_SIZE) device2host;
        m ← store_bytes (um s) (xfer_buffer e) bs;
        s ← put_ringbuffer ep device2host (set_hw s (uw s) m);
        let len := zlen bs in
        if (len =? 0) && negb (zlp_pending e) then Done s
        else
          let pkt_count := (len + 511) / 512 in
          '(pkt_count, s) ←
            (if ep0_buffer_len (dev s) mod 512 =? 0
             then s ← upd_ep ep (fun e => ep_zlp e true) s; Done (pkt_count + 1, s)
             else Done (pkt_count, s));
          s ← usb_dwc2_ep_hw_send ep len pkt_count s;
          upd_ep ep (fun e => ep_progress e true) s
    end.

Definition usb_dwc2_cdc_handle_bulk_out_xfer_done (ep : Z) s : outcome (usb W) :=
  r ← usb_dwc2_cdc_get_ringbuffer ep s;
  match r with
  | None => Done s
  | Some host2device =>
      ipep ← znth phyEndpoints (if ep =? USB_LEP_CDC_BULK_OUT_2 then USB_LEP_CDC_BULK_OUT_2 else USB_LEP_CDC_BULK_OUT);
      let (tsiz, s) := reg_read (DWC2_DOEPTSIZ ipep) s in
      let xfer_siz := u32 (0x200 - Z.land tsiz 0x7fff) in
      let xfer_siz := if ringbuffer_get_free host2device <? xfer_siz
                      then ringbuffer_get_free host2device else xfer_siz in
      e ← get_ep ep s;
      bs ← load_bytes (Z.to_nat xfer_siz) (um s) (xfer_buffer e);
      '(_, host2device) ← ringbuffer_write bs host2device;
      s ← put_ringbuffer ep host2device s;
      upd_ep ep (fun e => ep_progress e false) s
  end.

(** ** The state machine of endpoint 0 *)
Definition usb_dwc2_ep0_handle_class (setup : Z) s : outcome (usb W) :=
  wIndex ← setup_u16 setup 4 s;
  let pipe := wIndex / 2 in
  if CDC_ACM_PIPE_MAX <=? pipe then ep0_stall s
  else
    bRequest ← setup_u8 setup 1 s;
    if bRequest =? USB_REQUEST_CDC_GET_LINE_CODING then
      wLength ← setup_u16 setup 6 s;
      let s := set_dev s (dev_buffer (dev s) (Src_line_coding pipe) (Z.min wLength 7)) in
      Done (set_state s USB_DWC2_EP0_STATE_DATA_SEND)
    else if bRequest =? USB_REQUEST_CDC_SET_CTRL_LINE_STATE then
      wValue ← setup_u16 setup 2 s;
      s ← (if negb (Z.land wValue 1 =? 0) then
             s ← upd_pipe pipe (fun p => pipe_ready p false) s;
             s ← upd_pipe pipe (fun p => pipe_ready p true) s;
             if pipe =? 1 then usb_dwc2_cdc_start_bulk_out_xfer USB_LEP_CDC_BULK_OUT_2 s
             else if pipe =? 0 then usb_dwc2_cdc_start_bulk_out_xfer USB_LEP_CDC_BULK_OUT s
             else Done s
           else upd_pipe pipe (fun p => pipe_ready p false) s);
      s ← usb_dwc2_start_status_phase USB_LEP_CTRL_IN s;
      Done (set_state s USB_DWC2_EP0_STATE_DATA_SEND_STATUS_DONE)
    else ep0_stall s.

Definition usb_dwc2_ep0_handle_setup (env : usb_env) s : outcome (usb W) :=
  e ← get_ep USB_LEP_CTRL_OUT s;
  let setup := xfer_buffer e in
  bmRequestType ← setup_u8 setup 0 s;
  let type := Z.land bmRequestType USB_REQUEST_TYPE_MASK in
  if type =? USB_REQUEST_TYPE_STANDARD then usb_dwc2_ep0_handle_standard env setup s
  else if type =? USB_REQUEST_TYPE_CLASS then usb_dwc2_ep0_handle_class setup s
  else ep0_stall s.

(** [memcpy(dev->ep0_read_buffer, ...)] with a null destination. *)
Definition copy_to_read_buffer s : outcome (usb W) :=
  if ep0_read_buffer_len (dev s) =? 0 then Done s else Fault.

Definition usb_dwc2_ep0_handle_xfer_done (env : usb_env) s : outcome (usb W) :=
  match ep0_st (dev s) with
  | USB_DWC2_EP0_STATE_SETUP_HANDLE => usb_dwc2_ep0_handle_setup env s
  | USB_DWC2_EP0_STATE_DATA_RECV_STATUS_DONE
  | USB_DWC2_EP0_STATE_DATA_SEND_STATUS_DONE =>
      s ← usb_dwc2_start_setup_phase s; Done (set_state s USB_DWC2_EP0_STATE_SETUP_HANDLE)
  | USB_DWC2_EP0_STATE_DATA_SEND_DONE => Done (set_state s USB_DWC2_EP0_STATE_DATA_RECV_STATUS)
  | USB_DWC2_EP0_STATE_DATA_RECV_DONE =>
      s ← copy_to_read_buffer s; Done (set_state s USB_DWC2_EP0_STATE_DATA_SEND_STATUS)
  | _ => ep0_stall s
  end.

Definition usb_dwc2_ep0_handle_xfer_not_ready s : outcome (usb W) :=
  match ep0_st (dev s) with
  | USB_DWC2_EP0_STATE_SETUP_HANDLE
  | USB_DWC2_EP0_STATE_DATA_SEND_STATUS_DONE
  | USB_DWC2_EP0_STATE_DATA_RECV_STATUS_DONE => Done s
  | USB_DWC2_EP0_STATE_IDLE =>
      s ← usb_dwc2_start_setup_phase s; Done (set_state s USB_DWC2_EP0_STATE_SETUP_HANDLE)
  | USB_DWC2_EP0_STATE_DATA_SEND =>
      s ← usb_dwc2_ep0_start_data_send_phase s; Done (set_state s USB_DWC2_EP0_STATE_DATA_SEND_DONE)
  | USB_DWC2_EP0_STATE_DATA_RECV =>
      s ← usb_dwc2_ep0_start_data_recv_phase s; Done (set_state s USB_DWC2_EP0_STATE_DATA_RECV_DONE)
  | USB_DWC2_EP0_STATE_DATA_RECV_STATUS =>
      s ← usb_dwc2_start_status_phase USB_LEP_CTRL_OUT s;
      Done (set_state s USB_DWC2_EP0_STATE_DATA_RECV_STATUS_DONE)
  | USB_DWC2_EP0_STATE_DATA_SEND_STATUS =>
      s ← usb_dwc2_start_status_phase USB_LEP_CTRL_IN s;
      Done (set_state s USB_DWC2_EP0_STATE_DATA_SEND_STATUS_DONE)
  | _ => ep0_stall s
  end.

(** ** Interrupts *)
Definition has (v bits : Z) : bool := negb (Z.land v bits =? 0).

(** Read an endpoint's interrupt register and acknowledge what it shows. *)
Definition take_int (off : Z) s : Z * usb W :=
  let (i, s) := reg_read off s in (i, reg_write off i s).

Definition ep0_in_interrupt (env : usb_env) s : outcome (usb W) :=
  let (diepint, s) := take_int (DWC2_DIEPINT 0) s in
  if has diepint DWC2_DOEPINT_XFER_COMPL then
    s ← usb_dwc2_ep0_handle_xfer_done env s; usb_dwc2_ep0_handle_xfer_not_ready s
  else Done s.

Definition ep0_out_interrupt (env : usb_env) s : outcome (usb W) :=
  let (doepint, s) := take_int (DWC2_DOEPINT 0) s in
  let setup_packet_recvd := has doepint DWC2_DOEPINT_STUP_PKT_RCVD in
  let setup_phase_done := has doepint DWC2_DOEPINT_SETUP in
  let s := if (setup_packet_recvd || setup_phase_done)
              && bool_decide (ep0_st (dev s) = USB_DWC2_EP0_STATE_SETUP_HANDLE)
           then set_state s USB_DWC2_EP0_STATE_SETUP_PENDING else s in
  if setup_phase_done then
    _ ← c_assert (bool_decide (ep0_st (dev s) = USB_DWC2_EP0_STATE_SETUP_PENDING));
    s ← usb_dwc2_ep0_handle_xfer_done env (set_state s USB_DWC2_EP0_STATE_SETUP_HANDLE);
    usb_dwc2_ep0_handle_xfer_not_ready s
  else if has doepint DWC2_DOEPINT_XFER_COMPL then
    match ep0_st (dev s) with
    | USB_DWC2_EP0_STATE_DATA_RECV_STATUS_DONE => usb_dwc2_ep0_handle_xfer_done env s
    | USB_DWC2_EP0_STATE_DATA_RECV_DONE =>
        s ← usb_dwc2_ep0_handle_xfer_done env s; usb_dwc2_ep0_handle_xfer_not_ready s
    | _ =>
        if negb setup_packet_recvd
        then usb_dwc2_ep0_handle_xfer_not_ready (set_state s USB_DWC2_EP0_STATE_DATA_SEND_STATUS)
        else Done s
    end
  else Done s.

Definition bulk_out_interrupt (pep ep : Z) s : outcome (usb W) :=
  let (doepint, s) := take_int (DWC2_DOEPINT pep) s in
  if has doepint DWC2_DOEPINT_XFER_COMPL then
    s ← usb_dwc2_cdc_handle_bulk_out_xfer_done ep (usb_udelay 2 s);
    usb_dwc2_cdc_start_bulk_out_xfer ep s
  else Done s.

Definition bulk_in_interrupt (pep ep : Z) s : outcome (usb W) :=
  let (_, s) := take_int (DWC2_DIEPINT pep) s in
  s ← upd_ep ep (fun e => ep_progress e false) s;
  r ← usb_dwc2_cdc_get_ringbuffer ep s;
  r ← of_option r;
  if negb (ringbuffer_get_used r =? 0) then usb_dwc2_cdc_start_bulk_in_xfer ep s else Done s.

Definition when (b : bool) (f : usb W -> outcome (usb W)) s : outcome (usb W) := if b then f s else Done s.

Definition usb_dwc2_handle_interrupts_ep (env : usb_env) s : outcome (usb W) :=
  let (daint, s) := reg_read DWC2_DAINT s in
  s ← when (has daint (BIT 0)) (ep0_in_interrupt env) s;
  s ← when (has daint (BIT (16 + 0))) (ep0_out_interrupt env) s;
  s ← when (has daint (BIT (16 + 2))) (bulk_out_interrupt 2 USB_LEP_CDC_BULK_OUT) s;
  s ← when (has daint (BIT (0 + 3))) (bulk_in_interrupt 3 USB_LEP_CDC_BULK_IN) s;
  s ← when (has daint (BIT (16 + 5))) (bulk_out_interrupt 5 USB_LEP_CDC_BULK_OUT_2) s;
  when (has daint (BIT (0 + 6))) (bulk_in_interrupt 6 USB_LEP_CDC_BULK_IN_2) s.

Definition lors (l : list Z) : Z := fold_right Z.lor 0 l.

Fixpoint abort_from (n : nat) (fuel : nat) (i : Z) s : outcome (usb W) :=
  match n with
  | O => Done s
  | S n' => s ← usb_dwc2_ep_abort fuel i s; abort_from n' fuel (i + 1) s
  end.

Definition DIEPINT_all : Z :=
  lors [DWC2_DIEPINT_XferCompl; DWC2_DIEPINT_EPDisabled; DWC2_DIEPINT_AHBErr; DWC2_DIEPINT_TimeOUT; DWC2_DIEPINT_InTokenTXFifoEmpty].
Definition DOEPINT_all : Z :=
  lors [DWC2_DOEPINT_XFER_COMPL; DWC2_DOEPINT_EPDisabled; DWC2_DOEPINT_AHBErr; DWC2_DOEPINT_SETUP].

(** A sequence of register writes. *)
Definition reg_writes (l : list (Z * Z)) s : usb W := fold_left (fun s p => reg_write (fst p) (snd p) s) l s.

Definition usb_dwc2_handle_usbrst (fuel : nat) s : outcome (usb W) :=
  let s := set_fifo s (TX_FIFO_SIZE + RX_FIFO_SIZE) in
  s ← upd_ep 0 (fun e => ep_progress e false) s;
  s ← abort_from 7 fuel 1 s;
  let s := usb_set_address 0 s in
  let s := reg_writes
    [(DWC2_DOEPMSK, 0); (DWC2_DIEPMSK, 0); (DWC2_DAINTMSK, 0);
     (DWC2_DIEPINT 0, DIEPINT_all); (DWC2_DOEPINT 0, DOEPINT_all);
     (DWC2_GRXFSIZ, RX_FIFO_SIZE); (DWC2_GNPTXFSIZ, Z.lor (Z.shiftl TX_FIFO_SIZE 16) RX_FIFO_SIZE);
     (DWC2_DTXFSIZ 1, 0x0040022b); (DWC2_DTXFSIZ 2, 0x0040022b);
     (DWC2_DTXFSIZ 3, 0x0040022b); (DWC2_DTXFSIZ 4, 0x0040022b);
     (DWC2_DOEPCTL 0, 0); (DWC2_DIEPCTL 0, 0)] s in
  let (g, s) := reg_read DWC2_GINTSTS s in
  let s := reg_write DWC2_GINTSTS g s in
  let s := reg_set32 DWC2_GINTMSK (Z.lor DWC2_GINTMSK_IEPIntMsk DWC2_GINTMSK_OEPIntMsk) s in
  Done (reg_writes
    [(DWC2_DOEPMSK, lors [DWC2_DOEPMSK_XferComplMsk; DWC2_DOEPMSK_AHBErrMsk; DWC2_DOEPMSK_SetUPMsk]);
     (DWC2_DIEPMSK, lors [DWC2_DIEPMSK_XferComplMsk; DWC2_DIEPMSK_AHBErrMsk; DWC2_DIEPMSK_TimeOUTMsk]);
     (DWC2_DAINTMSK, 0)] s).

Definition usb_dwc2_handle_event_connect_done s : outcome (usb W) :=
  let (dsts, s) := reg_read DWC2_DSTS s in
  if negb (Z.land dsts DWC2_DSTS_CONNECTSPD =? DWC2_DSTS_HIGHSPEED) then
    let (_, s) := reg_read DWC2_DSTS s in Done s   (* read again for the message *)
  else
    '(_, s) ← usb_dwc2_ep_activate USB_LEP_CTRL_OUT 0 EP0_MAX_PACKET_SIZE s;
    '(_, s) ← usb_dwc2_ep_activate USB_LEP_CTRL_IN 0 EP0_MAX_PACKET_SIZE s;
    s ← usb_dwc2_start_setup_phase s;
    let s := set_state s USB_DWC2_EP0_STATE_SETUP_HANDLE in
    Done (set_dev s (dev_read_len (dev s) 0)).

Definition SUPPORTED_GINST : Z :=
  lors [DWC2_GINTSTS_USBRst; DWC2_GINTSTS_ENUMDone; DWC2_GINTSTS_IEPInt; DWC2_GINTSTS_OEPInt].

(** The loop ends when a read shows no supported interrupt; [fuel] bounds its
    turns and the waits inside. *)
Fixpoint interrupts_loop (fuel : nat) (env : usb_env) (gintsts : Z) s : outcome (usb W) :=
  match fuel with
  | O => Stuck
  | S fuel' =>
      let (val, s) := reg_read DWC2_GINTSTS s in
      let s := reg_write DWC2_GINTSTS (Z.land val SUPPORTED_GINST) s in
      let gintsts := Z.lor gintsts val in
      s ← when (has gintsts DWC2_GINTSTS_USBRst) (usb_dwc2_handle_usbrst fuel') s;
      s ← when (has gintsts DWC2_GINTSTS_ENUMDone && negb (has val DWC2_GINTSTS_USBSuspend))
            usb_dwc2_handle_event_connect_done s;
      s ← when (has gintsts (Z.lor DWC2_GINTSTS_OEPInt DWC2_GINTSTS_IEPInt)) (usb_dwc2_handle_interrupts_ep env) s;
      if negb (has gintsts SUPPORTED_GINST) then Done s
      else interrupts_loop fuel' env (Z.land gintsts (u32 (Z.lnot SUPPORTED_GINST))) s
  end.

Definition usb_dwc2_handle_interrupts (fuel : nat) (env : usb_env) s : outcome (usb W) :=
  interrupts_loop fuel env 0 s.
Definition usb_dwc2_handle_events (fuel : nat) (env : usb_env) s : outcome (usb W) :=
  usb_dwc2_handle_interrupts fuel env s.

(** ** Bring-up and shutdown *)

(** [poll32]: at most [timeout - 1] reads, a microsecond apart. *)
Fixpoint poll_loop (n : nat) (off mask target : Z) s : Z * usb W :=
  match n with
  | O => (-1, s)
  | S n' =>
      let (v, s) := reg_read off s in
      if Z.land v mask =? target then (0, s) else poll_loop n' off mask target (usb_udelay 1 s)
  end.
Definition reg_poll32 (off mask target timeout : Z) s : Z * usb W :=
  poll_loop (Z.to_nat (u32 (timeout - 1))) off mask target s.

(** The memory given back is not tracked; what remains of the driver is the
    controller. *)
Definition usb_dwc2_shutdown s : usb W :=
  let s := set_dev s (dev_pipes (dev s) (map (fun p => pipe_ready p false) (pipes (dev s)))) in
  let s := reg_set32 DWC2_DCTL DWC2_DCTL_SftDisCon s in
  let s := reg_clear32 DWC2_GAHBCFG DWC2_GAHBCFG_DMA_EN s in
  let s := reg_set32 DWC2_GRSTCTL DWC2_GRSTCTL_CSFTRST s in
  snd (reg_poll32 DWC2_GRSTCTL DWC2_GRSTCTL_CSFTRST 0 10000 s).

(** The answers of the allocator: [calloc] for the device, [memalign] for the DMA
    page (an address or 0), and the two [calloc]s of each of the four rings. *)
Record usb_alloc : Type := Alloc { al_dev : bool; al_page : Z; al_rings : list (bool * bool) }.

Definition zero_endpoint : dwc2_endpoint := Endpoint false false false 0 0.
Definition zero_pipe : acm_pipe := Pipe None None 0 0 0 false cdc_default_line_coding.

Definition ring_of (al : usb_alloc) (i : nat) : option ringbuffer_t :=
  let (a, b) := nth i (al_rings al) (false, false) in ringbuffer_alloc a b CDC_BUFFER_SIZE.

(** The allocations of the loop over the pipes: [None] is a [goto error], with
    the pipes filled so far. *)
Fixpoint alloc_pipes (n : nat) (i : Z) (al : usb_alloc) s : outcome (bool * usb W) :=
  match n with
  | O => Done (true, s)
  | S n' =>
      let h := ring_of al (Z.to_nat (2 * i)) in
      s ← upd_pipe i (fun p => pipe_h2d p h) s;
      match h with
      | None => Done (false, s)
      | Some _ =>
          let r := ring_of al (Z.to_nat (2 * i + 1)) in
          s ← upd_pipe i (fun p => pipe_d2h p r) s;
          match r with None => Done (false, s) | Some _ => alloc_pipes n' (i + 1) al s end
      end
  end.

Definition buffer_of (page i : Z) : dwc2_endpoint := Endpoint false false false (u32 (page + i * DMA_BUFFER_SIZE)) 0.

Definition init_registers s : usb W :=
  let s := reg_set32 DWC2_DCTL DWC2_DCTL_SftDisCon s in
  let s := reg_writes
    [(DWC2_GAHBCFG, Z.lor (7 * 2) DWC2_GAHBCFG_DMA_EN);
     (DWC2_GUSBCFG, Z.lor DWC2_GUSBCFG_PHYIF16 (5 * 1024));
     (DWC2_DCFG, DCFG_NZ_STS_OUT_HSHK);
     (DWC2_GINTMSK, 0); (DWC2_DOEPMSK, 0); (DWC2_DIEPMSK, 0); (DWC2_DAINTMSK, 0);
     (DWC2_DIEPINT 0, DIEPINT_all); (DWC2_DOEPINT 0, DOEPINT_all);
     (DWC2_GINTMSK, Z.lor DWC2_GINTSTS_ENUMDoneMsk DWC2_GINTSTS_USBRstMsk)] s in
  reg_clear32 DWC2_DCTL DWC2_DCTL_SftDisCon s.

(** [fifo] and [serial] are the static variables, [w] and [m] the controller and
    the memory at the call.  The result is the device or NULL, with the state it
    leaves. *)
Definition usb_dwc2_init (al : usb_alloc) (regs0 fifo : Z) (serial : option (list Z)) (w : W) (m : mem)
    : outcome (bool * usb W) :=
  let s := Usb (Dev regs0 USB_DWC2_EP0_STATE_IDLE Src_null 0 0 0 (replicate 8 zero_endpoint) (replicate 2 zero_pipe))
             fifo serial w m in
  let (snpsid, s) := reg_read DWC2_GSNPSID s in
  if negb (Z.land snpsid DWC2_GSNPSID_MASK =? 0x4f540000) then Done (false, s)
  else if negb (al_dev al) then Done (false, s)
  else if al_page al =? 0 then Done (false, usb_dwc2_shutdown s)
  else
    let page := al_page al in
    m ← store_bytes (um s) page (replicate (Z.to_nat DMA_PAGE_SIZE) 0);
    let s := set_hw s (uw s) m in
    let s := set_dev s (Dev regs0 USB_DWC2_EP0_STATE_IDLE Src_null 0 0 page
               (map (buffer_of page) (seqZ 0 MAX_ENDPOINTS))
               [Pipe None None USB_LEP_CDC_INTR_IN USB_LEP_CDC_BULK_IN USB_LEP_CDC_BULK_OUT false cdc_default_line_coding;
                Pipe None None USB_LEP_CDC_INTR_IN_2 USB_LEP_CDC_BULK_IN_2 USB_LEP_CDC_BULK_OUT_2 false cdc_default_line_coding]) in
    '(ok, s) ← alloc_pipes 2 0 al s;
    if negb ok then Done (false, usb_dwc2_shutdown s)
    else
      let s := init_registers s in
      '(r, s) ← usb_dwc2_ep_activate USB_LEP_CTRL_IN 0 64 s;
      if negb (r =? 0) then Done (false, usb_dwc2_shutdown s)
      else
        '(r, s) ← usb_dwc2_ep_activate USB_LEP_CTRL_OUT 0 64 s;
        if negb (r =? 0) then Done (false, usb_dwc2_shutdown s)
        else Done (true, set_state s USB_DWC2_EP0_STATE_IDLE).

(** ** The calls of the I/O device *)

(** A call on a null device. *)
Definition with_dev {A} (null : A) (f : usb W -> outcome (A * usb W)) (o : option (usb W)) : outcome (A * option (usb W)) :=
  match o with
  | None => Done (null, None)
  | Some s => '(a, s) ← f s; Done (a, Some s)
  end.

Fixpoint getbyte_loop (fuel : nat) (env : usb_env) (pipe : Z) s : outcome (Z * usb W) :=
  match fuel with
  | O => Stuck
  | S fuel' =>
      p ← get_pipe pipe s;
      r ← of_option (host2device p);
      '(bs, r) ← ringbuffer_read 1 r;
      s ← upd_pipe pipe (fun p => pipe_h2d p (Some r)) s;
      match bs with
      | c :: _ => Done (c, s)
      | [] =>
          s ← usb_dwc2_handle_events fuel' env s;
          s ← usb_dwc2_cdc_start_bulk_out_xfer (ep_out p) s;
          getbyte_loop fuel' env pipe s
      end
  end.
Definition usb_dwc2_getbyte (fuel : nat) (env : usb_env) (pipe : Z) s : outcome (Z * usb W) :=
  p ← get_pipe pipe s;
  if decide (host2device p = None) then Done (0, s) else getbyte_loop fuel env pipe s.

(** Enqueue [buf] for the host, serving the controller whenever the ring is full:
    the common loop of [usb_dwc2_queue] and (for one byte) [usb_dwc2_putbyte]. *)
Fixpoint queue_loop (fuel : nat) (env : usb_env) (pipe ep : Z) (buf : list Z) (sent : Z) s : outcome (Z * usb W) :=
  match buf with
  | [] => Done (sent, s)
  | _ =>
      match fuel with
      | O => Stuck
      | S fuel' =>
          p ← get_pipe pipe s;
          r ← of_option (device2host p);
          '(wrote, r) ← ringbuffer_write buf r;
          s ← upd_pipe pipe (fun p => pipe_d2h p (Some r)) s;
          let buf := drop (Z.to_nat wrote) buf in
          s ← (if 0 <? zlen buf then
                 s ← usb_dwc2_handle_events fuel' env s; usb_dwc2_cdc_start_bulk_in_xfer ep s
               else Done s);
          queue_loop fuel' env pipe ep buf (sent + wrote) s
      end
  end.
Definition usb_dwc2_putbyte (fuel : nat) (env : usb_env) (pipe byte : Z) s : outcome (usb W) :=
  p ← get_pipe pipe s;
  if decide (device2host p = None) then Done s
  else '(_, s) ← queue_loop fuel env pipe (ep_in p) [byte] 0 s; Done s.

Definition usb_dwc2_queue (fuel : nat) (env : usb_env) (pipe : Z) (buf : list Z) : option (usb W) -> outcome (Z * option (usb W)) :=
  with_dev 0 (fun s =>
    p ← get_pipe pipe s;
    if negb (ready p) then Done (0, s)
    else if decide (device2host p = None) then Done (0, s)
    else queue_loop fuel env pipe (ep_in p) buf 0 s).

(** [return -1] in a function that returns [size_t]. *)
Definition usb_dwc2_write (fuel : nat) (env : usb_env) (pipe : Z) (buf : list Z) (o : option (usb W)) : outcome (Z * option (usb W)) :=
  match o with
  | None => Done (u32 (-1), None)
  | Some s =>
      p ← get_pipe pipe s;
      '(ret, o) ← usb_dwc2_queue fuel env pipe buf (Some s);
      s ← of_option o;
      s ← usb_dwc2_cdc_start_bulk_in_xfer (ep_in p) s;
      Done (ret, Some s)
  end.

(** The bytes read, whose number is the C result. *)
Fixpoint read_loop (fuel : nat) (env : usb_env) (pipe ep : Z) (count : Z) (got : list Z) s : outcome (list Z * usb W) :=
  if count =? 0 then Done (got, s)
  else
    match fuel with
    | O => Stuck
    | S fuel' =>
        p ← get_pipe pipe s;
        r ← of_option (host2device p);
        '(bs, r) ← ringbuffer_read (Z.to_nat count) r;
        s ← upd_pipe pipe (fun p => pipe_h2d p (Some r)) s;
        s ← usb_dwc2_handle_events fuel' env s;
        s ← usb_dwc2_cdc_start_bulk_out_xfer ep s;
        read_loop fuel' env pipe ep (count - zlen bs) (got ++ bs) s
    end.
Definition usb_dwc2_read (fuel : nat) (env : usb_env) (pipe count : Z) : option (usb W) -> outcome (list Z * option (usb W)) :=
  with_dev [] (fun s =>
    p ← get_pipe pipe s;
    if negb (ready p) then Done ([], s)
    else if decide (host2device p = None) then Done ([], s)
    else read_loop fuel env pipe (ep_out p) count [] s).

Definition usb_dwc2_can_read (pipe : Z) : option (usb W) -> outcome (Z * option (usb W)) :=
  with_dev 0 (fun s =>
    p ← get_pipe pipe s;
    if negb (ready p) then Done (0, s)
    else Done (match host2device p with None => 0 | Some r => ringbuffer_get_used r end, s)).

Definition usb_dwc2_can_write (pipe : Z) : option (usb W) -> outcome (bool * option (usb W)) :=
  with_dev false (fun s => p ← get_pipe pipe s; Done (ready p, s)).

Fixpoint flush_wait (fuel : nat) (env : usb_env) (pipe ep : Z) s : outcome (usb W) :=
  p ← get_pipe pipe s;
  r ← of_option (device2host p);
  e ← get_ep ep s;
  if negb (ringbuffer_get_used r =? 0) || xfer_in_progress e then
    match fuel with
    | O => Stuck
    | S fuel' => s ← usb_dwc2_handle_events fuel' env s; flush_wait fuel' env pipe ep s
    end
  else Done s.
Definition usb_dwc2_flush (fuel : nat) (env : usb_env) (pipe : Z) : option (usb W) -> outcome (unit * option (usb W)) :=
  with_dev tt (fun s =>
    p ← get_pipe pipe s;
    if negb (ready p) then Done (tt, s)
    else if decide (device2host p = None) then Done (tt, s)
    else s ← flush_wait fuel env pipe (ep_in p) s; Done (tt, s)).

End driver.
