(* ===== verification/Dwc2Spec.v ===== *)
(** * The USB controller driver: invariant and behaviour

    Theorems about the definitions of Dwc2.v, for every controller that does not
    unmap memory: the invariant of the driver, what each request on endpoint 0
    is answered with, the data stage, and the two directions of a bulk pipe. *)
From S2P Require Import Prelude Machine CString Adt RingBuffer UsbDesc Dwc2.

(** ** Runs that return *)

(** [runs x Q]: [x] returns a result that satisfies [Q]. *)
Definition runs {A} (x : outcome A) (Q : A -> Prop) : Prop := exists a, x = Done a /\ Q a.

Lemma runs_Done {A} (a : A) (Q : A -> Prop) : Q a -> runs (Done a) Q.
Proof. intros. by exists a. Qed.

Lemma runs_bind {A B} (x : outcome A) (f : A -> outcome B) P Q :
  runs x P -> (forall a, P a -> runs (f a) Q) -> runs (x ≫= f) Q.
Proof. intros (a & -> & Ha) Hf. destruct (Hf a Ha) as (b & Hb & ?). by exists b. Qed.

Lemma runs_mono {A} (x : outcome A) (P Q : A -> Prop) : runs x P -> (forall a, P a -> Q a) -> runs x Q.
Proof. intros (a & ? & ?) HPQ. exists a. auto. Qed.

Definition safe {A} (x : outcome A) (Q : A -> Prop) : Prop := forall a, x = Done a -> Q a.

Lemma safe_Done {A} (a : A) (Q : A -> Prop) : Q a -> safe (Done a) Q.
Proof. by intros ? ? [= <-]. Qed.

Lemma safe_bind {A B} (x : outcome A) (f : A -> outcome B) P Q :
  safe x P -> (forall a, P a -> safe (f a) Q) -> safe (x ≫= f) Q.
Proof. intros Hx Hf b Hb. apply bind_Done_inv in Hb as (a & Ha & Hb). by eapply Hf; [apply Hx|]. Qed.

Lemma safe_mono {A} (x : outcome A) (P Q : A -> Prop) : safe x P -> (forall a, P a -> Q a) -> safe x Q.
Proof. intros Hx HPQ a Ha. auto. Qed.

Lemma runs_safe {A} (x : outcome A) (Q : A -> Prop) : runs x Q -> safe x Q.
Proof. by intros (a & -> & Ha) ? [= <-]. Qed.

(** Memory that stays mapped and holds bytes. *)
Definition mem_bytes (m : mem) : Prop := forall a b, m !! a = Some b -> is_byte b.
Definition mem_grows (m m' : mem) : Prop :=
  (forall a n, region m a n -> region m' a n) /\ (mem_bytes m -> mem_bytes m').

(** What is documented of the controller: it masters memory, by bytes, and does
    not unmap it. *)
Class Dwc2Laws (W : Type) {HW : Dwc2Hw W} : Prop := {
  read_mem a w m v w' m' : mmio_read a w m = (v, w', m') -> mem_grows m m';
  write_mem a v w m w' m' : mmio_write a v w m = (w', m') -> mem_grows m m';
  delay_mem us w m w' m' : hw_delay us w m = (w', m') -> mem_grows m m';
}.

Lemma store8_grows m a v m' : store8 m a v = Done m' -> mem_grows m m'.
Proof.
  unfold store8. destruct (m !! u32 a) eqn:E; [|done]. intros [= <-]. split.
  - intros. by apply region_insert.
  - intros Hb k b. rewrite lookup_insert. case_decide; [intros [= <-]; apply u8_byte|apply Hb].
Qed.

#[export] Instance mem_grows_preorder : PreOrder mem_grows.
Proof. split; [by split|]. intros m1 m2 m3 [] []. split; auto. Qed.

Lemma store_bytes_grows m a bs m' : store_bytes m a bs = Done m' -> mem_grows m m'.
Proof.
  revert m a. induction bs as [|b bs IH]; intros m a Hs; cbn in Hs; [by injection Hs as <-|].
  inv_bind Hs. etrans; [by eapply store8_grows|by eapply IH].
Qed.

(** ** The driver's invariant *)
Section invariant.
Context {W : Type} `{HW : Dwc2Hw W} {HL : Dwc2Laws W}.
#[local] Set Default Proof Using "Type*".
Implicit Types (s : usb W) (d : dwc2_dev).

(** A descriptor object: its first byte is a length inside it. *)
Definition string_ok (x : list Z) : Prop := are_bytes x /\ 0 <= bLength_of x <= 255 /\ bLength_of x <= zlen x.

Definition ring_ok (r : option ringbuffer_t) : Prop :=
  exists b, r = Some b /\ ring_wf b /\ len b = CDC_BUFFER_SIZE.

Definition pipe_ok (i : Z) (p : acm_pipe) : Prop :=
  ring_ok (host2device p) /\ ring_ok (device2host p) /\ cdc_line_coding p = cdc_default_line_coding /\
  ep_intr p = 2 + 3 * i /\ ep_out p = 3 + 3 * i /\ ep_in p = 4 + 3 * i.

(** What [ep0_buffer] and [ep0_buffer_len] promise to the data stage. *)
Definition source_ok d : Prop :=
  0 <= ep0_buffer_len d <= 255 /\
  match ep0_buffer d with
  | Src_null => ep0_buffer_len d = 0
  | Src_const x => are_bytes x /\ ep0_buffer_len d <= zlen x
  | Src_line_coding i => 0 <= i < 2 /\ ep0_buffer_len d <= 7
  end.

(** The states of a data stage from the host are never entered. *)
Definition state_ok (st : ep0_state) : Prop :=
  st <> USB_DWC2_EP0_STATE_DATA_RECV /\ st <> USB_DWC2_EP0_STATE_DATA_RECV_DONE.

Record usb_ok s : Prop := {
  ok_page : 0 < dma_page_p (dev s) /\ dma_page_p (dev s) + DMA_PAGE_SIZE <= 2 ^ 32;
  ok_mem : region (um s) (dma_page_p (dev s)) DMA_PAGE_SIZE;
  ok_bytes : mem_bytes (um s);
  ok_eps : map xfer_buffer (endpoints (dev s)) =
           map (fun i => dma_page_p (dev s) + i * DMA_BUFFER_SIZE) (seqZ 0 MAX_ENDPOINTS);
  ok_pipes : exists p0 p1, pipes (dev s) = [p0; p1] /\ pipe_ok 0 p0 /\ pipe_ok 1 p1;
  ok_source : source_ok (dev s);
  ok_read : ep0_read_buffer_len (dev s) = 0;
  ok_state : state_ok (ep0_st (dev s));
  ok_serial : forall x, str_serial s = Some x -> string_ok x;
}.

(** [s'] comes from [s] by the controller's work and bookkeeping of the
    endpoints. *)
Record evolves s s' : Prop := {
  ev_page : dma_page_p (dev s') = dma_page_p (dev s);
  ev_st : ep0_st (dev s') = ep0_st (dev s);
  ev_buf : ep0_buffer (dev s') = ep0_buffer (dev s);
  ev_len : ep0_buffer_len (dev s') = ep0_buffer_len (dev s);
  ev_rlen : ep0_read_buffer_len (dev s') = ep0_read_buffer_len (dev s);
  ev_pipes : pipes (dev s') = pipes (dev s);
  ev_eps : map xfer_buffer (endpoints (dev s')) = map xfer_buffer (endpoints (dev s));
  ev_serial : str_serial s' = str_serial s;
  ev_mem : mem_grows (um s) (um s');
}.

#[local] Instance evolves_preorder : PreOrder evolves.
Proof using Type.
  split; [by intros s; split|].
  intros s1 s2 s3 [] []. split; try congruence. by etrans.
Qed.

Lemma evolves_ok s s' : evolves s s' -> usb_ok s -> usb_ok s'.
Proof using Type.
  intros [E1 E2 E3 E4 E5 E6 E7 E8 [E9 E10]] [K1 K2 K3 K4 K5 K6 K7 K8 K9].
  unfold source_ok in K6. split; unfold source_ok;
    rewrite ?E1, ?E2, ?E3, ?E4, ?E5, ?E6, ?E7, ?E8; auto.
Qed.

Lemma ev_reg_read off s : evolves s (snd (reg_read off s)).
Proof.
  unfold reg_read. destruct (mmio_read _ _ _) as [[v w] m] eqn:E. split; try done.
  by eapply read_mem.
Qed.

Lemma ev_reg_write off v s : evolves s (reg_write off v s).
Proof.
  unfold reg_write. destruct (mmio_write _ _ _ _) as [w m] eqn:E. split; try done.
  by eapply write_mem.
Qed.

Lemma ev_reg_read_eq off s v s' : reg_read off s = (v, s') -> evolves s s'.
Proof. intros E. change s' with (snd (v, s')). rewrite <- E. apply ev_reg_read. Qed.

Lemma ev_set32 off v s : evolves s (reg_set32 off v s).
Proof. unfold reg_set32. destruct (reg_read off s) eqn:E. apply ev_reg_read_eq in E. etrans; [done|apply ev_reg_write]. Qed.

Lemma ev_clear32 off v s : evolves s (reg_clear32 off v s).
Proof. unfold reg_clear32. destruct (reg_read off s) eqn:E. apply ev_reg_read_eq in E. etrans; [done|apply ev_reg_write]. Qed.

Lemma ev_udelay us s : evolves s (usb_udelay us s).
Proof. unfold usb_udelay. destruct (hw_delay _ _ _) eqn:E. split; try done. by eapply delay_mem. Qed.

Lemma ev_set_fifo n s : evolves s (set_fifo s n).
Proof using Type. by split. Qed.

Lemma ev_reg_writes l s : evolves s (reg_writes l s).
Proof.
  revert s. induction l as [|[a v] l IH]; intros s; cbn; [done|]. etrans; [apply ev_reg_write|apply IH].
Qed.

Lemma ev_set_address a s : evolves s (usb_set_address a s).
Proof. unfold usb_set_address. destruct (reg_read _ s) eqn:E. apply ev_reg_read_eq in E. etrans; [done|apply ev_reg_write]. Qed.

Lemma ev_take_int off s i s' : take_int off s = (i, s') -> evolves s s'.
Proof.
  unfold take_int. destruct (reg_read _ s) eqn:E. apply ev_reg_read_eq in E. intros [= <- <-].
  etrans; [done|apply ev_reg_write].
Qed.

(** Chains of register accesses. *)
Lemma ev_trans_l s1 s2 s3 : evolves s1 s2 -> evolves s2 s3 -> evolves s1 s3.
Proof using Type. apply transitivity. Qed.

(** Introduce the result of a register read as a state reached by evolution. *)
Ltac read_step :=
  match goal with
  | |- context [reg_read ?off ?s] =>
      let E := fresh "E" in let v := fresh "v" in let s' := fresh "s" in
      destruct (reg_read off s) as [v s'] eqn:E; apply ev_reg_read_eq in E
  | |- context [take_int ?off ?s] =>
      let E := fresh "E" in let v := fresh "v" in let s' := fresh "s" in
      destruct (take_int off s) as [v s'] eqn:E; apply ev_take_int in E
  end.
Ltac ev_step :=
  first [ assumption | reflexivity
        | eapply ev_trans_l; [|apply ev_set32] | eapply ev_trans_l; [|apply ev_clear32]
        | eapply ev_trans_l; [|apply ev_reg_write] | eapply ev_trans_l; [|apply ev_reg_writes]
        | eapply ev_trans_l; [|apply ev_set_fifo] | eapply ev_trans_l; [|apply ev_udelay]
        | eapply ev_trans_l; [|apply ev_set_address]
        | eapply ev_trans_l; [|eassumption] ].
Ltac ev := repeat ev_step.

Lemma phy_Done ep : 0 <= ep < 8 -> znth phyEndpoints ep = Done (phy ep).
Proof using Type.
  intros. unfold znth. bdec. assert (Z.to_nat ep < 8)%nat as Hn by lia. unfold phy.
  revert Hn. generalize (Z.to_nat ep). intros n Hn. do 8 (destruct n as [|n]; [done|]). lia.
Qed.

Lemma ep_lookup s i : usb_ok s -> 0 <= i < 8 ->
  exists e, endpoints (dev s) !! Z.to_nat i = Some e /\
            xfer_buffer e = dma_page_p (dev s) + i * DMA_BUFFER_SIZE /\ zlen (endpoints (dev s)) = 8.
Proof using Type.
  intros K Hi. pose proof (ok_eps s K) as He.
  assert (length (endpoints (dev s)) = 8%nat) as Hl.
  { rewrite <- (length_map xfer_buffer), He, length_map. reflexivity. }
  destruct (lookup_lt_is_Some_2 (endpoints (dev s)) (Z.to_nat i)) as [e Hx]; [lia|].
  exists e. split; [done|]. split; [|unfold zlen; lia].
  pose proof (list_lookup_fmap xfer_buffer (endpoints (dev s)) (Z.to_nat i)) as Hf.
  rewrite Hx in Hf. change (xfer_buffer <$> endpoints (dev s)) with (map xfer_buffer (endpoints (dev s))) in Hf.
  rewrite He in Hf. change (@map Z Z) with (@fmap list _ Z Z) in Hf. rewrite list_lookup_fmap in Hf.
  rewrite lookup_seqZ_lt in Hf by (unfold MAX_ENDPOINTS; lia). cbn in Hf. injection Hf as Hf.
  rewrite <- Hf. by replace (0 + Z.of_nat (Z.to_nat i)) with i by lia.
Qed.

Lemma get_ep_runs i s : usb_ok s -> 0 <= i < 8 ->
  runs (get_ep i s) (fun e => xfer_buffer e = dma_page_p (dev s) + i * DMA_BUFFER_SIZE).
Proof using Type.
  intros K Hi. destruct (ep_lookup s i K Hi) as (e & He & Hx & _). exists e. split; [|done].
  apply znth_Done. split; [lia|done].
Qed.

Lemma upd_ep_runs i f s : usb_ok s -> 0 <= i < 8 -> (forall e, xfer_buffer (f e) = xfer_buffer e) ->
  runs (upd_ep i f s) (evolves s).
Proof using Type.
  intros K Hi Hf. destruct (ep_lookup s i K Hi) as (e & He & _ & Hl). unfold upd_ep.
  assert (get_ep i s = Done e) as -> by (apply znth_Done; split; [lia|done]).
  cbn. rewrite zset_Done by lia. cbn. apply runs_Done. split; try done. cbn.
  change (@map dwc2_endpoint Z) with (@fmap list _ dwc2_endpoint Z). rewrite list_fmap_insert.
  apply list_insert_id. rewrite list_lookup_fmap, He. cbn. by rewrite Hf.
Qed.

Lemma activate_runs ep type n s :
  usb_ok s -> 0 <= ep < 8 -> type = 0 \/ type = 2 \/ type = 3 ->
  runs (usb_dwc2_ep_activate ep type n s) (fun p => fst p = 0 /\ evolves s (snd p)).
Proof.
  intros K Hep Ht. unfold usb_dwc2_ep_activate. rewrite phy_Done, bind_Done by done.
  eapply runs_bind; [by apply upd_ep_runs|]. intros s1 E1.
  assert (negb (type =? DWC2_EP_TYPE_CONTROL) && negb (type =? DWC2_EP_TYPE_BULK)
          && negb (type =? DWC2_EP_TYPE_INTR) = false) as ->
    by (destruct Ht as [-> | [-> | ->]]; reflexivity).
  cbn beta iota zeta. destruct (dir_in (phy ep)); cbn beta iota zeta;
    apply runs_Done; (split; [done|]); cbn [snd]; repeat case_if; ev.
Qed.

Lemma set_stall_runs ep st s : 0 <= ep < 8 -> runs (usb_dwc2_ep_set_stall ep st s) (evolves s).
Proof.
  intros. unfold usb_dwc2_ep_set_stall. rewrite phy_Done, bind_Done by done. apply runs_Done. case_if; ev.
Qed.

Lemma hw_recv_runs ep n k s : usb_ok s -> 0 <= ep < 8 -> runs (usb_dwc2_ep_hw_recv ep n k s) (evolves s).
Proof.
  intros K Hep. unfold usb_dwc2_ep_hw_recv. rewrite phy_Done, bind_Done by done.
  case_if; [by apply runs_Done|]. eapply runs_bind; [by apply get_ep_runs|]. intros e _. apply runs_Done. ev.
Qed.

Lemma hw_send_runs ep n k s : usb_ok s -> 0 <= ep < 8 -> runs (usb_dwc2_ep_hw_send ep n k s) (evolves s).
Proof.
  intros K Hep. unfold usb_dwc2_ep_hw_send. rewrite phy_Done, bind_Done by done.
  case_if; [by apply runs_Done|]. eapply runs_bind; [by apply get_ep_runs|]. intros e _.
  set (s1 := if _ =? 0 then _ else _). assert (evolves s s1) as E1 by (unfold s1; case_if; ev).
  eapply runs_mono; [apply upd_ep_runs; [by eapply evolves_ok|done|done]|]. intros s2 E2. ev.
Qed.

Lemma status_phase_runs ep s : usb_ok s -> 0 <= ep < 8 -> runs (usb_dwc2_start_status_phase ep s) (evolves s).
Proof.
  intros. unfold usb_dwc2_start_status_phase. rewrite phy_Done, bind_Done by done.
  case_if; [by apply hw_send_runs|by apply hw_recv_runs].
Qed.

Lemma setup_phase_runs s : usb_ok s -> runs (usb_dwc2_start_setup_phase s) (evolves s).
Proof. intros. by apply hw_recv_runs. Qed.

(** ** Requests *)

(** The setup packet: [struct usb_setup_packet_raw]. *)
Record setup_packet : Type := Setup { bmRequestType : Z; bRequest : Z; wValue : Z; wIndex : Z; wLength : Z }.
Definition packet_bytes (p : setup_packet) : list Z :=
  [bmRequestType p; bRequest p] ++ le_bytes 2 (wValue p) ++ le_bytes 2 (wIndex p) ++ le_bytes 2 (wLength p).
Definition packet_ok (p : setup_packet) : Prop :=
  is_byte (bmRequestType p) /\ is_byte (bRequest p) /\ 0 <= wValue p < 65536 /\ 0 <= wIndex p < 65536 /\ 0 <= wLength p < 65536.

(** The controller has stored the packet in endpoint 0's buffer. *)
Definition packet_at s (p : setup_packet) : Prop :=
  packet_ok p /\ bytes_at (um s) (dma_page_p (dev s)) (packet_bytes p).

Lemma packet_fields s p a : packet_at s p -> a = dma_page_p (dev s) ->
  setup_u8 a 0 s = Done (bmRequestType p) /\ setup_u8 a 1 s = Done (bRequest p) /\
  setup_u16 a 2 s = Done (wValue p) /\ setup_u8 a 2 s = Done (wValue p mod 256) /\
  setup_u8 a 3 s = Done (wValue p / 256) /\ setup_u16 a 4 s = Done (wIndex p) /\
  setup_u16 a 6 s = Done (wLength p).
Proof using Type.
  intros [(H1 & H2 & H3 & H4 & H5) Hb] ->. unfold is_byte in *.
  unfold packet_bytes in Hb. cbn [le_bytes app bytes_at] in Hb.
  destruct Hb as ([B0 R0] & [B1 R1] & [B2 R2] & [B3 R3] & [B4 R4] & [B5 R5] & [B6 R6] & [B7 R7] & _).
  assert (E : forall x, 0 <= x < 65536 -> u8 x = x mod 256 /\ u8 (x / 256) = x / 256)
    by (intros; unfold wrap; change (2 ^ 8) with 256; lia).
  destruct (E _ H3) as [E1 E2]. destruct (E _ H4) as [E3 E4]. destruct (E _ H5) as [E5 E6].
  rewrite E1 in B2. rewrite E2 in B3. rewrite E3 in B4. rewrite E4 in B5. rewrite E5 in B6. rewrite E6 in B7.
  set (g := dma_page_p (dev s)) in *.
  assert (L : forall a b k, um s !! a = Some b -> 0 <= a < 2 ^ 32 -> a = g + k -> load8 (um s) (g + k) = Done b)
    by (intros a b k ? ? ->; by apply load8_lookup).
  apply (L _ _ 0) in B0; [|done|lia]. apply (L _ _ 1) in B1; [|done|lia].
  apply (L _ _ 2) in B2; [|done|lia]. apply (L _ _ 3) in B3; [|done|lia].
  apply (L _ _ 4) in B4; [|done|lia]. apply (L _ _ 5) in B5; [|done|lia].
  apply (L _ _ 6) in B6; [|done|lia]. apply (L _ _ 7) in B7; [|done|lia].
  unfold setup_u8, setup_u16. cbn [load_le].
  replace (g + 2 + 1) with (g + 3) by lia. replace (g + 4 + 1) with (g + 5) by lia.
  replace (g + 6 + 1) with (g + 7) by lia.
  rewrite B0, B1, B2, B3, B4, B5, B6, B7, !bind_Done. repeat split; f_equal; lia.
Qed.

(** What a device of this kind must answer. *)
Inductive reply : Type :=
| R_stall
| R_status
| R_data (bs : list Z).

(** The descriptors by type and index, [serial] being the serial number's. *)
Definition descriptor_of (env : usb_env) (serial : list Z) (type index : Z) : option (list Z) :=
  let text x := Some (take (Z.to_nat (bLength_of x)) x) in
  if type =? USB_DEVICE_DESCRIPTOR then Some (device_bytes usb_cdc_device_descriptor)
  else if type =? USB_CONFIGURATION_DESCRIPTOR then Some (cdc_dev_desc_bytes cdc_configuration_descriptor)
  else if type =? USB_STRING_DESCRIPTOR then
    if index =? STRING_DESCRIPTOR_LANGUAGES then text str_langs
    else if index =? STRING_DESCRIPTOR_MANUFACTURER then text str_manufacturer
    else if index =? STRING_DESCRIPTOR_PRODUCT then text (str_product (build_tag env))
    else if index =? STRING_DESCRIPTOR_SERIAL then text serial
    else None
  else if type =? USB_DEVICE_QUALIFIER_DESCRIPTOR then Some (qualifier_bytes usb_cdc_device_qualifier_descriptor)
  else None.

Definition standard_reply (env : usb_env) (serial : list Z) (p : setup_packet) : option reply :=
  let recipient := Z.land (bmRequestType p) USB_REQUEST_TYPE_RECIPIENT_MASK in
  if recipient =? USB_REQUEST_TYPE_RECIPIENT_DEVICE then Some (
    if bRequest p =? USB_REQUEST_SET_ADDRESS then R_status
    else if bRequest p =? USB_REQUEST_SET_CONFIGURATION then
      if (wValue p =? 0) || (wValue p =? 1) then R_status else R_stall
    else if bRequest p =? USB_REQUEST_GET_DESCRIPTOR then
      match descriptor_of env serial (wValue p / 256) (wValue p mod 256) with
      | Some x => R_data (take (Z.to_nat (wLength p)) x)
      | None => R_stall
      end
    else if bRequest p =? USB_REQUEST_GET_STATUS then R_data [1; 0]
    else R_stall)
  else if recipient =? USB_REQUEST_TYPE_RECIPIENT_INTERFACE then
    Some (if bRequest p =? USB_REQUEST_GET_STATUS then R_data [0; 0] else R_stall)
  else if recipient =? USB_REQUEST_TYPE_RECIPIENT_ENDPOINT then
    if bRequest p =? USB_REQUEST_GET_STATUS then Some (R_data [0; 0])
    else if (bRequest p =? USB_REQUEST_CLEAR_FEATURE) && (wValue p =? USB_FEATURE_ENDPOINT_HALT) then
      (if bool_decide (u8 (wIndex p) ∈ phyEndpoints) then Some R_status else None)
    else Some R_stall
  else Some R_stall.

(** [None]: the two requests the driver does not survive, the CLEAR_FEATURE of
    an endpoint it does not have and the opening of the second pipe. *)
Definition class_reply (p : setup_packet) : option reply :=
  if 4 <=? wIndex p then Some R_stall
  else if bRequest p =? USB_REQUEST_CDC_GET_LINE_CODING then
    Some (R_data (take (Z.to_nat (wLength p)) cdc_default_line_coding))
  else if bRequest p =? USB_REQUEST_CDC_SET_CTRL_LINE_STATE then
    if has (wValue p) 1 && (2 <=? wIndex p) then None else Some R_status
  else Some R_stall.

Definition reply_to (env : usb_env) (serial : list Z) (p : setup_packet) : option reply :=
  let type := Z.land (bmRequestType p) USB_REQUEST_TYPE_MASK in
  if type =? USB_REQUEST_TYPE_STANDARD then standard_reply env serial p
  else if type =? USB_REQUEST_TYPE_CLASS then class_reply p
  else Some R_stall.

(** The driver's state once it has decided on an answer. *)
Definition answers (r : reply) s : Prop :=
  match r with
  | R_stall => ep0_st (dev s) = USB_DWC2_EP0_STATE_IDLE
  | R_status => ep0_st (dev s) = USB_DWC2_EP0_STATE_DATA_SEND_STATUS \/
                ep0_st (dev s) = USB_DWC2_EP0_STATE_DATA_SEND_STATUS_DONE
  | R_data bs => ep0_st (dev s) = USB_DWC2_EP0_STATE_DATA_SEND /\
                 exists x, ep0_object s = Done x /\ take (Z.to_nat (ep0_buffer_len (dev s))) x = bs
  end.

(** ** Answering a request *)
Lemma are_bytes_check x : forallb (fun b => (0 <=? b) && (b <? 256)) x = true -> are_bytes x.
Proof using Type.
  induction x as [|b x IH]; [constructor|]. cbn [forallb]. intros Hx. b2p. constructor; [by split|by apply IH].
Qed.

Lemma utf16_bytes x : are_bytes (utf16 x).
Proof using Type.
  unfold utf16. induction x as [|c x IH]; [constructor|]. cbn [map concat].
  apply Forall_app. split; [apply le_bytes_are_bytes|done].
Qed.

Lemma string_ok_prefix l x : 0 <= l <= 255 -> l <= 2 + zlen (utf16 x) -> string_ok ([l; USB_STRING_DESCRIPTOR] ++ utf16 x).
Proof using Type.
  intros. unfold string_ok. change (bLength_of ([l; USB_STRING_DESCRIPTOR] ++ utf16 x)) with l.
  rewrite zlen_app, !zlen_cons, (zlen_nil (A := Z)). split; [|lia].
  apply Forall_app. split; [|apply utf16_bytes]. constructor; [unfold is_byte; lia|]. by repeat constructor.
Qed.

Lemma wrap8_le n : 0 <= n -> 0 <= u8 n <= 255 /\ u8 n <= n.
Proof using Type. intros. unfold wrap. change (2 ^ 8) with 256. lia. Qed.

Lemma string_ok_make x : string_ok (make_usb_string_descriptor x).
Proof using Type.
  pose proof (zlen_nonneg x). destruct (wrap8_le (2 + 2 * (zlen x + 1) - 2)) as [? ?]; [lia|].
  apply string_ok_prefix; [lia|]. rewrite zlen_utf16, zlen_app. cbn. autorewrite with haywire. lia.
Qed.

Lemma string_ok_serial x : string_ok (serial_descriptor x).
Proof using Type.
  pose proof (zlen_nonneg x). destruct (wrap8_le (2 + 2 * zlen x)) as [? ?]; [lia|].
  apply string_ok_prefix; [lia|]. rewrite zlen_utf16. lia.
Qed.

Lemma find_serial_ok env x : find_serial env = Done x -> string_ok x.
Proof using Type.
  unfold find_serial. intros Hx. inv_bind Hx. destruct a as [[p n]|].
  - inv_bind Hx. revert Hx. case_if; [intros [= <-]; apply string_ok_make|]. intros Hx.
    inv_bind Hx. inv_bind Hx. revert Hx. case_if; [|done]. intros [= <-]. apply string_ok_serial.
  - injection Hx as <-. apply string_ok_make.
Qed.

(** The serial number's descriptor is known already, or the device tree yields it. *)
Definition serial_known (env : usb_env) s (serial : list Z) : Prop :=
  str_serial s = Some serial \/ (str_serial s = None /\ find_serial env = Done serial).

Lemma set_state_ok s x : usb_ok s -> state_ok x -> usb_ok (set_state s x).
Proof using Type. by intros [] ?; split. Qed.

Lemma set_buffer_ok s b n : usb_ok s -> source_ok (dev_buffer (dev s) b n) -> usb_ok (set_dev s (dev_buffer (dev s) b n)).
Proof using Type. by intros [] ?; split. Qed.

Lemma set_serial_ok s x : usb_ok s -> string_ok x -> usb_ok (set_serial s (Some x)).
Proof using Type. intros [] ?; split; try done. by intros ? [= <-]. Qed.

Definition answered (r : reply) s : Prop := usb_ok s /\ answers r s.

Lemma stall_runs s : usb_ok s -> runs (ep0_stall s) (answered R_stall).
Proof.
  intros K. unfold ep0_stall. eapply runs_bind; [apply set_stall_runs; lia|]. intros s1 E1.
  apply runs_Done. split; [|done]. apply set_state_ok; [by eapply evolves_ok|by split].
Qed.

(** Serve the first [n] bytes of an object. *)
Lemma serve_const s x n :
  usb_ok s -> are_bytes x -> 0 <= n <= 255 -> n <= zlen x ->
  answered (R_data (take (Z.to_nat n) x))
    (set_state (set_dev s (dev_buffer (dev s) (Src_const x) n)) USB_DWC2_EP0_STATE_DATA_SEND).
Proof using Type.
  intros K ???. split.
  - apply set_state_ok; [|by split]. apply set_buffer_ok; [done|]. split; [done|by split].
  - split; [done|]. by exists x.
Qed.

Lemma status_answer s v : usb_ok s -> runs (ep0_status v s) (answered (R_data (le_bytes 2 v))).
Proof using Type.
  intros K. apply runs_Done. apply (serve_const s (le_bytes 2 v) 2); try done.
  apply le_bytes_are_bytes.
Qed.

Lemma get_descriptor_runs env serial p s a :
  usb_ok s -> packet_at s p -> a = dma_page_p (dev s) -> serial_known env s serial ->
  runs ('(r, s) ← usb_dwc2_handle_ep0_get_descriptor env a s;
        if r <? 0 then ep0_stall s else Done (set_state s USB_DWC2_EP0_STATE_DATA_SEND))
    (answered match descriptor_of env serial (wValue p / 256) (wValue p mod 256) with
              | Some x => R_data (take (Z.to_nat (wLength p)) x)
              | None => R_stall
              end).
Proof.
  intros K P Ha Hs. destruct (packet_fields s p a P Ha) as (_ & _ & _ & Hidx & Hty & _ & Hlen).
  assert (0 <= wLength p) by (destruct P as [(_ & _ & _ & _ & ?) _]; lia).
  assert (Serve : forall s1 x n, usb_ok s1 -> um s1 = um s -> are_bytes x -> 0 <= n <= 255 -> n <= zlen x ->
    runs ('(r, s) ← (wLength ← setup_u16 a 6 s1;
                     Done (0, set_dev s1 (dev_buffer (dev s1) (Src_const x) (Z.min wLength n))));
          if r <? 0 then ep0_stall s else Done (set_state s USB_DWC2_EP0_STATE_DATA_SEND))
      (answered (R_data (take (Z.to_nat (wLength p)) (take (Z.to_nat n) x))))).
  { intros s1 x n K1 Hm Hx Hn Hl. unfold setup_u16 in *. rewrite Hm, Hlen, !bind_Done. cbn beta iota.
    change (0 <? 0) with false. apply runs_Done. rewrite take_take.
    replace (Z.to_nat (wLength p) `min` Z.to_nat n)%nat with (Z.to_nat (Z.min (wLength p) n)) by lia.
    apply serve_const; [done|done|lia|lia]. }
  unfold usb_dwc2_handle_ep0_get_descriptor, descriptor_of. rewrite Hty, bind_Done.
  destruct (wValue p / 256 =? USB_DEVICE_DESCRIPTOR).
  { apply (Serve s (device_bytes usb_cdc_device_descriptor) 18); [done|done|by apply are_bytes_check|lia|done]. }
  destruct (wValue p / 256 =? USB_CONFIGURATION_DESCRIPTOR).
  { apply (Serve s (cdc_dev_desc_bytes cdc_configuration_descriptor) 97); [done|done|by apply are_bytes_check|lia|done]. }
  destruct (wValue p / 256 =? USB_STRING_DESCRIPTOR).
  2:{ destruct (wValue p / 256 =? USB_DEVICE_QUALIFIER_DESCRIPTOR).
      - apply (Serve s (qualifier_bytes usb_cdc_device_qualifier_descriptor) 10); [done|done|by apply are_bytes_check|lia|done].
      - by apply stall_runs. }
  rewrite Hidx, bind_Done. unfold usb_cdc_get_string_descriptor.
  assert (Text : forall s1 x, usb_ok s1 -> um s1 = um s -> string_ok x -> _) by
    (intros s1 x K1 Hm (Hx & Hn & Hl); exact (Serve s1 x (bLength_of x) K1 Hm Hx Hn Hl)).
  destruct (wValue p mod 256 =? STRING_DESCRIPTOR_LANGUAGES).
  { apply (Text s); [done|done|]. repeat split; try done. by apply are_bytes_check. }
  destruct (wValue p mod 256 =? STRING_DESCRIPTOR_MANUFACTURER).
  { apply (Text s); [done|done|]. apply string_ok_make. }
  destruct (wValue p mod 256 =? STRING_DESCRIPTOR_PRODUCT).
  { apply (Text s); [done|done|]. apply string_ok_make. }
  destruct (wValue p mod 256 =? STRING_DESCRIPTOR_SERIAL).
  2:{ by apply stall_runs. }
  unfold usb_build_serial. destruct Hs as [Hs | [Hs Hf]]; rewrite Hs.
  - rewrite bind_Done, Hs. apply (Text s); [done|done|]. by apply (ok_serial s).
  - rewrite Hf, !bind_Done. apply (Text (set_serial s (Some serial))); [|done|by eapply find_serial_ok].
    apply set_serial_ok; [done|]. by eapply find_serial_ok.
Qed.

Lemma ep_to_num_range e : e ∈ phyEndpoints -> 0 <= ep_to_num e < 8.
Proof using Type.
  intros He. unfold phyEndpoints in He.
  repeat (apply elem_of_cons in He as [-> | He]; [vm_compute; by split|]). by apply elem_of_nil in He.
Qed.

Lemma get_pipe_ok s i : usb_ok s -> 0 <= i < 2 -> exists p, get_pipe i s = Done p /\ pipe_ok i p.
Proof using Type.
  intros K Hi. destruct (ok_pipes s K) as (p0 & p1 & Hp & H0 & H1). unfold get_pipe. rewrite Hp.
  assert (i = 0 \/ i = 1) as [-> | ->] by lia; [by exists p0|by exists p1].
Qed.

(** Change a pipe. *)
Lemma upd_pipe_runs i f s :
  usb_ok s -> 0 <= i < 2 -> (forall p, pipe_ok i p -> pipe_ok i (f p)) ->
  runs (upd_pipe i f s) (fun s' => usb_ok s' /\ ep0_st (dev s') = ep0_st (dev s) /\ um s' = um s /\
    get_pipe i s' = (p ← get_pipe i s; Done (f p)) /\ endpoints (dev s') = endpoints (dev s) /\
    dma_page_p (dev s') = dma_page_p (dev s) /\ ep0_buffer_len (dev s') = ep0_buffer_len (dev s) /\
    (forall j, 0 <= j < 2 -> j <> i -> get_pipe j s' = get_pipe j s)).
Proof using Type.
  intros K Hi Hf. destruct (ok_pipes s K) as (p0 & p1 & Hp & H0 & H1).
  assert (Hx : forall q0 q1, pipe_ok 0 q0 -> pipe_ok 1 q1 -> usb_ok (set_dev s (dev_pipes (dev s) [q0; q1]))).
  { intros q0 q1 ??. destruct K. split; try done. by exists q0, q1. }
  unfold upd_pipe, get_pipe. rewrite Hp.
  assert (i = 0 \/ i = 1) as [-> | ->] by lia; apply runs_Done; (split; [apply Hx; auto|]);
    do 6 (split; [done|]); intros j ??; (assert (j = 0 \/ j = 1) as [-> | ->] by lia); done.
Qed.

Lemma pipe_ok_ready i p b : pipe_ok i p -> pipe_ok i (pipe_ready p b).
Proof using Type. by intros (? & ? & ? & ? & ? & ?). Qed.

Lemma page_region s i n :
  usb_ok s -> 0 <= i < 8 -> 0 <= n -> i * DMA_BUFFER_SIZE + n <= DMA_PAGE_SIZE ->
  region (um s) (dma_page_p (dev s) + i * DMA_BUFFER_SIZE) n.
Proof using Type.
  intros K ???. eapply region_sub; [apply (ok_mem s K)|lia| |lia].
  change DMA_BUFFER_SIZE with 4096 in *. lia.
Qed.

(** Filling a transfer buffer inside the page. *)
Lemma fill_buffer s i bs :
  usb_ok s -> 0 <= i < 8 -> i * DMA_BUFFER_SIZE + zlen bs <= DMA_PAGE_SIZE ->
  runs (store_bytes (um s) (dma_page_p (dev s) + i * DMA_BUFFER_SIZE) bs)
    (fun m => evolves s (set_hw s (uw s) m) /\
              m = write_bytes (um s) (dma_page_p (dev s) + i * DMA_BUFFER_SIZE) (map u8 bs)).
Proof using Type.
  intros K Hi Hn. rewrite store_bytes_u8 by (apply page_region; [done..|apply zlen_nonneg|done]).
  apply runs_Done. split; [|done]. split; try done.
  eapply store_bytes_grows. rewrite store_bytes_u8; [done|]. apply page_region; [done..|apply zlen_nonneg|done].
Qed.

(** Arming the OUT side of the first pipe stays inside the DMA page. *)
Lemma start_bulk_out_runs s :
  usb_ok s -> runs (usb_dwc2_cdc_start_bulk_out_xfer USB_LEP_CDC_BULK_OUT s) (evolves s).
Proof.
  intros K. unfold usb_dwc2_cdc_start_bulk_out_xfer.
  eapply runs_bind; [by apply (get_ep_runs 3)|]. intros e He. case_if; [by apply runs_Done|].
  destruct (get_pipe_ok s 0 K) as (p & Hp & (b & Hr & Hb & Hl) & _); [lia|].
  unfold usb_dwc2_cdc_get_ringbuffer. cbn [bulk_pipe]. change (bulk_pipe USB_LEP_CDC_BULK_OUT) with (Some (0, true)).
  cbn beta iota. rewrite Hp, bind_Done, Hr, bind_Done. case_if; [by apply runs_Done|].
  rewrite He. eapply runs_bind; [apply (fill_buffer s 3 (replicate (Z.to_nat XFER_SIZE) 0xaa) K); [lia|]|].
  { rewrite zlen_replicate. unfold XFER_SIZE. vm_compute. discriminate. }
  intros m [E1 _]. eapply runs_bind; [apply hw_recv_runs; [by eapply evolves_ok|done]|]. intros s2 E2.
  eapply runs_mono; [apply upd_ep_runs; [|done|done]|].
  - eapply evolves_ok; [exact E2|]. by eapply evolves_ok.
  - intros s3 E3. etrans; [exact E1|]. etrans; [exact E2|exact E3].
Qed.

Lemma evolves_st s s' x : evolves s s' -> ep0_st (dev s) = x -> ep0_st (dev s') = x.
Proof using Type. intros E <-. apply (ev_st _ _ E). Qed.

(** Acknowledge at once. *)
Lemma ack_runs s :
  usb_ok s ->
  runs (s ← usb_dwc2_start_status_phase USB_LEP_CTRL_IN s; Done (set_state s USB_DWC2_EP0_STATE_DATA_SEND_STATUS_DONE))
    (answered R_status).
Proof.
  intros K. eapply runs_bind; [by apply status_phase_runs|]. intros s1 E1. apply runs_Done. split.
  - apply set_state_ok; [by eapply evolves_ok|by split].
  - by right.
Qed.

Lemma standard_endpoint_runs p s a r :
  usb_ok s -> packet_at s p -> a = dma_page_p (dev s) ->
  (if bRequest p =? USB_REQUEST_GET_STATUS then Some (R_data [0; 0])
   else if (bRequest p =? USB_REQUEST_CLEAR_FEATURE) && (wValue p =? USB_FEATURE_ENDPOINT_HALT) then
     (if bool_decide (u8 (wIndex p) ∈ phyEndpoints) then Some R_status else None)
   else Some R_stall) = Some r ->
  runs (usb_dwc2_ep0_handle_standard_endpoint a s) (answered r).
Proof.
  intros K P Ha. destruct (packet_fields s p a P Ha) as (_ & Hrq & Hv & _ & _ & Hi & _).
  unfold usb_dwc2_ep0_handle_standard_endpoint. rewrite Hrq, bind_Done.
  case_if; [intros [= <-]; by apply (status_answer s 0)|].
  destruct (bRequest p =? USB_REQUEST_CLEAR_FEATURE); cbn [andb]; [|intros [= <-]; by apply stall_runs].
  rewrite Hv, bind_Done. case_if; [|intros [= <-]; by apply stall_runs].
  rewrite Hi, bind_Done. case_bool_decide as Hin; [|done]. intros [= <-].
  eapply runs_bind; [apply set_stall_runs; by apply ep_to_num_range|]. intros s1 E1.
  apply ack_runs. by eapply evolves_ok.
Qed.

Lemma class_runs p s a r :
  usb_ok s -> packet_at s p -> a = dma_page_p (dev s) -> class_reply p = Some r ->
  runs (usb_dwc2_ep0_handle_class a s) (answered r).
Proof.
  intros K P Ha. destruct (packet_fields s p a P Ha) as (_ & Hrq & Hv & _ & _ & Hi & Hl).
  assert (0 <= wIndex p /\ 0 <= wLength p) as [Hi0 Hl0] by (destruct P as [(_ & _ & _ & ? & ?) _]; lia).
  unfold usb_dwc2_ep0_handle_class, class_reply. rewrite Hi, bind_Done. change CDC_ACM_PIPE_MAX with 2.
  replace (2 <=? wIndex p / 2) with (4 <=? wIndex p) by (destruct (Z.leb_spec 4 (wIndex p)); symmetry; [apply Z.leb_le|apply Z.leb_gt]; lia).
  case_if; [intros [= <-]; by apply stall_runs|]. b2p. rewrite Hrq, bind_Done.
  assert (0 <= wIndex p / 2 < 2) as Hp by lia. destruct (get_pipe_ok s _ K Hp) as (q & Hq & Hok).
  case_if; [intros [= <-]|].
  { rewrite Hl, bind_Done. apply runs_Done. split.
    - apply set_state_ok; [|by split]. apply set_buffer_ok; [done|]. split; cbn; lia.
    - split; [done|]. exists cdc_default_line_coding. split.
      + unfold ep0_object. cbn. change (get_pipe (wIndex p / 2) (set_state _ _)) with (get_pipe (wIndex p / 2) s).
        rewrite Hq. cbn. by destruct Hok as (_ & _ & -> & _).
      + cbn. destruct (Z.min_spec (wLength p) 7) as [[? ->] | [? ->]]; [done|].
        rewrite !take_ge; [done|cbn; lia|cbn; lia]. }
  case_if; [|intros [= <-]; by apply stall_runs].
  rewrite Hv, bind_Done. unfold has. destruct (negb (Z.land (wValue p) 1 =? 0)); cbn [andb].
  2:{ intros [= <-]. eapply runs_bind; [apply upd_pipe_runs; [done|done|intros; by apply pipe_ok_ready]|].
      intros s1 (K1 & _). by apply ack_runs. }
  case_if; [done|]. intros [= <-]. b2p.
  assert (wIndex p / 2 = 0) as -> by lia. rewrite bind_assoc.
  eapply runs_bind; [apply upd_pipe_runs; [done|lia|intros; by apply pipe_ok_ready]|]. intros s1 (K1 & _).
  rewrite bind_assoc. eapply runs_bind; [apply upd_pipe_runs; [done|lia|intros; by apply pipe_ok_ready]|]. intros s2 (K2 & _).
  change (0 =? 1) with false. change (0 =? 0) with true. cbn beta iota.
  eapply runs_bind; [by apply start_bulk_out_runs|]. intros s3 E3. apply ack_runs. by eapply evolves_ok.
Qed.

Lemma activate_pipes_runs n i s :
  usb_ok s -> 0 <= i -> i + Z.of_nat n <= 2 -> runs (activate_pipes n i s) (evolves s).
Proof.
  revert i s. induction n as [|n IH]; intros i s K Hi Hn; cbn [activate_pipes]; [by apply runs_Done|].
  destruct (get_pipe_ok s i K) as (p & -> & _ & _ & _ & E1 & E2 & E3); [lia|].
  rewrite bind_Done, E1, E2, E3.
  eapply runs_bind; [apply activate_runs; [done|lia|right; right; done]|]. intros [r1 s1] [_ V1]. cbn [snd] in V1.
  eapply runs_bind; [apply activate_runs; [by eapply evolves_ok|lia|right; left; done]|]. intros [r2 s2] [_ V2]. cbn [snd] in V2.
  assert (evolves s s2) as V by (etrans; [exact V1|exact V2]).
  eapply runs_bind; [apply activate_runs; [by eapply evolves_ok|lia|right; left; done]|]. intros [r3 s3] [_ V3]. cbn [snd] in V3.
  assert (evolves s s3) as V' by (etrans; [exact V|exact V3]).
  eapply runs_mono; [apply IH; [by eapply evolves_ok|lia|lia]|]. intros s4 V4. by etrans.
Qed.

Lemma clear_ready_ok s :
  usb_ok s -> usb_ok (set_dev s (dev_pipes (dev s) (map (fun p => pipe_ready p false) (pipes (dev s))))).
Proof using Type.
  intros K. destruct (ok_pipes s K) as (p0 & p1 & Hp & H0 & H1). destruct K. split; try done.
  cbn. rewrite Hp. exists (pipe_ready p0 false), (pipe_ready p1 false). split; [done|].
  split; by apply pipe_ok_ready.
Qed.

Lemma status_later s : usb_ok s -> answered R_status (set_state s USB_DWC2_EP0_STATE_DATA_SEND_STATUS).
Proof using Type. intros K. split; [apply set_state_ok; [done|by split]|by left]. Qed.

Lemma standard_runs env serial p s a r :
  usb_ok s -> packet_at s p -> a = dma_page_p (dev s) -> serial_known env s serial ->
  standard_reply env serial p = Some r ->
  runs (usb_dwc2_ep0_handle_standard env a s) (answered r).
Proof.
  intros K P Ha Hs. destruct (packet_fields s p a P Ha) as (Ht & Hrq & Hv & _).
  unfold usb_dwc2_ep0_handle_standard, standard_reply. rewrite Ht, bind_Done.
  case_if.
  { intros [= <-]. unfold usb_dwc2_ep0_handle_standard_device. rewrite Hrq, bind_Done.
    case_if.
    { rewrite Hv, bind_Done. apply runs_Done. apply status_later. eapply evolves_ok; [apply ev_set_address|done]. }
    case_if.
    { rewrite Hv, bind_Done. destruct (wValue p =? 0); cbn [orb].
      - apply runs_Done. split; [|by left]. apply clear_ready_ok. apply set_state_ok; [done|by split].
      - case_if; [|by apply stall_runs].
        eapply runs_bind; [apply activate_pipes_runs; [done|lia|done]|]. intros s1 E1. apply runs_Done.
        apply status_later. by eapply evolves_ok. }
    case_if; [by eapply get_descriptor_runs|].
    case_if; [by apply (status_answer s 1)|by apply stall_runs]. }
  case_if.
  { intros [= <-]. unfold usb_dwc2_ep0_handle_standard_interface. rewrite Hrq, bind_Done.
    case_if; [by apply (status_answer s 0)|by apply stall_runs]. }
  case_if; [intros Hr; by eapply standard_endpoint_runs|intros [= <-]; by apply stall_runs].
Qed.

Lemma handle_setup_runs env serial p s r :
  usb_ok s -> packet_at s p -> serial_known env s serial -> reply_to env serial p = Some r ->
  runs (usb_dwc2_ep0_handle_setup env s) (answered r).
Proof.
  intros K P Hs. unfold usb_dwc2_ep0_handle_setup, reply_to.
  destruct (get_ep_runs USB_LEP_CTRL_OUT s K) as (e & -> & He); [done|]. rewrite bind_Done.
  assert (xfer_buffer e = dma_page_p (dev s)) as -> by (rewrite He; unfold USB_LEP_CTRL_OUT; lia).
  destruct (packet_fields s p (dma_page_p (dev s)) P eq_refl) as (Ht & _). rewrite Ht, bind_Done.
  case_if; [intros; by eapply standard_runs|].
  case_if; [intros; by eapply class_runs|]. intros [= <-]. by apply stall_runs.
Qed.

(** ** The invariant through the interrupts *)

(** Memory always holds some packet. *)
Lemma packet_exists s : usb_ok s -> exists p, packet_at s p.
Proof using Type.
  intros K. destruct (region_sub _ _ _ (dma_page_p (dev s)) 8 (ok_mem s K)) as (old & Hn & Hb); [lia|lia|change DMA_PAGE_SIZE with 32768; lia|].
  assert (are_bytes old) as Hy.
  { apply Forall_lookup. intros i x Hx. destruct (bytes_at_lookup _ _ _ _ _ Hb Hx). by eapply (ok_bytes s). }
  destruct old as [|b0 [|b1 [|b2 [|b3 [|b4 [|b5 [|b6 [|b7 [|? ?]]]]]]]]]; try (vm_compute in Hn; discriminate).
  - rewrite !Forall_cons in Hy. destruct Hy as (? & ? & H2 & H3 & H4 & H5 & H6 & H7 & _).
    exists (Setup b0 b1 (b2 + 256 * b3) (b4 + 256 * b5) (b6 + 256 * b7)). unfold is_byte in *. split.
    + unfold packet_ok, is_byte. cbn. lia.
    + assert (E : forall x y, 0 <= x < 256 -> 0 <= y < 256 -> le_bytes 2 (x + 256 * y) = [x; y])
        by (intros; cbn [le_bytes]; unfold wrap; change (2 ^ 8) with 256; repeat f_equal; lia).
      unfold packet_bytes. cbn [bmRequestType bRequest wValue wIndex wLength]. by rewrite !E.
  - rewrite !zlen_cons in Hn. pose proof (zlen_nonneg l). lia.
Qed.

(** What every handler keeps: the invariant, and with it the resting state of
    endpoint 0 for those that do not move it. *)
Definition keeps s s' : Prop := usb_ok s' /\ ep0_st (dev s') = ep0_st (dev s).

Lemma keeps_evolves s s' : usb_ok s -> evolves s s' -> keeps s s'.
Proof using Type. intros K E. split; [by eapply evolves_ok|apply (ev_st _ _ E)]. Qed.

Lemma keeps_trans s1 s2 s3 : keeps s1 s2 -> keeps s2 s3 -> keeps s1 s3.
Proof using Type. intros [? E] [? ?]. split; [done|congruence]. Qed.

Lemma set_hw_keeps s m : usb_ok s -> mem_grows (um s) m -> keeps s (set_hw s (uw s) m).
Proof using Type. intros K Hm. apply keeps_evolves; [done|]. by split. Qed.

Lemma get_ep_range i s e : usb_ok s -> get_ep i s = Done e -> 0 <= i < 8.
Proof using Type.
  intros K He. apply znth_Done in He as [? He]. apply lookup_lt_Some in He.
  destruct (ep_lookup s 0 K) as (_ & _ & _ & Hl); [lia|]. unfold zlen in Hl. lia.
Qed.

Lemma upd_ep_safe i f s : usb_ok s -> (forall e, xfer_buffer (f e) = xfer_buffer e) -> safe (upd_ep i f s) (keeps s).
Proof using Type.
  intros K Hf s' Hs. pose proof Hs as Hs2. unfold upd_ep in Hs. inv_bind Hs. apply get_ep_range in Hrun; [|done].
  destruct (upd_ep_runs i f s K Hrun Hf) as (s2 & E & Hev). rewrite E in Hs2. injection Hs2 as <-. by apply keeps_evolves.
Qed.

(** Rings. *)
Lemma ring_read_runs n b : ring_ok (Some b) -> runs (ringbuffer_read n b) (fun p => ring_ok (Some (snd p))).
Proof using Type.
  intros (b' & [= <-] & Hw & Hl). destruct (read_spec n b Hw) as (b2 & E & _ & Hw2 & Hl2).
  exists (take n (contents b), b2). split; [done|]. exists b2. split; [done|]. split; [done|]. cbn. congruence.
Qed.

Lemma ring_write_runs bs b : ring_ok (Some b) -> runs (ringbuffer_write bs b) (fun p => ring_ok (Some (snd p))).
Proof using Type.
  intros (b' & [= <-] & Hw & Hl). destruct (write_spec bs b Hw) as (b2 & E & _ & Hw2 & Hl2).
  eexists. split; [exact E|]. exists b2. split; [done|]. split; [done|]. cbn. congruence.
Qed.

(** The four bulk endpoints. *)
Definition bulk_ep (ep i : Z) (out : bool) : Prop := bulk_pipe ep = Some (i, out) /\ 0 <= i < 2 /\ 0 <= ep < 8.

Lemma get_ring_runs s ep i out :
  usb_ok s -> bulk_ep ep i out -> runs (usb_dwc2_cdc_get_ringbuffer ep s) ring_ok.
Proof using Type.
  intros K (Hb & Hi & _). unfold usb_dwc2_cdc_get_ringbuffer. rewrite Hb.
  destruct (get_pipe_ok s i K Hi) as (p & -> & Hh & Hd & _). apply runs_Done. by destruct out.
Qed.

Lemma put_ring_runs s ep i out r :
  usb_ok s -> bulk_ep ep i out -> ring_ok (Some r) -> runs (put_ringbuffer ep r s) (keeps s).
Proof using Type.
  intros K (Hb & Hi & _) Hr. unfold put_ringbuffer. rewrite Hb.
  eapply runs_mono; [apply (upd_pipe_runs i); [done|done|]|].
  - intros p (? & ? & ? & ? & ? & ?). by destruct out.
  - intros s' (? & ? & _). by split.
Qed.

Lemma start_bulk_out_safe s ep i :
  usb_ok s -> bulk_ep ep i true -> safe (usb_dwc2_cdc_start_bulk_out_xfer ep s) (keeps s).
Proof.
  intros K B. unfold usb_dwc2_cdc_start_bulk_out_xfer.
  eapply safe_bind; [apply runs_safe, get_ep_runs; [done|apply B]|]. intros e He. case_if; [by apply safe_Done|].
  eapply safe_bind; [apply runs_safe; by eapply get_ring_runs|]. intros r (b & -> & _). case_if; [by apply safe_Done|].
  eapply safe_bind; [intros m Hm; exact (store_bytes_grows _ _ _ _ Hm)|]. intros m Hm.
  pose proof (set_hw_keeps s m K Hm) as K1.
  eapply safe_bind; [apply runs_safe, hw_recv_runs; [apply K1|apply B]|]. intros s2 E2.
  pose proof (keeps_evolves _ _ (proj1 K1) E2) as K2.
  eapply safe_mono; [apply upd_ep_safe; [apply K2|done]|]. intros s3 K3.
  eapply keeps_trans; [exact K1|]. by eapply keeps_trans.
Qed.

Lemma start_bulk_in_safe s ep i :
  usb_ok s -> bulk_ep ep i false -> safe (usb_dwc2_cdc_start_bulk_in_xfer ep s) (keeps s).
Proof.
  intros K B. unfold usb_dwc2_cdc_start_bulk_in_xfer.
  eapply safe_bind; [apply runs_safe, get_ep_runs; [done|apply B]|]. intros e He. case_if; [by apply safe_Done|].
  eapply safe_bind; [apply runs_safe; by eapply get_ring_runs|]. intros r Hr. pose proof Hr as (b & -> & _).
  eapply safe_bind; [by apply runs_safe, ring_read_runs|]. intros [bs b2] Hb2. cbn [snd] in Hb2.
  eapply safe_bind; [intros m Hm; exact (store_bytes_grows _ _ _ _ Hm)|]. intros m Hm.
  pose proof (set_hw_keeps s m K Hm) as K1.
  eapply safe_bind; [apply runs_safe; eapply put_ring_runs; [apply K1|exact B|done]|]. intros s2 K2'.
  pose proof (keeps_trans _ _ _ K1 K2') as K2. case_if; [by apply safe_Done|].
  eapply (safe_bind _ _ (fun p => keeps s (snd p))).
  { case_if; [|by apply safe_Done]. eapply safe_bind; [apply upd_ep_safe; [apply K2|done]|]. intros s3 K3.
    apply safe_Done. cbn [snd]. by eapply keeps_trans. }
  intros [k s3] K3. cbn [snd] in K3.
  eapply safe_bind; [apply runs_safe, hw_send_runs; [apply K3|apply B]|]. intros s4 E4.
  pose proof (keeps_evolves _ _ (proj1 K3) E4) as K4.
  eapply safe_mono; [apply upd_ep_safe; [apply K4|done]|]. intros s5 K5.
  eapply keeps_trans; [exact K3|]. by eapply keeps_trans.
Qed.

Lemma bulk_out_done_safe s ep i :
  usb_ok s -> bulk_ep ep i true -> safe (usb_dwc2_cdc_handle_bulk_out_xfer_done ep s) (keeps s).
Proof.
  intros K B. unfold usb_dwc2_cdc_handle_bulk_out_xfer_done.
  eapply safe_bind; [apply runs_safe; by eapply get_ring_runs|]. intros r Hr. pose proof Hr as (b & -> & _).
  eapply (safe_bind _ _ (fun _ => True)); [done|]. intros ipep _.
  read_step. pose proof (keeps_evolves _ _ K E) as K1.
  eapply (safe_bind _ _ (fun _ => True)); [done|]. intros e _.
  eapply (safe_bind _ _ (fun _ => True)); [done|]. intros bs _.
  eapply safe_bind; [by apply runs_safe, ring_write_runs|]. intros [n b2] Hb2. cbn [snd] in Hb2.
  eapply safe_bind; [apply runs_safe; eapply put_ring_runs; [apply K1|exact B|done]|]. intros s2 K2.
  eapply safe_mono; [apply upd_ep_safe; [apply K2|done]|]. intros s3 K3.
  eapply keeps_trans; [exact K1|]. by eapply keeps_trans.
Qed.

(** The device tree can be read. *)
Definition env_ok (env : usb_env) : Prop := exists x, find_serial env = Done x.

Lemma env_serial env s : env_ok env -> exists x, serial_known env s x.
Proof using Type.
  intros [x Hx]. destruct (str_serial s) as [y|] eqn:Hs; [exists y; by left|]. exists x. by right.
Qed.

Lemma ep_index_miss l e i : e ∉ l -> ep_index l e i = 0xff.
Proof using Type.
  revert i. induction l as [|p l IH]; intros i He; [done|]. apply not_elem_of_cons in He as [? ?].
  cbn [ep_index]. bdec. by apply IH.
Qed.

(** The two requests outside the contract of [handle_setup_runs]. *)
Lemma bad_clear_feature_fault env s p :
  usb_ok s -> packet_at s p ->
  Z.land (bmRequestType p) USB_REQUEST_TYPE_MASK = USB_REQUEST_TYPE_STANDARD ->
  Z.land (bmRequestType p) USB_REQUEST_TYPE_RECIPIENT_MASK = USB_REQUEST_TYPE_RECIPIENT_ENDPOINT ->
  bRequest p = USB_REQUEST_CLEAR_FEATURE -> wValue p = USB_FEATURE_ENDPOINT_HALT ->
  u8 (wIndex p) ∉ phyEndpoints ->
  usb_dwc2_ep0_handle_setup env s = Fault.
Proof using Type.
  intros K P Ht Hr Hq Hv Hi. unfold usb_dwc2_ep0_handle_setup.
  destruct (get_ep_runs USB_LEP_CTRL_OUT s K) as (e & -> & He); [done|]. rewrite bind_Done.
  assert (xfer_buffer e = dma_page_p (dev s)) as -> by (rewrite He; unfold USB_LEP_CTRL_OUT; lia).
  destruct (packet_fields s p (dma_page_p (dev s)) P eq_refl) as (F0 & F1 & F2 & _ & _ & F4 & _).
  rewrite F0, bind_Done, Ht, Z.eqb_refl. unfold usb_dwc2_ep0_handle_standard. rewrite F0, bind_Done, Hr.
  change (USB_REQUEST_TYPE_RECIPIENT_ENDPOINT =? USB_REQUEST_TYPE_RECIPIENT_DEVICE) with false.
  change (USB_REQUEST_TYPE_RECIPIENT_ENDPOINT =? USB_REQUEST_TYPE_RECIPIENT_INTERFACE) with false.
  rewrite Z.eqb_refl. cbn beta iota. unfold usb_dwc2_ep0_handle_standard_endpoint. rewrite F1, bind_Done, Hq.
  change (USB_REQUEST_CLEAR_FEATURE =? USB_REQUEST_GET_STATUS) with false.
  rewrite Z.eqb_refl. cbn beta iota. rewrite F2, bind_Done, Hv, Z.eqb_refl. cbn beta iota.
  rewrite F4, bind_Done. unfold ep_to_num. by rewrite ep_index_miss.
Qed.

(** A data stage is only announced with data. *)
Definition armed s : Prop :=
  usb_ok s /\ (ep0_st (dev s) = USB_DWC2_EP0_STATE_DATA_SEND -> ep0_buffer (dev s) <> Src_null).

Lemma answered_armed r s : answered r s -> armed s.
Proof using Type.
  intros [K A]. split; [done|]. intros St. destruct r; cbn in A; [congruence|destruct A; congruence|].
  destruct A as (_ & x & Ho & _). intros Hn. unfold ep0_object in Ho. by rewrite Hn in Ho.
Qed.

Lemma handle_setup_safe env s : usb_ok s -> env_ok env -> safe (usb_dwc2_ep0_handle_setup env s) armed.
Proof.
  intros K He. destruct (packet_exists s K) as [p P]. destruct (env_serial env s He) as [x Hx].
  destruct (reply_to env x p) as [r|] eqn:Hr.
  { eapply safe_mono; [eapply runs_safe, handle_setup_runs; [done|exact P|exact Hx|exact Hr]|]. apply answered_armed. }
  destruct (get_ep_runs USB_LEP_CTRL_OUT s K) as (e & Ge & Hb); [done|].
  assert (xfer_buffer e = dma_page_p (dev s)) as Hb' by (rewrite Hb; unfold USB_LEP_CTRL_OUT; lia).
  destruct (packet_fields s p (dma_page_p (dev s)) P eq_refl) as (F0 & F1 & F2 & _ & _ & F4 & _).
  unfold reply_to in Hr. destruct (Z.land (bmRequestType p) USB_REQUEST_TYPE_MASK =? USB_REQUEST_TYPE_STANDARD) eqn:T; b2p.
  - unfold standard_reply in Hr.
    destruct (Z.land (bmRequestType p) USB_REQUEST_TYPE_RECIPIENT_MASK =? USB_REQUEST_TYPE_RECIPIENT_DEVICE); [done|].
    destruct (Z.land (bmRequestType p) USB_REQUEST_TYPE_RECIPIENT_MASK =? USB_REQUEST_TYPE_RECIPIENT_INTERFACE); [done|].
    destruct (Z.land (bmRequestType p) USB_REQUEST_TYPE_RECIPIENT_MASK =? USB_REQUEST_TYPE_RECIPIENT_ENDPOINT) eqn:R; [|done]. b2p.
    destruct (bRequest p =? USB_REQUEST_GET_STATUS); [done|].
    destruct (bRequest p =? USB_REQUEST_CLEAR_FEATURE) eqn:Q; [|done].
    destruct (wValue p =? USB_FEATURE_ENDPOINT_HALT) eqn:V; [|done]. cbn [andb] in Hr. b2p.
    revert Hr. case_bool_decide as Hin; [done|]. intros _.
    rewrite (bad_clear_feature_fault env s p); [by intros ?|done..].
  - destruct (Z.land (bmRequestType p) USB_REQUEST_TYPE_MASK =? USB_REQUEST_TYPE_CLASS) eqn:T2; [|done].
    unfold usb_dwc2_ep0_handle_setup. rewrite Ge, bind_Done, Hb', F0, bind_Done, T2.
    apply Z.eqb_neq in T. rewrite T. unfold class_reply in Hr. unfold usb_dwc2_ep0_handle_class.
    rewrite F4, bind_Done. revert Hr. destruct (Z.leb_spec 4 (wIndex p)); [done|].
    destruct (bRequest p =? USB_REQUEST_CDC_GET_LINE_CODING) eqn:Q1; [done|].
    destruct (bRequest p =? USB_REQUEST_CDC_SET_CTRL_LINE_STATE) eqn:Q2; [|done].
    destruct (Z.leb_spec 2 (wIndex p)); [|rewrite andb_false_r; done]. intros _.
    assert (wIndex p / 2 = 1) as -> by lia. change (CDC_ACM_PIPE_MAX <=? 1) with false. cbn beta iota.
    rewrite F1, bind_Done, Q1, Q2, F2, bind_Done.
    eapply (safe_bind _ _ usb_ok); [|intros s1 K1; apply runs_safe; eapply runs_mono; [by apply ack_runs|apply answered_armed]].
    case_if.
    + eapply safe_bind; [apply runs_safe, upd_pipe_runs; [done|lia|intros; by apply pipe_ok_ready]|]. intros s1 (K1 & _).
      eapply safe_bind; [apply runs_safe, upd_pipe_runs; [done|lia|intros; by apply pipe_ok_ready]|]. intros s2 (K2 & _).
      change (1 =? 1) with true. cbn beta iota.
      eapply safe_mono; [apply (start_bulk_out_safe _ _ 1); [done|by repeat split]|]. by intros ? [? _].
    + eapply safe_mono; [apply runs_safe, upd_pipe_runs; [done|lia|intros; by apply pipe_ok_ready]|]. by intros ? (? & _).
Qed.

(** The states endpoint 0 rests in between interrupts. *)
Definition resting (st : ep0_state) : bool :=
  match st with
  | USB_DWC2_EP0_STATE_IDLE | USB_DWC2_EP0_STATE_SETUP_PENDING | USB_DWC2_EP0_STATE_SETUP_HANDLE
  | USB_DWC2_EP0_STATE_DATA_SEND_DONE | USB_DWC2_EP0_STATE_DATA_RECV_STATUS_DONE
  | USB_DWC2_EP0_STATE_DATA_SEND_STATUS_DONE => true
  | _ => false
  end.
Definition rests s : Prop := usb_ok s /\ resting (ep0_st (dev s)) = true.

Lemma object_runs s :
  usb_ok s -> ep0_buffer (dev s) <> Src_null ->
  runs (ep0_object s) (fun x => are_bytes x /\ ep0_buffer_len (dev s) <= zlen x).
Proof using Type.
  intros K Hn. destruct (ok_source s K) as [Hl Hs]. unfold ep0_object.
  destruct (ep0_buffer (dev s)) as [|x|i]; [done|by apply runs_Done|]. destruct Hs as [Hi Hs].
  destruct (get_pipe_ok s i K Hi) as (p & -> & _ & _ & Hc & _). rewrite bind_Done, Hc.
  apply runs_Done. split; [by apply are_bytes_check|done].
Qed.

(** The data stage: the buffer holds the data when the endpoint is armed. *)
Lemma data_send_runs s x :
  usb_ok s -> ep0_object s = Done x -> are_bytes x -> ep0_buffer_len (dev s) <= zlen x ->
  let len := ep0_buffer_len (dev s) in
  let bs := take (Z.to_nat len) x in
  exists s1, evolves s s1 /\ (bytes_at (um s1) (dma_page_p (dev s) + DMA_BUFFER_SIZE) bs /\ s1 = set_hw s (uw s) (um s1)) /\
    usb_dwc2_ep0_start_data_send_phase s = usb_dwc2_ep_hw_send USB_LEP_CTRL_IN len (len / 64 + 1) s1.
Proof.
  intros K Ho Hx Hl len bs. destruct (ok_source s K) as [Hr _]. fold len in Hr, Hl.
  assert (zlen bs = len) as Hbs.
  { unfold bs, zlen in *. rewrite length_take. lia. }
  unfold usb_dwc2_ep0_start_data_send_phase.
  destruct (get_ep_runs USB_LEP_CTRL_IN s K) as (e & -> & He); [done|]. rewrite bind_Done.
  replace (USB_LEP_CTRL_IN * DMA_BUFFER_SIZE) with (1 * DMA_BUFFER_SIZE) in He by reflexivity. rewrite He.
  destruct (fill_buffer s 1 (replicate 64 0) K) as (m1 & -> & E1 & _); [lia|vm_compute; discriminate|].
  rewrite bind_Done, Ho, bind_Done.
  fold len. replace (zlen x <? len) with false by (symmetry; apply Z.ltb_ge; exact Hl).
  pose proof (evolves_ok _ _ E1 K) as K1.
  destruct (fill_buffer (set_hw s (uw s) m1) 1 bs K1) as (m2 & E2 & V2 & Hm2); [lia|rewrite Hbs; change DMA_PAGE_SIZE with 32768; change DMA_BUFFER_SIZE with 4096; lia|].
  change (um (set_hw s (uw s) m1)) with m1 in E2, Hm2. change (dma_page_p (dev (set_hw s (uw s) m1))) with (dma_page_p (dev s)) in E2, Hm2.
  fold len bs. rewrite E2, bind_Done. exists (set_hw s (uw s) m2).
  assert (map u8 bs = bs) as Hid.
  { assert (are_bytes bs) as Hb by (by apply Forall_take). clear -Hb. induction Hb as [|b l Hb _ IH]; [done|]. cbn. rewrite IH, u8_small; done. }
  split; [etrans; [exact E1|exact V2]|]. split.
  - split; [|done]. cbn. rewrite Hm2, Hid. change (1 * DMA_BUFFER_SIZE) with DMA_BUFFER_SIZE.
    destruct (ok_page s K) as [? Hp]. apply bytes_at_write_eq; rewrite ?Hbs;
      change DMA_PAGE_SIZE with 32768 in *; change DMA_BUFFER_SIZE with 4096; lia.
  - cbn beta iota zeta. f_equal. rewrite u32_small by lia. case_if; b2p; lia.
Qed.

Lemma xfer_not_ready_safe s : armed s -> safe (usb_dwc2_ep0_handle_xfer_not_ready s) rests.
Proof.
  intros [K Hb]. unfold usb_dwc2_ep0_handle_xfer_not_ready.
  assert (Stall : safe (ep0_stall s) rests).
  { apply runs_safe. eapply runs_mono; [by apply stall_runs|]. intros s1 [K1 A1]. split; [done|]. cbn in A1. by rewrite A1. }
  assert (Phase : forall x st, runs x (evolves s) -> resting st = true -> safe (s ← x; Done (set_state s st)) rests).
  { intros x st Hx Hst. eapply safe_bind; [by apply runs_safe|]. intros s1 E1. apply safe_Done. split; [|done].
    apply set_state_ok; [by eapply evolves_ok|]. by destruct st. }
  destruct (ep0_st (dev s)) eqn:St; try done.
  - apply Phase; [by apply setup_phase_runs|done].
  - apply safe_Done. split; [done|]. by rewrite St.
  - apply Phase; [|done]. destruct (object_runs s K (Hb eq_refl)) as (x & Ho & Hx & Hl).
    destruct (data_send_runs s x K Ho Hx Hl) as (s1 & E1 & _ & ->).
    eapply runs_mono; [apply hw_send_runs; [by eapply evolves_ok|done]|]. intros s2 E2. by etrans.
  - by destruct (ok_state s K).
  - apply Phase; [by apply status_phase_runs|done].
  - apply safe_Done. split; [done|]. by rewrite St.
  - apply Phase; [by apply status_phase_runs|done].
  - apply safe_Done. split; [done|]. by rewrite St.
Qed.

Lemma state_not_send s x : usb_ok s -> state_ok x -> x <> USB_DWC2_EP0_STATE_DATA_SEND -> armed (set_state s x).
Proof using Type. intros K ??. split; [by apply set_state_ok|done]. Qed.

Lemma xfer_done_safe env s :
  rests s -> env_ok env ->
  safe (usb_dwc2_ep0_handle_xfer_done env s) (fun s' => armed s' /\
    (ep0_st (dev s) = USB_DWC2_EP0_STATE_DATA_RECV_STATUS_DONE -> rests s')).
Proof.
  intros [K R] He. unfold usb_dwc2_ep0_handle_xfer_done.
  assert (Stall : ep0_st (dev s) <> USB_DWC2_EP0_STATE_DATA_RECV_STATUS_DONE ->
    safe (ep0_stall s) (fun s' => armed s' /\ (ep0_st (dev s) = USB_DWC2_EP0_STATE_DATA_RECV_STATUS_DONE -> rests s'))).
  { intros Hn. apply runs_safe. eapply runs_mono; [by apply stall_runs|]. intros s1 A. split; [by eapply answered_armed|done]. }
  assert (Again : forall st, ep0_st (dev s) = st ->
    safe (s ← usb_dwc2_start_setup_phase s; Done (set_state s USB_DWC2_EP0_STATE_SETUP_HANDLE))
      (fun s' => armed s' /\ (st = USB_DWC2_EP0_STATE_DATA_RECV_STATUS_DONE -> rests s'))).
  { intros st _. eapply safe_bind; [by apply runs_safe, setup_phase_runs|]. intros s1 E1. apply safe_Done.
    assert (usb_ok s1) as K1 by (by eapply evolves_ok). split; [by apply state_not_send|].
    intros _. split; [|done]. by apply set_state_ok. }
  destruct (ep0_st (dev s)) eqn:St; try done; try (by apply Stall); try (by apply Again).
  - eapply safe_mono; [by apply handle_setup_safe|]. intros s1 A. by split.
  - apply safe_Done. split; [|done]. by apply state_not_send.
Qed.

Lemma rests_evolves s s' : rests s -> evolves s s' -> rests s'.
Proof using Type. intros [K R] E. split; [by eapply evolves_ok|by rewrite (ev_st _ _ E)]. Qed.

Lemma rests_keeps s s' : rests s -> keeps s s' -> rests s'.
Proof using Type. intros [K R] [K' E]. split; [done|by rewrite E]. Qed.

(** One step of endpoint 0: what completed, then what comes next. *)
Lemma ep0_turn_safe env s :
  rests s -> env_ok env ->
  safe (s ← usb_dwc2_ep0_handle_xfer_done env s; usb_dwc2_ep0_handle_xfer_not_ready s) rests.
Proof.
  intros R He. eapply safe_bind; [by apply xfer_done_safe|]. intros s1 [A _]. by apply xfer_not_ready_safe.
Qed.

Lemma ep0_in_safe env s : rests s -> env_ok env -> safe (ep0_in_interrupt env s) rests.
Proof.
  intros R He. unfold ep0_in_interrupt. read_step. pose proof (rests_evolves _ _ R E) as R1.
  case_if; [by apply ep0_turn_safe|by apply safe_Done].
Qed.

Lemma rests_set_state s x : rests s -> resting x = true -> rests (set_state s x).
Proof using Type. intros [K R] Hx. split; [|done]. apply set_state_ok; [done|]. by destruct x. Qed.

Lemma ep0_out_safe env s : rests s -> env_ok env -> safe (ep0_out_interrupt env s) rests.
Proof.
  intros R He. unfold ep0_out_interrupt. read_step. pose proof (rests_evolves _ _ R E) as R1.
  set (s2 := if _ && _ then _ else _).
  assert (rests s2) as R2 by (unfold s2; case_if; [by apply rests_set_state|done]).
  case_if.
  { eapply (safe_bind _ _ (fun _ => True)); [done|]. intros _ _. apply ep0_turn_safe; [|done]. by apply rests_set_state. }
  case_if; [|by apply safe_Done].
  assert (Other : safe (if negb (has v DWC2_DOEPINT_STUP_PKT_RCVD)
      then usb_dwc2_ep0_handle_xfer_not_ready (set_state s2 USB_DWC2_EP0_STATE_DATA_SEND_STATUS) else Done s2) rests).
  { case_if; [|by apply safe_Done]. apply xfer_not_ready_safe, state_not_send; [apply R2|by split|done]. }
  destruct (ep0_st (dev s2)) eqn:St; try done.
  - by apply ep0_turn_safe.
  - eapply safe_mono; [by apply xfer_done_safe|]. intros s3 [_ Hr]. by apply Hr.
Qed.

Lemma bulk_out_safe s pep ep i : rests s -> bulk_ep ep i true -> safe (bulk_out_interrupt pep ep s) rests.
Proof.
  intros R B. unfold bulk_out_interrupt. read_step. pose proof (rests_evolves _ _ R E) as R1.
  case_if; [|by apply safe_Done].
  pose proof (rests_evolves _ _ R1 (ev_udelay 2 s0)) as R2.
  eapply safe_bind; [by eapply bulk_out_done_safe; [apply R2|]|]. intros s2 K2. pose proof (rests_keeps _ _ R2 K2) as R3.
  eapply safe_mono; [eapply start_bulk_out_safe; [apply R3|done]|]. intros s3 K3. by eapply rests_keeps.
Qed.

Lemma bulk_in_safe s pep ep i : rests s -> bulk_ep ep i false -> safe (bulk_in_interrupt pep ep s) rests.
Proof.
  intros R B. unfold bulk_in_interrupt. read_step. pose proof (rests_evolves _ _ R E) as R1.
  eapply safe_bind; [apply upd_ep_safe; [apply R1|done]|]. intros s2 K2. pose proof (rests_keeps _ _ R1 K2) as R2.
  eapply (safe_bind _ _ (fun _ => True)); [done|]. intros r _.
  eapply (safe_bind _ _ (fun _ => True)); [done|]. intros b _. case_if; [|by apply safe_Done].
  eapply safe_mono; [eapply start_bulk_in_safe; [apply R2|done]|]. intros s3 K3. by eapply rests_keeps.
Qed.

Lemma when_safe b f s : rests s -> (rests s -> safe (f s) rests) -> safe (when b f s) rests.
Proof using Type. intros R Hf. unfold when. case_if; [by apply Hf|by apply safe_Done]. Qed.

Lemma interrupts_ep_safe env s : rests s -> env_ok env -> safe (usb_dwc2_handle_interrupts_ep env s) rests.
Proof.
  intros R He. unfold usb_dwc2_handle_interrupts_ep. read_step. pose proof (rests_evolves _ _ R E) as R1.
  eapply safe_bind; [apply when_safe; [done|]; intros; by apply ep0_in_safe|]. intros s1 ?.
  eapply safe_bind; [apply when_safe; [done|]; intros; by apply ep0_out_safe|]. intros s2 ?.
  eapply safe_bind; [apply when_safe; [done|]; intros; by apply (bulk_out_safe _ _ _ 0)|]. intros s3 ?.
  eapply safe_bind; [apply when_safe; [done|]; intros; by apply (bulk_in_safe _ _ _ 0)|]. intros s4 ?.
  eapply safe_bind; [apply when_safe; [done|]; intros; by apply (bulk_out_safe _ _ _ 1)|]. intros s5 ?.
  apply when_safe; [done|]; intros; by apply (bulk_in_safe _ _ _ 1).
Qed.

Lemma wait_bits_safe fuel off bits s : safe (wait_bits fuel off bits s) (evolves s).
Proof.
  revert s. induction fuel as [|fuel IH]; intros s; cbn [wait_bits]; [done|].
  read_step. case_if; [by apply safe_Done|]. eapply safe_mono; [apply IH|]. intros s1 E1. by etrans.
Qed.

Lemma evolves_when {b : bool} (x : outcome (usb W)) s :
  (b = true -> safe x (evolves s)) -> safe (if b then x else Done s) (evolves s).
Proof using Type. intros Hx. case_if; [by apply Hx|by apply safe_Done]. Qed.

Lemma abort_safe fuel ep s : usb_ok s -> safe (usb_dwc2_ep_abort fuel ep s) (keeps s).
Proof.
  intros K. unfold usb_dwc2_ep_abort. eapply safe_bind; [by apply upd_ep_safe|]. intros s1 K1.
  eapply (safe_bind _ _ (fun _ => True)); [done|]. intros pep _.
  eapply (safe_mono _ (evolves s1)); [|intros s2 E2; eapply keeps_trans; [exact K1|]; apply keeps_evolves; [apply K1|done]].
  case_if; read_step.
  - eapply (safe_bind _ _ (evolves s1)).
    { eapply safe_mono; [apply (evolves_when _ s0)|intros s2 E2; by etrans].
      intros _. eapply safe_mono; [apply wait_bits_safe|]. intros s2 E2. etrans; [apply ev_set32|done]. }
    intros s2 E2. read_step. apply safe_Done. ev.
  - eapply (safe_bind _ _ (evolves s1)).
    { eapply safe_mono; [apply (evolves_when _ s0)|intros s2 E2; by etrans].
      intros _. eapply (safe_bind _ _ (evolves s0)).
      { eapply safe_mono; [apply wait_bits_safe|]. intros s2 E2. etrans; [|exact E2]. ev. }
      intros s2 E2. eapply (safe_bind _ _ (evolves s0)).
      { eapply safe_mono; [apply wait_bits_safe|]. intros s3 E3. etrans; [|exact E3]. ev. }
      intros s3 E3. apply safe_Done. ev. }
    intros s2 E2. read_step. apply safe_Done. ev.
Qed.

Lemma abort_from_safe n fuel i s : usb_ok s -> safe (abort_from n fuel i s) (keeps s).
Proof.
  revert i s. induction n as [|n IH]; intros i s K; cbn [abort_from]; [by apply safe_Done|].
  eapply safe_bind; [by apply abort_safe|]. intros s1 K1.
  eapply safe_mono; [apply IH; apply K1|]. intros s2 K2. by eapply keeps_trans.
Qed.

Lemma usbrst_safe fuel s : rests s -> safe (usb_dwc2_handle_usbrst fuel s) rests.
Proof.
  intros R. unfold usb_dwc2_handle_usbrst.
  pose proof (rests_evolves _ _ R (ev_set_fifo (TX_FIFO_SIZE + RX_FIFO_SIZE) s)) as R1.
  eapply safe_bind; [apply upd_ep_safe; [apply R1|done]|]. intros s2 K2. pose proof (rests_keeps _ _ R1 K2) as R2.
  eapply safe_bind; [apply abort_from_safe; apply R2|]. intros s3 K3. pose proof (rests_keeps _ _ R2 K3) as R3.
  read_step. apply safe_Done. eapply rests_evolves; [exact R3|]. ev.
Qed.

Lemma connect_done_safe s : rests s -> safe (usb_dwc2_handle_event_connect_done s) rests.
Proof.
  intros R. unfold usb_dwc2_handle_event_connect_done. read_step. pose proof (rests_evolves _ _ R E) as R1.
  case_if.
  { read_step. apply safe_Done. by eapply rests_evolves. }
  eapply safe_bind; [apply runs_safe, activate_runs; [apply R1|done|by left]|]. intros [r s1] [_ E1]. cbn [snd] in E1.
  pose proof (rests_evolves _ _ R1 E1) as R2.
  eapply safe_bind; [apply runs_safe, activate_runs; [apply R2|done|by left]|]. intros [r' s2] [_ E2]. cbn [snd] in E2.
  pose proof (rests_evolves _ _ R2 E2) as R3.
  eapply safe_bind; [apply runs_safe, setup_phase_runs; apply R3|]. intros s3 E3.
  pose proof (rests_evolves _ _ R3 E3) as R4. apply safe_Done.
  apply (rests_set_state s3 USB_DWC2_EP0_STATE_SETUP_HANDLE) in R4; [|done].
  destruct R4 as [[] ?]. split; [by split|done].
Qed.

Lemma interrupts_safe fuel env g s : rests s -> env_ok env -> safe (interrupts_loop fuel env g s) rests.
Proof.
  revert g s. induction fuel as [|fuel IH]; intros g s R He; cbn [interrupts_loop]; [done|].
  read_step. pose proof (rests_evolves _ _ R E) as R1.
  eapply safe_bind; [apply when_safe; [eapply rests_evolves; [exact R1|apply ev_reg_write]|]; intros; by apply usbrst_safe|]. intros s1 ?.
  eapply safe_bind; [apply when_safe; [done|]; intros; by apply connect_done_safe|]. intros s2 ?.
  eapply safe_bind; [apply when_safe; [done|]; intros; by apply interrupts_ep_safe|]. intros s3 ?.
  case_if; [by apply safe_Done|by apply IH].
Qed.

(** ** The calls of the I/O device *)
Lemma start_in_of_pipe s i p : rests s -> 0 <= i < 2 -> get_pipe i s = Done p ->
  bulk_ep (ep_in p) i false /\ bulk_ep (ep_out p) i true.
Proof using Type.
  intros [K _] Hi Hp. destruct (get_pipe_ok s i K Hi) as (q & Hq & _ & _ & _ & _ & Ho & Hn).
  rewrite Hp in Hq. injection Hq as <-. rewrite Ho, Hn.
  assert (i = 0 \/ i = 1) as [-> | ->] by lia; by repeat split.
Qed.

Lemma get_pipe_range s i p : usb_ok s -> get_pipe i s = Done p -> 0 <= i < 2.
Proof using Type.
  intros K Hp. destruct (ok_pipes s K) as (p0 & p1 & Hl & _). unfold get_pipe in Hp. rewrite Hl in Hp.
  apply znth_Done in Hp as [? Hp]. apply lookup_lt_Some in Hp. cbn in Hp. lia.
Qed.

(** Give a pipe the ring a transfer left. *)
Lemma put_h2d_safe s i r : rests s -> ring_ok (Some r) -> safe (upd_pipe i (fun p => pipe_h2d p (Some r)) s) rests.
Proof using Type.
  intros R Hr s' Hs. pose proof Hs as Hs2. unfold upd_pipe in Hs2. inv_bind Hs2.
  apply get_pipe_range in Hrun; [|apply R].
  eapply rests_keeps; [exact R|]. eapply runs_safe; [|exact Hs].
  eapply runs_mono; [apply upd_pipe_runs; [apply R|done|]|].
  - by intros p (? & ? & ? & ? & ? & ?).
  - intros s1 (? & ? & _). by split.
Qed.

Lemma put_d2h_safe s i r : rests s -> ring_ok (Some r) -> safe (upd_pipe i (fun p => pipe_d2h p (Some r)) s) rests.
Proof using Type.
  intros R Hr s' Hs. pose proof Hs as Hs2. unfold upd_pipe in Hs2. inv_bind Hs2.
  apply get_pipe_range in Hrun; [|apply R].
  eapply rests_keeps; [exact R|]. eapply runs_safe; [|exact Hs].
  eapply runs_mono; [apply upd_pipe_runs; [apply R|done|]|].
  - by intros p (? & ? & ? & ? & ? & ?).
  - intros s1 (? & ? & _). by split.
Qed.

(** A pipe of a resting device, with its rings. *)
Definition pipe_of s (i : Z) (p : acm_pipe) : Prop := get_pipe i s = Done p /\ pipe_ok i p /\ 0 <= i < 2.

Lemma get_pipe_safe s i : rests s -> safe (get_pipe i s) (pipe_of s i).
Proof using Type.
  intros [K _] p Hp. pose proof (get_pipe_range _ _ _ K Hp) as Hi. split; [done|].
  destruct (get_pipe_ok s i K Hi) as (q & Hq & Hok). rewrite Hp in Hq. by injection Hq as <-.
Qed.

Lemma ring_of_pipe (r : option ringbuffer_t) : ring_ok r -> safe (of_option r) (fun b => ring_ok (Some b)).
Proof using Type. intros Hr b Hb. destruct r; [|done]. by injection Hb as <-. Qed.

Lemma events_safe fuel env s : rests s -> env_ok env -> safe (usb_dwc2_handle_events fuel env s) rests.
Proof. apply interrupts_safe. Qed.

Lemma bulk_in_rests s ep i : rests s -> bulk_ep ep i false -> safe (usb_dwc2_cdc_start_bulk_in_xfer ep s) rests.
Proof. intros R B. eapply safe_mono; [eapply start_bulk_in_safe; [apply R|done]|]. intros s1 K1. by eapply rests_keeps. Qed.

Lemma bulk_out_rests s ep i : rests s -> bulk_ep ep i true -> safe (usb_dwc2_cdc_start_bulk_out_xfer ep s) rests.
Proof. intros R B. eapply safe_mono; [eapply start_bulk_out_safe; [apply R|done]|]. intros s1 K1. by eapply rests_keeps. Qed.

Lemma queue_loop_safe fuel env i ep buf sent s :
  rests s -> env_ok env -> bulk_ep ep i false -> safe (queue_loop fuel env i ep buf sent s) (fun p => rests (snd p)).
Proof.
  revert buf sent s. induction fuel as [|fuel IH]; intros buf sent s R He B; (destruct buf as [|c buf]; [by apply safe_Done|]); [done|].
  cbn [queue_loop]. eapply safe_bind; [by apply get_pipe_safe|]. intros p (_ & (_ & Hd & _) & _).
  eapply safe_bind; [by apply ring_of_pipe|]. intros b Hb.
  eapply safe_bind; [by apply runs_safe, ring_write_runs|]. intros [n b2] Hb2. cbn [snd] in Hb2.
  eapply safe_bind; [by apply put_d2h_safe|]. intros s1 R1.
  eapply (safe_bind _ _ rests).
  { case_if; [|by apply safe_Done]. eapply safe_bind; [by apply events_safe|]. intros s2 R2. by eapply bulk_in_rests. }
  intros s2 R2. by apply IH.
Qed.

Lemma read_loop_safe fuel env i ep count got s :
  rests s -> env_ok env -> bulk_ep ep i true -> safe (read_loop fuel env i ep count got s) (fun p => rests (snd p)).
Proof.
  revert count got s. induction fuel as [|fuel IH]; intros count got s R He B; cbn [read_loop];
    (destruct (count =? 0); [by apply safe_Done|]); [done|].
  eapply safe_bind; [by apply get_pipe_safe|]. intros p (_ & (Hh & _) & _).
  eapply safe_bind; [by apply ring_of_pipe|]. intros b Hb.
  eapply safe_bind; [by apply runs_safe, ring_read_runs|]. intros [bs b2] Hb2. cbn [snd] in Hb2.
  eapply safe_bind; [by apply put_h2d_safe|]. intros s1 R1.
  eapply safe_bind; [by apply events_safe|]. intros s2 R2.
  eapply safe_bind; [by eapply bulk_out_rests|]. intros s3 R3. by apply IH.
Qed.

Lemma getbyte_loop_safe fuel env i s :
  rests s -> env_ok env -> safe (getbyte_loop fuel env i s) (fun p => rests (snd p)).
Proof.
  revert s. induction fuel as [|fuel IH]; intros s R He; cbn [getbyte_loop]; [done|].
  eapply safe_bind; [by apply get_pipe_safe|]. intros p (Gp & (Hh & _) & Hi).
  eapply safe_bind; [by apply ring_of_pipe|]. intros b Hb.
  eapply safe_bind; [by apply runs_safe, ring_read_runs|]. intros [bs b2] Hb2. cbn [snd] in Hb2.
  eapply safe_bind; [by apply put_h2d_safe|]. intros s1 R1. destruct bs as [|c bs]; [|by apply safe_Done].
  eapply safe_bind; [by apply events_safe|]. intros s2 R2.
  eapply safe_bind; [eapply bulk_out_rests; [done|]; by apply (start_in_of_pipe s i p)|]. intros s3 R3. by apply IH.
Qed.

Lemma flush_wait_safe fuel env i ep s : rests s -> env_ok env -> safe (flush_wait fuel env i ep s) rests.
Proof.
  revert s. induction fuel as [|fuel IH]; intros s R He; cbn [flush_wait];
    (eapply (safe_bind _ _ (fun _ => True)); [done|]; intros p _);
    (eapply (safe_bind _ _ (fun _ => True)); [done|]; intros b _);
    (eapply (safe_bind _ _ (fun _ => True)); [done|]; intros e _);
    (case_if; [|by apply safe_Done]); [done|].
  eapply safe_bind; [by apply events_safe|]. intros s1 R1. by apply IH.
Qed.

(** One call into the driver, or the controller's own work between two calls. *)
Inductive usb_step (env : usb_env) : usb W -> usb W -> Prop :=
| step_events fuel s s' : usb_dwc2_handle_events fuel env s = Done s' -> usb_step env s s'
| step_getbyte fuel i c s s' : usb_dwc2_getbyte fuel env i s = Done (c, s') -> usb_step env s s'
| step_putbyte fuel i c s s' : usb_dwc2_putbyte fuel env i c s = Done s' -> usb_step env s s'
| step_queue fuel i buf n s s' : usb_dwc2_queue fuel env i buf (Some s) = Done (n, Some s') -> usb_step env s s'
| step_write fuel i buf n s s' : usb_dwc2_write fuel env i buf (Some s) = Done (n, Some s') -> usb_step env s s'
| step_read fuel i n bs s s' : usb_dwc2_read fuel env i n (Some s) = Done (bs, Some s') -> usb_step env s s'
| step_flush fuel i s s' : usb_dwc2_flush fuel env i (Some s) = Done (tt, Some s') -> usb_step env s s'
| step_dma w m s : mem_grows (um s) m -> usb_step env s (set_hw s w m).

Lemma queue_safe fuel env i buf s :
  rests s -> env_ok env ->
  safe (usb_dwc2_queue fuel env i buf (Some s)) (fun p => exists s', snd p = Some s' /\ rests s').
Proof.
  intros R He. unfold usb_dwc2_queue, with_dev. eapply (safe_bind _ _ (fun p => rests (snd p))).
  - eapply safe_bind; [by apply get_pipe_safe|]. intros p (Gp & _ & Hi). do 2 (case_if; [by apply safe_Done|]).
    apply queue_loop_safe; [done|done|]. by apply (start_in_of_pipe s i p).
  - intros [n s1] R1. apply safe_Done. by exists s1.
Qed.

Lemma usb_step_rests env s s' : rests s -> env_ok env -> usb_step env s s' -> rests s'.
Proof.
  intros R He Hs. destruct Hs as [fuel s s' Hs|fuel i c s s' Hs|fuel i c s s' Hs|fuel i buf n s s' Hs|fuel i buf n s s' Hs|fuel i n bs s s' Hs|fuel i s s' Hs|w m s Hm].
  - by eapply events_safe.
  - revert Hs. unfold usb_dwc2_getbyte. intros Hs. inv_bind Hs. revert Hs. case_decide; [by intros [= <- <-]|].
    intros Hs. by apply getbyte_loop_safe in Hs.
  - revert Hs. unfold usb_dwc2_putbyte. intros Hs. inv_bind Hs. revert Hs. case_decide; [by intros [= <-]|].
    intros Hs. inv_bind Hs. destruct a0 as [n s1]. injection Hs as <-.
    pose proof (get_pipe_safe s i R _ Hrun) as (_ & _ & Hi).
    apply queue_loop_safe in Hrun0; [exact Hrun0|done|done|by apply (start_in_of_pipe s i a)].
  - apply queue_safe in Hs as (s1 & E & R1); [|done|done]. by injection E as <-.
  - cbn in Hs. inv_bind Hs. inv_bind Hs. destruct a0 as [k o]. apply queue_safe in Hrun0 as (s1 & E & R1); [|done|done].
    cbn in E. subst o. cbn in Hs. inv_bind Hs. injection Hs as _ <-.
    pose proof (get_pipe_safe s i R _ Hrun) as (_ & _ & Hi).
    eapply bulk_in_rests; [exact R1| |exact Hrun0]. by apply (start_in_of_pipe s i a).
  - unfold usb_dwc2_read, with_dev in Hs. inv_bind Hs. destruct a as [k s1]. injection Hs as _ <-. inv_bind Hrun.
    pose proof (get_pipe_safe s i R _ Hrun0) as (_ & _ & Hi).
    revert Hrun. do 2 (case_if; [by intros [= _ <-]|]). intros Hrun.
    apply read_loop_safe in Hrun; [exact Hrun|done|done|by apply (start_in_of_pipe s i a)].
  - unfold usb_dwc2_flush, with_dev in Hs. inv_bind Hs. destruct a as [k s1]. injection Hs as _ <-. inv_bind Hrun.
    revert Hrun. do 2 (case_if; [by intros [= _ <-]|]). intros Hrun. inv_bind Hrun. injection Hrun as _ <-.
    by apply flush_wait_safe in Hrun1.
  - eapply rests_evolves; [exact R|]. by split.
Qed.

(** ** Bring-up *)
Lemma ringbuffer_alloc_wf x y n b :
  0 < n < 2 ^ 31 -> ringbuffer_alloc x y n = Some b -> ring_wf b /\ len b = n.
Proof using Type.
  intros Hn. unfold ringbuffer_alloc. destruct x; [|done]. destruct y; [|done]. cbn [negb]. intros [= <-].
  split; [|done]. split; [|cbn [len rd wr]; lia]. cbn [buffer len]. rewrite zlen_replicate. lia.
Qed.

Lemma ring_of_ok al n b : ring_of al n = Some b -> ring_ok (Some b).
Proof using Type.
  unfold ring_of. destruct (nth n (al_rings al) (false, false)) as [x y]. intros Hb.
  apply ringbuffer_alloc_wf in Hb as [Hw Hl]; [|unfold CDC_BUFFER_SIZE; lia].
  exists b. split; [done|]. by split.
Qed.

#[local] Opaque ring_of.

Lemma alloc_pipes_spec al s p0 p1 ok s' :
  pipes (dev s) = [p0; p1] -> alloc_pipes 2 0 al s = Done (ok, s') -> ok = true ->
  exists h0 g0 h1 g1, ring_ok (Some h0) /\ ring_ok (Some g0) /\ ring_ok (Some h1) /\ ring_ok (Some g1) /\
    s' = set_dev s (dev_pipes (dev s) [pipe_d2h (pipe_h2d p0 (Some h0)) (Some g0); pipe_d2h (pipe_h2d p1 (Some h1)) (Some g1)]).
Proof using Type.
  intros Hp. cbn [alloc_pipes]. unfold upd_pipe, get_pipe. rewrite Hp.
  destruct (ring_of al (Z.to_nat (2 * 0))) as [h0|] eqn:R0; cbn; rewrite ?Hp; cbn; [|by intros [= <- _]].
  destruct (ring_of al (Z.to_nat (2 * 0 + 1))) as [g0|] eqn:R1; cbn; [|by intros [= <- _]].
  destruct (ring_of al (Z.to_nat (2 * (0 + 1)))) as [h1|] eqn:R2; cbn; [|by intros [= <- _]].
  destruct (ring_of al (Z.to_nat (2 * (0 + 1) + 1))) as [g1|] eqn:R3; cbn; [|by intros [= <- _]].
  intros [= <- <-] _. exists h0, g0, h1, g1.
  apply ring_of_ok in R0, R1, R2, R3. done.
Qed.

(** The memory the allocator hands out for DMA. *)
Definition page_ok (al : usb_alloc) (m : mem) : Prop :=
  0 < al_page al /\ al_page al + DMA_PAGE_SIZE <= 2 ^ 32 /\ region m (al_page al) DMA_PAGE_SIZE /\ mem_bytes m.

Lemma buffers_of page :
  0 < page -> page + DMA_PAGE_SIZE <= 2 ^ 32 ->
  map xfer_buffer (map (buffer_of page) (seqZ 0 MAX_ENDPOINTS)) = map (fun i => page + i * DMA_BUFFER_SIZE) (seqZ 0 MAX_ENDPOINTS).
Proof using Type.
  intros ? Hp. change DMA_PAGE_SIZE with 32768 in Hp. rewrite map_map. apply map_ext_in.
  intros i Hi. apply list_elem_of_In, elem_of_seqZ in Hi. change MAX_ENDPOINTS with 8 in Hi.
  cbn [xfer_buffer buffer_of]. unfold buffer_of. cbn [xfer_buffer]. apply u32_small. change DMA_BUFFER_SIZE with 4096. lia.
Qed.

Lemma ev_init_registers s : evolves s (init_registers s).
Proof. unfold init_registers. ev. Qed.

Lemma init_rests al regs0 fifo serial w m s' :
  page_ok al m -> (forall x, serial = Some x -> string_ok x) ->
  usb_dwc2_init al regs0 fifo serial w m = Done (true, s') -> rests s'.
Proof.
  intros (Hp & Hp2 & Hr & Hb) Hs. unfold usb_dwc2_init.
  destruct (reg_read DWC2_GSNPSID _) as [v s0] eqn:E0. apply ev_reg_read_eq in E0.
  do 2 (case_if; [done|]). case_if; [done|]. intros Hi. inv_bind Hi. destruct E0 as [_ _ _ _ _ _ _ E0s [E0r E0b]]. cbn in E0s, E0r, E0b.
  pose proof (store_bytes_grows _ _ _ _ Hrun) as [Gr Gb]. set (page := al_page al) in *.
  match type of Hi with context [alloc_pipes 2 0 al ?x] => set (s1 := x) in Hi end.
  inv_bind Hi. destruct a0 as [ok s2]. destruct ok; cbn [negb] in Hi; [|done].
  apply (alloc_pipes_spec al s1 _ _ true s2 eq_refl) in Hrun0 as (h0 & g0 & h1 & g1 & R0 & R1 & R2 & R3 & ->); [|done].
  match type of Hi with context [init_registers ?x] => assert (rests x) as K1 end.
  { split; [|done]. split; try done; cbn.
    - by apply Gr, E0r.
    - by apply Gb, E0b.
    - by apply buffers_of.
    - eexists _, _. split; [reflexivity|]. split; by repeat split.
    - intros x Hx. apply Hs. by rewrite <- E0s. }
  pose proof (rests_evolves _ _ K1 (ev_init_registers _)) as K2. 
  match type of Hi with context [init_registers ?x] => set (s3 := init_registers x) in * end. clearbody s3.
  inv_bind Hi. destruct a0 as [r s4].
  destruct (activate_runs USB_LEP_CTRL_IN 0 64 s3) as (y & Ey & _ & V4); [apply K2|done|by left|].
  rewrite Hrun0 in Ey. injection Ey as <-. cbn [snd] in V4. pose proof (rests_evolves _ _ K2 V4) as K4.
  revert Hi. case_if; [done|]. intros Hi. inv_bind Hi. destruct a0 as [r' s5].
  destruct (activate_runs USB_LEP_CTRL_OUT 0 64 s4) as (y & Ey & _ & V5); [apply K4|done|by left|].
  rewrite Hrun1 in Ey. injection Ey as <-. cbn [snd] in V5. pose proof (rests_evolves _ _ K4 V5) as K5.
  revert Hi. case_if; [done|]. intros [= <-]. by apply rests_set_state.
Qed.

(** ** Bulk transfers *)
Lemma map_u8 bs : are_bytes bs -> map u8 bs = bs.
Proof using Type. induction 1 as [|b l Hb _ IH]; [done|]. cbn. by rewrite IH, u8_small. Qed.

Lemma get_ring_pipe s ep i out p :
  bulk_ep ep i out -> get_pipe i s = Done p ->
  usb_dwc2_cdc_get_ringbuffer ep s = Done (if out then host2device p else device2host p).
Proof using Type. intros (Hb & _) Hp. unfold usb_dwc2_cdc_get_ringbuffer. by rewrite Hb, Hp. Qed.

(** The ring of a pipe as a queue. *)
Definition queue_of s (i : Z) (out : bool) (q : list Z) : Prop :=
  exists p b, get_pipe i s = Done p /\ (if out then host2device p else device2host p) = Some b /\
              ring_wf b /\ len b = CDC_BUFFER_SIZE /\ contents b = q.

Lemma queue_of_ok s i out : usb_ok s -> 0 <= i < 2 -> exists q, queue_of s i out q.
Proof using Type.
  intros K Hi. destruct (get_pipe_ok s i K Hi) as (p & Hp & (b & Hh & ? & ?) & (c & Hd & ? & ?) & _).
  destruct out; [exists (contents b), p, b|exists (contents c), p, c]; done.
Qed.

(** Replace the queue of a pipe's ring. *)
Lemma put_ring_queue s ep i out r :
  usb_ok s -> bulk_ep ep i out -> ring_wf r -> len r = CDC_BUFFER_SIZE ->
  runs (put_ringbuffer ep r s) (fun s' => keeps s s' /\ um s' = um s /\ queue_of s' i out (contents r) /\
    endpoints (dev s') = endpoints (dev s) /\ dma_page_p (dev s') = dma_page_p (dev s) /\
    ep0_buffer_len (dev s') = ep0_buffer_len (dev s)).
Proof using Type.
  intros K (Hb & Hi & _) Hw Hl. unfold put_ringbuffer. rewrite Hb.
  assert (ring_ok (Some r)) as Hr by (by exists r).
  eapply runs_mono; [apply (upd_pipe_runs i); [done|done|]|].
  - intros p (? & ? & ? & ? & ? & ?). by destruct out.
  - intros s' (K' & E1 & E2 & E3 & E4 & E5 & E6 & _). do 2 (split; [done|]). split; [|done].
    destruct (get_pipe_ok s i K Hi) as (p & Hp & _). rewrite Hp, bind_Done in E3.
    destruct out; [exists (pipe_h2d p (Some r)), r|exists (pipe_d2h p (Some r)), r]; done.
Qed.

Lemma zlen_take_pos {A} (n : nat) (l : list A) : (0 < n)%nat -> l <> [] -> 0 < zlen (take n l).
Proof using Type.
  intros Hn Hl. unfold zlen. rewrite length_take. destruct l as [|x l]; [congruence|]. cbn [length]. lia.
Qed.

(** The packets a bulk IN transfer is armed for. *)
Definition bulk_packets (d : dwc2_dev) (n : Z) : Z :=
  (n + 511) / 512 + (if ep0_buffer_len d mod 512 =? 0 then 1 else 0).

(** [s'] is the device after the controller was given [bs] to send on [ep]:
    armed when [s1] held them in the endpoint's buffer. *)
Definition sends (ep : Z) (bs : list Z) (k : Z) s' : Prop :=
  exists s1 s2, usb_ok s1 /\ bytes_at (um s1) (dma_page_p (dev s1) + ep * DMA_BUFFER_SIZE) bs /\
    usb_dwc2_ep_hw_send ep (zlen bs) k s1 = Done s2 /\ upd_ep ep (fun e => ep_progress e true) s2 = Done s'.

Lemma start_bulk_in_spec s ep i q e :
  usb_ok s -> bulk_ep ep i false -> queue_of s i false q -> q <> [] -> are_bytes q ->
  get_ep ep s = Done e -> xfer_in_progress e = false ->
  let bs := take (Z.to_nat XFER_SIZE) q in
  ep * DMA_BUFFER_SIZE + zlen bs <= DMA_PAGE_SIZE ->
  runs (usb_dwc2_cdc_start_bulk_in_xfer ep s) (fun s' =>
    keeps s s' /\ queue_of s' i false (drop (Z.to_nat XFER_SIZE) q) /\ sends ep bs (bulk_packets (dev s) (zlen bs)) s').
Proof.
  unfold usb_dwc2_cdc_start_bulk_in_xfer. assert (0 < Z.to_nat XFER_SIZE)%nat as HN by (unfold XFER_SIZE; lia).
  revert HN. generalize (Z.to_nat XFER_SIZE). intros N HN.
  set (bs := take N q). intros K B (p & b & Hp & Hd & Hw & Hl & Hq) Hne Hby He Hx Hfit. pose proof B as (_ & Hi & Hep).
  rewrite He, bind_Done, Hx.
  rewrite (get_ring_pipe s ep i false p B Hp), bind_Done, Hd.
  destruct (read_spec N b Hw) as (b2 & -> & Hc2 & Hw2 & Hl2). rewrite bind_Done, Hq. fold bs.
  destruct (ep_lookup s ep K Hep) as (e' & He' & Hbuf & _).
  assert (e' = e) as -> by (apply znth_Done in He as [_ He]; congruence). rewrite Hbuf.
  destruct (fill_buffer s ep bs K Hep Hfit) as (m & -> & Em & Hm). rewrite bind_Done.
  set (s1 := set_hw s (uw s) m). assert (usb_ok s1) as K1 by (by eapply evolves_ok).
  destruct (put_ring_queue s1 ep i false b2 K1 B Hw2) as (s2 & -> & K2 & Em2 & Q2 & Ee2 & Ep2 & El2); [congruence|].
  rewrite bind_Done.
  assert (0 < zlen bs) as Hpos.
  { apply zlen_take_pos; [done|done]. }
  replace (zlen bs =? 0) with false by (symmetry; apply Z.eqb_neq; lia). cbn [andb].
  change (ep0_buffer_len (dev s1)) with (ep0_buffer_len (dev s)) in El2. rewrite El2.
  assert (Bytes : bytes_at (um s2) (dma_page_p (dev s2) + ep * DMA_BUFFER_SIZE) bs).
  { rewrite Em2, Ep2. cbn. rewrite Hm, map_u8 by (by apply Forall_take).
    destruct (ok_page s K). change DMA_PAGE_SIZE with 32768 in *. change DMA_BUFFER_SIZE with 4096 in *.
    apply bytes_at_write_eq; lia. }
  assert (Arm : forall s3, keeps s2 s3 -> um s3 = um s2 -> dma_page_p (dev s3) = dma_page_p (dev s2) -> pipes (dev s3) = pipes (dev s2) ->
    runs (s ← usb_dwc2_ep_hw_send ep (zlen bs) (bulk_packets (dev s) (zlen bs)) s3; upd_ep ep (fun e => ep_progress e true) s)
      (fun s' => keeps s s' /\ queue_of s' i false (drop N q) /\ sends ep bs (bulk_packets (dev s) (zlen bs)) s')).
  { intros s3 K3 Hm3 Hp3 Hq3. destruct (hw_send_runs ep (zlen bs) (bulk_packets (dev s) (zlen bs)) s3) as (s4 & E4 & V4); [apply K3|done|].
    rewrite E4, bind_Done. destruct (upd_ep_runs ep (fun e => ep_progress e true) s4) as (s5 & E5 & V5); [|done|done|].
    { eapply evolves_ok; [exact V4|apply K3]. }
    rewrite E5. apply runs_Done. split; [|split].
    - eapply keeps_trans; [apply keeps_evolves; [exact K|exact Em]|]. eapply keeps_trans; [exact K2|].
      eapply keeps_trans; [exact K3|]. apply keeps_evolves; [apply K3|]. by etrans.
    - rewrite <- Hq, <- Hc2. destruct Q2 as (p2 & c2 & G2 & Q2). exists p2, c2. split; [|exact Q2].
      unfold get_pipe in *. by rewrite (ev_pipes _ _ V5), (ev_pipes _ _ V4), Hq3.
    - exists s3, s4. rewrite Hm3, Hp3. split; [apply K3|]. by repeat split. }
  remember (bulk_packets (dev s) (zlen bs)) as k eqn:Hk. unfold bulk_packets in Hk.
  destruct (ep0_buffer_len (dev s) mod 512 =? 0).
  - destruct (upd_ep_runs ep (fun e => ep_zlp e true) s2) as (s3 & E3 & V3); [apply K2|done|done|].
    rewrite E3, !bind_Done. cbn beta iota. rewrite <- Hk.
    assert (keeps s2 s3) as K3 by (apply keeps_evolves; [apply K2|exact V3]).
    unfold upd_ep in E3. inv_bind E3. inv_bind E3. injection E3 as E3. subst s3. by apply Arm.
  - rewrite bind_Done. cbn beta iota. rewrite Z.add_0_r in Hk. rewrite <- Hk. apply Arm; [split; [apply K2|done]|done..].
Qed.

End invariant.
