(* ===== verification/Dwc2Regs.v ===== *)
(** * The USB controller driver: register writes

    The controller with every register write recorded, and what the handlers of
    endpoint 0 write: the stall bit, the three registers that arm an endpoint,
    the device address. *)
From S2P Require Import Prelude Machine CString Adt RingBuffer UsbDesc Dwc2 Dwc2Spec.

(** The same controller, with the register writes recorded, the last one last. *)
Definition logged {W} (hw : Dwc2Hw W) : Dwc2Hw (W * list (Z * Z)) := {|
  mmio_read a w m := let '(v, w', m') := mmio_read a (fst w) m in (v, (w', snd w), m');
  mmio_write a v w m := let '(w', m') := mmio_write a v (fst w) m in ((w', snd w ++ [(a, v)]), m');
  hw_delay us w m := let '(w', m') := hw_delay us (fst w) m in ((w', snd w), m') |}.

Lemma logged_laws {W} (HW : Dwc2Hw W) : Dwc2Laws W -> @Dwc2Laws _ (logged HW).
Proof.
  intros [R Wr D]. split; cbn.
  - intros a [w l] m v w' m'. cbn. destruct (mmio_read a w m) as [[x y] z] eqn:E. intros [= <- <- <-]. by eapply R.
  - intros a v [w l] m w' m'. cbn. destruct (mmio_write a v w m) as [y z] eqn:E. intros [= <- <-]. by eapply Wr.
  - intros us [w l] m w' m'. cbn. destruct (hw_delay us w m) as [y z] eqn:E. intros [= <- <-]. by eapply D.
Qed.

(** A write of [v] to the register at [off]. *)
Definition at_reg (base off v : Z) : Z * Z := (u32 (base + off), u32 v).

(** What refuses a request: the stall bit is set and the rest written back as
    it was read. *)
Definition stall_writes (base x : Z) : list (Z * Z) := [at_reg base (DWC2_DOEPCTL 0) (Z.lor x (2 ^ 21))].

(** What arms endpoint 0 for the next setup packet: its buffer, one packet of 64
    bytes, and the enable bit. *)
Definition setup_writes (base page x : Z) : list (Z * Z) :=
  [at_reg base (DWC2_DOEPDMA 0) page; at_reg base (DWC2_DOEPTSIZ 0) (2 ^ 19 + 64);
   at_reg base (DWC2_DOEPCTL 0) (Z.lor x (2 ^ 31))].

(** What sends [n] bytes in [k] packets from the IN endpoint's buffer: buffer,
    size and count, enable and clear NAK, and NAK cleared on the OUT side. *)
Definition send_writes (base page n k x y : Z) : list (Z * Z) :=
  [at_reg base (DWC2_DIEPDMA 0) (page + 4096); at_reg base (DWC2_DIEPTSIZ 0) (k * 2 ^ 19 + n);
   at_reg base (DWC2_DIEPCTL 0) (Z.lor x (2 ^ 31 + 2 ^ 26)); at_reg base (DWC2_DOEPCTL 0) (Z.lor y (2 ^ 26))].

(** The control register of an endpoint by its address on the bus. *)
Definition ctl_of (epno : Z) : Z := if dir_in epno then DWC2_DIEPCTL (epno mod 16) else DWC2_DOEPCTL epno.

(** What a request without data writes itself, before it is acknowledged: the
    new address to DCFG, or the stall bit of the endpoint cleared. *)
Definition own_writes (base : Z) (p : setup_packet) (l : list (Z * Z)) : Prop :=
  let type := Z.land (bmRequestType p) USB_REQUEST_TYPE_MASK in
  let recipient := Z.land (bmRequestType p) USB_REQUEST_TYPE_RECIPIENT_MASK in
  (type = USB_REQUEST_TYPE_STANDARD -> recipient = USB_REQUEST_TYPE_RECIPIENT_DEVICE ->
     (bRequest p = USB_REQUEST_SET_ADDRESS -> exists x,
        l = [at_reg base DWC2_DCFG (Z.lor (Z.land x (2 ^ 32 - 1 - 0x7f0)) (wValue p mod 128 * 16))]) /\
     (bRequest p = USB_REQUEST_SET_CONFIGURATION -> wValue p = 0 -> l = [])) /\
  (type = USB_REQUEST_TYPE_STANDARD -> recipient = USB_REQUEST_TYPE_RECIPIENT_ENDPOINT -> exists x,
     l = [at_reg base (ctl_of (wIndex p mod 256)) (Z.land x (2 ^ 32 - 1 - 2 ^ 21))]) /\
  (type = USB_REQUEST_TYPE_CLASS -> has (wValue p) 1 = false -> l = []).

Section log.
Context {W : Type} {HW : Dwc2Hw W} {HL : Dwc2Laws W}.
#[local] Set Default Proof Using "Type*".
#[local] Instance logged_hw : Dwc2Hw (W * list (Z * Z)) := logged HW.
#[local] Instance logged_ok : Dwc2Laws (W * list (Z * Z)) := logged_laws HW HL.
Implicit Types (s : usb (W * list (Z * Z))).

Definition log_of s : list (Z * Z) := snd (uw s).

Definition wrote s s' (l : list (Z * Z)) : Prop :=
  log_of s' = log_of s ++ l /\ regs (dev s') = regs (dev s) /\ dma_page_p (dev s') = dma_page_p (dev s).

Lemma wrote_nil s s' : uw s' = uw s -> regs (dev s') = regs (dev s) -> dma_page_p (dev s') = dma_page_p (dev s) -> wrote s s' [].
Proof using Type. intros E ??. split; [|done]. unfold log_of. by rewrite E, app_nil_r. Qed.

Lemma wrote_trans s1 s2 s3 l1 l2 : wrote s1 s2 l1 -> wrote s2 s3 l2 -> wrote s1 s3 (l1 ++ l2).
Proof using Type. intros (E1 & R1 & P1) (E2 & R2 & P2). split; [by rewrite E2, E1, app_assoc|split; congruence]. Qed.

Lemma wrote_eq s s' l l' : wrote s s' l -> l = l' -> wrote s s' l'.
Proof using Type. by intros ? <-. Qed.

Lemma wrote_read off s v s' : reg_read off s = (v, s') -> wrote s s' [].
Proof using Type.
  unfold reg_read. cbn. destruct (mmio_read _ (fst (uw s)) (um s)) as [[x w] m]. intros [= <- <-].
  split; [|done]. unfold log_of. cbn. by rewrite app_nil_r.
Qed.

Lemma wrote_write off v s b : regs (dev s) = b -> wrote s (reg_write off v s) [at_reg b off v].
Proof using Type.
  intros <-. unfold reg_write. cbn. destruct (mmio_write _ _ (fst (uw s)) (um s)) as [w m]. by split.
Qed.

Lemma wrote_set32 off v s b : regs (dev s) = b -> exists x, wrote s (reg_set32 off v s) [at_reg b off (Z.lor x v)].
Proof using Type.
  intros <-. unfold reg_set32. destruct (reg_read off s) as [x s1] eqn:E. apply wrote_read in E. exists x.
  apply (wrote_trans _ _ _ _ _ E). apply wrote_write. apply E.
Qed.

Lemma wrote_clear32 off v s b : regs (dev s) = b ->
  exists x, wrote s (reg_clear32 off v s) [at_reg b off (Z.land x (u32 (Z.lnot v)))].
Proof using Type.
  intros <-. unfold reg_clear32. destruct (reg_read off s) as [x s1] eqn:E. apply wrote_read in E. exists x.
  apply (wrote_trans _ _ _ _ _ E). apply wrote_write. apply E.
Qed.

Lemma wrote_upd_ep i f s : safe (upd_ep i f s) (fun s' => wrote s s' []).
Proof using Type. intros s' Hs. unfold upd_ep in Hs. inv_bind Hs. inv_bind Hs. injection Hs as <-. by apply wrote_nil. Qed.

Lemma wrote_upd_pipe i f s : safe (upd_pipe i f s) (fun s' => wrote s s' []).
Proof using Type. intros s' Hs. unfold upd_pipe in Hs. inv_bind Hs. inv_bind Hs. injection Hs as <-. by apply wrote_nil. Qed.

(** A step of a handler: the invariant, the same page, and what was written. *)
Definition did s s' (l : list (Z * Z)) : Prop := usb_ok s' /\ wrote s s' l.

Lemma did_trans s1 s2 s3 l1 l2 : did s1 s2 l1 -> did s2 s3 l2 -> did s1 s3 (l1 ++ l2).
Proof using Type. intros [? ?] [? ?]. split; [done|by eapply wrote_trans]. Qed.

(** What runs by the controller's work alone, with what it writes. *)
Lemma did_evolves x s (P : list (Z * Z) -> Prop) :
  usb_ok s -> runs x (evolves s) -> safe x (fun s' => exists l, P l /\ wrote s s' l) ->
  safe x (fun s' => exists l, P l /\ did s s' l).
Proof using Type.
  intros K (a & -> & E) Hs s' [= <-]. destruct (Hs a eq_refl) as (l & ? & ?). exists l. split; [done|].
  by split; [eapply evolves_ok|].
Qed.

Lemma did_set_state s x : usb_ok s -> state_ok x -> did s (set_state s x) [].
Proof using Type. intros. split; [by apply set_state_ok|by apply wrote_nil]. Qed.

(** ** The operations *)
Lemma did_set_stall ep st s : usb_ok s -> 0 <= ep < 8 ->
  safe (usb_dwc2_ep_set_stall ep st s) (fun s' => exists l, (exists x, l =
    [at_reg (regs (dev s)) (if dir_in (phy ep) then DWC2_DIEPCTL (Z.land (phy ep) 0xf) else DWC2_DOEPCTL (phy ep))
       (if negb (st =? 0) then Z.lor x (2 ^ 21) else Z.land x (2 ^ 32 - 1 - 2 ^ 21))]) /\ did s s' l).
Proof.
  intros K Hep. apply did_evolves; [done|by apply set_stall_runs|]. unfold usb_dwc2_ep_set_stall.
  rewrite phy_Done, bind_Done by done. apply safe_Done. set (ctl := if dir_in _ then _ else _). case_if.
  - destruct (wrote_set32 ctl DWC2_DXEPCTL_Stall s _ eq_refl) as [x Hx]. eexists. split; [by exists x|exact Hx].
  - destruct (wrote_clear32 ctl DWC2_DXEPCTL_Stall s _ eq_refl) as [x Hx]. eexists. split; [by exists x|exact Hx].
Qed.

Lemma did_stall s : usb_ok s -> safe (ep0_stall s) (fun s' =>
  ep0_st (dev s') = USB_DWC2_EP0_STATE_IDLE /\ exists x, did s s' (stall_writes (regs (dev s)) x)).
Proof.
  intros K. unfold ep0_stall. eapply safe_bind; [apply did_set_stall; [done|lia]|]. intros s1 (l & (x & ->) & D).
  apply safe_Done. split; [done|]. exists x. rewrite <- (app_nil_r (stall_writes _ _)).
  eapply did_trans; [exact D|]. apply did_set_state; [apply D|by split].
Qed.

Lemma did_setup_phase s : usb_ok s -> ep0_st (dev s) <> USB_DWC2_EP0_STATE_DATA_RECV ->
  safe (usb_dwc2_start_setup_phase s) (fun s' => exists l, (exists x, l = setup_writes (regs (dev s)) (dma_page_p (dev s)) x) /\ did s s' l).
Proof.
  intros K St. apply did_evolves; [done|by apply setup_phase_runs|].
  unfold usb_dwc2_start_setup_phase, usb_dwc2_ep_hw_recv, USB_LEP_CTRL_OUT. rewrite phy_Done, bind_Done by lia.
  change (dir_in (phy 0)) with false. change (phy 0) with 0. cbn beta iota.
  destruct (get_ep_runs 0 s K) as (e & -> & He); [lia|]. rewrite bind_Done, He, Z.add_0_r. apply safe_Done.
  change (Z.lor (u32 (Z.shiftl 1 19)) 64) with (2 ^ 19 + 64).
  set (s1 := reg_write (DWC2_DOEPDMA 0) _ s). set (s2 := reg_write (DWC2_DOEPTSIZ 0) _ s1).
  assert (wrote s s1 [at_reg (regs (dev s)) (DWC2_DOEPDMA 0) (dma_page_p (dev s))]) as E1 by by apply wrote_write.
  assert (wrote s1 s2 [at_reg (regs (dev s)) (DWC2_DOEPTSIZ 0) (2 ^ 19 + 64)]) as E2 by (apply wrote_write, E1).
  pose proof (wrote_trans _ _ _ _ _ E1 E2) as E.
  assert (ep0_st (dev s2) = ep0_st (dev s)) as -> by (apply ev_st; eapply ev_trans_l; apply ev_reg_write).
  rewrite decide_False by done. change (0 =? 0) with true. cbn iota.
  destruct (wrote_set32 (DWC2_DOEPCTL 0) DWC2_DXEPCTLi_EnableEP s2 (regs (dev s))) as [x E3]; [apply E|].
  eexists. split; [by exists x|]. exact (wrote_trans _ _ _ _ _ E E3).
Qed.

Lemma did_send n k s : usb_ok s -> 0 <= n < 2 ^ 19 -> 0 <= k < 2 ^ 13 ->
  safe (usb_dwc2_ep_hw_send USB_LEP_CTRL_IN n k s) (fun s' => exists l,
    (exists x y, l = send_writes (regs (dev s)) (dma_page_p (dev s)) n k x y) /\ did s s' l).
Proof.
  intros K Hn Hk. apply did_evolves; [done|by apply hw_send_runs|].
  unfold usb_dwc2_ep_hw_send, USB_LEP_CTRL_IN. rewrite phy_Done, bind_Done by lia.
  change (dir_in (phy 1)) with true. change (Z.land (phy 1) 15) with 0. cbn beta iota zeta. change (negb true) with false. cbn iota.
  destruct (get_ep_runs 1 s K) as (e & -> & He); [lia|]. rewrite bind_Done, He. change (0 =? 0) with true. cbn iota.
  assert (Z.lor (u32 (Z.shiftl k 19)) n = k * 2 ^ 19 + n) as ->.
  { rewrite Z.shiftl_mul_pow2, u32_small, Z.lor_comm, (Z.mul_comm k), lor_disjoint by lia. lia. }
  change (dma_page_p (dev s) + 1 * DMA_BUFFER_SIZE) with (dma_page_p (dev s) + 4096).
  set (s1 := reg_write (DWC2_DIEPDMA 0) _ s). set (s2 := reg_write (DWC2_DIEPTSIZ 0) _ s1).
  assert (wrote s s1 [at_reg (regs (dev s)) (DWC2_DIEPDMA 0) (dma_page_p (dev s) + 4096)]) as E1 by by apply wrote_write.
  assert (wrote s1 s2 [at_reg (regs (dev s)) (DWC2_DIEPTSIZ 0) (k * 2 ^ 19 + n)]) as E2 by (apply wrote_write, E1).
  pose proof (wrote_trans _ _ _ _ _ E1 E2) as E.
  destruct (wrote_set32 (DWC2_DIEPCTL 0) (Z.lor DWC2_DXEPCTLi_EnableEP DWC2_DXEPCTL_ClearNAK) s2 (regs (dev s))) as [x E3]; [apply E|].
  set (s3 := reg_set32 (DWC2_DIEPCTL 0) _ s2) in *. pose proof (wrote_trans _ _ _ _ _ E E3) as E'.
  destruct (wrote_set32 (DWC2_DOEPCTL 0) DWC2_DXEPCTL_ClearNAK s3 (regs (dev s))) as [y E4]; [apply E'|].
  pose proof (wrote_trans _ _ _ _ _ E' E4) as F.
  eapply safe_mono; [apply wrote_upd_ep|]. intros s5 E5. eexists. split; [by exists x, y|].
  pose proof (wrote_trans _ _ _ _ _ F E5) as G. by rewrite app_nil_r in G.
Qed.

Lemma did_ack s b : usb_ok s -> regs (dev s) = b ->
  safe (s ← usb_dwc2_start_status_phase USB_LEP_CTRL_IN s; Done (set_state s USB_DWC2_EP0_STATE_DATA_SEND_STATUS_DONE))
    (fun s' => ep0_st (dev s') = USB_DWC2_EP0_STATE_DATA_SEND_STATUS_DONE /\
       exists x y, did s s' (send_writes b (dma_page_p (dev s)) 0 1 x y)).
Proof.
  intros K <-. unfold usb_dwc2_start_status_phase, USB_LEP_CTRL_IN. rewrite phy_Done, bind_Done by lia.
  change (dir_in (phy 1)) with true. cbn iota.
  eapply safe_bind; [apply did_send; [done|lia..]|]. intros s1 (l & (x & y & ->) & D). apply safe_Done.
  split; [done|]. exists x, y. rewrite <- (app_nil_r (send_writes _ _ _ _ _ _)).
  eapply did_trans; [exact D|]. apply did_set_state; [apply D|by split].
Qed.

(** ** Some writes, whatever they are *)
Definition wrote_some s s' : Prop := exists l, wrote s s' l.

Lemma some_nil s s' : uw s' = uw s -> regs (dev s') = regs (dev s) -> dma_page_p (dev s') = dma_page_p (dev s) -> wrote_some s s'.
Proof using Type. intros. exists []. by apply wrote_nil. Qed.

Lemma some_trans s1 s2 s3 : wrote_some s1 s2 -> wrote_some s2 s3 -> wrote_some s1 s3.
Proof using Type. intros [l1 ?] [l2 ?]. exists (l1 ++ l2). by eapply wrote_trans. Qed.

Lemma some_write off v s : wrote_some s (reg_write off v s).
Proof using Type. eexists. by apply wrote_write. Qed.

Lemma some_set32 off v s : wrote_some s (reg_set32 off v s).
Proof using Type. destruct (wrote_set32 off v s _ eq_refl) as [x ?]. by eexists. Qed.

Lemma some_upd_ep i f s : safe (upd_ep i f s) (wrote_some s).
Proof using Type. eapply safe_mono; [apply wrote_upd_ep|]. intros s' ?. by exists []. Qed.

Ltac some_step :=
  first [ assumption | by apply some_nil | apply some_write | apply some_set32
        | eapply some_trans; [|apply some_set32] | eapply some_trans; [|apply some_write]
        | eapply some_trans; [eassumption|] ].
Ltac some_writes := repeat some_step.

Lemma some_hw_recv ep n k s : safe (usb_dwc2_ep_hw_recv ep n k s) (wrote_some s).
Proof using Type.
  unfold usb_dwc2_ep_hw_recv. eapply (safe_bind _ _ (fun _ => True)); [done|]. intros pep _.
  case_if; [apply safe_Done; by apply some_nil|]. eapply (safe_bind _ _ (fun _ => True)); [done|]. intros e _.
  apply safe_Done. some_writes.
Qed.

Lemma some_activate ep type n s : safe (usb_dwc2_ep_activate ep type n s) (fun r => wrote_some s (snd r)).
Proof using Type.
  unfold usb_dwc2_ep_activate. eapply (safe_bind _ _ (fun _ => True)); [done|]. intros pep _.
  eapply safe_bind; [apply some_upd_ep|]. intros s1 E1. case_if; [by apply safe_Done|]. cbn beta iota zeta.
  destruct (dir_in pep); cbn beta iota zeta; apply safe_Done; cbn [snd]; repeat case_if; some_writes.
  all: match goal with |- wrote_some _ (set_fifo ?s _) => apply (some_trans _ s); [some_writes|by apply some_nil] end.
Qed.

Lemma some_activate_pipes n i s : safe (activate_pipes n i s) (wrote_some s).
Proof using Type.
  revert i s. induction n as [|n IH]; intros i s; cbn [activate_pipes]; [apply safe_Done; by apply some_nil|].
  eapply (safe_bind _ _ (fun _ => True)); [done|]. intros p _.
  eapply safe_bind; [apply some_activate|]. intros [r1 s1] E1. eapply safe_bind; [apply some_activate|]. intros [r2 s2] E2.
  eapply safe_bind; [apply some_activate|]. intros [r3 s3] E3. cbn [snd] in *.
  eapply safe_mono; [apply IH|]. intros s4 E4. some_writes.
Qed.

Lemma some_bulk_out ep s : safe (usb_dwc2_cdc_start_bulk_out_xfer ep s) (wrote_some s).
Proof using Type.
  unfold usb_dwc2_cdc_start_bulk_out_xfer. eapply (safe_bind _ _ (fun _ => True)); [done|]. intros e _.
  case_if; [apply safe_Done; by apply some_nil|]. eapply (safe_bind _ _ (fun _ => True)); [done|]. intros [r|] _; [|apply safe_Done; by apply some_nil].
  case_if; [apply safe_Done; by apply some_nil|]. eapply (safe_bind _ _ (fun _ => True)); [done|]. intros m _.
  eapply safe_bind; [apply some_hw_recv|]. intros s2 E2. eapply safe_mono; [apply some_upd_ep|]. intros s3 E3.
  apply (some_trans _ (set_hw s (uw s) m)); [by apply some_nil|]. some_writes.
Qed.

(** ** The requests *)

(** What has been written once the driver has decided on an answer, by the state
    it has gone to. *)
Definition told (p : setup_packet) s s' : Prop :=
  let b := regs (dev s) in
  match ep0_st (dev s') with
  | USB_DWC2_EP0_STATE_IDLE => exists x, wrote s s' (stall_writes b x)
  | USB_DWC2_EP0_STATE_DATA_SEND => wrote s s' []
  | USB_DWC2_EP0_STATE_DATA_SEND_STATUS => exists own, own_writes b p own /\ wrote s s' own
  | USB_DWC2_EP0_STATE_DATA_SEND_STATUS_DONE => exists own x y, own_writes b p own /\
      wrote s s' (own ++ send_writes b (dma_page_p (dev s)) 0 1 x y)
  | _ => True
  end.

Lemma told_stall p s : usb_ok s -> safe (ep0_stall s) (told p s).
Proof. intros K. eapply safe_mono; [by apply did_stall|]. intros s' (St & x & _ & Wr). unfold told. rewrite St. by exists x. Qed.

Lemma told_data p s s' : wrote s s' [] -> ep0_st (dev s') = USB_DWC2_EP0_STATE_DATA_SEND -> told p s s'.
Proof using Type. intros Wr St. unfold told. by rewrite St. Qed.

Lemma told_status v p s : safe (ep0_status v s) (told p s).
Proof using Type. apply safe_Done. apply told_data; [by apply wrote_nil|done]. Qed.

(** Acknowledged at once, behind what the request has written. *)
Lemma told_ack p s s1 own : did s s1 own -> own_writes (regs (dev s)) p own ->
  safe (s ← usb_dwc2_start_status_phase USB_LEP_CTRL_IN s1; Done (set_state s USB_DWC2_EP0_STATE_DATA_SEND_STATUS_DONE)) (told p s).
Proof.
  intros (K1 & Wr) Ho. pose proof (proj2 (proj2 Wr)) as P1. eapply safe_mono; [apply (did_ack s1 (regs (dev s))); [done|apply Wr]|].
  intros s' (St & x & y & D). unfold told. rewrite St. exists own, x, y. split; [done|].
  eapply wrote_trans; [exact Wr|]. rewrite <- P1. apply D.
Qed.

(** A descriptor that is found leaves the registers alone; one that is not, the
    whole driver. *)
Definition looked_up s (r : option (list Z) * Z * usb (W * list (Z * Z))) : Prop :=
  match fst (fst r) with Some _ => wrote s (snd r) [] | None => snd r = s end.

Lemma string_descriptor_log env i s : safe (usb_cdc_get_string_descriptor env i s) (looked_up s).
Proof using Type.
  unfold usb_cdc_get_string_descriptor.
  case_if; [apply safe_Done; by apply wrote_nil|]. case_if; [apply safe_Done; by apply wrote_nil|].
  case_if; [apply safe_Done; by apply wrote_nil|]. case_if; [|by apply safe_Done].
  eapply (safe_bind _ _ (fun s1 => wrote s s1 [])).
  - unfold usb_build_serial. destruct (str_serial s); [apply safe_Done; by apply wrote_nil|].
    eapply (safe_bind _ _ (fun _ => True)); [done|]. intros x _. apply safe_Done. by apply wrote_nil.
  - intros s1 E1. eapply (safe_bind _ _ (fun _ => True)); [done|]. intros x _. by apply safe_Done.
Qed.

Lemma get_descriptor_log env a s :
  safe (usb_dwc2_handle_ep0_get_descriptor env a s) (fun r => if fst r <? 0 then snd r = s else wrote s (snd r) []).
Proof using Type.
  unfold usb_dwc2_handle_ep0_get_descriptor. eapply (safe_bind _ _ (fun _ => True)); [done|]. intros type _.
  eapply (safe_bind _ _ (looked_up s)).
  - case_if; [apply safe_Done; by apply wrote_nil|]. case_if; [apply safe_Done; by apply wrote_nil|].
    case_if; [eapply (safe_bind _ _ (fun _ => True)); [done|]; intros i _; apply string_descriptor_log|].
    case_if; [apply safe_Done; by apply wrote_nil|by apply safe_Done].
  - intros [[[x|] n] s1] E1; unfold looked_up in E1; cbn in E1; [|by apply safe_Done].
    eapply (safe_bind _ _ (fun _ => True)); [done|]. intros l _. apply safe_Done. by destruct E1.
Qed.

Lemma ctl_of_phy e : e ∈ phyEndpoints ->
  (if dir_in (phy (ep_to_num e)) then DWC2_DIEPCTL (Z.land (phy (ep_to_num e)) 0xf) else DWC2_DOEPCTL (phy (ep_to_num e))) = ctl_of e.
Proof using Type.
  intros He. unfold phyEndpoints in He.
  repeat (apply elem_of_cons in He as [-> | He]; [reflexivity|]). by apply elem_of_nil in He.
Qed.

Lemma address_field a : 0 <= a < 65536 -> Z.land (u32 (Z.shiftl (u8 (u8 a)) 4)) 0x7f0 = a mod 128 * 16.
Proof using Type.
  intros Ha. unfold wrap. change (2 ^ 8) with 256. rewrite Z.mod_mod by lia. rewrite Z.shiftl_mul_pow2 by lia.
  rewrite (Z.mod_small (_ * _)) by lia. assert (a mod 128 = (a mod 256) mod 128) as -> by lia.
  assert (0 <= a mod 256 < 256) as Hr by lia. revert Hr. generalize (a mod 256). intros r Hr.
  assert (forallb (fun n => Z.land (Z.of_nat n * 2 ^ 4) 0x7f0 =? Z.of_nat n mod 128 * 16) (seq 0 256) = true) as H by by vm_compute.
  rewrite forallb_forall in H. specialize (H (Z.to_nat r)). rewrite Z2Nat.id in H by lia.
  apply Z.eqb_eq, H, in_seq. lia.
Qed.

Lemma wrote_set_address a s : 0 <= a < 65536 ->
  exists x, wrote s (usb_set_address (u8 a) s) [at_reg (regs (dev s)) DWC2_DCFG (Z.lor (Z.land x (2 ^ 32 - 1 - 0x7f0)) (a mod 128 * 16))].
Proof using Type.
  intros Ha. unfold usb_set_address. destruct (reg_read DWC2_DCFG s) as [x s1] eqn:E. apply wrote_read in E. exists x.
  rewrite address_field by done. apply (wrote_trans _ _ _ _ _ E). apply wrote_write, E.
Qed.

Lemma own_device b p l :
  Z.land (bmRequestType p) USB_REQUEST_TYPE_MASK = USB_REQUEST_TYPE_STANDARD ->
  Z.land (bmRequestType p) USB_REQUEST_TYPE_RECIPIENT_MASK = USB_REQUEST_TYPE_RECIPIENT_DEVICE ->
  (bRequest p = USB_REQUEST_SET_ADDRESS -> exists x,
     l = [at_reg b DWC2_DCFG (Z.lor (Z.land x (2 ^ 32 - 1 - 0x7f0)) (wValue p mod 128 * 16))]) ->
  (bRequest p = USB_REQUEST_SET_CONFIGURATION -> wValue p = 0 -> l = []) -> own_writes b p l.
Proof using Type. unfold own_writes. intros T R H1 H2. rewrite T, R. split; [done|]. by split. Qed.

Lemma told_endpoint p s a r :
  usb_ok s -> packet_at s p -> a = dma_page_p (dev s) ->
  Z.land (bmRequestType p) USB_REQUEST_TYPE_MASK = USB_REQUEST_TYPE_STANDARD ->
  Z.land (bmRequestType p) USB_REQUEST_TYPE_RECIPIENT_MASK = USB_REQUEST_TYPE_RECIPIENT_ENDPOINT ->
  (if bRequest p =? USB_REQUEST_GET_STATUS then Some (R_data [0; 0])
   else if (bRequest p =? USB_REQUEST_CLEAR_FEATURE) && (wValue p =? USB_FEATURE_ENDPOINT_HALT) then
     (if bool_decide (u8 (wIndex p) ∈ phyEndpoints) then Some R_status else None)
   else Some R_stall) = Some r ->
  safe (usb_dwc2_ep0_handle_standard_endpoint a s) (told p s).
Proof.
  intros K P Ha T R. destruct (packet_fields s p a P Ha) as (_ & Hrq & Hv & _ & _ & Hi & _).
  unfold usb_dwc2_ep0_handle_standard_endpoint. rewrite Hrq, bind_Done. case_if; [intros _; apply told_status|].
  destruct (bRequest p =? USB_REQUEST_CLEAR_FEATURE); cbn [andb]; [|intros _; by apply told_stall].
  rewrite Hv, bind_Done. case_if; [|intros _; by apply told_stall].
  rewrite Hi, bind_Done. case_bool_decide as Hin; [|done]. intros _.
  eapply safe_bind; [apply did_set_stall; [done|by apply ep_to_num_range]|]. intros s1 (l & (x & ->) & D).
  eapply told_ack; [exact D|]. rewrite ctl_of_phy by done. unfold own_writes. rewrite T, R.
  split; [done|]. split; [|done]. intros _ _. exists x. done.
Qed.

Lemma told_class p s a r :
  usb_ok s -> packet_at s p -> a = dma_page_p (dev s) ->
  Z.land (bmRequestType p) USB_REQUEST_TYPE_MASK = USB_REQUEST_TYPE_CLASS -> class_reply p = Some r ->
  safe (usb_dwc2_ep0_handle_class a s) (told p s).
Proof.
  intros K P Ha T. destruct (packet_fields s p a P Ha) as (_ & Hrq & Hv & _ & _ & Hi & Hl).
  assert (0 <= wIndex p) as Hi0 by (destruct P as [(_ & _ & _ & ? & ?) _]; lia).
  unfold usb_dwc2_ep0_handle_class, class_reply. rewrite Hi, bind_Done. change CDC_ACM_PIPE_MAX with 2.
  replace (2 <=? wIndex p / 2) with (4 <=? wIndex p) by (destruct (Z.leb_spec 4 (wIndex p)); symmetry; [apply Z.leb_le|apply Z.leb_gt]; lia).
  case_if; [intros _; by apply told_stall|]. b2p. rewrite Hrq, bind_Done. assert (0 <= wIndex p / 2 < 2) as Hp by lia.
  case_if; [intros _; rewrite Hl, bind_Done; apply safe_Done; apply told_data; [by apply wrote_nil|done]|].
  case_if; [|intros _; by apply told_stall]. rewrite Hv, bind_Done.
  assert (forall l, (has (wValue p) 1 = false -> l = []) -> own_writes (regs (dev s)) p l) as Own
    by (intros l Hx; unfold own_writes; rewrite T; done).
  assert (forall j b s0, usb_ok s0 -> 0 <= j < 2 -> safe (upd_pipe j (fun p => pipe_ready p b) s0) (fun s' => did s0 s' [])) as Up.
  { intros j b s0 K0 Hj s' E. destruct (upd_pipe_runs j (fun p => pipe_ready p b) s0 K0 Hj) as (s1 & E1 & K1 & _ & _ & _ & _ & P1 & _);
      [intros; by apply pipe_ok_ready|]. pose proof (wrote_upd_pipe _ _ _ _ E). rewrite E1 in E. injection E as <-. done. }
  unfold has in *. destruct (negb (Z.land (wValue p) 1 =? 0)); cbn [andb].
  2:{ intros _. eapply safe_bind; [by apply Up|]. intros s1 D. eapply told_ack; [exact D|by apply Own]. }
  case_if; [done|]. intros _. b2p. assert (wIndex p / 2 = 0) as -> by lia. rewrite bind_assoc.
  eapply safe_bind; [apply Up; [done|lia]|]. intros s1 D1. rewrite bind_assoc.
  eapply safe_bind; [apply Up; [apply D1|lia]|]. intros s2 D2. change (0 =? 1) with false. change (0 =? 0) with true. cbn iota.
  eapply safe_bind; [apply (did_evolves _ s2 (fun _ => True)); [apply D2|apply start_bulk_out_runs, D2|]|].
  { eapply safe_mono; [apply some_bulk_out|]. intros s3 [l Wr]. by exists l. }
  intros s3 (l & _ & D3). pose proof (did_trans _ _ _ _ _ D1 (did_trans _ _ _ _ _ D2 D3)) as D.
  eapply told_ack; [exact D|by apply Own].
Qed.

Lemma told_standard env serial p s a r :
  usb_ok s -> packet_at s p -> a = dma_page_p (dev s) ->
  Z.land (bmRequestType p) USB_REQUEST_TYPE_MASK = USB_REQUEST_TYPE_STANDARD -> standard_reply env serial p = Some r ->
  safe (usb_dwc2_ep0_handle_standard env a s) (told p s).
Proof.
  intros K P Ha T. destruct (packet_fields s p a P Ha) as (Ht & Hrq & Hv & _).
  assert (0 <= wValue p < 65536) as Hv0 by apply P.
  unfold usb_dwc2_ep0_handle_standard, standard_reply. rewrite Ht, bind_Done.
  destruct (_ =? USB_REQUEST_TYPE_RECIPIENT_DEVICE) eqn:R.
  { intros _. b2p. unfold usb_dwc2_ep0_handle_standard_device. rewrite Hrq, bind_Done.
    destruct (bRequest p =? USB_REQUEST_SET_ADDRESS) eqn:Q1; b2p.
    { rewrite Hv, bind_Done. apply safe_Done. destruct (wrote_set_address _ s Hv0) as [x Hx].
      unfold told. cbn [ep0_st dev set_state set_dev dev_state]. eexists. split; [|exact Hx].
      apply own_device; [done|done|intros _; by exists x|]. rewrite Q1. done. }
    destruct (bRequest p =? USB_REQUEST_SET_CONFIGURATION) eqn:Q2; b2p.
    { rewrite Hv, bind_Done. destruct (wValue p =? 0) eqn:V0; b2p.
      - apply safe_Done. unfold told. cbn [ep0_st dev set_state set_dev dev_state dev_pipes]. exists [].
        split; [by apply own_device|by apply wrote_nil].
      - case_if; [|by apply told_stall]. eapply safe_bind; [apply some_activate_pipes|]. intros s1 [l Wr]. apply safe_Done.
        unfold told. cbn [ep0_st dev set_state set_dev dev_state]. exists l. split; [by apply own_device|exact Wr]. }
    case_if; [|case_if; [apply told_status|by apply told_stall]].
    eapply safe_bind; [apply get_descriptor_log|]. intros [v s1] Hs1. cbn [fst snd] in Hs1.
    destruct (v <? 0); [subst s1; by apply told_stall|]. apply safe_Done. apply told_data; [exact Hs1|done]. }
  case_if.
  { intros _. unfold usb_dwc2_ep0_handle_standard_interface. rewrite Hrq, bind_Done.
    case_if; [apply told_status|by apply told_stall]. }
  destruct (_ =? USB_REQUEST_TYPE_RECIPIENT_ENDPOINT) eqn:R2; b2p; [by apply told_endpoint|intros _; by apply told_stall].
Qed.

Lemma handle_setup_told env serial p s r :
  usb_ok s -> packet_at s p -> reply_to env serial p = Some r -> safe (usb_dwc2_ep0_handle_setup env s) (told p s).
Proof.
  intros K P. unfold usb_dwc2_ep0_handle_setup, reply_to.
  destruct (get_ep_runs USB_LEP_CTRL_OUT s K) as (e & -> & He); [done|]. rewrite bind_Done.
  assert (xfer_buffer e = dma_page_p (dev s)) as -> by (rewrite He; unfold USB_LEP_CTRL_OUT; lia).
  destruct (packet_fields s p (dma_page_p (dev s)) P eq_refl) as (Ht & _). rewrite Ht, bind_Done.
  destruct (_ =? USB_REQUEST_TYPE_STANDARD) eqn:T; b2p; [by apply told_standard|].
  destruct (_ =? USB_REQUEST_TYPE_CLASS) eqn:C; b2p; [by apply told_class|]. intros _. by apply told_stall.
Qed.
End log.
