(* ===== verification/Dwc2Props.v ===== *)
(** * The USB controller driver: theorems

    What the host sees of the gadget and what the driver keeps: the reachable
    states, the answer to each request, the data of the bulk pipes, and the
    events it does not survive. *)
From S2P Require Import Prelude Machine CString Adt RingBuffer UsbDesc Dwc2 Dwc2Spec Dwc2Regs.

Section stream.
Context {W : Type} `{HW : Dwc2Hw W} {HL : Dwc2Laws W}.
#[local] Set Default Proof Using "Type*".
Implicit Types (s : usb W).

(** Enqueue when the ring has room: the controller is not touched. *)
Lemma queue_room fuel env s i ep q buf sent :
  usb_ok s -> bulk_ep ep i false -> queue_of s i false q -> (0 < fuel)%nat ->
  zlen q + zlen buf < CDC_BUFFER_SIZE ->
  runs (queue_loop fuel env i ep buf sent s) (fun r =>
    fst r = sent + zlen buf /\ keeps s (snd r) /\ queue_of (snd r) i false (q ++ buf) /\
    endpoints (dev (snd r)) = endpoints (dev s) /\ ep0_buffer_len (dev (snd r)) = ep0_buffer_len (dev s) /\
    dma_page_p (dev (snd r)) = dma_page_p (dev s)).
Proof using Type.
  intros K B Q Hf Hroom. destruct buf as [|c buf].
  { destruct fuel; apply runs_Done; rewrite app_nil_r; cbn [fst snd]; (split; [by rewrite zlen_nil, Z.add_0_r|]);
      (split; [by split|]); (split; [done|auto]). }
  destruct fuel as [|fuel]; [lia|]. cbn [queue_loop]. set (src := c :: buf) in *.
  destruct Q as (p & b & Hp & Hd & Hw & Hl & Hq). rewrite Hp, bind_Done, Hd. cbn [of_option]. rewrite bind_Done.
  destruct (write_spec src b Hw) as (b2 & E2 & Hc2 & Hw2 & Hl2). rewrite Hl, Hq, Z.min_l in E2, Hc2 by lia.
  rewrite E2, bind_Done. rewrite to_nat_zlen in *. rewrite firstn_all in Hc2.
  pose proof B as (_ & Hi & _).
  destruct (upd_pipe_runs i (fun p => pipe_d2h p (Some b2)) s K Hi) as (s1 & -> & K1 & E1 & _ & G1 & Ee & Ep & El & _).
  { assert (ring_ok (Some b2)) by (exists b2; split; [done|split; [done|congruence]]). by intros ? (? & ? & ? & ? & ? & ?). }
  rewrite bind_Done, drop_all. cbn [fst snd]. rewrite (zlen_nil (A := Z)). change (0 <? 0) with false. cbn beta iota. rewrite bind_Done.
  exists (sent + zlen src, s1). split; [by destruct fuel|]. cbn [fst snd]. split; [done|].
  split; [by split|]. split; [|done]. rewrite Hp, bind_Done in G1.
  exists (pipe_d2h p (Some b2)), b2. split; [done|]. split; [done|]. split; [done|]. split; congruence.
Qed.

(** A received packet is appended to the pipe's queue. *)
Lemma bulk_out_spec s ep i q bs v s1 :
  usb_ok s -> bulk_ep ep i true -> queue_of s i true q ->
  reg_read (DWC2_DOEPTSIZ (phy ep)) s = (v, s1) ->
  512 - Z.land v 0x7fff = zlen bs -> zlen q + zlen bs < CDC_BUFFER_SIZE ->
  bytes_at (um s1) (dma_page_p (dev s) + ep * DMA_BUFFER_SIZE) bs ->
  runs (usb_dwc2_cdc_handle_bulk_out_xfer_done ep s) (fun s' =>
    keeps s s' /\ queue_of s' i true (q ++ bs) /\ exists e, get_ep ep s' = Done e /\ xfer_in_progress e = false).
Proof.
  intros K B (p & b & Hp & Hd & Hw & Hl & Hq) Hr Hv Hroom Hb. pose proof B as (Hpipe & Hi & Hep).
  unfold usb_dwc2_cdc_handle_bulk_out_xfer_done.
  rewrite (get_ring_pipe s ep i true p B Hp), bind_Done, Hd.
  assert (znth phyEndpoints (if ep =? USB_LEP_CDC_BULK_OUT_2 then USB_LEP_CDC_BULK_OUT_2 else USB_LEP_CDC_BULK_OUT) = Done (phy ep)) as ->.
  { unfold bulk_pipe in Hpipe. revert Hpipe. repeat case_if; b2p; subst; try done. }
  rewrite bind_Done, Hr. pose proof (ev_reg_read_eq _ _ _ _ Hr) as E1. pose proof (evolves_ok _ _ E1 K) as K1.
  pose proof (zlen_nonneg bs). pose proof (zlen_nonneg q). pose proof (contents_length b Hw) as Hlen.
  assert (u32 (512 - Z.land v 32767) = zlen bs) as -> by (rewrite Hv; apply u32_small; unfold CDC_BUFFER_SIZE in *; lia).
  assert (ringbuffer_get_free b = CDC_BUFFER_SIZE - zlen q) as ->.
  { unfold ringbuffer_get_free. rewrite <- Hlen, Hq, Hl. apply u32_small. unfold CDC_BUFFER_SIZE in *. lia. }
  replace (CDC_BUFFER_SIZE - zlen q <? zlen bs) with false by (symmetry; apply Z.ltb_ge; lia).
  destruct (get_ep_runs ep s1 K1 Hep) as (e & -> & He). rewrite bind_Done, He, (ev_page _ _ E1), to_nat_zlen.
  rewrite (load_bytes_spec _ _ _ Hb), bind_Done.
  destruct (write_spec bs b Hw) as (b2 & E2 & Hc2 & Hw2 & Hl2). rewrite Hl, Hq, Z.min_l in E2, Hc2 by lia.
  rewrite to_nat_zlen, firstn_all in Hc2. rewrite E2, bind_Done.
  destruct (put_ring_queue s1 ep i true b2 K1 B Hw2) as (s2 & -> & K2 & _ & Q2 & _); [congruence|]. rewrite bind_Done.
  destruct (upd_ep_runs ep (fun e => ep_progress e false) s2) as (s3 & E3 & V3); [apply K2|done|done|].
  rewrite E3. apply runs_Done. split; [|split].
  - eapply keeps_trans; [apply keeps_evolves; [exact K|exact E1]|]. eapply keeps_trans; [exact K2|]. apply keeps_evolves; [apply K2|done].
  - rewrite Hc2 in Q2. destruct Q2 as (p2 & c2 & G2 & Q2). exists p2, c2. split; [|exact Q2].
    unfold get_pipe in *. by rewrite (ev_pipes _ _ V3).
  - unfold upd_ep in E3. inv_bind E3. inv_bind E3. injection E3 as <-. exists (ep_progress a false). split; [|done].
    destruct (ep_lookup s2 ep (proj1 K2) Hep) as (_ & _ & _ & Hn). rewrite zset_Done in Hrun0 by lia. injection Hrun0 as <-.
    apply znth_Done. split; [lia|]. cbn. apply list_lookup_insert_eq. unfold zlen in Hn. lia.
Qed.

Lemma alloc_both n : ringbuffer_alloc true true n = Some (Ring (replicate (Z.to_nat n) 0) n 0 0).
Proof using Type. reflexivity. Qed.

(** The bring-up succeeds when the core identifies itself and memory is found. *)
Lemma init_returns al regs0 fifo serial (w : W) m :
  (forall x, serial = Some x -> string_ok x) -> al_dev al = true -> al_rings al = replicate 4 (true, true) ->
  (let '(v, _, m') := mmio_read (u32 (regs0 + DWC2_GSNPSID)) w m in Z.land (u32 v) DWC2_GSNPSID_MASK = 0x4f540000 /\ page_ok al m') ->
  exists s, usb_dwc2_init al regs0 fifo serial w m = Done (true, s).
Proof.
  intros Hs Hd Hr Hid.
  unfold usb_dwc2_init. set (s00 := Usb _ fifo serial w m).
  destruct (reg_read DWC2_GSNPSID s00) as [v s0] eqn:E0.
  assert (Z.land v DWC2_GSNPSID_MASK = 0x4f540000 /\ page_ok al (um s0)) as [-> P].
  { revert Hid E0. unfold reg_read. cbn [dev regs uw um s00]. destruct (mmio_read _ w m) as [[x w'] m'].
    intros Hid [= <- <-]. exact Hid. }
  apply ev_reg_read_eq in E0. rewrite Z.eqb_refl, Hd. cbn [negb].
  destruct P as (Hp & Hp2 & Hreg & Hb). replace (al_page al =? 0) with false by (symmetry; apply Z.eqb_neq; lia).
  rewrite store_bytes_u8, bind_Done.
  2:{ rewrite zlen_replicate. by change (Z.of_nat (Z.to_nat DMA_PAGE_SIZE)) with DMA_PAGE_SIZE. }
  assert (mem_grows (um s0) (write_bytes (um s0) (al_page al) (map u8 (replicate (Z.to_nat DMA_PAGE_SIZE) 0)))) as [Gr Gb].
  { eapply store_bytes_grows. apply store_bytes_u8. rewrite zlen_replicate. by change (Z.of_nat (Z.to_nat DMA_PAGE_SIZE)) with DMA_PAGE_SIZE. }
  set (m1 := write_bytes _ _ _) in *. clearbody m1. match goal with |- context [alloc_pipes 2 0 al ?x] => set (s1 := x) end.
  assert (Ring : forall n, (n < 4)%nat -> exists b, ring_of al n = Some b).
  { intros n Hn. exists (Ring (replicate (Z.to_nat CDC_BUFFER_SIZE) 0) CDC_BUFFER_SIZE 0 0). unfold ring_of.
    rewrite Hr. assert (nth n (replicate 4 (true, true)) (false, false) = (true, true)) as ->
      by (do 4 (destruct n as [|n]; [reflexivity|]); lia). exact (alloc_both CDC_BUFFER_SIZE). }
  assert (exists s2, alloc_pipes 2 0 al s1 = Done (true, s2)) as [s2 E2].
  { destruct (Ring 0%nat) as [b0 R0]; [lia|]. destruct (Ring 1%nat) as [b1 R1]; [lia|].
    destruct (Ring 2%nat) as [b2 R2]; [lia|]. destruct (Ring 3%nat) as [b3 R3]; [lia|].
    cbn [alloc_pipes]. change (Z.to_nat (2 * 0)) with 0%nat. change (Z.to_nat (2 * 0 + 1)) with 1%nat.
    change (Z.to_nat (2 * (0 + 1))) with 2%nat. change (Z.to_nat (2 * (0 + 1) + 1)) with 3%nat.
    rewrite R0, R1, R2, R3. by eexists. }
  rewrite E2, bind_Done. cbn [negb].
  apply (alloc_pipes_spec al s1 _ _ true s2 eq_refl) in E2 as (h0 & g0 & h1 & g1 & R0 & R1 & R2 & R3 & E2); [|done].
  assert (usb_ok s2) as K2.
  { rewrite E2. split; try done; cbn.
    - by apply Gr.
    - by apply Gb.
    - by apply buffers_of.
    - eexists _, _. split; [reflexivity|]. split; by repeat split.
    - intros x Hx. apply Hs. by rewrite (ev_serial _ _ E0) in Hx. }
  pose proof (evolves_ok _ _ (ev_init_registers s2) K2) as K3.
  destruct (activate_runs USB_LEP_CTRL_IN 0 64 (init_registers s2)) as ([r s4] & -> & Er & V4); [done|done|by left|].
  cbn [fst snd] in *. subst r. rewrite bind_Done. cbn [negb]. rewrite Z.eqb_refl. cbn [negb].
  destruct (activate_runs USB_LEP_CTRL_OUT 0 64 s4) as ([r s5] & -> & Er & V5); [by eapply evolves_ok|done|by left|].
  cbn [fst snd] in *. subst r. rewrite bind_Done, Z.eqb_refl. cbn [negb]. by eexists.
Qed.

Lemma init_runs al regs0 fifo serial (w : W) m :
  page_ok al m -> (forall x, serial = Some x -> string_ok x) -> al_dev al = true ->
  al_rings al = replicate 4 (true, true) ->
  (let '(v, _, _) := mmio_read (u32 (regs0 + DWC2_GSNPSID)) w m in Z.land (u32 v) DWC2_GSNPSID_MASK = 0x4f540000) ->
  exists s, usb_dwc2_init al regs0 fifo serial w m = Done (true, s) /\ rests s.
Proof.
  intros P Hs Hd Hr Hid. destruct (init_returns al regs0 fifo serial w m Hs Hd Hr) as [s Hi].
  - destruct (mmio_read _ w m) as [[v w'] m'] eqn:E. split; [exact Hid|]. destruct (read_mem _ _ _ _ _ _ E) as [Gr Gb].
    destruct P as (H1 & H2 & H3 & H4). split; [done|]. split; [done|]. split; [by apply Gr|by apply Gb].
  - exists s. split; [done|]. by eapply init_rests.
Qed.

(** The controller delivers a setup packet. *)
Lemma deliver s p :
  rests s -> packet_ok p ->
  let s' := set_hw s (uw s) (write_bytes (um s) (dma_page_p (dev s)) (packet_bytes p)) in
  rests s' /\ packet_at s' p.
Proof using Type.
  intros R Hp s'. pose proof (proj1 R) as K. destruct (ok_page s K) as [P1 P2].
  assert (are_bytes (packet_bytes p)) as Hb.
  { destruct Hp as (? & ? & _). unfold packet_bytes. cbn [app]. constructor; [done|]. constructor; [done|].
    apply Forall_app. split; [apply le_bytes_are_bytes|]. apply Forall_app. split; apply le_bytes_are_bytes. }
  assert (store_bytes (um s) (dma_page_p (dev s)) (packet_bytes p) = Done (um s')) as Hst.
  { apply store_bytes_spec; [done|]. change (zlen (packet_bytes p)) with 8.
    eapply region_sub; [apply (ok_mem s K)|lia..|change DMA_PAGE_SIZE with 32768; lia]. }
  split.
  - eapply rests_evolves; [exact R|]. split; try done. by eapply store_bytes_grows.
  - split; [done|]. change (dma_page_p (dev s')) with (dma_page_p (dev s)). apply bytes_at_write_eq; change DMA_PAGE_SIZE with 32768 in P2; change (zlen (packet_bytes p)) with 8; lia.
Qed.

End stream.

(** ** A controller to run the driver on *)

(** Its registers hold what [w] says and ignore writes; memory is left alone. *)
#[export] Instance fixed_hw : Dwc2Hw (gmap Z Z) := {|
  mmio_read a w m := (default 0 (w !! a), w, m);
  mmio_write _ _ w m := (w, m);
  hw_delay _ w m := (w, m) |}.
#[export] Instance fixed_laws : Dwc2Laws (gmap Z Z).
Proof. split; cbn; intros; simplify_eq; reflexivity. Qed.
Definition core_id : gmap Z Z := {[ DWC2_GSNPSID := 0x4f542000 ]}.

(** [n] zero bytes from [a] on. *)
Fixpoint zeros (n : nat) (a : Z) : mem :=
  match n with O => ∅ | S n' => <[a := 0]> (zeros n' (a + 1)) end.

Lemma zeros_lookup n a k : zeros n a !! k = if (a <=? k) && (k <? a + Z.of_nat n) then Some 0 else None.
Proof.
  revert a. induction n as [|n IH]; intros a; cbn [zeros].
  - rewrite lookup_empty. case_if; [|done]. b2p. lia.
  - rewrite lookup_insert, IH. case_decide as Hk; [bdec; done|].
    destruct (Z.leb_spec a k), (Z.leb_spec (a + 1) k), (Z.ltb_spec k (a + 1 + Z.of_nat n)), (Z.ltb_spec k (a + Z.of_nat (S n))); try done; lia.
Qed.

Definition demo_alloc : usb_alloc := Alloc true 0x10000 (replicate 4 (true, true)).
Definition demo_memory : mem := zeros (Z.to_nat DMA_PAGE_SIZE) 0x10000.
Definition demo_env : usb_env :=
  Env (write_bytes ∅ 0x100 (bytes_of "serial-number" ++ [0] ++ replicate 18 0)) 0x110 0x100 true (bytes_of "v1").

Lemma zeros_region n a : 0 <= n -> 0 <= a -> a + n <= 2 ^ 32 -> region (zeros (Z.to_nat n) a) a n /\ mem_bytes (zeros (Z.to_nat n) a).
Proof.
  intros Hn Ha Hl. split.
  - apply region_intro; [done|]. intros k Hk. split; [|lia]. rewrite zeros_lookup, Z2Nat.id by done. bdec. by eexists.
  - intros k b. rewrite zeros_lookup. case_if; [|done]. by intros [= <-].
Qed.

Lemma demo_memory_lookup k : demo_memory !! k = if (0x10000 <=? k) && (k <? 0x18000) then Some 0 else None.
Proof. unfold demo_memory. by rewrite zeros_lookup, Z2Nat.id by (vm_compute; discriminate). Qed.

Lemma demo_page : page_ok demo_alloc demo_memory.
Proof.
  split; [done|]. split; [vm_compute; discriminate|]. apply zeros_region; vm_compute; discriminate.
Qed.

Lemma demo_env_ok : env_ok demo_env.
Proof. exists str_serial_dummy. vm_compute. reflexivity. Qed.

Lemma demo_init :
  exists s, usb_dwc2_init demo_alloc 0 0 None core_id demo_memory = Done (true, s) /\ rests s.
Proof. apply init_runs; [apply demo_page|discriminate|reflexivity|reflexivity|reflexivity]. Qed.

(** ** The theorems *)
Section theorems.
Context {W : Type} `{HW : Dwc2Hw W} {HL : Dwc2Laws W}.
#[local] Set Default Proof Using "Type*".
Implicit Types (s : usb W).

(** C4: After a bring-up that succeeds, whatever the controller stores and
    answers and whatever calls are made, the driver is in a consistent state:
    its transfer buffers and rings are where they belong, the announced control
    data lie inside their object and fit the buffer, endpoint 0 rests in one of
    six states, and the states of a data stage from the host are never entered. *)
Theorem usb_reachable_rests (env : usb_env) (al : usb_alloc) (regs0 fifo : Z) (serial : option (list Z)) (w : W) (m : mem) (s0 s : usb W) :
  page_ok al m -> (forall x, serial = Some x -> string_ok x) -> env_ok env ->
  usb_dwc2_init al regs0 fifo serial w m = Done (true, s0) ->
  rtc (usb_step env) s0 s ->
  usb_ok s /\ resting (ep0_st (dev s)) = true.
Proof.
  intros P Hs He Hi Hr. apply init_rests in Hi; [|done..].
  induction Hr as [s|s s1 s2 H1 _ IH]; [done|]. apply IH. by eapply usb_step_rests.
Qed.

(** The host takes a control transfer's data in packets of 64 bytes and knows
    its end by a shorter one. *)
Fixpoint usb_packets (fuel : nat) (data : list Z) : list (list Z) :=
  match fuel with
  | O => [data]
  | S fuel' => if zlen data <? 64 then [data] else take 64 data :: usb_packets fuel' (drop 64 data)
  end.

Lemma usb_packets_spec fuel data :
  zlen data < 64 * (Z.of_nat fuel + 1) ->
  concat (usb_packets fuel data) = data /\ zlen (usb_packets fuel data) = zlen data / 64 + 1 /\
  exists init lst, usb_packets fuel data = init ++ [lst] /\ Forall (fun p => zlen p = 64) init /\ zlen lst < 64.
Proof using Type.
  revert data. induction fuel as [|fuel IH]; intros data Hl; pose proof (zlen_nonneg data).
  { cbn [usb_packets concat]. rewrite app_nil_r. split; [done|]. split; [rewrite Z.div_small by lia; done|].
    exists [], data. split; [done|]. split; [constructor|lia]. }
  cbn [usb_packets]. destruct (Z.ltb_spec (zlen data) 64).
  { cbn [concat]. rewrite app_nil_r. split; [done|]. split; [rewrite Z.div_small by lia; done|].
    exists [], data. split; [done|]. split; [constructor|lia]. }
  assert (zlen (drop 64 data) = zlen data - 64) as Hd by (unfold zlen in *; rewrite length_drop; lia).
  destruct (IH (drop 64 data)) as (E1 & E2 & init & lst & E3 & E4 & E5); [lia|].
  split; [cbn [concat]; rewrite E1; apply take_drop|]. split; [rewrite zlen_cons, E2, Hd; lia|].
  exists (take 64 data :: init), lst. rewrite E3. split; [done|]. split; [|done]. constructor; [|done].
  unfold zlen in *. rewrite length_take. lia.
Qed.

(** Opening the second serial port is a write past the end of the DMA page:
    arming its OUT endpoint fills 16 KiB from a buffer of 4 KiB that starts
    8 KiB before the end.  With no memory mapped after the page the driver
    faults, on every controller. *)
Theorem second_pipe_overruns (env : usb_env) (p : setup_packet) (s : usb W) :
  usb_ok s -> packet_at s p ->
  Z.land (bmRequestType p) USB_REQUEST_TYPE_MASK = USB_REQUEST_TYPE_CLASS ->
  bRequest p = USB_REQUEST_CDC_SET_CTRL_LINE_STATE -> has (wValue p) 1 = true -> wIndex p / 2 = 1 ->
  (exists q, queue_of s 1 true q /\ zlen q + XFER_SIZE <= CDC_BUFFER_SIZE) ->
  (exists e, get_ep USB_LEP_CDC_BULK_OUT_2 s = Done e /\ xfer_in_progress e = false) ->
  um s !! u32 (dma_page_p (dev s) + DMA_PAGE_SIZE) = None ->
  usb_dwc2_ep0_handle_setup env s = Fault.
Proof.
  intros K P Ht Hq Hv Hi (q & Hring & Hroom) (e & He & Hx) Hnone. unfold usb_dwc2_ep0_handle_setup.
  destruct (get_ep_runs USB_LEP_CTRL_OUT s K) as (e0 & -> & Hb0); [done|]. rewrite bind_Done.
  assert (xfer_buffer e0 = dma_page_p (dev s)) as -> by (rewrite Hb0; unfold USB_LEP_CTRL_OUT; lia).
  destruct (packet_fields s p (dma_page_p (dev s)) P eq_refl) as (F0 & F1 & F2 & _ & _ & F4 & _).
  rewrite F0, bind_Done, Ht. change (USB_REQUEST_TYPE_CLASS =? USB_REQUEST_TYPE_STANDARD) with false.
  rewrite Z.eqb_refl. unfold usb_dwc2_ep0_handle_class. rewrite F4, bind_Done, Hi. change (CDC_ACM_PIPE_MAX <=? 1) with false.
  cbn beta iota. rewrite F1, bind_Done, Hq. change (USB_REQUEST_CDC_SET_CTRL_LINE_STATE =? USB_REQUEST_CDC_GET_LINE_CODING) with false.
  rewrite Z.eqb_refl. cbn beta iota. rewrite F2, bind_Done. unfold has in Hv. rewrite Hv. cbn beta iota.
  destruct (upd_pipe_runs 1 (fun p => pipe_ready p false) s K) as (s1 & -> & K1 & _ & M1 & G1 & E1 & D1 & _); [lia|intros; by apply pipe_ok_ready|].
  rewrite bind_Done.
  destruct (upd_pipe_runs 1 (fun p => pipe_ready p true) s1 K1) as (s2 & -> & K2 & _ & M2 & G2 & E2 & D2 & _); [lia|intros; by apply pipe_ok_ready|].
  rewrite bind_Done. change (1 =? 1) with true. cbn beta iota.
  unfold usb_dwc2_cdc_start_bulk_out_xfer. unfold get_ep in *. rewrite E2, E1, He, bind_Done, Hx.
  destruct Hring as (pp & b & Hp & Hh & Hw & Hl & Hc). rewrite Hp, bind_Done in G1. rewrite G1, bind_Done in G2.
  rewrite (get_ring_pipe s2 USB_LEP_CDC_BULK_OUT_2 1 true _ ltac:(by repeat split) G2), bind_Done.
  cbn [host2device pipe_ready]. rewrite Hh.
  assert (ringbuffer_get_free b = CDC_BUFFER_SIZE - zlen q) as ->.
  { pose proof (contents_length b Hw) as Hn. pose proof (zlen_nonneg q). unfold ringbuffer_get_free. rewrite <- Hn, Hc, Hl.
    apply u32_small. unfold CDC_BUFFER_SIZE, XFER_SIZE in *. lia. }
  replace (CDC_BUFFER_SIZE - zlen q <? XFER_SIZE) with false by (symmetry; apply Z.ltb_ge; lia).
  destruct (ep_lookup s USB_LEP_CDC_BULK_OUT_2 K) as (e' & He' & Hb & _); [done|].
  assert (e' = e) as -> by (apply znth_Done in He as [_ He]; congruence).
  assert (store_bytes (um s2) (xfer_buffer e) (replicate (Z.to_nat XFER_SIZE) 0xaa) = Fault) as ->; [|done].
  apply store_bytes_overrun with (k := 8192).
  - rewrite zlen_replicate. unfold XFER_SIZE. lia.
  - rewrite Hb, M2, M1. change DMA_PAGE_SIZE with 32768 in Hnone. change (USB_LEP_CDC_BULK_OUT_2 * DMA_BUFFER_SIZE) with 24576.
    by replace (dma_page_p (dev s) + 24576 + 8192) with (dma_page_p (dev s) + 32768) by lia.
Qed.

(** C24: Bytes written to an open pipe whose ring has room are all accepted; with
    the endpoint idle, the oldest bytes of the pipe, up to 16 KiB, are in the
    buffer when the IN endpoint is armed for exactly them, and what stays in the
    ring is the rest, in order.  This holds when these bytes end inside the DMA
    page: always for the first pipe, whose buffer begins 16 KiB before its end,
    but for the second only when no more than 4 KiB are pending, as its buffer
    is the last 4 KiB of the page.  The packet count is that of the data, plus
    one when the last control transfer, not this one, was a multiple of 512
    bytes. *)
Theorem usb_write_stream (fuel : nat) (env : usb_env) (i : Z) (buf q : list Z) (s : usb W) (p : acm_pipe) (e : dwc2_endpoint) :
  usb_ok s -> get_pipe i s = Done p -> ready p = true -> queue_of s i false q ->
  get_ep (ep_in p) s = Done e -> xfer_in_progress e = false ->
  are_bytes (q ++ buf) -> q ++ buf <> [] -> zlen q + zlen buf < CDC_BUFFER_SIZE -> (0 < fuel)%nat ->
  let sent := take (Z.to_nat XFER_SIZE) (q ++ buf) in
  ep_in p * DMA_BUFFER_SIZE + zlen sent <= DMA_PAGE_SIZE ->
  exists s', usb_dwc2_write fuel env i buf (Some s) = Done (zlen buf, Some s') /\ usb_ok s' /\
    queue_of s' i false (drop (Z.to_nat XFER_SIZE) (q ++ buf)) /\
    sends (ep_in p) sent (bulk_packets (dev s) (zlen sent)) s'.
Proof.
  intros K Hp Hr Q He Hx Hb Hne Hroom Hf sent Hfit. pose proof (get_pipe_range _ _ _ K Hp) as Hi.
  assert (bulk_ep (ep_in p) i false) as B.
  { destruct (get_pipe_ok s i K Hi) as (p' & Hp' & _ & _ & _ & _ & _ & Hn). rewrite Hp in Hp'. injection Hp' as <-. rewrite Hn.
    assert (i = 0 \/ i = 1) as [-> | ->] by lia; by repeat split. }
  unfold usb_dwc2_write. rewrite Hp, bind_Done. unfold usb_dwc2_queue, with_dev. rewrite Hp, !bind_Done, Hr. cbn [negb].
  rewrite decide_False.
  2:{ destruct Q as (p' & b & Hp' & Hd & _). rewrite Hp in Hp'. injection Hp' as <-. by rewrite Hd. }
  destruct (queue_room fuel env s i (ep_in p) q buf 0 K B Q Hf Hroom) as ([n s1] & -> & En & K1 & Q1 & E1 & L1 & _).
  cbn [fst snd] in *. rewrite !bind_Done. cbn [of_option]. rewrite bind_Done. rewrite Z.add_0_l in En. subst n.
  assert (get_ep (ep_in p) s1 = Done e) as He1 by (unfold get_ep in *; by rewrite E1).
  pose proof (start_bulk_in_spec s1 (ep_in p) i (q ++ buf) e (proj1 K1) B Q1 Hne Hb He1 Hx) as L. subst sent.
  cbv zeta in L. revert L Hfit. generalize (Z.to_nat XFER_SIZE). intros N L Hfit. destruct (L Hfit) as (s2 & -> & K2 & Q2 & S2).
  rewrite bind_Done. exists s2. split; [done|]. split; [apply K2|]. split; [done|].
  unfold bulk_packets in *. by rewrite <- L1.
Qed.

(** C35: A completed OUT transfer appends exactly the received bytes, those the
    residue in the size register leaves of 512, to the pipe's input queue, when
    the ring has room for them, and releases the endpoint. *)
Theorem usb_bulk_receive (s s1 : usb W) (ep i v : Z) (q bs : list Z) :
  usb_ok s -> bulk_ep ep i true -> queue_of s i true q ->
  reg_read (DWC2_DOEPTSIZ (phy ep)) s = (v, s1) ->
  512 - Z.land v 0x7fff = zlen bs -> zlen q + zlen bs < CDC_BUFFER_SIZE ->
  bytes_at (um s1) (dma_page_p (dev s) + ep * DMA_BUFFER_SIZE) bs ->
  exists s', usb_dwc2_cdc_handle_bulk_out_xfer_done ep s = Done s' /\ usb_ok s' /\
    queue_of s' i true (q ++ bs) /\ exists e, get_ep ep s' = Done e /\ xfer_in_progress e = false.
Proof.
  intros K B Q Hr Hv Hroom Hb. destruct (bulk_out_spec s ep i q bs v s1 K B Q Hr Hv Hroom Hb) as (s' & E & [K' _] & Q' & He).
  by exists s'.
Qed.

(** C36: A setup packet that arrives while endpoint 0 is not waiting for one, as
    when the host gives up a transfer half-way, fails the assertion of the
    interrupt handler, which reboots. *)
Theorem setup_in_data_stage_panics (env : usb_env) (s : usb W) :
  ep0_st (dev s) <> USB_DWC2_EP0_STATE_SETUP_HANDLE -> ep0_st (dev s) <> USB_DWC2_EP0_STATE_SETUP_PENDING ->
  has (fst (reg_read (DWC2_DOEPINT 0) s)) DWC2_DOEPINT_SETUP = true ->
  ep0_out_interrupt env s = Panic.
Proof.
  intros H1 H2 Hi. unfold ep0_out_interrupt, take_int. destruct (reg_read (DWC2_DOEPINT 0) s) as [v s0] eqn:E.
  cbn [fst] in Hi. apply ev_reg_read_eq in E. pose proof (evolves_st _ (reg_write (DWC2_DOEPINT 0) v s0) _ (ev_trans_l _ _ _ E (ev_reg_write _ _ _)) eq_refl) as St.
  rewrite St, Hi, orb_true_r. cbn [andb]. rewrite (bool_decide_eq_false_2 (ep0_st (dev s) = _)) by done.
  rewrite St. by rewrite bool_decide_eq_false_2.
Qed.

End theorems.

(** ** Answers on endpoint 0 *)
Section answers.
Context {W : Type} {HW : Dwc2Hw W} {HL : Dwc2Laws W}.
#[local] Set Default Proof Using "Type*".
#[local] Instance answers_hw : Dwc2Hw (W * list (Z * Z)) := logged HW.
#[local] Instance answers_laws : Dwc2Laws (W * list (Z * Z)) := logged_laws HW HL.
Implicit Types (s : usb (W * list (Z * Z))).

(** What an answer is on the bus: the state endpoint 0 goes to and the registers
    that are written.  The data of a reply are in the buffer when it is armed. *)
Definition replied (p : setup_packet) (r : reply) s s' : Prop :=
  let b := regs (dev s) in
  let page := dma_page_p (dev s) in
  match r with
  | R_stall => ep0_st (dev s') = USB_DWC2_EP0_STATE_SETUP_HANDLE /\
      exists x y, log_of s' = log_of s ++ stall_writes b x ++ setup_writes b page y
  | R_status => ep0_st (dev s') = USB_DWC2_EP0_STATE_DATA_SEND_STATUS_DONE /\
      exists own x y, own_writes b p own /\ log_of s' = log_of s ++ own ++ send_writes b page 0 1 x y
  | R_data bs => ep0_st (dev s') = USB_DWC2_EP0_STATE_DATA_SEND_DONE /\
      (exists x y, log_of s' = log_of s ++ send_writes b page (zlen bs) (zlen (usb_packets 4 bs)) x y) /\
      exists s1 s2, usb_ok s1 /\ log_of s1 = log_of s /\ bytes_at (um s1) (page + 4096) bs /\
        usb_dwc2_ep_hw_send USB_LEP_CTRL_IN (zlen bs) (zlen (usb_packets 4 bs)) s1 = Done s2 /\
        s' = set_state s2 USB_DWC2_EP0_STATE_DATA_SEND_DONE
  end.

(** The packets of a data reply are its data, and only the last is short. *)
Definition ended (r : reply) : Prop :=
  forall bs, r = R_data bs -> concat (usb_packets 4 bs) = bs /\
    exists init lst, usb_packets 4 bs = init ++ [lst] /\ Forall (fun p => zlen p = 64) init /\ zlen lst < 64.

Lemma answered_length bs s : answered (R_data bs) s -> zlen bs = ep0_buffer_len (dev s) /\ 0 <= zlen bs <= 255.
Proof using Type.
  intros [K (_ & x & Ho & Hx)]. destruct (ok_source s K) as [Hr _].
  destruct (object_runs s K) as (y & Hy & _ & Hl); [intros Hn; unfold ep0_object in Ho; by rewrite Hn in Ho|].
  rewrite Ho in Hy. injection Hy as <-. assert (zlen bs = ep0_buffer_len (dev s)); [|lia].
  rewrite <- Hx. unfold zlen in *. rewrite length_take. lia.
Qed.

Lemma reply_ended r s : answered r s -> ended r.
Proof using Type.
  intros A bs ->. apply answered_length in A. destruct (usb_packets_spec 4 bs) as (E & _ & Hl); [lia|done].
Qed.

Lemma stall_reply p s s1 : answered R_stall s1 -> told p s s1 ->
  runs (usb_dwc2_ep0_handle_xfer_not_ready s1) (fun s' => usb_ok s' /\ replied p R_stall s s').
Proof.
  intros [K A] T. cbn in A. unfold told in T. rewrite A in T. destruct T as (x & L1 & R1 & P1).
  unfold usb_dwc2_ep0_handle_xfer_not_ready. rewrite A.
  destruct (setup_phase_runs s1 K) as (s2 & E2 & V2). rewrite E2, bind_Done.
  destruct (did_setup_phase s1 K ltac:(congruence) s2 E2) as (l & (y & ->) & K2 & L2 & _).
  apply runs_Done. split; [by apply set_state_ok; [|by split]|]. split; [done|]. exists x, y.
  change (log_of (set_state s2 USB_DWC2_EP0_STATE_SETUP_HANDLE)) with (log_of s2). by rewrite L2, L1, R1, P1, app_assoc.
Qed.

Lemma status_reply p s s1 : answered R_status s1 -> told p s s1 ->
  runs (usb_dwc2_ep0_handle_xfer_not_ready s1) (fun s' => usb_ok s' /\ replied p R_status s s').
Proof.
  intros [K A] T. unfold told in T. unfold usb_dwc2_ep0_handle_xfer_not_ready. destruct A as [A | A]; rewrite A in *.
  - destruct T as (own & Ho & L1 & R1 & P1). destruct (ack_runs s1 K) as (s2 & E2 & K2 & _). rewrite E2.
    destruct (did_ack s1 _ K R1 s2 E2) as (St & x & y & _ & L2 & _). apply runs_Done. split; [done|]. split; [done|].
    exists own, x, y. split; [done|]. by rewrite L2, L1, P1, app_assoc.
  - destruct T as (own & x & y & Ho & L1 & _). apply runs_Done. split; [done|]. split; [done|]. by exists own, x, y.
Qed.

Lemma data_reply p bs s s1 : answered (R_data bs) s1 -> told p s s1 ->
  runs (usb_dwc2_ep0_handle_xfer_not_ready s1) (fun s' => usb_ok s' /\ replied p (R_data bs) s s').
Proof.
  intros A0 T. destruct (answered_length bs s1 A0) as [Hlen Hbs]. destruct A0 as [K (A & x & Ho & Hx)].
  unfold told in T. rewrite A in T. destruct T as (L1 & R1 & P1). rewrite app_nil_r in L1.
  unfold usb_dwc2_ep0_handle_xfer_not_ready. rewrite A.
  destruct (object_runs s1 K) as (y & Hy & Hb & Hl); [intros Hn; unfold ep0_object in Ho; by rewrite Hn in Ho|].
  rewrite Ho in Hy. injection Hy as <-.
  destruct (data_send_runs s1 x K Ho Hb Hl) as (s2 & E2 & [Hat H2] & ->). rewrite Hx, P1 in Hat.
  assert (usb_ok s2) as K2 by by eapply evolves_ok.
  rewrite <- Hlen. destruct (usb_packets_spec 4 bs) as (_ & Hk & _); [lia|]. rewrite <- Hk.
  assert (0 <= zlen (usb_packets 4 bs) < 2 ^ 13) as Hk2 by lia.
  destruct (hw_send_runs USB_LEP_CTRL_IN (zlen bs) (zlen (usb_packets 4 bs)) s2 K2) as (s3 & E3 & V3); [done|].
  destruct (did_send (zlen bs) (zlen (usb_packets 4 bs)) s2 K2 ltac:(lia) Hk2 s3 E3) as (l & (u & v & ->) & _ & L3 & _).
  rewrite E3, bind_Done. apply runs_Done. split; [apply set_state_ok; [by eapply evolves_ok|by split]|].
  assert (log_of s2 = log_of s) as L2 by (rewrite H2; exact L1).
  assert (regs (dev s2) = regs (dev s)) as R2 by (rewrite H2; exact R1).
  assert (dma_page_p (dev s2) = dma_page_p (dev s)) as P2 by (rewrite H2; exact P1).
  split; [done|]. split; [exists u, v|by exists s2, s3].
  change (log_of (set_state s3 USB_DWC2_EP0_STATE_DATA_SEND_DONE)) with (log_of s3). by rewrite L3, L2, R2, P2.
Qed.

(** C6: A control request delivered to a resting device is answered as the
    abstract device [reply_to] answers it, on every controller and for every
    request but the two the driver does not survive.  A request it refuses
    writes the stall bit of endpoint 0's control register and then arms the
    endpoint for one setup packet of 64 bytes in its buffer, and nothing else.
    A request without data first makes its own register writes (the new address
    in DCFG; the stall bit of the named endpoint cleared; none for
    configuration 0 or a closed line; whatever configuration 1 and an opened
    line need) and then sends an empty packet on the IN side.  A request with
    data only arms the IN side, when its buffer holds exactly the bytes due,
    with their length and with the number of packets it takes to end with a
    short one. *)
Theorem ep0_request_correct (env : usb_env) (serial : list Z) (p : setup_packet) (s : usb (W * list (Z * Z))) (r : reply) :
  usb_ok s -> packet_at s p -> serial_known env s serial -> ep0_st (dev s) = USB_DWC2_EP0_STATE_SETUP_HANDLE ->
  reply_to env serial p = Some r ->
  exists s', (s1 ← usb_dwc2_ep0_handle_xfer_done env s; usb_dwc2_ep0_handle_xfer_not_ready s1) = Done s' /\
             usb_ok s' /\ replied p r s s' /\ ended r.
Proof.
  intros K P Hs St Hr. unfold usb_dwc2_ep0_handle_xfer_done. rewrite St.
  destruct (handle_setup_runs env serial p s r K P Hs Hr) as (s1 & E1 & A).
  pose proof (handle_setup_told env serial p s r K P Hr s1 E1) as T. rewrite E1, bind_Done.
  assert (runs (usb_dwc2_ep0_handle_xfer_not_ready s1) (fun s' => usb_ok s' /\ replied p r s s')) as (s' & E' & K' & R').
  { destruct r; [by apply stall_reply|by apply status_reply|by apply data_reply]. }
  exists s'. split; [done|]. split; [done|]. split; [done|by eapply reply_ended].
Qed.
End answers.

(** ** Transmit FIFOs *)

(** The FIFO window that a write to the register at [off] programs: its number
    (-1 for the receive FIFO, 0 for endpoint 0's), start and depth in words. *)
Definition window (off v : Z) : option (Z * Z * Z) :=
  if off =? 0x024 then Some (-1, 0, v)
  else if off =? 0x028 then Some (0, v mod 65536, v / 65536)
  else if (0x104 <=? off) && (off <? 0x120) then Some ((off - 0x100) / 4, v mod 65536, v / 65536)
  else None.

(** The windows programmed by a log, and where the last one of a number lies. *)
Definition windows (base : Z) (l : list (Z * Z)) : list (Z * Z * Z) := omap (fun p => window (fst p - base) (snd p)) l.
Definition programmed (l : list (Z * Z * Z)) (n : Z) : option (Z * Z) :=
  (fun x => (snd (fst x), snd x)) <$> last (filter (fun x => fst (fst x) = n) l).

Section fifos.
Context {W : Type} {HW : Dwc2Hw W}.
#[local] Set Default Proof Using "Type*".
#[local] Instance fifos_hw : Dwc2Hw (W * list (Z * Z)) := logged HW.
Implicit Types (s : usb (W * list (Z * Z))).

Definition fifos s : list (Z * Z * Z) := windows (regs (dev s)) (log_of s).

(** The registers lie in the address space, and the FIFO state is [l], [f]. *)
Definition fifo_state s (l : list (Z * Z * Z)) (f : Z) : Prop :=
  0 <= regs (dev s) /\ regs (dev s) + 0x1000 <= 2 ^ 32 /\ fifos s = l /\ next_tx_fifo_addr s = f /\
  zlen (endpoints (dev s)) = 8.

Lemma fifo_read off s l f : fifo_state s l f -> fifo_state (snd (reg_read off s)) l f /\ dev (snd (reg_read off s)) = dev s.
Proof.
  unfold reg_read. destruct (mmio_read _ (uw s) (um s)) as [[v w] m] eqn:E. cbn in E.
  destruct (mmio_read (Dwc2Hw := HW) _ (fst (uw s)) (um s)) as [[v' w'] m']. injection E as <- <- <-. done.
Qed.

Lemma fifo_write off v s l f :
  0 <= off < 0x1000 -> fifo_state s l f ->
  fifo_state (reg_write off v s) (l ++ option_list (window off (u32 v))) f /\ dev (reg_write off v s) = dev s.
Proof.
  intros Ho (H1 & H2 & H3 & H4 & H5). unfold reg_write. destruct (mmio_write _ _ (uw s) (um s)) as [w m] eqn:E. cbn in E.
  destruct (mmio_write (Dwc2Hw := HW) _ _ (fst (uw s)) (um s)) as [w' m']. injection E as <- <-. split; [|done].
  split; [done|]. split; [done|]. split; [|done]. unfold fifos, windows, log_of in *. cbn. rewrite omap_app, H3. f_equal. cbn.
  rewrite u32_small by lia. replace (regs (dev s) + off - regs (dev s)) with off by lia. by destruct (window off (u32 v)).
Qed.

Lemma fifo_write_other off v s l f :
  0 <= off < 0x1000 -> 0x120 <= off \/ off < 0x024 -> fifo_state s l f ->
  fifo_state (reg_write off v s) l f /\ dev (reg_write off v s) = dev s.
Proof.
  intros Ho Hb Hs. destruct (fifo_write off v s l f Ho Hs) as [H1 H2]. split; [|done].
  assert (window off (u32 v) = None) as Hw; [|by rewrite Hw, app_nil_r in H1].
  unfold window. bdec. destruct Hb; bdec; by rewrite ?andb_false_r.
Qed.

Lemma fifo_set32 off v s l f :
  0 <= off < 0x1000 -> 0x120 <= off \/ off < 0x024 -> fifo_state s l f -> fifo_state (reg_set32 off v s) l f /\ dev (reg_set32 off v s) = dev s.
Proof.
  intros Ho Hb Hs. unfold reg_set32. destruct (fifo_read off s l f Hs) as [H1 H2]. destruct (reg_read off s) as [x s1]. cbn [snd] in *.
  destruct (fifo_write_other off (Z.lor x v) s1 l f) as [H3 H4]; [done..|]. split; [done|congruence].
Qed.

Lemma fifo_upd_ep i g s l f : fifo_state s l f -> 0 <= i < 8 ->
  runs (upd_ep i g s) (fun s' => fifo_state s' l f /\ pipes (dev s') = pipes (dev s) /\ regs (dev s') = regs (dev s)).
Proof.
  intros (H1 & H2 & H3 & H4 & H5) Hi. unfold upd_ep, get_ep. destruct (znth_lt (endpoints (dev s)) i) as [e ->]; [lia|].
  rewrite bind_Done, zset_Done, bind_Done by lia. apply runs_Done. split; [|done].
  repeat split; try done. cbn. unfold zlen in *. by rewrite length_insert.
Qed.

(** Activating an IN endpoint gives it the next window; an OUT one takes none.
    For endpoint 0 the register that is written is not one of these. *)
Definition own_window (pep f : Z) : list (Z * Z * Z) := if pep =? 0 then [] else [(pep, f, TX_FIFO_SIZE)].

Lemma fifo_activate ep type n s l f :
  fifo_state s l f -> 0 <= ep < 8 -> type = 0 \/ type = 2 \/ type = 3 -> 0 <= f -> (dir_in (phy ep) = true -> f + TX_FIFO_SIZE <= 65536) ->
  runs (usb_dwc2_ep_activate ep type n s) (fun r => pipes (dev (snd r)) = pipes (dev s) /\
    if dir_in (phy ep) then fifo_state (snd r) (l ++ own_window (Z.land (phy ep) 0xf) f) (f + TX_FIFO_SIZE)
    else fifo_state (snd r) l f).
Proof.
  intros Hs Hep Ht Hf Hf2. unfold usb_dwc2_ep_activate. rewrite phy_Done, bind_Done by done.
  eapply runs_bind; [by apply fifo_upd_ep|]. intros s1 (S1 & P1 & R1).
  assert (negb (type =? DWC2_EP_TYPE_CONTROL) && negb (type =? DWC2_EP_TYPE_BULK)
          && negb (type =? DWC2_EP_TYPE_INTR) = false) as ->
    by (destruct Ht as [-> | [-> | ->]]; reflexivity).
  assert (0 <= Z.land (phy ep) 0xf < 8) as Hpep.
  { assert (ep = 0 \/ ep = 1 \/ ep = 2 \/ ep = 3 \/ ep = 4 \/ ep = 5 \/ ep = 6 \/ ep = 7) as Hc by lia.
    repeat destruct Hc as [-> | Hc]; [..|subst ep]; vm_compute; repeat split; congruence. }
  set (pep := Z.land (phy ep) 0xf) in *. cbn beta iota zeta.
  destruct (dir_in (phy ep)) eqn:Hd; cbn beta iota zeta.
  - specialize (Hf2 eq_refl). destruct (fifo_write_other (DWC2_DIEPCTL pep) 0 s1 l f) as [S2 D2]; [unfold DWC2_DIEPCTL; lia..|done|].
    set (s2 := reg_write (DWC2_DIEPCTL pep) 0 s1) in *.
    assert (next_tx_fifo_addr s2 = f) as -> by apply S2.
    set (v := Z.lor (Z.shiftl TX_FIFO_SIZE 16) f).
    assert (v = f + 65536 * TX_FIFO_SIZE) as Ev.
    { unfold v. rewrite Z.lor_comm, Z.shiftl_mul_pow2 by lia. rewrite (Z.mul_comm TX_FIFO_SIZE). apply (lor_disjoint f 16); [lia|].
      unfold TX_FIFO_SIZE, BULK_EP_MAX_PACKET_SIZE in *. lia. }
    destruct (fifo_write (DWC2_DTXFSIZ pep) v s2 l f) as [S3 D3]; [unfold DWC2_DTXFSIZ; lia|done|].
    set (s3 := reg_write (DWC2_DTXFSIZ pep) v s2) in *.
    assert (option_list (window (DWC2_DTXFSIZ pep) (u32 v)) = own_window pep f) as Ew.
    { rewrite Ev. change TX_FIFO_SIZE with 256 in *. rewrite u32_small by lia. unfold window, own_window, DWC2_DTXFSIZ in *. change TX_FIFO_SIZE with 256.
      bdec. destruct (Z.eqb_spec pep 0) as [-> | ?]; [reflexivity|]. bdec. cbn [andb].
      assert ((260 + 4 * (pep - 1) - 256) / 4 = pep) as -> by lia.
      assert ((f + 65536 * 256) mod 65536 = f /\ (f + 65536 * 256) / 65536 = 256) as [-> ->] by lia. done. }
    rewrite Ew in S3. assert (next_tx_fifo_addr s3 = f) as -> by apply S3.
    assert (u32 (f + TX_FIFO_SIZE) = f + TX_FIFO_SIZE) as -> by (change TX_FIFO_SIZE with 256 in *; apply u32_small; lia).
    set (s4 := set_fifo s3 (f + TX_FIFO_SIZE)).
    assert (fifo_state s4 (l ++ own_window pep f) (f + TX_FIFO_SIZE)) as S4.
    { destruct S3 as (? & ? & ? & ? & ?). by repeat split. }
    apply runs_Done. cbn [snd].
    match goal with |- context [reg_set32 DWC2_DAINTMSK ?x (if ?c then ?a else s4)] =>
      assert (fifo_state (if c then a else s4) (l ++ own_window pep f) (f + TX_FIFO_SIZE) /\ pipes (dev (if c then a else s4)) = pipes (dev s1)) as [S5 P5]
    end.
    { assert (pipes (dev s4) = pipes (dev s1)) as P4 by (cbn; rewrite D3, D2; done).
      case_if; [|done]. match goal with |- context [reg_write ?o ?x s4] => destruct (fifo_write_other o x s4 _ _ ltac:(unfold DWC2_DIEPCTL; lia) ltac:(unfold DWC2_DIEPCTL; lia) S4) as [S5 D5] end.
      split; [done|]. by rewrite D5. }
    match goal with |- context [reg_set32 DWC2_DAINTMSK ?x ?a] => destruct (fifo_set32 DWC2_DAINTMSK x a _ _ ltac:(unfold DWC2_DAINTMSK; lia) ltac:(unfold DWC2_DAINTMSK; lia) S5) as [S6 D6] end.
    rewrite D6. split; [congruence|done].
  - destruct (fifo_write_other (DWC2_DOEPCTL pep) 0 s1 l f) as [S2 D2]; [unfold DWC2_DOEPCTL; lia..|done|].
    set (s2 := reg_write (DWC2_DOEPCTL pep) 0 s1) in *. apply runs_Done. cbn [snd].
    match goal with |- context [reg_set32 DWC2_DAINTMSK ?x (if ?c then ?a else s2)] =>
      assert (fifo_state (if c then a else s2) l f /\ pipes (dev (if c then a else s2)) = pipes (dev s1)) as [S5 P5]
    end.
    { case_if; [|by rewrite D2].
      match goal with |- context [reg_write ?o ?x s2] => destruct (fifo_write_other o x s2 _ _ ltac:(unfold DWC2_DOEPCTL; lia) ltac:(unfold DWC2_DOEPCTL; lia) S2) as [S5 D5] end.
      split; [done|]. by rewrite D5, D2. }
    match goal with |- context [reg_set32 DWC2_DAINTMSK ?x ?a] => destruct (fifo_set32 DWC2_DAINTMSK x a _ _ ltac:(unfold DWC2_DAINTMSK; lia) ltac:(unfold DWC2_DAINTMSK; lia) S5) as [S6 D6] end.
    rewrite D6. split; [congruence|done].
Qed.

(** ** A bus reset and the selection of a configuration *)

(** What neither programs a window nor changes the pipes. *)
Definition quiet s s' : Prop :=
  (forall l f, fifo_state s l f -> fifo_state s' l f) /\ pipes (dev s') = pipes (dev s).

Lemma quiet_refl s : quiet s s.
Proof using Type. by split. Qed.

Lemma quiet_trans s1 s2 s3 : quiet s1 s2 -> quiet s2 s3 -> quiet s1 s3.
Proof using Type. intros [F1 P1] [F2 P2]. split; [auto|congruence]. Qed.

Lemma quiet_read off s v s' : reg_read off s = (v, s') -> quiet s s'.
Proof.
  intros E. split.
  - intros l f Hs. destruct (fifo_read off s l f Hs) as [H _]. by rewrite E in H.
  - unfold reg_read in E. destruct (mmio_read _ _ _) as [[? ?] ?]. by injection E as <- <-.
Qed.

Lemma quiet_write off v s : 0 <= off < 0x1000 -> 0x120 <= off \/ off < 0x024 -> quiet s (reg_write off v s).
Proof.
  intros. split; [intros; by apply fifo_write_other|]. unfold reg_write. by destruct (mmio_write _ _ _ _).
Qed.

Lemma quiet_set32 off v s : 0 <= off < 0x1000 -> 0x120 <= off \/ off < 0x024 -> quiet s (reg_set32 off v s).
Proof.
  intros. unfold reg_set32. destruct (reg_read off s) as [x s1] eqn:E. apply quiet_read in E.
  eapply quiet_trans; [exact E|by apply quiet_write].
Qed.

Lemma quiet_wait fuel off bits s : safe (wait_bits fuel off bits s) (quiet s).
Proof.
  revert s. induction fuel as [|fuel IH]; intros s; cbn [wait_bits]; [done|].
  destruct (reg_read off s) as [x s1] eqn:E. apply quiet_read in E. case_if; [by apply safe_Done|].
  eapply safe_mono; [apply IH|]. intros. by eapply quiet_trans.
Qed.

Lemma quiet_upd_ep i g s : safe (upd_ep i g s) (quiet s).
Proof.
  intros s' Hs. pose proof Hs as Hr. unfold upd_ep in Hs. inv_bind Hs. inv_bind Hs. injection Hs as <-. split; [|done].
  intros l f S0. apply znth_Done in Hrun as [? Hrun]. apply lookup_lt_Some in Hrun.
  destruct (fifo_upd_ep i g s l f S0) as (s2 & E2 & S2 & _); [destruct S0 as (_ & _ & _ & _ & ?); unfold zlen in *; lia|].
  rewrite E2 in Hr. by injection Hr as ->.
Qed.

Lemma phy_pep_range i pep : znth phyEndpoints i = Done pep -> 0 <= Z.land pep 0xf < 8 /\ (dir_in pep = false -> 0 <= pep < 8).
Proof using Type.
  intros Hp. apply znth_Done in Hp as [_ Hp]. apply list_elem_of_lookup_2 in Hp. unfold phyEndpoints in Hp.
  repeat (apply elem_of_cons in Hp as [-> | Hp]; [vm_compute; intuition discriminate|]). by apply elem_of_nil in Hp.
Qed.

Ltac off_ok := unfold DWC2_DIEPCTL, DWC2_DOEPCTL, DWC2_DIEPINT, DWC2_DOEPINT, DWC2_GINTSTS, DWC2_DCTL, DWC2_DIEPDMA, DWC2_DOEPDMA, DWC2_DIEPTSIZ, DWC2_DOEPTSIZ in *; lia.
Ltac quiet_step :=
  first [ assumption | apply quiet_refl
        | eapply quiet_trans; [|apply quiet_set32; off_ok] | eapply quiet_trans; [|apply quiet_write; off_ok]
        | eapply quiet_trans; [|eassumption] ].
Ltac quiets := repeat quiet_step.

Lemma quiet_abort fuel ep s : safe (usb_dwc2_ep_abort fuel ep s) (quiet s).
Proof.
  unfold usb_dwc2_ep_abort. eapply safe_bind; [apply quiet_upd_ep|]. intros s1 Q1.
  eapply (safe_bind _ _ (fun pep => znth phyEndpoints ep = Done pep)); [by intros ? ?|]. intros pep Hp.
  apply phy_pep_range in Hp as [Hp1 Hp2]. destruct (dir_in pep).
  - destruct (reg_read (DWC2_DIEPCTL _) s1) as [c s2] eqn:E. apply quiet_read in E.
    eapply (safe_bind _ _ (quiet s)).
    { case_if; [|apply safe_Done; quiets]. eapply safe_mono; [apply quiet_wait|]. intros s3 Q3. quiets. }
    intros s3 Q3. destruct (reg_read (DWC2_DIEPINT _) s3) as [i s4] eqn:E4. apply quiet_read in E4. apply safe_Done. quiets.
  - specialize (Hp2 eq_refl). destruct (reg_read (DWC2_DOEPCTL _) s1) as [c s2] eqn:E. apply quiet_read in E.
    eapply (safe_bind _ _ (quiet s)).
    { case_if; [|apply safe_Done; quiets]. eapply safe_bind; [apply quiet_wait|]. intros s3 Q3.
      eapply safe_bind; [apply quiet_wait|]. intros s4 Q4. apply safe_Done. quiets. }
    intros s3 Q3. destruct (reg_read (DWC2_DOEPINT _) s3) as [i s4] eqn:E4. apply quiet_read in E4. apply safe_Done. quiets.
Qed.

Lemma quiet_abort_from n fuel i s : safe (abort_from n fuel i s) (quiet s).
Proof.
  revert i s. induction n as [|n IH]; intros i s; cbn [abort_from]; [apply safe_Done, quiet_refl|].
  eapply safe_bind; [apply quiet_abort|]. intros s1 Q1. eapply safe_mono; [apply IH|]. intros. by eapply quiet_trans.
Qed.

Lemma fifo_writes ws s l f :
  Forall (fun p => 0 <= fst p < 0x1000) ws -> fifo_state s l f ->
  fifo_state (reg_writes ws s) (l ++ omap (fun p => window (fst p) (u32 (snd p))) ws) f /\ dev (reg_writes ws s) = dev s.
Proof.
  intros Hw. revert s l. induction Hw as [|[o v] ws Ho _ IH]; intros s l Hs; [by rewrite app_nil_r|].
  destruct (fifo_write o v s l f Ho Hs) as [S1 D1]. destruct (IH _ _ S1) as [S2 D2]. rewrite <- app_assoc in S2.
  assert (omap (fun p => window (fst p) (u32 (snd p))) ((o, v) :: ws) =
    option_list (window o (u32 v)) ++ omap (fun p => window (fst p) (u32 (snd p))) ws) as -> by (cbn; by destruct (window o (u32 v))).
  change (reg_writes ((o, v) :: ws) s) with (reg_writes ws (reg_write o v s)). split; [exact S2|]. by rewrite <- D1.
Qed.

Lemma quiet_set_address a s : quiet s (usb_set_address a s).
Proof.
  unfold usb_set_address. destruct (reg_read _ s) as [x s1] eqn:E. apply quiet_read in E.
  eapply quiet_trans; [exact E|]. apply quiet_write; unfold DWC2_DCFG; lia.
Qed.

(** The windows a reset leaves. *)
Definition reset_windows : list (Z * Z * Z) :=
  [(-1, 0, 283); (0, 283, 256); (1, 555, 64); (2, 555, 64); (3, 555, 64); (4, 555, 64)].

Lemma usbrst_fifos fuel s l f :
  fifo_state s l f -> safe (usb_dwc2_handle_usbrst fuel s) (fun s' =>
    fifo_state s' (l ++ reset_windows) 539 /\ pipes (dev s') = pipes (dev s)).
Proof.
  intros S0. unfold usb_dwc2_handle_usbrst. set (s1 := set_fifo s (TX_FIFO_SIZE + RX_FIFO_SIZE)).
  assert (fifo_state s1 l 539) as S1 by (destruct S0 as (? & ? & ? & ? & ?); by repeat split).
  eapply safe_bind; [apply quiet_upd_ep|]. intros s2 Q2. eapply safe_bind; [apply quiet_abort_from|]. intros s3 Q3.
  pose proof (quiet_trans _ _ _ (quiet_trans _ _ _ Q2 Q3) (quiet_set_address 0 s3)) as [F4 P4].
  set (s4 := usb_set_address 0 s3) in *. apply F4 in S1.
  set (ws := [(DWC2_DOEPMSK, 0); (DWC2_DIEPMSK, 0); _; _; _; _; _; _; _; _; _; _; _]).
  destruct (fifo_writes ws s4 l 539) as [S5 D5]; [unfold ws; repeat constructor; by vm_compute|done|].
  change (omap _ ws) with reset_windows in S5. set (s5 := reg_writes ws s4) in *.
  destruct (reg_read DWC2_GINTSTS s5) as [g s6] eqn:E6. apply quiet_read in E6 as [F6 P6]. apply F6 in S5.
  destruct (quiet_write DWC2_GINTSTS g s6) as [F7 P7]; [unfold DWC2_GINTSTS; lia..|]. apply F7 in S5. set (s7 := reg_write _ g s6) in *.
  set (mk := Z.lor DWC2_GINTMSK_IEPIntMsk DWC2_GINTMSK_OEPIntMsk).
  destruct (quiet_set32 DWC2_GINTMSK mk s7) as [F8 P8]; [unfold DWC2_GINTMSK; lia..|]. apply F8 in S5. set (s8 := reg_set32 _ mk s7) in *.
  apply safe_Done. match goal with |- context [reg_writes ?x s8] => destruct (fifo_writes x s8 (l ++ reset_windows) 539) as [S9 D9];
    [repeat constructor; by vm_compute|done|] end.
  rewrite app_nil_r in S9. split; [exact S9|]. rewrite D9, P8, P7, P6, D5, P4. done.
Qed.

Lemma quiet_hw_recv ep n k s : safe (usb_dwc2_ep_hw_recv ep n k s) (quiet s).
Proof.
  unfold usb_dwc2_ep_hw_recv. eapply (safe_bind _ _ (fun pep => znth phyEndpoints ep = Done pep)); [by intros ? ?|]. intros pep Hp.
  apply phy_pep_range in Hp as [_ Hp]. destruct (dir_in pep); [apply safe_Done, quiet_refl|]. specialize (Hp eq_refl).
  eapply (safe_bind _ _ (fun _ => True)); [done|]. intros e _. apply safe_Done. quiets.
Qed.

(** The end of the enumeration takes one more window's worth of addresses for
    endpoint 0 when the bus runs at high speed. *)
Lemma connect_fifos s l f :
  fifo_state s l f -> 0 <= f -> f + 256 <= 65536 -> safe (usb_dwc2_handle_event_connect_done s) (fun s' => exists f',
    (f' = f \/ f' = f + 256) /\ fifo_state s' l f' /\ pipes (dev s') = pipes (dev s)).
Proof.
  intros S0 Hf Hf2. unfold usb_dwc2_handle_event_connect_done. destruct (reg_read DWC2_DSTS s) as [d s1] eqn:E1.
  apply quiet_read in E1 as [F1 P1]. apply F1 in S0. case_if.
  { destruct (reg_read DWC2_DSTS s1) as [d2 s2] eqn:E2. apply quiet_read in E2 as [F2 P2]. apply safe_Done.
    exists f. split; [by left|]. split; [by apply F2|congruence]. }
  destruct (fifo_activate USB_LEP_CTRL_OUT 0 EP0_MAX_PACKET_SIZE s1 l f S0) as ([r2 s2] & -> & P2 & S2); [done|by left|done|done|].
  cbn [snd] in *. rewrite bind_Done. change (dir_in (phy USB_LEP_CTRL_OUT)) with false in S2. cbn iota in S2.
  destruct (fifo_activate USB_LEP_CTRL_IN 0 EP0_MAX_PACKET_SIZE s2 l f S2) as ([r3 s3] & -> & P3 & S3); [done|by left|done|done|].
  cbn [snd] in *. rewrite bind_Done. change (dir_in (phy USB_LEP_CTRL_IN)) with true in S3.
  change (own_window (Z.land (phy USB_LEP_CTRL_IN) 15) f) with (@nil (Z * Z * Z)) in S3. cbn iota in S3. rewrite app_nil_r in S3.
  eapply safe_bind; [apply quiet_hw_recv|]. intros s4 [F4 P4]. apply F4 in S3. apply safe_Done. exists (f + 256).
  split; [by right|]. split; [|cbn; congruence]. destruct S3 as (? & ? & ? & ? & ?). by repeat split.
Qed.

Ltac fifo_bound := intros; first [discriminate | change TX_FIFO_SIZE with 256; lia].

Lemma pipes_fifos s l f p0 p1 :
  fifo_state s l f -> pipes (dev s) = [p0; p1] -> pipe_ok 0 p0 -> pipe_ok 1 p1 -> 0 <= f -> f + 1024 <= 65536 ->
  runs (activate_pipes 2 0 s) (fun s' =>
    fifo_state s' (l ++ [(1, f, 256); (3, f + 256, 256); (4, f + 512, 256); (6, f + 768, 256)]) (f + 1024)).
Proof.
  intros S0 Hp (_ & _ & _ & A0 & B0 & C0) (_ & _ & _ & A1 & B1 & C1) Hf Hf2.
  assert (G : forall s i p, pipes (dev s) = [p0; p1] -> [p0; p1] !! Z.to_nat i = Some p -> 0 <= i -> get_pipe i s = Done p)
    by (intros s1 i p E Hl Hi; unfold get_pipe; rewrite E; by apply znth_Done).
  cbn [activate_pipes].
  rewrite (G s 0 p0) by done. rewrite bind_Done, A0, B0, C0. change (2 + 3 * 0) with 2. change (4 + 3 * 0) with 4. change (3 + 3 * 0) with 3.
  destruct (fifo_activate 2 DWC2_EP_TYPE_INTR 64 s l f S0) as ([r1 s1] & -> & P1 & S1); [lia|by (right; right)|fifo_bound..|].
  cbn [snd] in *. rewrite bind_Done. change (dir_in (phy 2)) with true in S1. change (Z.land (phy 2) 15) with 1 in S1. cbn iota in S1.
  destruct (fifo_activate 4 DWC2_EP_TYPE_BULK 512 s1 _ _ S1) as ([r2 s2] & -> & P2 & S2); [lia|by (right; left)|fifo_bound..|].
  cbn [snd] in *. rewrite bind_Done. change (dir_in (phy 4)) with true in S2. change (Z.land (phy 4) 15) with 3 in S2. cbn iota in S2.
  destruct (fifo_activate 3 DWC2_EP_TYPE_BULK 512 s2 _ _ S2) as ([r3 s3] & -> & P3 & S3); [lia|by (right; left)|fifo_bound..|].
  cbn [snd] in *. rewrite bind_Done. change (dir_in (phy 3)) with false in S3. cbn iota in S3.
  rewrite (G s3 (0 + 1) p1) by (done || congruence). rewrite bind_Done, A1, B1, C1.
  change (2 + 3 * 1) with 5. change (4 + 3 * 1) with 7. change (3 + 3 * 1) with 6.
  destruct (fifo_activate 5 DWC2_EP_TYPE_INTR 64 s3 _ _ S3) as ([r4 s4] & -> & P4 & S4); [lia|by (right; right)|fifo_bound..|].
  cbn [snd] in *. rewrite bind_Done. change (dir_in (phy 5)) with true in S4. change (Z.land (phy 5) 15) with 4 in S4. cbn iota in S4.
  destruct (fifo_activate 7 DWC2_EP_TYPE_BULK 512 s4 _ _ S4) as ([r5 s5] & -> & P5 & S5); [lia|by (right; left)|fifo_bound..|].
  cbn [snd] in *. rewrite bind_Done. change (dir_in (phy 7)) with true in S5. change (Z.land (phy 7) 15) with 6 in S5. cbn iota in S5.
  destruct (fifo_activate 6 DWC2_EP_TYPE_BULK 512 s5 _ _ S5) as ([r6 s6] & -> & P6 & S6); [lia|by (right; left)|fifo_bound..|].
  cbn [snd] in *. rewrite bind_Done. change (dir_in (phy 6)) with false in S6. cbn iota in S6.
  rewrite <- !app_assoc in S6. unfold own_window in S6. change TX_FIFO_SIZE with 256 in S6. cbn [app Z.eqb Pos.eqb] in S6.
  apply runs_Done. replace (f + 256 + 256) with (f + 512) in S6 by lia. replace (f + 512 + 256) with (f + 768) in S6 by lia.
  by replace (f + 768 + 256) with (f + 1024) in S6 by lia.
Qed.

(** Windows that do not overlap. *)
Definition windows_disjoint (l : list (Z * Z)) : Prop :=
  ForallOrdPairs (fun x y => fst x + snd x <= fst y \/ fst y + snd y <= fst x) l.

(** C25: On every controller, when a bus reset and the end of the enumeration that
    follows it have been handled (their loops wait for the controller) and
    nothing has programmed a FIFO since, selecting configuration 1 leaves the
    FIFO registers so that the receive FIFO, endpoint 0's and those of the four
    IN endpoints of the two pipes are the six windows listed, of 283 and five
    times 256 words: no two overlap, and all lie below 65536.  (The window of
    FIFO 2, which no endpoint uses, stays as the reset left it.) *)
Theorem tx_fifos_disjoint (fuel : nat) (s s1 s2 s3 : usb (W * list (Z * Z))) (p0 p1 : acm_pipe) :
  0 <= regs (dev s) -> regs (dev s) + 0x1000 <= 2 ^ 32 -> zlen (endpoints (dev s)) = 8 ->
  pipes (dev s) = [p0; p1] -> pipe_ok 0 p0 -> pipe_ok 1 p1 ->
  usb_dwc2_handle_usbrst fuel s = Done s1 -> usb_dwc2_handle_event_connect_done s1 = Done s2 -> quiet s2 s3 ->
  exists s4 f l, activate_pipes (Z.to_nat CDC_ACM_PIPE_MAX) 0 s3 = Done s4 /\ (f = 539 \/ f = 795) /\
    l = [(0, 283); (283, 256); (f, 256); (f + 256, 256); (f + 512, 256); (f + 768, 256)] /\
    map (programmed (fifos s4)) [-1; 0; 1; 3; 4; 6] = map Some l /\ windows_disjoint l /\
    Forall (fun x => fst x + snd x <= 65536) l.
Proof.
  intros H1 H2 H3 Hp A0 A1 E1 E2 [F3 P3].
  destruct (usbrst_fifos fuel s (fifos s) _ ltac:(by repeat split) s1 E1) as [S1 P1].
  destruct (connect_fifos s1 _ _ S1 ltac:(lia) ltac:(lia) s2 E2) as (f & Hf & S2 & P2). apply F3 in S2.
  destruct (pipes_fifos s3 _ f p0 p1 S2) as (s4 & E4 & (_ & _ & S4 & _)); [congruence|done|done|lia|lia|].
  exists s4, f. eexists. split; [exact E4|]. split; [lia|]. split; [reflexivity|]. split.
  - rewrite S4. unfold programmed. cbn [map]. rewrite !filter_app, !last_app. reflexivity.
  - split; repeat constructor; cbn; lia.
Qed.

End fifos.

Lemma usb_reachable_rests_witness :
  exists s0 s : usb (gmap Z Z), usb_dwc2_init demo_alloc 0 0 None core_id demo_memory = Done (true, s0) /\
    rtc (usb_step demo_env) s0 s /\ usb_ok s /\ resting (ep0_st (dev s)) = true.
Proof.
  destruct demo_init as (s0 & Hi & R0). exists s0, (set_hw s0 ∅ (um s0)). split; [exact Hi|].
  assert (rtc (usb_step demo_env) s0 (set_hw s0 ∅ (um s0))) as Hr by (apply rtc_once; by apply step_dma).
  split; [exact Hr|]. apply (usb_reachable_rests demo_env demo_alloc 0 0 None core_id demo_memory s0 _).
  - exact demo_page.
  - discriminate.
  - exact demo_env_ok.
  - exact Hi.
  - exact Hr.
Defined.

(** ** Witnesses on a concrete device *)
Definition demo_ring : ringbuffer_t := Ring (replicate (Z.to_nat CDC_BUFFER_SIZE) 0) CDC_BUFFER_SIZE 0 0.
Definition demo_dev (st : ep0_state) : dwc2_dev :=
  Dev 0 st Src_null 0 0 0x10000 (map (buffer_of 0x10000) (seqZ 0 MAX_ENDPOINTS))
    [Pipe (Some demo_ring) (Some demo_ring) USB_LEP_CDC_INTR_IN USB_LEP_CDC_BULK_IN USB_LEP_CDC_BULK_OUT true cdc_default_line_coding;
     Pipe (Some demo_ring) (Some demo_ring) USB_LEP_CDC_INTR_IN_2 USB_LEP_CDC_BULK_IN_2 USB_LEP_CDC_BULK_OUT_2 true cdc_default_line_coding].
Definition demo_usb {W} (st : ep0_state) (w : W) : usb W := Usb (demo_dev st) (RX_FIFO_SIZE + TX_FIFO_SIZE) None w demo_memory.

Lemma demo_ring_wf : ring_wf demo_ring /\ len demo_ring = CDC_BUFFER_SIZE /\ contents demo_ring = [].
Proof.
  destruct (ringbuffer_alloc_wf true true CDC_BUFFER_SIZE demo_ring) as [Hw Hl];
    [unfold CDC_BUFFER_SIZE; lia|apply alloc_both|]. split; [exact Hw|]. split; [exact Hl|]. by apply contents_empty.
Qed.

Lemma demo_pipe_ok : ring_ok (Some demo_ring).
Proof. destruct demo_ring_wf as (Hw & Hl & _). exists demo_ring. split; [reflexivity|]. by split. Qed.

#[local] Opaque demo_ring demo_memory.

Lemma demo_usb_ok {W} {HW : Dwc2Hw W} st (w : W) : resting st = true -> rests (demo_usb st w).
Proof.
  intros Hs. destruct demo_page as (P1 & P2 & P3 & P4). pose proof demo_pipe_ok as R. split; [|exact Hs].
  split; cbn [demo_usb demo_dev dev um dma_page_p endpoints pipes ep0_st ep0_read_buffer_len str_serial].
  - split; [exact P1|exact P2].
  - exact P3.
  - exact P4.
  - by apply buffers_of.
  - eexists _, _. split; [reflexivity|]. split; (split; [exact R|]; split; [exact R|]; by repeat split).
  - split; cbn; [lia|reflexivity].
  - reflexivity.
  - by destruct st.
  - discriminate.
Qed.

Lemma demo_queue {W} {HW : Dwc2Hw W} st (w : W) i out : 0 <= i < 2 -> queue_of (demo_usb st w) i out [].
Proof.
  intros Hi. destruct demo_ring_wf as (Hw & Hl & Hc). assert (i = 0 \/ i = 1) as [-> | ->] by lia;
    (eexists _, demo_ring; split; [reflexivity|]; split; [by destruct out|]; by split).
Qed.

Lemma queue_set_hw {W} (s : usb W) w m i out q : queue_of s i out q -> queue_of (set_hw s w m) i out q.
Proof. done. Qed.

Lemma ep0_request_correct_witness :
  exists (s s' : usb (gmap Z Z * list (Z * Z))) x y,
    (s1 ← usb_dwc2_ep0_handle_xfer_done (HW := logged fixed_hw) demo_env s;
     usb_dwc2_ep0_handle_xfer_not_ready (HW := logged fixed_hw) s1) = Done s' /\
    log_of s' = send_writes 0 0x10000 18 1 x y.
Proof.
  destruct (deliver (demo_usb USB_DWC2_EP0_STATE_SETUP_HANDLE (core_id, [] : list (Z * Z)))
    (Setup 0x80 USB_REQUEST_GET_DESCRIPTOR 0x0100 0 64)) as [R P]; [by apply (demo_usb_ok (HW := logged fixed_hw))|by vm_compute|].
  set (s := set_hw _ _ _) in *. destruct (env_serial demo_env s demo_env_ok) as (z & Hz).
  destruct (ep0_request_correct (HW := fixed_hw) demo_env z (Setup 0x80 USB_REQUEST_GET_DESCRIPTOR 0x0100 0 64) s
    (R_data (take 64 (device_bytes usb_cdc_device_descriptor)))) as (s' & E & _ & (_ & (x & y & L) & _) & _).
  - exact (proj1 R).
  - exact P.
  - exact Hz.
  - reflexivity.
  - reflexivity.
  - exists s, s', x, y. split; [exact E|exact L].
Defined.

Lemma usb_write_stream_witness :
  exists s', usb_dwc2_write 1 demo_env 0 [104; 105] (Some (demo_usb USB_DWC2_EP0_STATE_SETUP_HANDLE core_id)) = Done (2, Some s') /\
    queue_of s' 0 false [].
Proof.
  destruct (usb_write_stream 1 demo_env 0 [104; 105] [] (demo_usb USB_DWC2_EP0_STATE_SETUP_HANDLE core_id)
    (Pipe (Some demo_ring) (Some demo_ring) USB_LEP_CDC_INTR_IN USB_LEP_CDC_BULK_IN USB_LEP_CDC_BULK_OUT true cdc_default_line_coding)
    (buffer_of 0x10000 4)) as (s' & E & _ & Q & _).
  - apply demo_usb_ok. reflexivity.
  - reflexivity.
  - reflexivity.
  - apply demo_queue. lia.
  - reflexivity.
  - reflexivity.
  - by apply are_bytes_check.
  - discriminate.
  - vm_compute. reflexivity.
  - lia.
  - rewrite take_ge by (cbn [length app]; unfold XFER_SIZE; lia). vm_compute. discriminate.
  - exists s'. split; [exact E|]. rewrite drop_ge in Q by (cbn [length app]; unfold XFER_SIZE; lia). exact Q.
Defined.

Lemma usb_bulk_receive_witness :
  exists s', usb_dwc2_cdc_handle_bulk_out_xfer_done 3 (demo_usb USB_DWC2_EP0_STATE_SETUP_HANDLE {[DWC2_DOEPTSIZ 2 := 510]}) = Done s' /\
    queue_of s' 0 true [0; 0].
Proof.
  destruct (usb_bulk_receive (demo_usb USB_DWC2_EP0_STATE_SETUP_HANDLE {[DWC2_DOEPTSIZ 2 := 510]})
    (demo_usb USB_DWC2_EP0_STATE_SETUP_HANDLE {[DWC2_DOEPTSIZ 2 := 510]}) 3 0 510 [] [0; 0]) as (s' & E & _ & Q & _).
  - apply demo_usb_ok. reflexivity.
  - by repeat split.
  - apply demo_queue. lia.
  - reflexivity.
  - reflexivity.
  - vm_compute. reflexivity.
  - cbn [bytes_at demo_usb um dev]. rewrite !demo_memory_lookup. repeat split; try reflexivity; vm_compute; congruence.
  - exists s'. split; [exact E|exact Q].
Defined.

Lemma setup_in_data_stage_panics_witness :
  ep0_out_interrupt demo_env (demo_usb USB_DWC2_EP0_STATE_DATA_SEND_DONE {[DWC2_DOEPINT 0 := 8]}) = Panic.
Proof. apply setup_in_data_stage_panics; [discriminate|discriminate|reflexivity]. Defined.

(** A controller whose registers read 0: no endpoint is enabled. *)
Definition zero_hw : Dwc2Hw unit := {|
  mmio_read _ w m := (0, w, m); mmio_write _ _ w m := (w, m); hw_delay _ w m := (w, m) |}.

Lemma demo_reset : exists s1 s2 : usb (unit * list (Z * Z)),
  usb_dwc2_handle_usbrst (HW := logged zero_hw) 0 (demo_usb USB_DWC2_EP0_STATE_IDLE (tt, [])) = Done s1 /\
  usb_dwc2_handle_event_connect_done (HW := logged zero_hw) s1 = Done s2.
Proof.
  unfold demo_usb, demo_dev. generalize demo_ring demo_memory. intros ring m.
  eexists _, _. split; [lazy; reflexivity|]. lazy. reflexivity.
Qed.

Lemma tx_fifos_disjoint_witness :
  exists s3 s4 : usb (unit * list (Z * Z)), activate_pipes (HW := logged zero_hw) 2 0 s3 = Done s4 /\
    exists f, map (programmed (fifos s4)) [-1; 0; 1; 3; 4; 6] =
      map Some [(0, 283); (283, 256); (f, 256); (f + 256, 256); (f + 512, 256); (f + 768, 256)].
Proof.
  pose proof demo_pipe_ok as R. destruct demo_reset as (s1 & s2 & E1 & E2).
  destruct (tx_fifos_disjoint (HW := zero_hw) 0 (demo_usb USB_DWC2_EP0_STATE_IDLE (tt, [])) s1 s2 s2
    (Pipe (Some demo_ring) (Some demo_ring) USB_LEP_CDC_INTR_IN USB_LEP_CDC_BULK_IN USB_LEP_CDC_BULK_OUT true cdc_default_line_coding)
    (Pipe (Some demo_ring) (Some demo_ring) USB_LEP_CDC_INTR_IN_2 USB_LEP_CDC_BULK_IN_2 USB_LEP_CDC_BULK_OUT_2 true cdc_default_line_coding))
    as (s4 & f & l & E & _ & -> & Hm & _).
  - cbn. lia.
  - cbn. lia.
  - reflexivity.
  - reflexivity.
  - split; [exact R|]. split; [exact R|]. by repeat split.
  - split; [exact R|]. split; [exact R|]. by repeat split.
  - exact E1.
  - exact E2.
  - apply quiet_refl.
  - exists s2, s4. split; [exact E|]. exists f. exact Hm.
Defined.

Lemma second_pipe_overruns_witness :
  exists s, rests s /\ usb_dwc2_ep0_handle_setup demo_env s = Fault.
Proof.
  destruct (deliver (demo_usb USB_DWC2_EP0_STATE_SETUP_HANDLE core_id) (Setup 0x21 USB_REQUEST_CDC_SET_CTRL_LINE_STATE 1 2 0)) as [R P];
    [by apply demo_usb_ok|by vm_compute|].
  set (s := set_hw _ _ _) in *. exists s. split; [exact R|].
  apply (second_pipe_overruns demo_env (Setup 0x21 USB_REQUEST_CDC_SET_CTRL_LINE_STATE 1 2 0)).
  - exact (proj1 R).
  - exact P.
  - reflexivity.
  - reflexivity.
  - reflexivity.
  - reflexivity.
  - exists []. split; [apply queue_set_hw, demo_queue; lia|]. vm_compute. discriminate.
  - exists (buffer_of 0x10000 6). split; reflexivity.
  - cbn [um s set_hw]. rewrite lookup_write_bytes. cbn [demo_usb um]. rewrite demo_memory_lookup. reflexivity.
Defined.
