(* ===== verification/Checksum.v ===== *)
(** * Checksums of the decompressor (tinf/crc32.c, tinf/adler32.c)

    [tinf_crc32] runs over the bytes of a buffer four bits at a time with a
    table of sixteen entries; the reference is the bit-serial division by the
    reflected polynomial.  [tinf_adler32] delays the reductions modulo 65521;
    the reference reduces after every byte, and the delayed sums stay within
    32 bits. *)
From S2P Require Import Prelude Machine.

(** ** crc32.c *)
Definition tinf_crc32tab : list Z :=
  [0x00000000; 0x1DB71064; 0x3B6E20C8; 0x26D930AC; 0x76DC4190;
   0x6B6B51F4; 0x4DB26158; 0x5005713C; 0xEDB88320; 0xF00F9344;
   0xD6D6A3E8; 0xCB61B38C; 0x9B64C2B0; 0x86D3D2D4; 0xA00AE278;
   0xBDBDF21C].

(** [crc = tinf_crc32tab[crc & 0x0F] ^ (crc >> 4)] *)
Definition crc_nibble (crc : Z) : outcome Z :=
  t ← znth tinf_crc32tab (Z.land crc 0x0F);
  Done (Z.lxor t (Z.shiftr crc 4)).

Fixpoint crc_loop (n : nat) (m : mem) (buf crc : Z) : outcome Z :=
  match n with
  | O => Done crc
  | S n' =>
      b ← load8 m buf;
      crc ← crc_nibble (Z.lxor crc b);
      crc ← crc_nibble crc;
      crc_loop n' m (buf + 1) crc
  end.

Definition tinf_crc32 (m : mem) (data length : Z) : outcome Z :=
  if length =? 0 then Done 0 else
  crc ← crc_loop (Z.to_nat length) m data 0xFFFFFFFF;
  Done (Z.lxor crc 0xFFFFFFFF).

(** ** adler32.c *)
Definition A32_BASE : Z := 65521.
Definition A32_NMAX : Z := 5552.

(** [s1 += *buf++; s2 += s1;], [n] times. *)
Fixpoint adler_bytes (n : nat) (m : mem) (buf s1 s2 : Z) : outcome (Z * Z) :=
  match n with
  | O => Done (s1, s2)
  | S n' =>
      b ← load8 m buf;
      let s1 := u32 (s1 + b) in
      let s2 := u32 (s2 + s1) in
      adler_bytes n' m (buf + 1) s1 s2
  end.

(** The loop unrolled sixteen times. *)
Fixpoint adler_chunks (i : nat) (m : mem) (buf s1 s2 : Z) : outcome (Z * Z) :=
  match i with
  | O => Done (s1, s2)
  | S i' =>
      '(s1, s2) ← adler_bytes 16 m buf s1 s2;
      adler_chunks i' m (buf + 16) s1 s2
  end.

Fixpoint adler_loop (fuel : nat) (m : mem) (buf length s1 s2 : Z) : outcome (Z * Z) :=
  match fuel with
  | O => Stuck
  | S fuel' =>
      if length =? 0 then Done (s1, s2) else
      let k := if length <? A32_NMAX then length else A32_NMAX in
      '(s1, s2) ← adler_chunks (Z.to_nat (k / 16)) m buf s1 s2;
      '(s1, s2) ← adler_bytes (Z.to_nat (k mod 16)) m (buf + 16 * (k / 16)) s1 s2;
      adler_loop fuel' m (buf + k) (length - k) (s1 mod A32_BASE) (s2 mod A32_BASE)
  end.

(** One round per [A32_NMAX] bytes and the test that ends the loop. *)
Definition adler_fuel (length : Z) : nat := Z.to_nat (length / A32_NMAX + 2).

Definition tinf_adler32 (m : mem) (data length : Z) : outcome Z :=
  '(s1, s2) ← adler_loop (adler_fuel length) m data length 1 0;
  Done (Z.lor (u32 (Z.shiftl s2 16)) s1).

(** ** References *)

(** One step of the division by the reflected generator 0xEDB88320: the bit
    that leaves the register decides whether the generator is subtracted. *)
Definition crc_bit (c : Z) : Z :=
  if Z.odd c then Z.lxor (Z.shiftr c 1) 0xEDB88320 else Z.shiftr c 1.

Definition crc_byte (c b : Z) : Z := Nat.iter 8 crc_bit (Z.lxor c b).

Definition crc32 (bs : list Z) : Z := Z.lxor (foldl crc_byte 0xFFFFFFFF bs) 0xFFFFFFFF.

(** RFC 1950, section 8.2: both sums modulo 65521. *)
Definition adler_byte (s : Z * Z) (b : Z) : Z * Z :=
  let s1 := (s.1 + b) mod 65521 in (s1, (s.2 + s1) mod 65521).

Definition adler32 (bs : list Z) : Z :=
  let s := foldl adler_byte (1, 0) bs in s.2 * 65536 + s.1.

(** ** The nibble table is four steps of the division *)
Section crc.
Implicit Types (m : mem) (a b c x : Z) (bs : list Z).

Lemma crc_bit_linear x y : crc_bit (Z.lxor x y) = Z.lxor (crc_bit x) (crc_bit y).
Proof.
  unfold crc_bit. rewrite <- !Z.bit0_odd, Z.lxor_spec, Z.shiftr_lxor.
  apply Z.bits_inj'. intros n Hn.
  destruct (Z.testbit x 0), (Z.testbit y 0); cbn [xorb]; rewrite !Z.lxor_spec;
    destruct (Z.testbit (Z.shiftr x 1) n), (Z.testbit (Z.shiftr y 1) n),
      (Z.testbit 0xEDB88320 n); reflexivity.
Qed.

Lemma crc_bits_linear k x y :
  Nat.iter k crc_bit (Z.lxor x y) = Z.lxor (Nat.iter k crc_bit x) (Nat.iter k crc_bit y).
Proof. induction k as [|k IH]; [done|]. by rewrite !Nat.iter_succ, IH, crc_bit_linear. Qed.

Lemma crc_bits_shift k x : Nat.iter k crc_bit (Z.shiftl x (Z.of_nat k)) = x.
Proof.
  revert x. induction k as [|k IH]; intros x; [apply Z.shiftl_0_r|].
  rewrite Nat.iter_succ_r. replace (crc_bit (Z.shiftl x (Z.of_nat (S k)))) with (Z.shiftl x (Z.of_nat k)); [apply IH|].
  unfold crc_bit. rewrite <- Z.bit0_odd, Z.shiftl_spec_low by lia.
  rewrite Z.shiftr_shiftl_l by lia. f_equal. lia.
Qed.

Lemma nibble_split x : x = Z.lxor (Z.shiftl (Z.shiftr x 4) 4) (Z.land x 15).
Proof.
  apply Z.bits_inj'. intros n Hn. rewrite Z.lxor_spec, Z.land_spec. change 15 with (Z.ones 4).
  destruct (decide (n < 4)).
  - rewrite Z.shiftl_spec_low, Z.ones_spec_low by lia. by destruct (Z.testbit x n).
  - rewrite Z.shiftl_spec_high, Z.shiftr_spec, Z.ones_spec_high by lia.
    replace (n - 4 + 4) with n by lia. by rewrite andb_false_r, xorb_false_r.
Qed.

Lemma crc_table i : 0 <= i < 16 -> znth tinf_crc32tab i = Done (Nat.iter 4 crc_bit i).
Proof.
  intros Hi. assert (Forall (fun i => znth tinf_crc32tab i = Done (Nat.iter 4 crc_bit i)) (seqZ 0 16)) as Ht
    by (vm_compute; repeat constructor).
  rewrite Forall_forall in Ht. apply Ht, elem_of_seqZ. lia.
Qed.

Lemma crc_nibble_bits c : crc_nibble c = Done (Nat.iter 4 crc_bit c).
Proof.
  unfold crc_nibble. rewrite crc_table by (change 15 with (Z.ones 4); rewrite Z.land_ones; lia).
  rewrite bind_Done. f_equal. rewrite (nibble_split c) at 3.
  rewrite crc_bits_linear, (crc_bits_shift 4), Z.lxor_comm. done.
Qed.

Lemma crc_loop_reference m a bs c :
  bytes_at m a bs -> crc_loop (length bs) m a c = Done (foldl crc_byte c bs).
Proof.
  revert a c. induction bs as [|b bs IH]; intros a c Hb; [done|].
  destruct Hb as [[Hb Ha] Hbs]. cbn [length crc_loop foldl]. ld Hb.
  rewrite crc_nibble_bits, bind_Done, crc_nibble_bits, bind_Done, <- Nat.iter_add.
  by apply IH.
Qed.

Lemma tinf_crc32_reference m a bs :
  bytes_at m a bs -> tinf_crc32 m a (zlen bs) = Done (crc32 bs).
Proof.
  intros Hb. unfold tinf_crc32. destruct bs as [|b bs]; [done|].
  rewrite zlen_cons. pose proof (zlen_nonneg bs). bdec.
  rewrite <- (zlen_cons b bs), to_nat_zlen, crc_loop_reference by done. done.
Qed.

Lemma lxor_range x y w : 0 <= w -> 0 <= x < 2 ^ w -> 0 <= y < 2 ^ w -> 0 <= Z.lxor x y < 2 ^ w.
Proof.
  intros Hw Hx Hy. assert (Z.lxor x y mod 2 ^ w = Z.lxor x y) as <-; [|lia].
  apply Z.bits_inj'. intros n Hn. destruct (decide (n < w)).
  - by rewrite Z.mod_pow2_bits_low by lia.
  - rewrite Z.mod_pow2_bits_high by lia. by rewrite Z.lxor_spec, (testbit_high x w), (testbit_high y w) by lia.
Qed.

Lemma crc_bit_range c : 0 <= c < 2 ^ 32 -> 0 <= crc_bit c < 2 ^ 32.
Proof.
  intros Hc. unfold crc_bit. rewrite Z.shiftr_div_pow2 by lia. change (2 ^ 1) with 2.
  case_if; [apply lxor_range|]; lia.
Qed.

Lemma crc32_range bs : are_bytes bs -> 0 <= crc32 bs < 2 ^ 32.
Proof.
  intros Hbs. unfold crc32. apply lxor_range; [lia| |lia].
  assert (forall c, 0 <= c < 2 ^ 32 -> 0 <= foldl crc_byte c bs < 2 ^ 32) as Hf; [|by apply Hf].
  induction Hbs as [|b bs Hb _ IH]; intros c Hc; [done|]. cbn [foldl]. apply IH. unfold crc_byte.
  unfold is_byte in Hb. assert (0 <= Z.lxor c b < 2 ^ 32) as Hx by (apply lxor_range; lia).
  revert Hx. generalize (Z.lxor c b). generalize 8%nat. intros k. induction k as [|k IHk]; intros x Hx; [done|].
  rewrite Nat.iter_succ. by apply crc_bit_range, IHk.
Qed.
End crc.

(** ** Delayed reductions do not overflow *)
Section adler.
Implicit Types (m : mem) (a b : Z) (bs : list Z).

(** The sums of [adler_bytes] without the 32-bit wrap. *)
Definition plain_byte (s : Z * Z) (b : Z) : Z * Z := (s.1 + b, s.2 + (s.1 + b)).

Lemma adler_bytes_app n k m a s1 s2 :
  adler_bytes (n + k) m a s1 s2 =
    '(t1, t2) ← adler_bytes n m a s1 s2; adler_bytes k m (a + Z.of_nat n) t1 t2.
Proof.
  revert a s1 s2. induction n as [|n IH]; intros a s1 s2.
  - cbn. by rewrite Z.add_0_r.
  - cbn [Nat.add adler_bytes]. destruct (load8 m a) as [b| | |]; [|done..]. rewrite !bind_Done, IH.
    by replace (a + Z.of_nat (S n)) with (a + 1 + Z.of_nat n) by lia.
Qed.

Lemma adler_chunks_bytes i m a s1 s2 : adler_chunks i m a s1 s2 = adler_bytes (16 * i) m a s1 s2.
Proof.
  revert a s1 s2. induction i as [|i IH]; intros a s1 s2; [done|].
  replace (16 * S i)%nat with (16 + 16 * i)%nat by lia. rewrite adler_bytes_app.
  cbn [adler_chunks]. apply bind_ext. intros [t1 t2]. apply IH.
Qed.

(** One round of the outer loop is a run over its [k] bytes. *)
Lemma adler_round k m a s1 s2 (f : Z * Z -> outcome (Z * Z)) :
  0 <= k ->
  ('(t1, t2) ← adler_chunks (Z.to_nat (k / 16)) m a s1 s2;
   t ← adler_bytes (Z.to_nat (k mod 16)) m (a + 16 * (k / 16)) t1 t2; f t) =
  adler_bytes (Z.to_nat k) m a s1 s2 ≫= f.
Proof.
  intros Hk. rewrite adler_chunks_bytes.
  replace (Z.to_nat k) with (16 * Z.to_nat (k / 16) + Z.to_nat (k mod 16))%nat by lia.
  rewrite adler_bytes_app, bind_assoc. apply bind_ext. intros [t1 t2]. repeat f_equal. lia.
Qed.

Lemma plain_bound bs s :
  are_bytes bs -> 0 <= s.1 -> 0 <= s.2 ->
  let t := foldl plain_byte s bs in
  s.1 <= t.1 <= s.1 + 255 * zlen bs /\ s.2 <= t.2 /\
  2 * t.2 <= 2 * s.2 + 2 * zlen bs * s.1 + 255 * zlen bs * (zlen bs + 1).
Proof.
  intros Hbs. revert s. induction Hbs as [|b bs Hb _ IH]; intros [s1 s2] H1 H2; cbn [fst snd] in *.
  - cbn. unfold zlen. cbn. lia.
  - unfold is_byte in Hb. cbn [foldl]. rewrite zlen_cons. pose proof (zlen_nonneg bs).
    destruct (IH (plain_byte (s1, s2) b)) as (? & ? & ?); cbn in *; [lia..|].
    repeat split; try lia. nia.
Qed.

Lemma adler_bytes_plain m a bs s1 s2 :
  bytes_at m a bs -> are_bytes bs -> 0 <= s1 -> 0 <= s2 ->
  s1 + 255 * zlen bs < 2 ^ 32 ->
  2 * s2 + 2 * zlen bs * s1 + 255 * zlen bs * (zlen bs + 1) < 2 ^ 33 ->
  adler_bytes (length bs) m a s1 s2 = Done (foldl plain_byte (s1, s2) bs).
Proof.
  intros Hb Hbs. revert m a s1 s2 Hb. induction Hbs as [|b bs Hbyte Hbs IH]; intros m a s1 s2 Hb H1 H2 B1 B2; [done|].
  destruct Hb as [[Hb Ha] Hat]. unfold is_byte in Hbyte. rewrite zlen_cons in *. pose proof (zlen_nonneg bs).
  destruct (plain_bound bs (plain_byte (s1, s2) b) Hbs) as (E1 & E2 & E3); cbn [plain_byte fst snd] in *; [lia..|].
  cbn [length adler_bytes foldl]. ld Hb.
  rewrite (u32_small (s1 + b)) by lia. rewrite (u32_small (s2 + (s1 + b))) by nia.
  by rewrite IH by (try done; nia).
Qed.

Lemma plain_adler bs s :
  let t := foldl plain_byte s bs in
  (t.1 mod 65521, t.2 mod 65521) = foldl adler_byte (s.1 mod 65521, s.2 mod 65521) bs.
Proof.
  revert s. induction bs as [|b bs IH]; intros s; [done|]. cbn [foldl]. rewrite IH. f_equal.
  unfold adler_byte, plain_byte. cbn [fst snd].
  rewrite Zplus_mod_idemp_l, Zplus_mod_idemp_l, Zplus_mod_idemp_r. done.
Qed.

Lemma foldl_adler_range bs s :
  0 <= s.1 < 65521 -> 0 <= s.2 < 65521 ->
  let t := foldl adler_byte s bs in 0 <= t.1 < 65521 /\ 0 <= t.2 < 65521.
Proof.
  revert s. induction bs as [|b bs IH]; intros s ??; [done|]. cbn [foldl].
  apply IH; unfold adler_byte; cbn [fst snd]; lia.
Qed.

Lemma adler_loop_reference fuel m a bs s1 s2 :
  bytes_at m a bs -> are_bytes bs -> 0 <= s1 < 65521 -> 0 <= s2 < 65521 ->
  zlen bs < A32_NMAX * (Z.of_nat fuel - 1) + 1 ->
  adler_loop fuel m a (zlen bs) s1 s2 = Done (foldl adler_byte (s1, s2) bs).
Proof.
  unfold A32_NMAX. revert a bs s1 s2.
  induction fuel as [|fuel IH]; intros a bs s1 s2 Hat Hbs H1 H2 Hf; [pose proof (zlen_nonneg bs); lia|].
  cbn [adler_loop]. destruct bs as [|b0 bs0]; [by rewrite zlen_nil|].
  set (bs := b0 :: bs0) in *. assert (0 < zlen bs) by (unfold bs; rewrite zlen_cons; pose proof (zlen_nonneg bs0); lia).
  clearbody bs. bdec. unfold A32_NMAX.
  set (k := if zlen bs <? 5552 then zlen bs else 5552).
  assert (0 < k <= zlen bs /\ k <= 5552) as (Hk & Hk') by (unfold k; case_if; b2p; lia).
  assert (k = zlen bs \/ k = 5552) as Hk2 by (unfold k; case_if; auto). clearbody k.
  rewrite <- (take_drop (Z.to_nat k) bs) in Hat, Hbs |- *.
  set (b1 := take (Z.to_nat k) bs) in *. set (b2 := drop (Z.to_nat k) bs) in *.
  assert (zlen b1 = k) as L1 by (unfold b1, zlen in *; rewrite length_take; lia).
  assert (zlen b2 = zlen bs - k) as L2 by (unfold b2, zlen in *; rewrite length_drop; lia).
  rewrite zlen_app, L1, L2. replace (k + (zlen bs - k) - k) with (zlen b2) by lia.
  apply bytes_at_app in Hat as [Hat1 Hat2]. apply Forall_app in Hbs as [Hbs1 Hbs2].
  rewrite adler_round by lia.
  replace (Z.to_nat k) with (length b1) by (unfold zlen in L1; lia).
  rewrite adler_bytes_plain by (auto; nia). rewrite bind_Done, foldl_app.
  pose proof (plain_adler b1 (s1, s2)) as Hp. cbn [fst snd] in Hp. rewrite (Z.mod_small s1), (Z.mod_small s2) in Hp by lia.
  destruct (foldl plain_byte (s1, s2) b1) as [t1 t2]. cbn [fst snd] in Hp. unfold A32_BASE. rewrite <- Hp.
  apply IH; try lia; [|done]. by rewrite L1 in Hat2.
Qed.

Lemma tinf_adler32_reference m a bs :
  bytes_at m a bs -> are_bytes bs -> tinf_adler32 m a (zlen bs) = Done (adler32 bs).
Proof.
  intros Hat Hbs. unfold tinf_adler32, adler32. rewrite adler_loop_reference; try done.
  - pose proof (foldl_adler_range bs (1, 0)) as Hr. destruct (foldl adler_byte (1, 0) bs) as [s1 s2].
    cbn [fst snd] in *. destruct Hr as [? ?]; [lia..|]. rewrite bind_Done. f_equal.
    rewrite Z.shiftl_mul_pow2, u32_small, Z.lor_comm by lia. rewrite (Z.mul_comm s2), lor_disjoint by lia. lia.
  - unfold adler_fuel, A32_NMAX. pose proof (zlen_nonneg bs). lia.
Qed.
End adler.

(** ** Theorems *)

(** C37: on every buffer of bytes in memory [tinf_crc32], four bits at a time
    through its table, returns the CRC-32 of the bit-serial division, and
    [tinf_adler32], which reduces only once per 5552 bytes and adds in 32-bit
    registers, returns the Adler-32 of RFC 1950, which reduces after every
    byte: the delayed sums never overflow, whatever the length. *)
Theorem checksums_reference m a bs :
  bytes_at m a bs -> are_bytes bs ->
  tinf_crc32 m a (zlen bs) = Done (crc32 bs) /\
  tinf_adler32 m a (zlen bs) = Done (adler32 bs).
Proof. intros Hat Hbs. split; [by apply tinf_crc32_reference|by apply tinf_adler32_reference]. Qed.

Definition demo_digits : list Z := bytes_of "123456789".

(** The check values published for both checksums. *)
Theorem checksums_reference_witness :
  let m := write_bytes ∅ 0x1000 demo_digits in
  tinf_crc32 m 0x1000 9 = Done 0xCBF43926 /\ tinf_adler32 m 0x1000 9 = Done 0x091E01DE.
Proof.
  pose proof (checksums_reference (write_bytes ∅ 0x1000 demo_digits) 0x1000 demo_digits) as H.
  exact (H ltac:(concrete) ltac:(concrete)).
Defined.
