(* ===== verification/Inflate.v ===== *)
(** * The DEFLATE decompressor (tinf/tinflate.c)

    A [tinf_data] is the stream state: the reader's position and bit buffer,
    the bounds of the output, and the two Huffman trees.  Reads and writes go
    to the flat memory.  Arrays on the stack start out uninitialised, an
    element without a value, and reading such an element is [Fault]. *)
From S2P Require Import Prelude Machine.

(** ** Arrays of integers, possibly uninitialised *)
Abbreviation array := (list (option Z)).

Definition uninit (n : nat) : array := replicate n None.
Definition aget (l : array) (i : Z) : outcome Z := o ← znth l i; of_option o.
Definition aset (l : array) (i v : Z) : outcome array := zset l i (Some v).

(** [for (i = 0; i < n; ++i) l[pos + i] = v;] *)
Fixpoint fill_const (n : nat) (l : array) (pos v : Z) : outcome array :=
  match n with
  | O => Done l
  | S n' => l ← aset l pos v; fill_const n' l (pos + 1) v
  end.

(** [for (i = 0; i < n; ++i) l[pos + i] = v + i;] *)
Fixpoint fill_run (n : nat) (l : array) (pos v : Z) : outcome array :=
  match n with
  | O => Done l
  | S n' => l ← aset l pos v; fill_run n' l (pos + 1) (v + 1)
  end.

(** ** State *)
Definition TINF_OK : Z := 0.
Definition TINF_DATA_ERROR : Z := -3.
Definition TINF_BUF_ERROR : Z := -5.

Record tinf_tree := Tree {
  counts : array;
  symbols : array;
  max_sym : option Z;
}.

Record tinf_data := Data {
  source : Z;
  source_end : Z;
  tag : Z;
  bitcount : Z;
  overflow : Z;
  dest_start : Z;
  dest : Z;
  dest_end : Z;
  ltree : tinf_tree;
  dtree : tinf_tree;
}.

Definition set_reader (d : tinf_data) (src tg bc ov : Z) : tinf_data :=
  Data src (source_end d) tg bc ov (dest_start d) (dest d) (dest_end d) (ltree d) (dtree d).
Definition set_dest (d : tinf_data) (p : Z) : tinf_data :=
  Data (source d) (source_end d) (tag d) (bitcount d) (overflow d) (dest_start d) p (dest_end d) (ltree d) (dtree d).
Definition set_trees (d : tinf_data) (lt dt : tinf_tree) : tinf_data :=
  Data (source d) (source_end d) (tag d) (bitcount d) (overflow d) (dest_start d) (dest d) (dest_end d) lt dt.

(** ** Huffman trees *)
Definition tinf_build_fixed_trees (lt dt : tinf_tree) : outcome (tinf_tree * tinf_tree) :=
  lc ← fill_const 16 (counts lt) 0 0;
  lc ← aset lc 7 24;
  lc ← aset lc 8 152;
  lc ← aset lc 9 112;
  ls ← fill_run 24 (symbols lt) 0 256;
  ls ← fill_run 144 ls 24 0;
  ls ← fill_run 8 ls (24 + 144) 280;
  ls ← fill_run 112 ls (24 + 144 + 8) 144;
  dc ← fill_const 16 (counts dt) 0 0;
  dc ← aset dc 5 32;
  ds ← fill_run 32 (symbols dt) 0 0;
  Done (Tree lc ls (Some 285), Tree dc ds (Some 29)).

(** Count number of codes for each non-zero length. *)
Fixpoint count_lengths (n : nat) (lengths : array) (off i : Z) (t : tinf_tree) : outcome tinf_tree :=
  match n with
  | O => Done t
  | S n' =>
      l ← aget lengths (off + i);
      _ ← c_assert (l <=? 15);
      t ← (if l =? 0 then Done t else
           c ← aget (counts t) l;
           cs ← aset (counts t) l (u16 (c + 1));
           Done (Tree cs (symbols t) (Some i)));
      count_lengths n' lengths off (i + 1) t
  end.

(** Compute offset table; [None] is the early return of TINF_DATA_ERROR. *)
Fixpoint offs_loop (n : nat) (counts : array) (i available num_codes : Z) (offs : array)
  : outcome (option (array * Z * Z)) :=
  match n with
  | O => Done (Some (offs, available, num_codes))
  | S n' =>
      used ← aget counts i;
      if available <? used then Done None else
      let available := u32 (2 * (available - used)) in
      offs ← aset offs i (u16 num_codes);
      offs_loop n' counts (i + 1) available (u32 (num_codes + used)) offs
  end.

(** [t->symbols[offs[lengths[i]]++] = i;] *)
Fixpoint fill_symbols (n : nat) (lengths : array) (off i : Z) (offs syms : array) : outcome array :=
  match n with
  | O => Done syms
  | S n' =>
      l ← aget lengths (off + i);
      if l =? 0 then fill_symbols n' lengths off (i + 1) offs syms else
      o ← aget offs l;
      offs ← aset offs l (u16 (o + 1));
      syms ← aset syms o (u16 i);
      fill_symbols n' lengths off (i + 1) offs syms
  end.

(** [tinf_build_tree(t, lengths + off, num)] *)
Definition tinf_build_tree (t : tinf_tree) (lengths : array) (off num : Z) : outcome (Z * tinf_tree) :=
  _ ← c_assert (num <=? 288);
  cs ← fill_const 16 (counts t) 0 0;
  t ← count_lengths (Z.to_nat num) lengths off 0 (Tree cs (symbols t) (Some (-1)));
  r ← offs_loop 16 (counts t) 0 1 0 (uninit 16);
  match r with
  | None => Done (TINF_DATA_ERROR, t)
  | Some (offs, available, num_codes) =>
      c1 ← aget (counts t) 1;
      if ((1 <? num_codes) && (0 <? available)) || ((num_codes =? 1) && negb (c1 =? 1))
      then Done (TINF_DATA_ERROR, t)
      else
        syms ← fill_symbols (Z.to_nat num) lengths off 0 offs (symbols t);
        let t := Tree (counts t) syms (max_sym t) in
        if num_codes =? 1 then
          ms ← of_option (max_sym t);
          cs ← aset (counts t) 1 2;
          syms ← aset syms 1 (u16 (ms + 1));
          Done (TINF_OK, Tree cs syms (max_sym t))
        else Done (TINF_OK, t)
  end.

(** ** Bit reader *)

(** The loop of [tinf_refill]; [num] is at most 32, so five rounds are enough. *)
Fixpoint refill_loop (fuel : nat) (m : mem) (d : tinf_data) (num : Z) : outcome tinf_data :=
  match fuel with
  | O => Stuck
  | S fuel' =>
      if bitcount d <? num then
        d ← (if negb (source d =? source_end d) then
               b ← load8 m (source d);
               Done (set_reader d (u32 (source d + 1))
                       (Z.lor (tag d) (u32 (Z.shiftl b (bitcount d)))) (bitcount d) (overflow d))
             else Done (set_reader d (source d) (tag d) (bitcount d) 1));
        refill_loop fuel' m (set_reader d (source d) (tag d) (bitcount d + 8) (overflow d)) num
      else Done d
  end.

Definition tinf_refill (m : mem) (d : tinf_data) (num : Z) : outcome tinf_data :=
  _ ← c_assert ((0 <=? num) && (num <=? 32));
  d ← refill_loop 5 m d num;
  _ ← c_assert (bitcount d <=? 32);
  Done d.

Definition tinf_getbits_no_refill (d : tinf_data) (num : Z) : outcome (Z * tinf_data) :=
  _ ← c_assert ((0 <=? num) && (num <=? bitcount d));
  let bits := Z.land (tag d) (u32 (u32 (Z.shiftl 1 num) - 1)) in
  Done (bits, set_reader d (source d) (Z.shiftr (tag d) num) (bitcount d - num) (overflow d)).

Definition tinf_getbits (m : mem) (d : tinf_data) (num : Z) : outcome (Z * tinf_data) :=
  d ← tinf_refill m d num;
  tinf_getbits_no_refill d num.

Definition tinf_getbits_base (m : mem) (d : tinf_data) (num base : Z) : outcome (Z * tinf_data) :=
  '(v, d) ← (if num =? 0 then Done (0, d) else tinf_getbits m d num);
  Done (u32 (base + v), d).

(** The loop over the lengths; the assertion stops it at 16. *)
Fixpoint decode_loop (fuel : nat) (m : mem) (d : tinf_data) (t : tinf_tree) (len base offs : Z)
  : outcome (Z * Z * tinf_data) :=
  match fuel with
  | O => Stuck
  | S fuel' =>
      '(b, d) ← tinf_getbits m d 1;
      let offs := 2 * offs + b in
      _ ← c_assert (len <=? 15);
      c ← aget (counts t) len;
      if offs <? c then Done (base, offs, d)
      else decode_loop fuel' m d t (len + 1) (base + c) (offs - c)
  end.

Definition tinf_decode_symbol (m : mem) (d : tinf_data) (t : tinf_tree) : outcome (Z * tinf_data) :=
  '(base, offs, d) ← decode_loop 16 m d t 1 0 0;
  _ ← c_assert ((0 <=? base + offs) && (base + offs <? 288));
  s ← aget (symbols t) (base + offs);
  Done (s, d).

(** ** Dynamic trees *)
Definition clcidx : list Z := [16; 17; 18; 0; 8; 7; 9; 6; 10; 5; 11; 4; 12; 3; 13; 2; 14; 1; 15].

(** Read code lengths for code length alphabet. *)
Fixpoint clen_loop (n : nat) (m : mem) (d : tinf_data) (i : Z) (lengths : array)
  : outcome (array * tinf_data) :=
  match n with
  | O => Done (lengths, d)
  | S n' =>
      '(clen, d) ← tinf_getbits m d 3;
      idx ← znth clcidx i;
      lengths ← aset lengths idx (u8 clen);
      clen_loop n' m d (i + 1) lengths
  end.

(** One code length symbol: the length it stands for and how often. *)
Definition length_run (m : mem) (d : tinf_data) (sym num : Z) (lengths : array)
  : outcome (option (Z * Z) * tinf_data) :=
  if sym =? 16 then
    if num =? 0 then Done (None, d) else
    l ← aget lengths (num - 1);
    '(n, d) ← tinf_getbits_base m d 2 3;
    Done (Some (l, n), d)
  else if sym =? 17 then
    '(n, d) ← tinf_getbits_base m d 3 3;
    Done (Some (0, n), d)
  else if sym =? 18 then
    '(n, d) ← tinf_getbits_base m d 7 11;
    Done (Some (0, n), d)
  else Done (Some (sym, 1), d).

(** Decode code lengths for the dynamic trees. *)
Fixpoint lengths_loop (fuel : nat) (m : mem) (d : tinf_data) (lt : tinf_tree) (total num : Z)
    (lengths : array) : outcome (option array * tinf_data) :=
  match fuel with
  | O => Stuck
  | S fuel' =>
      if num <? total then
        '(sym, d) ← tinf_decode_symbol m d lt;
        ms ← of_option (max_sym lt);
        if ms <? sym then Done (None, d) else
        '(r, d) ← length_run m d sym num lengths;
        match r with
        | None => Done (None, d)
        | Some (l, n) =>
            if u32 (total - num) <? n then Done (None, d) else
            lengths ← fill_const (Z.to_nat n) lengths num (u8 l);
            lengths_loop fuel' m d lt total (num + n) lengths
        end
      else Done (Some lengths, d)
  end.

(** The first part of [tinf_decode_trees]: the code length codes and the tree
    for them, built in the literal/length tree; [None] is TINF_DATA_ERROR. *)
Definition code_length_tree (m : mem) (d : tinf_data) (hclen : Z) : outcome (option array * tinf_data) :=
  lengths ← fill_const 19 (uninit (288 + 32)) 0 0;
  '(lengths, d) ← clen_loop (Z.to_nat hclen) m d 0 lengths;
  '(res, lt) ← tinf_build_tree (ltree d) lengths 0 19;
  let d := set_trees d lt (dtree d) in
  if negb (res =? TINF_OK) then Done (None, d) else
  ms ← of_option (max_sym lt);
  if ms =? -1 then Done (None, d) else Done (Some lengths, d).

(** Its last part: the check for the end-of-block code and the two trees. *)
Definition dynamic_trees (d : tinf_data) (lengths : array) (hlit hdist : Z) : outcome (Z * tinf_data) :=
  eob ← aget lengths 256;
  if eob =? 0 then Done (TINF_DATA_ERROR, d) else
  '(res, lt) ← tinf_build_tree (ltree d) lengths 0 hlit;
  let d := set_trees d lt (dtree d) in
  if negb (res =? TINF_OK) then Done (res, d) else
  '(res, dt) ← tinf_build_tree (dtree d) lengths hlit hdist;
  let d := set_trees d (ltree d) dt in
  if negb (res =? TINF_OK) then Done (res, d) else
  Done (TINF_OK, d).

(** [tinf_decode_trees(d, &d->ltree, &d->dtree)] *)
Definition tinf_decode_trees (m : mem) (d : tinf_data) : outcome (Z * tinf_data) :=
  '(hlit, d) ← tinf_getbits_base m d 5 257;
  '(hdist, d) ← tinf_getbits_base m d 5 1;
  '(hclen, d) ← tinf_getbits_base m d 4 4;
  if (286 <? hlit) || (30 <? hdist) then Done (TINF_DATA_ERROR, d) else
  '(r, d) ← code_length_tree m d hclen;
  match r with
  | None => Done (TINF_DATA_ERROR, d)
  | Some lengths =>
      '(r, d) ← lengths_loop (S (Z.to_nat (hlit + hdist))) m d (ltree d) (hlit + hdist) 0 lengths;
      match r with
      | None => Done (TINF_DATA_ERROR, d)
      | Some lengths => dynamic_trees d lengths hlit hdist
      end
  end.

(** ** Blocks *)
Definition length_bits : list Z :=
  [0; 0; 0; 0; 0; 0; 0; 0; 1; 1; 1; 1; 2; 2; 2; 2; 3; 3; 3; 3; 4; 4; 4; 4; 5; 5; 5; 5; 0; 127].
Definition length_base : list Z :=
  [3; 4; 5; 6; 7; 8; 9; 10; 11; 13; 15; 17; 19; 23; 27; 31; 35; 43; 51; 59;
   67; 83; 99; 115; 131; 163; 195; 227; 258; 0].
Definition dist_bits : list Z :=
  [0; 0; 0; 0; 1; 1; 2; 2; 3; 3; 4; 4; 5; 5; 6; 6; 7; 7; 8; 8; 9; 9; 10; 10; 11; 11; 12; 12; 13; 13].
Definition dist_base : list Z :=
  [1; 2; 3; 4; 5; 7; 9; 13; 17; 25; 33; 49; 65; 97; 129; 193; 257; 385; 513; 769;
   1025; 1537; 2049; 3073; 4097; 6145; 8193; 12289; 16385; 24577].

(** [p - q] of two byte pointers. *)
Definition ptrdiff (p q : Z) : Z := s32 (p - q).

(** [for (i = 0; i < length; ++i) d->dest[i] = d->dest[i - offs];] *)
Fixpoint copy_match (n : nat) (m : mem) (dst offs : Z) : outcome mem :=
  match n with
  | O => Done m
  | S n' =>
      b ← load8 m (dst - offs);
      m ← store8 m dst b;
      copy_match n' m (dst + 1) offs
  end.

Fixpoint tinf_inflate_block_data (fuel : nat) (m : mem) (d : tinf_data) (lt dt : tinf_tree)
  : outcome (Z * tinf_data * mem) :=
  match fuel with
  | O => Stuck
  | S fuel' =>
      '(sym, d) ← tinf_decode_symbol m d lt;
      if negb (overflow d =? 0) then Done (TINF_DATA_ERROR, d, m) else
      if sym <? 256 then
        if dest d =? dest_end d then Done (TINF_BUF_ERROR, d, m) else
        m ← store8 m (dest d) sym;
        tinf_inflate_block_data fuel' m (set_dest d (u32 (dest d + 1))) lt dt
      else if sym =? 256 then Done (TINF_OK, d, m) else
        lms ← of_option (max_sym lt);
        dms ← of_option (max_sym dt);
        if (lms <? sym) || (28 <? sym - 257) || (dms =? -1) then Done (TINF_DATA_ERROR, d, m) else
        let sym := sym - 257 in
        lb ← znth length_bits sym;
        lbase ← znth length_base sym;
        '(length, d) ← tinf_getbits_base m d lb lbase;
        '(dist, d) ← tinf_decode_symbol m d dt;
        if (dms <? dist) || (29 <? dist) then Done (TINF_DATA_ERROR, d, m) else
        db ← znth dist_bits dist;
        dbase ← znth dist_base dist;
        '(offs, d) ← tinf_getbits_base m d db dbase;
        if ptrdiff (dest d) (dest_start d) <? offs then Done (TINF_DATA_ERROR, d, m) else
        if ptrdiff (dest_end d) (dest d) <? length then Done (TINF_BUF_ERROR, d, m) else
        m ← copy_match (Z.to_nat length) m (dest d) offs;
        tinf_inflate_block_data fuel' m (set_dest d (u32 (dest d + length))) lt dt
  end.

Definition read_le16 (m : mem) (p : Z) : outcome Z :=
  b0 ← load8 m p;
  b1 ← load8 m (p + 1);
  Done (Z.lor b0 (u32 (Z.shiftl b1 8))).

(** [while (length--) *d->dest++ = *d->source++;] *)
Fixpoint copy_block (n : nat) (m : mem) (dst src : Z) : outcome mem :=
  match n with
  | O => Done m
  | S n' =>
      b ← load8 m src;
      m ← store8 m dst b;
      copy_block n' m (dst + 1) (src + 1)
  end.

Definition tinf_inflate_uncompressed_block (m : mem) (d : tinf_data) : outcome (Z * tinf_data * mem) :=
  if negb (source_end d =? 0) && (ptrdiff (source_end d) (source d) <? 4)
  then Done (TINF_DATA_ERROR, d, m) else
  length ← read_le16 m (source d);
  invlength ← read_le16 m (source d + 2);
  if negb (length =? Z.land (u32 (Z.lnot invlength)) 0x0000FFFF) then Done (TINF_DATA_ERROR, d, m) else
  let d := set_reader d (u32 (source d + 4)) (tag d) (bitcount d) (overflow d) in
  if negb (source_end d =? 0) && (u32 (source_end d - source d) <? length)
  then Done (TINF_DATA_ERROR, d, m) else
  if u32 (dest_end d - dest d) <? length then Done (TINF_BUF_ERROR, d, m) else
  m ← copy_block (Z.to_nat length) m (dest d) (source d);
  let d := set_dest d (u32 (dest d + length)) in
  Done (TINF_OK, set_reader d (u32 (source d + length)) 0 0 (overflow d), m).

Definition tinf_inflate_fixed_block (fuel : nat) (m : mem) (d : tinf_data) : outcome (Z * tinf_data * mem) :=
  '(lt, dt) ← tinf_build_fixed_trees (ltree d) (dtree d);
  tinf_inflate_block_data fuel m (set_trees d lt dt) lt dt.

Definition tinf_inflate_dynamic_block (fuel : nat) (m : mem) (d : tinf_data) : outcome (Z * tinf_data * mem) :=
  '(res, d) ← tinf_decode_trees m d;
  if negb (res =? TINF_OK) then Done (res, d, m) else
  tinf_inflate_block_data fuel m d (ltree d) (dtree d).

(** Decompress a block by its type. *)
Definition inflate_block (fuel : nat) (m : mem) (d : tinf_data) (btype : Z) : outcome (Z * tinf_data * mem) :=
  if btype =? 0 then tinf_inflate_uncompressed_block m d
  else if btype =? 1 then tinf_inflate_fixed_block fuel m d
  else if btype =? 2 then tinf_inflate_dynamic_block fuel m d
  else Done (TINF_DATA_ERROR, d, m).

(** The [do ... while (!bfinal)] loop of [tinf_uncompress]. *)
Fixpoint blocks_loop (fuel : nat) (m : mem) (d : tinf_data) : outcome (Z * tinf_data * mem) :=
  match fuel with
  | O => Stuck
  | S fuel' =>
      '(bfinal, d) ← tinf_getbits m d 1;
      '(btype, d) ← tinf_getbits m d 2;
      '(res, d, m) ← inflate_block fuel m d btype;
      if negb (res =? TINF_OK) then Done (res, d, m) else
      if bfinal =? 0 then blocks_loop fuel' m d else Done (TINF_OK, d, m)
  end.

Definition uninit_tree : tinf_tree := Tree (uninit 16) (uninit 288) None.

(** The result: the code returned, [*destLen] and [*sourceLen] as they are
    left, and the memory. *)
Record uncompressed := Uncompressed {
  u_res : Z;
  u_destLen : Z;
  u_sourceLen : option Z;
  u_mem : mem;
}.

(** [sourceLen] is [None] for a null pointer. *)
Definition tinf_uncompress (fuel : nat) (m : mem) (dst destLen src : Z) (sourceLen : option Z)
  : outcome uncompressed :=
  let send := match sourceLen with
              | Some n => if n =? 0 then 0 else u32 (src + n)
              | None => 0
              end in
  let d := Data src send 0 0 0 dst dst (u32 (dst + destLen)) uninit_tree uninit_tree in
  '(res, d, m) ← blocks_loop fuel m d;
  if negb (res =? TINF_OK) then Done (Uncompressed res destLen sourceLen m) else
  if negb (overflow d =? 0) then Done (Uncompressed TINF_DATA_ERROR destLen sourceLen m) else
  match sourceLen with
  | None => Done (Uncompressed TINF_OK (u32 (dest d - dest_start d)) None m)
  | Some n =>
      let slen := u32 (source d - src) in
      if n =? 0 then Done (Uncompressed TINF_OK (u32 (dest d - dest_start d)) (Some slen) m)
      else if negb (n =? slen) then Done (Uncompressed TINF_DATA_ERROR destLen sourceLen m)
      else Done (Uncompressed TINF_OK (u32 (dest d - dest_start d)) (Some n) m)
  end.
