(* ===== verification/InflateBits.v ===== *)
(** * The bit stream under the DEFLATE decompressor

    What the reader of tinflate.c still has to deliver is one list of bits:
    the [bitcount] bits buffered in [tag], then the bits of the bytes between
    [source] and [source_end], least significant first.  [getbits_spec] states
    each read as taking a prefix of that list. *)
From S2P Require Import Prelude Machine Inflate.

(** ** Bit lists, least significant bit first *)
Fixpoint low_bits (n : nat) (v : Z) : list bool :=
  match n with
  | O => []
  | S n' => Z.odd v :: low_bits n' (v / 2)
  end.

Fixpoint bits_value (bs : list bool) : Z :=
  match bs with
  | [] => 0
  | b :: bs' => Z.b2z b + 2 * bits_value bs'
  end.

Definition bytes_bits (bytes : list Z) : list bool := concat (map (low_bits 8) bytes).

Section bits.
Implicit Types (v : Z) (bs : list bool) (bytes : list Z).

Lemma low_bits_length n v : length (low_bits n v) = n.
Proof. revert v. induction n; intros; cbn; auto. Qed.

Lemma zlen_low_bits n v : zlen (low_bits n v) = Z.of_nat n.
Proof. unfold zlen. by rewrite low_bits_length. Qed.

Lemma low_bits_app n k v : low_bits (n + k) v = low_bits n v ++ low_bits k (v / 2 ^ Z.of_nat n).
Proof.
  revert v. induction n as [|n IH]; intros v.
  - cbn. by rewrite Z.div_1_r.
  - cbn [Nat.add low_bits app]. f_equal. rewrite IH. do 2 f_equal.
    replace (Z.of_nat (S n)) with (1 + Z.of_nat n) by lia.
    rewrite Z.pow_add_r, Zdiv_Zdiv by lia. done.
Qed.

Lemma low_bits_mod n v : low_bits n (v mod 2 ^ Z.of_nat n) = low_bits n v.
Proof.
  revert v. induction n as [|n IH]; intros v; [done|]. cbn [low_bits].
  replace (Z.of_nat (S n)) with (1 + Z.of_nat n) by lia.
  rewrite Z.pow_add_r, Z.rem_mul_r by lia. change (2 ^ 1) with 2. f_equal.
  - rewrite Z.odd_add_mul_2. rewrite <- !Z.bit0_odd. apply (Z.mod_pow2_bits_low v 1 0); lia.
  - rewrite (Z.mul_comm 2), Z.div_add, (Z.div_small (v mod 2)), Z.add_0_l by lia. apply IH.
Qed.

Lemma bits_value_range bs : 0 <= bits_value bs < 2 ^ zlen bs.
Proof.
  induction bs as [|b bs IH]; [by cbn|]. rewrite zlen_cons, Z.pow_add_r by (unfold zlen; lia).
  cbn [bits_value]. destruct b; cbn [Z.b2z]; lia.
Qed.

Lemma low_bits_bits_value bs : low_bits (length bs) (bits_value bs) = bs.
Proof.
  induction bs as [|b bs IH]; [done|]. cbn [length low_bits bits_value]. f_equal.
  - rewrite Z.odd_add_mul_2. by destruct b.
  - replace ((Z.b2z b + 2 * bits_value bs) / 2) with (bits_value bs); [done|]. destruct b; cbn [Z.b2z]; lia.
Qed.

Lemma bits_value_low_bits n v : 0 <= v < 2 ^ Z.of_nat n -> bits_value (low_bits n v) = v.
Proof.
  revert v. induction n as [|n IH]; intros v Hv; [cbn in *; lia|]. cbn [low_bits bits_value].
  replace (Z.of_nat (S n)) with (1 + Z.of_nat n) in Hv by lia. rewrite Z.pow_add_r in Hv by lia.
  rewrite IH by lia. rewrite (Zdiv2_odd_eqn v) at 3. rewrite Z.div2_div. destruct (Z.odd v); cbn [Z.b2z]; lia.
Qed.

(** Appending [hi] above the [n] low bits. *)
Lemma low_bits_add n k lo hi :
  0 <= lo < 2 ^ Z.of_nat n ->
  low_bits (n + k) (lo + 2 ^ Z.of_nat n * hi) = low_bits n lo ++ low_bits k hi.
Proof.
  intros Hlo. rewrite low_bits_app. f_equal.
  - rewrite <- (low_bits_mod n (lo + _)). f_equal. rewrite Z.mul_comm, Z_mod_plus_full. by apply Z.mod_small.
  - f_equal. rewrite Z.mul_comm, Z.div_add by lia. rewrite Z.div_small by lia. lia.
Qed.

Lemma low_bits_0 n : low_bits n 0 = replicate n false.
Proof. induction n as [|n IH]; [done|]. cbn [low_bits replicate]. by rewrite Z.div_0_l, IH. Qed.

Lemma bytes_bits_cons b bytes : bytes_bits (b :: bytes) = low_bits 8 b ++ bytes_bits bytes.
Proof. done. Qed.

Lemma bytes_bits_app l1 l2 : bytes_bits (l1 ++ l2) = bytes_bits l1 ++ bytes_bits l2.
Proof. unfold bytes_bits. by rewrite map_app, concat_app. Qed.

Lemma zlen_bytes_bits bytes : zlen (bytes_bits bytes) = 8 * zlen bytes.
Proof.
  induction bytes as [|b bytes IH]; [done|]. rewrite bytes_bits_cons, zlen_app, zlen_cons, zlen_low_bits, IH. lia.
Qed.

(** A run of bits of whole bytes begins with those bytes. *)
Lemma bytes_bits_inj l1 l2 rest :
  are_bytes l1 -> are_bytes l2 -> bytes_bits l2 = bytes_bits l1 ++ rest ->
  exists l3, l2 = l1 ++ l3 /\ rest = bytes_bits l3.
Proof.
  intros H1. revert l2. induction H1 as [|b l1 Hb _ IH]; intros l2 H2 E; [by exists l2|].
  destruct H2 as [|b2 l2 Hb2 H2]; [by cbn in E|].
  rewrite !bytes_bits_cons, <- app_assoc in E. apply app_inj_1 in E as [E1 E2]; [|by rewrite !low_bits_length].
  destruct (IH l2 H2 E2) as (l3 & -> & ->). exists l3. split; [|done]. cbn. f_equal.
  unfold is_byte in *. rewrite <- (bits_value_low_bits 8 b2), <- (bits_value_low_bits 8 b) by (cbn; lia). by rewrite E1.
Qed.
End bits.

#[global] Arguments low_bits : simpl never.
#[global] Arguments bytes_bits : simpl never.

(** ** The reader *)

(** The reader [d] stands in front of [bytes], which end at [source_end].  Only
    at the end of the source can the overflow flag be set. *)
Record reader (m : mem) (d : tinf_data) (bytes : list Z) : Prop := {
  rd_at : bytes_at m (source d) bytes;
  rd_bytes : are_bytes bytes;
  rd_source : 0 <= source d;
  rd_end : source_end d = source d + zlen bytes;
  rd_end32 : source_end d < 2 ^ 32;
  rd_bitcount : 0 <= bitcount d < 8;
  rd_tag : 0 <= tag d < 2 ^ bitcount d;
  rd_overflow : overflow d = 0 \/ overflow d = 1 /\ bytes = [];
}.

(** The bits the reader still has to deliver. *)
Definition stream (d : tinf_data) (bytes : list Z) : list bool :=
  low_bits (Z.to_nat (bitcount d)) (tag d) ++ bytes_bits bytes.

(** Reading moves [source] towards [source_end] and changes nothing else but
    the bit buffer and the overflow flag. *)
Record advances (d d' : tinf_data) : Prop := {
  av_source : source d <= source d';
  av_end : source_end d' = source_end d;
  av_dest : dest d' = dest d;
  av_start : dest_start d' = dest_start d;
  av_dest_end : dest_end d' = dest_end d;
  av_ltree : ltree d' = ltree d;
  av_dtree : dtree d' = dtree d;
}.

#[export] Instance advances_refl : Reflexive advances.
Proof. by constructor. Qed.

#[export] Instance advances_trans : Transitive advances.
Proof. intros d1 d2 d3 [] []. constructor; first [lia|congruence]. Qed.

(** A read of [num] bits: either the stream has them, and [v] is their value,
    or it has not and the overflow flag is set. *)
Definition takes (d : tinf_data) (bytes : list Z) (num : Z) (v : Z) (d' : tinf_data) (bytes' : list Z) : Prop :=
  if num <=? zlen (stream d bytes)
  then overflow d' = overflow d /\ stream d bytes = low_bits (Z.to_nat num) v ++ stream d' bytes'
  else overflow d' = 1.

Section reader_spec.
Implicit Types (m : mem) (d : tinf_data) (bytes : list Z).

Lemma zlen_stream m d bytes : reader m d bytes -> zlen (stream d bytes) = bitcount d + 8 * zlen bytes.
Proof. intros []. unfold stream. rewrite zlen_app, zlen_low_bits, zlen_bytes_bits. lia. Qed.

(** The state inside [tinf_refill]: the bit buffer may hold up to 32 bits. *)
Record filling (m : mem) (d : tinf_data) (bytes : list Z) : Prop := {
  fl_at : bytes_at m (source d) bytes;
  fl_bytes : are_bytes bytes;
  fl_source : 0 <= source d;
  fl_end : source_end d = source d + zlen bytes;
  fl_end32 : source_end d < 2 ^ 32;
  fl_bitcount : 0 <= bitcount d <= 32;
  fl_tag : 0 <= tag d < 2 ^ bitcount d;
  fl_overflow : overflow d = 0 \/ overflow d = 1 /\ bytes = [];
}.

Lemma shift_byte b k : is_byte b -> 0 <= k <= 24 -> u32 (Z.shiftl b k) = 2 ^ k * b.
Proof.
  unfold is_byte. intros Hb Hk. rewrite Z.shiftl_mul_pow2 by lia.
  assert (2 ^ k <= 2 ^ 24) by (apply Z.pow_le_mono_r; lia).
  rewrite u32_small; [lia|]. split; [nia|]. change (2 ^ 32) with (256 * 2 ^ 24). nia.
Qed.

(** One byte moves from the source to the bit buffer. *)
Lemma fill_byte m d b bytes :
  filling m d (b :: bytes) -> bitcount d <= 24 ->
  let d' := set_reader d (u32 (source d + 1)) (Z.lor (tag d) (u32 (Z.shiftl b (bitcount d)))) (bitcount d + 8) (overflow d) in
  filling m d' bytes /\ advances d d' /\ stream d' bytes = stream d (b :: bytes).
Proof.
  intros [Hat Hbs Hs He He32 Hbc Ht Ho] Hbc24 d'. rewrite zlen_cons in He. pose proof (zlen_nonneg bytes).
  destruct Hat as [[Hb Ha] Hat]. apply Forall_cons in Hbs as [Hbyte Hbs].
  unfold d'. rewrite u32_small, shift_byte, lor_disjoint by (done || lia).
  unfold is_byte in Hbyte. assert (0 < 2 ^ bitcount d) by lia.
  split; [|split].
  - constructor; cbn; try lia; try done.
    + rewrite Z.pow_add_r by lia. nia.
    + destruct Ho as [|[? ?]]; [by left|done].
  - constructor; cbn; try done; lia.
  - unfold stream. cbn. rewrite bytes_bits_cons, app_assoc. f_equal.
    replace (Z.to_nat (bitcount d + 8)) with (Z.to_nat (bitcount d) + 8)%nat by lia.
    rewrite <- (low_bits_add (Z.to_nat (bitcount d)) 8) by (rewrite Z2Nat.id; lia).
    by rewrite Z2Nat.id by lia.
Qed.

(** Past the end zero bits are supplied and the flag is set. *)
Lemma fill_overflow m d :
  filling m d [] -> bitcount d <= 24 ->
  let d' := set_reader d (source d) (tag d) (bitcount d + 8) 1 in
  filling m d' [] /\ advances d d' /\ overflow d' = 1.
Proof.
  intros [Hat Hbs Hs He He32 Hbc Ht Ho] Hbc24 d'. split; [|split; [by constructor|done]].
  constructor; cbn; try done; try lia; [|by right].
  rewrite Z.pow_add_r by lia. lia.
Qed.

Lemma zlen_stream_filling m d bytes : filling m d bytes -> zlen (stream d bytes) = bitcount d + 8 * zlen bytes.
Proof. intros []. unfold stream. rewrite zlen_app, zlen_low_bits, zlen_bytes_bits. lia. Qed.

Lemma refill_loop_spec fuel m d bytes num :
  filling m d bytes -> 0 <= num <= 24 -> bitcount d < num + 8 ->
  num - bitcount d <= 8 * (Z.of_nat fuel - 1) -> (0 < fuel)%nat ->
  exists d' bytes', refill_loop fuel m d num = Done d' /\ filling m d' bytes' /\ advances d d' /\
    num <= bitcount d' < num + 8 /\
    if num <=? zlen (stream d bytes)
    then overflow d' = overflow d /\ stream d' bytes' = stream d bytes else overflow d' = 1.
Proof.
  revert d bytes. induction fuel as [|fuel IH]; intros d bytes Hf Hn Hb Hfuel Hpos; [lia|].
  cbn [refill_loop]. destruct (bitcount d <? num) eqn:E; b2p.
  2: { exists d, bytes. rewrite (zlen_stream_filling m) by done. pose proof (zlen_nonneg bytes). bdec. split_and!; done || lia. }
  pose proof Hf as [Hat Hbs Hs He He32 Hbc Ht Ho]. rewrite (zlen_stream_filling m d bytes) by done.
  destruct bytes as [|b bytes].
  - rewrite zlen_nil in *. replace (source d =? source_end d) with true by (symmetry; apply Z.eqb_eq; lia).
    cbn [negb]. rewrite bind_Done. cbn [set_reader source tag bitcount overflow].
    destruct (fill_overflow m d Hf) as (Hf' & Ha & Hov); [lia|].
    destruct (IH (set_reader d (source d) (tag d) (bitcount d + 8) 1) [] Hf') as (d' & bytes' & Hrun & ? & Ha' & ? & Hov');
      [cbn [set_reader bitcount]; lia..|].
    exists d', bytes'. rewrite (zlen_stream_filling m) in Hov' by done. rewrite (zlen_nil (A := Z)) in Hov'. bdec.
    split; [exact Hrun|]. split; [done|]. split; [by etrans|]. split; [done|].
    match type of Hov' with if ?b then _ else _ => destruct b end; [by destruct Hov' as [-> _]|done].
  - rewrite zlen_cons in *. pose proof (zlen_nonneg bytes).
    replace (source d =? source_end d) with false by (symmetry; apply Z.eqb_neq; lia).
    cbn [negb]. rewrite (load8_lookup m (source d) b) by apply Hat. rewrite !bind_Done.
    cbn [set_reader source tag bitcount overflow].
    destruct (fill_byte m d b bytes Hf) as (Hf' & Ha & Hst); [lia|].
    match type of Hf' with filling _ ?x _ =>
      destruct (IH x bytes Hf') as (d' & bytes' & Hrun & ? & Ha' & ? & Hov');
        [cbn [set_reader bitcount]; lia..|] end.
    exists d', bytes'. rewrite Hst, (zlen_stream_filling m d), zlen_cons in Hov' by done.
    split; [exact Hrun|]. split; [done|]. split; [by etrans|]. split; [done|].
    case_if; [|done]. by destruct Hov'.
Qed.

Lemma reader_filling m d bytes : reader m d bytes -> filling m d bytes.
Proof. intros []. constructor; auto; lia. Qed.

Lemma land_mask x n : 0 <= n < 32 -> Z.land x (u32 (u32 (Z.shiftl 1 n) - 1)) = x mod 2 ^ n.
Proof.
  intros Hn. rewrite Z.shiftl_1_l. assert (0 < 2 ^ n) by lia.
  assert (2 ^ n <= 2 ^ 31) by (apply Z.pow_le_mono_r; lia).
  rewrite (u32_small (2 ^ n)) by lia. rewrite u32_small by lia.
  rewrite <- Z.land_ones by lia. by rewrite Z.ones_equiv, Z.sub_1_r.
Qed.

Lemma getbits_spec m d bytes num :
  reader m d bytes -> 0 <= num <= 24 ->
  exists v d' bytes', tinf_getbits m d num = Done (v, d') /\ reader m d' bytes' /\ advances d d' /\
    0 <= v < 2 ^ num /\ takes d bytes num v d' bytes'.
Proof.
  intros Hr Hn. unfold tinf_getbits, tinf_refill, takes. c_ok. pose proof (rd_bitcount _ _ _ Hr).
  destruct (refill_loop_spec 5 m d bytes num (reader_filling _ _ _ Hr)) as (d1 & bytes1 & -> & Hf & Ha & Hbc & Hov); try lia.
  rewrite bind_Done. c_ok. unfold tinf_getbits_no_refill. c_ok. rewrite land_mask by lia. destruct Hf as [Hat Hbs Hs He He32 Hbc1 Ht Ho].
  assert (0 < 2 ^ num) by lia. rewrite Z.shiftr_div_pow2 by lia.
  assert (2 ^ bitcount d1 = 2 ^ num * 2 ^ (bitcount d1 - num)) as Hpow by (rewrite <- Z.pow_add_r by lia; f_equal; lia).
  eexists _, _, bytes1. split; [reflexivity|]. split; [|split; [|split]].
  - constructor; cbn; try done; try lia. rewrite Hpow in Ht. split; [apply Z.div_pos; lia|]. apply Z.div_lt_upper_bound; lia.
  - destruct Ha. by constructor.
  - lia.
  - case_if; [|done]. destruct Hov as [Hov <-]. split; [done|]. unfold stream. cbn [set_reader bitcount tag].
    replace (Z.to_nat (bitcount d1)) with (Z.to_nat num + Z.to_nat (bitcount d1 - num))%nat by lia.
    rewrite low_bits_app, Z2Nat.id, <- app_assoc by lia. f_equal.
    rewrite <- (low_bits_mod (Z.to_nat num) (tag d1)). by rewrite Z2Nat.id by lia.
Qed.
End reader_spec.

(** ** Consequences used by the decoders *)
Section takes_facts.
Implicit Types (m : mem) (d : tinf_data) (bytes : list Z).

Lemma takes_sticky d bytes num v d' bytes' :
  takes d bytes num v d' bytes' -> overflow d = 1 -> overflow d' = 1.
Proof. unfold takes. case_if; [intros [-> _]; done|done]. Qed.

(** A read shortens the stream by its width, unless it overflows. *)
Lemma takes_length d bytes num v d' bytes' :
  0 <= num -> takes d bytes num v d' bytes' ->
  overflow d' = 1 \/ overflow d' = overflow d /\ zlen (stream d bytes) = num + zlen (stream d' bytes').
Proof.
  intros Hn. unfold takes. case_if; [|auto]. intros [? ->]. right. rewrite zlen_app, zlen_low_bits. split; [done|lia].
Qed.

(** A read of known bits delivers their value and leaves the rest. *)
Lemma takes_prefix d bytes num v d' bytes' w rest :
  takes d bytes num v d' bytes' -> stream d bytes = w ++ rest -> zlen w = num -> 0 <= v < 2 ^ num ->
  v = bits_value w /\ stream d' bytes' = rest /\ overflow d' = overflow d.
Proof.
  unfold takes. intros Ht E Hw Hv. rewrite E, zlen_app in Ht.
  pose proof (zlen_nonneg rest). pose proof (zlen_nonneg w).
  revert Ht. bdec. intros [Ho Hs]. apply app_inj_1 in Hs as [Hs ->].
  - split; [|done]. rewrite Hs. rewrite bits_value_low_bits; [done|]. rewrite Z2Nat.id; lia.
  - rewrite low_bits_length. unfold zlen in Hw. lia.
Qed.

Lemma getbits_base_spec m d bytes num base :
  reader m d bytes -> 0 <= num <= 24 -> 0 <= base < 2 ^ 31 ->
  exists v d' bytes', tinf_getbits_base m d num base = Done (base + v, d') /\ reader m d' bytes' /\
    advances d d' /\ 0 <= v < 2 ^ num /\ takes d bytes num v d' bytes'.
Proof.
  intros Hr Hn Hb. assert (2 ^ num <= 2 ^ 24) by (apply Z.pow_le_mono_r; lia).
  unfold tinf_getbits_base. destruct (num =? 0) eqn:E; b2p.
  - subst num. exists 0, d, bytes. rewrite bind_Done, u32_small by lia.
    split_and!; try done; try lia. unfold takes. pose proof (zlen_nonneg (stream d bytes)). bdec. done.
  - destruct (getbits_spec m d bytes num Hr Hn) as (v & d' & bytes' & -> & Hr' & Ha & Hv & Ht).
    exists v, d', bytes'. rewrite bind_Done, u32_small by lia. done.
Qed.
End takes_facts.
