(* ===== verification/Huffman.v ===== *)
(** * Canonical Huffman codes (tinf_build_tree, tinf_decode_symbol)

    A code is given by the list of its code lengths, zero for a symbol without
    a code word.  RFC 1951, section 3.2.2 assigns the code words: shorter words
    come first, words of one length are numbered in the order of their symbols.
    The tree of tinflate.c keeps how many words each length has and the symbols
    in that order.  [build_tree_spec] states what the builder accepts and
    returns, [decode_codeword] that the decoder inverts the assignment. *)
From S2P Require Import Prelude Machine Inflate InflateBits.

(** ** The code words of RFC 1951 *)

(** Symbols among [ls] whose code has length [l]. *)
Fixpoint occurrences (l : Z) (ls : list Z) : Z :=
  match ls with
  | [] => 0
  | x :: ls' => (if x =? l then 1 else 0) + occurrences l ls'
  end.

(** [bl_count] of the RFC: no code word has length 0. *)
Definition bl_count (ls : list Z) (l : Z) : Z := if l =? 0 then 0 else occurrences l ls.

(** The numbers of code words of length 0 to 15. *)
Definition code_counts (ls : list Z) : list Z := map (bl_count ls) (seqZ 0 16).

Definition count_at (cs : list Z) (l : nat) : Z := nth l cs 0.

(** [next_code] of the RFC: the first code word of length [l]. *)
Fixpoint first_code (cs : list Z) (l : nat) : Z :=
  match l with
  | O => 0
  | S l' => 2 * (first_code cs l' + count_at cs l')
  end.

(** Code words shorter than [l]. *)
Fixpoint words_below (cs : list Z) (l : nat) : Z :=
  match l with
  | O => 0
  | S l' => words_below cs l' + count_at cs l'
  end.

(** Huffman codes are packed starting with the most significant bit. *)
Definition msb_bits (l : nat) (v : Z) : list bool := rev (low_bits l v).

(** Symbols before [s] whose code is as long as that of [s]. *)
Definition rank (ls : list Z) (s : Z) (l : Z) : Z := occurrences l (take (Z.to_nat s) ls).

Definition length_of (ls : list Z) (s : Z) : Z := nth (Z.to_nat s) ls 0.

Definition codeword (ls : list Z) (s : Z) : list bool :=
  let l := length_of ls s in
  msb_bits (Z.to_nat l) (first_code (code_counts ls) (Z.to_nat l) + rank ls s l).

(** Every code value is used; the sum is scaled by 2^15. *)
Fixpoint kraft (ls : list Z) : Z :=
  match ls with
  | [] => 0
  | x :: ls' => (if x =? 0 then 0 else 2 ^ (15 - x)) + kraft ls'
  end.

(** The last symbol that has a code word, or -1. *)
Fixpoint last_symbol (ls : list Z) (i : Z) : Z :=
  match ls with
  | [] => -1
  | x :: ls' => let r := last_symbol ls' (i + 1) in if (r =? -1) && negb (x =? 0) then i else r
  end.

Definition lengths_ok (ls : list Z) : Prop := Forall (fun x => 0 <= x <= 15) ls.

(** Case analysis on a code length. *)
Ltac length_cases x :=
  assert (x = 0 \/ x = 1 \/ x = 2 \/ x = 3 \/ x = 4 \/ x = 5 \/ x = 6 \/ x = 7 \/ x = 8 \/ x = 9 \/ x = 10 \/
          x = 11 \/ x = 12 \/ x = 13 \/ x = 14 \/ x = 15) as Hcases by lia;
  repeat (destruct Hcases as [Hcases|Hcases]); subst x;
  repeat match goal with
  | |- context [?a =? ?b] => let v := eval vm_compute in (a =? b) in change (a =? b) with v
  end.

(** Evaluate the integers written as naturals of the goal. *)
Ltac nat_consts :=
  repeat match goal with
  | |- context [Z.of_nat ?n] => let z := eval cbv in (Z.of_nat n) in progress change (Z.of_nat n) with z
  end.

Section codes.
Implicit Types (ls cs : list Z).

Lemma occurrences_app x l1 l2 : occurrences x (l1 ++ l2) = occurrences x l1 + occurrences x l2.
Proof. induction l1 as [|y l1 IH]; cbn; lia. Qed.

Lemma occurrences_range x ls : 0 <= occurrences x ls <= zlen ls.
Proof. induction ls as [|y ls IH]; [done|]. rewrite zlen_cons. cbn. case_if; lia. Qed.

Lemma bl_count_app x l1 l2 : bl_count (l1 ++ l2) x = bl_count l1 x + bl_count l2 x.
Proof. unfold bl_count. rewrite occurrences_app. case_if; lia. Qed.

Lemma bl_count_range x ls : 0 <= bl_count ls x <= zlen ls.
Proof. unfold bl_count. pose proof (occurrences_range x ls). case_if; lia. Qed.

Lemma code_counts_length ls : length (code_counts ls) = 16%nat.
Proof. done. Qed.

Lemma code_counts_lookup ls (i : nat) :
  (i < 16)%nat -> code_counts ls !! i = Some (bl_count ls (Z.of_nat i)).
Proof. intros Hi. unfold code_counts. rewrite list_lookup_fmap, lookup_seqZ_lt by lia. done. Qed.

Lemma count_at_code_counts ls (l : nat) : (l < 16)%nat -> count_at (code_counts ls) l = bl_count ls (Z.of_nat l).
Proof. intros. unfold count_at. erewrite nth_lookup_Some; [done|]. by apply code_counts_lookup. Qed.

Lemma count_at_lookup cs (l : nat) : (l < length cs)%nat -> cs !! l = Some (count_at cs l).
Proof.
  intros Hl. destruct (lookup_lt_is_Some_2 cs l Hl) as [x Hx]. unfold count_at.
  by rewrite (nth_lookup_Some _ _ _ _ Hx).
Qed.

Lemma code_counts_nonneg ls (l : nat) : 0 <= count_at (code_counts ls) l.
Proof.
  destruct (decide (l < 16)%nat).
  - rewrite count_at_code_counts by done. apply bl_count_range.
  - unfold count_at. rewrite nth_overflow; [done|]. rewrite code_counts_length. lia.
Qed.

Lemma first_code_grows cs (l k : nat) :
  (forall j, 0 <= count_at cs j) -> 2 ^ Z.of_nat k * first_code cs l <= first_code cs (l + k).
Proof.
  intros Hc. induction k as [|k IH]; [rewrite Nat.add_0_r; cbn; lia|].
  rewrite Nat.add_succ_r. cbn [first_code]. specialize (Hc (l + k)%nat).
  replace (Z.of_nat (S k)) with (1 + Z.of_nat k) by lia. rewrite Z.pow_add_r by lia. lia.
Qed.

Lemma first_code_nonneg cs (l : nat) : (forall j, 0 <= count_at cs j) -> 0 <= first_code cs l.
Proof. intros Hc. induction l as [|l IH]; cbn [first_code]; [done|]. specialize (Hc l). lia. Qed.

Lemma words_below_mono cs (l l' : nat) :
  (forall j, 0 <= count_at cs j) -> (l <= l')%nat -> words_below cs l <= words_below cs l'.
Proof. intros Hc. induction 1 as [|l' _ IH]; [done|]. cbn [words_below]. specialize (Hc l'). lia. Qed.

Lemma words_below_nonneg cs (l : nat) : (forall j, 0 <= count_at cs j) -> 0 <= words_below cs l.
Proof. intros Hc. apply (words_below_mono cs 0 l Hc). lia. Qed.

(** A position within the words of length [l] lies below those of [l + 1]. *)
Lemma words_below_next cs (l l' : nat) :
  (forall j, 0 <= count_at cs j) -> (l < l')%nat -> words_below cs l + count_at cs l <= words_below cs l'.
Proof. intros Hc Hl. apply (words_below_mono cs (S l) l' Hc). lia. Qed.

(** Full use of the code space is Kraft's equality. *)
Lemma first_code_kraft ls : lengths_ok ls -> first_code (code_counts ls) 16 = 2 * kraft ls.
Proof.
  intros Hls. cbn [first_code]. rewrite !count_at_code_counts by lia.
  nat_consts. unfold bl_count. bdec.
  induction Hls as [|x ls Hx _ IH]; [done|]. cbn [occurrences kraft].
  length_cases x; 
    match goal with |- context [2 ^ (15 - ?a)] => let v := eval vm_compute in (2 ^ (15 - a)) in change (2 ^ (15 - a)) with v | _ => idtac end; lia.
Qed.

Lemma words_zeros ls :
  lengths_ok ls -> words_below (code_counts ls) 16 = zlen ls - occurrences 0 ls.
Proof.
  intros Hls. cbn [words_below]. rewrite !count_at_code_counts by lia.
  nat_consts. unfold bl_count. bdec.
  induction Hls as [|x ls Hx _ IH]; [done|]. rewrite zlen_cons. cbn [occurrences].
  length_cases x; lia.
Qed.
End codes.

(** ** The decoder on a complete tree *)

(** A tree whose [cs] code words fill the code space: every bit string runs
    into one of them, and its symbol is initialised and at most [top]. *)
Record decodes (t : tinf_tree) (cs : list Z) (top : Z) : Prop := {
  dc_counts : counts t = Some <$> cs;
  dc_length : length cs = 16%nat;
  dc_zero : count_at cs 0 = 0;
  dc_nonneg : forall l, 0 <= count_at cs l;
  dc_full : first_code cs 16 = 2 ^ 16;
  dc_words : words_below cs 16 <= 288;
  dc_symbols : forall i, 0 <= i < words_below cs 16 ->
    exists s, aget (symbols t) i = Done s /\ 0 <= s <= top;
}.

(** [w] is the code word of the symbol [s] in the tree. *)
Definition word_of (t : tinf_tree) (cs : list Z) (s : Z) (w : list bool) : Prop :=
  exists (l : nat) r, (1 <= l <= 15)%nat /\ 0 <= r < count_at cs l /\
    w = msb_bits l (first_code cs l + r) /\ aget (symbols t) (words_below cs l + r) = Done s.

Section decoder.
Implicit Types (m : mem) (d : tinf_data) (bytes : list Z).
Context (t : tinf_tree) (cs : list Z) (top : Z) (Ht : decodes t cs top).

#[local] Set Default Proof Using "Ht".

Lemma aget_fmap (xs : list Z) i : aget (Some <$> xs) i = znth xs i.
Proof using Type.
  unfold aget, znth. case_if; [done|]. rewrite list_lookup_fmap. by destruct (xs !! Z.to_nat i).
Qed.

Lemma aget_counts (l : nat) : (l <= 15)%nat -> aget (counts t) (Z.of_nat l) = Done (count_at cs l).
Proof.
  intros Hl. rewrite (dc_counts _ _ _ Ht), aget_fmap. apply znth_Done. split; [lia|].
  rewrite Nat2Z.id. apply count_at_lookup. rewrite (dc_length _ _ _ Ht). lia.
Qed.

(** Whatever the input, the search ends within fifteen bits. *)
Lemma decode_loop_total k m d bytes (len : nat) offs :
  reader m d bytes -> (len + k = 17)%nat -> (1 <= len)%nat -> 0 <= offs ->
  2 * offs + first_code cs len <= 2 ^ Z.of_nat len - 2 ->
  exists b o d' bytes', decode_loop k m d t (Z.of_nat len) (words_below cs len) offs = Done (b, o, d') /\
    reader m d' bytes' /\ advances d d' /\ 0 <= b + o < words_below cs 16 /\
    (overflow d' = 1 \/ overflow d' = overflow d /\ zlen (stream d' bytes') < zlen (stream d bytes)).
Proof.
  pose proof (dc_nonneg _ _ _ Ht) as Hc.
  revert len offs d bytes. induction k as [|k IH]; intros len offs d bytes Hr Hk Hl Ho Hv.
  { pose proof (first_code_grows cs 16 1 Hc) as Hg. rewrite (dc_full _ _ _ Ht) in Hg.
    replace (16 + 1)%nat with len in Hg by lia. replace (Z.of_nat len) with 17 in Hv by lia. lia. }
  destruct (decide (len = 16%nat)) as [->|]; [rewrite (dc_full _ _ _ Ht) in Hv; lia|].
  cbn [decode_loop]. destruct (getbits_spec m d bytes 1 Hr) as (b & d1 & bytes1 & -> & Hr1 & Ha1 & Hb & Htk); [lia|].
  rewrite bind_Done. c_ok. rewrite aget_counts, bind_Done by lia.
  assert (overflow d1 = 1 \/ overflow d1 = overflow d /\ zlen (stream d1 bytes1) < zlen (stream d bytes)) as Hmeas.
  { destruct (takes_length d bytes 1 b d1 bytes1) as [|[? ?]]; [lia|done|by left|right; split; [done|lia]]. }
  pose proof (words_below_nonneg cs len Hc). specialize (Hc len) as Hcl.
  destruct (2 * offs + b <? count_at cs len) eqn:E; b2p.
  - exists (words_below cs len), (2 * offs + b), d1, bytes1. split_and!; try done; [lia|].
    pose proof (words_below_next cs len 16 Hc). lia.
  - replace (Z.of_nat len + 1) with (Z.of_nat (S len)) by lia.
    destruct (IH (S len) (2 * offs + b - count_at cs len) d1 bytes1 Hr1) as (b' & o' & d' & bytes' & Hrun & Hr' & Ha' & Hi & Hm').
    1-3: lia.
    { cbn [first_code]. replace (Z.of_nat (S len)) with (1 + Z.of_nat len) by lia. rewrite Z.pow_add_r by lia. lia. }
    exists b', o', d', bytes'. split_and!; try done; [by etrans|lia..|].
    destruct Hm' as [|[E1 ?]]; [by left|]. rewrite E1. destruct Hmeas as [|[? ?]]; [by left|right; split; [done|lia]].
Qed.

Lemma decode_symbol_total m d bytes :
  reader m d bytes ->
  exists s d' bytes', tinf_decode_symbol m d t = Done (s, d') /\ reader m d' bytes' /\ advances d d' /\
    0 <= s <= top /\
    (overflow d' = 1 \/ overflow d' = overflow d /\ zlen (stream d' bytes') < zlen (stream d bytes)).
Proof.
  intros Hr. unfold tinf_decode_symbol. pose proof (dc_zero _ _ _ Ht) as H0.
  destruct (decode_loop_total 16 m d bytes 1 0 Hr) as (b & o & d' & bytes' & Hrun & Hr' & Ha & Hi & Hm); [lia..| |].
  { cbn [first_code]. rewrite H0. cbn. lia. }
  cbn [words_below] in Hrun. rewrite H0 in Hrun. change (0 + 0) with 0 in Hrun. change (Z.of_nat 1) with 1 in Hrun.
  rewrite Hrun, bind_Done. pose proof (dc_words _ _ _ Ht). c_ok.
  destruct (dc_symbols _ _ _ Ht (b + o) Hi) as (s & -> & Hs). rewrite bind_Done. by exists s, d', bytes'.
Qed.

Lemma msb_bits_S l v : msb_bits (S l) v = Z.odd (v / 2 ^ Z.of_nat l) :: msb_bits l v.
Proof using Type.
  unfold msb_bits. replace (S l) with (l + 1)%nat by lia. rewrite low_bits_app, rev_app_distr. done.
Qed.

Lemma odd_div v (l : nat) :
  2 * (v / 2 ^ Z.of_nat (S l)) + Z.b2z (Z.odd (v / 2 ^ Z.of_nat l)) = v / 2 ^ Z.of_nat l.
Proof using Type.
  replace (Z.of_nat (S l)) with (Z.of_nat l + 1) by lia. rewrite Z.pow_add_r, <- Z.div_div by lia.
  change (2 ^ 1) with 2. rewrite <- Z.div2_div. symmetry. rewrite (Zdiv2_odd_eqn (v / _)) at 1.
  by destruct (Z.odd _).
Qed.

(** After [len - 1] bits of a code word of length [l] the search is at the
    node those bits lead to; [j] bits are left after the next one. *)
Lemma decode_loop_word k m d bytes (l j len : nat) offs r rest :
  reader m d bytes -> (len + k = 17)%nat -> (1 <= len)%nat -> (len + j = l)%nat -> (l <= 15)%nat ->
  0 <= r < count_at cs l -> let v := first_code cs l + r in
  2 * offs + first_code cs len = 2 * (v / 2 ^ Z.of_nat (S j)) ->
  stream d bytes = msb_bits (S j) v ++ rest ->
  exists d' bytes', decode_loop k m d t (Z.of_nat len) (words_below cs len) offs = Done (words_below cs l, r, d') /\
    reader m d' bytes' /\ advances d d' /\ overflow d' = overflow d /\ stream d' bytes' = rest.
Proof.
  pose proof (dc_nonneg _ _ _ Ht) as Hc. cbn zeta. remember (first_code cs l + r) as v eqn:Hvr.
  revert j len offs d bytes. induction k as [|k IH]; intros j len offs d bytes Hr Hk Hl Hj Hl15 Hrk Ho Hst; [lia|].
  cbn [decode_loop]. destruct (getbits_spec m d bytes 1 Hr) as (b & d1 & bytes1 & -> & Hr1 & Ha1 & Hb & Htk); [lia|].
  rewrite msb_bits_S in Hst.
  destruct (takes_prefix _ _ _ _ _ _ [Z.odd (v / 2 ^ Z.of_nat j)] (msb_bits j v ++ rest) Htk Hst) as (Hbv & Hst1 & Hov1);
    [done|done|].
  cbn [bits_value] in Hbv. rewrite Z.mul_0_r, Z.add_0_r in Hbv.
  rewrite bind_Done. c_ok. rewrite aget_counts, bind_Done by lia.
  pose proof (odd_div v j) as Hodd. destruct j as [|j].
  - replace len with l in * by lia. change (2 ^ Z.of_nat 0) with 1 in *. rewrite Z.div_1_r in *.
    assert (2 * offs + b = r) as -> by lia. bdec. by exists d1, bytes1.
  - assert (2 * offs + b >= count_at cs len).
    { assert (first_code cs (S len) <= 2 * (v / 2 ^ Z.of_nat (S j))) as Hge; [|cbn [first_code] in Hge; lia].
      pose proof (first_code_grows cs (S len) j Hc) as Hg. replace (S len + j)%nat with l in Hg by lia.
      assert (first_code cs (S len) / 2 <= v / 2 ^ Z.of_nat (S j)) as Hd; [|cbn [first_code] in *; lia].
      replace (Z.of_nat (S j)) with (Z.of_nat j + 1) by lia. rewrite Z.pow_add_r, <- Z.div_div by lia.
      apply Z.div_le_mono; [lia|]. apply Z.div_le_lower_bound; lia. }
    bdec. replace (Z.of_nat len + 1) with (Z.of_nat (S len)) by lia.
    destruct (IH j (S len) (2 * offs + b - count_at cs len) d1 bytes1 Hr1) as (d' & bytes' & Hrun & Hr' & Ha' & Hov' & Hst');
      [lia..| |done|].
    { cbn [first_code]. lia. }
    exists d', bytes'. split_and!; try done; [by etrans|congruence].
Qed.

Lemma decode_symbol_word m d bytes s w rest :
  reader m d bytes -> word_of t cs s w -> stream d bytes = w ++ rest ->
  exists d' bytes', tinf_decode_symbol m d t = Done (s, d') /\ reader m d' bytes' /\ advances d d' /\
    overflow d' = overflow d /\ stream d' bytes' = rest.
Proof.
  intros Hr (l & r & Hl & Hrk & -> & Hs) Hst. unfold tinf_decode_symbol. pose proof (dc_zero _ _ _ Ht) as H0.
  pose proof (dc_nonneg _ _ _ Ht) as Hc. pose proof (words_below_nonneg cs l Hc).
  pose proof (words_below_next cs l 16 Hc ltac:(lia)). pose proof (dc_words _ _ _ Ht).
  destruct l as [|l]; [lia|].
  destruct (decode_loop_word 16 m d bytes (S l) l 1 0 r rest Hr) as (d' & bytes' & Hrun & Hr' & Ha & Hov & Hst');
    [lia..| |done|].
  { cbn [first_code]. rewrite H0. rewrite Z.div_small; [done|]. pose proof (first_code_nonneg cs l Hc). 
    pose proof (Hc l). split; [lia|].
    pose proof (first_code_grows cs (S (S l)) (16 - S (S l)) Hc) as Hg.
    replace (S (S l) + (16 - S (S l)))%nat with 16%nat in Hg by lia. rewrite (dc_full _ _ _ Ht) in Hg.
    assert (2 ^ 16 = 2 ^ Z.of_nat (16 - S (S l)) * 2 ^ Z.of_nat (S (S l))) as Hp
      by (rewrite <- Z.pow_add_r by lia; f_equal; lia).
    rewrite Hp in Hg. apply Z.mul_le_mono_pos_l in Hg; [|lia].
    cbn [first_code] in *. replace (Z.of_nat (S (S l))) with (1 + Z.of_nat (S l)) in Hg by lia.
    rewrite Z.pow_add_r in Hg by lia. lia. }
  change (words_below cs 1) with (0 + count_at cs 0) in Hrun. rewrite H0 in Hrun.
  change (0 + 0) with 0 in Hrun. change (Z.of_nat 1) with 1 in Hrun. rewrite Hrun, bind_Done. c_ok. rewrite Hs, bind_Done. by exists d', bytes'.
Qed.
End decoder.

(** ** Building a tree *)

(** The array holds the lengths [ls] from index [off] on. *)
Definition slice (arr : array) (off : Z) (ls : list Z) : Prop :=
  forall (i : nat) x, ls !! i = Some x -> aget arr (off + Z.of_nat i) = Done x.

Definition tree_shape (t : tinf_tree) : Prop := length (counts t) = 16%nat /\ length (symbols t) = 288%nat.

Section arrays.
Implicit Types (arr : array) (ls : list Z).

Lemma slice_cons arr off x ls : slice arr off (x :: ls) -> aget arr off = Done x /\ slice arr (off + 1) ls.
Proof.
  intros Hs. split.
  - rewrite <- (Hs O x) by done. f_equal. lia.
  - intros i y Hy. rewrite <- (Hs (S i) y Hy). f_equal. lia.
Qed.

Lemma aset_Done arr i v : 0 <= i < zlen arr -> aset arr i v = Done (<[Z.to_nat i := Some v]> arr).
Proof. apply zset_Done. Qed.

Lemma aget_insert arr i j v :
  0 <= i < zlen arr -> 0 <= j ->
  aget (<[Z.to_nat i := Some v]> arr) j = if j =? i then Done v else aget arr j.
Proof.
  intros Hi Hj. unfold aget, znth. bdec. destruct (j =? i) eqn:E; b2p.
  - subst j. rewrite list_lookup_insert_eq by (unfold zlen in Hi; lia). done.
  - rewrite list_lookup_insert_ne by lia. done.
Qed.

Lemma fill_const_spec n arr pos v :
  0 <= pos -> pos + Z.of_nat n <= zlen arr ->
  fill_const n arr pos v =
    Done (take (Z.to_nat pos) arr ++ replicate n (Some v) ++ drop (Z.to_nat pos + n) arr).
Proof.
  revert arr pos. induction n as [|n IH]; intros arr pos Hp Hn.
  - cbn. by rewrite Nat.add_0_r, take_drop.
  - cbn [fill_const]. rewrite aset_Done, bind_Done by lia. rewrite IH by (unfold zlen in *; rewrite ?length_insert; lia).
    f_equal. replace (Z.to_nat (pos + 1)) with (S (Z.to_nat pos)) by lia.
    rewrite (take_S_r _ _ (Some v)) by (apply list_lookup_insert_eq; unfold zlen in *; lia).
    rewrite take_insert_ge by lia. cbn [replicate]. rewrite <- app_assoc. cbn [app]. do 3 f_equal.
    rewrite drop_insert_lt by lia. f_equal. lia.
Qed.

Lemma fill_run_spec n arr pos v :
  0 <= pos -> pos + Z.of_nat n <= zlen arr ->
  fill_run n arr pos v =
    Done (take (Z.to_nat pos) arr ++ (Some <$> seqZ v (Z.of_nat n)) ++ drop (Z.to_nat pos + n) arr).
Proof.
  revert arr pos v. induction n as [|n IH]; intros arr pos v Hp Hn.
  - rewrite seqZ_nil by lia. cbn. by rewrite Nat.add_0_r, take_drop.
  - cbn [fill_run]. rewrite aset_Done, bind_Done by lia. rewrite IH by (unfold zlen in *; rewrite ?length_insert; lia).
    f_equal. replace (Z.to_nat (pos + 1)) with (S (Z.to_nat pos)) by lia.
    rewrite (take_S_r _ _ (Some v)) by (apply list_lookup_insert_eq; unfold zlen in *; lia).
    rewrite take_insert_ge by lia. rewrite (seqZ_cons v (Z.of_nat (S n))) by lia. cbn [fmap list_fmap]. rewrite <- app_assoc. cbn [app]. f_equal.
    f_equal. rewrite drop_insert_lt by lia. do 2 f_equal; [f_equal|]; lia.
Qed.
End arrays.

Section build.
Implicit Types (arr : array) (ls p cs : list Z).

(** One more length counted. *)
Lemma code_counts_snoc p x :
  0 <= x <= 15 ->
  code_counts (p ++ [x]) =
    if x =? 0 then code_counts p else <[Z.to_nat x := bl_count p x + 1]> (code_counts p).
Proof.
  intros Hx. apply list_eq_same_length with (n := 16%nat); [by destruct (x =? 0); rewrite ?length_insert|done|].
  intros i y z Hi Hy Hz. rewrite code_counts_lookup, bl_count_app in Hy by done. injection Hy as <-.
  destruct (x =? 0) eqn:Ex; b2p.
  - rewrite code_counts_lookup in Hz by done. injection Hz as <-. subst x. unfold bl_count. cbn. repeat case_if; b2p; lia.
  - destruct (decide (i = Z.to_nat x)) as [->|].
    + rewrite list_lookup_insert_eq in Hz by (rewrite code_counts_length; lia). injection Hz as <-.
      rewrite Z2Nat.id by lia. unfold bl_count. cbn. bdec. lia.
    + rewrite list_lookup_insert_ne, code_counts_lookup in Hz by lia. injection Hz as <-.
      unfold bl_count. cbn. repeat case_if; b2p; lia.
Qed.

Lemma last_symbol_snoc p x i :
  0 <= i -> last_symbol (p ++ [x]) i = if x =? 0 then last_symbol p i else i + zlen p.
Proof.
  intros Hi. revert i Hi. induction p as [|y p IH]; intros i Hi; cbn [last_symbol app].
  - change (-1 =? -1) with true. rewrite (zlen_nil (A := Z)). destruct (x =? 0); cbn [andb negb]; lia.
  - rewrite IH by lia. rewrite zlen_cons. pose proof (zlen_nonneg p). destruct (x =? 0) eqn:E; [done|]. bdec. lia.
Qed.

Lemma last_symbol_range ls i : 0 <= i -> -1 <= last_symbol ls i < i + zlen ls.
Proof.
  revert i. induction ls as [|x ls IH]; intros i Hi; cbn [last_symbol]; [unfold zlen; cbn; lia|].
  rewrite zlen_cons. specialize (IH (i + 1)). pose proof (zlen_nonneg ls). case_if; lia.
Qed.

(** Symbols with a code word are at most the last one. *)
Lemma last_symbol_max ls i (k : nat) x : 0 <= i -> ls !! k = Some x -> x <> 0 -> i + Z.of_nat k <= last_symbol ls i.
Proof.
  revert i k. induction ls as [|y ls IH]; intros i k Hi Hk Hx; [done|]. cbn [last_symbol].
  destruct k as [|k]; cbn in Hk.
  - injection Hk as ->. pose proof (last_symbol_range ls (i + 1)).
    assert (last_symbol ls (i + 1) = -1 \/ i + 1 <= last_symbol ls (i + 1)) as [E|].
    { clear -Hi. revert i Hi. induction ls as [|y ls IH]; intros i Hi; cbn [last_symbol]; [by left|].
      destruct (IH (i + 1)) as [->|]; [lia| |]; case_if; b2p; lia. }
    + rewrite E. replace (-1 =? -1) with true by done. bdec. lia.
    + bdec. lia.
  - specialize (IH (i + 1) k ltac:(lia) Hk Hx). case_if; b2p; lia.
Qed.

Lemma count_lengths_spec arr off p ls syms :
  slice arr (off + zlen p) ls -> lengths_ok ls -> zlen p + zlen ls <= 288 ->
  count_lengths (length ls) arr off (zlen p) (Tree (Some <$> code_counts p) syms (Some (last_symbol p 0))) =
    Done (Tree (Some <$> code_counts (p ++ ls)) syms (Some (last_symbol (p ++ ls) 0))).
Proof.
  revert p. induction ls as [|x ls IH]; intros p Hs Hls Hn; [by rewrite app_nil_r|].
  apply slice_cons in Hs as [Hx Hs]. apply Forall_cons in Hls as [Hx15 Hls]. rewrite zlen_cons in Hn.
  cbn [length count_lengths]. rewrite Hx, bind_Done. c_ok.
  assert (zlen p + 1 = zlen (p ++ [x])) as Hzp by (rewrite zlen_app, zlen_cons, zlen_nil; lia).
  replace (p ++ x :: ls) with ((p ++ [x]) ++ ls) by (by rewrite <- app_assoc).
  rewrite <- IH; [|by rewrite <- Hzp, Z.add_assoc|done|rewrite <- Hzp; lia]. rewrite Hzp.
  rewrite (code_counts_snoc p x), (last_symbol_snoc p x) by lia. destruct (x =? 0) eqn:E; b2p; [done|].
  cbn [counts symbols]. rewrite aget_fmap. pose proof (zlen_nonneg ls).
  rewrite (proj2 (znth_Done (code_counts p) x (bl_count p x))).
  2: { split; [lia|]. rewrite code_counts_lookup by lia. do 2 f_equal. lia. }
  rewrite bind_Done, aset_Done by (unfold zlen; rewrite length_fmap, code_counts_length; lia).
  rewrite bind_Done, bind_Done. pose proof (bl_count_range x p).
  unfold wrap. rewrite Z.mod_small by lia. by rewrite list_fmap_insert.
Qed.

(** The offsets computed so far; the rest of the array is uninitialised. *)
Definition offsets (f : nat -> Z) (i n : nat) : array := (Some <$> (f <$> seq 0 i)) ++ uninit n.

Lemma aset_offsets f i n :
  aset (offsets f i (S n)) (Z.of_nat i) (f i) = Done (offsets f (S i) n).
Proof.
  unfold offsets. rewrite aset_Done.
  2: { unfold zlen. rewrite length_app, !length_fmap, length_seq. cbn [uninit replicate length]. lia. }
  f_equal. rewrite Nat2Z.id. rewrite insert_app_r_alt by (rewrite !length_fmap, length_seq; lia).
  rewrite !length_fmap, length_seq, Nat.sub_diag. cbn [uninit replicate insert list_insert].
  rewrite seq_S, !fmap_app, <- app_assoc. done.
Qed.

Lemma offs_loop_spec cs (i n : nat) :
  length cs = 16%nat -> (forall l, 0 <= count_at cs l) -> words_below cs 16 <= 288 ->
  (i + n = 16)%nat -> first_code cs i <= 2 ^ Z.of_nat i ->
  offs_loop n (Some <$> cs) (Z.of_nat i) (2 ^ Z.of_nat i - first_code cs i) (words_below cs i) (offsets (words_below cs) i n) =
    Done (if first_code cs 16 <=? 2 ^ 16
          then Some (offsets (words_below cs) 16 0, 2 ^ 16 - first_code cs 16, words_below cs 16) else None).
Proof.
  intros Hlen Hc Hw. revert i. induction n as [|n IH]; intros i Hin Hav.
  - replace i with 16%nat in * by lia. change (Z.of_nat 16) with 16 in *. cbn [offs_loop].
    replace (first_code cs 16 <=? 2 ^ 16) with true by (symmetry; apply Z.leb_le; done). done.
  - cbn [offs_loop]. rewrite aget_fmap, (proj2 (znth_Done cs (Z.of_nat i) (count_at cs i))).
    2: { split; [lia|]. rewrite Nat2Z.id. apply count_at_lookup. lia. }
    rewrite bind_Done. assert (2 ^ Z.of_nat i <= 2 ^ 16) by (apply Z.pow_le_mono_r; lia).
    pose proof (first_code_nonneg cs i Hc). pose proof (Hc i).
    pose proof (words_below_nonneg cs i Hc). pose proof (words_below_next cs i 16 Hc ltac:(lia)).
    assert (2 ^ Z.of_nat (S i) = 2 * 2 ^ Z.of_nat i) as Hp
      by (replace (Z.of_nat (S i)) with (1 + Z.of_nat i) by lia; by rewrite Z.pow_add_r by lia).
    destruct (_ <? count_at cs i) eqn:E; b2p.
    + replace (first_code cs 16 <=? 2 ^ 16) with false; [done|]. symmetry. apply Z.leb_gt.
      pose proof (first_code_grows cs (S i) n Hc) as Hg. replace (S i + n)%nat with 16%nat in Hg by lia.
      assert (2 ^ 16 = 2 ^ Z.of_nat n * 2 ^ Z.of_nat (S i)) as -> by (rewrite <- Z.pow_add_r by lia; f_equal; lia).
      eapply Z.lt_le_trans; [|exact Hg]. apply Zmult_lt_compat_l; [lia|]. cbn [first_code]. lia.
    + rewrite (wrap_small 16) by lia. rewrite aset_offsets, bind_Done.
      rewrite !u32_small by lia. rewrite <- (IH (S i)); [|lia|cbn [first_code]; lia].
      f_equal; [lia|cbn [first_code]; lia].
Qed.

(** The symbols of each length are stored from their offset on, in order. *)
Definition sorted_symbols (cs p : list Z) (syms : array) : Prop :=
  forall (l : nat) k, (1 <= l <= 15)%nat -> 0 <= k < occurrences (Z.of_nat l) p ->
    exists s : nat, aget syms (words_below cs l + k) = Done (Z.of_nat s) /\
      p !! s = Some (Z.of_nat l) /\ occurrences (Z.of_nat l) (take s p) = k.

Lemma sorted_symbols_nil cs syms : sorted_symbols cs [] syms.
Proof. intros l k _ Hk. cbn in Hk. lia. Qed.

Lemma sorted_symbols_skip cs p syms : sorted_symbols cs p syms -> sorted_symbols cs (p ++ [0]) syms.
Proof.
  intros Hs l k Hl Hk. rewrite occurrences_app in Hk. cbn [occurrences] in Hk.
  revert Hk. bdec. intros Hk. destruct (Hs l k Hl) as (s & ? & Hp & ?); [lia|].
  exists s. pose proof (lookup_lt_Some _ _ _ Hp).
  rewrite lookup_app_l, take_app_le by lia. done.
Qed.

Lemma sorted_symbols_step cs p x syms :
  (forall l, 0 <= count_at cs l) -> words_below cs 16 <= zlen syms ->
  1 <= x <= 15 -> occurrences x p + 1 <= count_at cs (Z.to_nat x) ->
  (forall l : nat, (1 <= l <= 15)%nat -> occurrences (Z.of_nat l) p <= count_at cs l) ->
  sorted_symbols cs p syms ->
  sorted_symbols cs (p ++ [x]) (<[Z.to_nat (words_below cs (Z.to_nat x) + occurrences x p) := Some (zlen p)]> syms).
Proof.
  intros Hc Hlen Hx Hroom Hocc Hs l k Hl Hk. rewrite occurrences_app in Hk. cbn [occurrences] in Hk.
  pose proof (words_below_nonneg cs (Z.to_nat x) Hc). pose proof (occurrences_range x p).
  pose proof (words_below_nonneg cs l Hc).
  pose proof (words_below_next cs (Z.to_nat x) 16 Hc ltac:(lia)).
  rewrite aget_insert by lia.
  destruct (decide (x = Z.of_nat l /\ k = occurrences x p)) as [[-> ->]|Hne].
  - rewrite Nat2Z.id. bdec. exists (length p). unfold zlen. split; [done|]. split.
    + rewrite lookup_app_r by lia. by rewrite Nat.sub_diag.
    + by rewrite take_app_length.
  - assert (k < occurrences (Z.of_nat l) p) as Hk' by (revert Hk; case_if; b2p; [subst x|]; lia).
    destruct (Hs l k Hl) as (s & Hget & Hp & Hrank); [lia|]. exists s. pose proof (lookup_lt_Some _ _ _ Hp).
    rewrite lookup_app_l, take_app_le by lia.
    replace (words_below cs l + k =? words_below cs (Z.to_nat x) + occurrences x p) with false; [done|].
    symmetry. apply Z.eqb_neq. pose proof (Hocc l Hl).
    destruct (Nat.lt_total l (Z.to_nat x)) as [Hlt|[Heq|Hlt]].
    + pose proof (words_below_next cs l (Z.to_nat x) Hc Hlt). lia.
    + subst l. rewrite Z2Nat.id in * by lia. lia.
    + pose proof (words_below_next cs (Z.to_nat x) l Hc Hlt). lia.
Qed.

Lemma offsets_lookup f (i : nat) : (i < 16)%nat -> offsets f 16 0 !! i = Some (Some (f i)).
Proof.
  intros Hi. unfold offsets. rewrite app_nil_r, !list_lookup_fmap, lookup_seq_lt by lia. done.
Qed.

Lemma aget_offsets f x : 0 <= x < 16 -> aget (offsets f 16 0) x = Done (f (Z.to_nat x)).
Proof.
  intros Hx. unfold aget, znth. bdec. rewrite offsets_lookup by lia. done.
Qed.

Lemma aset_offsets_step f g x v :
  0 <= x < 16 -> g (Z.to_nat x) = v -> (forall i, i <> Z.to_nat x -> g i = f i) ->
  aset (offsets f 16 0) x v = Done (offsets g 16 0).
Proof.
  intros Hx Hgx Hg. rewrite aset_Done by (unfold zlen, offsets; rewrite app_nil_r, !length_fmap, length_seq; lia).
  f_equal. apply (list_eq_same_length _ _ 16); [done|by rewrite length_insert|].
  intros i y z Hi Hy Hz. rewrite offsets_lookup in Hz by done. injection Hz as <-.
  destruct (decide (i = Z.to_nat x)) as [->|Hne].
  - rewrite list_lookup_insert_eq in Hy by (unfold offsets; rewrite app_nil_r, !length_fmap, length_seq; lia). congruence.
  - rewrite list_lookup_insert_ne, offsets_lookup in Hy by done. rewrite Hg by done. congruence.
Qed.

Lemma fill_symbols_spec arr off p ls syms :
  let cs := code_counts (p ++ ls) in
  slice arr (off + zlen p) ls -> lengths_ok (p ++ ls) -> zlen (p ++ ls) <= 288 -> length syms = 288%nat ->
  sorted_symbols cs p syms ->
  exists syms', fill_symbols (length ls) arr off (zlen p)
      (offsets (fun l => words_below cs l + bl_count p (Z.of_nat l)) 16 0) syms = Done syms' /\
    length syms' = 288%nat /\ sorted_symbols cs (p ++ ls) syms'.
Proof.
  revert p syms. induction ls as [|x ls IH]; intros p syms cs Hs Hok Hn Hlen Hsort.
  { exists syms. by rewrite app_nil_r. }
  apply slice_cons in Hs as [Hx Hs]. pose proof (proj2 (proj1 (Forall_app _ _ _) Hok)) as Hx15.
  apply Forall_cons in Hx15 as [Hx15 _].
  assert (zlen p + 1 = zlen (p ++ [x])) as Hzp by (rewrite zlen_app, zlen_cons, (zlen_nil (A := Z)); lia).
  assert (p ++ x :: ls = (p ++ [x]) ++ ls) as Happ by (by rewrite <- app_assoc).
  assert (Hc : forall l, 0 <= count_at cs l) by apply code_counts_nonneg.
  assert (words_below cs 16 <= 288) as Hw.
  { unfold cs. rewrite words_zeros by done. pose proof (occurrences_range 0 (p ++ x :: ls)). lia. }
  assert (forall l : nat, (1 <= l <= 15)%nat -> occurrences (Z.of_nat l) (p ++ [x]) <= count_at cs l) as Hocc.
  { intros l Hl. unfold cs. rewrite count_at_code_counts, Happ by lia. unfold bl_count. bdec.
    rewrite (occurrences_app _ (p ++ [x])). pose proof (occurrences_range (Z.of_nat l) ls). lia. }
  assert (forall l : nat, (1 <= l <= 15)%nat -> occurrences (Z.of_nat l) p <= count_at cs l) as Hocc'.
  { intros l Hl. specialize (Hocc l Hl). rewrite occurrences_app in Hocc.
    pose proof (occurrences_range (Z.of_nat l) [x]). lia. }
  cbn [length fill_symbols]. rewrite Hx, bind_Done. rewrite Hzp.
  destruct (x =? 0) eqn:E; b2p.
  - subst x. specialize (IH (p ++ [0]) syms). cbn zeta in IH. rewrite <- Happ in IH. fold cs in IH.
    replace (offsets _ 16 0) with (offsets (fun l => words_below cs l + bl_count (p ++ [0]) (Z.of_nat l)) 16 0).
    2: { unfold offsets. do 2 f_equal. apply map_ext. intros l. rewrite bl_count_app.
         unfold bl_count at 2. cbn. repeat case_if; b2p; lia. }
    apply IH; try done; [by rewrite <- Hzp, Z.add_assoc|by apply sorted_symbols_skip].
  - rewrite aget_offsets, bind_Done, Z2Nat.id by lia.
    set (o := words_below cs (Z.to_nat x) + bl_count p x).
    assert (o = words_below cs (Z.to_nat x) + occurrences x p) as Ho by (unfold o, bl_count; bdec; done).
    pose proof (occurrences_range x p). pose proof (words_below_nonneg cs (Z.to_nat x) Hc).
    pose proof (Hocc (Z.to_nat x) ltac:(lia)) as Hroom. rewrite occurrences_app, Z2Nat.id in Hroom by lia.
    cbn [occurrences] in Hroom. revert Hroom. bdec. intros Hroom.
    pose proof (words_below_next cs (Z.to_nat x) 16 Hc ltac:(lia)).
    rewrite (wrap_small 16 (o + 1)) by lia.
    rewrite (aset_offsets_step _ (fun l => words_below cs l + bl_count (p ++ [x]) (Z.of_nat l))); [|lia| |].
    2: { rewrite bl_count_app, Z2Nat.id by lia. unfold o, bl_count. cbn. bdec. lia. }
    2: { intros i Hi. rewrite bl_count_app. unfold bl_count at 2. cbn. repeat case_if; b2p; lia. }
    rewrite zlen_app in Hn. rewrite zlen_cons in Hn. pose proof (zlen_nonneg ls). pose proof (zlen_nonneg p).
    rewrite bind_Done, aset_Done, bind_Done by (unfold zlen; lia). rewrite (wrap_small 16) by lia.
    specialize (IH (p ++ [x]) (<[Z.to_nat o := Some (zlen p)]> syms)). cbn zeta in IH. rewrite <- Happ in IH. fold cs in IH.
    apply IH; try done; [by rewrite <- Hzp, Z.add_assoc|rewrite zlen_app, zlen_cons; lia|by rewrite length_insert|].
    rewrite Ho. apply sorted_symbols_step; try done; [unfold zlen; lia|lia..].
Qed.
End build.

(** ** What the builder accepts and returns *)
Definition words (ls : list Z) : Z := zlen ls - occurrences 0 ls.

(** No code word at all, one code word of one bit, or a complete code. *)
Definition code_ok (ls : list Z) : bool :=
  (words ls =? 0) || ((words ls =? 1) && (occurrences 1 ls =? 1)) || (kraft ls =? 2 ^ 15).

(** The tree decodes the code of [ls]. *)
Definition tree_of (t : tinf_tree) (ls : list Z) : Prop :=
  exists cs, decodes t cs (last_symbol ls 0 + 1) /\
    forall s, 0 <= s < zlen ls -> length_of ls s <> 0 -> word_of t cs s (codeword ls s).

Section built.
Implicit Types (arr : array) (ls cs : list Z) (t : tinf_tree).

Lemma kraft_words ls : lengths_ok ls -> 0 <= kraft ls <= 2 ^ 14 * words ls.
Proof.
  unfold words. induction 1 as [|x ls Hx _ IH]; [done|]. rewrite zlen_cons. cbn [kraft occurrences].
  destruct (x =? 0) eqn:E; b2p; [lia|].
  assert (2 ^ (15 - x) <= 2 ^ 14) by (apply Z.pow_le_mono_r; lia). assert (0 < 2 ^ (15 - x)) by lia. lia.
Qed.

Lemma last_symbol_none ls i : words ls = 0 -> last_symbol ls i = -1.
Proof.
  unfold words. revert i. induction ls as [|x ls IH]; intros i Hw; [done|].
  rewrite zlen_cons in Hw. cbn [occurrences last_symbol] in *. pose proof (occurrences_range 0 ls).
  rewrite IH by (revert Hw; case_if; lia). destruct (x =? 0) eqn:E; [done|lia].
Qed.

Lemma last_symbol_some ls i : 0 <= i -> words ls <> 0 -> last_symbol ls i <> -1.
Proof.
  unfold words. revert i. induction ls as [|x ls IH]; intros i Hi Hw; [done|].
  rewrite zlen_cons in Hw. cbn [occurrences last_symbol] in *. specialize (IH (i + 1) ltac:(lia)).
  destruct (x =? 0) eqn:E; b2p.
  - specialize (IH ltac:(lia)). bdec. done.
  - destruct (last_symbol ls (i + 1) =? -1) eqn:E'; b2p; cbn; lia.
Qed.

(** Every position in the table belongs to one length. *)
Lemma position_split cs (n : nat) i :
  (forall l, 0 <= count_at cs l) -> 0 <= i < words_below cs n ->
  exists (l : nat) k, (l < n)%nat /\ 0 <= k < count_at cs l /\ i = words_below cs l + k.
Proof.
  intros Hc. induction n as [|n IH]; cbn [words_below]; intros Hi; [lia|].
  destruct (decide (i < words_below cs n)).
  - destruct IH as (j & k & Hj & Hk & Hjk); [lia|]. exists j, k. split_and!; lia.
  - exists n, (i - words_below cs n). split_and!; lia.
Qed.

Lemma rank_inj ls (s s' : nat) x :
  ls !! s = Some x -> ls !! s' = Some x ->
  occurrences x (take s ls) = occurrences x (take s' ls) -> s = s'.
Proof.
  assert (forall a b : nat, (a < b)%nat -> ls !! a = Some x -> occurrences x (take a ls) < occurrences x (take b ls)) as Hlt.
  { intros a b Hab Ha. replace b with (S a + (b - S a))%nat by lia. rewrite <- take_take_drop, occurrences_app.
    rewrite (take_S_r _ _ x Ha), occurrences_app. cbn. bdec.
    pose proof (occurrences_range x (take (b - S a) (drop (S a) ls))). lia. }
  intros Hs Hs' E. destruct (Nat.lt_total s s') as [Hl|[|Hl]]; [|done|].
  - specialize (Hlt _ _ Hl Hs). lia.
  - specialize (Hlt _ _ Hl Hs'). lia.
Qed.

Lemma length_of_lookup ls s : 0 <= s < zlen ls -> ls !! Z.to_nat s = Some (length_of ls s).
Proof.
  intros Hs. destruct (lookup_lt_is_Some_2 ls (Z.to_nat s)) as [x Hx]; [unfold zlen in Hs; lia|].
  unfold length_of. by rewrite (nth_lookup_Some _ _ _ _ Hx).
Qed.

(** The table gives every symbol at the place its code word leads to. *)
Lemma sorted_symbols_rank cs ls syms s :
  lengths_ok ls -> sorted_symbols cs ls syms -> 0 <= s < zlen ls -> length_of ls s <> 0 ->
  let l := length_of ls s in
  1 <= l <= 15 /\ 0 <= rank ls s l < occurrences l ls /\
  aget syms (words_below cs (Z.to_nat l) + rank ls s l) = Done s.
Proof.
  intros Hok Hsort Hs Hl0. cbn zeta. set (l := length_of ls s) in *. pose proof (length_of_lookup ls s Hs) as Hlk. fold l in Hlk.
  assert (1 <= l <= 15) as Hl.
  { pose proof (proj1 (Forall_lookup _ _) Hok _ _ Hlk). cbn in *. unfold l in *. lia. }
  assert (0 <= rank ls s l < occurrences l ls) as Hr.
  { unfold rank. pose proof (occurrences_range l (take (Z.to_nat s) ls)).
    rewrite <- (take_drop_middle _ _ _ Hlk) at 3. rewrite occurrences_app. cbn [occurrences]. bdec.
    pose proof (occurrences_range l (drop (S (Z.to_nat s)) ls)). lia. }
  split_and!; [lia..|].
  destruct (Hsort (Z.to_nat l) (rank ls s l)) as (s' & Hget & Hs' & Hrank); [lia|rewrite Z2Nat.id by lia; lia|].
  rewrite Z2Nat.id in Hs', Hrank by lia. rewrite Hget. f_equal.
  assert (s' = Z.to_nat s) as ->; [|lia]. by apply (rank_inj ls _ _ l).
Qed.

(** The table of a complete code. *)
Lemma complete_tree t ls :
  lengths_ok ls -> zlen ls <= 288 -> kraft ls = 2 ^ 15 ->
  counts t = Some <$> code_counts ls -> sorted_symbols (code_counts ls) ls (symbols t) -> tree_of t ls.
Proof.
  intros Hok Hn Hk Hcounts Hsort. pose proof (code_counts_nonneg ls) as Hc.
  exists (code_counts ls). split.
  - constructor; try done.
    + rewrite first_code_kraft, Hk by done. done.
    + rewrite words_zeros by done. pose proof (occurrences_range 0 ls). lia.
    + intros i Hi. destruct (position_split _ _ _ Hc Hi) as (l & k & Hl & Hk' & ->).
      rewrite count_at_code_counts in Hk' by done. unfold bl_count in Hk'.
      destruct (Z.of_nat l =? 0) eqn:E; b2p; [lia|].
      destruct (Hsort l k) as (s & Hget & Hs & _); [lia|done|]. exists (Z.of_nat s). split; [done|].
      pose proof (last_symbol_max ls 0 s _ ltac:(lia) Hs ltac:(lia)). lia.
  - intros s Hs Hl. destruct (sorted_symbols_rank _ _ _ _ Hok Hsort Hs Hl) as (Hl15 & Hr & Hget).
    exists (Z.to_nat (length_of ls s)), (rank ls s (length_of ls s)). split_and!; try done; try lia.
    rewrite count_at_code_counts, Z2Nat.id by lia. unfold bl_count. bdec. lia.
Qed.

(** The table of a code of one word: a second word of one bit leads to a
    symbol that is too large. *)
Lemma single_tree t ls syms :
  lengths_ok ls -> zlen ls <= 288 -> words ls = 1 -> occurrences 1 ls = 1 -> zlen syms = 288 ->
  counts t = Some <$> <[1%nat := 2]> (code_counts ls) ->
  symbols t = <[1%nat := Some (last_symbol ls 0 + 1)]> syms ->
  sorted_symbols (code_counts ls) ls syms -> tree_of t ls.
Proof.
  intros Hok Hn Hw H1 Hlen Hcounts Hsyms Hsort. set (cs := <[1%nat := 2]> (code_counts ls)) in *.
  pose proof (code_counts_nonneg ls) as Hc0.
  assert (forall l, (2 <= l <= 15)%nat -> count_at (code_counts ls) l = 0) as Hz.
  { intros l Hl. pose proof (words_zeros ls Hok) as Hz. unfold words in Hw. rewrite Hw in Hz.
    assert (count_at (code_counts ls) 1 = 1) as E1 by (rewrite count_at_code_counts by lia; exact H1).
    pose proof (words_below_next (code_counts ls) 1 l Hc0 ltac:(lia)).
    pose proof (words_below_next (code_counts ls) l 16 Hc0 ltac:(lia)).
    pose proof (words_below_nonneg (code_counts ls) 1 Hc0). pose proof (Hc0 l). lia. }
  assert (forall l, count_at cs l = if decide (l = 1%nat) then 2 else count_at (code_counts ls) l) as Hcs.
  { intros l. unfold cs, count_at. destruct (decide (l < 16)%nat).
    - case_decide as E.
      + subst l. by erewrite nth_lookup_Some by (by apply list_lookup_insert_eq; rewrite code_counts_length; lia).
      + erewrite nth_lookup_Some; [done|]. rewrite list_lookup_insert_ne by done. apply count_at_lookup.
        rewrite code_counts_length. lia.
    - rewrite decide_False by lia. rewrite !nth_overflow; rewrite ?length_insert, ?code_counts_length; lia. }
  assert (count_at (code_counts ls) 0 = 0) as Hz0 by done.
  assert (forall l, 0 <= count_at cs l) as Hc by (intros l; rewrite Hcs; case_decide; [lia|apply Hc0]).
  assert (words_below cs 1 = 0 /\ words_below cs 16 = 2 /\ first_code cs 16 = 2 ^ 16 /\ first_code cs 1 = 0) as (W1 & W16 & F16 & F1).
  { assert (forall l, (l <= 15)%nat -> count_at cs l = if (l =? 1)%nat then 2 else 0) as Hcs'.
    { intros l Hl. rewrite Hcs. case_decide; [by subst l|]. destruct (Nat.eqb_spec l 1); [done|].
      destruct (decide (l = 0%nat)) as [->|]; [done|]. apply Hz. lia. }
    cbn [words_below first_code]. rewrite !Hcs' by lia. done. }
  assert (exists s : nat, ls !! s = Some 1 /\ aget syms 0 = Done (Z.of_nat s)) as (s1 & Hs1 & Hg1).
  { destruct (Hsort 1%nat 0) as (s & Hget & Hs & _); [lia|change (Z.of_nat 1) with 1; rewrite H1; lia|]. exists s. done. }
  pose proof (last_symbol_max ls 0 s1 1 ltac:(lia) Hs1 ltac:(lia)). pose proof (last_symbol_range ls 0 ltac:(lia)).
  assert (aget (symbols t) 0 = Done (Z.of_nat s1)) as Hg0.
  { rewrite Hsyms. change 1%nat with (Z.to_nat 1). rewrite aget_insert by lia. done. }
  exists cs. split.
  - constructor; try done; [lia|].
    intros i Hi. rewrite W16 in Hi. destruct (decide (i = 0)) as [->|].
    + exists (Z.of_nat s1). split; [done|lia].
    + exists (last_symbol ls 0 + 1). split; [|lia]. rewrite Hsyms. change 1%nat with (Z.to_nat 1).
      rewrite aget_insert by lia. by replace (i =? 1) with true by (symmetry; apply Z.eqb_eq; lia).
  - intros s Hs Hl. destruct (sorted_symbols_rank _ _ _ _ Hok Hsort Hs Hl) as (Hl15 & Hr & Hget).
    assert (length_of ls s = 1) as E.
    { destruct (decide (length_of ls s = 1)) as [|Hne]; [done|]. exfalso.
      assert (count_at (code_counts ls) (Z.to_nat (length_of ls s)) = 0) as E0 by (apply Hz; lia).
      rewrite count_at_code_counts, Z2Nat.id in E0 by lia. unfold bl_count in E0. revert E0. bdec. lia. }
    rewrite E in *. rewrite H1 in Hr. assert (rank ls s 1 = 0) as Hr0 by lia. rewrite Hr0 in Hget.
    change (words_below (code_counts ls) (Z.to_nat 1) + 0) with 0 in Hget.
    exists 1%nat, 0. rewrite W1, F1, Hcs. split_and!; try done; try lia.
    + unfold codeword. rewrite E. by rewrite Hr0.
    + change (0 + 0) with 0. congruence.
Qed.
End built.

Section build_tree.
Implicit Types (arr : array) (ls : list Z) (t : tinf_tree).

(** The two tests after the offset table decide [code_ok]. *)
Lemma accept_code ls :
  lengths_ok ls ->
  code_ok ls = (first_code (code_counts ls) 16 <=? 2 ^ 16) &&
    negb (((1 <? words ls) && (0 <? 2 ^ 16 - first_code (code_counts ls) 16)) ||
          ((words ls =? 1) && negb (occurrences 1 ls =? 1))).
Proof.
  intros Hok. rewrite first_code_kraft by done. pose proof (kraft_words ls Hok) as Hk.
  pose proof (occurrences_range 0 ls). assert (0 <= words ls) by (unfold words; lia).
  unfold code_ok. destruct (words ls =? 0) eqn:E0; b2p; [rewrite E0 in *; bdec; reflexivity|].
  destruct (words ls =? 1) eqn:E1; b2p.
  - rewrite E1 in *. bdec. destruct (occurrences 1 ls =? 1); reflexivity.
  - bdec. destruct (decide (kraft ls = 2 ^ 15)) as [->|]; [done|].
    destruct (decide (kraft ls < 2 ^ 15)); bdec; reflexivity.
Qed.

(** Whatever the array holds for the symbols, a list of lengths is either
    refused with TINF_DATA_ERROR or yields a table that decodes its code. *)
Lemma build_tree_spec t arr off ls :
  tree_shape t -> slice arr off ls -> lengths_ok ls -> zlen ls <= 288 ->
  exists t', tinf_build_tree t arr off (zlen ls) =
      Done (if code_ok ls then TINF_OK else TINF_DATA_ERROR, t') /\
    tree_shape t' /\
    (code_ok ls = true -> max_sym t' = Some (last_symbol ls 0) /\ (words ls <> 0 -> tree_of t' ls)).
Proof.
  intros [Hlc Hls] Hs Hok Hn. set (cs := code_counts ls). pose proof (code_counts_nonneg ls) as Hc. fold cs in Hc.
  unfold tinf_build_tree. c_ok. rewrite fill_const_spec by (unfold zlen; lia).
  rewrite bind_Done. change (Z.to_nat 0) with 0%nat. cbn [Nat.add]. rewrite take_0, drop_ge, app_nil_r by lia. cbn [app].
  pose proof (count_lengths_spec arr off [] ls (symbols t)) as Hcount.
  rewrite (zlen_nil (A := Z)), Z.add_0_r in Hcount. cbn [app] in Hcount. rewrite to_nat_zlen.
  change (last_symbol [] 0) with (-1) in Hcount.
  change (replicate 16 (Some 0)) with (Some <$> code_counts []). rewrite Hcount, bind_Done by (done || lia).
  fold cs. cbn [counts symbols max_sym].
  assert (words_below cs 16 = words ls) as Hww by (by apply words_zeros).
  assert (0 <= words ls <= 288) as Hwr by (unfold words; pose proof (occurrences_range 0 ls); lia).
  pose proof (offs_loop_spec cs 0 16 eq_refl Hc ltac:(lia) eq_refl ltac:(cbn; lia)) as Hoffs.
  change (2 ^ Z.of_nat 0 - first_code cs 0) with 1 in Hoffs. change (words_below cs 0) with 0 in Hoffs.
  change (offsets (words_below cs) 0 16) with (uninit 16) in Hoffs. change (Z.of_nat 0) with 0 in Hoffs.
  rewrite Hoffs, bind_Done. rewrite (accept_code ls Hok). fold cs.
  destruct (first_code cs 16 <=? 2 ^ 16) eqn:E; cbn [andb].
  2: { eexists. split; [reflexivity|]. split; [|done]. split; [done|exact Hls]. }
  rewrite aget_fmap. assert (znth cs 1 = Done (occurrences 1 ls)) as -> by done. rewrite bind_Done, Hww.
  match goal with |- context [if ?b then Done (TINF_DATA_ERROR, _) else _] => destruct b eqn:Eb end; cbn [negb].
  { eexists. split; [reflexivity|]. split; [|done]. split; [done|exact Hls]. }
  assert (code_ok ls = true) as Hcode by (rewrite (accept_code ls Hok); fold cs; by rewrite E, Eb).
  assert (words ls = 1 -> occurrences 1 ls = 1) as Hone.
  { intros Ew. rewrite Ew in Eb. apply orb_false_iff in Eb as [_ Eb]. destruct (occurrences 1 ls =? 1) eqn:E1; b2p; done. }
  clear Eb. pose proof (fill_symbols_spec arr off [] ls (symbols t)) as Hfill. cbn zeta in Hfill.
  rewrite (zlen_nil (A := Z)), Z.add_0_r in Hfill. cbn [app] in Hfill. fold cs in Hfill.
  destruct Hfill as (syms & Hfill & Hsl & Hsort); [done..|apply sorted_symbols_nil|].
  replace (offsets (words_below cs) 16 0) with (offsets (fun l => words_below cs l + bl_count [] (Z.of_nat l)) 16 0).
  2: { unfold offsets. do 2 f_equal. apply map_ext. intros l. unfold bl_count. cbn. case_if; lia. }
  rewrite Hfill, bind_Done. pose proof (last_symbol_range ls 0 ltac:(lia)).
  destruct (words ls =? 1) eqn:E1; b2p; cbn [of_option counts symbols max_sym].
  - assert (zlen (Some <$> cs) = 16) as Hz16 by done. assert (zlen syms = 288) by (unfold zlen; lia).
    rewrite bind_Done, (aset_Done (Some <$> cs)), bind_Done, aset_Done, bind_Done by lia.
    rewrite (wrap_small 16) by lia. eexists. split; [reflexivity|].
    split; [split; cbn [counts symbols]; rewrite length_insert; [done|lia]|]. intros _. split; [done|]. intros _.
    apply (single_tree _ ls syms); cbn [counts symbols]; try done. by apply Hone.
  - eexists. split; [reflexivity|]. split; [split; [done|exact Hsl]|]. intros _. split; [done|]. intros Hw.
    eapply complete_tree; try done. unfold code_ok in Hcode.
    apply orb_true_iff in Hcode as [Hcode|Hcode]; b2p; [|done].
    apply orb_true_iff in Hcode as [Hcode|Hcode]; b2p; lia.
Qed.
End build_tree.
