(* ===== verification/InflateSafe.v ===== *)
(** * The decompressor on arbitrary input

    [inflating] relates a state of tinflate.c to the output produced so far:
    the memory is the initial one with that output stored at [dest_start], and
    nothing else.  Every block function keeps it, whatever the input bits, and
    a block consumes bits or stops, so the decompressor returns on every input
    and never leaves its two buffers. *)
From S2P Require Import Prelude Machine Inflate InflateBits Huffman.

(** ** Fixed trees *)
Definition fixed_ll : list Z := replicate 144 8 ++ replicate 112 9 ++ replicate 24 7 ++ replicate 8 8.
Definition fixed_dl : list Z := replicate 32 5.

(** [sorted_symbols], as a test. *)
Definition sorted_check (cs p : list Z) (syms : array) : bool :=
  forallb (fun l =>
    forallb (fun k =>
      match aget syms (words_below cs l + k) with
      | Done s => (0 <=? s) && bool_decide (p !! Z.to_nat s = Some (Z.of_nat l)) &&
                  (occurrences (Z.of_nat l) (take (Z.to_nat s) p) =? k)
      | _ => false
      end) (seqZ 0 (occurrences (Z.of_nat l) p))) (seq 1 15).

Section fixed.
Implicit Types (arr pre old : array) (t lt dt : tinf_tree).

Lemma sorted_check_correct cs p syms : sorted_check cs p syms = true -> sorted_symbols cs p syms.
Proof.
  intros Hck l k Hl Hk. unfold sorted_check in Hck. rewrite forallb_forall in Hck.
  assert (In l (seq 1 15)) as Hin by (apply in_seq; lia). specialize (Hck l Hin). rewrite forallb_forall in Hck.
  assert (In k (seqZ 0 (occurrences (Z.of_nat l) p))) as Hin' by (apply list_elem_of_In, elem_of_seqZ; lia).
  specialize (Hck k Hin').
  destruct (aget syms (words_below cs l + k)) as [s| | |]; try done. b2p.
  match goal with H : bool_decide _ = true |- _ => apply bool_decide_eq_true in H end.
  exists (Z.to_nat s). rewrite Z2Nat.id by lia. done.
Qed.

Lemma aget_app arr tl i x : aget arr i = Done x -> aget (arr ++ tl) i = Done x.
Proof.
  unfold aget, znth. case_if; [done|]. destruct (arr !! Z.to_nat i) eqn:E; [|done].
  rewrite lookup_app_l by (by eapply lookup_lt_Some). by rewrite E.
Qed.

Lemma sorted_symbols_app cs p syms tl : sorted_symbols cs p syms -> sorted_symbols cs p (syms ++ tl).
Proof. intros Hs l k Hl Hk. destruct (Hs l k Hl Hk) as (s & ? & ?). exists s. split; [by apply aget_app|done]. Qed.

Lemma fill_run_app (n : nat) pre old pos v :
  pos = zlen pre -> (n <= length old)%nat ->
  fill_run n (pre ++ old) pos v = Done ((pre ++ (Some <$> seqZ v (Z.of_nat n))) ++ drop n old).
Proof.
  intros -> Hn. rewrite fill_run_spec; [|apply zlen_nonneg|unfold zlen; rewrite length_app; lia].
  rewrite to_nat_zlen, take_app_length, drop_app_ge by lia. rewrite <- app_assoc. do 4 f_equal. lia.
Qed.

Definition fixed_symbols : array :=
  ((([] ++ (Some <$> seqZ 256 24)) ++ (Some <$> seqZ 0 144)) ++ (Some <$> seqZ 280 8)) ++ (Some <$> seqZ 144 112).

Lemma build_fixed_spec lt dt :
  tree_shape lt -> tree_shape dt ->
  exists lt' dt', tinf_build_fixed_trees lt dt = Done (lt', dt') /\ tree_shape lt' /\ tree_shape dt' /\
    tree_of lt' fixed_ll /\ tree_of dt' fixed_dl /\ max_sym lt' = Some 285 /\ max_sym dt' = Some 29.
Proof.
  intros [Hlc Hls] [Hdc Hds]. destruct lt as [lc ls lm], dt as [dc ds dm]. cbn [counts symbols] in *.
  unfold tinf_build_fixed_trees. cbn [counts symbols].
  rewrite !(fill_const_spec 16) by (unfold zlen; lia). change (Z.to_nat 0) with 0%nat.
  rewrite !take_0, !drop_ge, !app_nil_r by (cbn; lia). cbn [app]. rewrite !bind_Done.
  do 3 (rewrite aset_Done by done; rewrite bind_Done; cbn [Z.to_nat Pos.to_nat Pos.iter_op Nat.add replicate insert list_insert]).
  change ls with ([] ++ ls) at 1. rewrite (fill_run_app 24 []) by (done || lia). rewrite bind_Done.
  rewrite (fill_run_app 144), bind_Done by (done || rewrite length_drop; lia). rewrite drop_drop.
  rewrite (fill_run_app 8), bind_Done by (done || rewrite length_drop; lia). rewrite drop_drop.
  rewrite (fill_run_app 112), bind_Done by (done || rewrite length_drop; lia). rewrite drop_drop.
  rewrite (drop_ge ls), app_nil_r by (cbn; lia).
  change ds with ([] ++ ds) at 1. rewrite (fill_run_app 32 []), bind_Done by (done || lia).
  eexists _, _. split; [reflexivity|]. split; [done|]. split.
  { split; [done|]. cbn [symbols]. rewrite length_app, length_drop, Hds. done. }
  split; [|split; [|done]].
  - apply complete_tree; try done; [repeat apply Forall_app_2; apply Forall_replicate; lia|].
    apply sorted_check_correct. by vm_compute.
  - apply complete_tree; try done; [apply Forall_replicate; lia|].
    apply sorted_symbols_app, sorted_check_correct. by vm_compute.
Qed.
End fixed.

(** ** The output written so far *)
Record inflating (m0 m : mem) (d : tinf_data) (bytes out : list Z) : Prop := {
  if_reader : reader m d bytes;
  if_mem : m = write_bytes m0 (dest_start d) out;
  if_out : are_bytes out;
  if_dest : dest d = dest_start d + zlen out;
  if_room : dest d <= dest_end d;
  if_start : 0 <= dest_start d;
  if_end : dest_end d < 2 ^ 32;
  if_size : dest_end d - dest_start d < 2 ^ 31;
  if_region : region m0 (dest_start d) (dest_end d - dest_start d);
  if_apart : dest_end d <= source d \/ source_end d <= dest_start d;
  if_ltree : tree_shape (ltree d);
  if_dtree : tree_shape (dtree d);
}.

(** The buffers stay where they are. *)
Record same_buffers (d d' : tinf_data) : Prop := {
  sb_source : source d <= source d';
  sb_end : source_end d' = source_end d;
  sb_start : dest_start d' = dest_start d;
  sb_dest_end : dest_end d' = dest_end d;
}.

#[export] Instance same_buffers_refl : Reflexive same_buffers.
Proof. by constructor. Qed.

#[export] Instance same_buffers_trans : Transitive same_buffers.
Proof. intros d1 d2 d3 [] []. constructor; first [lia|congruence]. Qed.

Lemma advances_same_buffers d d' : advances d d' -> same_buffers d d'.
Proof. intros []. by constructor. Qed.

(** [n] bytes copied from [offs] back in the output, which may overlap. *)
Fixpoint lz_copy (n : nat) (offs : Z) (out : list Z) : list Z :=
  match n with
  | O => out
  | S n' => lz_copy n' offs (out ++ [nth (length out - Z.to_nat offs) out 0])
  end.

Section output.
Implicit Types (m : mem) (d : tinf_data) (bytes out data : list Z).

Lemma reader_disjoint m d bytes a bs :
  reader m d bytes -> a + zlen bs <= source d \/ source_end d <= a ->
  reader (write_bytes m a bs) d bytes.
Proof.
  intros [] Hd. constructor; try done. apply bytes_at_write_disj; [|done]. lia.
Qed.

(** Reading leaves the output alone. *)
Lemma inflating_step m0 m d d' bytes bytes' out :
  inflating m0 m d bytes out -> reader m d' bytes' -> advances d d' -> inflating m0 m d' bytes' out.
Proof.
  intros [Hr] Hr' [Hs He Hd Hst Hde Hlt Hdt]. constructor; rewrite ?Hd, ?Hst, ?Hde, ?Hlt, ?Hdt; try done. lia.
Qed.

(** Appending [data] to the output. *)
Lemma inflating_emit m0 m d bytes out data :
  inflating m0 m d bytes out -> are_bytes data -> dest d + zlen data <= dest_end d ->
  inflating m0 (write_bytes m (dest d) data) (set_dest d (dest d + zlen data)) bytes (out ++ data).
Proof.
  intros [Hr Hm Ho Hd Hroom Hst He Hsz Hreg Hap Hlt Hdt] Hdata Hfit.
  pose proof (zlen_nonneg out). pose proof (zlen_nonneg data).
  constructor; cbn [set_dest dest dest_start dest_end source source_end ltree dtree]; try done.
  - pose proof (reader_disjoint m d bytes (dest d) data Hr ltac:(lia)) as Hr'. destruct Hr'. by constructor.
  - by rewrite write_bytes_app_up, <- Hd, <- Hm.
  - by apply Forall_app.
  - rewrite zlen_app. lia.
Qed.

Lemma inflating_dest_region m0 m d bytes out n :
  inflating m0 m d bytes out -> 0 <= n -> dest d + n <= dest_end d -> region m (dest d) n.
Proof.
  intros [Hr Hm Ho Hd Hroom Hst He Hsz Hreg Hap Hlt Hdt] Hn Hfit. rewrite Hm. apply region_write.
  pose proof (zlen_nonneg out). eapply region_sub; [exact Hreg|lia..].
Qed.

Lemma inflating_out m0 m d bytes out :
  inflating m0 m d bytes out -> bytes_at m (dest_start d) out.
Proof. intros []. subst m. apply bytes_at_write_eq; lia. Qed.

(** A literal. *)
Lemma emit_byte m0 m d bytes out b :
  inflating m0 m d bytes out -> is_byte b -> dest d < dest_end d ->
  exists m', store8 m (dest d) b = Done m' /\ u32 (dest d + 1) = dest d + 1 /\
    inflating m0 m' (set_dest d (dest d + 1)) bytes (out ++ [b]).
Proof.
  intros Hi Hb Hroom. pose proof Hi as [Hr Hm Ho Hd _ Hst He Hsz Hreg Hap Hlt Hdt]. pose proof (zlen_nonneg out).
  destruct (region_lookup _ _ _ (dest d) (inflating_dest_region _ _ _ _ _ 1 Hi ltac:(lia) ltac:(lia))) as [? ?]; [lia|].
  eexists. rewrite store8_Done, u8_small by done. split; [reflexivity|]. split; [apply u32_small; lia|].
  apply (inflating_emit m0 m d bytes out [b]); [done|by apply Forall_singleton|]. rewrite zlen_cons, (zlen_nil (A := Z)). lia.
Qed.

Lemma lz_copy_length n offs out : zlen (lz_copy n offs out) = zlen out + Z.of_nat n.
Proof.
  revert out. induction n as [|n IH]; intros out; cbn [lz_copy]; [lia|].
  rewrite IH, zlen_app, zlen_cons, (zlen_nil (A := Z)). lia.
Qed.

Lemma set_dest_set_dest d a b : set_dest (set_dest d a) b = set_dest d b.
Proof. done. Qed.

Lemma set_dest_same d : set_dest d (dest d) = d.
Proof. by destruct d. Qed.

(** A match, byte by byte, within the output and the room left. *)
Lemma emit_match n m0 m d bytes out offs :
  inflating m0 m d bytes out -> 1 <= offs <= zlen out -> dest d + Z.of_nat n <= dest_end d ->
  exists m', copy_match n m (dest d) offs = Done m' /\
    inflating m0 m' (set_dest d (dest d + Z.of_nat n)) bytes (lz_copy n offs out).
Proof.
  revert m d out. induction n as [|n IH]; intros m d out Hi Hoffs Hfit.
  - exists m. split; [done|]. change (Z.of_nat 0) with 0. by rewrite Z.add_0_r, set_dest_same.
  - cbn [copy_match lz_copy].
    destruct (lookup_lt_is_Some_2 out (length out - Z.to_nat offs)) as [b Hb]; [unfold zlen in Hoffs; lia|].
    pose proof (load8_bytes_at _ _ _ _ _ (inflating_out _ _ _ _ _ Hi) Hb) as Hld.
    replace (dest_start d + Z.of_nat (length out - Z.to_nat offs)) with (dest d - offs) in Hld
      by (rewrite (if_dest _ _ _ _ _ Hi); unfold zlen in *; lia).
    rewrite Hld, bind_Done. rewrite (nth_lookup_Some _ _ _ _ Hb).
    assert (is_byte b) as Hbb by (by apply (proj1 (Forall_lookup _ _) (if_out _ _ _ _ _ Hi) _ _ Hb)).
    destruct (emit_byte m0 m d bytes out b Hi Hbb) as (m1 & -> & _ & Hi1); [lia|]. rewrite bind_Done.
    destruct (IH m1 _ (out ++ [b]) Hi1) as (m' & Hrun & Hi'); cbn [set_dest dest dest_end].
    + rewrite zlen_app, zlen_cons, (zlen_nil (A := Z)). lia.
    + lia.
    + exists m'. split; [exact Hrun|]. rewrite set_dest_set_dest in Hi'. cbn [set_dest dest] in Hi'.
      by replace (dest d + Z.of_nat (S n)) with (dest d + 1 + Z.of_nat n) by lia.
Qed.

(** A stored block is a copy when its source lies outside the output. *)
Lemma copy_block_store m dst src data :
  bytes_at m src data -> 0 <= dst -> dst + zlen data <= 2 ^ 32 ->
  dst + zlen data <= src \/ src + zlen data <= dst ->
  copy_block (length data) m dst src = store_bytes m dst data.
Proof.
  revert m dst src. induction data as [|b data IH]; intros m dst src Hat H0 H32 Hd; [done|].
  destruct Hat as [[Hb Ha] Hat]. rewrite zlen_cons in *. pose proof (zlen_nonneg data).
  cbn [length copy_block store_bytes]. ld Hb. unfold store8. rewrite u32_small by lia.
  destruct (m !! dst) eqn:E; [|done].
  rewrite !bind_Done. apply IH; [|lia..]. apply bytes_at_insert_ne; [lia|done].
Qed.

(** A run of source bytes appended to the output. *)
Lemma emit_block m0 m d rest out data :
  inflating m0 m d (data ++ rest) out -> dest d + zlen data <= dest_end d ->
  exists m', copy_block (length data) m (dest d) (source d) = Done m' /\
    inflating m0 m' (set_reader (set_dest d (dest d + zlen data)) (source d + zlen data) 0 0 (overflow d)) rest (out ++ data).
Proof.
  intros Hi Hfit. pose proof Hi as [Hr Hm Ho Hd _ Hst He Hsz Hreg Hap Hlt Hdt].
  pose proof Hr as [Hat Hbs Hs Hse He32 Hbc Ht Hov]. pose proof (zlen_nonneg data). pose proof (zlen_nonneg rest).
  pose proof (zlen_nonneg out). rewrite zlen_app in Hse.
  apply bytes_at_app in Hat as [Hat1 Hat2]. apply Forall_app in Hbs as [Hb1 Hb2].
  rewrite copy_block_store by (done || lia). rewrite store_bytes_spec; [|done|].
  2: { apply (inflating_dest_region _ _ _ _ _ _ Hi); lia. }
  eexists. split; [reflexivity|].
  pose proof (inflating_emit m0 m d (data ++ rest) out data Hi Hb1 Hfit) as [Hr' Hm' Ho' Hd' Hroom' Hst' He' Hsz' Hreg' Hap' Hlt' Hdt'].
  constructor; cbn [set_reader source source_end]; try done; [|cbn in *; lia].
  constructor; cbn [set_reader set_dest source source_end bitcount tag overflow]; try done; try lia.
  - apply bytes_at_write_disj; [lia|done].
  - destruct Hov as [|[? Hnil]]; [by left|]. apply app_eq_nil in Hnil as [_ ->]. by right.
Qed.
End output.

(** ** Blocks *)
Definition table_check (n hi_bits lo_base hi_base : Z) (bits base : list Z) : bool :=
  forallb (fun s => match znth bits s, znth base s with
    | Done x, Done y => (0 <=? x) && (x <=? hi_bits) && (lo_base <=? y) && (y <=? hi_base)
    | _, _ => false
    end) (seqZ 0 n).

Lemma table_lookup n hi_bits lo_base hi_base bits base s :
  table_check n hi_bits lo_base hi_base bits base = true -> 0 <= s < n ->
  exists x y, znth bits s = Done x /\ znth base s = Done y /\ 0 <= x <= hi_bits /\ lo_base <= y <= hi_base.
Proof.
  unfold table_check. rewrite forallb_forall. intros Hck Hs.
  assert (In s (seqZ 0 n)) as Hin by (apply list_elem_of_In, elem_of_seqZ; lia). specialize (Hck s Hin).
  destruct (znth bits s) as [x| | |], (znth base s) as [y| | |]; try done. b2p. exists x, y. split_and!; done || lia.
Qed.

Definition length_tables s := table_lookup 29 5 3 258 length_bits length_base s eq_refl.
Definition dist_tables s := table_lookup 30 13 1 24577 dist_bits dist_base s eq_refl.

(** What a block function guarantees on any input: it returns one of the three
    codes, has only appended to the output, and when it returns TINF_OK it has
    consumed input. *)
Definition safe_block (m0 : mem) (d0 : tinf_data) (n : Z) (r : outcome (Z * tinf_data * mem)) : Prop :=
  exists res d m bytes out, r = Done (res, d, m) /\ inflating m0 m d bytes out /\ same_buffers d0 d /\
    (res = TINF_OK \/ res = TINF_DATA_ERROR \/ res = TINF_BUF_ERROR) /\
    (res = TINF_OK -> overflow d = 0 /\ zlen (stream d bytes) < n).

(** The trees a block is decoded with: the distance tree may be empty. *)
Definition usable (lt dt : tinf_tree) : Prop :=
  (exists ls, max_sym lt = Some ls) /\ (exists cs top, decodes lt cs top) /\
  exists ds, max_sym dt = Some ds /\ (ds = -1 \/ exists cs top, decodes dt cs top).

Section safe.
Implicit Types (m : mem) (d : tinf_data) (bytes out : list Z).

Lemma safe_block_error m0 d0 n res d m bytes out :
  inflating m0 m d bytes out -> same_buffers d0 d -> res = TINF_DATA_ERROR \/ res = TINF_BUF_ERROR ->
  safe_block m0 d0 n (Done (res, d, m)).
Proof.
  intros Hi Hs Hres. exists res, d, m, bytes, out. split_and!; try done; [tauto|].
  by destruct Hres as [-> | ->].
Qed.

Lemma safe_block_weaken m0 d0 d1 n n' r :
  safe_block m0 d1 n' r -> same_buffers d0 d1 -> n' <= n -> safe_block m0 d0 n r.
Proof.
  intros (res & d & m & bytes & out & -> & Hi & Hs & Hres & Hok) Hs0 Hn.
  exists res, d, m, bytes, out. split_and!; try done; [by etrans|]. intros E. destruct (Hok E). split; [done|lia].
Qed.

Lemma ptrdiff_small p q : 0 <= p - q < 2 ^ 31 -> ptrdiff p q = p - q.
Proof. intros. unfold ptrdiff. by apply s32_small. Qed.

Lemma reader_overflow m d bytes : reader m d bytes -> overflow d = 0 \/ overflow d = 1.
Proof. intros [_ _ _ _ _ _ _ Ho]. destruct Ho as [|[? _]]; auto. Qed.

(** Once the reader has overflowed, the next symbol ends the block. *)
Lemma block_data_overflow fuel m0 m d bytes out lt dt n :
  inflating m0 m d bytes out -> usable lt dt -> (0 < fuel)%nat -> overflow d = 1 ->
  safe_block m0 d n (tinf_inflate_block_data fuel m d lt dt).
Proof.
  intros Hi (_ & (lcs & ltop & Hlt) & _) Hf Ho. destruct fuel as [|fuel]; [lia|]. cbn [tinf_inflate_block_data].
  destruct (decode_symbol_total lt lcs ltop Hlt m d bytes (if_reader _ _ _ _ _ Hi))
    as (sym & d1 & bytes1 & -> & Hr1 & Ha1 & _ & Hm1).
  assert (overflow d1 = 1) as Ho1 by (destruct Hm1 as [|[? ?]]; congruence). rewrite bind_Done, Ho1. cbn [negb].
  eapply safe_block_error; [by eapply inflating_step|by apply advances_same_buffers|by left].
Qed.

Lemma block_data_safe fuel m0 m d bytes out lt dt :
  inflating m0 m d bytes out -> usable lt dt -> zlen (stream d bytes) < Z.of_nat fuel ->
  safe_block m0 d (zlen (stream d bytes)) (tinf_inflate_block_data fuel m d lt dt).
Proof.
  intros Hi Hus. pose proof Hus as ([lms Hlms] & (lcs & ltop & Hlt) & dms & Hdms & Hdt). revert m d bytes out Hi.
  induction fuel as [|fuel IH]; intros m d bytes out Hi Hf; [pose proof (zlen_nonneg (stream d bytes)); lia|].
  cbn [tinf_inflate_block_data].
  destruct (decode_symbol_total lt lcs ltop Hlt m d bytes (if_reader _ _ _ _ _ Hi))
    as (sym & d1 & bytes1 & -> & Hr1 & Ha1 & Hsym & Hm1).
  pose proof (inflating_step _ _ _ _ _ _ _ Hi Hr1 Ha1) as Hi1. pose proof (advances_same_buffers _ _ Ha1) as Hs1.
  rewrite bind_Done. destruct (overflow d1 =? 0) eqn:Eo; cbn [negb]; b2p.
  2: { eapply safe_block_error; eauto. }
  assert (zlen (stream d1 bytes1) < zlen (stream d bytes)) as Hlt1 by (destruct Hm1 as [|[? ?]]; lia).
  pose proof Hi1 as [_ _ _ Hd1 Hroom1 Hst1 He1 Hsz1 _ _ _ _]. pose proof (zlen_nonneg out).
  destruct (sym <? 256) eqn:E256; b2p.
  { destruct (dest d1 =? dest_end d1) eqn:Eend; b2p; [eapply safe_block_error; eauto|].
    (* a literal that the tree holds is a byte *)
    destruct (emit_byte m0 m d1 bytes1 out sym Hi1) as (m' & -> & Hu & Hi'); [split; lia|lia|].
    rewrite bind_Done, Hu. eapply safe_block_weaken; [apply (IH _ _ _ _ Hi')|etrans; [exact Hs1|by constructor]|].
    - change (stream (set_dest d1 (dest d1 + 1)) bytes1) with (stream d1 bytes1). lia.
    - change (stream (set_dest d1 (dest d1 + 1)) bytes1) with (stream d1 bytes1). lia. }
  destruct (sym =? 256) eqn:Eeob; b2p.
  { exists TINF_OK, d1, m, bytes1, out. split_and!; try done; by left. }
  rewrite Hlms, Hdms. cbn [of_option]. rewrite !bind_Done.
  match goal with |- context [if ?b then Done (TINF_DATA_ERROR, _, _) else _] => destruct b eqn:Eb end; b2p.
  { eapply safe_block_error; eauto. }
  destruct Hdt as [|(dcs & dtop & Hdt)]; [done|].
  destruct (length_tables (sym - 257)) as (lb & lbase & -> & -> & Hlb & Hlbase); [lia|]. rewrite !bind_Done.
  destruct (getbits_base_spec m d1 bytes1 lb lbase Hr1) as (lv & d2 & bytes2 & -> & Hr2 & Ha2 & Hlv & Ht2); [lia..|].
  pose proof (inflating_step _ _ _ _ _ _ _ Hi1 Hr2 Ha2) as Hi2. rewrite bind_Done.
  assert (2 ^ lb <= 2 ^ 5) by (apply Z.pow_le_mono_r; lia).
  destruct (decode_symbol_total dt dcs dtop Hdt m d2 bytes2 Hr2) as (dist & d3 & bytes3 & -> & Hr3 & Ha3 & Hdist & Hm3).
  pose proof (inflating_step _ _ _ _ _ _ _ Hi2 Hr3 Ha3) as Hi3. rewrite bind_Done.
  assert (same_buffers d d3) as Hs3 by (etrans; [exact Hs1|]; etrans; by apply advances_same_buffers).
  match goal with |- context [if ?b then Done (TINF_DATA_ERROR, _, _) else _] => destruct b eqn:Eb2 end; b2p.
  { eapply safe_block_error; eauto. }
  destruct (dist_tables dist) as (db & dbase & -> & -> & Hdb & Hdbase); [lia|]. rewrite !bind_Done.
  destruct (getbits_base_spec m d3 bytes3 db dbase Hr3) as (dv & d4 & bytes4 & -> & Hr4 & Ha4 & Hdv & Ht4); [lia..|].
  pose proof (inflating_step _ _ _ _ _ _ _ Hi3 Hr4 Ha4) as Hi4. rewrite bind_Done.
  assert (same_buffers d d4) as Hs4 by (etrans; [exact Hs3|by apply advances_same_buffers]).
  pose proof Hi4 as [_ _ _ Hd4 Hroom4 Hst4 He4 Hsz4 _ _ _ _].
  rewrite !ptrdiff_small by lia.
  destruct (dest d4 - dest_start d4 <? dbase + dv) eqn:Eoff; b2p; [eapply safe_block_error; eauto|].
  destruct (dest_end d4 - dest d4 <? lbase + lv) eqn:Elen; b2p; [eapply safe_block_error; eauto|].
  destruct (emit_match (Z.to_nat (lbase + lv)) m0 m d4 bytes4 out (dbase + dv) Hi4) as (m' & -> & Hi'); [lia..|].
  rewrite bind_Done. rewrite Z2Nat.id in Hi' by lia. rewrite u32_small by lia.
  assert (overflow d4 = 1 \/ overflow d4 = 0 /\ zlen (stream d4 bytes4) < zlen (stream d bytes)) as Hm4.
  { destruct (takes_length _ _ _ _ _ _ (proj1 Hlb) Ht2) as [Ho2|[Ho2 ?]];
    destruct (takes_length _ _ _ _ _ _ (proj1 Hdb) Ht4) as [|[Ho4 ?]]; try (by left);
    destruct Hm3 as [Ho3|[Ho3 ?]]; try (left; congruence); right; split; [congruence|lia]. }
  eapply (safe_block_weaken _ _ (set_dest d4 (dest d4 + (lbase + lv)))); [|etrans; [exact Hs4|by constructor]|reflexivity].
  destruct Hm4 as [Ho4|[Ho4 Hlt4]].
  - eapply block_data_overflow; try done. pose proof (zlen_nonneg (stream d1 bytes1)). lia.
  - eapply safe_block_weaken; [apply (IH _ _ _ _ Hi')|done|];
      change (stream (set_dest ?x ?y) ?z) with (stream x z); lia.
Qed.
End safe.

(** ** Dynamic trees *)

(** The code length codes [vs], stored in the order of [clcidx]. *)
Fixpoint place (i : nat) (vs cl : list Z) : list Z :=
  match vs with
  | [] => cl
  | v :: vs' => place (S i) vs' (<[Z.to_nat (nth i clcidx 0) := v]> cl)
  end.

(** Reading consumes bits or overflows. *)
Definition drains (d : tinf_data) (bytes : list Z) (d' : tinf_data) (bytes' : list Z) : Prop :=
  overflow d' = 1 \/ overflow d' = overflow d /\ zlen (stream d' bytes') <= zlen (stream d bytes).

Section dynamic.
Implicit Types (m : mem) (d : tinf_data) (bytes out ls cl : list Z).

Lemma drains_refl d bytes : drains d bytes d bytes.
Proof. right. split; [done|lia]. Qed.

Lemma drains_trans d1 b1 d2 b2 d3 b3 : drains d1 b1 d2 b2 -> drains d2 b2 d3 b3 -> drains d1 b1 d3 b3.
Proof. intros [|[? ?]] [|[? ?]]; try (by left); [left; congruence|right; split; [congruence|lia]]. Qed.

Lemma takes_drains d bytes num v d' bytes' : 0 <= num -> takes d bytes num v d' bytes' -> drains d bytes d' bytes'.
Proof. intros Hn Ht. destruct (takes_length _ _ _ _ _ _ Hn Ht) as [|[? ?]]; [by left|right; split; [done|lia]]. Qed.

Lemma decode_drains d bytes d' bytes' :
  overflow d' = 1 \/ overflow d' = overflow d /\ zlen (stream d' bytes') < zlen (stream d bytes) ->
  drains d bytes d' bytes'.
Proof. intros [|[? ?]]; [by left|right; split; [done|lia]]. Qed.

Lemma place_length i vs cl : length (place i vs cl) = length cl.
Proof. revert i cl. induction vs as [|v vs IH]; intros i cl; cbn; [done|]. by rewrite IH, length_insert. Qed.

Lemma place_ok i vs cl : lengths_ok cl -> Forall (fun v => 0 <= v < 8) vs -> lengths_ok (place i vs cl).
Proof.
  intros Hcl Hvs. revert i cl Hcl. induction Hvs as [|v vs Hv _ IH]; intros i cl Hcl; cbn; [done|].
  apply IH. apply Forall_insert; [done|cbn; lia].
Qed.

Lemma clcidx_lookup (i : nat) : (i < 19)%nat -> znth clcidx (Z.of_nat i) = Done (nth i clcidx 0) /\ 0 <= nth i clcidx 0 <= 18.
Proof. intros Hi. do 19 (destruct i as [|i]; [vm_compute; split; [done|split; congruence]|]). lia. Qed.

(** The code length codes: what is read, and what they are when the stream
    begins with the codes [ws]. *)
Lemma clen_loop_spec n m d bytes (i : nat) cl tl :
  reader m d bytes -> (i + n <= 19)%nat -> length cl = 19%nat ->
  exists vs d' bytes', clen_loop n m d (Z.of_nat i) ((Some <$> cl) ++ tl) = Done ((Some <$> place i vs cl) ++ tl, d') /\
    Forall (fun v => 0 <= v < 8) vs /\ reader m d' bytes' /\ advances d d' /\ drains d bytes d' bytes' /\
    forall ws rest, length ws = n -> Forall (fun v => 0 <= v < 8) ws ->
      stream d bytes = concat (map (low_bits 3) ws) ++ rest ->
      vs = ws /\ stream d' bytes' = rest /\ overflow d' = overflow d.
Proof.
  revert d bytes i cl. induction n as [|n IH]; intros d bytes i cl Hr Hi Hcl.
  - exists [], d, bytes. split_and!; try done; [apply drains_refl|]. intros ws rest Hw _ Hst. by destruct ws.
  - cbn [clen_loop]. destruct (getbits_spec m d bytes 3 Hr) as (v & d1 & bytes1 & -> & Hr1 & Ha1 & Hv & Ht); [lia|].
    rewrite bind_Done. destruct (clcidx_lookup i) as [-> Hidx]; [lia|]. rewrite bind_Done.
    rewrite aset_Done by (unfold zlen; rewrite length_app, length_fmap; lia). rewrite bind_Done.
    rewrite insert_app_l by (rewrite length_fmap; lia). rewrite <- list_fmap_insert.
    rewrite (wrap_small 8) by lia. replace (Z.of_nat i + 1) with (Z.of_nat (S i)) by lia.
    destruct (IH d1 bytes1 (S i) (<[Z.to_nat (nth i clcidx 0) := v]> cl) Hr1) as (vs & d' & bytes' & Hrun & Hvs & Hr' & Ha' & Hdr & Hex);
      [lia|by rewrite length_insert|].
    exists (v :: vs), d', bytes'. split_and!; [exact Hrun|by constructor|done|by etrans| |].
    + eapply drains_trans; [|exact Hdr]. by apply (takes_drains _ _ 3 v).
    + intros ws rest Hw Hok Hst. destruct ws as [|w ws]; [done|]. cbn [map concat] in Hst. rewrite <- app_assoc in Hst.
      apply Forall_cons in Hok as [Hw8 Hok].
      destruct (takes_prefix _ _ _ _ _ _ _ _ Ht Hst) as (-> & Hst1 & Ho1); [done|done|].
      rewrite bits_value_low_bits by done.
      destruct (Hex ws rest) as (-> & ? & ?); [cbn in Hw; lia|done..|]. split_and!; [done..|congruence].
Qed.

(** The first [zlen ls] code lengths are known. *)
Definition known (arr : array) (ls : list Z) : Prop :=
  exists tl, arr = (Some <$> ls) ++ tl /\ zlen arr = 320.

Lemma known_slice arr ls off p : known arr (p ++ ls) -> off = zlen p -> slice arr off ls.
Proof.
  intros (tl & -> & _) -> i x Hx. apply aget_app. rewrite aget_fmap. apply znth_Done.
  split; [unfold zlen; lia|]. replace (Z.to_nat (zlen p + Z.of_nat i)) with (length p + i)%nat by (unfold zlen; lia).
  rewrite lookup_app_r by lia. by replace (length p + i - length p)%nat with i by lia.
Qed.

Lemma known_fill arr ls n l :
  known arr ls -> zlen ls + Z.of_nat n <= 320 ->
  exists arr', fill_const n arr (zlen ls) l = Done arr' /\ known arr' (ls ++ replicate n l).
Proof.
  intros (tl & -> & Hlen) Hn. eexists. rewrite fill_const_spec by (try apply zlen_nonneg; lia).
  split; [reflexivity|]. rewrite to_nat_zlen.
  assert (length ls = length (Some <$> ls)) as El by (by rewrite length_fmap).
  exists (drop n tl). split.
  - rewrite El, take_app_length, drop_app_ge by lia. rewrite fmap_app, fmap_replicate, <- app_assoc. do 3 f_equal. lia.
  - unfold zlen in *. rewrite length_app in Hlen. rewrite !length_app, length_replicate, length_drop, length_app, length_take, length_app. lia.
Qed.

(** One code length symbol. *)
Lemma length_run_spec m d bytes sym arr ls :
  reader m d bytes -> 0 <= sym <= 18 -> known arr ls -> lengths_ok ls ->
  exists r d' bytes', length_run m d sym (zlen ls) arr = Done (r, d') /\ reader m d' bytes' /\ advances d d' /\
    drains d bytes d' bytes' /\
    match r with None => True | Some (l, n) => 0 <= l <= 15 /\ 1 <= n <= 138 end.
Proof.
  intros Hr Hsym Hk Hls. unfold length_run.
  assert (forall num base l, 0 <= num <= 7 -> 3 <= base <= 11 -> 2 ^ num <= 128 -> 0 <= l <= 15 ->
    exists r d' bytes', ('(n, d) ← tinf_getbits_base m d num base; Done (Some (l, n), d)) = Done (r, d') /\
      reader m d' bytes' /\ advances d d' /\ drains d bytes d' bytes' /\
      match r with None => True | Some (l, n) => 0 <= l <= 15 /\ 1 <= n <= 138 end) as Hread.
  { intros num base l Hn Hb Hp Hl.
    destruct (getbits_base_spec m d bytes num base Hr) as (v & d1 & bytes1 & -> & Hr1 & Ha1 & Hv & Ht); [lia..|].
    exists (Some (l, base + v)), d1, bytes1. split_and!; try done; try lia. by eapply takes_drains; [|exact Ht]; lia. }
  destruct (sym =? 16) eqn:E16; [|destruct (sym =? 17) eqn:E17; [|destruct (sym =? 18) eqn:E18]]; b2p.
  - destruct (zlen ls =? 0) eqn:E0; b2p.
    { exists None, d, bytes. split_and!; try done. apply drains_refl. }
    assert (exists l, aget arr (zlen ls - 1) = Done l /\ 0 <= l <= 15) as (l & -> & Hl).
    { pose proof (zlen_nonneg ls). destruct (lookup_lt_is_Some_2 ls (Z.to_nat (zlen ls - 1))) as [l Hl]; [unfold zlen in *; lia|].
      exists l. split; [|exact (proj1 (Forall_lookup _ _) Hls _ _ Hl)].
      pose proof (known_slice arr ls 0 [] Hk eq_refl _ _ Hl) as Hs. by replace (zlen ls - 1) with (0 + Z.of_nat (Z.to_nat (zlen ls - 1))) by lia. }
    rewrite bind_Done. by apply Hread.
  - by apply Hread.
  - by apply Hread.
  - exists (Some (sym, 1)), d, bytes. split_and!; try done; try lia. apply drains_refl.
Qed.

Lemma known_length arr ls : known arr ls -> zlen ls <= 320.
Proof. intros (tl & -> & Hl). rewrite zlen_app in Hl. unfold zlen in *. rewrite length_fmap in Hl. lia. Qed.

Lemma lengths_loop_spec fuel m d bytes t cs top ms total arr ls :
  reader m d bytes -> decodes t cs top -> max_sym t = Some ms -> ms <= 18 ->
  known arr ls -> lengths_ok ls -> zlen ls <= total <= 320 -> total - zlen ls < Z.of_nat fuel ->
  exists r d' bytes', lengths_loop fuel m d t total (zlen ls) arr = Done (r, d') /\ reader m d' bytes' /\
    advances d d' /\ drains d bytes d' bytes' /\
    match r with
    | None => True
    | Some arr' => exists ls', known arr' ls' /\ lengths_ok ls' /\ zlen ls' = total
    end.
Proof.
  intros Hr Ht Hms Hms18. revert d bytes arr ls Hr. induction fuel as [|fuel IH]; intros d bytes arr ls Hr Hk Hls Hn Hf; [lia|].
  cbn [lengths_loop]. destruct (zlen ls <? total) eqn:E; b2p.
  2: { exists (Some arr), d, bytes. split_and!; try done; [apply drains_refl|]. exists ls. split_and!; done || lia. }
  destruct (decode_symbol_total t cs top Ht m d bytes Hr) as (sym & d1 & bytes1 & -> & Hr1 & Ha1 & Hsym & Hm1).
  apply decode_drains in Hm1. rewrite bind_Done, Hms. cbn [of_option]. rewrite bind_Done.
  destruct (ms <? sym) eqn:Es; b2p; [by exists None, d1, bytes1|].
  destruct (length_run_spec m d1 bytes1 sym arr ls Hr1) as (r & d2 & bytes2 & -> & Hr2 & Ha2 & Hm2 & Hrun); [lia|done..|].
  assert (drains d bytes d2 bytes2) as Hm by (by eapply drains_trans). assert (advances d d2) as Ha by (by etrans).
  rewrite bind_Done. destruct r as [[l n]|]; [|by exists None, d2, bytes2]. destruct Hrun as [Hl Hn'].
  destruct (u32 (total - zlen ls) <? n) eqn:En; b2p; [by exists None, d2, bytes2|]. pose proof (zlen_nonneg ls). rewrite u32_small in En by lia.
  rewrite (wrap_small 8) by lia.
  destruct (known_fill arr ls (Z.to_nat n) l Hk) as (arr' & -> & Hk'); [lia|]. rewrite bind_Done.
  assert (zlen ls + n = zlen (ls ++ replicate (Z.to_nat n) l)) as En' by (rewrite zlen_app, zlen_replicate; lia).
  rewrite En'. destruct (IH d2 bytes2 arr' _ Hr2 Hk') as (r & d3 & bytes3 & Hrun & Hr3 & Ha3 & Hm3 & Hres).
  - apply Forall_app_2; [done|]. apply Forall_replicate. cbn. lia.
  - lia.
  - lia.
  - exists r, d3, bytes3. split_and!; try done; [by etrans|by eapply drains_trans].
Qed.

Lemma inflating_trees m0 m d bytes out lt dt :
  inflating m0 m d bytes out -> tree_shape lt -> tree_shape dt ->
  inflating m0 m (set_trees d lt dt) bytes out.
Proof. intros [[]] ??. by constructor. Qed.

Lemma known_clens cl : length cl = 19%nat -> known ((Some <$> cl) ++ uninit 301) cl.
Proof. intros Hl. exists (uninit 301). split; [done|]. unfold zlen. rewrite length_app, length_fmap, Hl. done. Qed.

(** The code length tree. *)
Lemma code_length_tree_spec m0 m d bytes out hclen :
  inflating m0 m d bytes out -> 0 <= hclen <= 19 ->
  exists r d' bytes', code_length_tree m d hclen = Done (r, d') /\ inflating m0 m d' bytes' out /\
    same_buffers d d' /\ drains d bytes d' bytes' /\
    match r with
    | None => True
    | Some arr => exists cl, known arr cl /\ tree_of (ltree d') cl /\ zlen cl = 19 /\
                    max_sym (ltree d') = Some (last_symbol cl 0)
    end /\
    forall ws rest, zlen ws = hclen -> Forall (fun v => 0 <= v < 8) ws ->
      stream d bytes = concat (map (low_bits 3) ws) ++ rest ->
      let cl := place 0 ws (replicate 19 0) in
      code_ok cl = true -> words cl <> 0 ->
      exists arr, r = Some arr /\ known arr cl /\ stream d' bytes' = rest /\ overflow d' = overflow d /\
        tree_of (ltree d') cl /\ max_sym (ltree d') = Some (last_symbol cl 0).
Proof.
  intros Hi Hh. unfold code_length_tree.
  rewrite fill_const_spec by done. change (Z.to_nat 0) with 0%nat. rewrite take_0, bind_Done. cbn [app Nat.add].
  change (drop 19 (uninit 320)) with (uninit 301). change (replicate 19 (Some 0)) with (Some <$> replicate 19 0).
  destruct (clen_loop_spec (Z.to_nat hclen) m d bytes 0 (replicate 19 0) (uninit 301) (if_reader _ _ _ _ _ Hi))
    as (vs & d4 & b4 & Hrun & Hvs & Hr4 & Ha4 & Hdr4 & Hex); [lia|done|].
  change (Z.of_nat 0) with 0 in Hrun. rewrite Hrun, bind_Done. clear Hrun.
  set (cl := place 0 vs (replicate 19 0)) in *. assert (length cl = 19%nat) as Hcl by apply place_length.
  assert (lengths_ok cl) as Hclok by (by apply place_ok, Hvs; apply Forall_replicate).
  pose proof (inflating_step _ _ _ _ _ _ _ Hi Hr4 Ha4) as Hi4.
  assert (zlen cl = 19) as Hclz by (unfold zlen; lia). pose proof (known_clens cl Hcl) as Hkcl.
  destruct (build_tree_spec (ltree d4) _ 0 cl (if_ltree _ _ _ _ _ Hi4) (known_slice _ cl 0 [] Hkcl eq_refl) Hclok)
    as (lt & Hb & Hsh & Hlt); [lia|]. rewrite Hclz in Hb. rewrite Hb, bind_Done. clear Hb.
  pose proof (inflating_trees _ _ _ _ _ lt (dtree d4) Hi4 Hsh (if_dtree _ _ _ _ _ Hi4)) as Hi5.
  assert (same_buffers d (set_trees d4 lt (dtree d4))) as Hs5
    by (etrans; [by apply advances_same_buffers|by constructor]).
  assert (forall ws rest, zlen ws = hclen -> Forall (fun v => 0 <= v < 8) ws ->
    stream d bytes = concat (map (low_bits 3) ws) ++ rest ->
    vs = ws /\ stream d4 b4 = rest /\ overflow d4 = overflow d) as Hex'
    by (intros ws rest Hw; apply Hex; unfold zlen in Hw; lia).
  destruct (code_ok cl) eqn:Ecl.
  2: { exists None, (set_trees d4 lt (dtree d4)), b4. split_and!; try done.
       intros ws rest Hw Hok Hst. destruct (Hex' ws rest Hw Hok Hst) as (<- & _). cbn zeta. fold cl. congruence. }
  change (negb (TINF_OK =? TINF_OK)) with false. cbn iota. destruct (Hlt eq_refl) as [Hms Hof]. rewrite Hms.
  cbn [of_option]. rewrite bind_Done. pose proof (last_symbol_range cl 0 ltac:(lia)).
  destruct (last_symbol cl 0 =? -1) eqn:Enone; b2p.
  - exists None, (set_trees d4 lt (dtree d4)), b4. split_and!; try done.
    intros ws rest Hw Hok Hst. destruct (Hex' ws rest Hw Hok Hst) as (<- & _). cbn zeta. fold cl. intros _ Hne.
    by apply (last_symbol_some cl 0) in Hne.
  - assert (words cl <> 0) as Hw by (intros Hw; by rewrite (last_symbol_none cl 0 Hw) in Enone).
    eexists (Some _), (set_trees d4 lt (dtree d4)), b4. split_and!; try done; [by exists cl; auto|].
    intros ws rest Hlen Hok Hst. destruct (Hex' ws rest Hlen Hok Hst) as (<- & ? & ?). cbn zeta. fold cl. intros _ _.
    eexists. split; [reflexivity|]. split_and!; try done. by apply Hof.
Qed.

Lemma known_sub arr ls1 ls2 : known arr (ls1 ++ ls2) -> known arr ls1.
Proof. intros (tl & -> & Hl). exists ((Some <$> ls2) ++ tl). split; [by rewrite fmap_app, <- app_assoc|done]. Qed.

Lemma known_nil arr ls : known arr ls -> known arr [].
Proof. intros Hk. by apply (known_sub _ [] ls). Qed.

(** The two trees; they are built whenever both codes are admissible and the
    end-of-block symbol has a code word. *)
Lemma dynamic_trees_spec m0 m d bytes out arr ll dl :
  inflating m0 m d bytes out -> known arr (ll ++ dl) -> lengths_ok (ll ++ dl) -> 257 <= zlen ll <= 286 -> 1 <= zlen dl <= 30 ->
  exists lt dt, dynamic_trees d arr (zlen ll) (zlen dl) =
      Done (if negb (length_of ll 256 =? 0) && code_ok ll && code_ok dl then TINF_OK else TINF_DATA_ERROR, set_trees d lt dt) /\
    inflating m0 m (set_trees d lt dt) bytes out /\
    (length_of ll 256 <> 0 -> code_ok ll = true -> code_ok dl = true ->
     tree_of lt ll /\ max_sym lt = Some (last_symbol ll 0) /\
     (words dl <> 0 -> tree_of dt dl) /\ max_sym dt = Some (last_symbol dl 0)).
Proof.
  intros Hi Hk Hok Hll Hdl. apply Forall_app in Hok as [Hokl Hokd]. unfold dynamic_trees.
  pose proof (known_slice arr ll 0 [] (known_sub _ _ _ Hk) eq_refl) as Hsl.
  pose proof (known_slice arr dl (zlen ll) ll Hk eq_refl) as Hsd.
  pose proof (Hsl 256%nat _ (length_of_lookup ll 256 ltac:(lia))) as Heob. change (0 + Z.of_nat 256) with 256 in Heob.
  rewrite Heob, bind_Done. destruct (length_of ll 256 =? 0) eqn:E256; b2p; cbn [negb andb].
  { exists (ltree d), (dtree d). destruct d. by split_and!. }
  destruct (build_tree_spec (ltree d) arr 0 ll (if_ltree _ _ _ _ _ Hi) Hsl Hokl ltac:(lia)) as (lt & -> & Hshl & Hl).
  rewrite bind_Done. pose proof (inflating_trees _ _ _ _ _ lt (dtree d) Hi Hshl (if_dtree _ _ _ _ _ Hi)) as Hi1.
  destruct (code_ok ll) eqn:Ecl; cbn [andb negb].
  2: { exists lt, (dtree d). by split_and!. }
  change (negb (TINF_OK =? TINF_OK)) with false. cbn iota.
  destruct (build_tree_spec (dtree d) arr (zlen ll) dl (if_dtree _ _ _ _ _ Hi) Hsd Hokd ltac:(lia)) as (dt & Hb & Hshd & Hd).
  change (dtree (set_trees d lt (dtree d))) with (dtree d). rewrite Hb, bind_Done.
  exists lt, dt. split.
  { destruct (code_ok dl); reflexivity. }
  split; [by apply inflating_trees|]. intros _ _ Ecd. destruct (Hl eq_refl) as [Hms Hof]. destruct (Hd Ecd) as [Hmsd Hofd].
  split_and!; try done. apply Hof. unfold words. intros Hw.
  pose proof (last_symbol_max ll 0 256 _ ltac:(lia) (length_of_lookup ll 256 ltac:(lia)) E256).
  rewrite (last_symbol_none ll 0 Hw) in *. lia.
Qed.

Lemma set_trees_buffers d lt dt : same_buffers d (set_trees d lt dt).
Proof. by constructor. Qed.

(** The trees of a dynamic block. *)
Lemma decode_trees_safe m0 m d bytes out :
  inflating m0 m d bytes out ->
  exists res d' bytes', tinf_decode_trees m d = Done (res, d') /\ inflating m0 m d' bytes' out /\
    same_buffers d d' /\ drains d bytes d' bytes' /\ (res = TINF_OK \/ res = TINF_DATA_ERROR) /\
    (res = TINF_OK -> usable (ltree d') (dtree d')).
Proof.
  intros Hi. unfold tinf_decode_trees.
  destruct (getbits_base_spec m d bytes 5 257 (if_reader _ _ _ _ _ Hi)) as (v1 & d1 & b1 & -> & Hr1 & Ha1 & Hv1 & Ht1); [lia..|].
  rewrite bind_Done. destruct (getbits_base_spec m d1 b1 5 1 Hr1) as (v2 & d2 & b2 & -> & Hr2 & Ha2 & Hv2 & Ht2); [lia..|].
  rewrite bind_Done. destruct (getbits_base_spec m d2 b2 4 4 Hr2) as (v3 & d3 & b3 & -> & Hr3 & Ha3 & Hv3 & Ht3); [lia..|].
  rewrite bind_Done. assert (advances d d3) as Ha by (do 2 (etrans; [eassumption|]); done).
  assert (drains d bytes d3 b3) as Hdr.
  { apply takes_drains in Ht1, Ht2, Ht3; [|lia..]. eapply drains_trans; [exact Ht1|]. by eapply drains_trans. }
  pose proof (inflating_step _ _ _ _ _ _ _ Hi Hr3 Ha) as Hi3. clear Ht1 Ht2 Ht3 Hr1 Hr2 Ha1 Ha2 Hr3.
  apply advances_same_buffers in Ha as Hs.
  match goal with |- context [if ?b then Done (TINF_DATA_ERROR, d3) else _] => destruct b eqn:Eb end; b2p.
  { exists TINF_DATA_ERROR, d3, b3. split_and!; try done. by right. }
  destruct (code_length_tree_spec m0 m d3 b3 out (4 + v3) Hi3) as (r & d4 & b4 & -> & Hi4 & Hs4 & Hdr4 & Hres & _); [lia|].
  rewrite bind_Done. apply (drains_trans _ _ _ _ _ _ Hdr) in Hdr4. assert (same_buffers d d4) as Hs' by (by etrans).
  destruct r as [arr|]; [|exists TINF_DATA_ERROR, d4, b4; split_and!; try done; by right].
  destruct Hres as (cl & Hk & (cs & Hdec & _) & Hcl & Hms). pose proof (last_symbol_range cl 0 ltac:(lia)).
  destruct (lengths_loop_spec (S (Z.to_nat (257 + v1 + (1 + v2)))) m d4 b4 (ltree d4) cs _ _ (257 + v1 + (1 + v2)) arr []
    (if_reader _ _ _ _ _ Hi4) Hdec Hms) as (r & d5 & b5 & Hrun & Hr5 & Ha5 & Hdr5 & Hls); [lia|by eapply known_nil|constructor| | |].
  1,2: change (zlen (@nil Z)) with 0; lia.
  change (zlen (@nil Z)) with 0 in Hrun. rewrite Hrun, bind_Done. clear Hrun.
  pose proof (inflating_step _ _ _ _ _ _ _ Hi4 Hr5 Ha5) as Hi5. apply (drains_trans _ _ _ _ _ _ Hdr4) in Hdr5.
  assert (same_buffers d d5) as Hs5 by (etrans; [exact Hs'|by apply advances_same_buffers]).
  destruct r as [arr'|]; [|exists TINF_DATA_ERROR, d5, b5; split_and!; try done; by right].
  destruct Hls as (ls & Hk' & Hok & Hls). rewrite <- (take_drop (Z.to_nat (257 + v1)) ls) in Hk', Hok.
  set (ll := take _ ls) in *. set (dl := drop _ ls) in *.
  assert (zlen ll = 257 + v1 /\ zlen dl = 1 + v2) as [Hll Hdl]
    by (unfold ll, dl, zlen in *; rewrite length_take, length_drop; lia).
  destruct (dynamic_trees_spec m0 m d5 b5 out arr' ll dl Hi5 Hk' Hok) as (lt & dt & Hrun & Hi6 & Hus); [lia..|].
  rewrite Hll, Hdl in Hrun. rewrite Hrun.
  exists (if negb (length_of ll 256 =? 0) && code_ok ll && code_ok dl then TINF_OK else TINF_DATA_ERROR), (set_trees d5 lt dt), b5.
  split_and!; try done; [etrans; [exact Hs5|apply set_trees_buffers]|by case_if; auto|].
  case_if; [|done]. intros _. b2p. destruct Hus as ((lcs & Hlt & _) & Hlms & Hdt & Hdms); [done..|].
  split; [by eexists|]. split; [by eexists _, _|]. eexists. split; [exact Hdms|].
  destruct (decide (words dl = 0)) as [Hw|Hw]; [left; by apply last_symbol_none|]. right.
  destruct (Hdt Hw) as (dcs & Hdec' & _). by eexists _, _.
Qed.
End dynamic.

(** ** Stored blocks and the loop over the blocks *)
#[local] Hint Extern 1 (same_buffers ?d ?d) => reflexivity : core.

Section blocks.
Implicit Types (m : mem) (d : tinf_data) (bytes out data : list Z).

Lemma read_le16_spec m a b0 b1 rest :
  bytes_at m a (b0 :: b1 :: rest) -> is_byte b0 -> is_byte b1 -> read_le16 m a = Done (b0 + 256 * b1).
Proof.
  intros ((H0 & Ha0) & (H1 & Ha1) & _) Hb0 Hb1. unfold read_le16. ld H0. ld H1. unfold is_byte in *.
  rewrite shift_byte by (unfold is_byte; lia). by rewrite lor_disjoint by lia.
Qed.

(** Skipping the four bytes of the header. *)
Lemma skip_header m0 m d b0 b1 b2 b3 rest out :
  inflating m0 m d (b0 :: b1 :: b2 :: b3 :: rest) out ->
  read_le16 m (source d) = Done (b0 + 256 * b1) /\ read_le16 m (source d + 2) = Done (b2 + 256 * b3) /\
  is_byte b0 /\ is_byte b1 /\ source_end d = source d + 4 + zlen rest /\ u32 (source d + 4) = source d + 4 /\
  inflating m0 m (set_reader d (source d + 4) (tag d) (bitcount d) (overflow d)) rest out.
Proof.
  intros Hi. pose proof Hi as [Hr _ _ _ _ _ _ _ _ _ _ _]. pose proof Hr as [Hat Hbs Hs Hse He32 Hbc Ht Hov].
  rewrite !zlen_cons in Hse. pose proof (zlen_nonneg rest).
  apply Forall_cons in Hbs as [B0 Hbs]. apply Forall_cons in Hbs as [B1 Hbs].
  apply Forall_cons in Hbs as [B2 Hbs]. apply Forall_cons in Hbs as [B3 Hbs].
  pose proof (read_le16_spec m _ b0 b1 _ Hat B0 B1). destruct Hat as (? & ? & Hat).
  replace (source d + 1 + 1) with (source d + 2) in Hat by lia.
  pose proof (read_le16_spec m _ b2 b3 _ Hat B2 B3). destruct Hat as (? & ? & Hat).
  split_and!; try done; try lia; [apply u32_small; lia|].
  eapply inflating_step; [exact Hi| |constructor; cbn; done || lia].
  constructor; cbn [set_reader source source_end bitcount tag overflow]; try done; try lia.
  - by replace (source d + 4) with (source d + 2 + 1 + 1) by lia.
  - destruct Hov as [|[? ?]]; [by left|done].
Qed.

(** The header and contents of a stored block that fits. *)
Lemma stored_block m0 m d b0 b1 b2 b3 data rest out :
  inflating m0 m d (b0 :: b1 :: b2 :: b3 :: data ++ rest) out -> source_end d - source d < 2 ^ 31 ->
  b0 + 256 * b1 = zlen data -> zlen data = Z.land (u32 (Z.lnot (b2 + 256 * b3))) 0xFFFF ->
  dest d + zlen data <= dest_end d ->
  exists d' m', tinf_inflate_uncompressed_block m d = Done (TINF_OK, d', m') /\
    inflating m0 m' d' rest (out ++ data) /\ same_buffers d d' /\ overflow d' = overflow d /\ stream d' rest = bytes_bits rest.
Proof.
  intros Hi Hsz Hlen Hinv Hfit. destruct (skip_header _ _ _ _ _ _ _ _ _ Hi) as (H1 & H2 & B0 & B1 & Hse & Hu & Hi1).
  pose proof Hi as [Hr _ _ Hd Hroom Hst He Hsz' _ _ _ _]. pose proof (rd_source _ _ _ Hr). pose proof (rd_end32 _ _ _ Hr).
  pose proof (zlen_nonneg data). pose proof (zlen_nonneg rest). pose proof (zlen_nonneg out). rewrite zlen_app in Hse.
  unfold tinf_inflate_uncompressed_block. rewrite H1, H2, ptrdiff_small by lia. bdec. rewrite ?andb_false_r, !bind_Done.
  rewrite Hlen, <- Hinv, Z.eqb_refl. cbn [negb]. rewrite Hu. cbn [set_reader source source_end dest dest_end].
  rewrite !u32_small by lia. bdec. rewrite ?andb_false_r.
  destruct (emit_block m0 m _ rest out data Hi1) as (m' & Hrun & Hi'); [done|].
  cbn [set_reader set_dest source dest] in Hrun. rewrite to_nat_zlen, Hrun, bind_Done.
  eexists _, m'. split; [reflexivity|]. cbn [set_reader set_dest source dest overflow].
  split; [|split; [|split; [done|]]].
  - rewrite !u32_small by lia. exact Hi'.
  - constructor; cbn [set_reader set_dest source source_end dest_start dest_end]; try done. rewrite u32_small by lia. lia.
  - done.
Qed.

Lemma stored_safe m0 m d bytes out :
  inflating m0 m d bytes out -> 0 < source_end d -> source_end d - source d < 2 ^ 31 ->
  safe_block m0 d (zlen (stream d bytes)) (tinf_inflate_uncompressed_block m d).
Proof.
  intros Hi Hpos Hsz. pose proof Hi as [Hr _ _ Hd Hroom Hst He Hsz' _ _ _ _]. pose proof Hr as [_ _ Hs Hse He32 _ _ Hov].
  pose proof (zlen_nonneg bytes). pose proof (zlen_nonneg out).
  destruct (decide (zlen bytes < 4)).
  { unfold tinf_inflate_uncompressed_block. rewrite ptrdiff_small by lia. bdec. cbn. by eapply safe_block_error; eauto. }
  destruct bytes as [|b0 [|b1 [|b2 [|b3 bytes]]]]; try (unfold zlen in *; cbn in *; lia).
  destruct (skip_header _ _ _ _ _ _ _ _ _ Hi) as (H1 & H2 & B0 & B1 & Hse' & Hu & Hi1). unfold is_byte in *.
  assert (same_buffers d (set_reader d (source d + 4) (tag d) (bitcount d) (overflow d))) as Hs1 by (constructor; cbn; lia).
  pose proof (zlen_nonneg bytes).
  destruct (decide (b0 + 256 * b1 = Z.land (u32 (Z.lnot (b2 + 256 * b3))) 0xFFFF /\ b0 + 256 * b1 <= zlen bytes /\
    dest d + (b0 + 256 * b1) <= dest_end d)) as [(Hinv & Hfits & Hroom')|Hbad].
  - rewrite <- (take_drop (Z.to_nat (b0 + 256 * b1)) bytes) in Hi.
    assert (zlen (take (Z.to_nat (b0 + 256 * b1)) bytes) = b0 + 256 * b1) as Hl
      by (unfold zlen in *; rewrite length_take; lia).
    destruct (stored_block _ _ _ _ _ _ _ _ _ _ Hi) as (d' & m' & -> & Hi' & Hsb & Ho & Hst'); [done|lia|lia|lia|].
    eexists TINF_OK, d', m', _, _. split_and!; try done; [by left|]. intros _. split.
    + rewrite Ho. destruct Hov as [|[_ ?]]; done.
    + rewrite Hst', zlen_bytes_bits. unfold stream. rewrite zlen_app, zlen_low_bits, zlen_bytes_bits, !zlen_cons.
      assert (zlen (drop (Z.to_nat (b0 + 256 * b1)) bytes) <= zlen bytes) by (unfold zlen; rewrite length_drop; lia). lia.
  - unfold tinf_inflate_uncompressed_block. rewrite H1, H2, ptrdiff_small by lia. bdec. rewrite ?andb_false_r, !bind_Done.
    rewrite Hu. cbn [set_reader source source_end dest dest_end].
    destruct (b0 + 256 * b1 =? Z.land (u32 (Z.lnot (b2 + 256 * b3))) 65535) eqn:E1; cbn [negb]; b2p;
      [|eapply safe_block_error; eauto].
    rewrite !u32_small by lia.
    destruct (source_end d - (source d + 4) <? b0 + 256 * b1) eqn:E2; b2p;
      [bdec; eapply safe_block_error; eauto|rewrite ?andb_false_r].
    destruct (dest_end d - dest d <? b0 + 256 * b1) eqn:E3; b2p; [eapply safe_block_error; eauto|].
    exfalso. apply Hbad. lia.
Qed.

(** A block of any type; [n] bounds the bits it may leave. *)
Lemma block_safe fuel m0 m d bytes out btype n :
  inflating m0 m d bytes out -> 0 < source_end d -> source_end d - source d < 2 ^ 31 ->
  (0 < fuel)%nat -> overflow d = 1 \/ zlen (stream d bytes) < Z.of_nat fuel /\ zlen (stream d bytes) <= n ->
  safe_block m0 d n (inflate_block fuel m d btype).
Proof.
  intros Hi Hpos Hsz Hf Hfuel.
  assert (forall m d' bytes' lt dt, inflating m0 m d' bytes' out -> usable lt dt -> same_buffers d d' ->
    drains d bytes d' bytes' -> safe_block m0 d n (tinf_inflate_block_data fuel m d' lt dt)) as Hdata.
  { intros m' d' bytes' lt dt Hi' Hus Hs Hdr. eapply safe_block_weaken; [|exact Hs|reflexivity].
    destruct (decide (overflow d' = 1)) as [Ho|Ho]; [by eapply block_data_overflow|].
    destruct Hdr as [|[Ho' Hle]]; [done|]. destruct Hfuel as [|[? ?]]; [congruence|].
    eapply safe_block_weaken; [eapply block_data_safe; [exact Hi'|done|lia]|reflexivity|lia]. }
  unfold inflate_block. destruct (btype =? 0); [|destruct (btype =? 1); [|destruct (btype =? 2)]].
  - destruct Hfuel as [Ho|[? ?]]; [|by eapply safe_block_weaken; [eapply stored_safe; [exact Hi|..]|reflexivity|]].
    pose proof (if_reader _ _ _ _ _ Hi) as [_ _ _ Hse _ _ _ Hov]. destruct Hov as [|[_ ->]]; [congruence|].
    change (zlen []) with 0 in Hse. unfold tinf_inflate_uncompressed_block. rewrite ptrdiff_small by lia. bdec. cbn.
    eapply safe_block_error; eauto.
  - unfold tinf_inflate_fixed_block.
    destruct (build_fixed_spec (ltree d) (dtree d) (if_ltree _ _ _ _ _ Hi) (if_dtree _ _ _ _ _ Hi))
      as (lt & dt & -> & Hsl & Hsd & (lcs & Hl & _) & (dcs & Hd & _) & Hml & Hmd).
    rewrite bind_Done. eapply (Hdata m (set_trees d lt dt)); [by apply inflating_trees| |by constructor|right; done].
    split; [by eexists|]. split; [by eexists _, _|]. exists 29. split; [done|]. right. by eexists _, _.
  - unfold tinf_inflate_dynamic_block.
    destruct (decode_trees_safe m0 m d bytes out Hi) as (res & d' & bytes' & -> & Hi' & Hs & Hdr & Hres & Hus).
    rewrite bind_Done. destruct Hres as [-> | ->]; cbn [negb].
    + change (negb (TINF_OK =? TINF_OK)) with false. cbn iota. by eapply Hdata; eauto.
    + change (negb (TINF_DATA_ERROR =? TINF_OK)) with true. cbn iota. eapply safe_block_error; eauto.
  - eapply safe_block_error; eauto.
Qed.

(** The loop over the blocks. *)
Lemma blocks_safe fuel m0 m d bytes out :
  inflating m0 m d bytes out -> 0 < source_end d -> source_end d - source d < 2 ^ 31 ->
  zlen (stream d bytes) < Z.of_nat fuel - 1 ->
  exists res d' m' bytes' out', blocks_loop fuel m d = Done (res, d', m') /\ inflating m0 m' d' bytes' out' /\
    same_buffers d d' /\ (res = TINF_OK \/ res = TINF_DATA_ERROR \/ res = TINF_BUF_ERROR).
Proof.
  revert m d bytes out. induction fuel as [|fuel IH]; intros m d bytes out Hi Hpos Hsz Hf;
    pose proof (zlen_nonneg (stream d bytes)); [lia|].
  cbn [blocks_loop].
  destruct (getbits_spec m d bytes 1 (if_reader _ _ _ _ _ Hi)) as (bfinal & d1 & b1 & -> & Hr1 & Ha1 & Hv1 & Ht1); [lia|].
  rewrite bind_Done. destruct (getbits_spec m d1 b1 2 Hr1) as (btype & d2 & b2 & -> & Hr2 & Ha2 & Hv2 & Ht2); [lia|].
  rewrite bind_Done. assert (advances d d2) as Ha by (by etrans).
  pose proof (inflating_step _ _ _ _ _ _ _ Hi Hr2 Ha) as Hi2. apply advances_same_buffers in Ha as Hs2.
  assert (overflow d2 = 1 \/ zlen (stream d2 b2) < zlen (stream d bytes)) as Hm.
  { destruct (takes_length d bytes 1 bfinal d1 b1 ltac:(lia) Ht1) as [Ho1|[Ho1 ?]];
    destruct (takes_length d1 b1 2 btype d2 b2 ltac:(lia) Ht2) as [|[Ho2 ?]]; try (by left); [left; congruence|right; lia]. }
  destruct (block_safe (S fuel) m0 m d2 b2 out btype (zlen (stream d bytes)) Hi2)
    as (res & d3 & m3 & b3 & out3 & -> & Hi3 & Hs3 & Hres & Hok).
  { by rewrite (sb_end _ _ Hs2). }
  { rewrite (sb_end _ _ Hs2). pose proof (sb_source _ _ Hs2). lia. }
  { lia. }
  { destruct Hm; [by left|right; lia]. }
  assert (same_buffers d d3) as Hs by (by etrans). rewrite bind_Done.
  destruct (res =? TINF_OK) eqn:Er; cbn [negb]; b2p.
  2: { eexists _, _, _, _, _. split_and!; done. }
  destruct (Hok Er) as [Ho3 Hlt3]. destruct (bfinal =? 0); b2p.
  2: { eexists TINF_OK, _, _, _, _. split_and!; try done. by left. }
  destruct (IH m3 d3 b3 out3 Hi3) as (res' & d' & m' & bytes' & out' & Hrun & Hi' & Hs' & Hres').
  { by rewrite (sb_end _ _ Hs). }
  { rewrite (sb_end _ _ Hs). pose proof (sb_source _ _ Hs). lia. }
  { lia. }
  eexists _, _, _, _, _. split_and!; try done. by etrans.
Qed.
End blocks.

(** ** The whole stream *)

(** The two buffers of a call: [bytes] at [src], [destLen] bytes of room at
    [dst], apart and below the end of the address space. *)
Record buffers (m : mem) (dst destLen src : Z) (bytes : list Z) : Prop := {
  bf_src : bytes_at m src bytes;
  bf_bytes : are_bytes bytes;
  bf_src0 : 0 <= src;
  bf_len : zlen bytes < 2 ^ 31;
  bf_src_end : src + zlen bytes < 2 ^ 32;
  bf_dst : region m dst destLen;
  bf_dst0 : 0 <= dst;
  bf_destLen : 0 <= destLen < 2 ^ 31;
  bf_dst_end : dst + destLen < 2 ^ 32;
  bf_apart : dst + destLen <= src \/ src + zlen bytes <= dst;
}.

(** Every block takes at least three bits, and a symbol at least one. *)
Definition inflate_fuel (n : Z) : nat := Z.to_nat (8 * n + 2).

Section uncompress.
Implicit Types (m : mem) (bytes out : list Z).

Definition start_data (dst destLen src n : Z) : tinf_data :=
  Data src (src + n) 0 0 0 dst dst (dst + destLen) uninit_tree uninit_tree.

Lemma inflating_start m dst destLen src bytes :
  buffers m dst destLen src bytes -> inflating m m (start_data dst destLen src (zlen bytes)) bytes [].
Proof.
  intros []. constructor; cbn; try done; try lia.
  - constructor; cbn; try done; try lia.
  - rewrite (zlen_nil (A := Z)). lia.
  - by replace (dst + destLen - dst) with destLen by lia.
Qed.

Lemma uncompress_safe fuel m dst destLen src bytes :
  buffers m dst destLen src bytes -> 0 < zlen bytes -> (inflate_fuel (zlen bytes) <= fuel)%nat ->
  exists r out, tinf_uncompress fuel m dst destLen src (Some (zlen bytes)) = Done r /\
    u_mem r = write_bytes m dst out /\ are_bytes out /\ zlen out <= destLen /\ u_sourceLen r = Some (zlen bytes) /\
    (u_res r = TINF_OK /\ u_destLen r = zlen out \/
     (u_res r = TINF_DATA_ERROR \/ u_res r = TINF_BUF_ERROR) /\ u_destLen r = destLen).
Proof.
  intros Hb Hn Hf. pose proof Hb as [_ _ H0 Hl He _ Hd0 Hdl Hde _].
  pose proof (inflating_start _ _ _ _ _ Hb) as Hi. unfold inflate_fuel in Hf.
  unfold tinf_uncompress. bdec. rewrite !u32_small by lia. fold (start_data dst destLen src (zlen bytes)).
  destruct (blocks_safe fuel m m _ bytes [] Hi) as (res & d & m' & bytes' & out & -> & Hi' & Hs & Hres).
  { cbn. lia. }
  { cbn. lia. }
  { change (stream _ bytes) with (bytes_bits bytes). rewrite zlen_bytes_bits. lia. }
  rewrite bind_Done. pose proof Hi' as [_ Hm Ho Hd Hroom _ _ _ _ _ _ _]. destruct Hs as [_ _ Hst Hend].
  cbn in Hst, Hend. rewrite Hst in *. rewrite Hend in *. pose proof (zlen_nonneg out).
  destruct (res =? TINF_OK) eqn:E; cbn [negb]; b2p.
  2: { exists (Uncompressed res destLen (Some (zlen bytes)) m'), out. cbn.
       split_and!; try done; [lia|]. right. split; [|done]. tauto. }
  destruct (negb (overflow d =? 0)).
  { eexists _, out. split; [reflexivity|]. cbn. split_and!; try done; [lia|]. right. auto. }
  destruct (negb (zlen bytes =? _)); eexists _, out; (split; [reflexivity|]); cbn; split_and!; try done; try lia.
  left. split; [done|]. rewrite u32_small; lia.
Qed.
End uncompress.
