(* ===== verification/InflateUnsized.v ===== *)
(** * Decompression without a known source length

    With [*sourceLen] zero [tinf_uncompress] sets [source_end] to null and
    reads until the final block.  A run whose reader stays inside a source of
    known length is step for step the run without it: [tracks] is closed under
    the way the functions of tinflate.c are composed. *)
From S2P Require Import Prelude Machine Inflate.

Definition unbound (d : tinf_data) : tinf_data :=
  Data (source d) 0 (tag d) (bitcount d) (overflow d) (dest_start d) (dest d) (dest_end d) (ltree d) (dtree d).

Definition bounded (d : tinf_data) : Prop := 0 < source d <= source_end d /\ source_end d < 2 ^ 32.

(** The function keeps the reader inside the source, and without overflow it
    does the same when the end is not known. *)
Definition tracks {A} (f : tinf_data -> outcome (A * tinf_data)) : Prop :=
  forall d x d', bounded d -> f d = Done (x, d') ->
    bounded d' /\ (overflow d' = 0 -> overflow d = 0 /\ f (unbound d) = Done (x, unbound d')).

(** The same for functions that also write. *)
Definition tracks_mem {A} (f : tinf_data -> outcome (A * tinf_data * mem)) : Prop :=
  forall d x d' m', bounded d -> f d = Done (x, d', m') ->
    bounded d' /\ (overflow d' = 0 -> overflow d = 0 /\ f (unbound d) = Done (x, unbound d', m')).

(** A change of state that the end of the source plays no part in. *)
Definition neutral (f : tinf_data -> tinf_data) : Prop :=
  forall d, source (f d) = source d /\ source_end (f d) = source_end d /\ overflow (f d) = overflow d /\
    f (unbound d) = unbound (f d).

Section combinators.
Context {A B : Type}.

Lemma tracks_ret (x : A) : tracks (fun d => Done (x, d)).
Proof. intros d y d' Hb [= -> ->]. done. Qed.

Lemma tracks_bind (f : tinf_data -> outcome (A * tinf_data)) (g : A -> tinf_data -> outcome (B * tinf_data)) :
  tracks f -> (forall x, tracks (g x)) -> tracks (fun d => '(x, d) ← f d; g x d).
Proof.
  intros Hf Hg d y d' Hb Hrun. inv_bind Hrun. destruct a as [x d1].
  destruct (Hf _ _ _ Hb Hrun0) as [Hb1 Hs1]. destruct (Hg x _ _ _ Hb1 Hrun) as [Hb' Hs].
  split; [done|]. intros Ho. destruct (Hs Ho) as [Ho1 Hg1]. destruct (Hs1 Ho1) as [Ho0 ->]. done.
Qed.

Lemma tracks_bind_mem (f : tinf_data -> outcome (A * tinf_data)) (g : A -> tinf_data -> outcome (B * tinf_data * mem)) :
  tracks f -> (forall x, tracks_mem (g x)) -> tracks_mem (fun d => '(x, d) ← f d; g x d).
Proof.
  intros Hf Hg d y d' m' Hb Hrun. inv_bind Hrun. destruct a as [x d1].
  destruct (Hf _ _ _ Hb Hrun0) as [Hb1 Hs1]. destruct (Hg x _ _ _ _ Hb1 Hrun) as [Hb' Hs].
  split; [done|]. intros Ho. destruct (Hs Ho) as [Ho1 Hg1]. destruct (Hs1 Ho1) as [Ho0 ->]. done.
Qed.

(** A value that does not depend on the end of the source. *)
Lemma tracks_pure (o : tinf_data -> outcome A) (g : A -> tinf_data -> outcome (B * tinf_data)) :
  (forall d, o (unbound d) = o d) -> (forall x, tracks (g x)) -> tracks (fun d => x ← o d; g x d).
Proof.
  intros Ho Hg d y d' Hb Hrun. rewrite Ho. inv_bind Hrun. rewrite Hrun0. by apply Hg.
Qed.

Lemma tracks_pure_mem (o : tinf_data -> outcome A) (g : A -> tinf_data -> outcome (B * tinf_data * mem)) :
  (forall d, o (unbound d) = o d) -> (forall x, tracks_mem (g x)) -> tracks_mem (fun d => x ← o d; g x d).
Proof.
  intros Ho Hg d y d' m' Hb Hrun. rewrite Ho. inv_bind Hrun. rewrite Hrun0. by apply Hg.
Qed.

Lemma tracks_if (c : tinf_data -> bool) (f g : tinf_data -> outcome (A * tinf_data)) :
  (forall d, c (unbound d) = c d) -> tracks f -> tracks g -> tracks (fun d => if c d then f d else g d).
Proof. intros Hc Hf Hg d y d' Hb Hrun. rewrite Hc. destruct (c d); [by apply Hf|by apply Hg]. Qed.

Lemma tracks_if_mem (c : tinf_data -> bool) (f g : tinf_data -> outcome (A * tinf_data * mem)) :
  (forall d, c (unbound d) = c d) -> tracks_mem f -> tracks_mem g -> tracks_mem (fun d => if c d then f d else g d).
Proof. intros Hc Hf Hg d y d' m' Hb Hrun. rewrite Hc. destruct (c d); [by apply Hf|by apply Hg]. Qed.

Lemma tracks_mem_ret (x : A) m : tracks_mem (fun d => Done (x, d, m)).
Proof. intros d y d' m' Hb [= -> -> ->]. done. Qed.

Lemma tracks_neutral (h : tinf_data -> tinf_data) (f : tinf_data -> outcome (A * tinf_data)) :
  neutral h -> tracks f -> tracks (fun d => f (h d)).
Proof.
  intros Hh Hf d y d' Hb Hrun. destruct (Hh d) as (Hs & He & Ho & Hu). rewrite Hu, <- Ho. apply Hf; [|done].
  unfold bounded. by rewrite Hs, He.
Qed.

Lemma tracks_neutral_mem (h : tinf_data -> tinf_data) (f : tinf_data -> outcome (A * tinf_data * mem)) :
  neutral h -> tracks_mem f -> tracks_mem (fun d => f (h d)).
Proof.
  intros Hh Hf d y d' m' Hb Hrun. destruct (Hh d) as (Hs & He & Ho & Hu). rewrite Hu, <- Ho. apply Hf; [|done].
  unfold bounded. by rewrite Hs, He.
Qed.
End combinators.

Ltac neutral_step := intros d; by destruct d.

Section functions.
Implicit Types (m : mem) (d : tinf_data).

Lemma refill_tracks fuel m num d d' :
  bounded d -> refill_loop fuel m d num = Done d' ->
  bounded d' /\ (overflow d' = 0 -> overflow d = 0 /\ refill_loop fuel m (unbound d) num = Done (unbound d')).
Proof.
  revert d. induction fuel as [|fuel IH]; intros d Hb Hrun; [done|]. cbn [refill_loop] in *.
  change (bitcount (unbound d)) with (bitcount d). destruct (bitcount d <? num).
  2: { injection Hrun as <-. done. }
  destruct Hb as [[H0 Hle] H32]. destruct (source d =? source_end d) eqn:E; cbn [negb] in Hrun; b2p.
  - rewrite bind_Done in Hrun. apply IH in Hrun as [Hb' Hs]; [|split; [cbn; lia|done]]. split; [done|].
    intros Ho. by destruct (Hs Ho) as [? _].
  - inv_bind Hrun. inv_bind Hrun0. injection Hrun0 as <-.
    apply IH in Hrun as [Hb' Hs]; [|split; cbn; rewrite ?u32_small; lia]. split; [done|].
    intros Ho. destruct (Hs Ho) as [Ho0 Hrun]. split; [done|].
    change (source (unbound d)) with (source d). change (source_end (unbound d)) with 0. bdec.
    rewrite Hrun1, !bind_Done. exact Hrun.
Qed.

Lemma getbits_tracks m num : tracks (fun d => tinf_getbits m d num).
Proof.
  intros d x d' Hb Hrun. unfold tinf_getbits, tinf_refill in *. inv_bind Hrun. inv_bind Hrun0. inv_bind Hrun0. inv_bind Hrun0.
  injection Hrun0 as <-. apply refill_tracks in Hrun2 as [Hb1 Hs]; [|done]. 
  unfold tinf_getbits_no_refill in Hrun. inv_bind Hrun. injection Hrun as <- <-. split; [exact Hb1|].
  intros Ho. destruct (Hs Ho) as [Ho0 Hr]. split; [done|]. rewrite Hrun1, bind_Done, Hr, bind_Done.
  change (bitcount (unbound a1)) with (bitcount a1). rewrite Hrun3, !bind_Done.
  unfold tinf_getbits_no_refill. change (bitcount (unbound a1)) with (bitcount a1). by rewrite Hrun0, bind_Done.
Qed.

Lemma getbits_base_tracks m num base : tracks (fun d => tinf_getbits_base m d num base).
Proof.
  unfold tinf_getbits_base. apply tracks_bind; [|intros; apply tracks_ret].
  apply (tracks_if (fun _ => num =? 0)); [done|apply tracks_ret|apply getbits_tracks].
Qed.

Lemma decode_loop_tracks fuel m t len base offs :
  tracks (fun d => '(b, o, d) ← decode_loop fuel m d t len base offs; Done ((b, o), d)).
Proof.
  revert len base offs. induction fuel as [|fuel IH]; intros len base offs; [by intros d x d' _ [=]|].
  cbn [decode_loop].
  assert (tracks (fun d => '(b, d) ← tinf_getbits m d 1;
      _ ← c_assert (len <=? 15); c ← aget (counts t) len;
      if 2 * offs + b <? c then Done ((base, 2 * offs + b), d)
      else '(b', o, d) ← decode_loop fuel m d t (len + 1) (base + c) (2 * offs + b - c); Done ((b', o), d))) as Ht.
  { apply tracks_bind; [apply getbits_tracks|]. intros b.
    apply (tracks_pure (fun _ => c_assert (len <=? 15))); [done|]. intros _.
    apply (tracks_pure (fun _ => aget (counts t) len)); [done|]. intros c.
    apply (tracks_if (fun _ => 2 * offs + b <? c)); [done|apply tracks_ret|apply IH]. }
  intros d x d' Hb Hrun. specialize (Ht d x d' Hb).
  assert (forall e, ('(b, o, d) ← ('(b, d) ← tinf_getbits m e 1;
      let offs := 2 * offs + b in _ ← c_assert (len <=? 15); c ← aget (counts t) len;
      if offs <? c then Done (base, offs, d)
      else decode_loop fuel m d t (len + 1) (base + c) (offs - c)); Done ((b, o), d)) =
    ('(b, d) ← tinf_getbits m e 1;
      _ ← c_assert (len <=? 15); c ← aget (counts t) len;
      if 2 * offs + b <? c then Done ((base, 2 * offs + b), d)
      else '(b', o, d) ← decode_loop fuel m d t (len + 1) (base + c) (2 * offs + b - c); Done ((b', o), d))) as E.
  { intros e. rewrite bind_assoc. apply bind_ext. intros [b e']. cbn zeta. rewrite bind_assoc. apply bind_ext. intros _.
    rewrite bind_assoc. apply bind_ext. intros c. by case_if. }
  rewrite E in Hrun. rewrite E. by apply Ht.
Qed.

Lemma decode_symbol_tracks m t : tracks (fun d => tinf_decode_symbol m d t).
Proof.
  assert (forall d, tinf_decode_symbol m d t =
    '(p, d) ← ('(b, o, d) ← decode_loop 16 m d t 1 0 0; Done ((b, o), d));
    _ ← c_assert ((0 <=? p.1 + p.2) && (p.1 + p.2 <? 288)); s ← aget (symbols t) (p.1 + p.2); Done (s, d)) as E.
  { intros d. unfold tinf_decode_symbol. rewrite bind_assoc. apply bind_ext. by intros [[b o] e]. }
  intros d x d' Hb Hrun. rewrite E in Hrun. rewrite E. revert d x d' Hb Hrun.
  apply tracks_bind; [apply decode_loop_tracks|]. intros p.
  apply (tracks_pure (fun _ => c_assert _)); [done|]. intros _.
  apply (tracks_pure (fun _ => aget _ _)); [done|]. intros s. apply tracks_ret.
Qed.

Lemma clen_loop_tracks n m i lengths : tracks (fun d => clen_loop n m d i lengths).
Proof.
  revert i lengths. induction n as [|n IH]; intros i lengths; cbn [clen_loop]; [apply tracks_ret|].
  apply tracks_bind; [apply getbits_tracks|]. intros clen.
  apply (tracks_pure (fun _ => znth clcidx i)); [done|]. intros idx.
  apply (tracks_pure (fun _ => aset lengths idx (u8 clen))); [done|]. intros l. apply IH.
Qed.

Lemma length_run_tracks m sym num lengths : tracks (fun d => length_run m d sym num lengths).
Proof.
  unfold length_run. apply (tracks_if (fun _ => sym =? 16)); [done| |].
  - apply (tracks_if (fun _ => num =? 0)); [done|apply tracks_ret|].
    apply (tracks_pure (fun _ => aget lengths (num - 1))); [done|]. intros l.
    apply tracks_bind; [apply getbits_base_tracks|]. intros. apply tracks_ret.
  - apply (tracks_if (fun _ => sym =? 17)); [done| |].
    { apply tracks_bind; [apply getbits_base_tracks|]. intros. apply tracks_ret. }
    apply (tracks_if (fun _ => sym =? 18)); [done| |apply tracks_ret].
    apply tracks_bind; [apply getbits_base_tracks|]. intros. apply tracks_ret.
Qed.

Lemma lengths_loop_tracks fuel m t total num lengths : tracks (fun d => lengths_loop fuel m d t total num lengths).
Proof.
  revert num lengths. induction fuel as [|fuel IH]; intros num lengths; cbn [lengths_loop]; [by intros d x d' _ [=]|].
  apply (tracks_if (fun _ => num <? total)); [done| |apply tracks_ret].
  apply tracks_bind; [apply decode_symbol_tracks|]. intros sym.
  apply (tracks_pure (fun _ => of_option (max_sym t))); [done|]. intros ms.
  apply (tracks_if (fun _ => ms <? sym)); [done|apply tracks_ret|].
  apply tracks_bind; [apply length_run_tracks|]. intros [[l n]|]; [|apply tracks_ret].
  apply (tracks_if (fun _ => u32 (total - num) <? n)); [done|apply tracks_ret|].
  apply (tracks_pure (fun _ => fill_const _ _ _ _)); [done|]. intros lengths'. apply IH.
Qed.

Lemma code_length_tree_tracks m hclen : tracks (fun d => code_length_tree m d hclen).
Proof.
  unfold code_length_tree. apply (tracks_pure (fun _ => fill_const _ _ _ _)); [done|]. intros lengths0.
  apply tracks_bind; [apply clen_loop_tracks|]. intros lengths.
  apply (tracks_pure (fun d => tinf_build_tree (ltree d) lengths 0 19)); [done|]. intros [res lt].
  apply (tracks_neutral (fun d => set_trees d lt (dtree d)) (fun d =>
    if negb (res =? TINF_OK) then Done (None, d) else
    ms ← of_option (max_sym lt); if ms =? -1 then Done (None, d) else Done (Some lengths, d))); [done|].
  apply (tracks_if (fun _ => negb (res =? TINF_OK))); [done|apply tracks_ret|].
  apply (tracks_pure (fun _ => of_option (max_sym lt))); [done|]. intros ms.
  apply (tracks_if (fun _ => ms =? -1)); [done|apply tracks_ret..].
Qed.

Lemma dynamic_trees_tracks lengths hlit hdist : tracks (fun d => dynamic_trees d lengths hlit hdist).
Proof.
  unfold dynamic_trees. apply (tracks_pure (fun _ => aget lengths 256)); [done|]. intros eob.
  apply (tracks_if (fun _ => eob =? 0)); [done|apply tracks_ret|].
  apply (tracks_pure (fun d => tinf_build_tree (ltree d) lengths 0 hlit)); [done|]. intros [res lt].
  apply (tracks_neutral (fun d => set_trees d lt (dtree d)) (fun d =>
    if negb (res =? TINF_OK) then Done (res, d) else
    '(res, dt) ← tinf_build_tree (dtree d) lengths hlit hdist;
    if negb (res =? TINF_OK) then Done (res, set_trees d (ltree d) dt) else Done (TINF_OK, set_trees d (ltree d) dt)));
    [done|].
  apply (tracks_if (fun _ => negb (res =? TINF_OK))); [done|apply tracks_ret|].
  apply (tracks_pure (fun d => tinf_build_tree (dtree d) lengths hlit hdist)); [done|]. intros [res' dt].
  apply (tracks_neutral (fun d => set_trees d (ltree d) dt) (fun d =>
    if negb (res' =? TINF_OK) then Done (res', d) else Done (TINF_OK, d))); [done|].
  apply (tracks_if (fun _ => negb (res' =? TINF_OK))); [done|apply tracks_ret..].
Qed.

Lemma decode_trees_tracks m : tracks (fun d => tinf_decode_trees m d).
Proof.
  unfold tinf_decode_trees. do 3 (apply tracks_bind; [apply getbits_base_tracks|]; intros ?x).
  apply (tracks_if (fun _ => _ || _)); [done|apply tracks_ret|].
  apply tracks_bind; [apply code_length_tree_tracks|]. intros [lengths|]; [|apply tracks_ret].
  assert (forall lt, tracks (fun d => '(r, d0) ← lengths_loop (S (Z.to_nat (x + x0))) m d lt (x + x0) 0 lengths;
    match r with None => Done (TINF_DATA_ERROR, d0) | Some lengths => dynamic_trees d0 lengths x x0 end)) as Ht.
  { intros lt. apply tracks_bind; [apply lengths_loop_tracks|]. intros [l|]; [apply dynamic_trees_tracks|apply tracks_ret]. }
  intros d y d' Hb Hrun. by apply (Ht (ltree d) d y d').
Qed.

Lemma block_data_tracks fuel m lt dt : tracks_mem (fun d => tinf_inflate_block_data fuel m d lt dt).
Proof.
  revert m. induction fuel as [|fuel IH]; intros m; cbn [tinf_inflate_block_data]; [by intros d x d' m' _ [=]|].
  apply tracks_bind_mem; [apply decode_symbol_tracks|]. intros sym.
  apply (tracks_if_mem (fun d => negb (overflow d =? 0))); [done|apply tracks_mem_ret|].
  apply (tracks_if_mem (fun _ => sym <? 256)); [done| |].
  { apply (tracks_if_mem (fun d => dest d =? dest_end d)); [done|apply tracks_mem_ret|].
    apply (tracks_pure_mem (fun d => store8 m (dest d) sym)); [done|]. intros m'.
    apply (tracks_neutral_mem (fun d => set_dest d (u32 (dest d + 1))) (fun d => tinf_inflate_block_data fuel m' d lt dt)); [done|apply IH]. }
  apply (tracks_if_mem (fun _ => sym =? 256)); [done|apply tracks_mem_ret|].
  apply (tracks_pure_mem (fun _ => of_option (max_sym lt))); [done|]. intros lms.
  apply (tracks_pure_mem (fun _ => of_option (max_sym dt))); [done|]. intros dms.
  apply (tracks_if_mem (fun _ => _ || _)); [done|apply tracks_mem_ret|].
  apply (tracks_pure_mem (fun _ => znth length_bits _)); [done|]. intros lb.
  apply (tracks_pure_mem (fun _ => znth length_base _)); [done|]. intros lbase.
  apply tracks_bind_mem; [apply getbits_base_tracks|]. intros length.
  apply tracks_bind_mem; [apply decode_symbol_tracks|]. intros dist.
  apply (tracks_if_mem (fun _ => _ || _)); [done|apply tracks_mem_ret|].
  apply (tracks_pure_mem (fun _ => znth dist_bits _)); [done|]. intros db.
  apply (tracks_pure_mem (fun _ => znth dist_base _)); [done|]. intros dbase.
  apply tracks_bind_mem; [apply getbits_base_tracks|]. intros offs.
  apply (tracks_if_mem (fun d => ptrdiff (dest d) (dest_start d) <? offs)); [done|apply tracks_mem_ret|].
  apply (tracks_if_mem (fun d => ptrdiff (dest_end d) (dest d) <? length)); [done|apply tracks_mem_ret|].
  apply (tracks_pure_mem (fun d => copy_match (Z.to_nat length) m (dest d) offs)); [done|]. intros m'.
  apply (tracks_neutral_mem (fun d => set_dest d (u32 (dest d + length))) (fun d => tinf_inflate_block_data fuel m' d lt dt)); [done|apply IH].
Qed.

(** A stored block accepted with a known end lies inside the source. *)
Lemma stored_tracks m d d' m' :
  bounded d -> tinf_inflate_uncompressed_block m d = Done (TINF_OK, d', m') ->
  bounded d' /\ (overflow d' = 0 -> overflow d = 0 /\ tinf_inflate_uncompressed_block m (unbound d) = Done (TINF_OK, unbound d', m')).
Proof.
  intros [[H0 Hle] H32] Hrun. unfold tinf_inflate_uncompressed_block in *.
  replace (source_end d =? 0) with false in Hrun by (symmetry; apply Z.eqb_neq; lia). cbn [negb andb] in Hrun.
  change (source_end (unbound d)) with 0. change (source (unbound d)) with (source d). change (0 =? 0) with true. cbn [negb andb].
  destruct (ptrdiff (source_end d) (source d) <? 4) eqn:E4; [done|]. b2p.
  assert (4 <= source_end d - source d) as H4.
  { unfold ptrdiff, signed in E4. rewrite Z.mod_small in E4 by lia. revert E4. case_if; lia. }
  inv_bind Hrun. rewrite Hrun0, bind_Done. inv_bind Hrun. rewrite Hrun1, bind_Done.
  destruct (a =? Z.land (u32 (Z.lnot a0)) 65535) eqn:Einv; cbn [negb] in *; [|done].
  cbn [set_reader source source_end tag bitcount overflow dest dest_end unbound] in *. 
  replace (source_end d =? 0) with false in Hrun by (symmetry; apply Z.eqb_neq; lia). cbn [negb andb] in Hrun.
  change (0 =? 0) with true. cbn [negb andb].
  rewrite (u32_small (source d + 4)) in * by lia. rewrite (u32_small (source_end d - (source d + 4))) in Hrun by lia.
  destruct (source_end d - (source d + 4) <? a) eqn:E1; [done|]. b2p.
  destruct (u32 (dest_end d - dest d) <? a) eqn:E2; [done|].
  inv_bind Hrun. rewrite Hrun2, bind_Done. injection Hrun as <- <-. split; [|done].
  assert (0 <= a) by (subst a; apply Z.land_nonneg; right; lia).
  split; cbn [set_reader set_dest source source_end]; rewrite ?u32_small; lia.
Qed.

Lemma inflate_block_tracks fuel m btype d d' m' :
  bounded d -> inflate_block fuel m d btype = Done (TINF_OK, d', m') ->
  bounded d' /\ (overflow d' = 0 -> overflow d = 0 /\ inflate_block fuel m (unbound d) btype = Done (TINF_OK, unbound d', m')).
Proof.
  unfold inflate_block. intros Hb. destruct (btype =? 0); [by apply stored_tracks|].
  cut (tracks_mem (fun d => if btype =? 1 then tinf_inflate_fixed_block fuel m d
    else if btype =? 2 then tinf_inflate_dynamic_block fuel m d else Done (TINF_DATA_ERROR, d, m)));
    [intros Ht; by apply Ht|].
  apply (tracks_if_mem (fun _ => btype =? 1)); [done| |].
  - unfold tinf_inflate_fixed_block.
    apply (tracks_pure_mem (fun d => tinf_build_fixed_trees (ltree d) (dtree d))); [done|]. intros [lt dt].
    apply (tracks_neutral_mem (fun d => set_trees d lt dt) (fun d => tinf_inflate_block_data fuel m d lt dt)); [done|].
    apply block_data_tracks.
  - apply (tracks_if_mem (fun _ => btype =? 2)); [done| |apply tracks_mem_ret].
    unfold tinf_inflate_dynamic_block. apply tracks_bind_mem; [apply decode_trees_tracks|]. intros res.
    apply (tracks_if_mem (fun _ => negb (res =? TINF_OK))); [done|apply tracks_mem_ret|].
    intros e y e' m'' Hbe. by apply (block_data_tracks fuel m (ltree e) (dtree e) e y e' m'').
Qed.

Lemma blocks_tracks fuel m d d' m' :
  bounded d -> blocks_loop fuel m d = Done (TINF_OK, d', m') ->
  bounded d' /\ (overflow d' = 0 -> overflow d = 0 /\ blocks_loop fuel m (unbound d) = Done (TINF_OK, unbound d', m')).
Proof.
  revert m d. induction fuel as [|fuel IH]; intros m d Hb Hrun; [done|]. cbn [blocks_loop] in *.
  inv_bind Hrun. destruct a as [bfinal d1]. inv_bind Hrun. destruct a as [btype d2]. inv_bind Hrun.
  destruct a as [[res d3] m3]. destruct (res =? TINF_OK) eqn:Er; cbn [negb] in Hrun; b2p; [|congruence]. subst res.
  destruct (getbits_tracks m 1 _ _ _ Hb Hrun0) as [Hb1 Hs1]. destruct (getbits_tracks m 2 _ _ _ Hb1 Hrun1) as [Hb2 Hs2].
  destruct (inflate_block_tracks _ _ _ _ _ _ Hb2 Hrun2) as [Hb3 Hs3].
  assert (bounded d' /\ (overflow d' = 0 -> overflow d3 = 0 /\
    (if bfinal =? 0 then blocks_loop fuel m3 (unbound d3) else Done (TINF_OK, unbound d3, m3)) = Done (TINF_OK, unbound d', m'))) as [Hb' Hs'].
  { destruct (bfinal =? 0); [by apply IH|]. injection Hrun as <- <-. done. }
  split; [done|]. intros Ho. destruct (Hs' Ho) as [Ho3 Hr']. destruct (Hs3 Ho3) as [Ho2 Hr3]. destruct (Hs2 Ho2) as [Ho1 Hr2].
  destruct (Hs1 Ho1) as [Ho0 Hr1]. split; [done|]. rewrite Hr1, bind_Done, Hr2, bind_Done, Hr3, bind_Done. exact Hr'.
Qed.
End functions.

(** A stream that is decompressed with its length is decompressed to the same
    data without it, and the length is reported. *)
Lemma uncompress_unsized fuel m dst destLen src n r :
  0 < src -> 0 < n -> src + n < 2 ^ 32 ->
  tinf_uncompress fuel m dst destLen src (Some n) = Done r -> u_res r = TINF_OK ->
  tinf_uncompress fuel m dst destLen src (Some 0) = Done (Uncompressed TINF_OK (u_destLen r) (Some n) (u_mem r)).
Proof.
  intros Hsrc Hn H32 Hrun Hok. unfold tinf_uncompress in *. bdec. revert Hrun. bdec. intros Hrun.
  rewrite (u32_small (src + n)) in Hrun by lia. inv_bind Hrun. destruct a as [[res d] m'].
  destruct (res =? TINF_OK) eqn:Er; cbn [negb] in Hrun; b2p; [|injection Hrun as <-; cbn in Hok; congruence]. subst res.
  destruct (overflow d =? 0) eqn:Eo; cbn [negb] in Hrun; b2p; [|injection Hrun as <-; done].
  apply blocks_tracks in Hrun0 as [_ Hs]; [|split; cbn; lia]. destruct (Hs Eo) as [_ Hr].
  change (unbound _) with (Data src 0 0 0 0 dst dst (u32 (dst + destLen)) uninit_tree uninit_tree) in Hr at 1.
  rewrite Hr, bind_Done. change (negb (TINF_OK =? TINF_OK)) with false. change (overflow (unbound d)) with (overflow d).
  rewrite Eo. change (negb (0 =? 0)) with false. cbn iota.
  destruct (n =? u32 (source d - src)) eqn:En; cbn [negb] in Hrun; b2p; [|injection Hrun as <-; done].
  injection Hrun as <-. cbn [u_destLen u_mem]. by rewrite En.
Qed.
