(* ===== verification/Deflate.v ===== *)
(** * RFC 1951 and the decompressor

    A DEFLATE stream is described by what it is made of: blocks of stored
    bytes, or of literals and matches under the fixed or under transmitted
    codes.  [encode_blocks] writes any such description as the bits of RFC
    1951, with every choice the format leaves to the compressor, and
    [expand_blocks] is the data it stands for.  The theorems show that
    tinflate.c turns the bits of every description back into its data. *)
From S2P Require Import Prelude Machine Inflate InflateBits Huffman InflateSafe InflateUnsized.

(** ** Literals and matches (RFC 1951, 3.2.5) *)

(** A match is given by its length code (0 to 28, the symbol less 257) and its
    distance code, each with the value of its extra bits. *)
Inductive token :=
| Literal (b : Z)
| Match (lcode lextra dcode dextra : Z).

Definition extra_bits (table : list Z) (code : Z) : Z := nth (Z.to_nat code) table 0.
Definition base_value (table : list Z) (code : Z) : Z := nth (Z.to_nat code) table 0.

Definition match_length (lcode lextra : Z) : Z := base_value length_base lcode + lextra.
Definition match_dist (dcode dextra : Z) : Z := base_value dist_base dcode + dextra.

Definition has_code (ls : list Z) (s : Z) : bool := (s <? zlen ls) && negb (length_of ls s =? 0).

(** The token can be written with the codes [ll] and [dl] behind [n] bytes of
    output. *)
Definition token_ok (ll dl : list Z) (n : Z) (t : token) : bool :=
  match t with
  | Literal b => (0 <=? b) && (b <? 256) && has_code ll b
  | Match lc le dc de =>
      (0 <=? lc) && (lc <? 29) && has_code ll (257 + lc) && (0 <=? le) && (le <? 2 ^ extra_bits length_bits lc) &&
      (0 <=? dc) && (dc <? 30) && has_code dl dc && (0 <=? de) && (de <? 2 ^ extra_bits dist_bits dc) &&
      (match_dist dc de <=? n)
  end.

Definition encode_token (ll dl : list Z) (t : token) : list bool :=
  match t with
  | Literal b => codeword ll b
  | Match lc le dc de =>
      codeword ll (257 + lc) ++ low_bits (Z.to_nat (extra_bits length_bits lc)) le ++
      codeword dl dc ++ low_bits (Z.to_nat (extra_bits dist_bits dc)) de
  end.

Definition expand_token (out : list Z) (t : token) : list Z :=
  match t with
  | Literal b => out ++ [b]
  | Match lc le dc de => lz_copy (Z.to_nat (match_length lc le)) (match_dist dc de) out
  end.

Definition expand_tokens : list Z -> list token -> list Z := foldl expand_token.

Fixpoint tokens_ok (ll dl : list Z) (out : list Z) (ts : list token) : bool :=
  match ts with
  | [] => has_code ll 256
  | t :: ts' => token_ok ll dl (zlen out) t && tokens_ok ll dl (expand_token out t) ts'
  end.

(** The tokens of a block and the end-of-block code. *)
Definition encode_tokens (ll dl : list Z) (ts : list token) : list bool :=
  concat (map (encode_token ll dl) ts) ++ codeword ll 256.

(** ** Transmitted codes (RFC 1951, 3.2.7) *)

(** The code lengths are run-length coded. *)
Inductive run :=
| Len (l : Z)
| Repeat (extra : Z)
| Zeros3 (extra : Z)
| Zeros11 (extra : Z).

Definition run_symbol (r : run) : Z :=
  match r with Len l => l | Repeat _ => 16 | Zeros3 _ => 17 | Zeros11 _ => 18 end.

Definition run_extra (r : run) : list bool :=
  match r with
  | Len _ => []
  | Repeat e => low_bits 2 e
  | Zeros3 e => low_bits 3 e
  | Zeros11 e => low_bits 7 e
  end.

Definition run_ok (cl : list Z) (r : run) : bool :=
  has_code cl (run_symbol r) &&
  match r with
  | Len l => (0 <=? l) && (l <? 16)
  | Repeat e => (0 <=? e) && (e <? 4)
  | Zeros3 e => (0 <=? e) && (e <? 8)
  | Zeros11 e => (0 <=? e) && (e <? 128)
  end.

Definition encode_run (cl : list Z) (r : run) : list bool := codeword cl (run_symbol r) ++ run_extra r.

(** A repetition needs a length to repeat. *)
Definition expand_run (ls : list Z) (r : run) : option (list Z) :=
  match r with
  | Len l => Some (ls ++ [l])
  | Repeat e => if zlen ls =? 0 then None
                else Some (ls ++ replicate (Z.to_nat (3 + e)) (nth (length ls - 1) ls 0))
  | Zeros3 e => Some (ls ++ replicate (Z.to_nat (3 + e)) 0)
  | Zeros11 e => Some (ls ++ replicate (Z.to_nat (11 + e)) 0)
  end.

Fixpoint expand_runs (ls : list Z) (rs : list run) : option (list Z) :=
  match rs with
  | [] => Some ls
  | r :: rs' => ls' ← expand_run ls r; expand_runs ls' rs'
  end.

Record header := Header {
  h_clens : list Z;
  h_runs : list run;
  h_ll : list Z;
  h_dl : list Z;
}.

(** The code length code of a header. *)
Definition h_cl (h : header) : list Z := place 0 (h_clens h) (replicate 19 0).

Definition header_ok (h : header) : bool :=
  (4 <=? zlen (h_clens h)) && (zlen (h_clens h) <=? 19) &&
  forallb (fun v => (0 <=? v) && (v <? 8)) (h_clens h) &&
  code_ok (h_cl h) && negb (words (h_cl h) =? 0) &&
  forallb (run_ok (h_cl h)) (h_runs h) &&
  bool_decide (expand_runs [] (h_runs h) = Some (h_ll h ++ h_dl h)) &&
  (257 <=? zlen (h_ll h)) && (zlen (h_ll h) <=? 286) && (1 <=? zlen (h_dl h)) && (zlen (h_dl h) <=? 30) &&
  negb (length_of (h_ll h) 256 =? 0) && code_ok (h_ll h) && code_ok (h_dl h).

Definition encode_header (h : header) : list bool :=
  low_bits 5 (zlen (h_ll h) - 257) ++ low_bits 5 (zlen (h_dl h) - 1) ++ low_bits 4 (zlen (h_clens h) - 4) ++
  concat (map (low_bits 3) (h_clens h)) ++ concat (map (encode_run (h_cl h)) (h_runs h)).

(** ** Blocks (RFC 1951, 3.2.3) *)

(** A stored block carries the bits up to the next byte boundary, which are
    ignored. *)
Inductive block :=
| Stored (pad : list bool) (data : list Z)
| Fixed (ts : list token)
| Dynamic (h : header) (ts : list token).

Definition block_type (b : block) : Z :=
  match b with Stored _ _ => 0 | Fixed _ => 1 | Dynamic _ _ => 2 end.

Definition encode_body (b : block) : list bool :=
  match b with
  | Stored pad data => pad ++ low_bits 16 (zlen data) ++ low_bits 16 (65535 - zlen data) ++ bytes_bits data
  | Fixed ts => encode_tokens fixed_ll fixed_dl ts
  | Dynamic h ts => encode_header h ++ encode_tokens (h_ll h) (h_dl h) ts
  end.

(** The block behind its final-block bit. *)
Definition encode_block (b : block) : list bool := low_bits 2 (block_type b) ++ encode_body b.

Definition expand_block (out : list Z) (b : block) : list Z :=
  match b with
  | Stored _ data => out ++ data
  | Fixed ts | Dynamic _ ts => expand_tokens out ts
  end.

(** [pos] is the bit position of the block, its final-block bit included. *)
Definition block_ok (pos : Z) (out : list Z) (b : block) : bool :=
  match b with
  | Stored pad data =>
      (zlen pad <? 8) && ((pos + 3 + zlen pad) mod 8 =? 0) && (zlen data <? 65536) &&
      forallb (fun x => (0 <=? x) && (x <? 256)) data
  | Fixed ts => tokens_ok fixed_ll fixed_dl out ts
  | Dynamic h ts => header_ok h && tokens_ok (h_ll h) (h_dl h) out ts
  end.

Definition expand_blocks : list Z -> list block -> list Z := foldl expand_block.

(** The blocks [b :: bs], the last of which is marked as final. *)
Fixpoint encode_blocks (b : block) (bs : list block) : list bool :=
  match bs with
  | [] => true :: encode_block b
  | b' :: bs' => (false :: encode_block b) ++ encode_blocks b' bs'
  end.

Fixpoint blocks_ok (pos : Z) (out : list Z) (b : block) (bs : list block) : bool :=
  block_ok pos out b &&
  match bs with
  | [] => true
  | b' :: bs' => blocks_ok (pos + 1 + zlen (encode_block b)) (expand_block out b) b' bs'
  end.

(** ** Decoding the tokens of a block *)

(** The largest symbol the tree admits is no smaller than those in use. *)
Definition admits (t : tinf_tree) (ls : list Z) (bound : Z) : Prop :=
  exists ms, max_sym t = Some ms /\
    forall s, 0 <= s <= bound -> has_code ls s = true -> s <= ms.

Definition codes_known (lt dt : tinf_tree) (ll dl : list Z) : Prop :=
  tree_of lt ll /\ admits lt ll 285 /\ (words dl <> 0 -> tree_of dt dl) /\ admits dt dl 29.

Section tokens.
Implicit Types (m : mem) (d : tinf_data) (bytes out : list Z).

Lemma has_code_spec ls s : has_code ls s = true -> s < zlen ls /\ length_of ls s <> 0.
Proof. unfold has_code. intros. by b2p. Qed.

Lemma has_code_words ls s : 0 <= s -> has_code ls s = true -> words ls <> 0.
Proof.
  intros H0 [Hs Hl]%has_code_spec Hw.
  pose proof (last_symbol_max ls 0 _ _ ltac:(lia) (length_of_lookup ls s ltac:(lia)) Hl).
  rewrite (last_symbol_none ls 0 Hw) in *. lia.
Qed.

(** Decoding the code word in front of the stream. *)
Lemma decode_codeword t ls m d bytes s rest :
  tree_of t ls -> 0 <= s -> has_code ls s = true -> reader m d bytes ->
  stream d bytes = codeword ls s ++ rest ->
  exists d' bytes', tinf_decode_symbol m d t = Done (s, d') /\ reader m d' bytes' /\ advances d d' /\
    overflow d' = overflow d /\ stream d' bytes' = rest /\ zlen rest < zlen (stream d bytes).
Proof.
  intros (cs & Hdec & Hw) H0 [Hs Hl]%has_code_spec Hr Hst. specialize (Hw s ltac:(lia) Hl).
  destruct (decode_symbol_word t cs _ Hdec m d bytes s (codeword ls s) rest Hr Hw Hst) as (d' & bytes' & ? & ? & ? & ? & ?).
  exists d', bytes'. split_and!; try done. rewrite Hst, zlen_app. destruct Hw as (l & r & Hl15 & _ & -> & _).
  assert (zlen (msb_bits l (first_code cs l + r)) = Z.of_nat l) as ->; [|lia].
  unfold zlen, msb_bits. by rewrite length_rev, low_bits_length.
Qed.

(** Reading the extra bits in front of the stream. *)
Lemma read_extra m d bytes num base v rest :
  reader m d bytes -> 0 <= num <= 24 -> 0 <= base < 2 ^ 31 -> 0 <= v < 2 ^ num ->
  stream d bytes = low_bits (Z.to_nat num) v ++ rest ->
  exists d' bytes', tinf_getbits_base m d num base = Done (base + v, d') /\ reader m d' bytes' /\ advances d d' /\
    overflow d' = overflow d /\ stream d' bytes' = rest.
Proof.
  intros Hr Hn Hb Hv Hst. destruct (getbits_base_spec m d bytes num base Hr Hn Hb) as (v' & d' & bytes' & Hrun & Hr' & Ha & Hv' & Ht).
  destruct (takes_prefix _ _ _ _ _ _ _ _ Ht Hst) as (-> & Hst' & Ho); [rewrite zlen_low_bits; lia|done|].
  rewrite bits_value_low_bits in Hrun by (rewrite Z2Nat.id; lia). eauto 8.
Qed.

Lemma read_bits m d bytes num v rest :
  reader m d bytes -> 0 <= num <= 24 -> 0 <= v < 2 ^ num ->
  stream d bytes = low_bits (Z.to_nat num) v ++ rest ->
  exists d' bytes', tinf_getbits m d num = Done (v, d') /\ reader m d' bytes' /\ advances d d' /\
    overflow d' = overflow d /\ stream d' bytes' = rest.
Proof.
  intros Hr Hn Hv Hst. destruct (getbits_spec m d bytes num Hr Hn) as (v' & d' & bytes' & Hrun & Hr' & Ha & Hv' & Ht).
  destruct (takes_prefix _ _ _ _ _ _ _ _ Ht Hst) as (-> & Hst' & Ho); [rewrite zlen_low_bits; lia|done|].
  rewrite bits_value_low_bits in Hrun by (rewrite Z2Nat.id; lia). eauto 8.
Qed.


Lemma expand_token_length out t :
  zlen out <= zlen (expand_token out t).
Proof.
  destruct t; cbn [expand_token]; [rewrite zlen_app, zlen_cons, (zlen_nil (A := Z))|rewrite lz_copy_length]; lia.
Qed.

Lemma expand_tokens_length out ts : zlen out <= zlen (expand_tokens out ts).
Proof.
  revert out. induction ts as [|t ts IH]; intros out; [done|]. pose proof (expand_token_length out t).
  specialize (IH (expand_token out t)). change (expand_tokens out (t :: ts)) with (expand_tokens (expand_token out t) ts). lia.
Qed.

Lemma table_values bits base code x y :
  znth bits code = Done x -> znth base code = Done y ->
  extra_bits bits code = x /\ base_value base code = y.
Proof.
  intros [_ Hx]%znth_Done [_ Hy]%znth_Done. unfold extra_bits, base_value.
  by rewrite (nth_lookup_Some _ _ _ _ Hx), (nth_lookup_Some _ _ _ _ Hy).
Qed.

(** One token in front of the stream: the loop goes on behind it. *)
Lemma token_step fuel m0 m d bytes out lt dt ll dl t rest :
  inflating m0 m d bytes out -> codes_known lt dt ll dl -> overflow d = 0 ->
  token_ok ll dl (zlen out) t = true -> stream d bytes = encode_token ll dl t ++ rest ->
  dest_start d + zlen (expand_token out t) <= dest_end d ->
  exists d' m' bytes', tinf_inflate_block_data (S fuel) m d lt dt = tinf_inflate_block_data fuel m' d' lt dt /\
    inflating m0 m' d' bytes' (expand_token out t) /\ same_buffers d d' /\ overflow d' = 0 /\
    stream d' bytes' = rest /\ zlen rest < zlen (stream d bytes).
Proof.
  intros Hi (Hlt & (lms & Hlms & Hladm) & Hdt & (dms & Hdms & Hdadm)) Ho Hok Hst Hroom.
  cbn [tinf_inflate_block_data]. pose proof Hi as [Hr _ _ Hd _ Hds Hde _ _ _ _ _].
  destruct t as [b|lc le dc de]; cbn [token_ok encode_token expand_token] in Hok, Hst, Hroom; b2p.
  - destruct (decode_codeword lt ll m d bytes b rest Hlt ltac:(lia) ltac:(done) Hr Hst)
      as (d1 & b1 & -> & Hr1 & Ha1 & Ho1 & Hst1 & Hlen).
    pose proof (inflating_step _ _ _ _ _ _ _ Hi Hr1 Ha1) as Hi1. rewrite zlen_app, zlen_cons, (zlen_nil (A := Z)) in Hroom.
    rewrite bind_Done, Ho1, Ho. cbn [negb]. bdec. destruct Ha1 as [? ? Ed ? ? ? ?]. rewrite Ed. 
    destruct (emit_byte m0 m d1 b1 out b Hi1) as (m' & Hrun & Hu & Hi'); [by split|lia|]. rewrite Ed in Hrun, Hu.
    replace (dest d =? dest_end d1) with false by (symmetry; apply Z.eqb_neq; lia). rewrite Hrun, bind_Done, Hu.
    rewrite Ed in Hi'. exists (set_dest d1 (dest d + 1)), m', b1.
    split; [done|]. split; [exact Hi'|]. split; [by constructor|]. split; [cbn; congruence|done].
  - cbn [expand_token]. unfold match_length, match_dist in *.
    destruct (length_tables lc) as (lb & lbase & Elb & Elbase & Hlb & Hlbase); [lia|].
    destruct (table_values _ _ _ _ _ Elb Elbase) as [Hlb' Hlbase'].
    destruct (dist_tables dc) as (db & dbase & Edb & Edbase & Hdb & Hdbase); [lia|].
    destruct (table_values _ _ _ _ _ Edb Edbase) as [Hdb' Hdbase'].
    rewrite Hlb', Hdb', Hlbase', Hdbase' in *. rewrite lz_copy_length in Hroom.
    rewrite <- !app_assoc in Hst. assert (2 ^ lb <= 2 ^ 5) by (apply Z.pow_le_mono_r; lia).
    match goal with H : has_code ll _ = true |- _ => rename H into Hcl end.
    match goal with H : has_code dl _ = true |- _ => rename H into Hcd end.
    destruct (decode_codeword lt ll m d bytes (257 + lc) _ Hlt ltac:(lia) Hcl Hr Hst)
      as (d1 & b1 & -> & Hr1 & Ha1 & Ho1 & Hst1 & Hlen).
    rewrite bind_Done, Ho1, Ho. cbn [negb]. bdec. rewrite Hlms, Hdms. cbn [of_option]. rewrite !bind_Done.
    specialize (Hladm (257 + lc) ltac:(lia) Hcl). specialize (Hdadm dc ltac:(lia) Hcd).
    replace (257 + lc - 257) with lc by lia. bdec. rewrite Elb, Elbase, !bind_Done.
    destruct (read_extra m d1 b1 lb lbase le _ Hr1 ltac:(lia) ltac:(lia) ltac:(lia) Hst1) as (d2 & b2 & -> & Hr2 & Ha2 & Ho2 & Hst2).
    rewrite bind_Done.
    destruct (decode_codeword dt dl m d2 b2 dc _ (Hdt (has_code_words dl dc ltac:(lia) Hcd)) ltac:(lia) Hcd Hr2 Hst2)
      as (d3 & b3 & -> & Hr3 & Ha3 & Ho3 & Hst3 & Hlen3).
    rewrite bind_Done. bdec. rewrite Edb, Edbase, !bind_Done.
    destruct (read_extra m d3 b3 db dbase de _ Hr3 ltac:(lia) ltac:(lia) ltac:(lia) Hst3) as (d4 & b4 & -> & Hr4 & Ha4 & Ho4 & Hst4).
    rewrite bind_Done. assert (advances d d4) as Ha by (etrans; [exact Ha1|]; etrans; [exact Ha2|]; by etrans).
    pose proof (inflating_step _ _ _ _ _ _ _ Hi Hr4 Ha) as Hi4. pose proof Hi4 as [_ _ _ Hd4 Hroom4 Hst4' He4 Hsz4 _ _ _ _].
    destruct Ha as [? ? Ed Es Ee ? ?]. pose proof (zlen_nonneg out).
    rewrite !ptrdiff_small by lia. bdec.
    destruct (emit_match (Z.to_nat (lbase + le)) m0 m d4 b4 out (dbase + de) Hi4) as (m' & -> & Hi'); [lia..|].
    rewrite Z2Nat.id in Hi' by lia. rewrite bind_Done, u32_small by lia.
    eexists _, m', b4. split; [reflexivity|]. split; [exact Hi'|]. split; [by constructor|]. split; [cbn; congruence|].
    split; [done|].
    rewrite !zlen_app, !zlen_low_bits in Hlen. pose proof (zlen_nonneg (codeword dl dc)). lia.
Qed.

(** The tokens of a block in front of the stream are expanded. *)
Lemma block_data_tokens fuel m0 m d bytes out lt dt ll dl ts rest :
  inflating m0 m d bytes out -> codes_known lt dt ll dl -> overflow d = 0 ->
  tokens_ok ll dl out ts = true -> stream d bytes = encode_tokens ll dl ts ++ rest ->
  dest_start d + zlen (expand_tokens out ts) <= dest_end d -> zlen (stream d bytes) < Z.of_nat fuel ->
  exists d' m' bytes', tinf_inflate_block_data fuel m d lt dt = Done (TINF_OK, d', m') /\
    inflating m0 m' d' bytes' (expand_tokens out ts) /\ same_buffers d d' /\ overflow d' = 0 /\ stream d' bytes' = rest.
Proof.
  intros Hi Hcodes. revert fuel m d bytes out Hi.
  induction ts as [|t ts IH]; intros fuel m d bytes out Hi Ho Hok Hst Hroom Hf;
    pose proof (zlen_nonneg (stream d bytes)); (destruct fuel as [|fuel]; [lia|]); cbn [tokens_ok] in Hok.
  - cbn [tinf_inflate_block_data]. destruct Hcodes as (Hlt & _).
    destruct (decode_codeword lt ll m d bytes 256 rest Hlt ltac:(lia) Hok (if_reader _ _ _ _ _ Hi) Hst)
      as (d1 & b1 & -> & Hr1 & Ha1 & Ho1 & Hst1 & _).
    rewrite bind_Done, Ho1, Ho. cbn. eexists d1, m, b1. split; [done|].
    split; [by eapply inflating_step|]. split; [by apply advances_same_buffers|]. split; [congruence|done].
  - apply andb_true_iff in Hok as [Hok Hoks]. unfold encode_tokens in Hst. cbn [map concat] in Hst. rewrite <- !app_assoc in Hst.
    pose proof (expand_tokens_length (expand_token out t) ts) as Hgrow.
    change (expand_tokens out (t :: ts)) with (expand_tokens (expand_token out t) ts) in *.
    destruct (token_step fuel m0 m d bytes out lt dt ll dl t _ Hi Hcodes Ho Hok Hst) as (d1 & m1 & b1 & -> & Hi1 & Hs1 & Ho1 & Hst1 & Hlen);
      [lia|].
    destruct (IH fuel m1 d1 b1 (expand_token out t) Hi1 Ho1 Hoks) as (d' & m' & bytes' & Hrun & Hi' & Hs' & Ho' & Hst').
    + rewrite Hst1. unfold encode_tokens. by rewrite <- app_assoc.
    + destruct Hs1 as [_ _ -> ->]. done.
    + rewrite Hst1. lia.
    + exists d', m', bytes'. split; [done|]. split; [done|]. split; [by etrans|done].
Qed.
End tokens.

(** ** Decoding transmitted codes *)
Section headers.
Implicit Types (m : mem) (d : tinf_data) (bytes out ls : list Z).

Lemma expand_run_length ls r ls' : expand_run ls r = Some ls' -> zlen ls < zlen ls' \/ exists e, e < 0 /\ (r = Repeat e \/ r = Zeros3 e \/ r = Zeros11 e).
Proof.
  destruct r as [l|e|e|e]; cbn; [|destruct (zlen ls =? 0); [done|]| |]; intros [= <-]; rewrite zlen_app.
  - left. rewrite zlen_cons, (zlen_nil (A := Z)). lia.
  - destruct (decide (e < 0)); [right; eauto|left; rewrite zlen_replicate; lia].
  - destruct (decide (e < 0)); [right; eauto|left; rewrite zlen_replicate; lia].
  - destruct (decide (e < 0)); [right; eauto|left; rewrite zlen_replicate; lia].
Qed.

(** One run of the header in front of the stream. *)
Lemma run_step m d bytes t cl ms r ls ls' arr rest :
  reader m d bytes -> tree_of t cl -> max_sym t = Some ms ->
  (forall s, 0 <= s -> has_code cl s = true -> s <= ms) -> run_ok cl r = true -> expand_run ls r = Some ls' ->
  known arr ls -> lengths_ok ls -> stream d bytes = encode_run cl r ++ rest ->
  exists l n d1 bytes1 d' bytes', tinf_decode_symbol m d t = Done (run_symbol r, d1) /\ reader m d1 bytes1 /\
    length_run m d1 (run_symbol r) (zlen ls) arr = Done (Some (l, n), d') /\ reader m d' bytes' /\ advances d d' /\
    overflow d' = overflow d /\ stream d' bytes' = rest /\ run_symbol r <= ms /\
    ls' = ls ++ replicate (Z.to_nat n) l /\ 1 <= n <= 138 /\ 0 <= l <= 15.
Proof.
  intros Hr Ht Hms Hadm Hok Hex Hk Hls Hst. unfold run_ok in Hok. apply andb_true_iff in Hok as [Hc Hok].
  unfold encode_run in Hst. rewrite <- app_assoc in Hst.
  assert (0 <= run_symbol r) as Hsym by (destruct r; cbn in *; b2p; lia).
  destruct (decode_codeword t cl m d bytes _ _ Ht Hsym Hc Hr Hst) as (d1 & b1 & Hrun1 & Hr1 & Ha1 & Ho1 & Hst1 & _).
  pose proof (Hadm _ Hsym Hc) as Hle. clear Hadm Hst Hc.
  assert (forall num base e l, 0 <= num <= 7 -> 3 <= base <= 11 -> 0 <= e < 2 ^ num -> 2 ^ num <= 128 -> 0 <= l <= 15 ->
    stream d1 b1 = low_bits (Z.to_nat num) e ++ rest ->
    exists d' bytes', ('(n, d) ← tinf_getbits_base m d1 num base; Done (Some (l, n), d)) = Done (Some (l, base + e), d') /\
      reader m d' bytes' /\ advances d d' /\ overflow d' = overflow d /\ stream d' bytes' = rest) as Hread.
  { intros num base e l Hn Hb He Hp Hl Hst. 
    destruct (read_extra m d1 b1 num base e rest Hr1 ltac:(lia) ltac:(lia) He Hst) as (d' & bytes' & -> & ? & ? & ? & ?).
    exists d', bytes'. split; [done|]. split; [done|]. split; [by etrans|]. split; [congruence|done]. }
  destruct r as [l|e|e|e]; cbn [run_symbol run_extra expand_run] in *; b2p.
  - injection Hex as <-. exists l, 1, d1, b1, d1, b1. unfold length_run. bdec.
    split_and!; try done; lia.
  - destruct (zlen ls =? 0) eqn:E0; [done|]. injection Hex as <-. unfold length_run. bdec. rewrite ?E0.
    pose proof (zlen_nonneg ls). b2p.
    destruct (lookup_lt_is_Some_2 ls (length ls - 1)) as [l Hl]; [unfold zlen in *; lia|].
    rewrite (nth_lookup_Some _ _ _ _ Hl).
    assert (aget arr (zlen ls - 1) = Done l) as Hget.
    { pose proof (known_slice arr ls 0 [] Hk eq_refl _ _ Hl) as Hs. by replace (zlen ls - 1) with (0 + Z.of_nat (length ls - 1)) by (unfold zlen in *; lia). }
    pose proof (proj1 (Forall_lookup _ _) Hls _ _ Hl) as Hl15. cbn in Hl15.
    destruct (Hread 2 3 e l) as (d' & bytes' & Hrun & ? & ? & ? & ?); [(done || lia)..|].
    exists l, (3 + e), d1, b1, d', bytes'. rewrite Hget, bind_Done. split_and!; try done; lia.
  - injection Hex as <-. unfold length_run. bdec.
    destruct (Hread 3 3 e 0) as (d' & bytes' & Hrun & ? & ? & ? & ?); [(done || lia)..|].
    exists 0, (3 + e), d1, b1, d', bytes'. split_and!; try done; lia.
  - injection Hex as <-. unfold length_run. bdec.
    destruct (Hread 7 11 e 0) as (d' & bytes' & Hrun & ? & ? & ? & ?); [(done || lia)..|].
    exists 0, (11 + e), d1, b1, d', bytes'. split_and!; try done; lia.
Qed.

Lemma expand_runs_length rs cl ls ls' :
  forallb (run_ok cl) rs = true -> expand_runs ls rs = Some ls' -> zlen ls + zlen rs <= zlen ls'.
Proof.
  revert ls. induction rs as [|r rs IH]; intros ls Hok Hex; cbn [expand_runs forallb] in *.
  - injection Hex as <-. change (zlen (@nil run)) with 0. lia.
  - destruct (expand_run ls r) as [ls1|] eqn:E; [|done]. cbn in Hex. b2p. rewrite zlen_cons.
    match goal with H : forallb _ _ = true |- _ => pose proof (IH _ H Hex) end.
    destruct (expand_run_length _ _ _ E) as [|(e & He & Hr)]; [lia|]. unfold run_ok in *. b2p.
    destruct Hr as [-> | [-> | ->]]; b2p; lia.
Qed.

Lemma lengths_loop_runs fuel m d bytes t cl ms rs ls final arr rest :
  reader m d bytes -> tree_of t cl -> max_sym t = Some ms ->
  (forall s, 0 <= s -> has_code cl s = true -> s <= ms) -> forallb (run_ok cl) rs = true ->
  expand_runs ls rs = Some final -> known arr ls -> lengths_ok ls -> zlen final <= 320 ->
  stream d bytes = concat (map (encode_run cl) rs) ++ rest -> zlen final - zlen ls < Z.of_nat fuel ->
  exists arr' d' bytes', lengths_loop fuel m d t (zlen final) (zlen ls) arr = Done (Some arr', d') /\ reader m d' bytes' /\
    advances d d' /\ overflow d' = overflow d /\ stream d' bytes' = rest /\ known arr' final /\ lengths_ok final.
Proof.
  intros Hr Ht Hms Hadm. revert fuel d bytes ls arr Hr.
  induction rs as [|r rs IH]; intros fuel d bytes ls arr Hr Hok Hex Hk Hls Hfin Hst Hf;
    pose proof (expand_runs_length _ _ _ _ Hok Hex) as Hgrow; pose proof (zlen_nonneg ls);
    (destruct fuel as [|fuel]; [unfold zlen in *; lia|]); cbn [lengths_loop].
  - cbn in Hex. injection Hex as <-. bdec. exists arr, d, bytes. split_and!; done.
  - cbn [expand_runs forallb map concat] in *. destruct (expand_run ls r) as [ls1|] eqn:E; [|done]. cbn in Hex.
    apply andb_true_iff in Hok as [Hok Hoks]. rewrite <- app_assoc in Hst.
    destruct (run_step m d bytes t cl ms r ls ls1 arr _ Hr Ht Hms Hadm Hok E Hk Hls Hst)
      as (l & n & d1 & b1 & d2 & b2 & Hsym & Hr1 & Hrun & Hr2 & Ha2 & Ho2 & Hst2 & Hle & -> & Hn & Hl).
    pose proof (expand_runs_length _ _ _ _ Hoks Hex) as Hgrow2. rewrite zlen_app, zlen_replicate in Hgrow2.
    pose proof (zlen_nonneg rs). bdec. rewrite Hsym, bind_Done, Hms. cbn [of_option]. rewrite bind_Done. bdec.
    rewrite Hrun, bind_Done, u32_small by lia. bdec. rewrite (wrap_small 8) by lia.
    destruct (known_fill arr ls (Z.to_nat n) l Hk) as (arr' & -> & Hk'); [lia|]. rewrite bind_Done.
    assert (zlen ls + n = zlen (ls ++ replicate (Z.to_nat n) l)) as En by (rewrite zlen_app, zlen_replicate; lia).
    rewrite En. destruct (IH fuel d2 b2 _ arr' Hr2 Hoks Hex Hk') as (arr2 & d' & bytes' & Hrun' & Hr' & Ha' & Ho' & Hst' & Hk2 & Hfok).
    + apply Forall_app_2; [done|]. apply Forall_replicate. done.
    + done.
    + done.
    + rewrite <- En. lia.
    + exists arr2, d', bytes'. split; [exact Hrun'|]. split; [done|]. split; [by etrans|]. split; [congruence|done].
Qed.

Lemma has_code_last ls s : 0 <= s -> has_code ls s = true -> s <= last_symbol ls 0.
Proof.
  intros H0 [Hs Hl]%has_code_spec.
  pose proof (last_symbol_max ls 0 _ _ ltac:(lia) (length_of_lookup ls s ltac:(lia)) Hl). lia.
Qed.

(** A transmitted header in front of the stream yields its two codes. *)
Lemma header_trees m0 m d bytes out h rest :
  inflating m0 m d bytes out -> header_ok h = true -> stream d bytes = encode_header h ++ rest ->
  exists d' bytes', tinf_decode_trees m d = Done (TINF_OK, d') /\ inflating m0 m d' bytes' out /\ same_buffers d d' /\
    overflow d' = overflow d /\ stream d' bytes' = rest /\ codes_known (ltree d') (dtree d') (h_ll h) (h_dl h).
Proof.
  intros Hi Hok Hst. unfold header_ok in Hok.
  apply andb_true_iff in Hok as [Hok Hcd]. apply andb_true_iff in Hok as [Hok Hcl]. apply andb_true_iff in Hok as [Hok H256].
  apply andb_true_iff in Hok as [Hok Hd30]. apply andb_true_iff in Hok as [Hok Hd1]. apply andb_true_iff in Hok as [Hok Hl286].
  apply andb_true_iff in Hok as [Hok Hl257]. apply andb_true_iff in Hok as [Hok Hex%bool_decide_eq_true].
  apply andb_true_iff in Hok as [Hok Hruns]. apply andb_true_iff in Hok as [Hok Hw]. apply andb_true_iff in Hok as [Hok Hccl].
  apply andb_true_iff in Hok as [Hok Hcv]. b2p.
  assert (Forall (fun v => 0 <= v < 8) (h_clens h)) as Hclens.
  { apply Forall_forall. intros v Hv%list_elem_of_In. rewrite forallb_forall in Hcv. specialize (Hcv v Hv). b2p. lia. }
  unfold encode_header in Hst. rewrite <- !app_assoc in Hst. unfold tinf_decode_trees.
  destruct (read_extra m d bytes 5 257 (zlen (h_ll h) - 257) _ (if_reader _ _ _ _ _ Hi) ltac:(lia) ltac:(lia) ltac:(lia) Hst)
    as (d1 & b1 & -> & Hr1 & Ha1 & Ho1 & Hst1). rewrite bind_Done.
  destruct (read_extra m d1 b1 5 1 (zlen (h_dl h) - 1) _ Hr1 ltac:(lia) ltac:(lia) ltac:(lia) Hst1) as (d2 & b2 & -> & Hr2 & Ha2 & Ho2 & Hst2).
  rewrite bind_Done.
  destruct (read_extra m d2 b2 4 4 (zlen (h_clens h) - 4) _ Hr2 ltac:(lia) ltac:(lia) ltac:(lia) Hst2) as (d3 & b3 & -> & Hr3 & Ha3 & Ho3 & Hst3).
  rewrite bind_Done. replace (257 + (zlen (h_ll h) - 257)) with (zlen (h_ll h)) by lia.
  replace (1 + (zlen (h_dl h) - 1)) with (zlen (h_dl h)) by lia. replace (4 + (zlen (h_clens h) - 4)) with (zlen (h_clens h)) by lia.
  bdec. assert (advances d d3) as Ha by (do 2 (etrans; [eassumption|]); done).
  pose proof (inflating_step _ _ _ _ _ _ _ Hi Hr3 Ha) as Hi3.
  destruct (code_length_tree_spec m0 m d3 b3 out (zlen (h_clens h)) Hi3) as (r & d4 & b4 & -> & Hi4 & Hs4 & _ & _ & Hexact); [lia|].
  destruct (Hexact (h_clens h) _ eq_refl Hclens Hst3 Hccl Hw) as (arr & -> & Hk & Hst4 & Ho4 & Htree & Hms).
  rewrite bind_Done. fold (h_cl h) in Hk, Htree, Hms. rewrite <- zlen_app.
  destruct (lengths_loop_runs (S (Z.to_nat (zlen (h_ll h ++ h_dl h)))) m d4 b4 (ltree d4) (h_cl h) _ (h_runs h) [] (h_ll h ++ h_dl h) arr rest
    (if_reader _ _ _ _ _ Hi4) Htree Hms) as (arr' & d5 & b5 & Hrun & Hr5 & Ha5 & Ho5 & Hst5 & Hk5 & Hok5);
    try done; [by intros; apply has_code_last|by eapply known_nil|constructor|rewrite zlen_app; lia| |].
  { change (zlen (@nil Z)) with 0. lia. }
  change (zlen (@nil Z)) with 0 in Hrun. rewrite Hrun, bind_Done. clear Hrun.
  pose proof (inflating_step _ _ _ _ _ _ _ Hi4 Hr5 Ha5) as Hi5.
  destruct (dynamic_trees_spec m0 m d5 b5 out arr' (h_ll h) (h_dl h) Hi5 Hk5 Hok5) as (lt & dt & -> & Hi6 & Hus); [lia..|].
  rewrite Hcl, Hcd. destruct Hus as (Hlt & Hlms & Hdt & Hdms); [done..|].
  replace (length_of (h_ll h) 256 =? 0) with false by (symmetry; by apply Z.eqb_neq). cbn [negb andb].
  exists (set_trees d5 lt dt), b5. split; [done|]. split; [done|]. split.
  { etrans; [by apply advances_same_buffers|]. etrans; [exact Hs4|]. etrans; [by apply advances_same_buffers|apply set_trees_buffers]. }
  split; [cbn; congruence|]. split; [done|]. split; [done|]. cbn [ltree dtree set_trees].
  split; [|split; [done|]]; (eexists; split; [eassumption|]); intros; apply has_code_last; done || lia.
Qed.
End headers.

(** ** Decoding blocks *)
Section blocks.
Implicit Types (m : mem) (d : tinf_data) (bytes out : list Z).

Lemma fixed_codes lt dt :
  tree_of lt fixed_ll -> tree_of dt fixed_dl -> max_sym lt = Some 285 -> max_sym dt = Some 29 ->
  codes_known lt dt fixed_ll fixed_dl.
Proof.
  intros Hl Hd Hml Hmd. split; [done|]. split; [eexists; split; [done|]; intros; lia|].
  split; [done|]. eexists. split; [done|]. intros; lia.
Qed.

Lemma low_bits_16 data rest' :
  zlen data < 65536 ->
  low_bits 16 (zlen data) ++ low_bits 16 (65535 - zlen data) ++ bytes_bits data ++ rest' =
  bytes_bits ([zlen data mod 256; zlen data / 256; (65535 - zlen data) mod 256; (65535 - zlen data) / 256] ++ data) ++ rest'.
Proof.
  intros Hn. pose proof (zlen_nonneg data). rewrite bytes_bits_app, <- app_assoc.
  assert (forall v, 0 <= v < 65536 -> low_bits 16 v = low_bits 8 (v mod 256) ++ low_bits 8 (v / 256)) as E.
  { intros v Hv. change 16%nat with (8 + 8)%nat. rewrite low_bits_app. change (2 ^ Z.of_nat 8) with 256. f_equal.
    symmetry. apply (low_bits_mod 8 v). }
  rewrite !E by lia. rewrite !bytes_bits_cons. change (bytes_bits []) with (@nil bool).
  rewrite app_nil_r, <- !app_assoc. done.
Qed.

Lemma complement n : 0 <= n < 65536 -> Z.land (u32 (Z.lnot (65535 - n))) 0xFFFF = n.
Proof.
  intros Hn. replace (Z.lnot (65535 - n)) with (n - 65536) by (pose proof (Z.add_lnot_diag (65535 - n)); lia).
  change 0xFFFF with (Z.ones 16). rewrite Z.land_ones by lia. unfold wrap. lia.
Qed.

Lemma expand_block_length out b : zlen out <= zlen (expand_block out b).
Proof.
  destruct b; cbn [expand_block]; [|apply expand_tokens_length..]. rewrite zlen_app. pose proof (zlen_nonneg data). lia.
Qed.

Lemma expand_blocks_length out bs : zlen out <= zlen (expand_blocks out bs).
Proof.
  revert out. induction bs as [|b bs IH]; intros out; [done|]. pose proof (expand_block_length out b).
  specialize (IH (expand_block out b)). change (expand_blocks out (b :: bs)) with (expand_blocks (expand_block out b) bs). lia.
Qed.

(** At a byte boundary of the whole stream the padding is what the bit buffer
    still holds. *)
Lemma stored_bytes m d bytes pos pad data rest :
  reader m d bytes -> stream d bytes = pad ++ low_bits 16 (zlen data) ++ low_bits 16 (65535 - zlen data) ++ bytes_bits data ++ rest ->
  (pos + zlen (stream d bytes)) mod 8 = 0 -> (pos + zlen pad) mod 8 = 0 -> zlen pad < 8 -> zlen data < 65536 -> are_bytes data ->
  exists bytes', bytes = [zlen data mod 256; zlen data / 256; (65535 - zlen data) mod 256; (65535 - zlen data) / 256] ++ data ++ bytes' /\
    rest = bytes_bits bytes'.
Proof.
  intros Hr Hst Hpos Hpad Hp8 Hn Hd. pose proof (rd_bitcount _ _ _ Hr). pose proof (zlen_nonneg data). pose proof (zlen_nonneg pad).
  rewrite (zlen_stream m) in Hpos by done. assert (zlen pad = bitcount d) as Epad by lia.
  rewrite low_bits_16 in Hst by done. unfold stream in Hst.
  apply app_inj_1 in Hst as [_ Hst]; [|rewrite low_bits_length; unfold zlen in Epad; lia].
  apply bytes_bits_inj in Hst as (l3 & -> & ->); [| |exact (rd_bytes _ _ _ Hr)].
  - exists l3. by rewrite <- app_assoc.
  - apply Forall_app_2; [|done]. unfold is_byte. repeat apply Forall_cons_2; try apply Forall_nil_2; lia.
Qed.

(** The contents of a block in front of the stream are expanded. *)
Lemma block_decodes fuel m0 m d bytes out b pos rest :
  inflating m0 m d bytes out -> source_end d - source d < 2 ^ 31 -> overflow d = 0 ->
  block_ok pos out b = true -> (pos + 3 + zlen (stream d bytes)) mod 8 = 0 ->
  stream d bytes = encode_body b ++ rest ->
  dest_start d + zlen (expand_block out b) <= dest_end d -> zlen (stream d bytes) < Z.of_nat fuel ->
  exists d' m' bytes', inflate_block fuel m d (block_type b) = Done (TINF_OK, d', m') /\
    inflating m0 m' d' bytes' (expand_block out b) /\ same_buffers d d' /\ overflow d' = 0 /\ stream d' bytes' = rest.
Proof.
  intros Hi Hsz Ho Hok Hpos Hst Hroom Hf. unfold inflate_block.
  destruct b as [pad data|ts|h ts]; cbn [block_type block_ok encode_body expand_block] in *.
  - change (0 =? 0) with true. cbn iota. b2p.
    match goal with H : forallb _ data = true |- _ => rename H into Hd end. rewrite forallb_forall in Hd.
    assert (are_bytes data) as Hdata.
    { apply Forall_forall. intros x Hx%list_elem_of_In. specialize (Hd x Hx). unfold is_byte. b2p. lia. }
    rewrite <- !app_assoc in Hst. pose proof (if_dest _ _ _ _ _ Hi). pose proof (zlen_nonneg data). rewrite zlen_app in Hroom.
    destruct (stored_bytes m d bytes (pos + 3) pad data rest (if_reader _ _ _ _ _ Hi) Hst) as (bytes' & -> & ->); try done.
    cbn [app] in Hi.
    destruct (stored_block _ _ _ _ _ _ _ _ _ _ Hi Hsz) as (d' & m' & Hrun & Hi' & Hs & Ho' & Hst'); [lia| |lia|].
    + replace ((65535 - zlen data) mod 256 + 256 * ((65535 - zlen data) / 256)) with (65535 - zlen data) by lia.
      by rewrite complement by lia.
    + exists d', m', bytes'. split; [exact Hrun|]. split; [done|]. split; [done|]. split; [congruence|done].
  - change (1 =? 0) with false. change (1 =? 1) with true. cbn iota. unfold tinf_inflate_fixed_block.
    destruct (build_fixed_spec (ltree d) (dtree d) (if_ltree _ _ _ _ _ Hi) (if_dtree _ _ _ _ _ Hi))
      as (lt & dt & -> & Hsl & Hsd & Hl & Hd & Hml & Hmd). rewrite bind_Done.
    destruct (block_data_tokens fuel m0 m (set_trees d lt dt) bytes out lt dt fixed_ll fixed_dl ts rest)
      as (d' & m' & bytes' & Hrun & Hi' & Hs & Ho' & Hst'); try done; [by apply inflating_trees|by apply fixed_codes|].
    exists d', m', bytes'. split; [done|]. split; [done|]. split; [by etrans; [apply set_trees_buffers|]|done].
  - change (2 =? 0) with false. change (2 =? 1) with false. change (2 =? 2) with true. cbn iota.
    apply andb_true_iff in Hok as [Hh Hok]. rewrite <- app_assoc in Hst. unfold tinf_inflate_dynamic_block.
    destruct (header_trees m0 m d bytes out h _ Hi Hh Hst) as (d1 & b1 & -> & Hi1 & Hs1 & Ho1 & Hst1 & Hcodes).
    rewrite bind_Done. change (negb (TINF_OK =? TINF_OK)) with false. cbn iota.
    assert (zlen (stream d1 b1) <= zlen (stream d bytes)) by (rewrite Hst1, Hst, !zlen_app; pose proof (zlen_nonneg (encode_header h)); lia).
    destruct (block_data_tokens fuel m0 m d1 b1 out _ _ _ _ ts rest Hi1 Hcodes)
      as (d' & m' & bytes' & Hrun & Hi' & Hs & Ho' & Hst'); try done; [congruence| |lia|].
    { destruct Hs1 as [_ _ -> ->]. done. }
    exists d', m', bytes'. split; [done|]. split; [done|]. split; [by etrans|done].
Qed.

(** One round of the loop over the blocks. *)
Lemma block_step fuel m0 m d bytes out b pos (final : bool) rest :
  inflating m0 m d bytes out -> source_end d - source d < 2 ^ 31 -> overflow d = 0 ->
  block_ok pos out b = true -> (pos + zlen (stream d bytes)) mod 8 = 0 ->
  stream d bytes = (final :: encode_block b) ++ rest ->
  dest_start d + zlen (expand_block out b) <= dest_end d -> zlen (stream d bytes) < Z.of_nat fuel ->
  exists d' m' bytes', blocks_loop (S fuel) m d = (if final then Done (TINF_OK, d', m') else blocks_loop fuel m' d') /\
    inflating m0 m' d' bytes' (expand_block out b) /\ same_buffers d d' /\ overflow d' = 0 /\ stream d' bytes' = rest.
Proof.
  intros Hi Hsz Ho Hok Hpos Hst Hroom Hf. cbn [blocks_loop].
  assert (stream d bytes = low_bits (Z.to_nat 1) (Z.b2z final) ++ encode_block b ++ rest) as Hst0
    by (rewrite Hst; by destruct final).
  unfold encode_block in Hst0. rewrite <- app_assoc in Hst0.
  destruct (read_bits m d bytes 1 (Z.b2z final) _ (if_reader _ _ _ _ _ Hi) ltac:(lia) ltac:(destruct final; cbn; lia) Hst0)
    as (d1 & b1 & -> & Hr1 & Ha1 & Ho1 & Hst1). rewrite bind_Done.
  destruct (read_bits m d1 b1 2 (block_type b) _ Hr1 ltac:(lia) ltac:(destruct b; cbn; lia) Hst1)
    as (d2 & b2 & -> & Hr2 & Ha2 & Ho2 & Hst2). rewrite bind_Done.
  assert (advances d d2) as Ha by (by etrans). pose proof (inflating_step _ _ _ _ _ _ _ Hi Hr2 Ha) as Hi2.
  apply advances_same_buffers in Ha as Hs2. pose proof (sb_source _ _ Hs2).
  assert (zlen (stream d bytes) = 3 + zlen (stream d2 b2)) as Hlen
    by (rewrite Hst0, Hst2, zlen_app, zlen_low_bits, zlen_app, zlen_low_bits; lia).
  destruct (block_decodes (S fuel) m0 m d2 b2 out b pos rest Hi2) as (d' & m' & bytes' & -> & Hi' & Hs' & Ho' & Hst').
  - rewrite (sb_end _ _ Hs2). lia.
  - congruence.
  - done.
  - rewrite <- Hpos, Hlen. f_equal. lia.
  - done.
  - destruct Hs2 as [_ _ -> ->]. done.
  - lia.
  - exists d', m', bytes'. rewrite bind_Done. change (negb (TINF_OK =? TINF_OK)) with false. cbn iota.
    split; [by destruct final|]. split; [done|]. split; [by etrans|done].
Qed.

Lemma blocks_decode fuel m0 m d bytes out b bs pos trail :
  inflating m0 m d bytes out -> source_end d - source d < 2 ^ 31 -> overflow d = 0 ->
  blocks_ok pos out b bs = true -> (pos + zlen (stream d bytes)) mod 8 = 0 ->
  stream d bytes = encode_blocks b bs ++ trail ->
  dest_start d + zlen (expand_blocks out (b :: bs)) <= dest_end d -> zlen (stream d bytes) + 1 < Z.of_nat fuel ->
  exists d' m' bytes', blocks_loop fuel m d = Done (TINF_OK, d', m') /\
    inflating m0 m' d' bytes' (expand_blocks out (b :: bs)) /\ same_buffers d d' /\ overflow d' = 0 /\ stream d' bytes' = trail.
Proof.
  revert fuel m d bytes out b pos. induction bs as [|b' bs IH]; intros fuel m d bytes out b pos Hi Hsz Ho Hok Hpos Hst Hroom Hf;
    pose proof (zlen_nonneg (stream d bytes)); (destruct fuel as [|fuel]; [lia|]);
    cbn [blocks_ok encode_blocks] in *; apply andb_true_iff in Hok as [Hb Hbs].
  - destruct (block_step fuel m0 m d bytes out b pos true trail Hi Hsz Ho Hb Hpos Hst) as (d' & m' & bytes' & -> & Hrest); [done|lia|].
    by exists d', m', bytes'.
  - rewrite <- app_assoc in Hst. pose proof (expand_blocks_length (expand_block out b) (b' :: bs)).
    change (expand_blocks out (b :: b' :: bs)) with (expand_blocks (expand_block out b) (b' :: bs)) in *.
    destruct (block_step fuel m0 m d bytes out b pos false _ Hi Hsz Ho Hb Hpos Hst) as (d1 & m1 & b1 & -> & Hi1 & Hs1 & Ho1 & Hst1); [lia|lia|].
    assert (zlen (stream d bytes) = 1 + zlen (encode_block b) + zlen (stream d1 b1)) as Hlen
      by (rewrite Hst, Hst1, zlen_app, zlen_cons; lia).
    pose proof (zlen_nonneg (encode_block b)). pose proof (sb_source _ _ Hs1).
    destruct (IH fuel m1 d1 b1 (expand_block out b) b' (pos + 1 + zlen (encode_block b)) Hi1) as (d' & m' & bytes' & Hrun & Hi' & Hs' & Ho' & Hst'); try done.
    + rewrite (sb_end _ _ Hs1). lia.
    + rewrite <- Hpos, Hlen. f_equal. lia.
    + destruct Hs1 as [_ _ -> ->]. done.
    + lia.
    + exists d', m', bytes'. split; [done|]. split; [done|]. split; [by etrans|done].
Qed.
End blocks.

(** ** The whole stream *)

(** [bytes] are the bits of the blocks, filled up to a whole byte. *)
Definition deflated (bytes : list Z) (b : block) (bs : list block) : Prop :=
  exists trail, bytes_bits bytes = encode_blocks b bs ++ trail /\ zlen trail < 8.

Lemma deflated_length bytes b bs : deflated bytes b bs -> 0 < zlen bytes.
Proof.
  intros (trail & Hbits & _). destruct bytes; [|rewrite zlen_cons; pose proof (zlen_nonneg bytes); lia].
  destruct bs; discriminate Hbits.
Qed.

Lemma uncompress_blocks fuel m dst destLen src bytes b bs :
  buffers m dst destLen src bytes -> deflated bytes b bs -> blocks_ok 0 [] b bs = true ->
  zlen (expand_blocks [] (b :: bs)) <= destLen -> (inflate_fuel (zlen bytes) <= fuel)%nat ->
  let out := expand_blocks [] (b :: bs) in
  tinf_uncompress fuel m dst destLen src (Some (zlen bytes)) =
    Done (Uncompressed TINF_OK (zlen out) (Some (zlen bytes)) (write_bytes m dst out)) /\ are_bytes out.
Proof.
  intros Hb Hdef Hok Hroom Hf. cbn zeta. pose proof Hb as [_ _ H0 Hl He _ Hd0 Hdl Hde _].
  pose proof (deflated_length _ _ _ Hdef) as Hn. destruct Hdef as (trail & Hbits & Htrail).
  pose proof (inflating_start _ _ _ _ _ Hb) as Hi. unfold inflate_fuel in Hf.
  unfold tinf_uncompress. bdec. rewrite !u32_small by lia. fold (start_data dst destLen src (zlen bytes)).
  destruct (blocks_decode fuel m m _ bytes [] b bs 0 trail Hi) as (d & m' & bytes' & -> & Hi' & Hs & Ho & Hst); try done.
  - cbn [start_data dest_start dest_end source source_end]. lia.
  - change (stream _ bytes) with (bytes_bits bytes). rewrite zlen_bytes_bits. lia.
  - cbn [start_data dest_start dest_end source source_end]. lia.
  - change (stream _ bytes) with (bytes_bits bytes). rewrite zlen_bytes_bits. lia.
  - rewrite bind_Done. change (negb (TINF_OK =? TINF_OK)) with false. rewrite Ho. change (negb (0 =? 0)) with false. cbn iota.
    pose proof Hi' as [Hr' Hm Hout Hd _ _ _ _ _ _ _ _]. pose proof (zlen_stream _ _ _ Hr') as Hlen. rewrite Hst in Hlen.
    pose proof (rd_bitcount _ _ _ Hr'). pose proof (zlen_nonneg bytes'). pose proof (rd_end _ _ _ Hr') as Hend.
    destruct Hs as [_ Hse Hst' _]. cbn in Hse, Hst'. rewrite Hst' in *. pose proof (zlen_nonneg (expand_blocks [] (b :: bs))).
    split; [|done]. rewrite !u32_small by lia. replace (source d - src) with (zlen bytes) by lia. bdec.
    replace (dest d - dst) with (zlen (expand_blocks [] (b :: bs))) by lia. by subst m'.
Qed.

Lemma uncompress_any_length fuel m dst destLen src bytes b bs n :
  buffers m dst destLen src bytes -> deflated bytes b bs -> blocks_ok 0 [] b bs = true ->
  zlen (expand_blocks [] (b :: bs)) <= destLen -> (inflate_fuel (zlen bytes) <= fuel)%nat ->
  0 < src -> n = zlen bytes \/ n = 0 ->
  let out := expand_blocks [] (b :: bs) in
  tinf_uncompress fuel m dst destLen src (Some n) =
    Done (Uncompressed TINF_OK (zlen out) (Some (zlen bytes)) (write_bytes m dst out)) /\ are_bytes out.
Proof.
  intros Hb Hd Hok Hr Hf Hs Hn. cbn zeta.
  destruct (uncompress_blocks fuel m dst destLen src bytes b bs Hb Hd Hok Hr Hf) as [Hrun Hout].
  split; [|done]. destruct Hn as [-> | ->]; [done|].
  rewrite (uncompress_unsized _ _ _ _ _ _ _ Hs (deflated_length _ _ _ Hd) (bf_src_end _ _ _ _ _ Hb) Hrun); done.
Qed.

(** ** Theorems *)

(** C7: whatever bytes it is given, [tinf_uncompress] returns: it never runs
    out of the stated fuel, fails no assertion and reads no uninitialised table
    entry, and the only memory it changes is the bytes it reports to have
    written, which lie within [*destLen] bytes of [dest].  It returns TINF_OK
    and their number, or one of its two error codes. *)
Theorem tinf_uncompress_safe fuel m dst destLen src bytes :
  buffers m dst destLen src bytes -> 0 < zlen bytes -> (inflate_fuel (zlen bytes) <= fuel)%nat ->
  exists r out, tinf_uncompress fuel m dst destLen src (Some (zlen bytes)) = Done r /\
    u_mem r = write_bytes m dst out /\ are_bytes out /\ zlen out <= destLen /\ u_sourceLen r = Some (zlen bytes) /\
    (u_res r = TINF_OK /\ u_destLen r = zlen out \/
     (u_res r = TINF_DATA_ERROR \/ u_res r = TINF_BUF_ERROR) /\ u_destLen r = destLen).
Proof. apply uncompress_safe. Qed.

(** C3: [tinf_uncompress] implements RFC 1951: for every sequence of stored,
    fixed and dynamic blocks, with whatever literals, matches, code lengths,
    run-length coding of them and padding the compressor chose, the bits that
    encode it are decompressed to exactly the data the blocks stand for, in a
    buffer of at least that size, and all of the input is accounted for.  The
    same holds when the length of the input is not given ([*sourceLen] zero, as
    for a payload): the decompressor finds the end and reports the length. *)
Theorem tinf_uncompress_inflates fuel m dst destLen src bytes b bs :
  buffers m dst destLen src bytes -> deflated bytes b bs -> blocks_ok 0 [] b bs = true ->
  zlen (expand_blocks [] (b :: bs)) <= destLen -> (inflate_fuel (zlen bytes) <= fuel)%nat ->
  0 < src -> forall n, n = zlen bytes \/ n = 0 ->
  tinf_uncompress fuel m dst destLen src (Some n) =
    Done (Uncompressed TINF_OK (zlen (expand_blocks [] (b :: bs))) (Some (zlen bytes))
            (write_bytes m dst (expand_blocks [] (b :: bs)))).
Proof. intros Hb Hd Hok Hr Hf Hs n Hn. by apply (uncompress_any_length fuel m dst destLen src bytes b bs n). Qed.

(** ** A stream with a block of each type *)
Definition demo_ll : list Z := replicate 97 0 ++ [3; 3; 3; 3] ++ replicate 155 0 ++ [2; 0; 0; 0; 2].

Definition demo_header : header :=
  Header [3; 3; 2; 3; 0; 0; 0; 0; 0; 0; 0; 0; 0; 3; 0; 3; 0; 3]
    [Zeros11 86; Len 3; Repeat 0; Zeros11 127; Zeros11 6; Len 2; Zeros3 0; Len 2; Len 0; Len 1] demo_ll [0; 1].

Definition demo_block : block := Stored [false; true; false; true; false] [1; 2; 3].

Definition demo_blocks : list block :=
  [Fixed [Literal 65; Match 0 0 0 0];
   Dynamic demo_header [Literal 97; Literal 98; Literal 99; Literal 100; Match 3 0 1 0]].

Definition demo_stream : list Z :=
  [80; 3; 0; 252; 255; 1; 2; 3; 114; 4; 2; 64; 73; 240; 77; 3; 0; 0; 192; 48; 12; 107; 7; 127; 12; 57; 34; 167; 187; 0].

Definition demo_data : list Z := [1; 2; 3; 65; 65; 65; 65; 97; 98; 99; 100; 99; 100; 99; 100; 99; 100].

Definition demo_inflate_mem (src : list Z) : mem :=
  write_bytes (write_bytes ∅ 0x1000 src) 0x8000 (replicate 20 0).

Lemma demo_buffers src :
  are_bytes src -> zlen src < 256 -> buffers (demo_inflate_mem src) 0x8000 20 0x1000 src.
Proof.
  intros Hs Hl. pose proof (zlen_nonneg src).
  constructor; try done; try lia; [|exists (replicate 20 0); split; [done|]].
  - apply bytes_at_write_disj; [lia|]. apply bytes_at_write_eq; lia.
  - apply bytes_at_write_eq; [lia|]. rewrite zlen_replicate. lia.
Qed.

(** The same stream cut short is refused, and nothing but the buffer changes. *)
Theorem tinf_uncompress_safe_witness :
  exists r out, tinf_uncompress (inflate_fuel 20) (demo_inflate_mem (take 20 demo_stream)) 0x8000 20 0x1000 (Some 20) = Done r /\
    u_mem r = write_bytes (demo_inflate_mem (take 20 demo_stream)) 0x8000 out /\ zlen out <= 20 /\ u_res r <> TINF_OK.
Proof.
  destruct (tinf_uncompress_safe (inflate_fuel 20) (demo_inflate_mem (take 20 demo_stream)) 0x8000 20 0x1000 (take 20 demo_stream))
    as (r & out & Hrun & Hm & _ & Hl & _).
  - apply demo_buffers; [concrete|vm_compute; done].
  - done.
  - done.
  - change (zlen (take 20 demo_stream)) with 20 in Hrun. exists r, out. split; [exact Hrun|]. split; [exact Hm|]. split; [exact Hl|].
    intros E. assert (match tinf_uncompress (inflate_fuel 20) (demo_inflate_mem (take 20 demo_stream)) 0x8000 20 0x1000 (Some 20) with
                      | Done x => u_res x =? TINF_OK | _ => false end = false) as Hno by (vm_compute; reflexivity).
    rewrite Hrun, E in Hno. discriminate Hno.
Defined.

Definition demo_inflated : uncompressed :=
  Uncompressed TINF_OK 17 (Some 30) (write_bytes (demo_inflate_mem demo_stream) 0x8000 demo_data).

Theorem tinf_uncompress_inflates_witness :
  tinf_uncompress (inflate_fuel 30) (demo_inflate_mem demo_stream) 0x8000 20 0x1000 (Some 30) = Done demo_inflated /\
  tinf_uncompress (inflate_fuel 30) (demo_inflate_mem demo_stream) 0x8000 20 0x1000 (Some 0) = Done demo_inflated.
Proof.
  pose proof (tinf_uncompress_inflates (inflate_fuel 30) (demo_inflate_mem demo_stream) 0x8000 20 0x1000 demo_stream demo_block demo_blocks) as Hw.
  assert (expand_blocks [] (demo_block :: demo_blocks) = demo_data) as E by (vm_compute; reflexivity). rewrite E in Hw.
  assert (deflated demo_stream demo_block demo_blocks) as Hd
    by (exists (replicate 5 false); split; [vm_compute; reflexivity|done]).
  assert (blocks_ok 0 [] demo_block demo_blocks = true) as Hok by (vm_compute; reflexivity).
  split; (apply Hw; [apply demo_buffers; [concrete|vm_compute; done]|exact Hd|exact Hok|done|done|done|auto]).
Defined.
