(* ===== verification/Gzip.v ===== *)
(** * gzip and zlib streams (tinf/tinfgzip.c, tinf/tinfzlib.c)

    Both decoders check a header, decompress with [tinf_uncompress] and compare
    the trailer with the checksum of what they have written.  [*sourceLen] is
    zero when the length of the input is not known. *)
From S2P Require Import Prelude Machine Checksum Inflate InflateBits Huffman InflateSafe InflateUnsized Deflate.

(** ** tinfgzip.c *)
Definition FTEXT : Z := 1.
Definition FHCRC : Z := 2.
Definition FEXTRA : Z := 4.
Definition FNAME : Z := 8.
Definition FCOMMENT : Z := 16.

Definition read_le32 (m : mem) (p : Z) : outcome Z :=
  b0 ← load8 m p;
  b1 ← load8 m (p + 1);
  b2 ← load8 m (p + 2);
  b3 ← load8 m (p + 3);
  Done (Z.lor (Z.lor (Z.lor b0 (u32 (Z.shiftl b1 8))) (u32 (Z.shiftl b2 16))) (u32 (Z.shiftl b3 24))).

(** The loops over the file name and the comment; [None] is the early return of
    TINF_DATA_ERROR. *)
Fixpoint skip_string (fuel : nat) (m : mem) (src sourceLen start : Z) : outcome (option Z) :=
  match fuel with
  | O => Stuck
  | S fuel' =>
      if negb (sourceLen =? 0) && (sourceLen <=? u32 (start - src)) then Done None else
      c ← load8 m start;
      let start := u32 (start + 1) in
      if c =? 0 then Done (Some start) else skip_string fuel' m src sourceLen start
  end.

(** [if (flg & flag) { ... }] *)
Definition has_flag (flg flag : Z) : bool := negb (Z.land flg flag =? 0).

Definition skip_extra (m : mem) (flg sourceLen start : Z) : outcome (option Z) :=
  if has_flag flg FEXTRA then
    xlen ← read_le16 m start;
    if negb (sourceLen =? 0) && (u32 (sourceLen - 12) <? xlen) then Done None
    else Done (Some (u32 (start + (xlen + 2))))
  else Done (Some start).

Definition skip_field (fuel : nat) (m : mem) (flg flag src sourceLen start : Z) : outcome (option Z) :=
  if has_flag flg flag then skip_string fuel m src sourceLen start else Done (Some start).

Definition check_hcrc (m : mem) (flg src sourceLen start : Z) : outcome (option Z) :=
  if has_flag flg FHCRC then
    if negb (sourceLen =? 0) && (u32 (sourceLen - 2) <? u32 (start - src)) then Done None else
    hcrc ← read_le16 m start;
    crc ← tinf_crc32 m src (u32 (start - src));
    if negb (hcrc =? Z.land crc 0x0000FFFF) then Done None else Done (Some (u32 (start + 2)))
  else Done (Some start).

(** The fixed part of the header; [None] is TINF_DATA_ERROR, otherwise the flag
    byte. *)
Definition check_gzip_header (m : mem) (src sourceLen : Z) : outcome (option Z) :=
  if negb (sourceLen =? 0) && (sourceLen <? 18) then Done None else
  id1 ← load8 m src;
  id2 ← (if negb (id1 =? 0x1F) then Done 0 else load8 m (src + 1));
  if negb (id1 =? 0x1F) || negb (id2 =? 0x8B) then Done None else
  cm ← load8 m (src + 2);
  if negb (cm =? 8) then Done None else
  flg ← load8 m (src + 3);
  if negb (Z.land flg 0xE0 =? 0) then Done None else Done (Some flg).

(** Find start of compressed data. *)
Definition gzip_data_start (fuel : nat) (m : mem) (flg src sourceLen : Z) : outcome (option Z) :=
  r ← skip_extra m flg sourceLen (u32 (src + 10));
  match r with None => Done None | Some start =>
  r ← skip_field fuel m flg FNAME src sourceLen start;
  match r with None => Done None | Some start =>
  r ← skip_field fuel m flg FCOMMENT src sourceLen start;
  match r with None => Done None | Some start =>
  check_hcrc m flg src sourceLen start
  end end end.

Definition tinf_gzip_uncompress (fuel : nat) (m : mem) (dst destLen src sourceLen : Z) : outcome uncompressed :=
  let fail res := Uncompressed res destLen (Some sourceLen) m in
  h ← check_gzip_header m src sourceLen;
  match h with None => Done (fail TINF_DATA_ERROR) | Some flg =>
  r ← gzip_data_start fuel m flg src sourceLen;
  match r with None => Done (fail TINF_DATA_ERROR) | Some start =>
  dlen ← (if sourceLen =? 0 then Done 0 else read_le32 m (src + u32 (sourceLen - 4)));
  if negb (sourceLen =? 0) && (destLen <? dlen) then Done (fail TINF_BUF_ERROR) else
  if negb (sourceLen =? 0) && (ptrdiff (src + sourceLen) start <? 8) then Done (fail TINF_DATA_ERROR) else
  let sourceDataLen := if sourceLen =? 0 then 0 else u32 (src + sourceLen - start - 8) in
  u ← tinf_uncompress fuel m dst destLen start (Some sourceDataLen);
  let m := u_mem u in
  let destLen := u_destLen u in
  if negb (u_res u =? TINF_OK) then Done (Uncompressed TINF_DATA_ERROR destLen (Some sourceLen) m) else
  n ← of_option (u_sourceLen u);
  let sourceDataLen := u32 (n + u32 (start - src + 8)) in
  if negb (sourceLen =? 0) && negb (sourceLen =? sourceDataLen)
  then Done (Uncompressed TINF_DATA_ERROR destLen (Some sourceLen) m) else
  let sourceLen := sourceDataLen in
  let ret res := Uncompressed res destLen (Some sourceLen) m in
  dlen ← read_le32 m (src + u32 (sourceLen - 4));
  if negb (destLen =? dlen) then Done (ret TINF_DATA_ERROR) else
  crc ← read_le32 m (src + u32 (sourceLen - 8));
  crc' ← tinf_crc32 m dst dlen;
  if negb (crc =? crc') then Done (ret TINF_DATA_ERROR) else Done (ret TINF_OK)
  end end.

(** ** tinfzlib.c *)
Definition read_be32 (m : mem) (p : Z) : outcome Z :=
  b0 ← load8 m p;
  b1 ← load8 m (p + 1);
  b2 ← load8 m (p + 2);
  b3 ← load8 m (p + 3);
  Done (Z.lor (Z.lor (Z.lor (u32 (Z.shiftl b0 24)) (u32 (Z.shiftl b1 16))) (u32 (Z.shiftl b2 8))) b3).

(** [sourceLen] is dereferenced whether it is null or not, so it is a value. *)
Definition tinf_zlib_uncompress (fuel : nat) (m : mem) (dst destLen src sourceLen : Z) : outcome uncompressed :=
  let fail := Uncompressed TINF_DATA_ERROR destLen (Some sourceLen) m in
  let sourceDataLen := u32 (sourceLen - 6) in
  if negb (sourceLen =? 0) && (sourceLen <? 6) then Done fail else
  cmf ← load8 m src;
  flg ← load8 m (src + 1);
  if negb ((256 * cmf + flg) mod 31 =? 0) then Done fail else
  if negb (Z.land cmf 0x0F =? 8) then Done fail else
  if 7 <? Z.shiftr cmf 4 then Done fail else
  if negb (Z.land flg 0x20 =? 0) then Done fail else
  u ← tinf_uncompress fuel m dst destLen (u32 (src + 2)) (Some sourceDataLen);
  let m := u_mem u in
  let destLen := u_destLen u in
  if negb (u_res u =? TINF_OK) then Done (Uncompressed TINF_DATA_ERROR destLen (Some sourceLen) m) else
  n ← of_option (u_sourceLen u);
  a32 ← read_be32 m (src + u32 (n + 2));
  a32' ← tinf_adler32 m dst destLen;
  if negb (a32 =? a32') then Done (Uncompressed TINF_DATA_ERROR destLen (Some sourceLen) m)
  else Done (Uncompressed TINF_OK destLen (Some (u32 (n + 6))) m).

(** ** The files they are defined for (RFC 1952) *)
Record gzip_header := GzipHeader {
  g_text : bool;
  g_hcrc : bool;
  g_extra : option (list Z);
  g_name : option (list Z);
  g_comment : option (list Z);
  g_fixed : list Z;
}.

Definition flag_bit {A} (o : option A) (v : Z) : Z := match o with Some _ => v | None => 0 end.

Definition g_flags (h : gzip_header) : Z :=
  (if g_text h then FTEXT else 0) + (if g_hcrc h then FHCRC else 0) + flag_bit (g_extra h) FEXTRA +
  flag_bit (g_name h) FNAME + flag_bit (g_comment h) FCOMMENT.

Definition extra_field (o : option (list Z)) : list Z :=
  match o with Some e => le_bytes 2 (zlen e) ++ e | None => [] end.
Definition string_field (o : option (list Z)) : list Z :=
  match o with Some s => s ++ [0] | None => [] end.

(** [g_fixed] is the modification time, the extra flags and the system. *)
Definition gzip_fields (h : gzip_header) : list Z :=
  ([0x1F; 0x8B; 8; g_flags h] ++ g_fixed h) ++ extra_field (g_extra h) ++ string_field (g_name h) ++ string_field (g_comment h).

Definition hcrc_field (h : gzip_header) : list Z :=
  if g_hcrc h then le_bytes 2 (crc32 (gzip_fields h) mod 2 ^ 16) else [].

Definition string_ok (s : list Z) : Prop := Forall (fun c => is_byte c /\ c <> 0) s.

Definition gzip_header_ok (h : gzip_header) : Prop :=
  zlen (g_fixed h) = 6 /\ are_bytes (g_fixed h) /\
  (forall e, g_extra h = Some e -> are_bytes e /\ zlen e < 65536) /\
  (forall s, g_name h = Some s -> string_ok s) /\ (forall s, g_comment h = Some s -> string_ok s).

(** A file with the DEFLATE stream [body] of the data [out]. *)
Definition gzip_file (h : gzip_header) (body out : list Z) : list Z :=
  gzip_fields h ++ hcrc_field h ++ body ++ le_bytes 4 (crc32 out) ++ le_bytes 4 (zlen out).

(** The same with whatever the three checks say: [hc] where the header's checksum
    is announced, [crc] and [len] in the trailer. *)
Definition hcrc_bytes (h : gzip_header) (hc : Z) : list Z := if g_hcrc h then le_bytes 2 hc else [].
Definition gzip_bytes (h : gzip_header) (hc : Z) (body : list Z) (crc len : Z) : list Z :=
  gzip_fields h ++ hcrc_bytes h hc ++ body ++ le_bytes 4 crc ++ le_bytes 4 len.

(** What the decoder must answer: a wrong header checksum is refused before
    anything is written, a length that does not fit the buffer as well, when the
    end of the file is known; otherwise the data are written, and accepted if
    both fields of the trailer are theirs. *)
Definition gzip_answer (m : mem) (dst destLen n : Z) (h : gzip_header) (hc crc len : Z) (out file : list Z) : uncompressed :=
  if g_hcrc h && negb (hc =? crc32 (gzip_fields h) mod 2 ^ 16) then Uncompressed TINF_DATA_ERROR destLen (Some n) m
  else if negb (n =? 0) && (destLen <? len) then Uncompressed TINF_BUF_ERROR destLen (Some n) m
  else Uncompressed (if (len =? zlen out) && (crc =? crc32 out) then TINF_OK else TINF_DATA_ERROR)
         (zlen out) (Some (zlen file)) (write_bytes m dst out).

Section fields.
Implicit Types (m : mem) (bs rest : list Z).

Lemma read_le16_le m a v rest : bytes_at m a (le_bytes 2 v ++ rest) -> 0 <= v < 65536 -> read_le16 m a = Done v.
Proof.
  intros Hat Hv. cbn [le_bytes app] in Hat. rewrite (read_le16_spec _ _ _ _ _ Hat) by apply u8_byte.
  f_equal. unfold wrap. change (2 ^ 8) with 256. lia.
Qed.

Lemma read_le32_le m a v rest : bytes_at m a (le_bytes 4 v ++ rest) -> 0 <= v < 2 ^ 32 -> read_le32 m a = Done v.
Proof.
  intros Hat Hv. cbn [le_bytes app] in Hat.
  destruct Hat as ([H0 A0] & [H1 A1] & [H2 A2] & [H3 A3] & _). unfold read_le32.
  replace (a + 1 + 1) with (a + 2) in * by lia. replace (a + 2 + 1) with (a + 3) in * by lia.
  ld H0. ld H1. ld H2. ld H3.
  pose proof (u8_byte v) as B0. pose proof (u8_byte (v / 256)) as B1.
  pose proof (u8_byte (v / 256 / 256)) as B2. pose proof (u8_byte (v / 256 / 256 / 256)) as B3.
  rewrite !shift_byte by (done || lia). unfold is_byte in *.
  rewrite (lor_disjoint _ 8), (lor_disjoint _ 16), (lor_disjoint _ 24) by lia.
  f_equal. unfold wrap. change (2 ^ 8) with 256. lia.
Qed.

(** A header field in front of [rest], with the end of the file known or not. *)
Lemma skip_extra_spec m flg e n start rest :
  has_flag flg FEXTRA = (if e is Some _ then true else false) ->
  (forall x, e = Some x -> zlen x < 65536 /\ (n = 0 \/ 12 + zlen x <= n < 2 ^ 32)) ->
  bytes_at m start (extra_field e ++ rest) -> 0 <= start -> start + zlen (extra_field e) < 2 ^ 32 ->
  skip_extra m flg n start = Done (Some (start + zlen (extra_field e))).
Proof.
  intros Hf He Hat H0 H32. unfold skip_extra. rewrite Hf. destruct e as [x|]; cbn [extra_field] in *.
  - destruct (He x eq_refl) as [Hx Hn]. pose proof (zlen_nonneg x). rewrite zlen_app, zlen_le_bytes in *. rewrite <- app_assoc in Hat.
    rewrite (read_le16_le _ _ _ _ Hat), bind_Done by lia.
    assert (negb (n =? 0) && (u32 (n - 12) <? zlen x) = false) as ->.
    { destruct Hn as [->|Hn]; [done|]. rewrite u32_small by lia. apply andb_false_iff. right. apply Z.ltb_ge. lia. }
    do 2 f_equal. rewrite u32_small; lia.
  - change (zlen (@nil Z)) with 0. by rewrite Z.add_0_r.
Qed.

Lemma skip_string_spec fuel m src n start s rest :
  string_ok s -> bytes_at m start (s ++ 0 :: rest) -> (length s < fuel)%nat ->
  0 <= src <= start -> start + zlen s + 1 < 2 ^ 32 -> n = 0 \/ start - src + zlen s < n ->
  skip_string fuel m src n start = Done (Some (start + zlen s + 1)).
Proof.
  intros Hs. revert fuel start. induction Hs as [|c s [Hc Hc0] _ IH]; intros fuel start Hat Hf Hsrc H32 Hn;
    (destruct fuel as [|fuel]; [cbn in Hf; lia|]); cbn [skip_string app length] in *.
  - change (zlen (@nil Z)) with 0 in *. destruct Hat as [[Hb Ha] _].
    assert (negb (n =? 0) && (n <=? u32 (start - src)) = false) as ->
      by (rewrite u32_small by lia; apply andb_false_iff; rewrite negb_false_iff, Z.eqb_eq, Z.leb_gt; lia).
    ld Hb. change (0 =? 0) with true. cbn iota. rewrite u32_small by lia. do 2 f_equal. lia.
  - rewrite zlen_cons in *. pose proof (zlen_nonneg s). destruct Hat as [[Hb Ha] Hat].
    assert (negb (n =? 0) && (n <=? u32 (start - src)) = false) as ->
      by (rewrite u32_small by lia; apply andb_false_iff; rewrite negb_false_iff, Z.eqb_eq, Z.leb_gt; lia).
    ld Hb. bdec. rewrite u32_small by lia. rewrite IH by (done || lia). do 2 f_equal. lia.
Qed.

Lemma skip_field_spec fuel m flg flag src n start o rest :
  has_flag flg flag = (if o is Some _ then true else false) ->
  (forall s, o = Some s -> string_ok s /\ (length s < fuel)%nat) ->
  bytes_at m start (string_field o ++ rest) -> 0 <= src <= start -> start + zlen (string_field o) < 2 ^ 32 ->
  n = 0 \/ start - src + zlen (string_field o) <= n ->
  skip_field fuel m flg flag src n start = Done (Some (start + zlen (string_field o))).
Proof.
  intros Hf Hs Hat Hsrc H32 Hn. unfold skip_field. rewrite Hf. destruct o as [s|]; cbn [string_field] in *.
  - destruct (Hs s eq_refl) as [Hok Hl]. rewrite zlen_app, zlen_cons, (zlen_nil (A := Z)) in *. rewrite <- app_assoc in Hat.
    rewrite (skip_string_spec fuel m src n start s rest) by (done || lia). do 2 f_equal. lia.
  - change (zlen (@nil Z)) with 0. by rewrite Z.add_0_r.
Qed.
End fields.

Section gzip.
Implicit Types (m : mem) (h : gzip_header) (body out rest : list Z).

Lemma g_flags_spec h :
  Z.land (g_flags h) 0xE0 = 0 /\ has_flag (g_flags h) FEXTRA = (if g_extra h is Some _ then true else false) /\
  has_flag (g_flags h) FNAME = (if g_name h is Some _ then true else false) /\
  has_flag (g_flags h) FCOMMENT = (if g_comment h is Some _ then true else false) /\
  has_flag (g_flags h) FHCRC = g_hcrc h.
Proof.
  unfold g_flags. destruct (g_text h), (g_hcrc h), (g_extra h), (g_name h), (g_comment h); by vm_compute.
Qed.

Lemma check_header_spec m h src n rest :
  bytes_at m src ([0x1F; 0x8B; 8; g_flags h] ++ rest) -> n = 0 \/ 18 <= n ->
  check_gzip_header m src n = Done (Some (g_flags h)).
Proof.
  intros ([H0 A0] & [H1 A1] & [H2 A2] & [H3 A3] & _) Hn. unfold check_gzip_header.
  replace (src + 1 + 1) with (src + 2) in * by lia. replace (src + 2 + 1) with (src + 3) in * by lia.
  assert (negb (n =? 0) && (n <? 18) = false) as -> by (apply andb_false_iff; rewrite negb_false_iff, Z.eqb_eq, Z.ltb_ge; lia).
  ld H0. bdec. ld H1. bdec. ld H2. bdec. ld H3. destruct (g_flags_spec h) as [-> _]. done.
Qed.

(** The header is skipped whole, if its checksum is right. *)
Lemma data_start_spec fuel m h hc src n rest :
  gzip_header_ok h -> 0 <= hc < 65536 -> bytes_at m src (gzip_fields h ++ hcrc_bytes h hc ++ rest) ->
  0 <= src -> src + zlen (gzip_fields h ++ hcrc_bytes h hc) < 2 ^ 32 ->
  n = 0 \/ zlen (gzip_fields h ++ hcrc_bytes h hc) <= n < 2 ^ 32 -> (length (gzip_fields h) <= fuel)%nat ->
  gzip_data_start fuel m (g_flags h) src n =
    Done (if g_hcrc h && negb (hc =? crc32 (gzip_fields h) mod 2 ^ 16) then None else Some (src + zlen (gzip_fields h ++ hcrc_bytes h hc))).
Proof.
  intros (Hfix & Hfixb & Hex & Hname & Hcom) Hhc Hat H0 H32 Hn Hf. destruct (g_flags_spec h) as (_ & Fe & Fn & Fc & Fh).
  unfold gzip_data_start. rewrite zlen_app in *. pose proof (bytes_at_app m src (gzip_fields h) (hcrc_bytes h hc ++ rest)) as Hsplit.
  assert (bytes_at m src (gzip_fields h)) as Hfields by tauto. assert (bytes_at m (src + zlen (gzip_fields h)) (hcrc_bytes h hc ++ rest)) as Hrest by tauto.
  clear Hsplit Hat. pose proof Hfields as Hat. unfold gzip_fields in Hat. apply bytes_at_app in Hat as [_ Hat].
  assert (zlen ([0x1F; 0x8B; 8; g_flags h] ++ g_fixed h) = 10) as E10 by (rewrite zlen_app; change (zlen [_; _; _; _]) with 4; lia).
  rewrite E10 in Hat. assert (zlen (gzip_fields h) = 10 + zlen (extra_field (g_extra h)) + zlen (string_field (g_name h)) + zlen (string_field (g_comment h))) as Elen
    by (unfold gzip_fields; rewrite zlen_app, E10, !zlen_app; lia).
  pose proof (zlen_nonneg (extra_field (g_extra h))). pose proof (zlen_nonneg (string_field (g_name h))).
  pose proof (zlen_nonneg (string_field (g_comment h))). pose proof (zlen_nonneg (hcrc_bytes h hc)).
  assert (forall o s, (o = g_name h \/ o = g_comment h) -> o = Some s -> string_ok s /\ (length s < fuel)%nat) as Hstr.
  { intros o s Ho Es. assert (zlen (string_field o) = zlen s + 1) as Hl by (rewrite Es; cbn [string_field]; by rewrite zlen_app).
    split; [destruct Ho as [-> | ->]; auto|]. unfold zlen in *. destruct Ho as [-> | ->]; lia. }
  rewrite u32_small by lia. rewrite (skip_extra_spec m _ (g_extra h) n _ (string_field (g_name h) ++ string_field (g_comment h)) Fe); [|intros x Ex|exact Hat|lia|lia].
  2: { destruct (Hex x Ex). split; [done|]. rewrite Ex in Elen. cbn [extra_field] in Elen. rewrite zlen_app, zlen_le_bytes in Elen. lia. }
  rewrite bind_Done. apply bytes_at_app in Hat as [_ Hat].
  rewrite (skip_field_spec fuel m _ FNAME src n _ (g_name h) (string_field (g_comment h)) Fn); [|by intros s; apply Hstr; left|exact Hat|lia..].
  rewrite bind_Done. apply bytes_at_app in Hat as [_ Hat]. rewrite <- (app_nil_r (string_field (g_comment h))) in Hat.
  rewrite (skip_field_spec fuel m _ FCOMMENT src n _ (g_comment h) [] Fc); [|by intros s; apply Hstr; right|exact Hat|lia..].
  rewrite bind_Done. match goal with |- check_hcrc _ _ _ _ ?p = _ => replace p with (src + zlen (gzip_fields h)) by lia end.
  unfold check_hcrc. rewrite Fh. unfold hcrc_bytes in *. destruct (g_hcrc h); [|do 2 f_equal; change (zlen []) with 0; lia].
  rewrite zlen_le_bytes in *. replace (src + zlen (gzip_fields h) - src) with (zlen (gzip_fields h)) by lia.
  rewrite (u32_small (zlen (gzip_fields h))) by lia.
  assert (negb (n =? 0) && (u32 (n - 2) <? zlen (gzip_fields h)) = false) as ->.
  { destruct Hn as [->|Hn]; [done|]. rewrite u32_small by lia. apply andb_false_iff. right. apply Z.ltb_ge. lia. }
  rewrite (read_le16_le _ _ _ _ Hrest), bind_Done by lia.
  rewrite tinf_crc32_reference, bind_Done by done. change 0xFFFF with (Z.ones 16). rewrite Z.land_ones by lia.
  cbn [andb]. destruct (hc =? _); cbn [negb]; [|done]. do 2 f_equal. rewrite u32_small; lia.
Qed.

(** A part of the source is a source. *)
Lemma buffers_part m dst destLen src pre bytes post :
  buffers m dst destLen src (pre ++ bytes ++ post) -> buffers m dst destLen (src + zlen pre) bytes.
Proof.
  intros [Hat Hb H0 Hlen Hend Hreg Hd0 Hdl Hdend Hap]. rewrite !zlen_app in *.
  pose proof (zlen_nonneg pre). pose proof (zlen_nonneg bytes). pose proof (zlen_nonneg post).
  apply bytes_at_app in Hat as [_ Hat]. apply bytes_at_app in Hat as [Hat _].
  apply Forall_app in Hb as [_ Hb]. apply Forall_app in Hb as [Hb _]. constructor; done || lia.
Qed.

(** The trailer is still there when the data has been written. *)
Lemma trailer_kept m dst destLen src pre bytes post out :
  buffers m dst destLen src (pre ++ bytes ++ post) -> zlen out <= destLen ->
  bytes_at (write_bytes m dst out) (src + (zlen pre + zlen bytes)) post.
Proof.
  intros [Hat Hb H0 Hlen Hend Hreg Hd0 Hdl Hdend Hap] Hout. rewrite !zlen_app in *.
  pose proof (zlen_nonneg pre). pose proof (zlen_nonneg bytes). pose proof (zlen_nonneg post).
  apply bytes_at_app in Hat as [_ Hat]. apply bytes_at_app in Hat as [_ Hat]. apply bytes_at_write_disj; [lia|].
  by replace (src + (zlen pre + zlen bytes)) with (src + zlen pre + zlen bytes) by lia.
Qed.

Lemma gzip_fields_length h : gzip_header_ok h -> 10 <= zlen (gzip_fields h).
Proof.
  intros (Hfix & _). unfold gzip_fields. rewrite !zlen_app. change (zlen [_; _; _; _]) with 4.
  pose proof (zlen_nonneg (extra_field (g_extra h))). pose proof (zlen_nonneg (string_field (g_name h))).
  pose proof (zlen_nonneg (string_field (g_comment h))). lia.
Qed.

Lemma gzip_uncompress_bytes fuel m dst destLen src h hc body crc len out b bs n :
  gzip_header_ok h -> 0 <= hc < 65536 -> 0 <= crc < 2 ^ 32 -> 0 <= len < 2 ^ 32 ->
  let file := gzip_bytes h hc body crc len in
  buffers m dst destLen src file -> deflated body b bs -> blocks_ok 0 [] b bs = true ->
  out = expand_blocks [] (b :: bs) -> zlen out <= destLen -> (inflate_fuel (zlen file) <= fuel)%nat ->
  0 < src -> n = zlen file \/ n = 0 ->
  tinf_gzip_uncompress fuel m dst destLen src n = Done (gzip_answer m dst destLen n h hc crc len out file).
Proof.
  intros Hh Hhc Hcrc Hlen32 file Hb Hd Hok Hout Hroom Hf Hsrc Hn. pose proof (gzip_fields_length h Hh) as Hfl.
  pose proof (zlen_nonneg (hcrc_bytes h hc)) as Hcl. set (hd := gzip_fields h ++ hcrc_bytes h hc) in *.
  set (post := le_bytes 4 crc ++ le_bytes 4 len) in *.
  assert (file = hd ++ body ++ post) as EF by (unfold hd, file, gzip_bytes; by rewrite <- app_assoc).
  assert (zlen hd = zlen (gzip_fields h) + zlen (hcrc_bytes h hc)) as Ehd by apply zlen_app.
  clearbody file. subst file. pose proof Hb as [Hat Hbytes H0 Hlen Hend Hreg Hd0 Hdl Hdend Hap].
  assert (zlen (hd ++ body ++ post) = zlen hd + zlen body + 8) as EL by (unfold post; rewrite !zlen_app, !zlen_le_bytes; lia).
  rewrite EL in *. pose proof (deflated_length _ _ _ Hd) as Hbody. pose proof (zlen_nonneg out). unfold inflate_fuel in Hf.
  destruct (uncompress_any_length fuel m dst destLen (src + zlen hd) body b bs (if n =? 0 then 0 else zlen body)
    (buffers_part _ _ _ _ _ _ _ Hb) Hd Hok) as [Hrun Houtb];
    [by rewrite <- Hout|unfold inflate_fuel; lia|lia|case_if; auto|]. rewrite <- Hout in Hrun, Houtb.
  pose proof (trailer_kept _ _ _ _ _ _ _ out Hb Hroom) as Htr. pose proof Htr as Htr2.
  apply bytes_at_app in Htr2 as [_ Htr2]. rewrite zlen_le_bytes in Htr2. rewrite <- (app_nil_r (le_bytes 4 len)) in Htr2.
  assert (bytes_at m (src + (zlen hd + zlen body + 4)) (le_bytes 4 len ++ [])) as Hdlen.
  { apply bytes_at_app in Hat as [_ Hat]. apply bytes_at_app in Hat as [_ Hat]. apply bytes_at_app in Hat as [_ Hat].
    rewrite zlen_le_bytes in Hat. rewrite app_nil_r. by replace (src + (zlen hd + zlen body + 4)) with (src + zlen hd + zlen body + Z.of_nat 4) by lia. }
  unfold tinf_gzip_uncompress, gzip_answer. rewrite EL.
  rewrite (check_header_spec m h src n (g_fixed h ++ extra_field (g_extra h) ++ string_field (g_name h) ++ string_field (g_comment h) ++ hcrc_bytes h hc ++ body ++ post)); [|
    unfold hd, gzip_fields in Hat; by rewrite <- !app_assoc in Hat|lia].
  rewrite bind_Done. rewrite (data_start_spec fuel m h hc src n (body ++ post)); [|done|done|by rewrite app_assoc|lia|fold hd; lia|fold hd; lia|].
  2: { unfold zlen in *. lia. }
  fold hd. rewrite bind_Done. destruct (g_hcrc h && negb (hc =? crc32 (gzip_fields h) mod 2 ^ 16)); [done|].
  assert ((if n =? 0 then Done 0 else read_le32 m (src + u32 (n - 4))) = Done (if n =? 0 then 0 else len)) as ->.
  { destruct (n =? 0) eqn:E; b2p; [done|]. rewrite u32_small by lia.
    replace (n - 4) with (zlen hd + zlen body + 4) by lia. rewrite (read_le32_le _ _ _ _ Hdlen) by lia. done. }
  rewrite bind_Done.
  assert (negb (n =? 0) && (destLen <? (if n =? 0 then 0 else len)) = negb (n =? 0) && (destLen <? len)) as -> by by destruct (n =? 0).
  destruct (negb (n =? 0) && (destLen <? len)); [done|].
  assert (negb (n =? 0) && (ptrdiff (src + n) (src + zlen hd) <? 8) = false) as ->.
  { destruct (n =? 0) eqn:E; b2p; [done|]. rewrite ptrdiff_small by lia. bdec. done. }
  assert ((if n =? 0 then 0 else u32 (src + n - (src + zlen hd) - 8)) = if n =? 0 then 0 else zlen body) as ->.
  { destruct (n =? 0) eqn:E; b2p; [done|]. rewrite u32_small; lia. }
  rewrite Hrun, bind_Done. cbn [u_res u_mem u_destLen u_sourceLen of_option].
  change (negb (TINF_OK =? TINF_OK)) with false. cbn iota. rewrite bind_Done.
  replace (src + zlen hd - src + 8) with (zlen hd + 8) by lia. rewrite (u32_small (zlen hd + 8)), (u32_small (zlen body + _)) by lia.
  assert (negb (n =? 0) && negb (n =? zlen body + (zlen hd + 8)) = false) as ->.
  { destruct Hn as [-> | ->]; [|done]. apply andb_false_iff. right. bdec. done. }
  rewrite (u32_small (zlen body + (zlen hd + 8) - 4)), (u32_small (zlen body + (zlen hd + 8) - 8)) by lia.
  replace (src + (zlen body + (zlen hd + 8) - 4)) with (src + (zlen hd + zlen body) + Z.of_nat 4) by lia.
  replace (zlen hd + zlen body + 8) with (zlen body + (zlen hd + 8)) by lia.
  rewrite (read_le32_le _ _ _ _ Htr2), bind_Done by lia. destruct (Z.eqb_spec len (zlen out)) as [-> | Hne].
  2: { destruct (Z.eqb_spec (zlen out) len); [congruence|]. done. }
  rewrite Z.eqb_refl. cbn [negb andb].
  replace (src + (zlen body + (zlen hd + 8) - 8)) with (src + (zlen hd + zlen body)) by lia.
  rewrite (read_le32_le _ _ _ _ Htr), bind_Done by done.
  rewrite tinf_crc32_reference by (apply bytes_at_write_eq; lia). rewrite bind_Done. by destruct (crc =? crc32 out).
Qed.

(** A file whose checks are right. *)
Lemma gzip_uncompress_file fuel m dst destLen src h body out b bs n :
  gzip_header_ok h -> buffers m dst destLen src (gzip_file h body out) -> deflated body b bs -> blocks_ok 0 [] b bs = true ->
  out = expand_blocks [] (b :: bs) -> zlen out <= destLen -> (inflate_fuel (zlen (gzip_file h body out)) <= fuel)%nat ->
  0 < src -> n = zlen (gzip_file h body out) \/ n = 0 ->
  tinf_gzip_uncompress fuel m dst destLen src n =
    Done (Uncompressed TINF_OK (zlen out) (Some (zlen (gzip_file h body out))) (write_bytes m dst out)).
Proof.
  intros Hh Hb Hd Hok Hout Hr Hf Hs Hn. pose proof (zlen_nonneg out). pose proof (bf_destLen _ _ _ _ _ Hb).
  assert (0 <= crc32 (gzip_fields h) mod 2 ^ 16 < 65536) as Hc by (change (2 ^ 16) with 65536; lia).
  assert (are_bytes out) as Hby.
  { pose proof Hb as Hb2. unfold gzip_file in Hb2, Hf. rewrite app_assoc in Hb2. apply buffers_part in Hb2.
    rewrite !zlen_app in Hf. pose proof (zlen_nonneg (gzip_fields h)). pose proof (zlen_nonneg (hcrc_field h)). pose proof (zlen_nonneg body).
    rewrite !zlen_le_bytes in Hf. rewrite zlen_app in Hb2. unfold inflate_fuel in Hf. rewrite Hout.
    apply (uncompress_any_length fuel m dst destLen _ body b bs 0 Hb2 Hd Hok); [by rewrite <- Hout|unfold inflate_fuel; lia|lia|by right]. }
  rewrite (gzip_uncompress_bytes fuel m dst destLen src h _ body (crc32 out) (zlen out) out b bs n Hh Hc); [|by apply crc32_range|lia|done..].
  unfold gzip_answer. rewrite !Z.eqb_refl, andb_false_r. replace (destLen <? zlen out) with false by (symmetry; apply Z.ltb_ge; lia).
  by rewrite andb_false_r.
Qed.
End gzip.

(** ** Theorems *)

(** C15: A file laid out as RFC 1952 has it, with any combination of the optional
    header fields, any DEFLATE stream of data that fit the output, and any values
    in its three checks, in memory that does not overlap the output, gets the answer [gzip_answer], whether the caller knows
    its length ([n]) or not ([n] zero, as for a payload): with a wrong header
    checksum it is refused and nothing is written; with a length in the trailer
    that is larger than the output, when the end is known, there is no room;
    otherwise exactly the data are written and the file is accepted, with its
    own length reported, if the CRC and the length in the trailer are those of
    the data, and is in error if one is not. *)
Theorem tinf_gzip_uncompress_file fuel m dst destLen src h hc body crc len b bs n :
  let out := expand_blocks [] (b :: bs) in
  let file := gzip_bytes h hc body crc len in
  gzip_header_ok h -> 0 <= hc < 65536 -> 0 <= crc < 2 ^ 32 -> 0 <= len < 2 ^ 32 ->
  buffers m dst destLen src file -> deflated body b bs -> blocks_ok 0 [] b bs = true ->
  zlen out <= destLen -> (inflate_fuel (zlen file) <= fuel)%nat -> 0 < src -> n = zlen file \/ n = 0 ->
  tinf_gzip_uncompress fuel m dst destLen src n = Done (gzip_answer m dst destLen n h hc crc len out file).
Proof. intros out file Hh Hhc Hc Hl Hb Hd Hok Hr Hf Hs Hn. by apply (gzip_uncompress_bytes fuel m dst destLen src h hc body crc len out b bs n). Qed.

(** The demonstration stream under the name "hi", with an extra field and a
    header checksum. *)
Definition demo_gzip_header : gzip_header :=
  GzipHeader false true (Some [7; 7; 7]) (Some (bytes_of "hi")) None [0; 0; 0; 0; 2; 3].

Definition demo_gzip : list Z := gzip_file demo_gzip_header demo_stream demo_data.

Definition demo_gzip_damaged : list Z :=
  gzip_bytes demo_gzip_header (crc32 (gzip_fields demo_gzip_header) mod 2 ^ 16) demo_stream (crc32 demo_data + 1) 17.

Lemma demo_deflated : deflated demo_stream demo_block demo_blocks /\ blocks_ok 0 [] demo_block demo_blocks = true.
Proof. split; [exists (replicate 5 false); split; [vm_compute; reflexivity|done]|vm_compute; reflexivity]. Qed.

Lemma demo_gzip_header_ok : gzip_header_ok demo_gzip_header.
Proof.
  split; [done|]. split; [concrete|]. split; [intros e [= <-]; split; [concrete|done]|].
  split; [intros s [= <-]; repeat constructor; (done || vm_compute; congruence)|done].
Qed.

Theorem tinf_gzip_uncompress_file_witness :
  let written f := write_bytes (demo_inflate_mem f) 0x8000 demo_data in
  tinf_gzip_uncompress (inflate_fuel 58) (demo_inflate_mem demo_gzip) 0x8000 20 0x1000 58 =
    Done (Uncompressed TINF_OK 17 (Some 58) (written demo_gzip)) /\
  tinf_gzip_uncompress (inflate_fuel 58) (demo_inflate_mem demo_gzip_damaged) 0x8000 20 0x1000 0 =
    Done (Uncompressed TINF_DATA_ERROR 17 (Some 58) (written demo_gzip_damaged)).
Proof.
  assert (expand_blocks [] (demo_block :: demo_blocks) = demo_data) as E by (vm_compute; reflexivity).
  set (hc := crc32 (gzip_fields demo_gzip_header) mod 2 ^ 16).
  assert (0 <= hc < 65536) as Hhc by (vm_compute; split; congruence).
  assert (forall f, f = demo_gzip \/ f = demo_gzip_damaged -> buffers (demo_inflate_mem f) 0x8000 20 0x1000 f) as Hb
    by (intros f [-> | ->]; (apply demo_buffers; [vm_compute; repeat constructor; congruence|by vm_compute])).
  split.
  - pose proof (tinf_gzip_uncompress_file (inflate_fuel 58) (demo_inflate_mem demo_gzip) 0x8000 20 0x1000
      demo_gzip_header hc demo_stream (crc32 demo_data) 17 demo_block demo_blocks 58) as Hw. cbv zeta in Hw. rewrite E in Hw.
    change (gzip_bytes demo_gzip_header hc demo_stream (crc32 demo_data) 17) with demo_gzip in Hw.
    rewrite Hw; [vm_compute; reflexivity|exact demo_gzip_header_ok|exact Hhc|vm_compute; split; congruence|done|by apply Hb; left|apply demo_deflated|apply demo_deflated|done|done|done|by left].
  - pose proof (tinf_gzip_uncompress_file (inflate_fuel 58) (demo_inflate_mem demo_gzip_damaged) 0x8000 20 0x1000
      demo_gzip_header hc demo_stream (crc32 demo_data + 1) 17 demo_block demo_blocks 0) as Hw. cbv zeta in Hw. rewrite E in Hw.
    change (gzip_bytes demo_gzip_header hc demo_stream (crc32 demo_data + 1) 17) with demo_gzip_damaged in Hw.
    rewrite Hw; [vm_compute; reflexivity|exact demo_gzip_header_ok|exact Hhc|vm_compute; split; congruence|done|by apply Hb; right|apply demo_deflated|apply demo_deflated|done|done|done|by right].
Defined.

(** A file of known length whose header leaves exactly the eight bytes of the
    trailer: the data length 0 means unknown to [tinf_uncompress], which takes
    the trailer for DEFLATE data and reads on behind the end of the file. *)
Definition short_gzip : list Z := [0x1F; 0x8B; 8; 0; 0; 0; 0; 0; 0; 3] ++ [0; 200; 0; 55; 255; 0; 0; 0].

Example gzip_reads_past_the_file :
  tinf_gzip_uncompress 100 (write_bytes (write_bytes ∅ 0x1000 short_gzip) 0x8000 (replicate 256 0)) 0x8000 256 0x1000 18 = Fault.
Proof. vm_compute. reflexivity. Qed.
