(* ===== verification/MinLz.v ===== *)
(** * The XZ decoder: buffers and the range decoder (src/minilzlib/)

    inputbuf.c, dictbuf.c and rangedec.c.  The library keeps its state in
    static structures, one per file; [minlz] holds all of them, and the memory
    with the input and the output.  The names are those of the C code.

    Out parameters are results.  A pointer into the bit model of the decoder is
    the index of the probability in [RawProbabilities]. *)
From S2P Require Import Prelude Machine.

(** ** State *)

(** BUFFER_STATE *)
Record BUFFER_STATE := In_ {
  In_Buffer : Z;
  In_Offset : Z;
  In_SoftLimit : Z;
  In_Size : Z;
}.

(** DICTIONARY_STATE *)
Record DICTIONARY_STATE := Dictionary_ {
  Dictionary_Buffer : Z;
  Dictionary_BufferSize : Z;
  Dictionary_Start : Z;
  Dictionary_Offset : Z;
  Dictionary_Limit : Z;
}.

(** RANGE_DECODER_STATE *)
Record RANGE_DECODER_STATE := RcState_ {
  Rc_Start : Z;
  Rc_Limit : Z;
  Rc_Range : Z;
  Rc_Code : Z;
}.

(** DECODER_STATE: a static assertion says that the members of the union [u]
    have the same size. *)
Record DECODER_STATE := Decoder_ {
  Sequence : Z;
  Rep0 : Z;
  Rep1 : Z;
  Rep2 : Z;
  Rep3 : Z;
  Len : Z;
  RawProbabilities : list Z;
}.

(** CONTAINER_STATE *)
Record CONTAINER_STATE := Container_ {
  HeaderSize : Z;
  IndexSize : Z;
  UncompressedBlockSize : Z;
  UnpaddedBlockSize : Z;
  ChecksumSize : Z;
}.

Record minlz := MinLz {
  mz_mem : mem;
  mz_In : BUFFER_STATE;
  mz_Dictionary : DICTIONARY_STATE;
  mz_RcState : RANGE_DECODER_STATE;
  mz_Decoder : DECODER_STATE;
  mz_Container : CONTAINER_STATE;
}.

#[global] Abbreviation LZ := (ST minlz).

Definition set_mem m s := MinLz m (mz_In s) (mz_Dictionary s) (mz_RcState s) (mz_Decoder s) (mz_Container s).
Definition set_In i s := MinLz (mz_mem s) i (mz_Dictionary s) (mz_RcState s) (mz_Decoder s) (mz_Container s).
Definition set_Dictionary d s := MinLz (mz_mem s) (mz_In s) d (mz_RcState s) (mz_Decoder s) (mz_Container s).
Definition set_RcState r s := MinLz (mz_mem s) (mz_In s) (mz_Dictionary s) r (mz_Decoder s) (mz_Container s).
Definition set_Decoder d s := MinLz (mz_mem s) (mz_In s) (mz_Dictionary s) (mz_RcState s) d (mz_Container s).
Definition set_Container c s := MinLz (mz_mem s) (mz_In s) (mz_Dictionary s) (mz_RcState s) (mz_Decoder s) c.

Definition set_Offset o i := In_ (In_Buffer i) o (In_SoftLimit i) (In_Size i).
Definition set_SoftLimit l i := In_ (In_Buffer i) (In_Offset i) l (In_Size i).
Definition set_DtOffset o d :=
  Dictionary_ (Dictionary_Buffer d) (Dictionary_BufferSize d) (Dictionary_Start d) o (Dictionary_Limit d).
Definition set_Range r c s := RcState_ (Rc_Start s) (Rc_Limit s) r c.

Definition stuck {A} : LZ A := fun _ => Stuck.

(** [*p] for a pointer to a byte. *)
Definition mz_load8 (p : Z) : LZ Z := fun s => b ← load8 (mz_mem s) p; Done (b, s).

(** [*p] for a pointer into the bit model. *)
Definition get_probability (i : Z) : LZ Z := fun s => p ← znth (RawProbabilities (mz_Decoder s)) i; Done (p, s).

Definition set_probabilities l d := Decoder_ (Sequence d) (Rep0 d) (Rep1 d) (Rep2 d) (Rep3 d) (Len d) l.

Definition set_probability (i p : Z) : LZ unit := fun s =>
  l ← zset (RawProbabilities (mz_Decoder s)) i p;
  Done (tt, set_Decoder (set_probabilities l (mz_Decoder s)) s).

(** ** inputbuf.c *)
Definition BfSetSoftLimit (Remaining : Z) : LZ bool :=
  i ← gets mz_In;
  if u32 (In_Size i - In_Offset i) <? Remaining then mret false else
  _ ← modify (set_In (set_SoftLimit (u32 (In_Offset i + Remaining)) i));
  mret true.

Definition BfResetSoftLimit : LZ unit :=
  modify (fun s => set_In (set_SoftLimit (In_Size (mz_In s)) (mz_In s)) s).

(** The result and [*Bytes]. *)
Definition BfSeek (Length : Z) : LZ (bool * Z) :=
  i ← gets mz_In;
  if In_SoftLimit i <? u32 (In_Offset i + Length) then mret (false, 0) else
  _ ← modify (set_In (set_Offset (u32 (In_Offset i + Length)) i));
  mret (true, u32 (In_Buffer i + In_Offset i)).

Definition BfTell : LZ Z := gets (fun s => In_Offset (mz_In s)).

(** The result and [*Byte]. *)
Definition BfRead : LZ (bool * Z) :=
  '(ok, pByte) ← BfSeek 1;
  if negb (ok : bool) then mret (false, 0) else
  Byte ← mz_load8 pByte;
  mret (true, Byte).

(** The loop ends after at most three bytes. *)
Fixpoint BfAlign_loop (n : nat) : LZ bool :=
  match n with
  | O => stuck
  | S n' =>
      i ← gets mz_In;
      if Z.land (In_Offset i) 3 =? 0 then mret true else
      '(ok, padByte) ← BfRead;
      if negb ok || negb (padByte =? 0) then mret false else
      BfAlign_loop n'
  end.
Definition BfAlign : LZ bool := BfAlign_loop 4.

Definition BfInitialize (InputBuffer InputSize : Z) : LZ unit :=
  modify (set_In (In_ InputBuffer 0 InputSize InputSize)).

(** ** dictbuf.c *)
Definition DtInitialize (HistoryBuffer Size : Z) : LZ unit :=
  modify (fun s => let d := mz_Dictionary s in
    set_Dictionary (Dictionary_ HistoryBuffer Size (Dictionary_Start d) 0 (Dictionary_Limit d)) s).

Definition DtSetLimit (Limit : Z) : LZ bool :=
  d ← gets mz_Dictionary;
  if Dictionary_BufferSize d <? u32 (Dictionary_Offset d + Limit) then mret false else
  _ ← modify (set_Dictionary (Dictionary_ (Dictionary_Buffer d) (Dictionary_BufferSize d) (Dictionary_Offset d)
                (Dictionary_Offset d) (u32 (Dictionary_Offset d + Limit))));
  mret true.

(** The result and [*BytesProcessed]. *)
Definition DtIsComplete : LZ (bool * Z) :=
  d ← gets mz_Dictionary;
  mret (Dictionary_Offset d =? Dictionary_Limit d, u32 (Dictionary_Offset d - Dictionary_Start d)).

(** The result and [*Position]. *)
Definition DtCanWrite : LZ (bool * Z) :=
  d ← gets mz_Dictionary;
  mret (Dictionary_Offset d <? Dictionary_Limit d, Dictionary_Offset d).

Definition DtGetSymbol (Distance : Z) : LZ Z :=
  d ← gets mz_Dictionary;
  if Dictionary_Offset d <? Distance then mret 0 else
  mz_load8 (Dictionary_Buffer d + u32 (Dictionary_Offset d - Distance)).

Definition DtPutSymbol (Symbol : Z) : LZ unit := fun s =>
  let d := mz_Dictionary s in
  m ← store8 (mz_mem s) (Dictionary_Buffer d + Dictionary_Offset d) Symbol;
  Done (tt, set_Dictionary (set_DtOffset (u32 (Dictionary_Offset d + 1)) d) (set_mem m s)).

(** The body runs once more than [n] says. *)
Fixpoint DtRepeatSymbol_loop (n : nat) (Distance : Z) : LZ unit :=
  b ← DtGetSymbol Distance;
  _ ← DtPutSymbol b;
  match n with O => mret tt | S n' => DtRepeatSymbol_loop n' Distance end.

Definition DtRepeatSymbol (Length Distance : Z) : LZ bool :=
  d ← gets mz_Dictionary;
  if (Dictionary_Limit d <? u32 (Length + Dictionary_Offset d)) || (Dictionary_Offset d <? Distance)
  then mret false else
  _ ← DtRepeatSymbol_loop (Z.to_nat (u32 (Length - 1))) Distance;
  mret true.

(** ** rangedec.c *)
Definition LZMA_RC_PROBABILITY_BITS : Z := 11.
Definition LZMA_RC_MAX_PROBABILITY : Z := Z.shiftl 1 LZMA_RC_PROBABILITY_BITS.
Definition k_LzmaRcHalfProbability : Z := LZMA_RC_MAX_PROBABILITY / 2.
Definition LZMA_RC_ADAPTATION_RATE_SHIFT : Z := 5.
Definition LZMA_RC_MIN_RANGE : Z := Z.shiftl 1 24.
Definition LZMA_RC_INIT_BYTES : Z := 5.

(** The initial code: [n] more bytes; what BfRead returns is not looked at. *)
Fixpoint RcInitialize_loop (n : nat) (Code : Z) : LZ Z :=
  match n with
  | O => mret Code
  | S n' =>
      '(_, rcByte) ← BfRead;
      RcInitialize_loop n' (Z.lor (u32 (Z.shiftl Code 8)) rcByte)
  end.

(** The result and [*ChunkSize]. *)
Definition RcInitialize (ChunkSize : Z) : LZ (bool * Z) :=
  '(ok, chunkEnd) ← BfSeek ChunkSize;
  if negb (ok : bool) then mret (false, ChunkSize) else
  _ ← BfSeek (u32 (- ChunkSize));
  Code ← RcInitialize_loop (Z.to_nat LZMA_RC_INIT_BYTES) 0;
  '(_, Start) ← BfSeek 0;
  _ ← modify (set_RcState (RcState_ Start (u32 (Start + ChunkSize)) (u32 (-1)) Code));
  mret (true, u16 (ChunkSize - LZMA_RC_INIT_BYTES)).

Definition RcCanRead : LZ bool :=
  '(_, pos) ← BfSeek 0;
  r ← gets mz_RcState;
  mret (pos <=? Rc_Limit r).

(** The result and [*BytesProcessed]. *)
Definition RcIsComplete : LZ (bool * Z) :=
  '(_, pos) ← BfSeek 0;
  r ← gets mz_RcState;
  mret (Rc_Code r =? 0, u32 (pos - Rc_Start r)).

Definition RcNormalize : LZ unit :=
  r ← gets mz_RcState;
  if Rc_Range r <? LZMA_RC_MIN_RANGE then
    '(_, rcByte) ← BfRead;
    modify (set_RcState (set_Range (u32 (Z.shiftl (Rc_Range r) 8)) (Z.lor (u32 (Z.shiftl (Rc_Code r) 8)) rcByte) r))
  else mret tt.

(** The new value of [*Probability]. *)
Definition RcAdapt (Miss : bool) (Probability : Z) : Z :=
  if Miss then u16 (Probability - Z.shiftr Probability LZMA_RC_ADAPTATION_RATE_SHIFT)
  else u16 (Probability + Z.shiftr (LZMA_RC_MAX_PROBABILITY - Probability) LZMA_RC_ADAPTATION_RATE_SHIFT).

Definition RcIsBitSet (Probability : Z) : LZ bool :=
  _ ← RcNormalize;
  p ← get_probability Probability;
  r ← gets mz_RcState;
  let bound := u32 (Z.shiftr (Rc_Range r) LZMA_RC_PROBABILITY_BITS * p) in
  let bit := negb (Rc_Code r <? bound) in
  _ ← modify (set_RcState (if bit then set_Range (u32 (Rc_Range r - bound)) (u32 (Rc_Code r - bound)) r
                           else set_Range bound (Rc_Code r) r));
  _ ← set_probability Probability (RcAdapt bit p);
  mret bit.

Definition RcIsFixedBitSet : LZ bool :=
  _ ← RcNormalize;
  r ← gets mz_RcState;
  let range := Z.shiftr (Rc_Range r) 1 in
  let bit := negb (Rc_Code r <? range) in
  _ ← modify (set_RcState (set_Range range (if bit then u32 (Rc_Code r - range) else Rc_Code r) r));
  mret bit.

(** [(symbol << 1) | bit] in 16 bits. *)
Definition push_bit (symbol : Z) (bit : bool) : Z := u16 (Z.lor (Z.shiftl symbol 1) (Z.b2z bit)).

(** The loop while [symbol < Limit]; the symbol doubles. *)
Fixpoint RcGetBitTree_loop (n : nat) (BitModel Limit symbol : Z) : LZ Z :=
  match n with
  | O => stuck
  | S n' =>
      if symbol <? Limit then
        bit ← RcIsBitSet (BitModel + symbol);
        RcGetBitTree_loop n' BitModel Limit (push_bit symbol bit)
      else mret symbol
  end.

Definition RcGetBitTree (BitModel Limit : Z) : LZ Z :=
  symbol ← RcGetBitTree_loop 16 BitModel Limit 1;
  mret (Z.land (symbol - Limit) 0xFF).

(** The rounds that are left, [i] and [result] being 8 bits wide. *)
Fixpoint RcGetReverseBitTree_loop (n : nat) (BitModel i symbol result : Z) : LZ Z :=
  match n with
  | O => mret result
  | S n' =>
      bit ← RcIsBitSet (BitModel + symbol);
      RcGetReverseBitTree_loop n' BitModel (u8 (i + 1)) (push_bit symbol bit)
        (u8 (Z.lor result (Z.shiftl (Z.b2z bit) i)))
  end.

Definition RcGetReverseBitTree (BitModel HighestBit : Z) : LZ Z :=
  RcGetReverseBitTree_loop (Z.to_nat HighestBit) BitModel 0 1 0.

Fixpoint RcDecodeMatchedBitTree_loop (n : nat) (BitModel bytePos symbol : Z) : LZ Z :=
  match n with
  | O => stuck
  | S n' =>
      if symbol <? 0x100 then
        let matchBit := Z.land (Z.shiftr bytePos 7) 1 in
        bit ← RcIsBitSet (BitModel + (symbol + 0x100 * (matchBit + 1)));
        let symbol := push_bit symbol bit in
        if negb (matchBit =? Z.b2z bit) then RcGetBitTree_loop 16 BitModel 0x100 symbol
        else RcDecodeMatchedBitTree_loop n' BitModel (u16 (Z.shiftl bytePos 1)) symbol
      else mret symbol
  end.

Definition RcDecodeMatchedBitTree (BitModel MatchByte : Z) : LZ Z :=
  symbol ← RcDecodeMatchedBitTree_loop 16 BitModel MatchByte 1;
  mret (Z.land symbol 0xFF).

(** The body runs once more than [n] says. *)
Fixpoint RcGetFixed_loop (n : nat) (symbol : Z) : LZ Z :=
  bit ← RcIsFixedBitSet;
  let symbol := Z.lor (u32 (Z.shiftl symbol 1)) (Z.b2z bit) in
  match n with O => mret symbol | S n' => RcGetFixed_loop n' symbol end.

Definition RcGetFixed (HighestBit : Z) : LZ Z := RcGetFixed_loop (Z.to_nat (u8 (HighestBit - 1))) 0.

Definition RcSetDefaultProbability (Probability : Z) : LZ unit := set_probability Probability k_LzmaRcHalfProbability.
