(* ===== verification/Lzma.v ===== *)
(** * The XZ decoder: LZMA packets (src/minilzlib/lzmadec.c, lzmadec.h)

    The bit model is a structure of arrays of 16-bit probabilities without
    padding; a member is the index of its first probability in
    [RawProbabilities], the other view of the union. *)
From S2P Require Import Prelude Machine MinLz.

(** ** lzmadec.h *)
Definition LZMA_LITERALS : Z := 256.
Definition LZMA_LC_TYPES : Z := 3.
Definition LZMA_LC_MODEL_SIZE : Z := LZMA_LC_TYPES * LZMA_LITERALS.
Definition LZMA_LC : Z := 3.
Definition LZMA_PB : Z := 2.
Definition LZMA_LP : Z := 0.
Definition LZMA_LITERAL_CODERS : Z := Z.shiftl 1 LZMA_LC.
Definition LZMA_POSITION_COUNT : Z := Z.shiftl 1 LZMA_PB.
Definition LZMA_MAX_LOW_LENGTH : Z := Z.shiftl 1 3.
Definition LZMA_MAX_MID_LENGTH : Z := Z.shiftl 1 3.
Definition LZMA_MAX_HIGH_LENGTH : Z := Z.shiftl 1 8.
Definition LZMA_MIN_LENGTH : Z := 2.
Definition LZMA_DISTANCE_SLOTS : Z := 64.
Definition LZMA_FIRST_CONTEXT_DISTANCE_SLOT : Z := 4.
Definition LZMA_FIRST_FIXED_DISTANCE_SLOT : Z := 14.
Definition LZMA_DISTANCE_ALIGN_BITS : Z := 4.
Definition LZMA_DISTANCE_ALIGN_SLOTS : Z := Z.shiftl 1 LZMA_DISTANCE_ALIGN_BITS.
Definition LZMA_BIT_MODEL_SLOTS : Z := 1174 + LZMA_LITERAL_CODERS * LZMA_LC_MODEL_SIZE.

(** LZMA_SEQUENCE_STATE: the code computes with its numbers. *)
Definition LzmaLitLitLitState : Z := 0.
Definition LzmaMatchLitLitState : Z := 1.
Definition LzmaRepLitLitState : Z := 2.
Definition LzmaLitShortrepLitLitState : Z := 3.
Definition LzmaMatchLitState : Z := 4.
Definition LzmaRepLitState : Z := 5.
Definition LzmaLitShortrepLitState : Z := 6.
Definition LzmaMaxLitState : Z := 7.
Definition LzmaLitMatchState : Z := 7.
Definition LzmaLitRepState : Z := 8.
Definition LzmaLitShortrepState : Z := 9.
Definition LzmaNonlitMatchState : Z := 10.
Definition LzmaNonlitRepState : Z := 11.
Definition LzmaMaxState : Z := 12.

(** ** The layout of LENGTH_DECODER_STATE and of DECODER_STATE *)
Definition Choice (LenState : Z) : Z := LenState.
Definition Choice2 (LenState : Z) : Z := Choice LenState + 1.
Definition Low (LenState PosBit : Z) : Z := Choice2 LenState + 1 + LZMA_MAX_LOW_LENGTH * PosBit.
Definition Mid (LenState PosBit : Z) : Z := Low LenState LZMA_POSITION_COUNT + LZMA_MAX_MID_LENGTH * PosBit.
Definition High (LenState : Z) : Z := Mid LenState LZMA_POSITION_COUNT.
(** [sizeof], in probabilities. *)
Definition LENGTH_DECODER_STATE_size : Z := High 0 + LZMA_MAX_HIGH_LENGTH.

Definition BM_Literal (i : Z) : Z := LZMA_LC_MODEL_SIZE * i.
Definition BM_Rep (Sequence : Z) : Z := BM_Literal LZMA_LITERAL_CODERS + Sequence.
Definition BM_Rep0 (Sequence : Z) : Z := BM_Rep LzmaMaxState + Sequence.
Definition BM_Rep0Long (Sequence PosBit : Z) : Z := BM_Rep0 LzmaMaxState + LZMA_POSITION_COUNT * Sequence + PosBit.
Definition BM_Rep1 (Sequence : Z) : Z := BM_Rep0Long LzmaMaxState 0 + Sequence.
Definition BM_Rep2 (Sequence : Z) : Z := BM_Rep1 LzmaMaxState + Sequence.
Definition BM_RepLen : Z := BM_Rep2 LzmaMaxState.
Definition BM_Match (Sequence PosBit : Z) : Z :=
  BM_RepLen + LENGTH_DECODER_STATE_size + LZMA_POSITION_COUNT * Sequence + PosBit.
Definition BM_DistSlot (i : Z) : Z := BM_Match LzmaMaxState 0 + LZMA_DISTANCE_SLOTS * i.
Definition BM_Dist (i : Z) : Z := BM_DistSlot LZMA_FIRST_CONTEXT_DISTANCE_SLOT + i.
Definition BM_Align : Z := BM_Dist (Z.shiftl 1 7 - LZMA_FIRST_FIXED_DISTANCE_SLOT).
Definition BM_MatchLen : Z := BM_Align + LZMA_DISTANCE_ALIGN_SLOTS.

(** [static_assert((LZMA_BIT_MODEL_SLOTS * 2) == sizeof(Decoder.u.BitModel))] *)
Example bit_model_size : LZMA_BIT_MODEL_SLOTS = BM_MatchLen + LENGTH_DECODER_STATE_size.
Proof. reflexivity. Qed.

(** ** The fields of the decoder *)
Definition set_Sequence x d := Decoder_ x (Rep0 d) (Rep1 d) (Rep2 d) (Rep3 d) (Len d) (RawProbabilities d).
Definition set_Rep0 x d := Decoder_ (Sequence d) x (Rep1 d) (Rep2 d) (Rep3 d) (Len d) (RawProbabilities d).
Definition set_Rep1 x d := Decoder_ (Sequence d) (Rep0 d) x (Rep2 d) (Rep3 d) (Len d) (RawProbabilities d).
Definition set_Rep2 x d := Decoder_ (Sequence d) (Rep0 d) (Rep1 d) x (Rep3 d) (Len d) (RawProbabilities d).
Definition set_Rep3 x d := Decoder_ (Sequence d) (Rep0 d) (Rep1 d) (Rep2 d) x (Len d) (RawProbabilities d).
Definition set_Len x d := Decoder_ (Sequence d) (Rep0 d) (Rep1 d) (Rep2 d) (Rep3 d) x (RawProbabilities d).

Definition get_Decoder {A} (f : DECODER_STATE -> A) : LZ A := gets (fun s => f (mz_Decoder s)).
Definition mod_Decoder (f : DECODER_STATE -> DECODER_STATE) : LZ unit :=
  modify (fun s => set_Decoder (f (mz_Decoder s)) s).

(** ** The sequence state *)
Definition k_LzSupportedProperties : Z := LZMA_PB * 45 + LZMA_LP * 9 + LZMA_LC.

(** The new state. *)
Definition LzSetLiteral (State : Z) : Z :=
  if State <=? LzmaLitShortrepLitLitState then LzmaLitLitLitState
  else if State <=? LzmaLitShortrepState then State - 3
  else State - 6.

Definition LzIsLiteral (State : Z) : bool := State <? LzmaMaxLitState.

Definition LzSetMatch (State : Z) : Z := if LzIsLiteral State then LzmaLitMatchState else LzmaNonlitMatchState.
Definition LzSetLongRep (State : Z) : Z := if LzIsLiteral State then LzmaLitRepState else LzmaNonlitRepState.
Definition LzSetShortRep (State : Z) : Z := if LzIsLiteral State then LzmaLitShortrepState else LzmaNonlitRepState.

Definition mod_Sequence (f : Z -> Z) : LZ unit := mod_Decoder (fun d => set_Sequence (f (Sequence d)) d).

(** ** Literals *)
Definition LzGetLiteralSlot : LZ Z :=
  symbol ← DtGetSymbol 1;
  mret (BM_Literal (Z.shiftr symbol (8 - LZMA_LC))).

Definition LzGetDistSlot : LZ Z :=
  len ← get_Decoder Len;
  mret (BM_DistSlot (if len <? LZMA_FIRST_CONTEXT_DISTANCE_SLOT + LZMA_MIN_LENGTH then u8 (len - LZMA_MIN_LENGTH)
                     else LZMA_FIRST_CONTEXT_DISTANCE_SLOT - 1)).

Definition LzDecodeLiteral : LZ unit :=
  probArray ← LzGetLiteralSlot;
  seq ← get_Decoder Sequence;
  symbol ← (if LzIsLiteral seq then RcGetBitTree probArray (Z.shiftl 1 8)
            else rep0 ← get_Decoder Rep0;
                 matchByte ← DtGetSymbol (u32 (rep0 + 1));
                 RcDecodeMatchedBitTree probArray matchByte);
  _ ← DtPutSymbol symbol;
  mod_Sequence LzSetLiteral.

(** ** Matches *)
Definition add_Len (n : Z) : LZ unit := mod_Decoder (fun d => set_Len (u32 (Len d + n)) d).

Definition LzDecodeLen (LenState PosBit : Z) : LZ unit :=
  _ ← mod_Decoder (set_Len LZMA_MIN_LENGTH);
  choice ← RcIsBitSet (Choice LenState);
  '(probArray, limit) ← (if choice : bool then
      choice2 ← RcIsBitSet (Choice2 LenState);
      if choice2 : bool then
        _ ← add_Len (LZMA_MAX_LOW_LENGTH + LZMA_MAX_MID_LENGTH);
        mret (High LenState, LZMA_MAX_HIGH_LENGTH)
      else
        _ ← add_Len LZMA_MAX_LOW_LENGTH;
        mret (Mid LenState PosBit, LZMA_MAX_MID_LENGTH)
    else mret (Low LenState PosBit, LZMA_MAX_LOW_LENGTH));
  n ← RcGetBitTree probArray limit;
  add_Len n.

Definition or_Rep0 (x : Z) : LZ unit := mod_Decoder (fun d => set_Rep0 (Z.lor (Rep0 d) x) d).

Definition LzDecodeMatch (PosBit : Z) : LZ unit :=
  _ ← LzDecodeLen BM_MatchLen PosBit;
  _ ← mod_Decoder (fun d => set_Rep3 (Rep2 d) d);
  _ ← mod_Decoder (fun d => set_Rep2 (Rep1 d) d);
  _ ← mod_Decoder (fun d => set_Rep1 (Rep0 d) d);
  probArray ← LzGetDistSlot;
  distSlot ← RcGetBitTree probArray LZMA_DISTANCE_SLOTS;
  _ ← (if distSlot <? LZMA_FIRST_CONTEXT_DISTANCE_SLOT then mod_Decoder (set_Rep0 distSlot)
       else
         let distBits := u8 (Z.shiftr distSlot 1 - 1) in
         _ ← mod_Decoder (set_Rep0 (u32 (Z.shiftl (Z.lor 2 (Z.land distSlot 1)) distBits)));
         '(probArray, distBits) ← (if distSlot <? LZMA_FIRST_FIXED_DISTANCE_SLOT then
             rep0 ← get_Decoder Rep0;
             mret (BM_Dist (u32 (rep0 - distSlot)), distBits)
           else
             n ← RcGetFixed (u8 (distBits - LZMA_DISTANCE_ALIGN_BITS));
             _ ← or_Rep0 (u32 (Z.shiftl n LZMA_DISTANCE_ALIGN_BITS));
             mret (BM_Align, LZMA_DISTANCE_ALIGN_BITS));
         n ← RcGetReverseBitTree probArray distBits;
         or_Rep0 n);
  mod_Sequence LzSetMatch.

Definition LzDecodeRepLen (PosBit : Z) (IsLongRep : bool) : LZ unit :=
  if IsLongRep then
    _ ← LzDecodeLen BM_RepLen PosBit;
    mod_Sequence LzSetLongRep
  else
    _ ← mod_Decoder (set_Len 1);
    mod_Sequence LzSetShortRep.

Definition LzDecodeRep0 (PosBit : Z) : LZ unit :=
  seq ← get_Decoder Sequence;
  bit ← RcIsBitSet (BM_Rep0Long seq PosBit);
  LzDecodeRepLen PosBit bit.

Definition LzDecodeLongRep (PosBit : Z) : LZ unit :=
  seq ← get_Decoder Sequence;
  bit1 ← RcIsBitSet (BM_Rep1 seq);
  newRep ← (if bit1 : bool then
      bit2 ← RcIsBitSet (BM_Rep2 seq);
      newRep ← (if bit2 : bool then
          newRep ← get_Decoder Rep3;
          _ ← mod_Decoder (fun d => set_Rep3 (Rep2 d) d);
          mret newRep
        else get_Decoder Rep2);
      _ ← mod_Decoder (fun d => set_Rep2 (Rep1 d) d);
      mret newRep
    else get_Decoder Rep1);
  _ ← mod_Decoder (fun d => set_Rep1 (Rep0 d) d);
  _ ← mod_Decoder (set_Rep0 newRep);
  LzDecodeRepLen PosBit true.

Definition LzDecodeRep (PosBit : Z) : LZ unit :=
  seq ← get_Decoder Sequence;
  bit ← RcIsBitSet (BM_Rep0 seq);
  if bit : bool then LzDecodeLongRep PosBit else LzDecodeRep0 PosBit.

(** ** The packet loop *)

(** One round: [false] when the match is refused. *)
Definition LzDecode_packet (position : Z) : LZ bool :=
  let posBit := Z.land position (LZMA_POSITION_COUNT - 1) in
  seq ← get_Decoder Sequence;
  bit ← RcIsBitSet (BM_Match seq posBit);
  if bit : bool then
    rep ← RcIsBitSet (BM_Rep seq);
    _ ← (if rep : bool then LzDecodeRep posBit else LzDecodeMatch posBit);
    len ← get_Decoder Len;
    rep0 ← get_Decoder Rep0;
    ok ← DtRepeatSymbol len (u32 (rep0 + 1));
    if negb (ok : bool) then mret false else
    _ ← mod_Decoder (set_Len 0);
    mret true
  else
    _ ← LzDecodeLiteral;
    mret true.

(** [n] bounds the packets.  [false] when a match was refused. *)
Fixpoint LzDecode_loop (n : nat) : LZ bool :=
  '(can, position) ← DtCanWrite;
  if negb (can : bool) then mret true else
  can ← RcCanRead;
  if negb (can : bool) then mret true else
  match n with
  | O => stuck
  | S n' =>
      ok ← LzDecode_packet position;
      if negb (ok : bool) then mret false else LzDecode_loop n'
  end.

Definition LzDecode (n : nat) : LZ bool :=
  ok ← LzDecode_loop n;
  if negb (ok : bool) then mret false else
  _ ← RcNormalize;
  len ← get_Decoder Len;
  mret (len =? 0).

(** ** Reset *)

(** Set the probabilities from [i] on, [n] of them. *)
Fixpoint LzResetState_loop (n : nat) (i : Z) : LZ unit :=
  match n with
  | O => mret tt
  | S n' => _ ← RcSetDefaultProbability i; LzResetState_loop n' (i + 1)
  end.

Definition LzResetState : LZ unit :=
  _ ← mod_Sequence (fun _ => LzmaLitLitLitState);
  _ ← mod_Decoder (fun d => set_Rep0 0 (set_Rep1 0 (set_Rep2 0 (set_Rep3 0 d))));
  LzResetState_loop (Z.to_nat LZMA_BIT_MODEL_SLOTS) 0.

Definition LzInitialize (Properties : Z) : LZ bool :=
  if negb (Properties =? k_LzSupportedProperties) then mret false else
  _ ← LzResetState;
  mret true.
