(* ===== verification/Xz.v ===== *)
(** * The XZ decoder: LZMA2 chunks and the container (lzma2dec.c, xzstream.c)

    The build checks the container (MINLZ_META_CHECKS) but computes no
    checksums (MINLZ_INTEGRITY_CHECKS is not defined).  Messages that are
    printed are left out. *)
From S2P Require Import Prelude Machine MinLz Lzma.

(** ** lzma2dec.h *)
Definition Lzma2NoReset : Z := 0.
Definition Lzma2SimpleReset : Z := 1.
Definition Lzma2PropertyReset : Z := 2.
Definition Lzma2FullReset : Z := 3.

(** LZMA2_CONTROL_BYTE, the members of the bit fields that are read. *)
Definition Common_IsLzma (Value : Z) : bool := Z.testbit Value 7.
Definition Lzma_ResetState (Value : Z) : Z := Z.land (Z.shiftr Value 5) 3.
Definition Lzma_RawSize (Value : Z) : Z := Z.land Value 31.

(** ** lzma2dec.c *)

(** The result and what is added to [*BytesProcessed]. *)
Definition Lz2DecodeChunk (n : nat) (RawSize CompressedSize : Z) : LZ (bool * Z) :=
  ok ← LzDecode n;
  if negb (ok : bool) then mret (false, 0) else
  '(ok, bytesProcessed) ← RcIsComplete;
  if negb ok || negb (bytesProcessed =? CompressedSize) then mret (false, 0) else
  '(ok, bytesProcessed) ← DtIsComplete;
  if negb ok || negb (bytesProcessed =? RawSize) then mret (false, 0) else
  mret (true, bytesProcessed).

(** [for (i = 0; i < rawSize; i++) DtPutSymbol(inBytes[i])], [n] rounds. *)
Fixpoint copy_raw (n : nat) (inBytes : Z) : LZ unit :=
  match n with
  | O => mret tt
  | S n' => b ← mz_load8 inBytes; _ ← DtPutSymbol b; copy_raw n' (inBytes + 1)
  end.

(** The sizes of a chunk: [rawSize] and [compressedSize]. *)
Definition chunk_sizes (controlByte inBytes : Z) : LZ (Z * Z) :=
  '(rawSize, compressedSize) ← (if Common_IsLzma controlByte then
      b2 ← mz_load8 (inBytes + 2);
      b3 ← mz_load8 (inBytes + 3);
      mret (Z.shiftl (Lzma_RawSize controlByte) 16, u16 (u16 (Z.shiftl b2 8) + (b3 + 1)))
    else mret (0, 0));
  b0 ← mz_load8 inBytes;
  b1 ← mz_load8 (inBytes + 1);
  mret (u32 (u32 (rawSize + Z.shiftl b0 8) + (b1 + 1)), compressedSize).

(** The reset that the control byte asks for. *)
Definition chunk_reset (controlByte : Z) : LZ bool :=
  let r := Lzma_ResetState controlByte in
  if (r =? Lzma2FullReset) || (r =? Lzma2PropertyReset) then
    '(ok, propertyByte) ← BfRead;
    if negb (ok : bool) then mret false else LzInitialize propertyByte
  else if r =? Lzma2SimpleReset then _ ← LzResetState; mret true
  else mret true.

(** How a round of the loop ends: the next chunk, or the end of the function. *)
Inductive chunk_end := NextChunk (BytesProcessed : Z) | StreamEnd (ok : bool) (BytesProcessed : Z).

(** A round: [n] bounds the packets of the chunk. *)
Definition Lz2DecodeStream_chunk (n : nat) (GetSizeOnly : bool) (BytesProcessed : Z) : LZ chunk_end :=
  let break := StreamEnd false BytesProcessed in
  '(ok, controlByte) ← BfRead;
  if negb (ok : bool) then mret break else
  if controlByte =? 0 then mret (StreamEnd true BytesProcessed) else
  '(ok, inBytes) ← BfSeek (if Common_IsLzma controlByte then 4 else 2);
  if negb (ok : bool) then mret break else
  '(rawSize, compressedSize) ← chunk_sizes controlByte inBytes;
  ok ← (if GetSizeOnly then mret true else DtSetLimit rawSize);
  if negb (ok : bool) then mret break else
  ok ← chunk_reset controlByte;
  if negb (ok : bool) then mret break else
  if GetSizeOnly then
    _ ← BfSeek (if Common_IsLzma controlByte then compressedSize else rawSize);
    mret (NextChunk (u32 (BytesProcessed + rawSize)))
  else if negb (Common_IsLzma controlByte) then
    '(ok, inBytes) ← BfSeek rawSize;
    if negb (ok : bool) then mret break else
    _ ← copy_raw (Z.to_nat rawSize) inBytes;
    mret (NextChunk (u32 (BytesProcessed + rawSize)))
  else
    ok ← BfSetSoftLimit compressedSize;
    if negb (ok : bool) then mret break else
    '(ok, compressedSize) ← RcInitialize compressedSize;
    if negb (ok : bool) then mret break else
    '(ok, bytesProcessed) ← Lz2DecodeChunk n rawSize compressedSize;
    if negb (ok : bool) then mret break else
    _ ← BfResetSoftLimit;
    mret (NextChunk (u32 (BytesProcessed + bytesProcessed))).

(** [k] bounds the chunks.  The result and [*BytesProcessed]. *)
Fixpoint Lz2DecodeStream_loop (n k : nat) (GetSizeOnly : bool) (BytesProcessed : Z) : LZ (bool * Z) :=
  match k with
  | O => stuck
  | S k' =>
      e ← Lz2DecodeStream_chunk n GetSizeOnly BytesProcessed;
      match e with
      | NextChunk b => Lz2DecodeStream_loop n k' GetSizeOnly b
      | StreamEnd ok b => mret (ok, b)
      end
  end.

Definition Lz2DecodeStream (n k : nat) (GetSizeOnly : bool) : LZ (bool * Z) :=
  Lz2DecodeStream_loop n k GetSizeOnly 0.

(** ** xzstream.h *)
Definition VLI_BYTES_MAX : Z := 4 * 8 / 7.
Definition XzCheckTypeNone : Z := 0.
Definition XzCheckTypeCrc32 : Z := 1.
Definition XzCheckTypeCrc64 : Z := 4.
Definition XzCheckTypeSha2 : Z := 10.

(** XZ_STREAM_HEADER: the flags, whose low byte is reserved. *)
Definition sizeof_XZ_STREAM_HEADER : Z := 12.
Definition sh_Flags : Z := 6.
(** XZ_STREAM_FOOTER. *)
Definition sizeof_XZ_STREAM_FOOTER : Z := 12.
Definition sf_BackwardSize : Z := 4.
Definition sf_Flags : Z := 8.
Definition sf_Magic : Z := 10.
Definition CheckType (Flags : Z) : Z := Z.land (Z.shiftr Flags 8) 15.
(** XZ_BLOCK_HEADER. *)
Definition sizeof_XZ_BLOCK_HEADER : Z := 12.
Definition bh_Size : Z := 0.
Definition bh_Flags : Z := 1.
Definition bh_LzmaFlags_Id : Z := 2.
Definition bh_LzmaFlags_Size : Z := 3.
Definition bh_LzmaFlags_Properties : Z := 4.
Definition DictionarySize (Properties : Z) : Z := Z.land Properties 63.

(** The character constants 'ZXz7' and 'ZY'. *)
Definition header_magic : Z := 0x5A587A37.
Definition footer_magic : Z := 0x5A59.

(** ** xzstream.c *)
Inductive XZ_DECODE_BLOCK_HEADER_RESULT := XzBlockHeaderFail | XzBlockHeaderSuccess | XzBlockHeaderNoBlock.

Definition k_XzLzma2FilterIdentifier : Z := 0x21.

Definition mz_load (n : nat) (p : Z) : LZ Z := fun s => v ← load_le n (mz_mem s) p; Done (v, s).
Definition get_Container {A} (f : CONTAINER_STATE -> A) : LZ A := gets (fun s => f (mz_Container s)).
Definition mod_Container (f : CONTAINER_STATE -> CONTAINER_STATE) : LZ unit :=
  modify (fun s => set_Container (f (mz_Container s)) s).
Definition set_HeaderSize x c :=
  Container_ x (IndexSize c) (UncompressedBlockSize c) (UnpaddedBlockSize c) (ChecksumSize c).
Definition set_IndexSize x c :=
  Container_ (HeaderSize c) x (UncompressedBlockSize c) (UnpaddedBlockSize c) (ChecksumSize c).
Definition set_UncompressedBlockSize x c :=
  Container_ (HeaderSize c) (IndexSize c) x (UnpaddedBlockSize c) (ChecksumSize c).
Definition set_UnpaddedBlockSize x c :=
  Container_ (HeaderSize c) (IndexSize c) (UncompressedBlockSize c) x (ChecksumSize c).
Definition set_ChecksumSize x c :=
  Container_ (HeaderSize c) (IndexSize c) (UncompressedBlockSize c) (UnpaddedBlockSize c) x.

(** The rounds of the loop: the bit position goes up by 7 from 7 and ends it
    at 28. *)
Fixpoint XzDecodeVli_loop (n : nat) (vliByte bitPos Vli : Z) : LZ (bool * Z) :=
  match n with
  | O => stuck
  | S n' =>
      if Z.land vliByte 0x80 =? 0 then mret (true, Vli) else
      '(ok, vliByte) ← BfRead;
      if negb (ok : bool) then mret (false, Vli) else
      if (bitPos =? 7 * VLI_BYTES_MAX) || (vliByte =? 0) then mret (false, Vli) else
      XzDecodeVli_loop n' vliByte (bitPos + 7) (Z.lor Vli (u32 (Z.shiftl (Z.land vliByte 0x7F) bitPos)))
  end.

(** The result and [*Vli]; [Vli] is what was there before. *)
Definition XzDecodeVli (Vli : Z) : LZ (bool * Z) :=
  '(ok, vliByte) ← BfRead;
  if negb (ok : bool) then mret (false, Vli) else
  XzDecodeVli_loop 5 vliByte 7 (Z.land vliByte 0x7F).

Definition XzDecodeIndex : LZ bool :=
  '(_, indexStart) ← BfSeek 0;
  '(ok, indexByte) ← BfRead;
  if negb ok || negb (indexByte =? 0) then mret false else
  '(ok, vli) ← XzDecodeVli 0;
  if negb ok || negb (vli =? 1) then mret false else
  '(ok, vli) ← XzDecodeVli vli;
  unpadded ← get_Container UnpaddedBlockSize;
  if negb ok || negb (unpadded =? vli) then mret false else
  '(ok, vli) ← XzDecodeVli vli;
  uncompressed ← get_Container UncompressedBlockSize;
  if negb ok || negb (uncompressed =? vli) then mret false else
  ok ← BfAlign;
  if negb ok then mret false else
  '(_, indexEnd) ← BfSeek 0;
  _ ← mod_Container (set_IndexSize (u32 (indexEnd - indexStart)));
  '(ok, _) ← BfSeek 4;
  mret ok.

(** The flags name a check that the decoder knows. *)
Definition known_flags (Flags : Z) : bool :=
  (Flags =? 0) || (CheckType Flags =? XzCheckTypeCrc32) || (CheckType Flags =? XzCheckTypeCrc64)
  || (CheckType Flags =? XzCheckTypeSha2) || (CheckType Flags =? XzCheckTypeNone).

Definition XzDecodeStreamFooter : LZ bool :=
  '(ok, streamFooter) ← BfSeek sizeof_XZ_STREAM_FOOTER;
  if negb (ok : bool) then mret false else
  magic ← mz_load 2 (streamFooter + sf_Magic);
  if negb (magic =? footer_magic) then mret false else
  flags ← mz_load 2 (streamFooter + sf_Flags);
  if negb (known_flags flags) then mret false else
  backward ← mz_load 4 (streamFooter + sf_BackwardSize);
  index_size ← get_Container IndexSize;
  if negb (index_size =? u32 (backward * 4)) then mret false else
  mret true.

(** The result and [*BlockSize]. *)
Definition XzDecodeBlock (n k : nat) (OutputBuffer : Z) : LZ (bool * Z) :=
  '(_, inputStart) ← BfSeek 0;
  '(ok, BlockSize) ← Lz2DecodeStream n k (OutputBuffer =? 0);
  if negb (ok : bool) then mret (false, BlockSize) else
  '(_, inputEnd) ← BfSeek 0;
  _ ← mod_Container (fun c => set_UnpaddedBlockSize (u32 (HeaderSize c + u32 (inputEnd - inputStart))) c);
  _ ← mod_Container (set_UncompressedBlockSize BlockSize);
  ok ← BfAlign;
  if negb ok then mret (false, BlockSize) else
  check ← get_Container ChecksumSize;
  '(ok, _) ← BfSeek check;
  if negb (ok : bool) then mret (false, BlockSize) else
  _ ← mod_Container (fun c => set_UnpaddedBlockSize (u32 (UnpaddedBlockSize c + ChecksumSize c)) c);
  mret (true, BlockSize).

Definition XzDecodeStreamHeader : LZ bool :=
  '(ok, streamHeader) ← BfSeek sizeof_XZ_STREAM_HEADER;
  if negb (ok : bool) then mret false else
  magic ← mz_load 4 (streamHeader + 1);
  if negb (magic =? header_magic) then mret false else
  magic0 ← mz_load8 streamHeader;
  if negb (magic0 =? 0xFD) then mret false else
  magic5 ← mz_load8 (streamHeader + 5);
  if negb (magic5 =? 0) then mret false else
  flags ← mz_load 2 (streamHeader + sh_Flags);
  if negb (known_flags flags) then mret false else
  let t := CheckType flags in
  _ ← mod_Container (set_ChecksumSize (if t =? 0 then 0 else Z.shiftl 4 ((t - 1) / 3)));
  mret true.

Definition XzDecodeBlockHeader : LZ XZ_DECODE_BLOCK_HEADER_RESULT :=
  '(ok, blockHeader) ← BfSeek sizeof_XZ_BLOCK_HEADER;
  if negb (ok : bool) then mret XzBlockHeaderFail else
  size ← mz_load8 (blockHeader + bh_Size);
  if size =? 0 then
    _ ← BfSeek (u32 (- sizeof_XZ_BLOCK_HEADER));
    mret XzBlockHeaderNoBlock
  else
  let header_size := u32 ((size + 1) * 4) in
  _ ← mod_Container (set_HeaderSize header_size);
  if negb (header_size =? sizeof_XZ_BLOCK_HEADER) then mret XzBlockHeaderFail else
  flags ← mz_load8 (blockHeader + bh_Flags);
  if negb (flags =? 0) then mret XzBlockHeaderFail else
  id ← mz_load8 (blockHeader + bh_LzmaFlags_Id);
  if negb (id =? k_XzLzma2FilterIdentifier) then mret XzBlockHeaderFail else
  fsize ← mz_load8 (blockHeader + bh_LzmaFlags_Size);
  if negb (fsize =? 1) then mret XzBlockHeaderFail else
  properties ← mz_load8 (blockHeader + bh_LzmaFlags_Properties);
  if 39 <? DictionarySize properties then mret XzBlockHeaderFail else
  mret XzBlockHeaderSuccess.

(** The end of XzDecode, the index and the footer: the result, [*InputSize]
    and [*OutputSize]. *)
Definition XzDecode_tail (InputSize OutputSize : Z) : LZ (bool * Z * Z) :=
  ok ← XzDecodeIndex;
  if negb (ok : bool) then mret (false, InputSize, OutputSize) else
  ok ← XzDecodeStreamFooter;
  if negb (ok : bool) then mret (false, InputSize, OutputSize) else
  tell ← BfTell;
  mret (true, if InputSize =? 0 then tell else InputSize, OutputSize).

(** The result, [*InputSize] and [*OutputSize]. *)
Definition XzDecode (n k : nat) (InputBuffer InputSize OutputBuffer OutputSize : Z) : LZ (bool * Z * Z) :=
  _ ← BfInitialize InputBuffer (if negb (InputSize =? 0) then InputSize else 2 ^ 32 - 1);
  _ ← DtInitialize OutputBuffer OutputSize;
  ok ← XzDecodeStreamHeader;
  if negb (ok : bool) then mret (false, InputSize, OutputSize) else
  r ← XzDecodeBlockHeader;
  match r with
  | XzBlockHeaderFail => mret (false, InputSize, OutputSize)
  | XzBlockHeaderNoBlock => XzDecode_tail InputSize 0
  | XzBlockHeaderSuccess =>
      '(ok, size) ← XzDecodeBlock n k OutputBuffer;
      if negb (ok : bool) then mret (false, InputSize, size) else XzDecode_tail InputSize size
  end.
