(* ===== verification/RangeCoder.v ===== *)
(** * Range coding: the encoder, and what the decoder of MinLz.v does with it

    A chunk of compressed data is the code of a list of decisions, each a bit
    with the probability in a slot of the model, or a bit without one.  The
    encoder [range_code] is the textbook one on unbounded integers: the number
    it computes is the lower end of the interval that the decisions select.

    [decodes e c ds x e'] says that the computation [c] reads the decisions [ds],
    returns [x], and changes what is not the range decoder from [e] to [e'].  It
    has a rule for each of the functions of rangedec.c; the files on top of this
    one compose them. *)
From S2P Require Import Prelude Machine MinLz.

(** ** Decisions and their code *)
Inductive decision :=
| Bit (slot : Z) (b : bool)
| Fixed (b : bool).

(** The probability of a zero, out of 2048, after a bit. *)
Definition adapt (b : bool) (p : Z) : Z := if b then p - p / 32 else p + (2048 - p) / 32.

Definition slot_prob (ps : list Z) (i : Z) : Z := nth (Z.to_nat i) ps 0.

Definition adapt_slot (d : decision) (ps : list Z) : list Z :=
  match d with Bit i b => <[Z.to_nat i := adapt b (slot_prob ps i)]> ps | Fixed _ => ps end.

Definition adapt_all (ds : list decision) (ps : list Z) : list Z := fold_left (fun ps d => adapt_slot d ps) ds ps.

Definition bit_of (d : decision) : bool := match d with Bit _ b => b | Fixed b => b end.

(** The part of a range that means a zero, and the part that is left after a
    decision: a bit without a probability drops the odd unit. *)
Definition low_part (d : decision) (r : Z) (ps : list Z) : Z :=
  match d with Bit i _ => r / 2048 * slot_prob ps i | Fixed _ => r / 2 end.

Definition taken (d : decision) (r : Z) (ps : list Z) : Z :=
  match d with Bit _ true => r - low_part d r ps | _ => low_part d r ps end.

(** Below [2 ^ 24] a range is brought up by a byte. *)
Definition norm_bytes (r : Z) : Z := if r <? 2 ^ 24 then 1 else 0.

(** The offset of the interval of [ds] in a range of [r], in units of
    [256 ^ - k], and [k], the number of bytes that are shifted in. *)
Fixpoint range_code (ds : list decision) (r : Z) (ps : list Z) : Z * Z :=
  let c := norm_bytes r in
  let r := r * 256 ^ c in
  match ds with
  | [] => (0, c)
  | d :: ds' =>
      let '(v, k) := range_code ds' (taken d r ps) (adapt_slot d ps) in
      ((if bit_of d then low_part d r ps * 256 ^ k else 0) + v, c + k)
  end.

(** Big-endian numbers. *)
Definition be_value (bs : list Z) : Z := le_value (rev bs).
Definition be_bytes (n : nat) (v : Z) : list Z := rev (le_bytes n v).

(** The bytes of a chunk: one that is ignored, four for the first code, and the
    bytes that are shifted in. *)
Definition range_bytes (ds : list decision) (ps : list Z) : list Z :=
  let '(v, k) := range_code ds (2 ^ 32 - 1) ps in 0 :: be_bytes (4 + Z.to_nat k) v.

(** Probabilities stay away from certainty. *)
Definition is_prob (p : Z) : Prop := 31 <= p <= 2017.
Definition probs_ok (ps : list Z) : Prop := Forall is_prob ps.

Definition decision_ok (n : Z) (d : decision) : Prop :=
  match d with Bit i _ => 0 <= i < n | Fixed _ => True end.

Section code.
Implicit Types (ds : list decision) (ps bs : list Z) (r v k : Z).

Lemma adapt_prob b p : is_prob p -> is_prob (adapt b p).
Proof. unfold is_prob, adapt. destruct b; lia. Qed.

Lemma slot_prob_lookup ps i : 0 <= i < zlen ps -> ps !! Z.to_nat i = Some (slot_prob ps i).
Proof.
  intros Hi. unfold slot_prob. destruct (nth_lookup_or_length ps (Z.to_nat i) 0) as [H|H]; [done|].
  exfalso. unfold zlen in Hi. lia.
Qed.

Lemma slot_prob_ok ps i : probs_ok ps -> 0 <= i < zlen ps -> is_prob (slot_prob ps i).
Proof. intros H Hi. eapply Forall_lookup_1; [exact H|by apply slot_prob_lookup]. Qed.

Lemma adapt_slot_ok d ps : probs_ok ps -> decision_ok (zlen ps) d -> probs_ok (adapt_slot d ps).
Proof.
  intros H Hd. destruct d as [i b|]; [|done]. apply Forall_insert; [done|].
  by apply adapt_prob, slot_prob_ok.
Qed.

Lemma adapt_slot_length d ps : zlen (adapt_slot d ps) = zlen ps.
Proof. destruct d; [|done]. unfold zlen. cbn. by rewrite length_insert. Qed.

Lemma adapt_all_app ds1 ds2 ps : adapt_all (ds1 ++ ds2) ps = adapt_all ds2 (adapt_all ds1 ps).
Proof. apply fold_left_app. Qed.

Lemma adapt_all_ok ds ps :
  probs_ok ps -> Forall (decision_ok (zlen ps)) ds -> probs_ok (adapt_all ds ps) /\ zlen (adapt_all ds ps) = zlen ps.
Proof.
  revert ps. induction ds as [|d ds IH]; intros ps Hp Hd; [done|]. inversion_clear Hd.
  cbn. rewrite <- (adapt_slot_length d ps). apply IH; [by apply adapt_slot_ok|]. by rewrite adapt_slot_length.
Qed.

(** The two parts of a range are neither empty nor all of it. *)
Lemma split_range r p :
  2 ^ 24 <= r < 2 ^ 32 -> is_prob p -> 2 ^ 16 <= r / 2048 * p /\ 2 ^ 16 <= r - r / 2048 * p.
Proof. unfold is_prob. intros Hr Hp. assert (8192 <= r / 2048) by lia. split; nia. Qed.

Lemma norm_range r : 2 ^ 16 <= r < 2 ^ 32 -> 2 ^ 24 <= r * 256 ^ norm_bytes r < 2 ^ 32.
Proof. unfold norm_bytes. intros. destruct (r <? 2 ^ 24) eqn:?; b2p; lia. Qed.

Lemma norm_bytes_big r : 2 ^ 24 <= r -> norm_bytes r = 0.
Proof. intros. unfold norm_bytes. by bdec. Qed.

(** Bringing the range up first changes nothing but the count of bytes. *)
Lemma range_code_norm ds r ps :
  2 ^ 16 <= r < 2 ^ 32 ->
  range_code ds r ps = let '(v, k) := range_code ds (r * 256 ^ norm_bytes r) ps in (v, norm_bytes r + k).
Proof.
  intros Hr. pose proof (norm_range r Hr) as Hn.
  destruct ds as [|d ds]; cbn [range_code]; rewrite (norm_bytes_big (r * 256 ^ norm_bytes r)) by lia.
  - f_equal. lia.
  - change (256 ^ 0) with 1. rewrite Z.mul_1_r. case_match. f_equal.
Qed.

Lemma norm_bytes_bounds r : 0 <= norm_bytes r <= 1.
Proof. unfold norm_bytes. case_if; lia. Qed.

Lemma low_part_bounds d r ps :
  2 ^ 24 <= r < 2 ^ 32 -> probs_ok ps -> decision_ok (zlen ps) d -> 2 ^ 16 <= low_part d r ps <= r - 2 ^ 16.
Proof.
  intros Hr Hp Hd. destruct d as [i b|b]; cbn [low_part] in *; [|lia].
  pose proof (split_range r _ Hr (slot_prob_ok ps i Hp Hd)). lia.
Qed.

Lemma taken_range d r ps :
  2 ^ 24 <= r < 2 ^ 32 -> probs_ok ps -> decision_ok (zlen ps) d ->
  2 ^ 16 <= taken d r ps < 2 ^ 32 /\ (if bit_of d then low_part d r ps else 0) + taken d r ps <= r.
Proof.
  intros Hr Hp Hd. pose proof (low_part_bounds d r ps Hr Hp Hd).
  destruct d as [i []|[]]; cbn [taken bit_of]; [lia..| |lia]. cbn [low_part] in *. lia.
Qed.

(** The code is a number in the range. *)
Lemma range_code_bounds ds r ps v k :
  2 ^ 16 <= r < 2 ^ 32 -> probs_ok ps -> Forall (decision_ok (zlen ps)) ds ->
  range_code ds r ps = (v, k) -> 0 <= k /\ 0 <= v < r * 256 ^ k.
Proof.
  revert r ps v k. induction ds as [|d ds IH]; intros r ps v k Hr Hp Hd; cbn [range_code];
    pose proof (norm_range r Hr) as Hn; pose proof (norm_bytes_bounds r).
  - intros [= <- <-]. lia.
  - inversion_clear Hd. pose proof (taken_range d _ ps Hn Hp ltac:(done)) as [Ht Hle].
    pose proof (low_part_bounds d _ ps Hn Hp ltac:(done)).
    destruct (range_code ds _ _) as [v' k'] eqn:E.
    apply IH in E as [Hk Hv]; [|done|by apply adapt_slot_ok|by rewrite adapt_slot_length].
    intros [= <- <-]. split; [lia|]. rewrite Z.pow_add_r, Z.mul_assoc by lia.
    assert (0 < 256 ^ k') by lia. destruct (bit_of d); nia.
Qed.
End code.

(** ** Big-endian numbers *)
Section big_endian.
Implicit Types (bs : list Z).

Lemma le_value_app bs1 bs2 : le_value (bs1 ++ bs2) = le_value bs1 + 256 ^ zlen bs1 * le_value bs2.
Proof.
  induction bs1 as [|b bs1 IH]; cbn [app le_value]; [change (256 ^ zlen (@nil Z)) with 1; lia|].
  rewrite IH, zlen_cons, Z.pow_add_r by (pose proof (zlen_nonneg bs1); lia). lia.
Qed.

Lemma zlen_rev {A} (l : list A) : zlen (rev l) = zlen l.
Proof. unfold zlen. by rewrite length_rev. Qed.

Lemma be_value_cons b bs : be_value (b :: bs) = b * 256 ^ zlen bs + be_value bs.
Proof. unfold be_value. cbn [rev]. rewrite le_value_app, zlen_rev. cbn [le_value]. lia. Qed.

Lemma be_value_app bs1 bs2 : be_value (bs1 ++ bs2) = be_value bs1 * 256 ^ zlen bs2 + be_value bs2.
Proof. unfold be_value. rewrite rev_app_distr, le_value_app, zlen_rev. lia. Qed.

Lemma be_value_range bs : are_bytes bs -> 0 <= be_value bs < 256 ^ zlen bs.
Proof.
  intros H. pose proof (le_value_range (rev bs)) as Hr. rewrite zlen_rev in Hr.
  rewrite Z.pow_mul_r in Hr by (pose proof (zlen_nonneg bs); lia). apply Hr. by apply Forall_rev.
Qed.

Lemma be_value_be_bytes n v : be_value (be_bytes n v) = v mod 256 ^ Z.of_nat n.
Proof. unfold be_value, be_bytes. rewrite rev_involutive, le_value_le_bytes, Z.pow_mul_r by lia. done. Qed.

Lemma zlen_be_bytes n v : zlen (be_bytes n v) = Z.of_nat n.
Proof. unfold be_bytes. by rewrite zlen_rev, zlen_le_bytes. Qed.

Lemma be_bytes_are_bytes n v : are_bytes (be_bytes n v).
Proof. apply Forall_rev, le_bytes_are_bytes. Qed.
End big_endian.

(** ** The decoder in step with the code *)
Section decoder.
Implicit Types (s e : minlz) (ds rest : list decision) (bs : list Z).
#[local] Abbreviation probs s := (RawProbabilities (mz_Decoder s)).

(** The bytes up to the soft limit. *)
Record unread s bs : Prop := {
  un_bytes : bytes_at (mz_mem s) (In_Buffer (mz_In s) + In_Offset (mz_In s)) bs;
  un_are_bytes : are_bytes bs;
  un_buffer : 0 <= In_Buffer (mz_In s);
  un_offset : 0 <= In_Offset (mz_In s);
  un_limit : In_Offset (mz_In s) + zlen bs = In_SoftLimit (mz_In s);
  un_end : In_Buffer (mz_In s) + In_SoftLimit (mz_In s) < 2 ^ 32;
}.

(** The decisions [ds] are what is left in the chunk. *)
Record rc_at s ds : Prop := {
  ra_probs : probs_ok (probs s);
  ra_ds : Forall (decision_ok (zlen (probs s))) ds;
  ra_range : 2 ^ 16 <= Rc_Range (mz_RcState s) < 2 ^ 32;
  ra_code : exists bs, unread s bs /\
    range_code ds (Rc_Range (mz_RcState s)) (probs s) = (Rc_Code (mz_RcState s) * 256 ^ zlen bs + be_value bs, zlen bs);
}.

(** What is not the range decoder. *)
Definition erase s : minlz :=
  MinLz (mz_mem s) (set_Offset 0 (mz_In s)) (mz_Dictionary s) (set_Range 0 0 (mz_RcState s))
    (set_probabilities [] (mz_Decoder s)) (mz_Container s).

Definition decodes {A} e (c : LZ A) ds (x : A) e' : Prop :=
  forall s rest, erase s = e -> rc_at s (ds ++ rest) ->
  exists s', c s = Done (x, s') /\ erase s' = e' /\ probs s' = adapt_all ds (probs s) /\ rc_at s' rest.

(** *** Composition *)
Lemma decodes_ret {A} e (x : A) : decodes e (mret x) [] x e.
Proof. intros s rest <- H. by exists s. Qed.

Lemma decodes_bind {A B} e (c : LZ A) ds1 a e1 (f : A -> LZ B) ds2 b e2 :
  decodes e c ds1 a e1 -> decodes e1 (f a) ds2 b e2 -> decodes e (c ≫= f) (ds1 ++ ds2) b e2.
Proof.
  intros H1 H2 s rest He Hr. rewrite <- app_assoc in Hr.
  destruct (H1 s _ He Hr) as (s1 & R1 & E1 & P1 & A1). destruct (H2 s1 _ E1 A1) as (s2 & R2 & E2 & P2 & A2).
  exists s2. rewrite (run_bind _ _ _ _ _ R1), adapt_all_app, <- P1. done.
Qed.

(** A step that reads nothing. *)
Lemma decodes_step {A B} e (c : LZ A) a e1 (f : A -> LZ B) ds b e2 :
  decodes e c [] a e1 -> decodes e1 (f a) ds b e2 -> decodes e (c ≫= f) ds b e2.
Proof. apply (decodes_bind e c []). Qed.

Lemma decodes_last {A B} e (c : LZ A) ds a e1 (f : A -> LZ B) b e2 :
  decodes e c ds a e1 -> decodes e1 (f a) [] b e2 -> decodes e (c ≫= f) ds b e2.
Proof. intros H1 H2. rewrite <- (app_nil_r ds). by eapply decodes_bind. Qed.

Lemma decodes_gets {A} e (g : minlz -> A) : (forall s, g (erase s) = g s) -> decodes e (gets g) [] (g e) e.
Proof. intros Hg s rest <- H. exists s. by rewrite Hg. Qed.

(** *** Reading bytes *)
Definition advance (n : Z) s : minlz := set_In (set_Offset (In_Offset (mz_In s) + n) (mz_In s)) s.

Lemma BfSeek_run n s :
  0 <= In_Offset (mz_In s) + n <= In_SoftLimit (mz_In s) -> In_SoftLimit (mz_In s) < 2 ^ 32 ->
  BfSeek n s = Done (true, u32 (In_Buffer (mz_In s) + In_Offset (mz_In s)), advance n s).
Proof. intros. unfold BfSeek. rewrite run_gets, u32_small by lia. bdec. by rewrite run_modify. Qed.

Lemma BfRead_run s b :
  In_Offset (mz_In s) < In_SoftLimit (mz_In s) < 2 ^ 32 -> 0 <= In_Offset (mz_In s) -> 
  load8 (mz_mem s) (u32 (In_Buffer (mz_In s) + In_Offset (mz_In s))) = Done b ->
  BfRead s = Done (true, b, advance 1 s).
Proof.
  intros ?? Hb. unfold BfRead. erewrite run_bind by (apply BfSeek_run; lia). cbn [negb].
  unfold mbind, ST_bind, mz_load8. cbn. by rewrite Hb.
Qed.

Lemma unread_cons s b bs :
  unread s (b :: bs) -> BfRead s = Done (true, b, advance 1 s) /\ unread (advance 1 s) bs.
Proof.
  intros []. pose proof (zlen_nonneg bs). rewrite zlen_cons in *. destruct un_bytes0 as [[Hb Ha] Hbs].
  inversion_clear un_are_bytes0. split.
  - apply BfRead_run; [lia|lia|]. rewrite u32_small by lia. by apply load8_lookup.
  - constructor; cbn; try done; try lia. by rewrite Z.add_assoc.
Qed.

(** *** Normalisation *)
Lemma lor_byte x b : is_byte b -> 0 <= x < 2 ^ 24 -> Z.lor (u32 (Z.shiftl x 8)) b = 256 * x + b.
Proof.
  unfold is_byte. intros Hb Hx. rewrite Z.shiftl_mul_pow2, u32_small by lia.
  rewrite Z.lor_comm, Z.mul_comm, lor_disjoint by lia. lia.
Qed.

Lemma RcNormalize_run s ds :
  rc_at s ds -> exists s', RcNormalize s = Done (tt, s') /\ erase s' = erase s /\ probs s' = probs s /\
    rc_at s' ds /\ 2 ^ 24 <= Rc_Range (mz_RcState s').
Proof.
  intros [Hp Hd Hr (bs & Hu & Hc)]. unfold RcNormalize. rewrite run_gets.
  change LZMA_RC_MIN_RANGE with (2 ^ 24). destruct (Rc_Range (mz_RcState s) <? 2 ^ 24) eqn:Hlt.
  - assert (norm_bytes (Rc_Range (mz_RcState s)) = 1) as Hn by (unfold norm_bytes; by rewrite Hlt).
    apply Z.ltb_lt in Hlt. change LZMA_RC_MIN_RANGE with (2 ^ 24) in Hlt.
    pose proof (range_code_norm ds _ (probs s) Hr) as Hcn. rewrite Hn, Hc in Hcn. change (256 ^ 1) with 256 in Hcn.
    destruct (range_code ds (Rc_Range _ * 256) _) as [v k] eqn:E. injection Hcn as Hv Hk.
    apply range_code_bounds in E as Hb; [|lia|done|done]. destruct Hb as [Hk0 Hv0].
    destruct bs as [|b bs]; [change (zlen (@nil Z)) with 0 in Hk; lia|].
    destruct (unread_cons _ _ _ Hu) as [R Hu']. erewrite run_bind by exact R. rewrite zlen_cons in Hk.
    assert (k = zlen bs) as -> by lia. pose proof (un_are_bytes _ _ Hu) as Hab. inversion_clear Hab.
    pose proof (be_value_range bs ltac:(done)).
    rewrite zlen_cons, be_value_cons in Hv. rewrite Z.pow_add_r in Hv by (pose proof (zlen_nonneg bs); lia).
    assert (0 <= Rc_Code (mz_RcState s) < 2 ^ 24). { unfold is_byte in *. nia. }
    rewrite lor_byte by done. rewrite Z.shiftl_mul_pow2, u32_small by lia.
    eexists. split; [reflexivity|]. split; [reflexivity|]. split; [reflexivity|]. split.
    + constructor; cbn; [done|done|lia|]. exists bs. split; [by destruct Hu'|].
      change (2 ^ 8) with 256. rewrite E. f_equal. rewrite <- Hv. change (256 ^ 1) with 256. ring.
    + cbn. lia.
  - apply Z.ltb_ge in Hlt.
    exists s. split; [done|]. split; [done|]. split; [done|]. split; [|done]. constructor; eauto.
Qed.

(** *** Bits *)

(** Comparing the code with the low part gives the bit, and leaves the code of
    what follows. *)
Lemma range_code_step d ds r ps c bs :
  2 ^ 24 <= r < 2 ^ 32 -> probs_ok ps -> Forall (decision_ok (zlen ps)) (d :: ds) -> are_bytes bs ->
  range_code (d :: ds) r ps = (c * 256 ^ zlen bs + be_value bs, zlen bs) ->
  bit_of d = negb (c <? low_part d r ps) /\
  range_code ds (taken d r ps) (adapt_slot d ps) =
    ((if bit_of d then c - low_part d r ps else c) * 256 ^ zlen bs + be_value bs, zlen bs).
Proof.
  intros Hr Hp Hd Hbs. inversion_clear Hd. cbn [range_code]. rewrite norm_bytes_big by lia.
  change (256 ^ 0) with 1. rewrite Z.mul_1_r. destruct (range_code ds _ _) as [v k] eqn:E.
  pose proof (taken_range d r ps Hr Hp ltac:(done)) as [Ht Hle].
  apply range_code_bounds in E as [Hk Hv]; [|done|by apply adapt_slot_ok|by rewrite adapt_slot_length].
  intros [= Hc Hn]. assert (k = zlen bs) as -> by lia. pose proof (be_value_range _ Hbs).
  assert (0 < 256 ^ zlen bs) by (pose proof (zlen_nonneg bs); lia).
  assert (low_part d r ps = taken d r ps \/ bit_of d = true) as Hlow by (destruct d as [? []|]; auto).
  destruct (bit_of d) eqn:Eb.
  - split; [symmetry; apply negb_true_iff, Z.ltb_ge; nia|]. f_equal. rewrite Z.mul_sub_distr_r. lia.
  - destruct Hlow as [Hlow|]; [|done]. split; [symmetry; apply negb_false_iff, Z.ltb_lt; nia|]. f_equal. lia.
Qed.

(** The code stays below the range. *)
Lemma rc_code_bounds s ds : rc_at s ds -> 0 <= Rc_Code (mz_RcState s) < Rc_Range (mz_RcState s).
Proof.
  intros [Hp Hd Hr (bs & Hu & Hc)]. apply range_code_bounds in Hc as [Hk Hv]; try done.
  pose proof (be_value_range bs (un_are_bytes _ _ Hu)). nia.
Qed.

(** The state after a decision. *)
Lemma rc_at_step s d ds r c ps :
  rc_at s (d :: ds) -> 2 ^ 24 <= Rc_Range (mz_RcState s) ->
  r = taken d (Rc_Range (mz_RcState s)) (probs s) -> ps = adapt_slot d (probs s) ->
  c = (if bit_of d then Rc_Code (mz_RcState s) - low_part d (Rc_Range (mz_RcState s)) (probs s)
       else Rc_Code (mz_RcState s)) ->
  rc_at (set_Decoder (set_probabilities ps (mz_Decoder s)) (set_RcState (set_Range r c (mz_RcState s)) s)) ds.
Proof.
  intros [Hp Hd HR (bs & Hu & Hc)] HN -> -> ->. pose proof (un_are_bytes _ _ Hu) as Hb.
  destruct (range_code_step d ds _ _ _ bs (conj HN (proj2 HR)) Hp Hd Hb Hc) as [Hbit Hc']. inversion_clear Hd.
  constructor; cbn.
  - by apply adapt_slot_ok.
  - by rewrite adapt_slot_length.
  - by apply taken_range; [lia|..].
  - exists bs. split; [by destruct Hu|]. done.
Qed.

Lemma RcAdapt_adapt b p : is_prob p -> RcAdapt b p = adapt b p.
Proof.
  unfold is_prob, RcAdapt, adapt. intros Hp. change LZMA_RC_MAX_PROBABILITY with 2048.
  unfold LZMA_RC_ADAPTATION_RATE_SHIFT. rewrite !Z.shiftr_div_pow2 by lia. change (2 ^ 5) with 32.
  destruct b; apply wrap_small; change (2 ^ 16) with 65536; lia.
Qed.

Lemma decodes_bit e i b : decodes e (RcIsBitSet i) [Bit i b] b e.
Proof.
  intros s rest <- H0. destruct (RcNormalize_run _ _ H0) as (s1 & R & E & P & H & HN). cbn [app] in *.
  unfold RcIsBitSet. rewrite (run_bind _ _ _ _ _ R). pose proof H as [Hp Hd _ (bs & Hu & Hc)].
  pose proof (ra_range _ _ H) as HR. inversion Hd as [|? ? Hi _]. cbn in Hi. subst.
  assert (get_probability i s1 = Done (slot_prob (probs s1) i, s1)) as G.
  { unfold get_probability. replace (znth _ _) with (Done (slot_prob (probs s1) i)); [done|].
    symmetry. apply znth_Done. split; [lia|]. by apply slot_prob_lookup. }
  rewrite (run_bind _ _ _ _ _ G), run_gets.
  pose proof (slot_prob_ok _ i Hp Hi) as Hs. pose proof (split_range _ _ (conj HN (proj2 HR)) Hs).
  pose proof (rc_code_bounds _ _ H). unfold LZMA_RC_PROBABILITY_BITS.
  rewrite Z.shiftr_div_pow2 by lia. change (2 ^ 11) with 2048. rewrite (u32_small (_ / _ * _)) by lia.
  set (low := Rc_Range (mz_RcState s1) / 2048 * slot_prob (probs s1) i) in *.
  destruct (range_code_step (Bit i b) rest _ _ _ bs (conj HN (proj2 HR)) Hp Hd (un_are_bytes _ _ Hu) Hc) as [Hbit _].
  cbn [bit_of low_part] in Hbit. fold low in Hbit. rewrite <- Hbit. rewrite run_modify.
  rewrite RcAdapt_adapt by done. unfold set_probability. unfold mbind, ST_bind. cbn [mz_Decoder set_RcState].
  rewrite zset_Done by done. rewrite bind_Done. cbn. eexists. split; [reflexivity|].
  split; [by rewrite <- E; destruct b|]. split; [by rewrite P|].
  replace (if b then _ else _) with (set_Range (taken (Bit i b) (Rc_Range (mz_RcState s1)) (probs s1))
      (if b then Rc_Code (mz_RcState s1) - low else Rc_Code (mz_RcState s1)) (mz_RcState s1)).
  - by eapply rc_at_step.
  - unfold taken, low_part. destruct b; cbn [negb] in *; fold low; [|done].
    symmetry in Hbit. b2p. by rewrite !u32_small by lia.
Qed.

Lemma decodes_fixed e b : decodes e RcIsFixedBitSet [Fixed b] b e.
Proof.
  intros s rest <- H0. destruct (RcNormalize_run _ _ H0) as (s1 & R & E & P & H & HN). cbn [app] in *.
  unfold RcIsFixedBitSet. rewrite (run_bind _ _ _ _ _ R), run_gets. pose proof H as [Hp Hd _ (bs & Hu & Hc)].
  pose proof (ra_range _ _ H) as HR. pose proof (rc_code_bounds _ _ H).
  destruct (range_code_step (Fixed b) rest _ _ _ bs (conj HN (proj2 HR)) Hp Hd (un_are_bytes _ _ Hu) Hc) as [Hbit _].
  rewrite Z.shiftr_div_pow2 by lia. change (2 ^ 1) with 2. cbn [bit_of low_part] in Hbit. rewrite <- Hbit, run_modify.
  eexists. split; [reflexivity|]. split; [done|]. split; [done|].
  replace (if b then u32 _ else _) with (if b then Rc_Code (mz_RcState s1) - Rc_Range (mz_RcState s1) / 2 else Rc_Code (mz_RcState s1)).
  - pose proof (rc_at_step s1 (Fixed b) rest _ _ _ H HN eq_refl eq_refl eq_refl) as Hs. by destruct s1 as [? ? ? ? []].
  - destruct b; [|done]. symmetry in Hbit. b2p. by rewrite u32_small by lia.
Qed.
End decoder.

(** ** Symbols as decisions *)

(** The [n] low bits of [v], the highest first, in the tree at [base]. *)
Fixpoint tree (n : nat) (base node v : Z) : list decision :=
  match n with
  | O => []
  | S n' => let b := Z.testbit v (Z.of_nat n') in Bit (base + node) b :: tree n' base (2 * node + Z.b2z b) v
  end.

(** The lowest bit first. *)
Fixpoint rev_tree (n : nat) (base node v : Z) : list decision :=
  match n with
  | O => []
  | S n' => let b := Z.odd v in Bit (base + node) b :: rev_tree n' base (2 * node + Z.b2z b) (v / 2)
  end.

(** As long as the bits are those of [m], the trees for a match byte. *)
Fixpoint matched_tree (n : nat) (base node m v : Z) : list decision :=
  match n with
  | O => []
  | S n' =>
      let mb := Z.testbit m (Z.of_nat n') in
      let b := Z.testbit v (Z.of_nat n') in
      Bit (base + (node + 0x100 * (Z.b2z mb + 1))) b ::
      (if eqb mb b then matched_tree n' base (2 * node + Z.b2z b) m v else tree n' base (2 * node + Z.b2z b) v)
  end.

Fixpoint fixed_bits (n : nat) (v : Z) : list decision :=
  match n with
  | O => []
  | S n' => Fixed (Z.testbit v (Z.of_nat n')) :: fixed_bits n' v
  end.

Section symbols.
Implicit Types (e : minlz) (base node v m : Z).

Lemma lor_bit x b : Z.lor (Z.shiftl x 1) (Z.b2z b) = 2 * x + Z.b2z b.
Proof.
  rewrite Z.shiftl_mul_pow2 by lia. rewrite Z.lor_comm, Z.mul_comm. change (2 ^ 1 * x) with (2 ^ 1 * x).
  rewrite lor_disjoint by (destruct b; cbn; lia). lia.
Qed.

Lemma push_bit_small x b : 0 <= x < 2 ^ 15 -> push_bit x b = 2 * x + Z.b2z b.
Proof. intros. unfold push_bit. rewrite lor_bit. apply wrap_small. destruct b; cbn; lia. Qed.

(** Taking the highest of [n + 1] bits. *)
Lemma high_bit v n :
  v mod 2 ^ Z.of_nat (S n) = Z.b2z (Z.testbit v (Z.of_nat n)) * 2 ^ Z.of_nat n + v mod 2 ^ Z.of_nat n.
Proof.
  rewrite Z.testbit_spec' by lia. rewrite Nat2Z.inj_succ, Z.pow_succ_r by lia.
  rewrite (Z.mul_comm 2), Z.rem_mul_r by lia. lia.
Qed.

Lemma pow2_S n : 2 ^ Z.of_nat (S n) = 2 * 2 ^ Z.of_nat n.
Proof. rewrite Nat2Z.inj_succ, Z.pow_succ_r by lia. done. Qed.

Lemma decodes_tree_loop e n fuel base Limit node v :
  (n < fuel)%nat -> 0 < Limit <= 2 ^ 14 -> Limit <= node * 2 ^ Z.of_nat n -> (node + 1) * 2 ^ Z.of_nat n <= 2 * Limit ->
  decodes e (RcGetBitTree_loop fuel base Limit node) (tree n base node v)
    (node * 2 ^ Z.of_nat n + v mod 2 ^ Z.of_nat n) e.
Proof.
  revert fuel node. induction n as [|n IH]; intros [|fuel] node Hf HL Hn Hn'; try lia; cbn [RcGetBitTree_loop tree].
  - change (2 ^ Z.of_nat 0) with 1 in *. rewrite Z.mod_1_r. bdec. rewrite Z.mul_1_r, Z.add_0_r. apply decodes_ret.
  - rewrite pow2_S in *. assert (0 < 2 ^ Z.of_nat n) by lia.
    assert (node < Limit) by nia. assert (0 <= node) by nia. bdec.
    eapply (decodes_bind _ _ [_]); [apply decodes_bit|]. rewrite push_bit_small by lia.
    rewrite <- pow2_S, high_bit, pow2_S.
    replace (node * (2 * 2 ^ Z.of_nat n) + _) with
      ((2 * node + Z.b2z (Z.testbit v (Z.of_nat n))) * 2 ^ Z.of_nat n + v mod 2 ^ Z.of_nat n) by ring.
    apply IH; [lia|done|destruct (Z.testbit v _); cbn [Z.b2z]; lia..].
Qed.

Lemma land_low x n : 0 <= n -> Z.land x (2 ^ n - 1) = x mod 2 ^ n.
Proof. intros. replace (2 ^ n - 1) with (Z.ones n) by (rewrite Z.ones_equiv; lia). by apply Z.land_ones. Qed.

Lemma decodes_tree e n base v :
  (n <= 8)%nat -> 0 <= v < 2 ^ Z.of_nat n ->
  decodes e (RcGetBitTree base (2 ^ Z.of_nat n)) (tree n base 1 v) v e.
Proof.
  intros Hn Hv. assert (2 ^ Z.of_nat n <= 2 ^ 8) by (apply Z.pow_le_mono_r; lia).
  unfold RcGetBitTree. eapply decodes_last; [apply decodes_tree_loop; lia|].
  rewrite Z.mod_small by lia. change 0xFF with (2 ^ 8 - 1). rewrite land_low by lia.
  replace (_ mod 2 ^ 8) with v by (rewrite Z.mod_small; lia). apply decodes_ret.
Qed.

Lemma decodes_rev_loop e n base i node v result :
  0 <= i -> i + Z.of_nat n <= 8 -> 0 <= node -> (node + 1) * 2 ^ Z.of_nat n <= 2 ^ 15 -> 0 <= result < 2 ^ i ->
  decodes e (RcGetReverseBitTree_loop n base i node result) (rev_tree n base node v)
    (result + 2 ^ i * (v mod 2 ^ Z.of_nat n)) e.
Proof.
  revert i node v result. induction n as [|n IH]; intros i node v result Hi Hin Hnode Hn Hr;
    cbn [RcGetReverseBitTree_loop rev_tree].
  - change (2 ^ Z.of_nat 0) with 1. rewrite Z.mod_1_r, Z.mul_0_r, Z.add_0_r. apply decodes_ret.
  - rewrite pow2_S in *. assert (0 < 2 ^ Z.of_nat n) by lia.
    eapply (decodes_bind _ _ [_]); [apply decodes_bit|].
    assert (2 ^ (i + 1) <= 2 ^ 8) by (apply Z.pow_le_mono_r; lia). rewrite Z.pow_add_r in * by lia. change (2 ^ 1) with 2 in *.
    rewrite push_bit_small by nia. rewrite (wrap_small 8 (i + 1)) by lia.
    assert (Z.lor result (Z.shiftl (Z.b2z (Z.odd v)) i) = result + 2 ^ i * Z.b2z (Z.odd v)) as ->
      by (rewrite Z.shiftl_mul_pow2, (Z.mul_comm _ (2 ^ i)) by lia; by apply lor_disjoint).
    assert (0 <= Z.b2z (Z.odd v) <= 1) by (destruct (Z.odd v); cbn; lia).
    rewrite (wrap_small 8 (_ + _)) by (change (2 ^ 8) with 256 in *; nia).
    assert (v = Z.b2z (Z.odd v) + 2 * (v / 2)) as Hv by (rewrite <- Z.bit0_odd, Z.bit0_mod; lia).
    replace (result + 2 ^ i * (v mod (2 * 2 ^ Z.of_nat n))) with
      (result + 2 ^ i * Z.b2z (Z.odd v) + 2 ^ (i + 1) * ((v / 2) mod 2 ^ Z.of_nat n)).
    + apply IH; [lia|lia|lia|nia|]. rewrite Z.pow_add_r by lia. change (2 ^ 1) with 2. nia.
    + rewrite Z.rem_mul_r by lia. rewrite Z.pow_add_r by lia. change (2 ^ 1) with 2.
      rewrite (Zmod_odd v). destruct (Z.odd v); cbn; ring.
Qed.

Lemma decodes_rev_tree e n base v :
  (n <= 8)%nat -> 0 <= v < 2 ^ Z.of_nat n ->
  decodes e (RcGetReverseBitTree base (Z.of_nat n)) (rev_tree n base 1 v) v e.
Proof.
  intros Hn Hv. assert (2 ^ Z.of_nat n <= 2 ^ 8) by (apply Z.pow_le_mono_r; lia).
  unfold RcGetReverseBitTree. rewrite Nat2Z.id.
  replace v with (0 + 2 ^ 0 * (v mod 2 ^ Z.of_nat n)) at 2 by (rewrite Z.mod_small; lia).
  apply decodes_rev_loop; lia.
Qed.

Lemma testbit_shift7 m n :
  (n < 8)%nat -> Z.land (Z.shiftr (m * 2 ^ Z.of_nat (7 - n)) 7) 1 = Z.b2z (Z.testbit m (Z.of_nat n)).
Proof.
  intros Hn. change 1 with (2 ^ 1 - 1). rewrite land_low by lia. change (2 ^ 1) with 2.
  rewrite Z.testbit_spec', Z.shiftr_div_pow2 by lia. f_equal.
  replace 7 with (Z.of_nat n + Z.of_nat (7 - n)) by lia. rewrite Z.pow_add_r by lia.
  replace (Z.of_nat n + Z.of_nat (7 - n) - Z.of_nat n) with (Z.of_nat (7 - n)) by lia.
  by rewrite Z.div_mul_cancel_r by lia.
Qed.

Lemma decodes_matched_loop e n fuel base node m v :
  (n < fuel)%nat -> (n <= 8)%nat -> 0 <= m < 256 -> 2 ^ 8 <= node * 2 ^ Z.of_nat n -> (node + 1) * 2 ^ Z.of_nat n <= 2 * 2 ^ 8 ->
  decodes e (RcDecodeMatchedBitTree_loop fuel base (m * 2 ^ Z.of_nat (8 - n)) node) (matched_tree n base node m v)
    (node * 2 ^ Z.of_nat n + v mod 2 ^ Z.of_nat n) e.
Proof.
  revert fuel node. induction n as [|n IH]; intros [|fuel] node Hf Hn8 Hm Hn Hn'; try lia;
    cbn [RcDecodeMatchedBitTree_loop matched_tree].
  - change (2 ^ Z.of_nat 0) with 1 in *. rewrite Z.mod_1_r. bdec. rewrite Z.mul_1_r, Z.add_0_r. apply decodes_ret.
  - rewrite pow2_S in *. assert (0 < 2 ^ Z.of_nat n) by lia. assert (node < 256) by nia. assert (0 <= node) by nia. bdec.
    replace (8 - S n)%nat with (7 - n)%nat by lia. rewrite testbit_shift7 by lia.
    eapply (decodes_bind _ _ [_]); [apply decodes_bit|]. rewrite push_bit_small by lia.
    rewrite <- pow2_S, high_bit, pow2_S. set (b := Z.testbit v (Z.of_nat n)) in *.
    replace (node * (2 * 2 ^ Z.of_nat n) + _) with ((2 * node + Z.b2z b) * 2 ^ Z.of_nat n + v mod 2 ^ Z.of_nat n) by ring.
    assert (2 ^ 8 <= (2 * node + Z.b2z b) * 2 ^ Z.of_nat n) by (destruct b; cbn [Z.b2z]; lia).
    assert ((2 * node + Z.b2z b + 1) * 2 ^ Z.of_nat n <= 2 * 2 ^ 8) by (destruct b; cbn [Z.b2z]; lia).
    replace (negb (Z.b2z (Z.testbit m (Z.of_nat n)) =? Z.b2z b)) with (negb (eqb (Z.testbit m (Z.of_nat n)) b))
      by (by destruct (Z.testbit m _), b).
    destruct (eqb _ b); cbn [negb].
    + replace (u16 _) with (m * 2 ^ Z.of_nat (8 - n)); [apply IH; lia|].
      replace (8 - n)%nat with (S (7 - n)) by lia. rewrite pow2_S, Z.shiftl_mul_pow2 by lia. change (2 ^ 1) with 2.
      assert (2 ^ Z.of_nat (7 - n) <= 2 ^ 7) by (apply Z.pow_le_mono_r; lia).
      assert (0 < 2 ^ Z.of_nat (7 - n)) by lia. rewrite wrap_small by (change (2 ^ 16) with (256 * 2 ^ 7 * 2); nia). ring.
    + apply decodes_tree_loop; lia.
Qed.

Lemma decodes_matched_tree e base m v :
  is_byte m -> is_byte v -> decodes e (RcDecodeMatchedBitTree base m) (matched_tree 8 base 1 m v) v e.
Proof.
  unfold is_byte. intros Hm Hv. unfold RcDecodeMatchedBitTree.
  replace m with (m * 2 ^ Z.of_nat (8 - 8)) at 1 by (cbn; lia).
  eapply decodes_last; [apply decodes_matched_loop; cbn; lia|].
  change 0xFF with (2 ^ 8 - 1). rewrite land_low by lia. change (Z.of_nat 8) with 8.
  replace (_ mod 2 ^ 8) with v by (rewrite (Z.mod_small v), Z.mul_1_l by lia; lia). apply decodes_ret.
Qed.

Lemma decodes_fixed_loop e n symbol v :
  0 <= symbol -> (symbol + 1) * 2 ^ Z.of_nat (S n) <= 2 ^ 32 ->
  decodes e (RcGetFixed_loop n symbol) (fixed_bits (S n) v) (symbol * 2 ^ Z.of_nat (S n) + v mod 2 ^ Z.of_nat (S n)) e.
Proof.
  revert symbol. induction n as [|n IH]; intros symbol Hs Hn; cbn [RcGetFixed_loop];
    change (fixed_bits (S ?n) v) with (Fixed (Z.testbit v (Z.of_nat n)) :: fixed_bits n v);
    (eapply (decodes_bind _ _ [_]); [apply decodes_fixed|]).
  - rewrite high_bit. change (2 ^ Z.of_nat 0) with 1. change (2 ^ Z.of_nat 1) with 2 in *. rewrite Z.mod_1_r.
    rewrite Z.shiftl_mul_pow2, u32_small by lia. rewrite <- Z.shiftl_mul_pow2, lor_bit by lia.
    replace (2 * symbol + _) with (symbol * 2 + (Z.b2z (Z.testbit v (Z.of_nat 0)) * 1 + 0)) by ring. apply decodes_ret.
  - rewrite pow2_S in Hn. assert (1 <= 2 ^ Z.of_nat (S n)) by lia.
    set (b := Z.testbit v (Z.of_nat (S n))).
    assert (symbol + 1 <= 2 ^ 31) by nia.
    rewrite Z.shiftl_mul_pow2, u32_small by lia. rewrite <- Z.shiftl_mul_pow2, lor_bit by lia.
    rewrite (high_bit v (S n)), (pow2_S (S n)). fold b.
    replace (symbol * (2 * 2 ^ Z.of_nat (S n)) + _) with
      ((2 * symbol + Z.b2z b) * 2 ^ Z.of_nat (S n) + v mod 2 ^ Z.of_nat (S n)) by ring.
    apply IH; destruct b; cbn [Z.b2z]; nia.
Qed.

Lemma decodes_fixed_bits e n v :
  (0 < n <= 32)%nat -> 0 <= v < 2 ^ Z.of_nat n -> decodes e (RcGetFixed (Z.of_nat n)) (fixed_bits n v) v e.
Proof.
  intros Hn Hv. destruct n as [|n]; [lia|]. unfold RcGetFixed. rewrite wrap_small by lia.
  replace (Z.to_nat (Z.of_nat (S n) - 1)) with n by lia.
  replace v with (0 * 2 ^ Z.of_nat (S n) + v mod 2 ^ Z.of_nat (S n)) at 2 by (rewrite Z.mod_small; lia).
  apply decodes_fixed_loop; [lia|]. rewrite Z.mul_1_l. apply Z.pow_le_mono_r; lia.
Qed.
End symbols.
