(* ===== verification/LzmaSpec.v ===== *)
(** * LZMA packets: what they mean and how they are coded

    A packet is a literal or a copy from the output so far, with a new distance
    or one of the last four.  [lz_apply] is its meaning, [lz_decisions] the
    decisions that encode it; the lemmas of this file say that lzmadec.c takes
    one to the other. *)
From S2P Require Import Prelude Machine MinLz Lzma RangeCoder InflateSafe.

(** ** Packets *)
Inductive packet :=
| Literal (b : Z)
| Match (len dist : Z)
| ShortRep
| LongRep (i : nat) (len : Z).

(** What the encoder and the decoder know: the last packets ([z_seq]), the last
    four distances less one, and the output. *)
Record lzs := Lzs {
  z_seq : Z;
  z_rep0 : Z;
  z_rep1 : Z;
  z_rep2 : Z;
  z_rep3 : Z;
  z_out : list Z;
}.

Definition lzs_start (out : list Z) : lzs := Lzs 0 0 0 0 0 out.

(** The byte [dist] back; before the beginning there are zeros. *)
Definition lookback (out : list Z) (dist : Z) : Z :=
  if zlen out <? dist then 0 else nth (length out - Z.to_nat dist) out 0.

(** *** Meaning *)
Definition z_rep (z : lzs) (i : nat) : Z :=
  match i with O => z_rep0 z | 1%nat => z_rep1 z | 2%nat => z_rep2 z | _ => z_rep3 z end.

(** The distances once the [i]th has moved to the front. *)
Definition z_move (z : lzs) (i : nat) (seq : Z) (out : list Z) : lzs :=
  match i with
  | O => Lzs seq (z_rep0 z) (z_rep1 z) (z_rep2 z) (z_rep3 z) out
  | 1%nat => Lzs seq (z_rep1 z) (z_rep0 z) (z_rep2 z) (z_rep3 z) out
  | 2%nat => Lzs seq (z_rep2 z) (z_rep0 z) (z_rep1 z) (z_rep3 z) out
  | _ => Lzs seq (z_rep3 z) (z_rep0 z) (z_rep1 z) (z_rep2 z) out
  end.

Definition lz_apply (z : lzs) (p : packet) : lzs :=
  let out := z_out z in
  let seq := z_seq z in
  match p with
  | Literal b =>
      Lzs (if seq <? 4 then 0 else if seq <? 10 then seq - 3 else seq - 6)
        (z_rep0 z) (z_rep1 z) (z_rep2 z) (z_rep3 z) (out ++ [b])
  | Match len dist =>
      Lzs (if seq <? 7 then 7 else 10) (dist - 1) (z_rep0 z) (z_rep1 z) (z_rep2 z) (lz_copy (Z.to_nat len) dist out)
  | ShortRep =>
      Lzs (if seq <? 7 then 9 else 11) (z_rep0 z) (z_rep1 z) (z_rep2 z) (z_rep3 z) (lz_copy 1 (z_rep0 z + 1) out)
  | LongRep i len =>
      z_move z i (if seq <? 7 then 8 else 11) (lz_copy (Z.to_nat len) (z_rep z i + 1) out)
  end.

(** Lengths and distances that the format can express, and that point into the
    output. *)
Definition dist_ok (out : list Z) (dist : Z) : Prop := 1 <= dist <= zlen out.
Definition len_ok (len : Z) : Prop := 2 <= len <= 273.

Definition packet_ok (z : lzs) (p : packet) : Prop :=
  match p with
  | Literal b => is_byte b
  | Match len dist => len_ok len /\ dist_ok (z_out z) dist
  | ShortRep => dist_ok (z_out z) (z_rep0 z + 1)
  | LongRep i len => (i < 4)%nat /\ len_ok len /\ dist_ok (z_out z) (z_rep z i + 1)
  end.

(** *** Code *)
Definition literal_decisions (z : lzs) (b : Z) : list decision :=
  let base := BM_Literal (lookback (z_out z) 1 / 32) in
  if z_seq z <? 7 then tree 8 base 1 b else matched_tree 8 base 1 (lookback (z_out z) (z_rep0 z + 1)) b.

Definition len_decisions (LenState pb len : Z) : list decision :=
  if len <? 10 then Bit (Choice LenState) false :: tree 3 (Low LenState pb) 1 (len - 2)
  else if len <? 18 then
    Bit (Choice LenState) true :: Bit (Choice2 LenState) false :: tree 3 (Mid LenState pb) 1 (len - 10)
  else Bit (Choice LenState) true :: Bit (Choice2 LenState) true :: tree 8 (High LenState) 1 (len - 18).

(** A distance less one is its two highest bits, with their place, and the bits
    below: [slot], [dist_base] and [dist_bits]. *)
Definition dist_bits (r : Z) : Z := Z.log2 r - 1.
Definition dist_slot (r : Z) : Z := if r <? 4 then r else 2 * Z.log2 r + r / 2 ^ dist_bits r mod 2.
Definition dist_base (r : Z) : Z := r / 2 ^ dist_bits r * 2 ^ dist_bits r.

Definition dist_decisions (len r : Z) : list decision :=
  let slot := dist_slot r in
  let low := r - dist_base r in
  tree 6 (BM_DistSlot (Z.min (len - 2) 3)) 1 slot ++
  if slot <? 4 then []
  else if slot <? 14 then rev_tree (Z.to_nat (dist_bits r)) (BM_Dist (dist_base r - slot)) 1 low
  else fixed_bits (Z.to_nat (dist_bits r - 4)) (low / 16) ++ rev_tree 4 BM_Align 1 (low mod 16).

Definition lz_decisions (z : lzs) (p : packet) : list decision :=
  let seq := z_seq z in
  let pb := zlen (z_out z) mod 4 in
  match p with
  | Literal b => Bit (BM_Match seq pb) false :: literal_decisions z b
  | Match len dist =>
      Bit (BM_Match seq pb) true :: Bit (BM_Rep seq) false ::
      len_decisions BM_MatchLen pb len ++ dist_decisions len (dist - 1)
  | ShortRep =>
      [Bit (BM_Match seq pb) true; Bit (BM_Rep seq) true; Bit (BM_Rep0 seq) false; Bit (BM_Rep0Long seq pb) false]
  | LongRep i len =>
      Bit (BM_Match seq pb) true :: Bit (BM_Rep seq) true ::
      match i with
      | O => [Bit (BM_Rep0 seq) false; Bit (BM_Rep0Long seq pb) true]
      | 1%nat => [Bit (BM_Rep0 seq) true; Bit (BM_Rep1 seq) false]
      | 2%nat => [Bit (BM_Rep0 seq) true; Bit (BM_Rep1 seq) true; Bit (BM_Rep2 seq) false]
      | _ => [Bit (BM_Rep0 seq) true; Bit (BM_Rep1 seq) true; Bit (BM_Rep2 seq) true]
      end ++ len_decisions BM_RepLen pb len
  end.

(** Sequences of packets. *)
Definition lz_applies (z : lzs) (ps : list packet) : lzs := fold_left lz_apply ps z.

Fixpoint lz_code (z : lzs) (ps : list packet) : list decision :=
  match ps with [] => [] | p :: ps' => lz_decisions z p ++ lz_code (lz_apply z p) ps' end.

Fixpoint packets_ok (z : lzs) (ps : list packet) : Prop :=
  match ps with [] => True | p :: ps' => packet_ok z p /\ packets_ok (lz_apply z p) ps' end.

(** Invariant of the abstract state. *)
Record lzs_ok (z : lzs) : Prop := {
  zo_seq : 0 <= z_seq z < 12;
  zo_out : are_bytes (z_out z);
  zo_reps : forall i, 0 <= z_rep z i < 2 ^ 32 - 1;
}.

(** ** The decoder at an abstract state *)

(** [e0] before anything was written, with the state [z] and [Len]. *)
Definition lz_state (e0 : minlz) (z : lzs) (len : Z) : minlz :=
  MinLz (write_bytes (mz_mem e0) (Dictionary_Buffer (mz_Dictionary e0)) (z_out z)) (mz_In e0)
    (set_DtOffset (zlen (z_out z)) (mz_Dictionary e0)) (mz_RcState e0)
    (Decoder_ (z_seq z) (z_rep0 z) (z_rep1 z) (z_rep2 z) (z_rep3 z) len []) (mz_Container e0).

(** The output is backed by memory and apart from the input; the decoder may
    read to the end of the chunk. *)
Record lz_env (e0 : minlz) : Prop := {
  le_region : region (mz_mem e0) (Dictionary_Buffer (mz_Dictionary e0)) (Dictionary_BufferSize (mz_Dictionary e0));
  le_buffer : 0 <= Dictionary_Buffer (mz_Dictionary e0);
  le_end : Dictionary_Buffer (mz_Dictionary e0) + Dictionary_BufferSize (mz_Dictionary e0) <= 2 ^ 32;
  le_limit : Dictionary_Limit (mz_Dictionary e0) <= Dictionary_BufferSize (mz_Dictionary e0) < 2 ^ 32;
  le_apart : In_Buffer (mz_In e0) + In_SoftLimit (mz_In e0) <= Dictionary_Buffer (mz_Dictionary e0) \/
    Dictionary_Buffer (mz_Dictionary e0) + Dictionary_BufferSize (mz_Dictionary e0) <= In_Buffer (mz_In e0);
  le_rc : In_Buffer (mz_In e0) + In_SoftLimit (mz_In e0) <= Rc_Limit (mz_RcState e0);
}.

(** ** The primitives at an abstract state *)
Section primitives.
Implicit Types (e : minlz) (z : lzs) (d : DECODER_STATE).

(** The field is not the bit model. *)
Lemma decodes_get {A} e (f : DECODER_STATE -> A) :
  (forall d l, f (set_probabilities l d) = f d) -> decodes e (get_Decoder f) [] (f (mz_Decoder e)) e.
Proof. intros Hf s rest <- H. exists s. split; [|done]. unfold get_Decoder, gets. cbn. by rewrite Hf. Qed.

Lemma decodes_mod e (f : DECODER_STATE -> DECODER_STATE) :
  (forall d l, f (set_probabilities l d) = set_probabilities l (f d)) ->
  (forall d, RawProbabilities (f d) = RawProbabilities d) ->
  decodes e (mod_Decoder f) [] tt (set_Decoder (f (mz_Decoder e)) e).
Proof.
  intros Hf Hp s rest <- [H1 H2 H3 (bs & Hu & Hc)]. eexists. split; [reflexivity|].
  split; [unfold erase; cbn; by rewrite Hf|]. split; [apply Hp|].
  constructor; cbn; rewrite ?Hp; try done. exists bs. split; [by destruct Hu|done].
Qed.

(** What is at a distance in the output. *)
Lemma lookback_byte out dist : are_bytes out -> is_byte (lookback out dist).
Proof.
  intros H. unfold lookback. case_if; [done|]. destruct (nth_in_or_default (length out - Z.to_nat dist) out 0) as [Hin|Hn].
  - by eapply List.Forall_forall in Hin.
  - rewrite Hn. done.
Qed.

Lemma run_DtGetSymbol s (out : list Z) dist m0 :
  mz_mem s = write_bytes m0 (Dictionary_Buffer (mz_Dictionary s)) out ->
  Dictionary_Offset (mz_Dictionary s) = zlen out -> 0 <= Dictionary_Buffer (mz_Dictionary s) ->
  Dictionary_Buffer (mz_Dictionary s) + zlen out <= 2 ^ 32 -> 1 <= dist ->
  DtGetSymbol dist s = Done (lookback out dist, s).
Proof.
  intros Hm Ho Hb He Hd. unfold DtGetSymbol, lookback. rewrite run_gets, Ho. case_if; [done|]. b2p.
  unfold mz_load8. pose proof (zlen_nonneg out). rewrite Hm, u32_small by lia.
  pose proof (bytes_at_write_eq m0 _ _ Hb He) as Hat.
  replace (zlen out - dist) with (Z.of_nat (length out - Z.to_nat dist)) by (unfold zlen in *; lia).
  destruct (lookup_lt_is_Some_2 out (length out - Z.to_nat dist)) as [x Hx]; [unfold zlen in *; lia|].
  erewrite load8_bytes_at by (exact Hat || exact Hx). by rewrite (nth_lookup_Some _ _ _ _ Hx).
Qed.

Lemma run_DtPutSymbol s b :
  is_byte b -> is_Some (mz_mem s !! (Dictionary_Buffer (mz_Dictionary s) + Dictionary_Offset (mz_Dictionary s))) ->
  0 <= Dictionary_Buffer (mz_Dictionary s) -> 0 <= Dictionary_Offset (mz_Dictionary s) < 2 ^ 32 - 1 ->
  Dictionary_Buffer (mz_Dictionary s) + Dictionary_Offset (mz_Dictionary s) < 2 ^ 32 ->
  DtPutSymbol b s = Done (tt, set_Dictionary (set_DtOffset (Dictionary_Offset (mz_Dictionary s) + 1) (mz_Dictionary s))
    (set_mem (<[Dictionary_Buffer (mz_Dictionary s) + Dictionary_Offset (mz_Dictionary s) := b]> (mz_mem s)) s)).
Proof.
  intros Hb Hm ???. unfold DtPutSymbol. rewrite store8_Done, bind_Done, u8_small by (done || lia).
  by rewrite u32_small by lia.
Qed.
End primitives.

(** ** Distances in pieces *)
Definition dist_odd (r : Z) : Z := r / 2 ^ dist_bits r mod 2.

Record dist_pieces (r : Z) : Prop := {
  dp_bits : 1 <= dist_bits r <= 30;
  dp_odd : 0 <= dist_odd r < 2;
  dp_slot : dist_slot r = 2 * (dist_bits r + 1) + dist_odd r;
  dp_base : dist_base r = (2 + dist_odd r) * 2 ^ dist_bits r;
  dp_low : 0 <= r - dist_base r < 2 ^ dist_bits r;
}.

Lemma dist_pieces_ok r : 4 <= r < 2 ^ 32 -> dist_pieces r.
Proof.
  intros Hr. pose proof (Z.log2_spec r ltac:(lia)) as [H1 H2]. rewrite Z.pow_succ_r in H2 by apply Z.log2_nonneg.
  assert (2 <= Z.log2 r) as Hl2 by (change 2 with (Z.log2 4); apply Z.log2_le_mono; lia).
  assert (Z.log2 r <= 31) as Hl31 by (apply Z.lt_succ_r; apply Z.log2_lt_pow2; lia).
  assert (dist_slot r = 2 * Z.log2 r + dist_odd r) as Hs by (unfold dist_slot; by bdec).
  assert (dist_base r = r / 2 ^ dist_bits r * 2 ^ dist_bits r) as Hb by done.
  assert (Z.log2 r = dist_bits r + 1) as Hl by (unfold dist_bits; lia). rewrite Hl in *. clear Hl.
  assert (dist_odd r = r / 2 ^ dist_bits r mod 2) as Ho by done.
  remember (dist_bits r) as k eqn:Hk. rewrite Z.pow_add_r in * by lia. change (2 ^ 1) with 2 in *.
  assert (0 < 2 ^ k) by lia.
  assert (2 <= r / 2 ^ k < 4) by (split; [apply Z.div_le_lower_bound|apply Z.div_lt_upper_bound]; lia).
  pose proof (Z.div_mod r (2 ^ k) ltac:(lia)). pose proof (Z.mod_pos_bound r (2 ^ k) ltac:(lia)).
  assert (r / 2 ^ k = 2 + dist_odd r) as Ht by lia.
  constructor; rewrite <- ?Hk, ?Hs, ?Hb, ?Ht; lia.
Qed.

Lemma dist_slot_range r : 0 <= r < 2 ^ 32 -> 0 <= dist_slot r < 64.
Proof.
  intros Hr. destruct (decide (r < 4)); [unfold dist_slot; bdec; lia|].
  destruct (dist_pieces_ok r); lia.
Qed.

Lemma dist_base_shift r : 4 <= r < 2 ^ 32 ->
  u32 (Z.shiftl (Z.lor 2 (Z.land (dist_slot r) 1)) (dist_bits r)) = dist_base r.
Proof.
  intros Hr. destruct (dist_pieces_ok r Hr). change 1 with (2 ^ 1 - 1). rewrite land_low, dp_slot0 by lia.
  change (2 ^ 1) with 2. replace (_ mod 2) with (dist_odd r) by lia.
  replace (Z.lor 2 (dist_odd r)) with (2 + dist_odd r) by (assert (dist_odd r = 0 \/ dist_odd r = 1) as [-> | ->] by lia; done).
  rewrite Z.shiftl_mul_pow2, <- dp_base0 by lia. apply u32_small. nia.
Qed.

Lemma dist_slot_bits r : 4 <= r < 2 ^ 32 -> u8 (Z.shiftr (dist_slot r) 1 - 1) = dist_bits r.
Proof.
  intros Hr. destruct (dist_pieces_ok r Hr). rewrite Z.shiftr_div_pow2 by lia. change (2 ^ 1) with 2.
  rewrite wrap_small by lia. lia.
Qed.

(** Adding the low bits. *)
Lemma dist_base_lor r x : 4 <= r < 2 ^ 32 -> 0 <= x < 2 ^ dist_bits r -> Z.lor (dist_base r) x = dist_base r + x.
Proof.
  intros Hr Hx. destruct (dist_pieces_ok r Hr). rewrite dp_base0, Z.lor_comm, Z.mul_comm.
  rewrite lor_disjoint by lia. lia.
Qed.

(** The trees of the slots below 14 start at or after their array. *)
Lemma dist_base_slot r : 4 <= r < 2 ^ 32 -> dist_slot r < 14 ->
  dist_bits r <= 5 /\ 0 <= dist_base r - dist_slot r <= 83 /\ dist_base r < 128.
Proof.
  intros Hr Hs. destruct (dist_pieces_ok r Hr). rewrite dp_base0, dp_slot0 in *.
  set (k := dist_bits r) in *. assert (k = 1 \/ k = 2 \/ k = 3 \/ k = 4 \/ k = 5) as Hk by lia.
  destruct Hk as [Hk|[Hk|[Hk|[Hk|Hk]]]]; rewrite Hk in *; cbn; lia.
Qed.

(** ** The functions of lzmadec.c *)
Section packets.
Context (e0 : minlz) (Henv : lz_env e0).
Implicit Types (z : lzs) (len pb : Z).
#[local] Abbreviation room := (Dictionary_BufferSize (mz_Dictionary e0)).
#[local] Abbreviation limit := (Dictionary_Limit (mz_Dictionary e0)).

Definition z_push (bs : list Z) z : lzs := Lzs (z_seq z) (z_rep0 z) (z_rep1 z) (z_rep2 z) (z_rep3 z) (z_out z ++ bs).
Definition z_copied (n : nat) (dist : Z) z : lzs :=
  Lzs (z_seq z) (z_rep0 z) (z_rep1 z) (z_rep2 z) (z_rep3 z) (lz_copy n dist (z_out z)).
Definition z_with_seq (seq : Z) z : lzs := Lzs seq (z_rep0 z) (z_rep1 z) (z_rep2 z) (z_rep3 z) (z_out z).

(** The parts of a state that the abstract one determines. *)
Lemma at_lz_state s z len :
  erase s = lz_state e0 z len ->
  mz_mem s = write_bytes (mz_mem e0) (Dictionary_Buffer (mz_Dictionary s)) (z_out z) /\
  mz_Dictionary s = set_DtOffset (zlen (z_out z)) (mz_Dictionary e0) /\
  In_Buffer (mz_In s) = In_Buffer (mz_In e0) /\ In_SoftLimit (mz_In s) = In_SoftLimit (mz_In e0) /\
  Rc_Limit (mz_RcState s) = Rc_Limit (mz_RcState e0) /\
  Sequence (mz_Decoder s) = z_seq z /\ Len (mz_Decoder s) = len.
Proof.
  intros He. pose proof (f_equal mz_Dictionary He) as Hd. cbn in Hd. rewrite Hd. split; [exact (f_equal mz_mem He)|].
  split; [done|]. split; [exact (f_equal (fun x => In_Buffer (mz_In x)) He)|].
  split; [exact (f_equal (fun x => In_SoftLimit (mz_In x)) He)|].
  split; [exact (f_equal (fun x => Rc_Limit (mz_RcState x)) He)|].
  split; [exact (f_equal (fun x => Sequence (mz_Decoder x)) He)|exact (f_equal (fun x => Len (mz_Decoder x)) He)].
Qed.

Lemma decodes_GetSymbol z len dist :
  1 <= dist -> zlen (z_out z) <= room ->
  decodes (lz_state e0 z len) (DtGetSymbol dist) [] (lookback (z_out z) dist) (lz_state e0 z len).
Proof using Henv.
  intros Hd Hr s rest He H. apply at_lz_state in He as Hs. destruct Hs as (Hm & Hdi & _). destruct Henv.
  exists s. split; [|done]. rewrite Hdi in Hm. cbn in Hm.
  apply run_DtGetSymbol with (m0 := mz_mem e0); rewrite ?Hdi; cbn; try done. lia.
Qed.

(** Writes to the output do not reach the rest of the chunk. *)
Lemma rc_at_write s s' ds k b :
  rc_at s ds -> mz_mem s' = <[k := b]> (mz_mem s) -> mz_In s' = mz_In s -> mz_RcState s' = mz_RcState s ->
  RawProbabilities (mz_Decoder s') = RawProbabilities (mz_Decoder s) ->
  k < In_Buffer (mz_In s) \/ In_Buffer (mz_In s) + In_SoftLimit (mz_In s) <= k -> rc_at s' ds.
Proof.
  intros [H1 H2 H3 (bs & [] & Hc)] Hm Hi Hrc Hp Hk. constructor; rewrite ?Hrc, ?Hp; try done.
  exists bs. split; [|done]. constructor; rewrite ?Hm, ?Hi; try done.
  apply bytes_at_insert_ne; [lia|done].
Qed.

Lemma decodes_PutSymbol z len b :
  is_byte b -> zlen (z_out z) < room ->
  decodes (lz_state e0 z len) (DtPutSymbol b) [] tt (lz_state e0 (z_push [b] z) len).
Proof using Henv.
  intros Hb Hr s rest He H. apply at_lz_state in He as Hs. destruct Hs as (Hm & Hd & Hi & Hsl & _). destruct Henv.
  pose proof (zlen_nonneg (z_out z)).
  destruct (region_lookup _ _ _ (Dictionary_Buffer (mz_Dictionary e0) + zlen (z_out z))
    (region_write _ _ _ (Dictionary_Buffer (mz_Dictionary e0)) (z_out z) le_region0)) as [Hk ?]; [lia|].
  rewrite Hd in Hm. cbn in Hm. eexists. split; [|split].
  - apply run_DtPutSymbol; rewrite ?Hd; cbn; try done; try lia. by rewrite Hm.
  - pose proof (f_equal mz_In He) as E1. pose proof (f_equal mz_RcState He) as E2.
    pose proof (f_equal mz_Decoder He) as E3. pose proof (f_equal mz_Container He) as E4.
    unfold erase, lz_state. cbn in *. rewrite E1, E2, E3, E4, Hd, Hm. cbn.
    by rewrite write_bytes_app_up, zlen_app, zlen_cons, (zlen_nil (A := Z)), Z.add_0_r.
  - split; [done|]. eapply (rc_at_write s); [exact H|reflexivity..|]. rewrite Hd, Hi, Hsl. cbn. lia.
Qed.

(** *** Copies *)
Lemma lz_copy_S n dist out : dist_ok out dist -> lz_copy (S n) dist out = lz_copy n dist (out ++ [lookback out dist]).
Proof. unfold dist_ok, lookback. intros. cbn [lz_copy]. by bdec. Qed.

Lemma lz_copy_bytes n dist out : are_bytes out -> are_bytes (lz_copy n dist out).
Proof.
  revert out. induction n as [|n IH]; intros out H; [done|]. cbn [lz_copy]. apply IH, Forall_app. split; [done|].
  apply Forall_singleton. destruct (nth_in_or_default (length out - Z.to_nat dist) out 0) as [Hin| ->]; [|done].
  by eapply List.Forall_forall in Hin.
Qed.

Lemma decodes_repeat_loop n z len dist :
  are_bytes (z_out z) -> dist_ok (z_out z) dist -> zlen (z_out z) + Z.of_nat n < room ->
  decodes (lz_state e0 z len) (DtRepeatSymbol_loop n dist) [] tt (lz_state e0 (z_copied (S n) dist z) len).
Proof using Henv.
  revert z. induction n as [|n IH]; intros z Hb Hd Hr; cbn [DtRepeatSymbol_loop];
    (eapply decodes_step; [apply decodes_GetSymbol; [apply Hd|lia]|]);
    (eapply decodes_step; [apply decodes_PutSymbol; [by apply lookback_byte|lia]|]).
  - unfold z_copied. rewrite lz_copy_S by done. apply decodes_ret.
  - unfold z_copied. rewrite lz_copy_S by done. apply (IH (z_push [lookback (z_out z) dist] z)).
    + apply Forall_app. split; [done|]. by apply Forall_singleton, lookback_byte.
    + unfold dist_ok in *. cbn. rewrite zlen_app, zlen_cons. pose proof (zlen_nonneg (@nil Z)). lia.
    + cbn. rewrite zlen_app, zlen_cons. change (zlen (@nil Z)) with 0. lia.
Qed.

Lemma decodes_Dictionary z len :
  decodes (lz_state e0 z len) (gets mz_Dictionary) [] (set_DtOffset (zlen (z_out z)) (mz_Dictionary e0)) (lz_state e0 z len).
Proof. by apply (decodes_gets (lz_state e0 z len) mz_Dictionary). Qed.

Lemma decodes_RepeatSymbol z len n dist :
  are_bytes (z_out z) -> dist_ok (z_out z) dist -> 1 <= n -> zlen (z_out z) + n <= limit ->
  decodes (lz_state e0 z len) (DtRepeatSymbol n dist) [] true (lz_state e0 (z_copied (Z.to_nat n) dist z) len).
Proof using Henv.
  intros Hb Hd Hn Hr. unfold dist_ok in *. destruct Henv. unfold DtRepeatSymbol.
  eapply decodes_step; [apply decodes_Dictionary|]. cbn. rewrite u32_small by lia. bdec. rewrite u32_small by lia.
  replace (Z.to_nat n) with (S (Z.to_nat (n - 1))) by lia.
  eapply decodes_step; [apply decodes_repeat_loop; [done|done|lia]|]. apply decodes_ret.
Qed.

(** *** Fields *)
Lemma decodes_Sequence z len : decodes (lz_state e0 z len) (get_Decoder Sequence) [] (z_seq z) (lz_state e0 z len).
Proof. by apply (decodes_get (lz_state e0 z len)). Qed.

Lemma decodes_Len z len : decodes (lz_state e0 z len) (get_Decoder Len) [] len (lz_state e0 z len).
Proof. by apply (decodes_get (lz_state e0 z len)). Qed.

Lemma decodes_Rep0 z len : decodes (lz_state e0 z len) (get_Decoder Rep0) [] (z_rep0 z) (lz_state e0 z len).
Proof. by apply (decodes_get (lz_state e0 z len)). Qed.

Lemma decodes_set_Len z len len' :
  decodes (lz_state e0 z len) (mod_Decoder (set_Len len')) [] tt (lz_state e0 z len').
Proof. by apply (decodes_mod (lz_state e0 z len)). Qed.

Lemma decodes_add_Len z len n :
  0 <= len + n < 2 ^ 32 -> decodes (lz_state e0 z len) (add_Len n) [] tt (lz_state e0 z (len + n)).
Proof.
  intros H. rewrite <- (u32_small (len + n)) by done.
  by apply (decodes_mod (lz_state e0 z len) (fun d => set_Len (u32 (Len d + n)) d)).
Qed.

Lemma decodes_mod_Sequence z len f :
  decodes (lz_state e0 z len) (mod_Sequence f) [] tt (lz_state e0 (z_with_seq (f (z_seq z)) z) len).
Proof. by apply (decodes_mod (lz_state e0 z len) (fun d => set_Sequence (f (Sequence d)) d)). Qed.

(** Any other change of the fields. *)
Lemma decodes_mod_z z len f z' :
  (forall d l, f (set_probabilities l d) = set_probabilities l (f d)) ->
  (forall d, RawProbabilities (f d) = RawProbabilities d) ->
  set_Decoder (f (mz_Decoder (lz_state e0 z len))) (lz_state e0 z len) = lz_state e0 z' len ->
  decodes (lz_state e0 z len) (mod_Decoder f) [] tt (lz_state e0 z' len).
Proof. intros H1 H2 <-. by apply decodes_mod. Qed.

(** *** Lengths *)
Lemma decodes_DecodeLen z len0 L pb len :
  len_ok len -> decodes (lz_state e0 z len0) (LzDecodeLen L pb) (len_decisions L pb len) tt (lz_state e0 z len).
Proof.
  unfold len_ok, LzDecodeLen, len_decisions. intros Hl.
  change LZMA_MAX_LOW_LENGTH with (2 ^ Z.of_nat 3). change LZMA_MAX_MID_LENGTH with (2 ^ Z.of_nat 3).
  change LZMA_MAX_HIGH_LENGTH with (2 ^ Z.of_nat 8).
  eapply decodes_step; [apply decodes_set_Len|]. unfold LZMA_MIN_LENGTH.
  assert (forall n base v len1, (n <= 8)%nat -> 0 <= v < 2 ^ Z.of_nat n -> len1 + v = len -> 0 <= len1 ->
    decodes (lz_state e0 z len1) (n ← RcGetBitTree base (2 ^ Z.of_nat n); add_Len n) (tree n base 1 v) tt
      (lz_state e0 z len)) as Htree.
  { intros n base v len1 Hn Hv E ?. eapply decodes_last; [by apply decodes_tree|]. rewrite <- E. apply decodes_add_Len. lia. }
  destruct (len <? 10) eqn:?; b2p.
  - eapply (decodes_bind _ _ [_]); [apply decodes_bit|]. cbn [fst snd].
    eapply decodes_step; [apply decodes_ret|]. apply (Htree 3%nat); cbn; lia.
  - destruct (len <? 18) eqn:?; b2p; (eapply (decodes_bind _ _ [_]); [apply decodes_bit|]).
    + eapply (decodes_bind _ _ [_] _ _ _ _).
      * eapply (decodes_last _ _ [_]); [apply decodes_bit|]. eapply decodes_step; [apply decodes_add_Len; concrete|]. apply decodes_ret.
      * apply (Htree 3%nat); cbn; lia.
    + eapply (decodes_bind _ _ [_] _ _ _ _).
      * eapply (decodes_last _ _ [_]); [apply decodes_bit|]. eapply decodes_step; [apply decodes_add_Len; concrete|]. apply decodes_ret.
      * apply (Htree 8%nat); cbn; lia.
Qed.

(** *** Matches *)
Lemma decodes_GetDistSlot z len :
  len_ok len ->
  decodes (lz_state e0 z len) LzGetDistSlot [] (BM_DistSlot (Z.min (len - 2) 3)) (lz_state e0 z len).
Proof.
  unfold len_ok. intros Hl. unfold LzGetDistSlot. eapply decodes_step; [apply decodes_Len|].
  change (LZMA_FIRST_CONTEXT_DISTANCE_SLOT + LZMA_MIN_LENGTH) with 6. change (LZMA_FIRST_CONTEXT_DISTANCE_SLOT - 1) with 3.
  change LZMA_MIN_LENGTH with 2.
  replace (if len <? 6 then u8 (len - 2) else 3) with (Z.min (len - 2) 3); [apply decodes_ret|].
  case_if; b2p; rewrite ?wrap_small; lia.
Qed.

Definition z_set_rep0 r z : lzs := Lzs (z_seq z) r (z_rep1 z) (z_rep2 z) (z_rep3 z) (z_out z).

Lemma decodes_set_Rep0 z len r :
  decodes (lz_state e0 z len) (mod_Decoder (set_Rep0 r)) [] tt (lz_state e0 (z_set_rep0 r z) len).
Proof. by apply decodes_mod_z. Qed.

Lemma decodes_or_Rep0 z len r x :
  decodes (lz_state e0 (z_set_rep0 r z) len) (or_Rep0 x) [] tt (lz_state e0 (z_set_rep0 (Z.lor r x) z) len).
Proof. by apply decodes_mod_z. Qed.

(** The part of LzDecodeMatch that makes a distance from its slot. *)
Lemma decodes_distance z len r :
  0 <= r < 2 ^ 32 ->
  decodes (lz_state e0 z len)
    (if dist_slot r <? LZMA_FIRST_CONTEXT_DISTANCE_SLOT then mod_Decoder (set_Rep0 (dist_slot r))
     else
       let distBits := u8 (Z.shiftr (dist_slot r) 1 - 1) in
       _ ← mod_Decoder (set_Rep0 (u32 (Z.shiftl (Z.lor 2 (Z.land (dist_slot r) 1)) distBits)));
       '(probArray, distBits) ← (if dist_slot r <? LZMA_FIRST_FIXED_DISTANCE_SLOT then
           rep0 ← get_Decoder Rep0;
           mret (BM_Dist (u32 (rep0 - dist_slot r)), distBits)
         else
           n ← RcGetFixed (u8 (distBits - LZMA_DISTANCE_ALIGN_BITS));
           _ ← or_Rep0 (u32 (Z.shiftl n LZMA_DISTANCE_ALIGN_BITS));
           mret (BM_Align, LZMA_DISTANCE_ALIGN_BITS));
       n ← RcGetReverseBitTree probArray distBits;
       or_Rep0 n)
    (if dist_slot r <? 4 then []
     else if dist_slot r <? 14 then rev_tree (Z.to_nat (dist_bits r)) (BM_Dist (dist_base r - dist_slot r)) 1 (r - dist_base r)
     else fixed_bits (Z.to_nat (dist_bits r - 4)) ((r - dist_base r) / 16) ++ rev_tree 4 BM_Align 1 ((r - dist_base r) mod 16))
    tt (lz_state e0 (z_set_rep0 r z) len).
Proof.
  intros Hr. change LZMA_FIRST_CONTEXT_DISTANCE_SLOT with 4. change LZMA_FIRST_FIXED_DISTANCE_SLOT with 14.
  destruct (decide (r < 4)) as [Hlt|Hge].
  { assert (dist_slot r = r) as -> by (unfold dist_slot; by bdec). bdec. apply decodes_set_Rep0. }
  assert (4 <= r < 2 ^ 32) as Hr4 by lia. destruct (dist_pieces_ok r Hr4).
  assert (4 <= dist_slot r) by lia. bdec. rewrite dist_slot_bits, dist_base_shift by done. cbv zeta.
  eapply decodes_step; [apply decodes_set_Rep0|]. set (low := r - dist_base r) in *.
  destruct (dist_slot r <? 14) eqn:H14; b2p.
  - destruct (dist_base_slot r Hr4 H14) as (? & ? & ?).
    eapply decodes_step; [eapply decodes_step; [apply decodes_Rep0|apply decodes_ret]|]. cbn [z_rep0 z_set_rep0].
    rewrite u32_small by lia. rewrite <- (Z2Nat.id (dist_bits r)) at 1 by lia.
    eapply decodes_last; [apply (decodes_rev_tree _ _ _ low); [lia|by rewrite Z2Nat.id by lia]|].
    replace r with (Z.lor (dist_base r) low) at 2 by (rewrite dist_base_lor by done; lia). apply decodes_or_Rep0.
  - change LZMA_DISTANCE_ALIGN_BITS with 4. assert (6 <= dist_bits r) by lia.
    assert (2 ^ dist_bits r = 2 ^ (dist_bits r - 4) * 16) as Hpow
      by (rewrite <- (Z.pow_add_r 2 _ 4) by lia; f_equal; lia).
    assert (0 <= low / 16 < 2 ^ (dist_bits r - 4)) by lia.
    eapply decodes_bind.
    + rewrite wrap_small by lia. rewrite <- (Z2Nat.id (dist_bits r - 4)) at 1 by lia.
      eapply decodes_last; [apply (decodes_fixed_bits _ _ (low / 16)); [lia|by rewrite Z2Nat.id by lia]|].
      eapply decodes_step; [apply decodes_or_Rep0|]. apply decodes_ret.
    + cbn [fst snd]. change (rev_tree 4) with (rev_tree (Z.to_nat 4)).
      eapply decodes_last; [apply (decodes_rev_tree _ 4 _ (low mod 16)); cbn; lia|].
      assert (2 ^ dist_bits r <= 2 ^ 30) by (apply Z.pow_le_mono_r; lia).
      rewrite Z.shiftl_mul_pow2, u32_small by lia. change (2 ^ 4) with 16.
      replace r with (Z.lor (Z.lor (dist_base r) (low / 16 * 16)) (low mod 16)) at 2; [apply decodes_or_Rep0|].
      rewrite <- Z.lor_assoc. rewrite (Z.lor_comm (_ * 16)), (Z.mul_comm _ 16). change 16 with (2 ^ 4).
      rewrite lor_disjoint by lia. change (2 ^ 4) with 16. rewrite dist_base_lor by (done || lia). lia.
Qed.

Lemma decodes_DecodeMatch z len0 pb len dist :
  len_ok len -> 0 <= dist - 1 < 2 ^ 32 ->
  decodes (lz_state e0 z len0) (LzDecodeMatch pb) (len_decisions BM_MatchLen pb len ++ dist_decisions len (dist - 1)) tt
    (lz_state e0 (Lzs (LzSetMatch (z_seq z)) (dist - 1) (z_rep0 z) (z_rep1 z) (z_rep2 z) (z_out z)) len).
Proof.
  intros Hl Hd. unfold LzDecodeMatch. eapply decodes_bind; [by apply decodes_DecodeLen|].
  eapply decodes_step; [by apply (decodes_mod_z z len _ (Lzs (z_seq z) (z_rep0 z) (z_rep1 z) (z_rep2 z) (z_rep2 z) (z_out z)))|].
  eapply decodes_step; [by apply (decodes_mod_z _ len _ (Lzs (z_seq z) (z_rep0 z) (z_rep1 z) (z_rep1 z) (z_rep2 z) (z_out z)))|].
  eapply decodes_step; [by apply (decodes_mod_z _ len _ (Lzs (z_seq z) (z_rep0 z) (z_rep0 z) (z_rep1 z) (z_rep2 z) (z_out z)))|].
  eapply decodes_step; [by apply decodes_GetDistSlot|]. change LZMA_DISTANCE_SLOTS with (2 ^ Z.of_nat 6).
  pose proof (dist_slot_range (dist - 1) Hd). unfold dist_decisions.
  eapply decodes_bind; [apply (decodes_tree _ 6 _ (dist_slot (dist - 1))); cbn; lia|].
  eapply decodes_last; [by apply decodes_distance|]. apply decodes_mod_Sequence.
Qed.

(** *** Repeated distances *)
Lemma decodes_long_rep z len0 pb len :
  len_ok len ->
  decodes (lz_state e0 z len0) (LzDecodeRepLen pb true) (len_decisions BM_RepLen pb len) tt
    (lz_state e0 (z_with_seq (LzSetLongRep (z_seq z)) z) len).
Proof. intros Hl. eapply decodes_last; [by apply decodes_DecodeLen|]. apply decodes_mod_Sequence. Qed.

Lemma decodes_short_rep z len0 pb :
  decodes (lz_state e0 z len0) (LzDecodeRepLen pb false) [] tt (lz_state e0 (z_with_seq (LzSetShortRep (z_seq z)) z) 1).
Proof. eapply decodes_step; [apply decodes_set_Len|]. apply decodes_mod_Sequence. Qed.

Lemma decodes_Rep0_choice z len0 pb b ds e1 :
  decodes (lz_state e0 z len0) (LzDecodeRepLen pb b) ds tt e1 ->
  decodes (lz_state e0 z len0) (LzDecodeRep pb)
    (Bit (BM_Rep0 (z_seq z)) false :: Bit (BM_Rep0Long (z_seq z) pb) b :: ds) tt e1.
Proof.
  intros H. unfold LzDecodeRep, LzDecodeRep0. eapply decodes_step; [apply decodes_Sequence|].
  eapply (decodes_bind _ _ [_]); [apply decodes_bit|]. eapply decodes_step; [apply decodes_Sequence|].
  eapply (decodes_bind _ _ [_]); [apply decodes_bit|]. exact H.
Qed.

Lemma decodes_DecodeRep z len0 pb i len :
  (i < 4)%nat -> len_ok len ->
  decodes (lz_state e0 z len0) (LzDecodeRep pb)
    (match i with
     | O => [Bit (BM_Rep0 (z_seq z)) false; Bit (BM_Rep0Long (z_seq z) pb) true]
     | 1%nat => [Bit (BM_Rep0 (z_seq z)) true; Bit (BM_Rep1 (z_seq z)) false]
     | 2%nat => [Bit (BM_Rep0 (z_seq z)) true; Bit (BM_Rep1 (z_seq z)) true; Bit (BM_Rep2 (z_seq z)) false]
     | _ => [Bit (BM_Rep0 (z_seq z)) true; Bit (BM_Rep1 (z_seq z)) true; Bit (BM_Rep2 (z_seq z)) true]
     end ++ len_decisions BM_RepLen pb len) tt
    (lz_state e0 (z_move z i (LzSetLongRep (z_seq z)) (z_out z)) len).
Proof.
  intros Hi Hl. destruct i as [|i]; [by apply decodes_Rep0_choice, decodes_long_rep|].
  unfold LzDecodeRep, LzDecodeLongRep.
  destruct i as [|[|[|i]]]; [..|lia]; cbn [app];
    (eapply decodes_step; [apply decodes_Sequence|]); (eapply (decodes_bind _ _ [_]); [apply decodes_bit|]);
    (eapply decodes_step; [apply decodes_Sequence|]); (eapply (decodes_bind _ _ [_]); [apply decodes_bit|]).
  - eapply decodes_step; [by apply (decodes_get (lz_state e0 z len0))|].
    eapply decodes_step; [by apply (decodes_mod_z z len0 _ (Lzs (z_seq z) (z_rep0 z) (z_rep0 z) (z_rep2 z) (z_rep3 z) (z_out z)))|].
    eapply decodes_step; [apply decodes_set_Rep0|]. by apply decodes_long_rep.
  - eapply (decodes_bind _ _ [_]).
    + eapply (decodes_last _ _ [_]); [apply decodes_bit|]. eapply decodes_step; [by apply (decodes_get (lz_state e0 z len0))|].
      eapply decodes_step; [by apply (decodes_mod_z z len0 _ (Lzs (z_seq z) (z_rep0 z) (z_rep1 z) (z_rep1 z) (z_rep3 z) (z_out z)))|]. apply decodes_ret.
    + eapply decodes_step; [by apply (decodes_mod_z _ len0 _ (Lzs (z_seq z) (z_rep0 z) (z_rep0 z) (z_rep1 z) (z_rep3 z) (z_out z)))|].
      eapply decodes_step; [apply decodes_set_Rep0|]. by apply decodes_long_rep.
  - eapply (decodes_bind _ _ [_]).
    + eapply (decodes_last _ _ [_]); [apply decodes_bit|]. eapply decodes_step.
      * eapply decodes_step; [by apply (decodes_get (lz_state e0 z len0))|].
        eapply decodes_step; [by apply (decodes_mod_z z len0 _ (Lzs (z_seq z) (z_rep0 z) (z_rep1 z) (z_rep2 z) (z_rep2 z) (z_out z)))|]. apply decodes_ret.
      * eapply decodes_step; [by apply (decodes_mod_z _ len0 _ (Lzs (z_seq z) (z_rep0 z) (z_rep1 z) (z_rep1 z) (z_rep2 z) (z_out z)))|]. apply decodes_ret.
    + eapply decodes_step; [by apply (decodes_mod_z _ len0 _ (Lzs (z_seq z) (z_rep0 z) (z_rep0 z) (z_rep1 z) (z_rep2 z) (z_out z)))|].
      eapply decodes_step; [apply decodes_set_Rep0|]. by apply decodes_long_rep.
Qed.

(** *** Literals *)
Lemma decodes_DecodeLiteral z len b :
  lzs_ok z -> is_byte b -> zlen (z_out z) < room ->
  decodes (lz_state e0 z len) LzDecodeLiteral (literal_decisions z b) tt
    (lz_state e0 (z_with_seq (LzSetLiteral (z_seq z)) (z_push [b] z)) len).
Proof using Henv.
  intros [_ Hout Hrep] Hb Hr. pose proof (Hrep O) as Hr0. cbn in Hr0. unfold LzDecodeLiteral, literal_decisions, LzGetLiteralSlot.
  eapply decodes_step; [eapply decodes_step; [apply decodes_GetSymbol; lia|apply decodes_ret]|].
  eapply decodes_step; [apply decodes_Sequence|].
  change (8 - LZMA_LC) with 5. rewrite Z.shiftr_div_pow2 by lia. change (2 ^ 5) with 32.
  change (LzIsLiteral (z_seq z)) with (z_seq z <? 7). set (base := BM_Literal _).
  eapply (decodes_last _ _ _ b (lz_state e0 z len)).
  - destruct (z_seq z <? 7).
    + apply (decodes_tree _ 8); [lia|exact Hb].
    + eapply decodes_step; [apply decodes_Rep0|]. rewrite u32_small by lia.
      eapply decodes_step; [apply decodes_GetSymbol; lia|]. apply decodes_matched_tree; [by apply lookback_byte|done].
  - eapply decodes_step; [by apply decodes_PutSymbol|].
    apply (decodes_mod_Sequence (z_push [b] z)).
Qed.

(** *** Packets *)
Lemma LzSetLiteral_eq seq : LzSetLiteral seq = if seq <? 4 then 0 else if seq <? 10 then seq - 3 else seq - 6.
Proof.
  unfold LzSetLiteral. change LzmaLitShortrepLitLitState with 3. change LzmaLitShortrepState with 9.
  destruct (decide (seq < 4)); [by bdec|]. destruct (decide (seq < 10)); by bdec.
Qed.

Lemma lz_apply_length z p : packet_ok z p ->
  zlen (z_out (lz_apply z p)) =
    zlen (z_out z) + match p with Literal _ | ShortRep => 1 | Match len _ | LongRep _ len => len end.
Proof.
  destruct p as [b|len dist| |i len]; cbn; unfold len_ok; intros H.
  - by rewrite zlen_app.
  - rewrite lz_copy_length. lia.
  - by rewrite zlen_app.
  - replace (z_out (z_move z i _ _)) with (lz_copy (Z.to_nat len) (z_rep z i + 1) (z_out z)) by (by destruct i as [|[|[|]]]).
    rewrite lz_copy_length. lia.
Qed.

Lemma lz_apply_ok z p : lzs_ok z -> packet_ok z p -> zlen (z_out z) < 2 ^ 32 -> lzs_ok (lz_apply z p).
Proof.
  intros [Hs Ho Hr] Hp Hlen. destruct p as [b|len dist| |i len]; cbn in Hp |- *.
  - constructor; cbn; [repeat case_if; b2p; lia|apply Forall_app; by split; [|apply Forall_singleton]|exact Hr].
  - constructor; cbn; [case_if; lia|by apply lz_copy_bytes|]. unfold dist_ok in *.
    intros [|[|[|]]]; cbn; [lia|apply (Hr O)|apply (Hr 1%nat)|apply (Hr 2%nat)].
  - constructor; cbn; [case_if; lia|by apply (lz_copy_bytes 1)|exact Hr].
  - constructor.
    + destruct i as [|[|[|]]]; cbn; case_if; lia.
    + replace (z_out (z_move z i _ _)) with (lz_copy (Z.to_nat len) (z_rep z i + 1) (z_out z)) by (by destruct i as [|[|[|]]]).
      by apply lz_copy_bytes.
    + pose proof (Hr O) as H0. pose proof (Hr 1%nat) as H1. pose proof (Hr 2%nat) as H2. pose proof (Hr 3%nat) as H3.
      cbn in *. destruct i as [|[|[|]]]; intros [|[|[|]]]; cbn; assumption.
Qed.

(** A copy and the reset of [Len]. *)
Lemma decodes_copy z len n dist :
  lzs_ok z -> dist = z_rep0 z + 1 -> dist_ok (z_out z) dist -> 1 <= n -> len = n -> zlen (z_out z) + n <= limit ->
  decodes (lz_state e0 z len)
    (len ← get_Decoder Len; rep0 ← get_Decoder Rep0; ok ← DtRepeatSymbol len (u32 (rep0 + 1));
     if negb (ok : bool) then mret false else _ ← mod_Decoder (set_Len 0); mret true) [] true
    (lz_state e0 (z_copied (Z.to_nat n) dist z) 0).
Proof using Henv.
  intros [_ Hb Hr] -> Hd Hn -> Hl. specialize (Hr O). cbn in Hr. eapply decodes_step; [apply decodes_Len|].
  eapply decodes_step; [apply decodes_Rep0|]. rewrite u32_small by lia.
  eapply decodes_step; [by apply decodes_RepeatSymbol|]. cbn [negb].
  eapply decodes_step; [apply decodes_set_Len|]. apply decodes_ret.
Qed.

Lemma decodes_packet z p :
  lzs_ok z -> packet_ok z p -> zlen (z_out (lz_apply z p)) <= limit ->
  decodes (lz_state e0 z 0) (LzDecode_packet (zlen (z_out z))) (lz_decisions z p) true (lz_state e0 (lz_apply z p) 0).
Proof using Henv.
  intros Hz Hp Hl. rewrite lz_apply_length in Hl by done. pose proof (le_limit _ Henv). pose proof (zlen_nonneg (z_out z)).
  unfold LzDecode_packet, lz_decisions. eapply decodes_step; [apply decodes_Sequence|].
  change (LZMA_POSITION_COUNT - 1) with (2 ^ 2 - 1). rewrite land_low by lia. change (2 ^ 2) with 4.
  set (pb := zlen (z_out z) mod 4). destruct p as [b|len dist| |i len]; cbn [packet_ok] in Hp;
    (eapply (decodes_bind _ _ [_]); [apply decodes_bit|]); cbv iota.
  - eapply decodes_last; [apply decodes_DecodeLiteral; [done|done|lia]|]. rewrite LzSetLiteral_eq. apply decodes_ret.
  - destruct Hp as [Hlen Hd]. unfold len_ok, dist_ok in *. eapply (decodes_bind _ _ [_]); [apply decodes_bit|]. cbv iota.
    eapply decodes_last; [apply decodes_DecodeMatch; [done|lia]|].
    apply (decodes_copy (Lzs _ _ _ _ _ _) len len dist); cbn; try done; try lia. constructor; cbn.
    + unfold LzSetMatch. case_if; concrete.
    + apply Hz.
    + intros [|[|[|]]]; cbn; [lia|apply (zo_reps _ Hz O)|apply (zo_reps _ Hz 1%nat)|apply (zo_reps _ Hz 2%nat)].
  - eapply (decodes_bind _ _ [_]); [apply decodes_bit|]. cbv iota.
    eapply (decodes_last _ _ [_; _]); [by apply (decodes_Rep0_choice z 0 pb false []), decodes_short_rep|].
    apply (decodes_copy (z_with_seq _ z) 1 1 (z_rep0 z + 1)); cbn; try done. constructor; cbn.
    + unfold LzSetShortRep. case_if; concrete.
    + apply Hz.
    + apply (zo_reps _ Hz).
  - destruct Hp as (Hi & Hlen & Hd). unfold len_ok, dist_ok in *. eapply (decodes_bind _ _ [_]); [apply decodes_bit|]. cbv iota.
    eapply decodes_last; [by apply decodes_DecodeRep|].
    replace (lz_apply z (LongRep i len)) with (z_copied (Z.to_nat len) (z_rep z i + 1) (z_move z i (LzSetLongRep (z_seq z)) (z_out z)))
      by (by destruct i as [|[|[|]]]).
    apply (decodes_copy (z_move z i (LzSetLongRep (z_seq z)) (z_out z)) len len (z_rep z i + 1));
      try lia; try (destruct i as [|[|[|]]]; cbn; done || (unfold dist_ok; lia)).
    pose proof (lz_apply_ok z (LongRep i len) Hz ltac:(done) ltac:(lia)) as Hok.
    destruct Hok as [H1 _ H3]. constructor.
    + by destruct i as [|[|[|]]].
    + destruct i as [|[|[|]]]; apply Hz.
    + by destruct i as [|[|[|]]].
Qed.

(** *** The loop *)
Lemma decodes_CanWrite z len :
  decodes (lz_state e0 z len) DtCanWrite [] (zlen (z_out z) <? limit, zlen (z_out z)) (lz_state e0 z len).
Proof. eapply decodes_step; [apply decodes_Dictionary|]. apply decodes_ret. Qed.

Lemma decodes_CanRead z len : decodes (lz_state e0 z len) RcCanRead [] true (lz_state e0 z len).
Proof using Henv.
  intros s rest He H. pose proof (at_lz_state _ _ _ He) as (_ & _ & Hb & Hl & Hrc & _). destruct Henv.
  pose proof H as [H1 H2 H3 (bs & [] & Hc)]. pose proof (zlen_nonneg bs). unfold RcCanRead.
  erewrite run_bind by (apply BfSeek_run; lia). cbv beta iota. rewrite run_gets. cbn [mz_RcState advance set_In].
  rewrite u32_small by lia. exists (advance 0 s). split; [|split; [done|split; [done|]]].
  - unfold mret, ST_ret. do 3 f_equal. apply Z.leb_le. lia.
  - constructor; try done. exists bs. split; [|done]. constructor; cbn; rewrite ?Z.add_0_r; done.
Qed.

Lemma lz_applies_length z ps : packets_ok z ps -> zlen (z_out z) + Z.of_nat (length ps) <= zlen (z_out (lz_applies z ps)).
Proof.
  revert z. induction ps as [|p ps IH]; intros z H; cbn; [lia|]. destruct H as [Hp H]. specialize (IH _ H).
  rewrite lz_apply_length in IH by done. unfold lz_applies in *. destruct p; cbn in Hp; unfold len_ok in *; lia.
Qed.

Lemma decodes_loop n z ps :
  lzs_ok z -> packets_ok z ps -> zlen (z_out (lz_applies z ps)) = limit -> (length ps <= n)%nat ->
  decodes (lz_state e0 z 0) (LzDecode_loop n) (lz_code z ps) true (lz_state e0 (lz_applies z ps) 0).
Proof using Henv.
  pose proof (le_limit _ Henv) as Hlim.
  revert n z. induction ps as [|p ps IH]; intros n z Hz Hp Hl Hn; destruct n as [|n]; cbn [length] in Hn; try lia;
    cbn [LzDecode_loop lz_code]; (eapply decodes_step; [apply decodes_CanWrite|]); cbn [lz_applies fold_left] in *.
  1,2: replace (zlen (z_out z) <? limit) with false by (symmetry; apply Z.ltb_ge; lia); apply decodes_ret.
  destruct Hp as [Hp Hps]. pose proof (lz_applies_length _ _ Hps) as Hlen. pose proof (lz_apply_length _ _ Hp) as Hlen1.
  unfold lz_applies in Hlen. assert (zlen (z_out z) < limit) by (destruct p; cbn in Hp; unfold len_ok in *; lia).
  bdec. eapply decodes_step; [apply decodes_CanRead|]. cbn [negb].
  eapply decodes_bind; [apply decodes_packet; [done|done|lia]|]. cbn [negb].
  apply IH; [apply lz_apply_ok; [done..|lia]|done|done|lia].
Qed.

Lemma LzDecode_packets n z ps s :
  lzs_ok z -> packets_ok z ps -> zlen (z_out (lz_applies z ps)) = limit -> (length ps <= n)%nat ->
  erase s = lz_state e0 z 0 -> rc_at s (lz_code z ps) ->
  exists s', LzDecode n s = Done (true, s') /\ erase s' = lz_state e0 (lz_applies z ps) 0 /\
    RawProbabilities (mz_Decoder s') = adapt_all (lz_code z ps) (RawProbabilities (mz_Decoder s)) /\
    Rc_Code (mz_RcState s') = 0 /\ In_Offset (mz_In s') = In_SoftLimit (mz_In s').
Proof using Henv.
  intros Hz Hp Hl Hn He H. rewrite <- (app_nil_r (lz_code z ps)) in H.
  destruct (decodes_loop n z ps Hz Hp Hl Hn s [] He H) as (s1 & R1 & E1 & P1 & A1).
  destruct (RcNormalize_run s1 [] A1) as (s2 & R2 & E2 & P2 & A2 & Hbig).
  exists s2. unfold LzDecode. rewrite (run_bind _ _ _ _ _ R1). cbn [negb]. rewrite (run_bind _ _ _ _ _ R2).
  rewrite E1 in E2. apply at_lz_state in E2 as Hs. destruct Hs as (_ & _ & _ & _ & _ & _ & Hlen).
  split; [unfold get_Decoder; rewrite run_gets, Hlen; done|]. split; [done|]. split; [congruence|].
  destruct A2 as [_ _ _ (bs & [_ Hby _ _ Hul _] & Hc)]. cbn in Hc. rewrite norm_bytes_big in Hc by done.
  injection Hc as Hv Hk. pose proof (be_value_range bs Hby). rewrite <- Hk in *. change (256 ^ 0) with 1 in *. lia.
Qed.
End packets.

(** ** The slots of the code exist *)
Section slots.
Context (N : Z).
Implicit Types (base node v m : Z).

Lemma tree_slots n base node v :
  0 <= base -> 0 <= node -> 2 * base + (node + 1) * 2 ^ Z.of_nat n <= 2 * N -> Forall (decision_ok N) (tree n base node v).
Proof.
  intros Hb. revert node. induction n as [|n IH]; intros node Hn HN; cbn [tree]; [constructor|].
  rewrite pow2_S in HN. assert (1 <= 2 ^ Z.of_nat n) by lia.
  constructor; [cbn; nia|]. apply IH; destruct (Z.testbit _ _); cbn [Z.b2z]; nia.
Qed.

Lemma rev_tree_slots n base node v :
  0 <= base -> 0 <= node -> 2 * base + (node + 1) * 2 ^ Z.of_nat n <= 2 * N -> Forall (decision_ok N) (rev_tree n base node v).
Proof.
  intros Hb. revert node v. induction n as [|n IH]; intros node v Hn HN; cbn [rev_tree]; [constructor|].
  rewrite pow2_S in HN. assert (1 <= 2 ^ Z.of_nat n) by lia.
  constructor; [cbn; nia|]. apply IH; destruct (Z.odd _); cbn [Z.b2z]; nia.
Qed.

Lemma matched_tree_slots n base node m v :
  0 <= base -> 0 <= node -> 2 * base + 1024 + (node + 1) * 2 ^ Z.of_nat n <= 2 * N ->
  Forall (decision_ok N) (matched_tree n base node m v).
Proof.
  intros Hb. revert node. induction n as [|n IH]; intros node Hn HN; cbn [matched_tree]; [constructor|].
  rewrite pow2_S in HN. assert (1 <= 2 ^ Z.of_nat n) by lia.
  constructor; [cbn; destruct (Z.testbit m _); cbn [Z.b2z]; nia|].
  case_match; [apply IH|apply tree_slots]; destruct (Z.testbit v _); cbn [Z.b2z]; nia.
Qed.

Lemma fixed_bits_slots n v : Forall (decision_ok N) (fixed_bits n v).
Proof. induction n; cbn [fixed_bits]; by constructor. Qed.
End slots.

(** The layout in numbers. *)
Lemma BM_Match_eq a b : BM_Match a b = 6562 + 4 * a + b. Proof. reflexivity. Qed.
Lemma BM_Rep_eq a : BM_Rep a = 6144 + a. Proof. reflexivity. Qed.
Lemma BM_Rep0_eq a : BM_Rep0 a = 6156 + a. Proof. reflexivity. Qed.
Lemma BM_Rep0Long_eq a b : BM_Rep0Long a b = 6168 + 4 * a + b. Proof. reflexivity. Qed.
Lemma BM_Rep1_eq a : BM_Rep1 a = 6216 + a. Proof. reflexivity. Qed.
Lemma BM_Rep2_eq a : BM_Rep2 a = 6228 + a. Proof. reflexivity. Qed.
Lemma BM_Literal_eq a : BM_Literal a = 768 * a. Proof. reflexivity. Qed.
Lemma BM_DistSlot_eq a : BM_DistSlot a = 6610 + 64 * a. Proof. reflexivity. Qed.
Lemma BM_Dist_eq a : BM_Dist a = 6866 + a. Proof. reflexivity. Qed.
Lemma BM_Align_eq : BM_Align = 6980. Proof. reflexivity. Qed.
Lemma Choice2_eq L : Choice2 L = L + 1. Proof. reflexivity. Qed.
Lemma Low_eq L pb : Low L pb = L + 2 + 8 * pb.
Proof. change (Low L pb) with (L + 1 + 1 + 8 * pb). lia. Qed.
Lemma Mid_eq L pb : Mid L pb = L + 34 + 8 * pb.
Proof. unfold Mid. rewrite Low_eq. change LZMA_POSITION_COUNT with 4. change LZMA_MAX_MID_LENGTH with 8. lia. Qed.
Lemma High_eq L : High L = L + 66.
Proof. unfold High. rewrite Mid_eq. change LZMA_POSITION_COUNT with 4. lia. Qed.

Create Rewrite HintDb lzma_layout.
#[export] Hint Rewrite BM_Match_eq BM_Rep_eq BM_Rep0_eq BM_Rep0Long_eq BM_Rep1_eq BM_Rep2_eq BM_Literal_eq BM_DistSlot_eq
  BM_Dist_eq BM_Align_eq Choice2_eq Low_eq Mid_eq High_eq : lzma_layout.

(** The decisions at the head of a list. *)
Ltac each_bit tac := repeat match goal with |- Forall _ (_ :: _) => constructor; [tac|] end.

Section code_slots.
Implicit Types (z : lzs).
#[local] Abbreviation ok := (Forall (decision_ok LZMA_BIT_MODEL_SLOTS)).

Lemma len_decisions_slots L pb len : 0 <= L -> L + 322 <= 7318 -> 0 <= pb < 4 -> ok (len_decisions L pb len).
Proof.
  intros HL HL' Hpb. change LZMA_BIT_MODEL_SLOTS with 7318. unfold len_decisions, Choice. autorewrite with lzma_layout.
  repeat case_if; each_bit ltac:(cbn; lia); apply tree_slots; cbn; lia.
Qed.

Lemma dist_decisions_slots len r : len_ok len -> 0 <= r < 2 ^ 32 -> ok (dist_decisions len r).
Proof.
  unfold len_ok. intros Hl Hr. change LZMA_BIT_MODEL_SLOTS with 7318. unfold dist_decisions. apply Forall_app. split.
  { rewrite BM_DistSlot_eq. apply tree_slots; cbn; lia. }
  destruct (decide (r < 4)). { replace (dist_slot r) with r by (unfold dist_slot; by bdec). bdec. constructor. }
  destruct (dist_pieces_ok r ltac:(lia)). bdec. case_if; b2p.
  - destruct (dist_base_slot r ltac:(lia) ltac:(done)) as (? & ? & ?). rewrite BM_Dist_eq. apply rev_tree_slots; [lia|lia|].
    assert (2 ^ Z.of_nat (Z.to_nat (dist_bits r)) <= 2 ^ 5) by (apply Z.pow_le_mono_r; lia). lia.
  - apply Forall_app. split; [apply fixed_bits_slots|]. rewrite BM_Align_eq. apply rev_tree_slots; cbn; lia.
Qed.

Lemma lz_decisions_slots z p : lzs_ok z -> packet_ok z p -> zlen (z_out z) < 2 ^ 32 -> ok (lz_decisions z p).
Proof.
  intros [Hs Ho Hr] Hp Hlen. assert (0 <= zlen (z_out z) mod 4 < 4) as Hpb by (apply Z.mod_pos_bound; lia).
  unfold lz_decisions. set (pb := zlen (z_out z) mod 4) in *.
  assert (forall i, 0 <= i < 7318 -> decision_ok LZMA_BIT_MODEL_SLOTS (Bit i true) /\ decision_ok LZMA_BIT_MODEL_SLOTS (Bit i false)) as Hbit
    by (intros i ?; change LZMA_BIT_MODEL_SLOTS with 7318; cbn; lia).
  destruct p as [b|len dist| |i len]; cbn [packet_ok] in Hp; autorewrite with lzma_layout;
    each_bit ltac:(apply Hbit; lia).
  - pose proof (lookback_byte (z_out z) 1 Ho) as Hb. unfold is_byte in Hb. unfold literal_decisions.
    rewrite BM_Literal_eq. change LZMA_BIT_MODEL_SLOTS with 7318.
    case_if; [apply tree_slots|apply matched_tree_slots]; cbn; lia.
  - unfold dist_ok in Hp. apply Forall_app. split; [apply len_decisions_slots; [done..|lia]|].
    apply dist_decisions_slots; [apply Hp|lia].
  - constructor.
  - apply Forall_app. split; [|apply len_decisions_slots; [done..|lia]].
    destruct i as [|[|[|]]]; each_bit ltac:(apply Hbit; lia); constructor.
Qed.

Lemma lz_applies_ok z ps :
  lzs_ok z -> packets_ok z ps -> zlen (z_out (lz_applies z ps)) < 2 ^ 32 -> lzs_ok (lz_applies z ps).
Proof.
  revert z. induction ps as [|p ps IH]; intros z Hz Hp Hl; [done|]. destruct Hp as [Hp Hps].
  apply IH; [|done|done]. pose proof (lz_applies_length _ _ Hps). pose proof (lz_apply_length _ _ Hp).
  unfold lz_applies in *. cbn in Hl. apply lz_apply_ok; [done|done|]. destruct p; cbn in Hp; unfold len_ok in *; lia.
Qed.

Lemma lz_code_slots z ps :
  lzs_ok z -> packets_ok z ps -> zlen (z_out (lz_applies z ps)) < 2 ^ 32 -> ok (lz_code z ps).
Proof.
  revert z. induction ps as [|p ps IH]; intros z Hz Hp Hl; cbn [lz_code]; [constructor|]. destruct Hp as [Hp Hps].
  cbn in Hl. pose proof (lz_applies_length _ _ Hps). pose proof (lz_apply_length _ _ Hp). unfold lz_applies in *.
  assert (zlen (z_out z) < 2 ^ 32) by (destruct p; cbn in Hp; unfold len_ok in *; lia).
  apply Forall_app. split; [by apply lz_decisions_slots|]. apply IH; [by apply lz_apply_ok|done|done].
Qed.
End code_slots.
