(* ===== verification/XzStream.v ===== *)
(** * XZ blocks: chunks, their bytes and their meaning

    A block is a list of chunks, each raw or made of packets.  [chunks_bytes]
    is its code, [block_data] the data it stands for; [run_chunks] says that
    the loop of Lz2DecodeStream takes one to the other. *)
From S2P Require Import Prelude Machine MinLz Lzma Xz RangeCoder InflateSafe LzmaSpec.

(** ** Chunks *)
Inductive chunk :=
| RawChunk (reset_dict : bool) (data : list Z)
| LzmaChunk (reset : Z) (ps : list packet).

(** The state between chunks; [c_init] says that the model was set up. *)
Record coder := Coder { c_init : bool; c_z : lzs; c_probs : list Z }.

Definition coder_start : coder := Coder false (lzs_start []) [].
Definition default_probs : list Z := replicate (Z.to_nat 7318) 1024.

Definition coder_reset (reset : Z) (c : coder) : coder :=
  if 1 <=? reset then Coder true (lzs_start (z_out (c_z c))) default_probs else c.

Definition chunk_apply (c : coder) (ch : chunk) : coder :=
  match ch with
  | RawChunk _ data =>
      let z := c_z c in
      Coder (c_init c) (Lzs (z_seq z) (z_rep0 z) (z_rep1 z) (z_rep2 z) (z_rep3 z) (z_out z ++ data)) (c_probs c)
  | LzmaChunk reset ps =>
      let c := coder_reset reset c in
      Coder (c_init c) (lz_applies (c_z c) ps) (adapt_all (lz_code (c_z c) ps) (c_probs c))
  end.

Definition chunk_size (c : coder) (ch : chunk) : Z := zlen (z_out (c_z (chunk_apply c ch))) - zlen (z_out (c_z c)).

(** The compressed bytes of a chunk. *)
Definition packet_bytes (c : coder) (reset : Z) (ps : list packet) : list Z :=
  let c := coder_reset reset c in range_bytes (lz_code (c_z c) ps) (c_probs c).

(** A 16-bit number less one, the high byte first. *)
Definition size_bytes (n : Z) : list Z := [(n - 1) / 256; (n - 1) mod 256].

Definition chunk_bytes (c : coder) (ch : chunk) : list Z :=
  match ch with
  | RawChunk reset_dict data => (if reset_dict then 1 else 2) :: size_bytes (zlen data) ++ data
  | LzmaChunk reset ps =>
      let n := chunk_size c ch in
      (128 + 32 * reset + (n - 1) / 65536) :: size_bytes ((n - 1) mod 65536 + 1) ++
      size_bytes (zlen (packet_bytes c reset ps)) ++ (if 2 <=? reset then [93] else []) ++ packet_bytes c reset ps
  end.

(** The format's limits, and those of this decoder: one reset of the
    dictionary, at the start, and less than 64 KiB of compressed data. *)
Definition chunk_ok (c : coder) (ch : chunk) : Prop :=
  match ch with
  | RawChunk reset_dict data =>
      are_bytes data /\ 1 <= zlen data <= 65536 /\ (reset_dict = true -> z_out (c_z c) = [])
  | LzmaChunk reset ps =>
      0 <= reset < 4 /\ (reset < 2 -> c_init c = true) /\ (reset = 3 -> z_out (c_z c) = []) /\
      packets_ok (c_z (coder_reset reset c)) ps /\ 1 <= chunk_size c ch <= 2 ^ 21 /\
      zlen (packet_bytes c reset ps) <= 65535
  end.

Fixpoint chunks_ok (c : coder) (cs : list chunk) : Prop :=
  match cs with [] => True | ch :: cs' => chunk_ok c ch /\ chunks_ok (chunk_apply c ch) cs' end.

Definition chunks_apply (c : coder) (cs : list chunk) : coder := fold_left chunk_apply cs c.

Fixpoint chunks_bytes (c : coder) (cs : list chunk) : list Z :=
  match cs with [] => [0] | ch :: cs' => chunk_bytes c ch ++ chunks_bytes (chunk_apply c ch) cs' end.

(** What a block stands for. *)
Definition block_data (cs : list chunk) : list Z := z_out (c_z (chunks_apply coder_start cs)).

(** Every chunk stands for something. *)
Lemma chunk_size_pos c ch : chunk_ok c ch -> 1 <= chunk_size c ch.
Proof.
  destruct ch as [d data|reset pk]; cbn; [|tauto]. intros (_ & ? & _). unfold chunk_size. cbn. rewrite zlen_app. lia.
Qed.

Lemma chunks_apply_length c cs :
  chunks_ok c cs -> zlen (z_out (c_z c)) + Z.of_nat (length cs) <= zlen (z_out (c_z (chunks_apply c cs))).
Proof.
  revert c. induction cs as [|ch cs IH]; intros c H; [cbn; lia|]. destruct H as [Hch H]. specialize (IH _ H).
  pose proof (chunk_size_pos _ _ Hch). unfold chunk_size, chunks_apply in *. cbn [fold_left length]. lia.
Qed.

(** ** Resetting the model *)
Section reset.
Implicit Types (s : minlz).

Definition reset_probs (l : list Z) s : minlz := set_Decoder (set_probabilities l (mz_Decoder s)) s.

Lemma LzResetState_loop_run n i s l r :
  RawProbabilities (mz_Decoder s) = l ++ r -> length r = n -> i = zlen l ->
  LzResetState_loop n i s = Done (tt, reset_probs (l ++ replicate n 1024) s).
Proof.
  revert i s l r. induction n as [|n IH]; intros i s l r Hp Hn ->; cbn [LzResetState_loop].
  - destruct r; [|done]. rewrite app_nil_r in *. unfold reset_probs. rewrite <- Hp. by destruct s as [? ? ? ? [] ?].
  - destruct r as [|x r]; [done|]. injection Hn as Hn.
    assert (set_probability (zlen l) 1024 s = Done (tt, reset_probs (l ++ 1024 :: r) s)) as R.
    { unfold set_probability. rewrite Hp. rewrite zset_Done by (rewrite zlen_app, zlen_cons; pose proof (zlen_nonneg l); pose proof (zlen_nonneg r); lia).
      rewrite bind_Done, to_nat_zlen. rewrite insert_app_r_alt, Nat.sub_diag by lia. done. }
    rewrite (run_bind _ _ _ _ _ R). rewrite (IH _ _ (l ++ [1024]) r).
    + cbn [replicate]. by rewrite <- app_assoc.
    + by rewrite <- app_assoc.
    + done.
    + rewrite zlen_app, zlen_cons. change (zlen (@nil Z)) with 0. lia.
Qed.

Definition reset_decoder s : minlz :=
  set_Decoder (Decoder_ 0 0 0 0 0 (Len (mz_Decoder s)) default_probs) s.

Lemma LzResetState_run s :
  zlen (RawProbabilities (mz_Decoder s)) = 7318 -> LzResetState s = Done (tt, reset_decoder s).
Proof.
  intros H. unfold LzResetState. unfold mod_Sequence, mod_Decoder. rewrite !run_modify.
  change (Z.to_nat LZMA_BIT_MODEL_SLOTS) with (Z.to_nat 7318).
  rewrite (LzResetState_loop_run _ _ _ [] (RawProbabilities (mz_Decoder s))); [done|done|unfold zlen in H; lia|done].
Qed.
End reset.

(** ** Starting the range decoder *)
Section range_start.
Implicit Types (s : minlz) (bs : list Z).

Lemma advance_advance a b s : advance a (advance b s) = advance (b + a) s.
Proof. unfold advance. cbn. by rewrite Z.add_assoc. Qed.

Lemma RcInitialize_loop_run bs rest code s :
  unread s (bs ++ rest) -> 0 <= code -> code * 256 ^ zlen bs + be_value bs < 2 ^ 32 ->
  RcInitialize_loop (length bs) code s = Done (code * 256 ^ zlen bs + be_value bs, advance (zlen bs) s) /\
  unread (advance (zlen bs) s) rest.
Proof.
  revert code s. induction bs as [|b bs IH]; intros code s Hu Hc Hlt; cbn [RcInitialize_loop length].
  - change (zlen (@nil Z)) with 0. change (be_value []) with 0. rewrite Z.mul_1_r, Z.add_0_r.
    assert (advance 0 s = s) as -> by (destruct s as [? [] ? ? ? ?]; unfold advance; cbn; by rewrite Z.add_0_r). done.
  - cbn [app] in Hu. destruct (unread_cons _ _ _ Hu) as [R Hu']. rewrite (run_bind _ _ _ _ _ R).
    pose proof (un_are_bytes _ _ Hu) as Hb. inversion Hb as [|? ? Hb1 Hb2]; subst.
    apply Forall_app in Hb2 as [Hb2 _]. pose proof (be_value_range bs Hb2). pose proof (zlen_nonneg bs).
    rewrite zlen_cons, be_value_cons, Z.pow_add_r in * by lia. change (256 ^ 1) with 256 in *.
    assert (0 < 256 ^ zlen bs) by lia. unfold is_byte in Hb1. assert (code < 2 ^ 24) by nia.
    rewrite lor_byte by (unfold is_byte; lia). destruct (IH (256 * code + b) (advance 1 s) Hu') as [R' Hu'']; [lia|nia|].
    rewrite R', advance_advance in *. split; [|done]. f_equal. f_equal. ring.
Qed.

(** Seeking back by a wrapped offset. *)
Lemma BfSeek_back m s :
  0 < m < 2 ^ 32 -> 0 <= In_Offset (mz_In s) <= In_SoftLimit (mz_In s) -> In_Offset (mz_In s) < 2 ^ 32 ->
  exists p, BfSeek (u32 (- m)) (advance m s) = Done ((true, p), s).
Proof.
  intros Hm Ho Hl. unfold BfSeek. rewrite run_gets. cbn [mz_In advance set_In set_Offset In_Offset In_SoftLimit].
  assert (u32 (In_Offset (mz_In s) + m + u32 (- m)) = In_Offset (mz_In s)) as ->.
  { rewrite Z.add_comm, wrap_add_l. replace (- m + (In_Offset (mz_In s) + m)) with (In_Offset (mz_In s)) by lia.
    apply u32_small. lia. }
  bdec. rewrite run_modify. exists (u32 (In_Buffer (mz_In s) + (In_Offset (mz_In s) + m))).
  by destruct s as [? [] ? ? ? ?].
Qed.

Definition rc_started (m code : Z) s : minlz :=
  let start := In_Buffer (mz_In s) + In_Offset (mz_In s) + 5 in
  set_RcState (RcState_ start (start + m) (2 ^ 32 - 1) code) (advance 5 s).

Lemma RcInitialize_run s bs rest m :
  unread s (0 :: bs ++ rest) -> zlen bs = 4 -> m = 5 + zlen rest -> m < 2 ^ 16 ->
  In_Buffer (mz_In s) + In_SoftLimit (mz_In s) + 5 < 2 ^ 32 ->
  RcInitialize m s = Done ((true, zlen rest), rc_started m (be_value bs) s) /\
  unread (rc_started m (be_value bs) s) rest.
Proof.
  intros Hu H4 Hm Hm16 Hend. pose proof (zlen_nonneg rest). pose proof Hu as [Hb Hby ? ? Hl ?].
  rewrite zlen_cons, zlen_app in Hl. unfold RcInitialize.
  erewrite run_bind by (apply BfSeek_run; lia). cbv beta iota. cbn [negb].
  destruct (BfSeek_back m s) as [p R]; [lia..|]. rewrite (run_bind _ _ _ _ _ R).
  change (Z.to_nat LZMA_RC_INIT_BYTES) with 5%nat.
  assert (length (0 :: bs) = 5%nat) as H5 by (unfold zlen in H4; cbn [length]; lia).
  assert (are_bytes bs) as Hbs by (inversion_clear Hby as [|? ? _ Hby']; by apply Forall_app in Hby' as [? _]).
  pose proof (be_value_range bs Hbs) as Hbv. rewrite H4 in Hbv. change (256 ^ 4) with (2 ^ 32) in Hbv.
  assert (be_value (0 :: bs) = be_value bs) as Hv0 by (rewrite be_value_cons; lia).
  destruct (RcInitialize_loop_run (0 :: bs) rest 0 s Hu) as [R' Hu']; [lia|lia|].
  rewrite H5, Hv0, Z.mul_0_l, Z.add_0_l in R'. rewrite (run_bind _ _ _ _ _ R').
  rewrite zlen_cons, H4 in *. change (1 + 4) with 5 in *.
  erewrite run_bind by (apply BfSeek_run; cbn; lia). cbv beta iota. rewrite run_modify, advance_advance, Z.add_0_r.
  cbn [mz_In advance set_In set_Offset In_Offset In_Buffer].
  change (u32 (-1)) with (2 ^ 32 - 1). change LZMA_RC_INIT_BYTES with 5. rewrite (wrap_small 16) by lia.
  rewrite !u32_small by (rewrite ?u32_small; lia). split.
  - unfold mret, ST_ret, rc_started. rewrite Z.add_assoc. do 3 f_equal. lia.
  - destruct Hu'. by constructor.
Qed.
End range_start.

(** ** Reading *)
Section stream.
Context (m0 : mem) (ib ob osize size L : Z).
Context (Hib : 0 <= ib) (Hend : ib + L + 5 < 2 ^ 32) (Hsize : L <= size < 2 ^ 32).
Context (Hob : 0 <= ob) (Hoend : ob + osize <= 2 ^ 32) (Hosize : osize < 2 ^ 32) (Hregion : region m0 ob osize).
Context (Hapart : ib + L <= ob \/ ob + osize <= ib).
Implicit Types (s : minlz) (c : coder) (bs rest : list Z) (off sl : Z).

(** The bytes [bs] are next in the input, of which [L] bytes are known; [out] is
    in the output. *)
Record reads off bs (out : list Z) s : Prop := {
  rd_In : mz_In s = In_ ib off size size;
  rd_off : 0 <= off;
  rd_end : off + zlen bs = L;
  rd_bytes : bytes_at m0 (ib + off) bs;
  rd_are_bytes : are_bytes bs;
  rd_mem : mz_mem s = write_bytes m0 ob out;
  rd_room : zlen out <= osize;
}.

Lemma reads_mem off bs out s : reads off bs out s -> bytes_at (mz_mem s) (ib + off) bs.
Proof using Hapart.
  intros [_ ? He Hb _ -> ?]. pose proof (zlen_nonneg bs). pose proof (zlen_nonneg out).
  apply bytes_at_write_disj; [lia|done].
Qed.

Definition at_input off s : minlz := set_In (In_ ib off size size) s.

Lemma reads_step off b1 b2 out s s' :
  reads off (b1 ++ b2) out s -> mz_mem s' = mz_mem s -> mz_In s' = In_ ib (off + zlen b1) size size ->
  reads (off + zlen b1) b2 out s'.
Proof.
  intros [? ? He Hb Ha Hm ?] Hm' Hi. apply bytes_at_app in Hb as [_ Hb]. apply Forall_app in Ha as [_ Ha].
  rewrite zlen_app in He. pose proof (zlen_nonneg b1). constructor; try done; try lia; [|congruence].
  by rewrite Z.add_assoc.
Qed.

Lemma run_Seek n off bs out s :
  reads off bs out s -> 0 <= off + n <= size ->
  BfSeek n s = Done (true, ib + off, at_input (off + n) s).
Proof using Hend Hib Hsize.
  intros [Hi ? He ? ? ? ?] Hn. pose proof (zlen_nonneg bs). rewrite BfSeek_run; rewrite ?Hi; cbn; try lia.
  unfold advance. rewrite Hi. cbn. by rewrite u32_small by lia.
Qed.

Lemma run_Read off b bs out s :
  reads off (b :: bs) out s ->
  BfRead s = Done (true, b, at_input (off + 1) s) /\ reads (off + 1) bs out (at_input (off + 1) s).
Proof using Hapart Hend Hib Hsize.
  intros H. pose proof (reads_mem _ _ _ _ H) as [[Hb ?] _]. pose proof H as [Hi ? He ? ? ? ?]. pose proof (zlen_nonneg bs).
  rewrite zlen_cons in He. split.
  - rewrite (BfRead_run s b); rewrite ?Hi; cbn; try lia.
    + unfold advance. by rewrite Hi.
    + rewrite u32_small by lia. by apply load8_lookup.
  - apply (reads_step off [b] bs out s); done.
Qed.

(** A byte at a distance. *)
Lemma run_load8 s a bs i b : bytes_at (mz_mem s) a bs -> bs !! i = Some b -> mz_load8 (a + Z.of_nat i) s = Done (b, s).
Proof. intros H Hi. unfold mz_load8. by rewrite (load8_bytes_at _ _ _ _ _ H Hi). Qed.

(** ** The state between chunks *)
Definition decoder_of (c : coder) (ps : list Z) : DECODER_STATE :=
  let z := c_z c in Decoder_ (z_seq z) (z_rep0 z) (z_rep1 z) (z_rep2 z) (z_rep3 z) 0 ps.

(** Before the first reset the fields are those of an earlier call. *)
Record decoder_at (c : coder) (d : DECODER_STATE) : Prop := {
  da_len : Len d = 0;
  da_slots : zlen (RawProbabilities d) = 7318;
  da_init : c_init c = true -> d = decoder_of c (c_probs c) /\ probs_ok (c_probs c);
}.

Record between off rest c s : Prop := {
  bt_reads : reads off rest (z_out (c_z c)) s;
  bt_dict : exists st li, mz_Dictionary s = Dictionary_ ob osize st (zlen (z_out (c_z c))) li;
  bt_dec : decoder_at c (mz_Decoder s);
  bt_z : lzs_ok (c_z c);
}.

(** *** Raw chunks *)

(** The output grows to [out]. *)
Definition with_out (out : list Z) s : minlz :=
  set_Dictionary (set_DtOffset (zlen out) (mz_Dictionary s)) (set_mem (write_bytes m0 ob out) s).

Definition in_output (out : list Z) s : Prop :=
  mz_mem s = write_bytes m0 ob out /\ Dictionary_Buffer (mz_Dictionary s) = ob /\
  Dictionary_Offset (mz_Dictionary s) = zlen out.

Lemma run_Put b out s :
  in_output out s -> is_byte b -> zlen out < osize -> DtPutSymbol b s = Done (tt, with_out (out ++ [b]) s).
Proof using Hob Hoend Hosize Hregion.
  intros (Hm & Hb & Ho) Hbyte Hr. pose proof (zlen_nonneg out).
  destruct (region_lookup _ _ _ (ob + zlen out) (region_write _ _ _ ob out Hregion)) as [Hk ?]; [lia|].
  rewrite run_DtPutSymbol; rewrite ?Hb, ?Ho, ?Hm; try done; try lia. unfold with_out.
  rewrite write_bytes_app_up, zlen_app. by rewrite zlen_cons, (zlen_nil (A := Z)), Z.add_0_r.
Qed.

Lemma with_out_twice out1 out2 s : with_out out2 (with_out out1 s) = with_out out2 s.
Proof. done. Qed.

Lemma in_output_with out s : Dictionary_Buffer (mz_Dictionary s) = ob -> in_output out (with_out out s).
Proof. done. Qed.

Lemma run_copy_raw data off out s :
  in_output out s -> 0 <= off -> off + zlen data <= L -> bytes_at m0 (ib + off) data -> are_bytes data ->
  zlen out + zlen data <= osize ->
  copy_raw (length data) (ib + off) s = Done (tt, with_out (out ++ data) s).
Proof using Hapart Hob Hoend Hosize Hregion.
  revert off out s. induction data as [|b data IH]; intros off out s Ho Hoff HL Hd Hb Hr; cbn [copy_raw length].
  - rewrite app_nil_r. destruct Ho as (Hm & _ & Hdo). unfold with_out. rewrite <- Hm, <- Hdo.
    by destruct s as [? ? [] ? ? ?].
  - rewrite zlen_cons in *. pose proof (zlen_nonneg data). pose proof (zlen_nonneg out). inversion_clear Hb.
    destruct Hd as [[Hd ?] Hds]. pose proof Ho as (Hm & Hbuf & _).
    assert (mz_load8 (ib + off) s = Done (b, s)) as R.
    { unfold mz_load8. rewrite (load8_lookup _ _ b); [done| |lia]. rewrite Hm, lookup_write_bytes.
      destruct Hapart; destruct (decide (ob <= ib + off)); first [lia | bdec; done]. }
    rewrite (run_bind _ _ _ _ _ R). erewrite run_bind by (apply run_Put; [done|done|lia]).
    replace (ib + off + 1) with (ib + (off + 1)) by lia.
    rewrite (IH (off + 1) (out ++ [b])); [by rewrite <- app_assoc|by apply in_output_with|lia|lia| |done|].
    + by replace (ib + (off + 1)) with (ib + off + 1) by lia.
    + rewrite zlen_app, zlen_cons. change (zlen (@nil Z)) with 0. lia.
Qed.

(** *** The head of a chunk *)
Lemma size_bytes_byte n : 1 <= n <= 65536 -> are_bytes (size_bytes n).
Proof. intros. unfold size_bytes, is_byte. repeat constructor; lia. Qed.

(** What DtSetLimit leaves. *)
Definition limited (n : Z) (out : list Z) s : minlz := set_Dictionary (Dictionary_ ob osize (zlen out) (zlen out) (zlen out + n)) s.

Lemma run_SetLimit n out st li s :
  mz_Dictionary s = Dictionary_ ob osize st (zlen out) li -> 0 <= n -> zlen out + n <= osize ->
  DtSetLimit n s = Done (true, limited n out s).
Proof using Hosize.
  intros Hd Hn Hr. pose proof (zlen_nonneg out). unfold DtSetLimit. rewrite run_gets, Hd. cbn.
  rewrite u32_small by lia. by bdec.
Qed.

Lemma run_sizes_raw ctrl p n rest s :
  Common_IsLzma ctrl = false -> bytes_at (mz_mem s) p (size_bytes n ++ rest) -> 1 <= n <= 65536 ->
  chunk_sizes ctrl p s = Done ((n, 0), s).
Proof.
  intros Hc Hb Hn. unfold chunk_sizes. rewrite Hc, run_ret. rewrite <- (Z.add_0_r p) at 1.
  erewrite run_bind by (apply (run_load8 _ _ _ 0 _ Hb); reflexivity).
  erewrite run_bind by (apply (run_load8 _ _ _ 1 _ Hb); reflexivity).
  rewrite Z.shiftl_mul_pow2 by lia. change (2 ^ 8) with 256. rewrite (u32_small (0 + _)) by lia.
  rewrite u32_small by lia. unfold mret, ST_ret. do 3 f_equal. lia.
Qed.

Lemma run_raw_chunk n off reset_dict data rest c s bp :
  between off (chunk_bytes c (RawChunk reset_dict data) ++ rest) c s -> chunk_ok c (RawChunk reset_dict data) ->
  zlen (z_out (c_z c)) + zlen data <= osize ->
  exists s', Lz2DecodeStream_chunk n false bp s = Done (NextChunk (u32 (bp + zlen data)), s') /\
    between (off + zlen (chunk_bytes c (RawChunk reset_dict data))) rest (chunk_apply c (RawChunk reset_dict data)) s' /\
    mz_Container s' = mz_Container s.
Proof using All.
  intros H (Hb & Hn & _) Hroom. pose proof H as [Hr (st & li & Hd) Hdec Hz].
  cbn [chunk_bytes app] in *. set (ctrl := if reset_dict then 1 else 2) in *.
  assert ((ctrl =? 0) = false) as Hc0 by (by destruct reset_dict).
  assert (Common_IsLzma ctrl = false) as HcL by (by destruct reset_dict).
  assert (Lzma_ResetState ctrl = 0) as HcR by (by destruct reset_dict). clearbody ctrl.
  destruct (run_Read _ _ _ _ _ Hr) as [R1 Hr1]. rewrite <- app_assoc in Hr1.
  pose proof (rd_end _ _ _ _ Hr1) as HL. rewrite !zlen_app in HL. change (zlen (size_bytes _)) with 2 in HL.
  pose proof (zlen_nonneg rest). pose proof (rd_off _ _ _ _ Hr).
  pose proof (reads_step _ _ _ _ _ (at_input (off + 1 + 2) s) Hr1 eq_refl eq_refl) as Hr2.
  change (zlen (size_bytes _)) with 2 in Hr2.
  unfold Lz2DecodeStream_chunk. rewrite (run_bind _ _ _ _ _ R1). cbn [negb]. rewrite Hc0, HcL.
  erewrite run_bind by (eapply run_Seek; [exact Hr1|lia]). cbv beta iota. cbn [negb].
  erewrite run_bind by (eapply run_sizes_raw; [done|exact (reads_mem _ _ _ _ Hr1)|done]). cbv beta iota.
  erewrite run_bind by (eapply run_SetLimit; [exact Hd|lia|done]). cbn [negb].
  unfold chunk_reset. rewrite HcR. change (0 =? Lzma2FullReset) with false. change (0 =? Lzma2PropertyReset) with false.
  change (0 =? Lzma2SimpleReset) with false. cbn [orb]. rewrite run_ret. cbn [negb].
  change (limited ?n ?o (at_input ?x (at_input ?y s))) with (at_input x (limited n o s)).
  assert (reads (off + 1 + 2) (data ++ rest) (z_out (c_z c)) (at_input (off + 1 + 2) (limited (zlen data) (z_out (c_z c)) s))) as Hr3
    by (destruct Hr2; by constructor).
  erewrite run_bind by (eapply run_Seek; [exact Hr3|lia]). cbv beta iota. cbn [negb].
  rewrite to_nat_zlen. destruct Hr3 as [_ ? _ Hdata%bytes_at_app _ Hmem _].
  erewrite run_bind by (apply (run_copy_raw data _ (z_out (c_z c))); try done; try lia; apply Hdata).
  eexists. split; [reflexivity|]. split; [|done].
  pose proof (zlen_nonneg data).
  replace (off + zlen (ctrl :: size_bytes (zlen data) ++ data)) with (off + 1 + 2 + zlen data)
    by (rewrite zlen_cons, zlen_app; change (zlen (size_bytes _)) with 2; lia).
  constructor; cbn.
  - destruct (reads_step _ data rest _ _ (at_input (off + 1 + 2 + zlen data) s) Hr2 eq_refl eq_refl). constructor; try done.
    by rewrite zlen_app.
  - by eexists _, _.
  - by destruct Hdec.
  - destruct Hz as [? ? ?]. constructor; cbn; [done|by apply Forall_app|done].
Qed.

(** *** Chunks of packets *)

(** The bytes of [range_bytes] in their parts. *)
Lemma range_bytes_parts ds ps v k :
  range_code ds (2 ^ 32 - 1) ps = (v, k) -> 0 <= k -> 0 <= v < 2 ^ 32 * 256 ^ k ->
  exists bs tl, range_bytes ds ps = 0 :: bs ++ tl /\ zlen bs = 4 /\ zlen tl = k /\
    v = be_value bs * 256 ^ zlen tl + be_value tl /\ are_bytes (bs ++ tl).
Proof.
  intros H Hk Hv. unfold range_bytes. rewrite H. pose proof (zlen_be_bytes (4 + Z.to_nat k) v) as Hlen.
  exists (take 4 (be_bytes (4 + Z.to_nat k) v)), (drop 4 (be_bytes (4 + Z.to_nat k) v)).
  rewrite take_drop. unfold zlen in *. rewrite length_take, length_drop.
  split; [done|]. split; [lia|]. split; [lia|]. split; [|apply be_bytes_are_bytes].
  rewrite <- length_drop. change (Z.of_nat (length ?l)) with (zlen l). rewrite <- be_value_app, take_drop, be_value_be_bytes.
  rewrite Z.mod_small; [done|]. rewrite Nat2Z.inj_add, Z2Nat.id, Z.pow_add_r by lia. exact Hv.
Qed.

(** The end of a round: soft limit, range decoder, packets. *)
Lemma run_packets n off rest z ps pk s bp m raw :
  mz_In s = In_ ib off size size -> 0 <= off -> off + zlen (range_bytes (lz_code z pk) ps ++ rest) = L ->
  bytes_at m0 (ib + off) (range_bytes (lz_code z pk) ps ++ rest) -> are_bytes (range_bytes (lz_code z pk) ps) ->
  mz_mem s = write_bytes m0 ob (z_out z) ->
  mz_Dictionary s = Dictionary_ ob osize (zlen (z_out z)) (zlen (z_out z)) (zlen (z_out z) + raw) ->
  mz_Decoder s = Decoder_ (z_seq z) (z_rep0 z) (z_rep1 z) (z_rep2 z) (z_rep3 z) 0 ps ->
  zlen ps = 7318 -> probs_ok ps -> lzs_ok z -> packets_ok z pk -> (length pk <= n)%nat ->
  zlen (z_out (lz_applies z pk)) = zlen (z_out z) + raw -> zlen (z_out z) + raw <= osize ->
  m = zlen (range_bytes (lz_code z pk) ps) -> m <= 65535 ->
  exists s', (ok ← BfSetSoftLimit m;
     if negb (ok : bool) then mret (StreamEnd false bp) else
     '(ok, compressedSize) ← RcInitialize m;
     if negb (ok : bool) then mret (StreamEnd false bp) else
     '(ok, bytesProcessed) ← Lz2DecodeChunk n raw compressedSize;
     if negb (ok : bool) then mret (StreamEnd false bp) else
     _ ← BfResetSoftLimit;
     mret (NextChunk (u32 (bp + bytesProcessed)))) s = Done (NextChunk (u32 (bp + raw)), s') /\
    mz_In s' = In_ ib (off + m) size size /\ mz_mem s' = write_bytes m0 ob (z_out (lz_applies z pk)) /\
    (exists st li, mz_Dictionary s' = Dictionary_ ob osize st (zlen (z_out (lz_applies z pk))) li) /\
    mz_Decoder s' = (let z' := lz_applies z pk in Decoder_ (z_seq z') (z_rep0 z') (z_rep1 z') (z_rep2 z') (z_rep3 z') 0
       (adapt_all (lz_code z pk) ps)) /\ mz_Container s' = mz_Container s.
Proof using All.
  intros Hi Hoff HL Hbytes Hab Hmem Hdict Hdec Hlen Hps Hz Hpk Hn Hraw Hroom Hm Hm16.
  pose proof (zlen_nonneg rest). pose proof (zlen_nonneg (z_out z)). pose proof (lz_applies_length _ _ Hpk).
  pose proof (lz_code_slots z pk Hz Hpk ltac:(lia)) as Hslots. change LZMA_BIT_MODEL_SLOTS with 7318 in Hslots. rewrite <- Hlen in Hslots.
  destruct (range_code (lz_code z pk) (2 ^ 32 - 1) ps) as [v k] eqn:Ec.
  destruct (range_code_bounds _ (2 ^ 32 - 1) _ _ _ ltac:(lia) Hps Hslots Ec) as [Hk Hv].
  destruct (range_bytes_parts _ _ _ _ Ec Hk) as (bs & tl & Erb & H4 & Htl & Ev & Hbt); [nia|].
  rewrite Erb in *. rewrite zlen_app in HL. apply bytes_at_app in Hbytes as [Hbytes _].
  rewrite <- Hm in HL. pose proof (zlen_nonneg tl). rewrite zlen_cons, zlen_app in Hm.
  set (s1 := set_In (In_ ib off (off + m) size) s).
  assert (BfSetSoftLimit m s = Done (true, s1)) as R1.
  { unfold BfSetSoftLimit. rewrite run_gets, Hi. cbn. rewrite !u32_small by lia. by bdec. }
  rewrite (run_bind _ _ _ _ _ R1). cbn [negb].
  assert (unread s1 (0 :: bs ++ tl)) as Hu.
  { unfold s1. constructor; cbn [mz_In mz_mem set_In In_Buffer In_Offset In_SoftLimit]; [|done|lia|lia|rewrite zlen_cons, zlen_app; lia|lia].
    rewrite Hmem. apply bytes_at_write_disj; [|done]. rewrite zlen_cons, zlen_app. lia. }
  destruct (RcInitialize_run s1 bs tl m Hu) as [R2 Hu2]; [lia|lia|lia|cbn; lia|].
  rewrite (run_bind _ _ _ _ _ R2). cbv beta iota. cbn [negb]. set (s2 := rc_started m (be_value bs) s1) in *.
  set (e0 := MinLz m0 (In_ ib 0 (off + m) size) (mz_Dictionary s) (RcState_ (ib + off + 5) (ib + off + 5 + m) 0 0)
    (Decoder_ 0 0 0 0 0 0 []) (mz_Container s)).
  assert (erase s2 = lz_state e0 z 0) as He.
  { unfold erase, lz_state, s2, rc_started, advance, s1, set_Range. cbn. rewrite Hmem, Hdict, Hdec. done. }
  assert (lz_env e0) as Henv.
  { constructor; cbn; rewrite ?Hdict; cbn; try done; lia. }
  assert (rc_at s2 (lz_code z pk)) as Hrc.
  { constructor; cbn; rewrite ?Hdec; cbn; [done|done|lia|]. exists tl. split; [done|]. by rewrite Ec, Ev, Htl. }
  destruct (LzDecode_packets e0 Henv n z pk s2 Hz Hpk) as (s3 & R3 & E3 & P3 & C3 & O3);
    [cbn; rewrite Hdict; cbn; lia|done|done|done|].
  pose proof (at_lz_state e0 s3 _ _ E3) as (Hm3 & Hd3 & Hib3 & Hsl3 & _).
  pose proof (f_equal (fun x => Rc_Start (mz_RcState x)) E3) as Hst3. pose proof (f_equal mz_In E3) as Hin3.
  pose proof (f_equal mz_Decoder E3) as Hdec3. pose proof (f_equal mz_Container E3) as Hcont3. cbn in Hst3, Hin3, Hdec3, Hcont3, Hib3, Hsl3.
  rewrite Hsl3 in O3.
  assert (mz_In s3 = In_ ib (off + m) (off + m) size) as Hi3.
  { destruct (mz_In s3); cbn in *. injection Hin3. intros. by subst. }
  erewrite run_bind.
  2: { unfold Lz2DecodeChunk. rewrite (run_bind _ _ _ _ _ R3). cbn [negb]. unfold RcIsComplete.
    erewrite run_bind.
    2: { erewrite run_bind by (apply BfSeek_run; rewrite Hi3; cbn; lia). cbv beta iota. rewrite run_gets. reflexivity. }
    cbn [mz_RcState mz_In advance set_In]. rewrite C3, Hst3, Hi3. cbn [In_Buffer In_Offset].
    rewrite (u32_small (ib + _)) by lia. rewrite u32_small by lia. cbv beta iota.
    replace (ib + (off + m) - (ib + off + 5)) with (zlen tl) by lia. rewrite !Z.eqb_refl. cbn [negb orb].
    erewrite run_bind by (unfold DtIsComplete; rewrite run_gets; reflexivity). cbv beta iota.
    cbn [mz_Dictionary advance set_In]. rewrite Hd3. cbn. rewrite Hdict. cbn.
    rewrite Hraw. rewrite u32_small by lia. replace (zlen (z_out z) + raw - zlen (z_out z)) with raw by lia.
    rewrite !Z.eqb_refl. cbn. reflexivity. }
  cbv beta iota. cbn [negb]. unfold BfResetSoftLimit. rewrite run_modify. eexists. split; [reflexivity|].
  cbn. rewrite Hi3. cbn. split; [by rewrite Z.add_0_r|].
  rewrite Hd3 in Hm3. cbn in Hm3. rewrite Hdict in Hm3. cbn in Hm3. split; [done|].
  split; [rewrite Hd3; cbn; rewrite Hdict; cbn; by eexists _, _|].
  split; [|done]. cbn in P3. rewrite Hdec in P3. cbn in P3. destruct (mz_Decoder s3). cbn in *. injection Hdec3. intros. by subst.
Qed.

Lemma default_probs_ok : probs_ok default_probs.
Proof. apply Forall_replicate. unfold is_prob. lia. Qed.

Lemma run_chunk_reset ctrl reset c off rest out s :
  Lzma_ResetState ctrl = reset -> 0 <= reset < 4 -> (reset < 2 -> c_init c = true) ->
  reads off ((if 2 <=? reset then [93] else []) ++ rest) out s ->
  decoder_at c (mz_Decoder s) ->
  let c' := coder_reset reset c in
  exists s', chunk_reset ctrl s = Done (true, s') /\
    mz_In s' = In_ ib (off + if 2 <=? reset then 1 else 0) size size /\ mz_mem s' = mz_mem s /\
    mz_Dictionary s' = mz_Dictionary s /\ mz_Container s' = mz_Container s /\
    mz_Decoder s' = decoder_of c' (c_probs c') /\ zlen (c_probs c') = 7318 /\ probs_ok (c_probs c').
Proof using All.
  intros Hc Hr Hinit H [HL0 Hlen Hd] c'. unfold chunk_reset. rewrite Hc.
  change Lzma2FullReset with 3. change Lzma2PropertyReset with 2. change Lzma2SimpleReset with 1.
  pose proof default_probs_ok. assert (zlen default_probs = 7318) by (unfold default_probs; rewrite zlen_replicate; lia).
  pose proof (rd_In _ _ _ _ H) as Hi. unfold c', coder_reset.
  assert (reset = 0 \/ reset = 1 \/ 2 <= reset) as [-> |[-> |H2]] by lia.
  - change (0 =? 3) with false. change (0 =? 2) with false. change (0 =? 1) with false. change (1 <=? 0) with false.
    change (2 <=? 0) with false. destruct (Hd (Hinit ltac:(lia))) as [Hd' Hok]. exists s.
    split; [done|]. split; [by rewrite Z.add_0_r|]. rewrite Hd' in Hlen. done.
  - change (1 =? 3) with false. change (1 =? 2) with false. change (1 =? 1) with true. change (1 <=? 1) with true.
    change (2 <=? 1) with false. cbn [orb]. erewrite run_bind by (by apply LzResetState_run).
    eexists. split; [reflexivity|]. cbn. rewrite HL0, Z.add_0_r. done.
  - replace ((reset =? 3) || (reset =? 2)) with true
      by (assert (reset = 2 \/ reset = 3) as [-> | ->] by lia; reflexivity).
    replace (2 <=? reset) with true in * by (symmetry; apply Z.leb_le; lia).
    replace (1 <=? reset) with true by (symmetry; apply Z.leb_le; lia).
    destruct (run_Read _ _ _ _ _ H) as [R _]. rewrite (run_bind _ _ _ _ _ R). cbn [negb]. unfold LzInitialize.
    change (negb (93 =? k_LzSupportedProperties)) with false. cbv iota.
    erewrite run_bind by (by apply LzResetState_run).
    eexists. split; [reflexivity|]. cbn. by rewrite HL0.
Qed.

Lemma run_sizes_lzma ctrl p raw m rest s :
  Common_IsLzma ctrl = true -> Lzma_RawSize ctrl = (raw - 1) / 65536 ->
  bytes_at (mz_mem s) p (size_bytes ((raw - 1) mod 65536 + 1) ++ size_bytes m ++ rest) ->
  1 <= raw <= 2 ^ 21 -> 1 <= m <= 65535 ->
  chunk_sizes ctrl p s = Done ((raw, m), s).
Proof.
  intros Hc Hq Hb Hraw Hm. unfold chunk_sizes. rewrite Hc.
  erewrite run_bind.
  2: { erewrite run_bind by (apply (run_load8 _ _ _ 2 _ Hb); reflexivity).
    erewrite run_bind by (apply (run_load8 _ _ _ 3 _ Hb); reflexivity). rewrite Hq. reflexivity. }
  cbv beta iota. replace p with (p + Z.of_nat 0) at 1 by lia.
  erewrite run_bind by (apply (run_load8 _ _ _ 0 _ Hb); reflexivity).
  erewrite run_bind by (apply (run_load8 _ _ _ 1 _ Hb); reflexivity).
  rewrite !Z.shiftl_mul_pow2 by lia. change (2 ^ 8) with 256. change (2 ^ 16) with 65536.
  replace ((raw - 1) mod 65536 + 1 - 1) with ((raw - 1) mod 65536) by lia.
  assert (0 <= (raw - 1) mod 65536 < 65536) by (apply Z.mod_pos_bound; lia).
  assert (0 <= (raw - 1) / 65536 < 32) by lia. assert (raw - 1 = 65536 * ((raw - 1) / 65536) + (raw - 1) mod 65536) by (apply Z.div_mod; lia).
  set (lo := (raw - 1) mod 65536) in *. set (hi := (raw - 1) / 65536) in *. clearbody lo hi.
  rewrite (u32_small (hi * 65536 + _)) by lia. rewrite u32_small by lia.
  rewrite (wrap_small 16 ((m - 1) / 256 * 256)) by lia. rewrite wrap_small by lia.
  unfold mret, ST_ret. do 3 f_equal; lia.
Qed.

Lemma control_byte reset q :
  0 <= reset < 4 -> 0 <= q < 32 -> let ctrl := 128 + 32 * reset + q in
  Common_IsLzma ctrl = true /\ Lzma_ResetState ctrl = reset /\ Lzma_RawSize ctrl = q.
Proof.
  intros Hr Hq ctrl. unfold Common_IsLzma, Lzma_ResetState, Lzma_RawSize, ctrl. split; [|split].
  - apply Z.testbit_true; [lia|]. change (2 ^ 7) with 128. lia.
  - change 3 with (2 ^ 2 - 1). rewrite land_low, Z.shiftr_div_pow2 by lia. change (2 ^ 5) with 32. change (2 ^ 2) with 4. lia.
  - change 31 with (2 ^ 5 - 1). rewrite land_low by lia. change (2 ^ 5) with 32. lia.
Qed.

Lemma packet_bytes_length c reset ps : 1 <= zlen (packet_bytes c reset ps).
Proof. unfold packet_bytes, range_bytes. case_match. rewrite zlen_cons. pose proof (zlen_nonneg (be_bytes (4 + Z.to_nat z0) z)). lia. Qed.

Lemma coder_reset_out reset c : z_out (c_z (coder_reset reset c)) = z_out (c_z c).
Proof. unfold coder_reset. by case_if. Qed.

Lemma coder_reset_ok reset c : lzs_ok (c_z c) -> lzs_ok (c_z (coder_reset reset c)).
Proof.
  intros [? Ho ?]. unfold coder_reset. case_if; [|by constructor].
  constructor; cbn; [lia|done|]. intros [|[|[|]]]; cbn; lia.
Qed.

Lemma run_lzma_chunk n off reset pk rest c s bp :
  let ch := LzmaChunk reset pk in
  between off (chunk_bytes c ch ++ rest) c s -> chunk_ok c ch -> (length pk <= n)%nat ->
  zlen (z_out (c_z c)) + chunk_size c ch <= osize ->
  exists s', Lz2DecodeStream_chunk n false bp s = Done (NextChunk (u32 (bp + chunk_size c ch)), s') /\
    between (off + zlen (chunk_bytes c ch)) rest (chunk_apply c ch) s' /\ mz_Container s' = mz_Container s.
Proof using All.
  intros ch H (Hreset & Hinit & _ & Hpk & Hraw & Hm) Hn Hroom. pose proof H as [Hr (st & li & Hd) Hdec Hz].
  unfold ch in *. cbn [chunk_bytes app] in *. set (raw := chunk_size c (LzmaChunk reset pk)) in *. set (pb := packet_bytes c reset pk) in *.
  pose proof (packet_bytes_length c reset pk) as Hm1. fold pb in Hm1.
  destruct (control_byte reset ((raw - 1) / 65536)) as (HcL & HcR & HcS); [done|lia|].
  set (ctrl := 128 + 32 * reset + (raw - 1) / 65536) in *.
  assert ((ctrl =? 0) = false) as Hc0 by (apply Z.eqb_neq; lia). clearbody ctrl.
  set (prop := if 2 <=? reset then [93] else []) in *.
  assert (zlen prop = if 2 <=? reset then 1 else 0) as Hprop by (unfold prop; by destruct (2 <=? reset)).
  destruct (run_Read _ _ _ _ _ Hr) as [R1 Hr1]. rewrite <- !app_assoc in Hr1. rewrite (app_assoc (size_bytes _)) in Hr1.
  pose proof (rd_end _ _ _ _ Hr1) as HL. rewrite !zlen_app in HL. change (zlen (size_bytes _)) with 2 in HL.
  pose proof (zlen_nonneg rest). pose proof (zlen_nonneg prop). pose proof (rd_off _ _ _ _ Hr).
  pose proof (reads_step _ _ _ _ _ (at_input (off + 1 + 4) s) Hr1 eq_refl eq_refl) as Hr2.
  rewrite !zlen_app in Hr2. change (zlen (size_bytes _)) with 2 in Hr2. change (2 + 2) with 4 in Hr2.
  unfold Lz2DecodeStream_chunk. rewrite (run_bind _ _ _ _ _ R1). cbn [negb]. rewrite Hc0, HcL.
  erewrite run_bind by (eapply run_Seek; [exact Hr1|lia]). cbv beta iota. cbn [negb].
  pose proof (reads_mem _ _ _ _ Hr1) as Hmem1. rewrite <- app_assoc in Hmem1.
  erewrite run_bind by (eapply run_sizes_lzma; [done|exact HcS|exact Hmem1|done|lia]). cbv beta iota.
  erewrite run_bind by (eapply run_SetLimit; [exact Hd|lia|done]). cbn [negb].
  change (limited ?n ?o (at_input ?x (at_input ?y s))) with (at_input x (limited n o s)).
  assert (reads (off + 1 + 4) (prop ++ pb ++ rest) (z_out (c_z c)) (at_input (off + 1 + 4) (limited raw (z_out (c_z c)) s))) as Hr3
    by (destruct Hr2; by constructor).
  destruct (run_chunk_reset ctrl reset c _ (pb ++ rest) _ _ HcR Hreset Hinit Hr3 Hdec)
    as (s4 & R4 & Hi4 & Hm4 & Hd4 & Hc4 & Hdec4 & Hlen4 & Hps4).
  rewrite (run_bind _ _ _ _ _ R4). cbn [negb]. rewrite <- Hprop in Hi4.
  pose proof (reads_step _ _ _ _ _ s4 Hr3 Hm4 Hi4) as Hr4. pose proof Hr4 as [_ Hoff4 HL4 Hb4 Hab4 Hmem4 _].
  pose proof (coder_reset_out reset c) as Hout. rewrite <- Hout in Hmem4.
  assert (zlen (z_out (lz_applies (c_z (coder_reset reset c)) pk)) = zlen (z_out (c_z (coder_reset reset c))) + raw) as Hsz
    by (rewrite Hout; unfold raw, chunk_size; cbn; lia).
  apply Forall_app in Hab4 as [Hab4 Hab4'].
  destruct (run_packets n _ rest (c_z (coder_reset reset c)) _ pk s4 bp (zlen pb) raw Hi4 Hoff4 HL4 Hb4 Hab4 Hmem4)
    as (s5 & R5 & Hi5 & Hm5 & Hd5 & Hdec5 & Hc5); try done; try lia.
  { rewrite Hd4. cbn. by rewrite Hout. }
  { by apply coder_reset_ok. }
  { by rewrite Hout. }
  exists s5. split; [exact R5|]. split; [|by rewrite Hc5, Hc4].
  replace (off + zlen (ctrl :: _)) with (off + 1 + 4 + zlen prop + zlen pb)
    by (rewrite zlen_cons, !zlen_app; change (zlen (size_bytes _)) with 2; lia).
  pose proof (coder_reset_ok reset c Hz) as Hz'.
  assert (zlen (z_out (c_z (coder_reset reset c))) < 2 ^ 32) by (rewrite Hout; pose proof (rd_room _ _ _ _ Hr); lia).
  constructor.
  - destruct (reads_step _ pb rest _ _ (at_input (off + 1 + 4 + zlen prop + zlen pb) s4) Hr4 eq_refl eq_refl).
    cbn [chunk_apply c_z]. constructor; try done. rewrite Hsz, Hout. done.
  - exact Hd5.
  - cbn [chunk_apply c_z c_init c_probs]. rewrite Hdec5.
    assert (Forall (decision_ok (zlen (c_probs (coder_reset reset c)))) (lz_code (c_z (coder_reset reset c)) pk)) as Hsl.
    { rewrite Hlen4. apply lz_code_slots; [done|done|]. rewrite Hsz, Hout. lia. }
    destruct (adapt_all_ok _ _ Hps4 Hsl) as [Ha1 Ha2]. constructor; [done|cbn; by rewrite Ha2|done].
  - cbn [chunk_apply c_z]. apply lz_applies_ok; [done|done|]. rewrite Hsz, Hout. lia.
Qed.

(** *** The whole block *)
Lemma run_chunk n off ch rest c s bp :
  between off (chunk_bytes c ch ++ rest) c s -> chunk_ok c ch -> (Z.to_nat osize <= n)%nat ->
  zlen (z_out (c_z c)) + chunk_size c ch <= osize ->
  exists s', Lz2DecodeStream_chunk n false bp s = Done (NextChunk (u32 (bp + chunk_size c ch)), s') /\
    between (off + zlen (chunk_bytes c ch)) rest (chunk_apply c ch) s' /\ mz_Container s' = mz_Container s.
Proof using All.
  intros H Hok Hn Hr. destruct ch as [d data|reset pk].
  - assert (chunk_size c (RawChunk d data) = zlen data) as Hs by (unfold chunk_size; cbn; rewrite zlen_app; lia).
    rewrite Hs in *. by apply run_raw_chunk.
  - apply run_lzma_chunk; [done..| |done]. pose proof Hok as (_ & _ & _ & Hpk & _).
    pose proof (lz_applies_length _ _ Hpk) as Hl. rewrite coder_reset_out in Hl. unfold chunk_size in Hr. cbn in Hr.
    pose proof (zlen_nonneg (z_out (c_z c))). lia.
Qed.

Lemma run_chunks n k off cs rest c s bp :
  between off (chunks_bytes c cs ++ rest) c s -> chunks_ok c cs -> (Z.to_nat osize <= n)%nat -> (length cs < k)%nat ->
  zlen (z_out (c_z (chunks_apply c cs))) <= osize -> bp = zlen (z_out (c_z c)) ->
  exists s', Lz2DecodeStream_loop n k false bp s = Done ((true, zlen (z_out (c_z (chunks_apply c cs)))), s') /\
    between (off + zlen (chunks_bytes c cs)) rest (chunks_apply c cs) s' /\ mz_Container s' = mz_Container s.
Proof using All.
  revert k off c s bp. induction cs as [|ch cs IH]; intros [|k] off c s bp H Hok Hn Hk Hr ->; cbn [length] in Hk; try lia;
    cbn [Lz2DecodeStream_loop chunks_bytes chunks_apply fold_left] in *.
  - pose proof (bt_reads _ _ _ _ H) as Hrd. destruct (run_Read _ _ _ _ _ Hrd) as [R Hrd'].
    assert (Lz2DecodeStream_chunk n false (zlen (z_out (c_z c))) s =
      Done (StreamEnd true (zlen (z_out (c_z c))), at_input (off + 1) s)) as R'
      by (unfold Lz2DecodeStream_chunk; by rewrite (run_bind _ _ _ _ _ R)).
    exists (at_input (off + 1) s). rewrite (run_bind _ _ _ _ _ R'). split; [done|]. split; [|done]. by destruct H.
  - destruct Hok as [Hch Hok]. pose proof (chunks_apply_length _ _ Hok) as Hlen. unfold chunks_apply in Hlen.
    pose proof (chunk_size_pos _ _ Hch). pose proof (zlen_nonneg (z_out (c_z c))).
    rewrite <- app_assoc in H.
    destruct (run_chunk n off ch _ c s (zlen (z_out (c_z c))) H Hch Hn) as (s1 & R1 & Hbt1 & Hc1); [unfold chunk_size in *; lia|].
    rewrite (run_bind _ _ _ _ _ R1). unfold chunk_size in *. rewrite u32_small by lia.
    destruct (IH k _ (chunk_apply c ch) s1 (zlen (z_out (c_z (chunk_apply c ch)))) Hbt1) as (s2 & R2 & Hrd2 & Hc2); try done; [lia|].
    exists s2. replace (zlen (z_out (c_z c)) + (_ - _)) with (zlen (z_out (c_z (chunk_apply c ch)))) by lia.
    split; [done|]. rewrite zlen_app, Z.add_assoc. split; [done|congruence].
Qed.
End stream.

