(* ===== verification/XzProps.v ===== *)
(** * XZ files: the properties

    A file wraps a block of chunks; [xz_bytes] is its code.  The first theorem
    says that the decoder turns every such file into the data of its block and
    finds its end. *)
From S2P Require Import Prelude Machine MinLz Lzma Xz RangeCoder InflateSafe LzmaSpec XzStream.

(** ** The format *)

(** Variable-length integers below [2 ^ 28]: seven bits a byte, the low ones
    first. *)
Fixpoint vli_code (k : nat) (n : Z) : list Z :=
  match k with
  | O => [n]
  | S k' => if n <? 128 then [n] else (128 + n mod 128) :: vli_code k' (n / 128)
  end.
Definition vli_bytes (n : Z) : list Z := vli_code 3 n.

Definition check_size (check : Z) : Z := if check =? 0 then 0 else 4 * 2 ^ ((check - 1) / 3).

(** Zeros up to the next multiple of four. *)
Definition padding (n : Z) : list Z := replicate (Z.to_nat ((- n) mod 4)) 0.

(** The checksums are fields of their own: this build does not look at them. *)
Record xz_file := XzFile {
  xf_check : Z;
  xf_dict_size : Z;
  xf_chunks : list chunk;
  xf_header_crc : list Z;
  xf_block_pad : list Z;
  xf_block_crc : list Z;
  xf_block_check : list Z;
  xf_index_crc : list Z;
  xf_footer_crc : list Z;
}.

Definition xz_stream_header (f : xz_file) : list Z :=
  [0xFD; 0x37; 0x7A; 0x58; 0x5A; 0; 0; xf_check f] ++ xf_header_crc f.

Definition xz_block_header (f : xz_file) : list Z :=
  [2; 0; 0x21; 1; xf_dict_size f] ++ xf_block_pad f ++ xf_block_crc f.

Definition xz_block (f : xz_file) : list Z := chunks_bytes coder_start (xf_chunks f).

Definition unpadded_size (f : xz_file) : Z := 12 + zlen (xz_block f) + check_size (xf_check f).

Definition xz_index_fields (f : xz_file) : list Z :=
  [0; 1] ++ vli_bytes (unpadded_size f) ++ vli_bytes (zlen (block_data (xf_chunks f))).

Definition xz_index (f : xz_file) : list Z := xz_index_fields f ++ padding (zlen (xz_index_fields f)).

Definition xz_footer (f : xz_file) : list Z :=
  xf_footer_crc f ++ le_bytes 4 (zlen (xz_index f) / 4) ++ [0; xf_check f; 0x59; 0x5A].

Definition xz_bytes (f : xz_file) : list Z :=
  xz_stream_header f ++ xz_block_header f ++ xz_block f ++ padding (zlen (xz_block f)) ++ xf_block_check f ++
  xz_index f ++ xf_index_crc f ++ xz_footer f.

(** What the format asks for, the sizes that this decoder can read, and at least
    one chunk's worth of data. *)
Record xz_ok (f : xz_file) : Prop := {
  xo_check : xf_check f ∈ [0; 1; 4; 10];
  xo_dict : 0 <= xf_dict_size f <= 39;
  xo_chunks : chunks_ok coder_start (xf_chunks f);
  xo_header_crc : zlen (xf_header_crc f) = 4;
  xo_block_pad : zlen (xf_block_pad f) = 3;
  xo_block_crc : zlen (xf_block_crc f) = 4;
  xo_block_check : zlen (xf_block_check f) = check_size (xf_check f);
  xo_index_crc : zlen (xf_index_crc f) = 4;
  xo_footer_crc : zlen (xf_footer_crc f) = 4;
  xo_unpadded : unpadded_size f < 2 ^ 28;
  xo_data : zlen (block_data (xf_chunks f)) < 2 ^ 28;
}.

(** ** Numbers and padding *)
Lemma vli_code_length k n : 1 <= zlen (vli_code k n) <= 1 + Z.of_nat k.
Proof.
  revert n. induction k as [|k IH]; intros n; cbn [vli_code]; [rewrite zlen_cons; change (zlen (@nil Z)) with 0; lia|].
  case_if; rewrite zlen_cons; [change (zlen (@nil Z)) with 0; lia|]. specialize (IH (n / 128)). lia.
Qed.

(** The first byte of a code: the low digit, and whether there is more. *)
Lemma vli_code_head k n : 0 <= n < 128 ^ (1 + Z.of_nat k) ->
  exists b bs, vli_code k n = b :: bs /\ Z.land b 0x7F = n mod 128 /\ 0 <= b < 256 /\ (0 < n -> b <> 0) /\
    (if n <? 128 then Z.land b 0x80 = 0 /\ bs = []
     else Z.land b 0x80 <> 0 /\ exists k', k = S k' /\ bs = vli_code k' (n / 128)).
Proof.
  intros Hn. assert (forall b, Z.land b 0x7F = b mod 128) as Hlow by (intros b; apply (land_low b 7); lia).
  assert (forall b, 0 <= b < 256 -> Z.land b 0x80 = if b <? 128 then 0 else 128) as Hhigh.
  { intros b Hb. replace (Z.land b 128) with (128 * (b / 128 mod 2)).
    - case_if; b2p; lia.
    - change 128 with (2 ^ 7). rewrite <- Z.testbit_spec' by lia. apply Z.bits_inj'. intros i Hi.
      rewrite Z.land_spec, Z.pow2_bits_eqb by lia. rewrite Z.mul_comm, Z.mul_pow2_bits by lia.
      destruct (Z.eqb_spec 7 i) as [<-|Hne].
      + rewrite Z.sub_diag, andb_true_r. by destruct (Z.testbit b 7).
      + rewrite andb_false_r. destruct (decide (i < 7)); [by rewrite Z.testbit_neg_r by lia|].
        destruct (Z.testbit b 7); [|apply Z.bits_0]. cbn [Z.b2z]. by rewrite (testbit_high 1 1) by lia. }
  destruct k as [|k]; cbn [vli_code].
  - change (128 ^ (1 + Z.of_nat 0)) with 128 in Hn. exists n, []. rewrite Hlow, Hhigh by lia. bdec. repeat split; lia.
  - destruct (n <? 128) eqn:E; b2p.
    + exists n, []. rewrite Hlow, Hhigh by lia. bdec. repeat split; lia.
    + exists (128 + n mod 128), (vli_code k (n / 128)). assert (0 <= n mod 128 < 128) by (apply Z.mod_pos_bound; lia).
      rewrite Hlow, Hhigh by lia. bdec. repeat split; try lia. by exists k.
Qed.

(** ** The parts of a file *)
Section container.
Context (m0 : mem) (ib ob osize size L : Z).
Context (Hib : 0 <= ib) (Hend : ib + L + 5 < 2 ^ 32) (Hsize : L <= size < 2 ^ 32).
Context (Hob : 0 <= ob) (Hoend : ob + osize <= 2 ^ 32) (Hosize : osize < 2 ^ 32) (Hregion : region m0 ob osize).
Context (Hapart : ib + L <= ob \/ ob + osize <= ib).
Implicit Types (s : minlz) (bs rest out : list Z) (off n : Z).
#[local] Abbreviation reads := (reads m0 ib ob osize size L).
#[local] Abbreviation at_input := (at_input ib size).

Lemma container_Read off b bs out s :
  reads off (b :: bs) out s ->
  BfRead s = Done (true, b, at_input (off + 1) s) /\ reads (off + 1) bs out (at_input (off + 1) s).
Proof using All. by eapply run_Read. Qed.

Lemma container_Seek n off bs out s :
  reads off bs out s -> 0 <= off + n <= size -> BfSeek n s = Done (true, ib + off, at_input (off + n) s).
Proof using All. by eapply run_Seek. Qed.

Lemma container_step off b1 b2 out s : reads off (b1 ++ b2) out s -> reads (off + zlen b1) b2 out (at_input (off + zlen b1) s).
Proof using All. intros H. by eapply reads_step. Qed.

Lemma at_input_twice a b s : at_input a (at_input b s) = at_input a s.
Proof. done. Qed.

(** *** Numbers *)
Lemma run_Vli_loop k j n off rest out s b bs bitPos acc i :
  vli_code k n = b :: bs -> 0 <= n < 128 ^ (1 + Z.of_nat k) -> (k < j)%nat ->
  bitPos = 7 * i -> 1 <= i -> i + Z.of_nat k <= 4 -> 0 <= acc < 2 ^ (bitPos - 7) ->
  reads off (bs ++ rest) out s ->
  XzDecodeVli_loop j b bitPos (acc + 2 ^ (bitPos - 7) * (n mod 128)) s =
    Done ((true, acc + 2 ^ (bitPos - 7) * n), at_input (off + zlen bs) s) .
Proof using All.
  revert j n off s b bs bitPos acc i.
  induction k as [|k IH]; intros [|j] n off s b bs bitPos acc i Hc Hn Hj -> Hi Hik Hacc Hr; try lia;
    destruct (vli_code_head _ n Hn) as (b' & bs' & Hc' & Hlow & Hb' & _ & Hmore); rewrite Hc in Hc'; injection Hc' as <- <-;
    cbn [XzDecodeVli_loop]; destruct (n <? 128) eqn:En; b2p.
  1,3: destruct Hmore as [-> ->]; rewrite Z.mod_small by lia; change (0 =? 0) with true; cbv iota;
    change (zlen (@nil Z)) with 0; rewrite Z.add_0_r; do 2 f_equal;
    destruct Hr as [Hi' _ _ _ _ _ _]; unfold XzStream.at_input; rewrite <- Hi'; by destruct s.
  1: destruct Hmore as (_ & k' & ? & _); lia.
  destruct Hmore as (Hhigh & k' & [= <-] & ->). rewrite Nat2Z.inj_succ in *.
  assert (0 <= n / 128 < 128 ^ (1 + Z.of_nat k)) as Hn'.
  { replace (1 + Z.succ (Z.of_nat k)) with (1 + (1 + Z.of_nat k)) in Hn by lia. rewrite (Z.pow_add_r 128 1) in Hn by lia. lia. }
  destruct (vli_code_head k (n / 128) Hn') as (b2 & bs2 & Hc2 & Hlow2 & Hb2 & Hnz & _). rewrite Hc2 in *.
  cbn [app] in Hr. destruct (container_Read _ _ _ _ _ Hr) as [R Hr2].
  replace (Z.land b 128 =? 0) with false by (symmetry; by apply Z.eqb_neq).
  rewrite (run_bind _ _ _ _ _ R). cbn [negb]. change (7 * VLI_BYTES_MAX) with 28.
  assert (b2 <> 0) by (apply Hnz; lia). bdec. cbn [orb].
  assert (2 ^ (7 * i) = 2 ^ (7 * i - 7) * 128) as Hp by (change 128 with (2 ^ 7); rewrite <- Z.pow_add_r by lia; f_equal; lia).
  assert (2 ^ (7 * i) <= 2 ^ 21) by (apply Z.pow_le_mono_r; lia).
  assert (0 <= n mod 128 < 128) by (apply Z.mod_pos_bound; lia). assert (0 <= (n / 128) mod 128 < 128) by (apply Z.mod_pos_bound; lia).
  assert (0 < 2 ^ (7 * i - 7)) by lia.
  rewrite Hlow2, Z.shiftl_mul_pow2, u32_small by nia. rewrite (Z.mul_comm _ (2 ^ (7 * i))), lor_disjoint by nia.
  replace (7 * i + 7) with (7 * (i + 1)) by lia.
  replace (2 ^ (7 * i) * ((n / 128) mod 128)) with (2 ^ (7 * (i + 1) - 7) * ((n / 128) mod 128)) by (do 2 f_equal; lia).
  rewrite (IH j (n / 128) (off + 1) _ b2 bs2 _ _ (i + 1)); try done; try lia.
  - rewrite at_input_twice, zlen_cons. replace (off + 1 + zlen bs2) with (off + (1 + zlen bs2)) by lia.
    replace (7 * (i + 1) - 7) with (7 * i) by lia. rewrite Hp.
    replace (acc + _ + _) with (acc + 2 ^ (7 * i - 7) * n); [done|].
    transitivity (acc + 2 ^ (7 * i - 7) * (128 * (n / 128) + n mod 128)); [f_equal; f_equal; lia|ring].
  - replace (7 * (i + 1) - 7) with (7 * i) by lia. nia.
Qed.

Lemma run_Vli n v off rest out s :
  0 <= n < 2 ^ 28 -> reads off (vli_bytes n ++ rest) out s ->
  XzDecodeVli v s = Done ((true, n), at_input (off + zlen (vli_bytes n)) s).
Proof using All.
  intros Hn Hr. unfold vli_bytes in *. destruct (vli_code_head 3 n) as (b & bs & Hc & Hlow & _); [cbn; lia|].
  rewrite Hc in *. cbn [app] in Hr. destruct (container_Read _ _ _ _ _ Hr) as [R Hr2].
  unfold XzDecodeVli. rewrite (run_bind _ _ _ _ _ R). cbn [negb]. rewrite Hlow.
  pose proof (run_Vli_loop 3 5 n (off + 1) rest out _ b bs 7 0 1 Hc ltac:(cbn; lia) ltac:(lia) ltac:(lia) ltac:(lia) ltac:(lia)
    ltac:(cbn; lia) Hr2) as H.
  change (2 ^ (7 - 7)) with 1 in H. rewrite !Z.mul_1_l, !Z.add_0_l in H. rewrite H, at_input_twice, zlen_cons.
  do 3 f_equal. lia.
Qed.

(** *** Padding *)
Lemma run_Align_loop k p off rest out s :
  (p < k)%nat -> (p < 4)%nat -> (off + Z.of_nat p) mod 4 = 0 -> reads off (replicate p 0 ++ rest) out s ->
  BfAlign_loop k s = Done (true, at_input (off + Z.of_nat p) s).
Proof using All.
  revert p off s. induction k as [|k IH]; intros p off s Hk H4 Hp Hr; [lia|]. cbn [BfAlign_loop].
  rewrite run_gets, (rd_In _ _ _ _ _ _ _ _ _ _ Hr). cbn [In_Offset]. change 3 with (2 ^ 2 - 1). rewrite land_low by lia.
  change (2 ^ 2) with 4. destruct p as [|p].
  - replace (off mod 4) with 0 by lia. change (0 =? 0) with true. cbv iota. rewrite Z.add_0_r.
    destruct Hr as [Hi _ _ _ _ _ _]. unfold XzStream.at_input. rewrite <- Hi. by destruct s.
  - assert (off mod 4 <> 0) by lia. bdec. cbn [replicate app] in Hr. destruct (container_Read _ _ _ _ _ Hr) as [R Hr2].
    rewrite (run_bind _ _ _ _ _ R). cbn [negb orb]. rewrite Z.eqb_refl. cbn [negb].
    rewrite (IH p (off + 1)); try done; try lia. rewrite at_input_twice. do 3 f_equal. lia.
Qed.

Lemma zlen_padding n : zlen (padding n) = (- n) mod 4.
Proof. unfold padding. rewrite zlen_replicate. pose proof (Z.mod_pos_bound (- n) 4). lia. Qed.

Lemma run_Align off n rest out s :
  off mod 4 = n mod 4 -> reads off (padding n ++ rest) out s ->
  BfAlign s = Done (true, at_input (off + zlen (padding n)) s).
Proof using All.
  intros Ho Hr. pose proof (Z.mod_pos_bound (- n) 4 ltac:(lia)). rewrite zlen_padding. unfold BfAlign, padding in *.
  replace ((- n) mod 4) with (Z.of_nat (Z.to_nat ((- n) mod 4))) at 1 by lia. apply (run_Align_loop _ _ _ rest out); try lia. done.
Qed.

(** *** Headers *)
Lemma run_load_le s a l1 l2 l3 :
  bytes_at (mz_mem s) a (l1 ++ l2 ++ l3) -> mz_load (length l2) (a + zlen l1) s = Done (le_value l2, s).
Proof.
  intros H. apply bytes_at_app in H as [_ H]. apply bytes_at_app in H as [H _].
  unfold mz_load. by rewrite (load_le_bytes_at _ _ _ H).
Qed.

Lemma reads_Container off bs out ct s : reads off bs out s -> reads off bs out (set_Container ct s).
Proof. intros []. by constructor. Qed.

Lemma known_check check : check ∈ [0; 1; 4; 10] ->
  let flags := le_value [0; check] in
  known_flags flags = true /\ (if CheckType flags =? 0 then 0 else Z.shiftl 4 ((CheckType flags - 1) / 3)) = check_size check /\
  is_byte check /\ 0 <= check_size check <= 32.
Proof.
  intros H. repeat (apply elem_of_cons in H as [-> |H]; [vm_compute; repeat split; congruence|]). by apply elem_of_nil in H.
Qed.

Lemma run_StreamHeader off f rest out s :
  reads off (xz_stream_header f ++ rest) out s -> xz_ok f ->
  XzDecodeStreamHeader s =
    Done (true, set_Container (set_ChecksumSize (check_size (xf_check f)) (mz_Container s)) (at_input (off + 12) s)).
Proof using All.
  intros Hr Hf. pose proof (rd_end _ _ _ _ _ _ _ _ _ _ Hr) as HL. pose proof (rd_off _ _ _ _ _ _ _ _ _ _ Hr).
  assert (zlen (xz_stream_header f) = 12) as H12 by (unfold xz_stream_header; rewrite zlen_app, (xo_header_crc _ Hf); done).
  rewrite zlen_app in HL. pose proof (zlen_nonneg rest). destruct (known_check _ (xo_check _ Hf)) as (Hk & Hcs & _).
  unfold XzDecodeStreamHeader. erewrite run_bind by (eapply container_Seek; [exact Hr|change sizeof_XZ_STREAM_HEADER with 12; lia]).
  cbv beta iota. cbn [negb]. change sizeof_XZ_STREAM_HEADER with 12.
  assert (bytes_at (mz_mem (at_input (off + 12) s)) (ib + off) (xz_stream_header f ++ rest)) as Hm by exact (reads_mem _ _ _ _ _ _ Hapart _ _ _ _ Hr).
  unfold xz_stream_header in Hm. rewrite <- app_assoc in Hm.
  erewrite run_bind by (apply (run_load_le _ (ib + off) [0xFD] [0x37; 0x7A; 0x58; 0x5A] _ Hm)).
  change (negb (le_value _ =? header_magic)) with false. cbv iota.
  replace (ib + off) with (ib + off + Z.of_nat 0) at 1 by lia.
  erewrite run_bind by (apply (run_load8 _ _ _ 0 _ Hm); reflexivity). change (negb (0xFD =? 0xFD)) with false. cbv iota.
  erewrite run_bind by (apply (run_load8 _ _ _ 5 _ Hm); reflexivity). change (negb (0 =? 0)) with false. cbv iota.
  erewrite run_bind by (apply (run_load_le _ (ib + off) [0xFD; 0x37; 0x7A; 0x58; 0x5A; 0] [0; xf_check f] _ Hm)).
  rewrite Hk. cbn [negb]. unfold mod_Container. rewrite run_modify. rewrite Hcs. done.
Qed.

Lemma run_BlockHeader off f rest out s :
  reads off (xz_block_header f ++ rest) out s -> xz_ok f ->
  XzDecodeBlockHeader s =
    Done (XzBlockHeaderSuccess, set_Container (set_HeaderSize 12 (mz_Container s)) (at_input (off + 12) s)).
Proof using All.
  intros Hr Hf. pose proof (rd_end _ _ _ _ _ _ _ _ _ _ Hr) as HL. pose proof (rd_off _ _ _ _ _ _ _ _ _ _ Hr).
  assert (zlen (xz_block_header f) = 12) as H12
    by (unfold xz_block_header; rewrite !zlen_app, (xo_block_pad _ Hf), (xo_block_crc _ Hf); done).
  rewrite zlen_app in HL. pose proof (zlen_nonneg rest).
  unfold XzDecodeBlockHeader. change sizeof_XZ_BLOCK_HEADER with 12.
  erewrite run_bind by (eapply container_Seek; [exact Hr|lia]). cbv beta iota. cbn [negb].
  assert (bytes_at (mz_mem (at_input (off + 12) s)) (ib + off) (xz_block_header f ++ rest)) as Hm by exact (reads_mem _ _ _ _ _ _ Hapart _ _ _ _ Hr).
  unfold xz_block_header in Hm. rewrite <- app_assoc in Hm.
  erewrite run_bind by (apply (run_load8 _ _ _ 0 _ Hm); reflexivity). change (2 =? 0) with false. cbv iota zeta.
  unfold mod_Container. rewrite run_modify. change (u32 ((2 + 1) * 4)) with 12. change (negb (12 =? 12)) with false. cbv iota.
  set (s1 := set_Container (set_HeaderSize 12 _) _). assert (bytes_at (mz_mem s1) (ib + off) _) as Hm1 by exact Hm.
  erewrite run_bind by (apply (run_load8 s1 _ _ 1 _ Hm1); reflexivity). change (negb (0 =? 0)) with false. cbv iota.
  erewrite run_bind by (apply (run_load8 s1 _ _ 2 _ Hm1); reflexivity).
  change (negb (0x21 =? k_XzLzma2FilterIdentifier)) with false. cbv iota.
  erewrite run_bind by (apply (run_load8 s1 _ _ 3 _ Hm1); reflexivity). change (negb (1 =? 1)) with false. cbv iota.
  erewrite run_bind by (apply (run_load8 s1 _ _ 4 _ Hm1); reflexivity).
  pose proof (xo_dict _ Hf). unfold DictionarySize. change 63 with (2 ^ 6 - 1). rewrite land_low by lia.
  rewrite Z.mod_small by lia. by bdec.
Qed.

(** *** Index and footer *)
Lemma run_Index off f rest out s :
  off mod 4 = 0 -> reads off (xz_index f ++ xf_index_crc f ++ rest) out s -> xz_ok f ->
  UnpaddedBlockSize (mz_Container s) = unpadded_size f ->
  UncompressedBlockSize (mz_Container s) = zlen (block_data (xf_chunks f)) ->
  XzDecodeIndex s = Done (true, set_Container (set_IndexSize (zlen (xz_index f)) (mz_Container s))
    (at_input (off + zlen (xz_index f) + 4) s)).
Proof using All.
  intros Hoff Hr Hf Hun Hunc. pose proof Hr as Hr0. unfold xz_index in Hr.
  remember (padding (zlen (xz_index_fields f))) as pad eqn:Hpad. unfold xz_index_fields in Hr. rewrite <- !app_assoc in Hr. cbn [app] in Hr.
  pose proof (rd_off _ _ _ _ _ _ _ _ _ _ Hr). pose proof (rd_end _ _ _ _ _ _ _ _ _ _ Hr0) as HL. rewrite !zlen_app in HL.
  pose proof (zlen_nonneg (xz_index f)). pose proof (zlen_nonneg rest). pose proof (xo_index_crc _ Hf).
  pose proof (zlen_nonneg (xz_block f)). pose proof (zlen_nonneg (block_data (xf_chunks f))).
  destruct (known_check _ (xo_check _ Hf)) as (_ & _ & _ & Hcs).
  assert (0 <= unpadded_size f < 2 ^ 28) as Hu by (pose proof (xo_unpadded _ Hf); unfold unpadded_size in *; lia).
  unfold XzDecodeIndex.
  erewrite run_bind by (eapply container_Seek; [exact Hr|lia]). cbv beta iota. rewrite Z.add_0_r.
  assert (at_input off s = s) as Hs by (unfold XzStream.at_input; rewrite <- (rd_In _ _ _ _ _ _ _ _ _ _ Hr); by destruct s).
  rewrite Hs. clear Hs. destruct (container_Read _ _ _ _ _ Hr) as [R1 Hr1]. rewrite (run_bind _ _ _ _ _ R1).
  cbn [negb orb]. change (negb (0 =? 0)) with false. cbv iota.
  change (1 :: ?l) with (vli_bytes 1 ++ l) in Hr1.
  erewrite run_bind by (eapply run_Vli; [|exact Hr1]; lia). cbv beta iota. cbn [negb orb]. rewrite Z.eqb_refl. cbn [negb].
  apply container_step in Hr1 as Hr2. rewrite !at_input_twice in *. change (zlen (vli_bytes 1)) with 1 in *.
  erewrite run_bind by (eapply run_Vli; [exact Hu|exact Hr2]). cbv beta iota.
  unfold get_Container. rewrite run_gets. cbn [mz_Container set_In XzStream.at_input]. rewrite Hun, Z.eqb_refl. cbn [negb orb].
  apply container_step in Hr2 as Hr3. rewrite !at_input_twice in *.
  erewrite run_bind by (eapply run_Vli; [|exact Hr3]; pose proof (xo_data _ Hf); lia). cbv beta iota.
  rewrite run_gets. cbn [mz_Container set_In XzStream.at_input]. rewrite Hunc, Z.eqb_refl. cbn [negb orb].
  apply container_step in Hr3 as Hr4. rewrite !at_input_twice in *.
  assert (off + zlen (xz_index f) = off + 1 + 1 + zlen (vli_bytes (unpadded_size f)) +
    zlen (vli_bytes (zlen (block_data (xf_chunks f)))) + zlen pad) as Hlen.
  { unfold xz_index. rewrite <- Hpad. unfold xz_index_fields. rewrite !zlen_app. change (zlen [0; 1]) with 2. lia. }
  subst pad. erewrite run_bind.
  2: { eapply run_Align; [|exact Hr4]. unfold xz_index_fields. rewrite !zlen_app. change (zlen [0; 1]) with 2. lia. }
  cbn [negb]. apply container_step in Hr4 as Hr5. rewrite !at_input_twice in *. rewrite <- Hlen in *.
  erewrite run_bind by (eapply container_Seek; [exact Hr5|lia]). cbv beta iota. unfold mod_Container. rewrite run_modify.
  rewrite Z.add_0_r, at_input_twice. replace (ib + (off + zlen (xz_index f)) - (ib + off)) with (zlen (xz_index f)) by lia.
  rewrite u32_small by lia.
  erewrite run_bind by (eapply container_Seek; [apply reads_Container; exact Hr5|lia]). done.
Qed.

Lemma run_Footer off f rest out s :
  reads off (xz_footer f ++ rest) out s -> xz_ok f -> IndexSize (mz_Container s) = zlen (xz_index f) ->
  zlen (xz_index f) mod 4 = 0 -> zlen (xz_index f) < 2 ^ 32 ->
  XzDecodeStreamFooter s = Done (true, at_input (off + 12) s).
Proof using All.
  intros Hr Hf Hi Hmod Hlt. pose proof (rd_end _ _ _ _ _ _ _ _ _ _ Hr) as HL. pose proof (rd_off _ _ _ _ _ _ _ _ _ _ Hr).
  pose proof (xo_footer_crc _ Hf) as Hcrc. pose proof (zlen_nonneg (xz_index f)).
  assert (zlen (xz_footer f) = 12) as H12 by (unfold xz_footer; rewrite !zlen_app, zlen_le_bytes, Hcrc; done).
  rewrite zlen_app in HL. pose proof (zlen_nonneg rest). destruct (known_check _ (xo_check _ Hf)) as (Hk & _).
  unfold XzDecodeStreamFooter. change sizeof_XZ_STREAM_FOOTER with 12.
  erewrite run_bind by (eapply container_Seek; [exact Hr|lia]). cbv beta iota. cbn [negb].
  assert (bytes_at (mz_mem (at_input (off + 12) s)) (ib + off) (xz_footer f ++ rest)) as Hm by exact (reads_mem _ _ _ _ _ _ Hapart _ _ _ _ Hr).
  unfold xz_footer in Hm. set (back := le_bytes 4 (zlen (xz_index f) / 4)) in *.
  assert (zlen back = 4) as Hback by (unfold back; by rewrite zlen_le_bytes).
  assert (forall l1 l2 l3, (xf_footer_crc f ++ back ++ [0; xf_check f; 89; 90]) ++ rest = l1 ++ l2 ++ l3 ->
    mz_load (length l2) (ib + off + zlen l1) (at_input (off + 12) s) = Done (le_value l2, at_input (off + 12) s)) as Hld
    by (intros l1 l2 l3 E; rewrite E in Hm; by eapply run_load_le).
  assert (mz_load 2 (ib + off + sf_Magic) (at_input (off + 12) s) = Done (footer_magic, at_input (off + 12) s)) as R1.
  { replace (ib + off + sf_Magic) with (ib + off + zlen (xf_footer_crc f ++ back ++ [0; xf_check f]))
      by (rewrite !zlen_app, Hcrc, Hback; reflexivity).
    apply (Hld _ [89; 90] rest). by rewrite <- !app_assoc. }
  assert (mz_load 2 (ib + off + sf_Flags) (at_input (off + 12) s) = Done (le_value [0; xf_check f], at_input (off + 12) s)) as R2.
  { replace (ib + off + sf_Flags) with (ib + off + zlen (xf_footer_crc f ++ back))
      by (rewrite !zlen_app, Hcrc, Hback; reflexivity).
    apply (Hld _ [0; xf_check f] ([89; 90] ++ rest)). by rewrite <- !app_assoc. }
  assert (mz_load 4 (ib + off + sf_BackwardSize) (at_input (off + 12) s) = Done (zlen (xz_index f) / 4, at_input (off + 12) s)) as R3.
  { replace (ib + off + sf_BackwardSize) with (ib + off + zlen (xf_footer_crc f)) by (rewrite Hcrc; reflexivity).
    pose proof (Hld (xf_footer_crc f) back ([0; xf_check f; 89; 90] ++ rest) ltac:(by rewrite <- !app_assoc)) as E.
    unfold back in E at 1 2. rewrite le_bytes_length, le_value_le_bytes, Z.mod_small in E; [exact E|]. change (8 * Z.of_nat 4) with 32. lia. }
  rewrite (run_bind _ _ _ _ _ R1). rewrite Z.eqb_refl. cbn [negb].
  rewrite (run_bind _ _ _ _ _ R2), Hk. cbn [negb]. rewrite (run_bind _ _ _ _ _ R3).
  unfold get_Container. rewrite run_gets. cbn [mz_Container set_In XzStream.at_input]. rewrite Hi, u32_small by lia.
  replace (zlen (xz_index f) / 4 * 4) with (zlen (xz_index f)) by lia. by rewrite Z.eqb_refl.
Qed.

Lemma run_mod_Container {A} g (k : unit -> LZ A) s :
  (mod_Container g ≫= k) s = k tt (set_Container (g (mz_Container s)) s).
Proof. reflexivity. Qed.

(** *** The block *)
#[local] Abbreviation between := (between m0 ib ob osize size L).

Lemma run_Block (n k : nat) off f rest s :
  off mod 4 = 0 -> xz_ok f -> ob <> 0 -> zlen (block_data (xf_chunks f)) <= osize ->
  between off (xz_block f ++ padding (zlen (xz_block f)) ++ xf_block_check f ++ rest) coder_start s ->
  HeaderSize (mz_Container s) = 12 -> ChecksumSize (mz_Container s) = check_size (xf_check f) ->
  (Z.to_nat osize <= n)%nat -> (Z.to_nat osize < k)%nat ->
  exists s', XzDecodeBlock n k ob s = Done ((true, zlen (block_data (xf_chunks f))), s') /\
    reads (off + zlen (xz_block f) + zlen (padding (zlen (xz_block f))) + zlen (xf_block_check f)) rest (block_data (xf_chunks f)) s' /\
    UnpaddedBlockSize (mz_Container s') = unpadded_size f /\
    UncompressedBlockSize (mz_Container s') = zlen (block_data (xf_chunks f)) /\
    Len (mz_Decoder s') = 0 /\ zlen (RawProbabilities (mz_Decoder s')) = 7318.
Proof using All.
  intros Hoff Hf Hnz Hroom H Hh Hc Hn Hk. pose proof (bt_reads _ _ _ _ _ _ _ _ _ _ H) as Hr.
  pose proof (rd_off _ _ _ _ _ _ _ _ _ _ Hr). pose proof (rd_end _ _ _ _ _ _ _ _ _ _ Hr) as HL. rewrite !zlen_app in HL.
  pose proof (zlen_nonneg rest). pose proof (zlen_nonneg (padding (zlen (xz_block f)))). pose proof (zlen_nonneg (xz_block f)).
  pose proof (chunks_apply_length _ _ (xo_chunks _ Hf)) as Hlen. change (zlen (z_out (c_z coder_start))) with 0 in Hlen.
  change (z_out (c_z (chunks_apply coder_start (xf_chunks f)))) with (block_data (xf_chunks f)) in Hlen.
  destruct (known_check _ (xo_check _ Hf)) as (_ & _ & _ & Hcs). pose proof (xo_block_check _ Hf) as Hbc.
  assert (at_input off s = s) as Hs by (unfold XzStream.at_input; rewrite <- (rd_In _ _ _ _ _ _ _ _ _ _ Hr); by destruct s).
  unfold XzDecodeBlock. erewrite run_bind by (eapply container_Seek; [exact Hr|lia]). cbv beta iota. rewrite Z.add_0_r, Hs.
  destruct (run_chunks m0 ib ob osize size L Hib Hend Hsize Hob Hoend Hosize Hregion Hapart n k off (xf_chunks f) _ coder_start s 0
    H (xo_chunks _ Hf) Hn) as (s1 & R1 & Hbt & Hc1); [lia|done|done|].
  replace (ob =? 0) with false by (symmetry; by apply Z.eqb_neq). unfold Lz2DecodeStream. rewrite (run_bind _ _ _ _ _ R1).
  cbv beta iota. cbn [negb]. pose proof (bt_reads _ _ _ _ _ _ _ _ _ _ Hbt) as Hr1. fold (xz_block f) in Hr1.
  change (z_out (c_z (chunks_apply coder_start (xf_chunks f)))) with (block_data (xf_chunks f)) in *.
  erewrite run_bind by (eapply container_Seek; [exact Hr1|lia]). cbv beta iota. rewrite Z.add_0_r.
  assert (at_input (off + zlen (xz_block f)) s1 = s1) as Hs1
    by (unfold XzStream.at_input; rewrite <- (rd_In _ _ _ _ _ _ _ _ _ _ Hr1); by destruct s1).
  rewrite Hs1. replace (ib + (off + zlen (xz_block f)) - (ib + off)) with (zlen (xz_block f)) by lia.
  rewrite !run_mod_Container.
  set (s2 := set_Container _ (set_Container _ s1)). 
  assert (reads (off + zlen (xz_block f)) (padding (zlen (xz_block f)) ++ xf_block_check f ++ rest) (block_data (xf_chunks f)) s2) as Hr2
    by (do 2 apply reads_Container; exact Hr1).
  erewrite run_bind by (eapply run_Align; [|exact Hr2]; lia). cbn [negb]. apply container_step in Hr2 as Hr3.
  unfold get_Container. rewrite run_gets.
  assert (ChecksumSize (mz_Container (at_input (off + zlen (xz_block f) + zlen (padding (zlen (xz_block f)))) s2)) = zlen (xf_block_check f)) as ->
    by (unfold s2; cbn; rewrite Hc1, Hc; done).
  erewrite run_bind by (eapply container_Seek; [exact Hr3|lia]). cbv beta iota. cbn [negb].
  unfold mod_Container. rewrite run_modify. eexists. split; [reflexivity|]. split.
  { apply reads_Container. apply container_step in Hr3. by rewrite at_input_twice in Hr3 |- *. }
  cbn. rewrite Hc1, Hc, Hh. pose proof (xo_unpadded _ Hf). unfold unpadded_size in *.
  rewrite (u32_small (zlen _)), (u32_small (12 + _)), u32_small by lia. split; [lia|]. split; [done|].
  pose proof (bt_dec _ _ _ _ _ _ _ _ _ _ Hbt) as [? ? _]. done.
Qed.

(** *** All of it *)
Lemma container_move off off' b1 b2 out s s' :
  reads off (b1 ++ b2) out s -> off' = off + zlen b1 -> mz_mem s' = mz_mem s -> mz_In s' = In_ ib off' size size ->
  reads off' b2 out s'.
Proof using All. intros Hr -> ??. by eapply reads_step. Qed.

Lemma zlen_stream_header f : xz_ok f -> zlen (xz_stream_header f) = 12.
Proof. intros Hf. unfold xz_stream_header. by rewrite zlen_app, (xo_header_crc _ Hf). Qed.

Lemma zlen_block_header f : xz_ok f -> zlen (xz_block_header f) = 12.
Proof. intros Hf. unfold xz_block_header. by rewrite !zlen_app, (xo_block_pad _ Hf), (xo_block_crc _ Hf). Qed.

Lemma zlen_footer f : xz_ok f -> zlen (xz_footer f) = 12.
Proof. intros Hf. unfold xz_footer. by rewrite !zlen_app, zlen_le_bytes, (xo_footer_crc _ Hf). Qed.

Lemma zlen_index f : zlen (xz_index f) mod 4 = 0.
Proof. clear. unfold xz_index. rewrite zlen_app, zlen_padding. lia. Qed.

Lemma run_tail isize osz off f out s :
  reads off (xz_index f ++ xf_index_crc f ++ xz_footer f) out s -> off mod 4 = 0 -> xz_ok f ->
  UnpaddedBlockSize (mz_Container s) = unpadded_size f ->
  UncompressedBlockSize (mz_Container s) = zlen (block_data (xf_chunks f)) ->
  exists s', XzDecode_tail isize osz s = Done ((true, if isize =? 0 then L else isize, osz), s') /\
    mz_mem s' = mz_mem s /\ mz_Decoder s' = mz_Decoder s.
Proof using All.
  intros Hr Hoff Hf Hun Hunc. pose proof (rd_end _ _ _ _ _ _ _ _ _ _ Hr) as HL. pose proof (rd_off _ _ _ _ _ _ _ _ _ _ Hr).
  rewrite !zlen_app, (xo_index_crc _ Hf), (zlen_footer _ Hf) in HL. pose proof (zlen_nonneg (xz_index f)).
  pose proof (run_Index _ _ _ _ _ Hoff Hr Hf Hun Hunc) as R1. unfold XzDecode_tail. rewrite (run_bind _ _ _ _ _ R1). cbn [negb].
  set (s1 := set_Container _ _).
  assert (reads (off + zlen (xz_index f) + 4) (xz_footer f ++ []) out s1) as Hr1.
  { rewrite app_nil_r. rewrite app_assoc in Hr. eapply container_move; [exact Hr| |done|done].
    rewrite zlen_app, (xo_index_crc _ Hf). lia. }
  pose proof (run_Footer _ _ _ _ _ Hr1 Hf eq_refl (zlen_index f) ltac:(lia)) as R2. rewrite (run_bind _ _ _ _ _ R2). cbn [negb].
  unfold BfTell. rewrite run_gets. cbn [mz_In set_In XzStream.at_input In_Offset].
  exists (at_input (off + zlen (xz_index f) + 4 + 12) s1). split; [|done].
  replace (off + zlen (xz_index f) + 4 + 12) with L by lia. done.
Qed.

Lemma run_file (n k : nat) isize f s st li :
  reads 0 (xz_bytes f) [] s -> xz_ok f -> ob <> 0 -> mz_Dictionary s = Dictionary_ ob osize st 0 li ->
  Len (mz_Decoder s) = 0 -> zlen (RawProbabilities (mz_Decoder s)) = 7318 ->
  zlen (block_data (xf_chunks f)) <= osize -> (Z.to_nat osize <= n)%nat -> (Z.to_nat osize < k)%nat ->
  exists s', (ok ← XzDecodeStreamHeader;
      if negb (ok : bool) then mret (false, isize, osize) else
      r ← XzDecodeBlockHeader;
      match r with
      | XzBlockHeaderFail => mret (false, isize, osize)
      | XzBlockHeaderNoBlock => XzDecode_tail isize 0
      | XzBlockHeaderSuccess =>
          '(ok, size) ← XzDecodeBlock n k ob;
          if negb (ok : bool) then mret (false, isize, size) else XzDecode_tail isize size
      end) s = Done ((true, if isize =? 0 then L else isize, zlen (block_data (xf_chunks f))), s') /\
    mz_mem s' = write_bytes m0 ob (block_data (xf_chunks f)) /\
    Len (mz_Decoder s') = 0 /\ zlen (RawProbabilities (mz_Decoder s')) = 7318.
Proof using All.
  intros Hr Hf Hnz Hd Hl Hp Hroom Hn Hk. unfold xz_bytes in Hr.
  rewrite (run_bind _ _ _ _ _ (run_StreamHeader _ _ _ _ _ Hr Hf)). cbn [negb]. set (s1 := set_Container _ _).
  assert (reads 12 (xz_block_header f ++ xz_block f ++ padding (zlen (xz_block f)) ++ xf_block_check f ++
    xz_index f ++ xf_index_crc f ++ xz_footer f) [] s1) as Hr1
    by (eapply container_move; [exact Hr|rewrite (zlen_stream_header _ Hf); lia|done|done]).
  rewrite (run_bind _ _ _ _ _ (run_BlockHeader _ _ _ _ _ Hr1 Hf)). cbv iota. set (s2 := set_Container _ _).
  assert (reads 24 (xz_block f ++ padding (zlen (xz_block f)) ++ xf_block_check f ++
    xz_index f ++ xf_index_crc f ++ xz_footer f) [] s2) as Hr2
    by (eapply container_move; [exact Hr1|rewrite (zlen_block_header _ Hf); lia|done|done]).
  assert (between 24 (xz_block f ++ padding (zlen (xz_block f)) ++ xf_block_check f ++
    xz_index f ++ xf_index_crc f ++ xz_footer f) coder_start s2) as Hb.
  { constructor; [done|by exists st, li|by constructor|].
    constructor; cbn; [lia|constructor|intros [|[|[|]]]; cbn; lia]. }
  destruct (run_Block n k 24 f _ s2 eq_refl Hf Hnz Hroom Hb eq_refl eq_refl Hn Hk) as (s3 & R3 & Hr3 & Hu3 & Hun3 & Hl3 & Hp3).
  rewrite (run_bind _ _ _ _ _ R3). cbv beta iota. cbn [negb].
  destruct (run_tail isize (zlen (block_data (xf_chunks f))) _ f _ s3 Hr3) as (s4 & R4 & Hm4 & Hd4); [|done..|].
  { rewrite zlen_padding, (xo_block_check _ Hf). destruct (known_check _ (xo_check _ Hf)) as (_ & _ & _ & ?).
    assert (check_size (xf_check f) mod 4 = 0) as Hc4; [|lia].
    clear -Hf. destruct Hf as [H _ _ _ _ _ _ _ _ _ _].
    repeat (apply elem_of_cons in H as [-> |H]; [reflexivity|]). by apply elem_of_nil in H. }
  exists s4. split; [exact R4|]. rewrite Hm4, Hd4. split; [|done]. by destruct Hr3.
Qed.
End container.

(** ** Files *)

(** The decoder before a call: no earlier call left a match half done, and the
    model has its size. *)
Definition decoder_ready (s : minlz) : Prop :=
  Len (mz_Decoder s) = 0 /\ zlen (RawProbabilities (mz_Decoder s)) = 7318.

Definition xz_data (f : xz_file) : list Z := block_data (xf_chunks f).

Lemma run_XzDecode (f : xz_file) (s : minlz) (ib isize ob osize : Z) (n k : nat) :
  xz_ok f -> bytes_at (mz_mem s) ib (xz_bytes f) -> are_bytes (xz_bytes f) -> decoder_ready s ->
  0 <= ib -> ib + zlen (xz_bytes f) + 5 < 2 ^ 32 -> isize = 0 \/ zlen (xz_bytes f) <= isize < 2 ^ 32 ->
  0 < ob -> ob + osize <= 2 ^ 32 -> region (mz_mem s) ob osize ->
  ib + zlen (xz_bytes f) <= ob \/ ob + osize <= ib ->
  zlen (xz_data f) <= osize -> (Z.to_nat osize <= n)%nat -> (Z.to_nat osize < k)%nat ->
  exists s', XzDecode n k ib isize ob osize s =
      Done ((true, if isize =? 0 then zlen (xz_bytes f) else isize, zlen (xz_data f)), s') /\
    mz_mem s' = write_bytes (mz_mem s) ob (xz_data f) /\ decoder_ready s'.
Proof.
  intros Hf Hin Hby [Hlen0 Hslots] Hib Hend Hisize Hob Hoend Hreg Hapart Hroom Hn Hk.
  pose proof (zlen_nonneg (xz_bytes f)). pose proof (zlen_nonneg (xz_data f)).
  set (size := if negb (isize =? 0) then isize else 2 ^ 32 - 1).
  assert (zlen (xz_bytes f) <= size < 2 ^ 32) as Hsize by (unfold size; destruct (isize =? 0) eqn:?; cbn [negb]; b2p; lia).
  unfold XzDecode, BfInitialize, DtInitialize. fold size. rewrite !run_modify. cbn [mz_Dictionary set_In].
  set (s1 := set_Dictionary _ _).
  apply (run_file (mz_mem s) ib ob osize size (zlen (xz_bytes f)) Hib Hend Hsize) with
    (st := Dictionary_Start (mz_Dictionary s)) (li := Dictionary_Limit (mz_Dictionary s)); try done; try lia.
  constructor; try done; [by rewrite Z.add_0_r|change (zlen (@nil Z)) with 0; lia].
Qed.

(** C1: A file of one block whose chunks are raw or hold LZMA packets, with the
    default LZMA properties, a dictionary of less than 4 GiB, sizes below 2^28
    bytes, a check that the decoder knows (none of the checksums is looked at),
    no reset of the dictionary behind the first byte of data (the code does not
    reset it) and less than 65536 bytes of compressed data in each chunk (the
    code refuses a chunk of 65536), is decoded: the data that its packets stand
    for is written to the output and nothing else changes in memory, and the
    number of bytes is reported.  When the input size was given as 0, it
    becomes the place where the file ends; a size that was given, if the file
    fits, stays as it is, although minlzma.h says that it becomes the number of
    bytes consumed.  The input does not overlap the output, which has room for
    the data, and lies at least 5 bytes below the end of the address space; a
    number of rounds above the size of the output is enough, and the decoder can
    be called again. *)
Theorem XzDecode_file (f : xz_file) (s : minlz) (ib isize ob osize : Z) (n k : nat) :
  xz_ok f -> bytes_at (mz_mem s) ib (xz_bytes f) -> are_bytes (xz_bytes f) -> decoder_ready s ->
  0 <= ib -> ib + zlen (xz_bytes f) + 5 < 2 ^ 32 -> isize = 0 \/ zlen (xz_bytes f) <= isize < 2 ^ 32 ->
  0 < ob -> ob + osize <= 2 ^ 32 -> region (mz_mem s) ob osize ->
  ib + zlen (xz_bytes f) <= ob \/ ob + osize <= ib ->
  zlen (xz_data f) <= osize -> (Z.to_nat osize <= n)%nat -> (Z.to_nat osize < k)%nat ->
  exists s', XzDecode n k ib isize ob osize s =
      Done ((true, if isize =? 0 then zlen (xz_bytes f) else isize, zlen (xz_data f)), s') /\
    mz_mem s' = write_bytes (mz_mem s) ob (xz_data f) /\ decoder_ready s'.
Proof. apply run_XzDecode. Qed.

(** A small file. *)
Definition demo_file : xz_file :=
  XzFile 1 8 [RawChunk true [104; 105]; LzmaChunk 2 [Literal 97; Match 5 2; ShortRep; Literal 33]]
    [1; 2; 3; 4] [0; 0; 0] [5; 6; 7; 8] [9; 10; 11; 12] [13; 14; 15; 16] [17; 18; 19; 20].

Example demo_bytes :
  xz_bytes demo_file =
    [253; 55; 122; 88; 90; 0; 0; 1; 1; 2; 3; 4; 2; 0; 33; 1; 8; 0; 0; 0; 5; 6; 7; 8; 1; 0; 1; 104; 105; 192; 0; 7; 0; 8;
     93; 0; 48; 198; 10; 8; 64; 0; 0; 0; 0; 0; 0; 0; 9; 10; 11; 12; 0; 1; 37; 10; 13; 14; 15; 16; 17; 18; 19; 20;
     1; 0; 0; 0; 0; 1; 89; 90].
Proof. vm_compute. reflexivity. Qed.

Example demo_data : xz_data demo_file = [104; 105; 97; 105; 97; 105; 97; 105; 97; 33].
Proof. vm_compute. reflexivity. Qed.

Example demo_ok : xz_ok demo_file.
Proof.
  constructor; try (vm_compute; repeat split; congruence).
  - apply elem_of_cons. right. apply elem_of_cons. by left.
  - split; [|split; [|exact I]].
    + split; [by repeat constructor|]. by vm_compute.
    + repeat split; try (vm_compute; congruence).
Qed.

Definition demo_state : minlz :=
  MinLz (write_bytes (write_bytes ∅ 65536 (replicate (Z.to_nat 64) 170)) 4096 (xz_bytes demo_file))
    (In_ 0 0 0 0) (Dictionary_ 0 0 0 0 0) (RcState_ 0 0 0 0)
    (Decoder_ 0 0 0 0 0 0 (replicate (Z.to_nat 7318) 0)) (Container_ 0 0 0 0 0).

Lemma XzDecode_file_witness :
  exists s', XzDecode 64 65 4096 0 65536 64 demo_state = Done ((true, 72, 10), s') /\
    mz_mem s' = write_bytes (mz_mem demo_state) 65536 [104; 105; 97; 105; 97; 105; 97; 105; 97; 33].
Proof.
  assert (zlen (xz_bytes demo_file) = 72) as Hl by (rewrite demo_bytes; reflexivity).
  assert (zlen (replicate (Z.to_nat 64) 170) = 64) as H64 by reflexivity.
  destruct (XzDecode_file demo_file demo_state 4096 0 65536 64 64 65) as (s' & R & Hm & _); rewrite ?Hl, ?demo_data; try lia.
  - apply demo_ok.
  - apply bytes_at_write_eq; lia.
  - rewrite demo_bytes. by repeat constructor.
  - split; [done|]. cbn. by rewrite zlen_replicate.
  - apply region_write. rewrite <- H64. apply bytes_at_region, bytes_at_write_eq; lia.
  - by vm_compute.
  - rewrite Hl, demo_data in *. exists s'. split; [exact R|exact Hm].
Defined.
