(* ===== verification/XzSafe.v ===== *)
(** * XZ files: arbitrary input

    Whatever the input is, the decoder ends, reads inside its input and writes
    inside its output.  [safe] is the invariant; [runs R s c Q] says that the
    computation [c] returns from [s], keeps the invariant, moves from [s] to a
    state related by [R], and ends with [Q].  Reading bits is [coding]: it
    moves in the input and in the model only. *)
From S2P Require Import Prelude Machine MinLz Lzma Xz RangeCoder LzmaSpec XzStream XzProps.

(** ** The invariant *)
Section safe.
Context (m0 : mem) (ib isize ob osize : Z).

(** The sequence state and the probabilities index the model; the memory is the
    initial one with the output so far. *)
Record safe (s : minlz) : Prop := {
  sf_buffer : In_Buffer (mz_In s) = ib;
  sf_size : In_Size (mz_In s) = isize;
  sf_offset : 0 <= In_Offset (mz_In s);
  sf_offset_limit : In_Offset (mz_In s) <= In_SoftLimit (mz_In s);
  sf_limit : In_SoftLimit (mz_In s) <= isize;
  sf_history : Dictionary_Buffer (mz_Dictionary s) = ob;
  sf_history_size : Dictionary_BufferSize (mz_Dictionary s) = osize;
  sf_output : exists out, mz_mem s = write_bytes m0 ob out /\ are_bytes out /\
    zlen out = Dictionary_Offset (mz_Dictionary s) /\ zlen out <= osize;
  sf_sequence : 0 <= Sequence (mz_Decoder s) < 12;
  sf_slots : zlen (RawProbabilities (mz_Decoder s)) = 7318;
}.

(** What the range decoder leaves alone. *)
Record coding (s s' : minlz) : Prop := {
  cd_mem : mz_mem s' = mz_mem s;
  cd_dict : mz_Dictionary s' = mz_Dictionary s;
  cd_offset : In_Offset (mz_In s) <= In_Offset (mz_In s');
  cd_decoder : set_probabilities [] (mz_Decoder s') = set_probabilities [] (mz_Decoder s);
}.

(** What the parts of a match leave alone. *)
Record stable (s s' : minlz) : Prop := {
  st_mem : mz_mem s' = mz_mem s;
  st_dict : mz_Dictionary s' = mz_Dictionary s;
  st_offset : In_Offset (mz_In s) <= In_Offset (mz_In s');
}.

(** What the packets of a chunk leave alone. *)
Record forward (s s' : minlz) : Prop := {
  fw_start : Dictionary_Start (mz_Dictionary s') = Dictionary_Start (mz_Dictionary s);
  fw_limit : Dictionary_Limit (mz_Dictionary s') = Dictionary_Limit (mz_Dictionary s);
  fw_offset : In_Offset (mz_In s) <= In_Offset (mz_In s');
  fw_output : Dictionary_Offset (mz_Dictionary s) <= Dictionary_Offset (mz_Dictionary s');
}.

#[local] Instance coding_order : PreOrder coding.
Proof. split; [done|]. intros s1 s2 s3 [] []. split; by etransitivity. Qed.

#[local] Instance stable_order : PreOrder stable.
Proof. split; [done|]. intros s1 s2 s3 [] []. split; by etransitivity. Qed.

#[local] Instance forward_order : PreOrder forward.
Proof. split; [done|]. intros s1 s2 s3 [] []. split; by etransitivity. Qed.

#[local] Instance coding_stable : subrelation coding stable.
Proof. intros s s' []. by split. Qed.

#[local] Instance stable_forward : subrelation stable forward.
Proof. intros s s' [Hm Hd ?]. split; by rewrite ?Hd. Qed.

#[local] Instance coding_forward : subrelation coding forward.
Proof. intros s s' ?. by apply stable_forward, coding_stable. Qed.

(** ** Computations that keep it *)
Definition runs {A} (R : relation minlz) s (c : LZ A) (Q : A -> minlz -> Prop) : Prop :=
  exists x s', c s = Done (x, s') /\ safe s' /\ R s s' /\ Q x s'.

Lemma runs_ret {A} R `{!Reflexive R} s (x : A) (Q : A -> minlz -> Prop) : safe s -> Q x s -> runs R s (mret x) Q.
Proof. intros. by exists x, s. Qed.

Lemma runs_then {A B} R `{!Transitive R} s (c : LZ A) (f : A -> LZ B) P Q :
  runs R s c P -> (forall x s1, safe s1 -> R s s1 -> P x s1 -> runs R s1 (f x) Q) -> runs R s (c ≫= f) Q.
Proof.
  intros (x & s1 & R1 & S1 & T1 & H1) H. destruct (H x s1 S1 T1 H1) as (y & s2 & R2 & S2 & T2 & H2).
  exists y, s2. rewrite (run_bind _ _ _ _ _ R1). split; [done|]. split; [done|]. split; [by etransitivity|done].
Qed.

Lemma runs_gets {A B} R s (g : minlz -> A) (f : A -> LZ B) Q : runs R s (f (g s)) Q -> runs R s (gets g ≫= f) Q.
Proof. intros (y & s2 & R2 & H). exists y, s2. by rewrite run_gets. Qed.

Lemma runs_modify R s g (Q : unit -> minlz -> Prop) : safe (g s) -> R s (g s) -> Q tt (g s) -> runs R s (modify g) Q.
Proof. intros. by exists tt, (g s). Qed.

Lemma runs_weaken {A} (R R' : relation minlz) s (c : LZ A) (P Q : A -> minlz -> Prop) :
  runs R s c P -> (forall s', R s s' -> R' s s') -> (forall x s', safe s' -> R s s' -> P x s' -> Q x s') -> runs R' s c Q.
Proof. intros (x & s' & ? & ? & ? & ?) HR HQ. exists x, s'. auto. Qed.

Lemma runs_sub {A} (R R' : relation minlz) {HR : subrelation R R'} s (c : LZ A) (Q : A -> minlz -> Prop) :
  runs R s c Q -> runs R' s c (fun x s' => Q x s' /\ R s s').
Proof. intros (x & s' & ? & ? & ? & ?). exists x, s'. split_and!; try done. by apply HR. Qed.

(** ** The two buffers *)
Hypothesis Hbytes : forall a b, m0 !! a = Some b -> is_byte b.
Hypothesis Hinput : region m0 ib isize.
Hypothesis Houtput : region m0 ob osize.
Hypothesis Hisize : isize < 2 ^ 32 - 2 ^ 21.
Hypothesis Hosize : osize < 2 ^ 32 - 2 ^ 21.

Lemma write_is_byte out a b : are_bytes out -> write_bytes m0 ob out !! a = Some b -> is_byte b.
Proof using Hbytes.
  intros Ho. rewrite lookup_write_bytes. case_match; [|apply Hbytes].
  intros Hl. by apply (proj1 (Forall_lookup _ _) Ho _ _ Hl).
Qed.

(** A byte of a region that was there at the start. *)
Lemma safe_load8 s a n k :
  safe s -> region m0 a n -> a <= k < a + n -> exists b, mz_load8 k s = Done (b, s) /\ is_byte b.
Proof using Hbytes.
  intros [] Hr Hk. destruct sf_output0 as (out & Hm & Ho & _).
  destruct (region_lookup _ _ _ _ (region_write _ _ _ ob out Hr) Hk) as [[b Hb] ?].
  exists b. split; [|by eapply write_is_byte]. unfold mz_load8. rewrite Hm. by rewrite (load8_lookup _ _ b).
Qed.

Lemma safe_input s o : safe s -> 0 <= o < isize -> 0 <= ib + o < 2 ^ 32 /\
  exists b, mz_load8 (ib + o) s = Done (b, s) /\ is_byte b.
Proof using Hbytes Hinput.
  intros Hs Ho. split; [apply (region_lookup _ _ _ _ Hinput); lia|]. apply (safe_load8 _ _ _ _ Hs Hinput); lia.
Qed.

(** ** Reading *)
Lemma u32_nonneg x : 0 <= u32 x.
Proof. pose proof (wrap_range 32 x). unfold u32. lia. Qed.

Lemma safe_advance s o : safe s -> 0 <= o <= In_SoftLimit (mz_In s) -> safe (set_In (set_Offset o (mz_In s)) s).
Proof. intros [] ?. split; cbn; done || lia. Qed.

(** A seek is refused, or goes ahead: here without a condition on the length. *)
Lemma BfSeek_safe s n : safe s -> exists x s', BfSeek n s = Done (x, s') /\ safe s' /\ mz_mem s' = mz_mem s /\
  mz_Dictionary s' = mz_Dictionary s.
Proof.
  intros Hs. unfold BfSeek. rewrite run_gets. case_if; [by exists (false, 0), s|]. b2p. rewrite run_modify.
  eexists _, _. split; [done|]. split; [|done]. apply safe_advance; [done|].
  pose proof (wrap_range 32 (In_Offset (mz_In s) + n)). unfold u32 in *. lia.
Qed.

(** What the seek by [n] bytes returns. *)
Definition sought (n o : Z) (x : bool * Z) (s' : minlz) : Prop :=
  if x.1 then x.2 = u32 (ib + o) /\ In_Offset (mz_In s') = o + n /\ o + n <= isize else In_Offset (mz_In s') = o.

Lemma runs_BfSeek s n : safe s -> 0 <= n <= 2 ^ 21 ->
  runs coding s (BfSeek n) (sought n (In_Offset (mz_In s))).
Proof using Hisize.
  intros Hs Hn. pose proof Hs as []. unfold BfSeek. apply runs_gets. rewrite u32_small by lia.
  case_if; b2p; [by apply runs_ret; [tc_solve|..]|].
  eexists _, _. split; [by rewrite run_modify|].
  split; [apply safe_advance; [done|lia]|]. split; [split; cbn; done || lia|]. cbn. unfold sought. cbn.
  rewrite sf_buffer0. split_and!; done || lia.
Qed.

Lemma runs_BfRead s : safe s ->
  runs coding s BfRead (fun x s' => is_byte x.2 /\ if x.1 then In_Offset (mz_In s') = In_Offset (mz_In s) + 1 else True).
Proof using Hbytes Hinput Hisize.
  intros Hs. unfold BfRead. eapply runs_then; [tc_solve|apply runs_BfSeek; [done|lia]|].
  intros [ok p] s1 Hs1 T1 H1. pose proof (sf_offset _ Hs). destruct ok; unfold sought in H1; cbn in *; [|by apply runs_ret; [tc_solve|..]].
  destruct H1 as (-> & H1 & ?). destruct (safe_input s1 (In_Offset (mz_In s)) Hs1) as (? & b & R & ?); [lia|].
  rewrite u32_small by done. exists (true, b), s1. split; [by rewrite (run_bind _ _ _ _ _ R)|]. by split_and!.
Qed.

(** ** Bits *)
#[local] Abbreviation any := (fun _ _ => True).

Lemma runs_RcNormalize s : safe s -> runs coding s RcNormalize any.
Proof using Hbytes Hinput Hisize.
  intros Hs. unfold RcNormalize. apply runs_gets. case_if; [|by apply runs_ret; [tc_solve|..]].
  eapply runs_then; [tc_solve|by apply runs_BfRead|]. intros [ok b] s1 [] T1 _. cbn.
  apply runs_modify; [by split|by split|done].
Qed.

Lemma runs_set_probability s i p : safe s -> 0 <= i < 7318 -> runs coding s (set_probability i p) any.
Proof.
  intros Hs Hi. pose proof Hs as []. eexists tt, _. split; [unfold set_probability; by rewrite zset_Done by lia|].
  split; [|by split; [split|]]. split; cbn; try done. unfold zlen in *. by rewrite length_insert.
Qed.

Lemma runs_RcIsBitSet s i : safe s -> 0 <= i < 7318 -> runs coding s (RcIsBitSet i) any.
Proof using Hbytes Hinput Hisize.
  intros Hs Hi. unfold RcIsBitSet. eapply runs_then; [tc_solve|by apply runs_RcNormalize|]. intros [] s1 Hs1 T1 _.
  pose proof (sf_slots _ Hs1) as Hl. destruct (znth_lt (RawProbabilities (mz_Decoder s1)) i) as [p R]; [lia|].
  eapply runs_then; [tc_solve| |].
  - exists p, s1. split; [unfold get_probability; by rewrite R|]. split_and!; [done|done|exact I].
  - intros p' s2 Hs2 T2 _. apply runs_gets. eapply runs_then; [tc_solve|apply runs_modify with (Q := any)|].
    + destruct Hs2. by split.
    + by split.
    + done.
    + intros [] s3 Hs3 T3 _. eapply runs_then; [tc_solve|by apply runs_set_probability|].
      intros [] s4 Hs4 T4 _. by apply runs_ret; [tc_solve|..].
Qed.

Lemma runs_RcIsFixedBitSet s : safe s -> runs coding s RcIsFixedBitSet any.
Proof using Hbytes Hinput Hisize.
  intros Hs. unfold RcIsFixedBitSet. eapply runs_then; [tc_solve|by apply runs_RcNormalize|]. intros [] s1 Hs1 T1 _.
  apply runs_gets. eapply runs_then; [tc_solve|apply runs_modify with (Q := any)|].
  - destruct Hs1. by split.
  - by split.
  - done.
  - intros [] s2 Hs2 T2 _. by apply runs_ret; [tc_solve|..].
Qed.

(** *** Trees *)

(** A symbol of [n] bits below the limit has one more bit after the round. *)
Lemma runs_tree_loop n fuel base k s symbol :
  safe s -> (n <= k)%nat -> (k <= 15)%nat -> (n < fuel)%nat -> 0 <= base -> base + 2 ^ Z.of_nat k <= 7318 ->
  2 ^ (Z.of_nat k - Z.of_nat n) <= symbol < 2 ^ (Z.of_nat k - Z.of_nat n + 1) ->
  runs coding s (RcGetBitTree_loop fuel base (2 ^ Z.of_nat k) symbol)
    (fun x _ => 2 ^ Z.of_nat k <= x < 2 * 2 ^ Z.of_nat k).
Proof using Hbytes Hinput Hisize.
  intros Hs Hn Hk Hf Hb Hend. revert n fuel s symbol Hs Hn Hf. induction n as [|n IH]; intros fuel s symbol Hs Hn Hf Hr;
    (destruct fuel as [|fuel]; [lia|]); cbn [RcGetBitTree_loop].
  - rewrite Z.sub_0_r, Z.pow_add_r in Hr by lia. bdec. apply runs_ret; [tc_solve|done|lia].
  - assert (symbol < 2 ^ Z.of_nat k) as Hlt.
    { eapply Z.lt_le_trans; [apply Hr|]. apply Z.pow_le_mono_r; lia. }
    assert (2 ^ Z.of_nat k <= 2 ^ 15) as Hkk by (apply Z.pow_le_mono_r; lia).
    assert (0 < 2 ^ (Z.of_nat k - Z.of_nat (S n))) by (apply Z.pow_pos_nonneg; lia).
    rewrite (proj2 (Z.ltb_lt _ _) Hlt). eapply runs_then; [tc_solve|apply runs_RcIsBitSet; [done|lia]|].
    intros bit s1 Hs1 T1 _. rewrite push_bit_small by lia. apply IH; [done|lia|lia|].
    replace (Z.of_nat k - Z.of_nat n) with (Z.of_nat k - Z.of_nat (S n) + 1) by lia.
    rewrite !Z.pow_add_r in * by lia. destruct bit; cbn [Z.b2z]; lia.
Qed.

Lemma runs_RcGetBitTree s base k :
  safe s -> (k <= 8)%nat -> 0 <= base -> base + 2 ^ Z.of_nat k <= 7318 ->
  runs coding s (RcGetBitTree base (2 ^ Z.of_nat k)) (fun x _ => 0 <= x < 2 ^ Z.of_nat k).
Proof using Hbytes Hinput Hisize.
  intros Hs Hk Hb Hend. unfold RcGetBitTree.
  assert (2 ^ Z.of_nat k <= 2 ^ 8) as Hkk by (apply Z.pow_le_mono_r; lia).
  eapply runs_then; [tc_solve|apply (runs_tree_loop k); try done; try lia|].
  - rewrite Z.sub_diag. cbn. lia.
  - intros x s1 Hs1 T1 Hx. cbn in Hx. apply runs_ret; [tc_solve|done|].
    change 0xFF with (2 ^ 8 - 1). rewrite land_low, Z.mod_small by lia. lia.
Qed.

Lemma runs_rev_loop n base i s symbol result :
  safe s -> 0 <= base -> 1 <= symbol -> (symbol + 1) * 2 ^ Z.of_nat n <= 2 ^ 15 -> base + (symbol + 1) * 2 ^ Z.of_nat n <= 2 * 7318 - base ->
  runs coding s (RcGetReverseBitTree_loop n base i symbol result) any.
Proof using Hbytes Hinput Hisize.
  intros Hs Hb Hsym Hsmall Hend. revert i s symbol result Hs Hsym Hsmall Hend.
  induction n as [|n IH]; intros i s symbol result Hs Hsym Hsmall Hend; cbn [RcGetReverseBitTree_loop].
  - by apply runs_ret; [tc_solve|..].
  - rewrite pow2_S in *. assert (0 < 2 ^ Z.of_nat n) by (apply Z.pow_pos_nonneg; lia).
    eapply runs_then; [tc_solve|apply runs_RcIsBitSet; [done|nia]|]. intros bit s1 Hs1 T1 _.
    rewrite push_bit_small by nia. apply IH; [done|..]; destruct bit; cbn [Z.b2z]; nia.
Qed.

Lemma runs_RcGetReverseBitTree s base n :
  safe s -> 0 <= n <= 13 -> 0 <= base -> base + 2 ^ n <= 7318 -> runs coding s (RcGetReverseBitTree base n) any.
Proof using Hbytes Hinput Hisize.
  intros Hs Hn Hb Hend. assert (2 ^ n <= 2 ^ 13) by (apply Z.pow_le_mono_r; lia).
  unfold RcGetReverseBitTree. apply runs_rev_loop; rewrite ?Z2Nat.id by lia; done || lia.
Qed.

Lemma runs_matched_loop n fuel base s m symbol :
  safe s -> (n <= 8)%nat -> (n < fuel)%nat -> 0 <= base -> base + 768 <= 7318 ->
  2 ^ (8 - Z.of_nat n) <= symbol < 2 ^ (8 - Z.of_nat n + 1) ->
  runs coding s (RcDecodeMatchedBitTree_loop fuel base m symbol) any.
Proof using Hbytes Hinput Hisize.
  intros Hs Hn Hf Hb Hend. revert n fuel s m symbol Hs Hn Hf. induction n as [|n IH]; intros fuel s m symbol Hs Hn Hf Hr;
    (destruct fuel as [|fuel]; [lia|]); cbn [RcDecodeMatchedBitTree_loop].
  - cbn in Hr. bdec. by apply runs_ret; [tc_solve|..].
  - assert (symbol < 2 ^ 8) as Hlt.
    { eapply Z.lt_le_trans; [apply Hr|]. apply Z.pow_le_mono_r; lia. }
    assert (0 < 2 ^ (8 - Z.of_nat (S n))) by (apply Z.pow_pos_nonneg; lia).
    assert (0 <= Z.land (Z.shiftr m 7) 1 < 2) by (change 1 with (2 ^ 1 - 1) at 1 2; rewrite land_low; lia).
    change 0x100 with (2 ^ 8). rewrite (proj2 (Z.ltb_lt _ _) Hlt).
    eapply runs_then; [tc_solve|apply runs_RcIsBitSet; [done|nia]|]. intros bit s1 Hs1 T1 _. rewrite push_bit_small by lia.
    assert (2 ^ (8 - Z.of_nat n) <= 2 * symbol + Z.b2z bit < 2 ^ (8 - Z.of_nat n + 1)).
    { replace (8 - Z.of_nat n) with (8 - Z.of_nat (S n) + 1) by lia. rewrite !Z.pow_add_r in * by lia.
      destruct bit; cbn [Z.b2z]; lia. }
    case_if; [|by apply IH; done || lia].
    eapply (runs_weaken coding); [apply (runs_tree_loop n 16 base 8); done || lia|done|done].
Qed.

Lemma runs_RcDecodeMatchedBitTree s base m :
  safe s -> 0 <= base -> base + 768 <= 7318 -> runs coding s (RcDecodeMatchedBitTree base m) (fun x _ => is_byte x).
Proof using Hbytes Hinput Hisize.
  intros Hs Hb Hend. unfold RcDecodeMatchedBitTree.
  eapply runs_then; [tc_solve|apply (runs_matched_loop 8); done || lia|]. intros x s1 Hs1 T1 _.
  apply runs_ret; [tc_solve|done|]. change 0xFF with (2 ^ 8 - 1). rewrite land_low by lia. unfold is_byte. lia.
Qed.

Lemma runs_RcGetFixed s n : safe s -> runs coding s (RcGetFixed n) any.
Proof using Hbytes Hinput Hisize.
  intros Hs. unfold RcGetFixed. generalize (Z.to_nat (u8 (n - 1))) as k. intros k. generalize 0 as symbol.
  revert s Hs. induction k as [|k IH]; intros s Hs symbol; cbn [RcGetFixed_loop];
    (eapply runs_then; [tc_solve|by apply runs_RcIsFixedBitSet|]); intros bit s1 Hs1 T1 _.
  - by apply runs_ret; [tc_solve|..].
  - by apply IH.
Qed.

(** ** The output *)
#[local] Abbreviation written s := (Dictionary_Offset (mz_Dictionary s)).
#[local] Abbreviation goal s := (Dictionary_Limit (mz_Dictionary s)).

Lemma written_bounds s : safe s -> 0 <= written s <= osize.
Proof. intros []. destruct sf_output0 as (out & _ & _ & Hl & ?). pose proof (zlen_nonneg out). lia. Qed.

Lemma runs_DtGetSymbol s d : safe s -> written s < osize -> 0 <= d -> runs coding s (DtGetSymbol d) (fun x _ => is_byte x).
Proof using Hbytes Houtput Hosize.
  intros Hs Ho Hd. unfold DtGetSymbol. apply runs_gets. pose proof (written_bounds _ Hs).
  case_if; b2p; [by apply runs_ret; [tc_solve|..]|]. rewrite u32_small, (sf_history _ Hs) by lia.
  destruct (safe_load8 _ ob osize (ob + (written s - d)) Hs Houtput) as (b & R & Hb); [lia|].
  by exists b, s.
Qed.

Lemma runs_DtPutSymbol s b : safe s -> written s < osize -> is_byte b ->
  runs forward s (DtPutSymbol b) (fun _ s' => written s' = written s + 1).
Proof using Houtput Hosize.
  intros Hs Ho Hb. pose proof (written_bounds _ Hs). pose proof Hs as [].
  destruct sf_output0 as (out & Hm & Hby & Hl & ?).
  destruct (region_lookup _ _ _ (ob + written s) (region_write _ _ _ ob out Houtput)) as [Hk ?]; [lia|].
  eexists tt, _. split.
  { unfold DtPutSymbol. rewrite sf_history0, Hm, store8_Done, bind_Done, u8_small, u32_small by (done || lia). done. }
  split; [|split; [|done]]; split; cbn; try done; try lia.
  exists (out ++ [b]). rewrite write_bytes_app_up, zlen_app, zlen_cons, (zlen_nil (A := Z)), Hl.
  split_and!; [done|by apply Forall_app; split; [|by constructor]|lia|lia].
Qed.

Lemma runs_repeat_loop n s d : safe s -> written s + Z.of_nat n < osize -> 0 <= d ->
  runs forward s (DtRepeatSymbol_loop n d) (fun _ s' => written s' = written s + Z.of_nat n + 1).
Proof using Hbytes Houtput Hosize.
  intros Hs Ho Hd. revert s Hs Ho. induction n as [|n IH]; intros s Hs Ho; cbn [DtRepeatSymbol_loop];
    (eapply runs_then; [tc_solve|apply (runs_sub coding _), runs_DtGetSymbol; [done|lia|done]|]); intros b s1 Hs1 T1 [Hb [_ E1 _ _]];
    (eapply runs_then; [tc_solve|apply runs_DtPutSymbol; [done|by rewrite E1; lia|done]|]); intros [] s2 Hs2 T2 H2; rewrite E1 in H2.
  - apply runs_ret; [tc_solve|done|lia].
  - eapply runs_weaken; [apply IH; [done|lia]|done|]. cbn. intros. lia.
Qed.

Lemma runs_DtRepeatSymbol s n d : safe s -> 1 <= n <= 273 -> 0 <= d -> written s <= goal s -> goal s <= osize ->
  runs forward s (DtRepeatSymbol n d) (fun x s' => if x : bool then written s' = written s + n /\ written s' <= goal s' else True).
Proof using Hbytes Houtput Hosize.
  intros Hs Hn Hd Hw Hg. pose proof (written_bounds _ Hs). unfold DtRepeatSymbol. apply runs_gets.
  rewrite u32_small by lia. case_if; b2p; [by apply runs_ret; [tc_solve|..]|].
  eapply runs_then; [tc_solve|apply runs_repeat_loop; [done| |done]|].
  - rewrite u32_small, Z2Nat.id by lia. lia.
  - intros [] s1 Hs1 [] Hw1. rewrite u32_small, Z2Nat.id in Hw1 by lia. apply runs_ret; [tc_solve|done|]. lia.
Qed.

(** ** Packets *)
#[local] Abbreviation len s := (Len (mz_Decoder s)).

Lemma coding_Len s s' : coding s s' -> len s' = len s.
Proof. intros [_ _ _ Hd]. by apply (f_equal Len) in Hd. Qed.

Lemma coding_Rep0 s s' : coding s s' -> Rep0 (mz_Decoder s') = Rep0 (mz_Decoder s).
Proof. intros [_ _ _ Hd]. by apply (f_equal Rep0) in Hd. Qed.

Lemma runs_mod s f (Q : unit -> minlz -> Prop) :
  safe s -> 0 <= Sequence (f (mz_Decoder s)) < 12 ->
  RawProbabilities (f (mz_Decoder s)) = RawProbabilities (mz_Decoder s) ->
  Q tt (set_Decoder (f (mz_Decoder s)) s) -> runs stable s (mod_Decoder f) Q.
Proof. intros [] Hseq Hp HQ. apply runs_modify; [split; cbn; by rewrite ?Hp|by split|done]. Qed.

(** The computation begins with bits, or with a change of the decoder. *)
Lemma runs_bits {A B} s (c : LZ A) (f : A -> LZ B) P Q :
  runs coding s c P -> (forall x s1, safe s1 -> coding s s1 -> P x s1 -> runs stable s1 (f x) Q) -> runs stable s (c ≫= f) Q.
Proof. intros Hc Hf. eapply runs_then; [tc_solve|by apply (runs_sub coding _)|]. intros x s1 Hs1 _ []. by apply Hf. Qed.

Lemma runs_change {B} s g (f : unit -> LZ B) Q :
  safe s -> 0 <= Sequence (g (mz_Decoder s)) < 12 ->
  RawProbabilities (g (mz_Decoder s)) = RawProbabilities (mz_Decoder s) ->
  (safe (set_Decoder (g (mz_Decoder s)) s) -> runs stable (set_Decoder (g (mz_Decoder s)) s) (f tt) Q) ->
  runs stable s (mod_Decoder g ≫= f) Q.
Proof.
  intros Hs Hseq Hp Hf. eapply runs_then; [tc_solve|apply (runs_mod s g (fun _ s' => s' = set_Decoder (g (mz_Decoder s)) s)); done|].
  intros [] s1 Hs1 _ ->. by apply Hf.
Qed.

Lemma runs_LzDecodeLen s L pb : safe s -> 0 <= L -> L + 322 <= 7318 -> 0 <= pb < 4 ->
  runs stable s (LzDecodeLen L pb) (fun _ s' => 2 <= len s' <= 273).
Proof using Hbytes Hinput Hisize.
  intros Hs HL HL' Hpb. pose proof (sf_sequence _ Hs). unfold LzDecodeLen. apply runs_change; [done..|]. intros Hs1.
  unfold Choice. autorewrite with lzma_layout.
  eapply runs_bits; [apply runs_RcIsBitSet; [done|lia]|]. intros choice s2 Hs2 T2%coding_Len _. cbn in T2.
  change LZMA_MIN_LENGTH with 2 in T2.
  eapply (runs_then stable) with (P := fun x s' => exists k, x.2 = 2 ^ Z.of_nat k /\ (k <= 8)%nat /\ 0 <= x.1 /\
    x.1 + 2 ^ Z.of_nat k <= 7318 /\ 2 <= len s' <= 18).
  - pose proof (sf_sequence _ Hs2). destruct choice.
    + eapply runs_bits; [apply runs_RcIsBitSet; [done|lia]|]. intros choice2 s3 Hs3 T3%coding_Len _.
      pose proof (sf_sequence _ Hs3). rewrite T2 in T3. destruct choice2; apply runs_change; try done; intros Hs4; (apply runs_ret; [tc_solve|done|]);
        cbn [fst snd mz_Decoder set_Decoder Len set_Len]; rewrite T3.
      * exists 8%nat. split_and!; done || lia.
      * exists 3%nat. split_and!; done || lia.
    + apply runs_ret; [tc_solve|done|]. exists 3%nat. cbn [fst snd]. split_and!; done || lia.
  - intros [base limit] s3 Hs3 _ (k & Hlim & Hk & Hb & Hend & Hlen). cbn in Hlim, Hb, Hend. subst limit.
    assert (2 ^ Z.of_nat k <= 2 ^ 8) as Hkk by (apply Z.pow_le_mono_r; lia).
    eapply runs_bits; [by apply runs_RcGetBitTree|]. intros n s4 Hs4 T4%coding_Len Hn. pose proof (sf_sequence _ Hs4).
    cbn beta in Hn. apply runs_mod; [done|done|done|]. cbn [mz_Decoder set_Decoder Len set_Len]. rewrite T4, u32_small by lia. lia.
Qed.

(** The distance of a slot below 14 keeps the tree inside the model. *)
Lemma dist_tree_index slot : 4 <= slot < 14 ->
  let bits := u8 (Z.shiftr slot 1 - 1) in
  let base := BM_Dist (u32 (u32 (Z.shiftl (Z.lor 2 (Z.land slot 1)) bits) - slot)) in
  0 <= bits <= 13 /\ 0 <= base /\ base + 2 ^ bits <= 7318.
Proof.
  intros Hs.
  assert (slot = 4 \/ slot = 5 \/ slot = 6 \/ slot = 7 \/ slot = 8 \/ slot = 9 \/ slot = 10 \/ slot = 11 \/ slot = 12 \/ slot = 13) as Hc by lia.
  destruct_or! Hc; subst; vm_compute; split_and!; congruence.
Qed.

Lemma LzSetMatch_range seq : 0 <= LzSetMatch seq < 12.
Proof. unfold LzSetMatch. by case_if. Qed.

Lemma LzSetLongRep_range seq : 0 <= LzSetLongRep seq < 12.
Proof. unfold LzSetLongRep. by case_if. Qed.

Lemma LzSetShortRep_range seq : 0 <= LzSetShortRep seq < 12.
Proof. unfold LzSetShortRep. by case_if. Qed.

Lemma LzSetLiteral_range seq : 0 <= seq < 12 -> 0 <= LzSetLiteral seq < 12.
Proof. intros. rewrite LzSetLiteral_eq. repeat case_if; b2p; lia. Qed.

(** The length survives. *)
#[local] Abbreviation keeps l := (fun _ s' => len s' = l).

Lemma runs_or_Rep0 s x : safe s -> runs stable s (or_Rep0 x) (keeps (len s)).
Proof. intros Hs. apply runs_mod; try done. apply (sf_sequence _ Hs). Qed.

Lemma runs_set_Rep0 s x : safe s -> runs stable s (mod_Decoder (set_Rep0 x)) (keeps (len s)).
Proof. intros Hs. apply runs_mod; try done. apply (sf_sequence _ Hs). Qed.

(** The distance of a match, from its slot. *)
Lemma runs_distance s slot : safe s -> 0 <= slot < 64 ->
  runs stable s (if slot <? LZMA_FIRST_CONTEXT_DISTANCE_SLOT then mod_Decoder (set_Rep0 slot)
       else
         let distBits := u8 (Z.shiftr slot 1 - 1) in
         _ ← mod_Decoder (set_Rep0 (u32 (Z.shiftl (Z.lor 2 (Z.land slot 1)) distBits)));
         '(probArray, distBits) ← (if slot <? LZMA_FIRST_FIXED_DISTANCE_SLOT then
             rep0 ← get_Decoder Rep0;
             mret (BM_Dist (u32 (rep0 - slot)), distBits)
           else
             n ← RcGetFixed (u8 (distBits - LZMA_DISTANCE_ALIGN_BITS));
             _ ← or_Rep0 (u32 (Z.shiftl n LZMA_DISTANCE_ALIGN_BITS));
             mret (BM_Align, LZMA_DISTANCE_ALIGN_BITS));
         n ← RcGetReverseBitTree probArray distBits;
         or_Rep0 n) (keeps (len s)).
Proof using Hbytes Hinput Hisize.
  intros Hs Hslot. pose proof (sf_sequence _ Hs). change LZMA_FIRST_CONTEXT_DISTANCE_SLOT with 4. change LZMA_FIRST_FIXED_DISTANCE_SLOT with 14.
  case_if; b2p; [by apply runs_set_Rep0|]. cbv zeta. apply runs_change; [done..|]. intros Hs1.
  eapply (runs_then stable) with (P := fun x s' => 0 <= x.2 <= 13 /\ 0 <= x.1 /\ x.1 + 2 ^ x.2 <= 7318 /\ len s' = len s).
  - case_if; b2p.
    + unfold get_Decoder. apply runs_gets. cbn [mz_Decoder set_Decoder Rep0 set_Rep0].
      destruct (dist_tree_index slot) as (? & ? & ?); [lia|]. apply runs_ret; [tc_solve|done|]. cbn [fst snd]. split_and!; done || lia.
    + eapply runs_bits; [by apply runs_RcGetFixed|]. intros n s2 Hs2 T2%coding_Len _. cbn in T2.
      eapply (runs_then stable); [by apply runs_or_Rep0|]. intros [] s3 Hs3 _ H3. rewrite T2 in H3.
      apply runs_ret; [tc_solve|done|]. rewrite BM_Align_eq. change LZMA_DISTANCE_ALIGN_BITS with 4. cbn [fst snd]. split_and!; done || lia.
  - intros [base n] s2 Hs2 _ (? & ? & ? & Hl). cbn [fst snd] in *.
    eapply runs_bits; [by apply runs_RcGetReverseBitTree|]. intros x s3 Hs3 T3%coding_Len _.
    rewrite <- Hl, <- T3. by apply runs_or_Rep0.
Qed.

#[local] Abbreviation matched := (fun _ s' => 1 <= len s' <= 273).

Lemma runs_LzDecodeMatch s pb : safe s -> 0 <= pb < 4 -> runs stable s (LzDecodeMatch pb) matched.
Proof using Hbytes Hinput Hisize.
  intros Hs Hpb. unfold LzDecodeMatch.
  eapply (runs_then stable); [by apply runs_LzDecodeLen|]. intros [] s1 Hs1 _ Hl. pose proof (sf_sequence _ Hs1).
  do 3 (apply runs_change; [done..|]; intros ?).
  unfold LzGetDistSlot. eapply (runs_then stable) with (P := fun base s' => 0 <= base /\ base + 64 <= 7318 /\ 2 <= len s' <= 273).
  - unfold get_Decoder. apply runs_gets. apply runs_ret; [tc_solve|done|]. cbn [mz_Decoder set_Decoder Len set_Rep0 set_Rep1 set_Rep2 set_Rep3].
    rewrite BM_DistSlot_eq. change LZMA_FIRST_CONTEXT_DISTANCE_SLOT with 4. change LZMA_MIN_LENGTH with 2.
    case_if; b2p; [rewrite u8_small by (unfold is_byte; lia)|]; lia.
  - intros base s2 Hs2 _ (? & ? & Hl2).
    eapply runs_bits; [apply (runs_RcGetBitTree _ _ 6); done || lia|]. intros slot s3 Hs3 T3%coding_Len Hslot.
    eapply (runs_then stable); [by apply runs_distance|]. intros [] s4 Hs4 _ Hl4. cbn beta in Hl4.
    apply runs_mod; [done|apply LzSetMatch_range|done|]. cbn. lia.
Qed.

Lemma runs_LzDecodeRepLen s pb long : safe s -> 0 <= pb < 4 -> runs stable s (LzDecodeRepLen pb long) matched.
Proof using Hbytes Hinput Hisize.
  intros Hs Hpb. pose proof (sf_sequence _ Hs). unfold LzDecodeRepLen. destruct long.
  - eapply (runs_then stable); [by apply runs_LzDecodeLen|]. intros [] s1 Hs1 _ Hl. cbn beta in Hl.
    apply runs_mod; [done|apply LzSetLongRep_range|done|]. cbn. lia.
  - apply runs_change; [done..|]. intros Hs1. apply runs_mod; [done|apply LzSetShortRep_range|done|]. cbn. lia.
Qed.

Lemma runs_rep_change {B} s g (f : unit -> LZ B) Q :
  safe s -> (forall d, Sequence (g d) = Sequence d) -> (forall d, RawProbabilities (g d) = RawProbabilities d) ->
  (forall s', safe s' -> runs stable s' (f tt) Q) -> runs stable s (mod_Decoder g ≫= f) Q.
Proof. intros Hs Hq Hp Hf. apply runs_change; [done|rewrite Hq; apply (sf_sequence _ Hs)|done|auto]. Qed.

(** A value out of the history. *)
Lemma runs_get {A} s (f : DECODER_STATE -> A) : safe s -> runs stable s (get_Decoder f) any.
Proof. intros Hs. by exists (f (mz_Decoder s)), s. Qed.

(** The history moves down; [seq] is the state that chose the probabilities. *)
Lemma runs_new_rep s seq bit1 : safe s -> 0 <= seq < 12 ->
  runs stable s (if bit1 : bool then
      bit2 ← RcIsBitSet (BM_Rep2 seq);
      newRep ← (if bit2 : bool then
          newRep ← get_Decoder Rep3;
          _ ← mod_Decoder (fun d => set_Rep3 (Rep2 d) d);
          mret newRep
        else get_Decoder Rep2);
      _ ← mod_Decoder (fun d => set_Rep2 (Rep1 d) d);
      mret newRep
    else get_Decoder Rep1) any.
Proof using Hbytes Hinput Hisize.
  intros Hs Hseq. destruct bit1; [|by apply runs_get].
  rewrite BM_Rep2_eq. eapply runs_bits; [apply runs_RcIsBitSet; [done|lia]|]. intros bit2 s1 Hs1 _ _.
  eapply (runs_then stable) with (P := any).
  - destruct bit2; [|by apply runs_get]. eapply (runs_then stable); [by apply runs_get|]. intros x s2 Hs2 _ _.
    apply runs_rep_change; [done..|]. intros s3 Hs3. by apply runs_ret; [tc_solve|..].
  - intros x s2 Hs2 _ _. apply runs_rep_change; [done..|]. intros s3 Hs3. by apply runs_ret; [tc_solve|..].
Qed.

Lemma runs_LzDecodeLongRep s pb : safe s -> 0 <= pb < 4 -> runs stable s (LzDecodeLongRep pb) matched.
Proof using Hbytes Hinput Hisize.
  intros Hs Hpb. pose proof (sf_sequence _ Hs). unfold LzDecodeLongRep, get_Decoder at 1. apply runs_gets.
  rewrite BM_Rep1_eq. eapply runs_bits; [apply runs_RcIsBitSet; [done|lia]|]. intros bit1 s1 Hs1 _ _.
  eapply (runs_then stable); [by apply runs_new_rep|]. intros newRep s2 Hs2 _ _.
  apply runs_rep_change; [done..|]. intros s3 Hs3. apply runs_rep_change; [done..|]. intros s4 Hs4.
  by apply runs_LzDecodeRepLen.
Qed.

Lemma runs_LzDecodeRep s pb : safe s -> 0 <= pb < 4 -> runs stable s (LzDecodeRep pb) matched.
Proof using Hbytes Hinput Hisize.
  intros Hs Hpb. pose proof (sf_sequence _ Hs). unfold LzDecodeRep, get_Decoder at 1. apply runs_gets.
  rewrite BM_Rep0_eq. eapply runs_bits; [apply runs_RcIsBitSet; [done|lia]|]. intros bit s1 Hs1 _ _.
  pose proof (sf_sequence _ Hs1). destruct bit; [by apply runs_LzDecodeLongRep|].
  unfold LzDecodeRep0, get_Decoder at 1. apply runs_gets. rewrite BM_Rep0Long_eq.
  eapply runs_bits; [apply runs_RcIsBitSet; [done|lia]|]. intros long s2 Hs2 _ _. by apply runs_LzDecodeRepLen.
Qed.

(** *** Literals *)
Lemma runs_LzDecodeLiteral s : safe s -> written s < osize ->
  runs forward s LzDecodeLiteral (fun _ s' => written s' = written s + 1).
Proof using Hbytes Hinput Hisize Houtput Hosize.
  intros Hs Ho. unfold LzDecodeLiteral, LzGetLiteralSlot.
  eapply (runs_then forward) with (P := fun base s' => (0 <= base /\ base + 768 <= 6144) /\ coding s s').
  { apply (runs_sub coding _). eapply (runs_then coding); [apply runs_DtGetSymbol; [done|lia|lia]|].
    intros b s1 Hs1 _ Hb. apply runs_ret; [tc_solve|done|]. unfold is_byte in Hb. rewrite BM_Literal_eq.
    change (8 - LZMA_LC) with 5. rewrite Z.shiftr_div_pow2 by lia. change (2 ^ 5) with 32. lia. }
  intros base s1 Hs1 _ [[? ?] [_ E1 _ _]]. unfold get_Decoder at 1. apply runs_gets.
  eapply (runs_then forward) with (P := fun b s' => is_byte b /\ coding s1 s').
  { apply (runs_sub coding _). case_if.
    - eapply (runs_weaken coding); [apply (runs_RcGetBitTree _ base 8); [done|lia..]|done|]. intros. done.
    - unfold get_Decoder. apply runs_gets. eapply (runs_then coding).
      + apply runs_DtGetSymbol; [done|by rewrite E1|apply u32_nonneg].
      + intros m s2 Hs2 _ _. apply runs_RcDecodeMatchedBitTree; [done|lia..]. }
  intros b s2 Hs2 _ [Hb [_ E2 _ _]].
  eapply (runs_then forward); [apply runs_DtPutSymbol; [done|by rewrite E2, E1|done]|]. intros [] s3 Hs3 _ H3. rewrite E2, E1 in H3.
  eapply (runs_weaken stable); [apply (runs_mod _ _ (fun _ s' => written s' = written s + 1)); [done| |done|done]|apply stable_forward|done].
  apply LzSetLiteral_range, (sf_sequence _ Hs3).
Qed.

(** *** A chunk of packets *)

(** A packet is refused, or grows the output, at most to the limit. *)
Lemma runs_LzDecode_packet s position : safe s -> written s < goal s -> goal s <= osize ->
  runs forward s (LzDecode_packet position)
    (fun ok s' => if ok : bool then written s < written s' <= goal s else True).
Proof using Hbytes Hinput Hisize Houtput Hosize.
  intros Hs Hw Hg. pose proof (sf_sequence _ Hs). unfold LzDecode_packet, get_Decoder at 1. cbv zeta. apply runs_gets.
  assert (0 <= Z.land position (LZMA_POSITION_COUNT - 1) < 4) as Hpb.
  { change (LZMA_POSITION_COUNT - 1) with (2 ^ 2 - 1). rewrite land_low by lia. lia. }
  revert Hpb. generalize (Z.land position (LZMA_POSITION_COUNT - 1)) as pb. intros pb Hpb.
  rewrite BM_Match_eq. eapply (runs_then forward); [apply (runs_sub coding _), runs_RcIsBitSet; [done|lia]|].
  intros bit s1 Hs1 _ [_ [_ E1 _ D1]]. apply (f_equal Sequence) in D1. cbn in D1. destruct bit.
  - rewrite BM_Rep_eq. eapply (runs_then forward); [apply (runs_sub coding _), runs_RcIsBitSet; [done|lia]|].
    intros rep s2 Hs2 _ [_ [_ E2 _ _]].
    eapply (runs_then forward) with (P := fun _ s' => 1 <= len s' <= 273 /\ stable s2 s').
    { apply (runs_sub stable _). destruct rep; [by apply runs_LzDecodeRep|by apply runs_LzDecodeMatch]. }
    intros [] s3 Hs3 _ [Hl [_ E3 _]]. rewrite E2, E1 in E3. unfold get_Decoder. do 2 apply runs_gets.
    eapply (runs_then forward); [apply runs_DtRepeatSymbol; [done|done|apply u32_nonneg|rewrite E3; lia..]|].
    intros ok s4 Hs4 [_ Hgoal _ _] H4. rewrite E3 in *. destruct ok; [|by apply runs_ret; [tc_solve|..]].
    eapply (runs_then forward) with (P := fun _ s' => written s' = written s4).
    { eapply (runs_weaken stable); [apply (runs_mod _ _ (fun _ s' => written s' = written s4)); try done|apply stable_forward|done].
      apply (sf_sequence _ Hs4). }
    intros [] s5 Hs5 _ H5. apply runs_ret; [tc_solve|done|]. cbn beta in H5. rewrite Hgoal in H4. lia.
  - eapply (runs_then forward); [apply runs_LzDecodeLiteral; [done|rewrite E1; lia]|].
    intros [] s2 Hs2 _ H2. rewrite E1 in H2. apply runs_ret; [tc_solve|done|]. lia.
Qed.

Lemma runs_BfSeek_0 s : safe s -> runs coding s (BfSeek 0) any.
Proof using Hisize. intros Hs. eapply (runs_weaken coding); [by apply runs_BfSeek|done|done]. Qed.

Lemma runs_RcCanRead s : safe s -> runs coding s RcCanRead any.
Proof using Hisize.
  intros Hs. unfold RcCanRead. eapply (runs_then coding); [by apply runs_BfSeek_0|]. intros [b pos] s1 Hs1 _ _.
  apply runs_gets. by apply runs_ret; [tc_solve|..].
Qed.

(** Packets as long as there is room: as many rounds as bytes are enough. *)
Lemma runs_LzDecode_loop n s : safe s -> written s <= goal s -> goal s <= osize -> goal s - written s <= Z.of_nat n ->
  runs forward s (LzDecode_loop n) any.
Proof using Hbytes Hinput Hisize Houtput Hosize.
  revert s. induction n as [|n IH]; intros s Hs Hw Hg Hn; cbn [LzDecode_loop];
    (eapply (runs_then forward) with (P := fun x s' => x.1 = (written s <? goal s) /\ s' = s);
     [apply runs_gets, runs_ret; [tc_solve|done|done]|]); intros [can position] s0 _ _ [Hc ->]; cbn in Hc; subst can;
    (destruct (written s <? goal s) eqn:Hlt; b2p; cbn [negb]; [|by apply runs_ret; [tc_solve|..]]); [lia|].
  eapply (runs_then forward); [by apply (runs_sub coding _), runs_RcCanRead|]. intros can s1 Hs1 _ [_ [_ E1 _ _]].
  destruct can; cbn [negb]; [|by apply runs_ret; [tc_solve|..]].
  eapply (runs_then forward); [apply runs_LzDecode_packet; [done|rewrite E1; lia..]|]. intros ok s2 Hs2 [_ Hgoal _ _] H2.
  rewrite E1 in *. destruct ok; cbn [negb]; [|by apply runs_ret; [tc_solve|..]]. apply IH; [done|lia..].
Qed.

Lemma runs_LzDecode n s : safe s -> written s <= goal s -> goal s <= osize -> goal s - written s <= Z.of_nat n ->
  runs forward s (LzDecode n) any.
Proof using Hbytes Hinput Hisize Houtput Hosize.
  intros Hs Hw Hg Hn. unfold LzDecode. eapply (runs_then forward); [by apply runs_LzDecode_loop|].
  intros ok s1 Hs1 _ _. destruct ok; cbn [negb]; [|by apply runs_ret; [tc_solve|..]].
  eapply (runs_then forward); [by apply (runs_sub coding _), runs_RcNormalize|]. intros [] s2 Hs2 _ _.
  unfold get_Decoder. apply runs_gets. by apply runs_ret; [tc_solve|..].
Qed.

(** A chunk that is accepted has filled its part of the output. *)
Lemma runs_Lz2DecodeChunk n s raw compressed : safe s -> Dictionary_Start (mz_Dictionary s) = written s ->
  written s <= goal s -> goal s <= osize -> goal s - written s <= Z.of_nat n ->
  runs forward s (Lz2DecodeChunk n raw compressed)
    (fun x s' => x.2 = if x.1 then written s' - written s else 0).
Proof using Hbytes Hinput Hisize Houtput Hosize.
  intros Hs Hst Hw Hg Hn. unfold Lz2DecodeChunk. eapply (runs_then forward); [by apply runs_LzDecode|].
  intros ok s1 Hs1 [Hst1 _ _ Hout] _. destruct ok; cbn [negb]; [|by apply runs_ret; [tc_solve|..]].
  eapply (runs_then forward) with (P := fun _ s' => coding s1 s').
  { apply (runs_weaken coding _ _ _ (any : bool * Z -> minlz -> Prop)); [|apply coding_forward|done].
    unfold RcIsComplete. eapply (runs_then coding); [by apply runs_BfSeek_0|]. intros [b pos] s2 Hs2 _ _.
    apply runs_gets. by apply runs_ret; [tc_solve|..]. }
  intros [ok rd] s2 Hs2 _ [_ E2 _ _]. case_if; [by apply runs_ret; [tc_solve|..]|].
  unfold DtIsComplete. eapply (runs_then forward) with (P := fun x s' => x.2 = written s' - written s).
  { apply runs_gets, runs_ret; [tc_solve|done|]. cbn [fst snd]. pose proof (written_bounds _ Hs). pose proof (written_bounds _ Hs2).
    rewrite E2 in *. rewrite Hst1, Hst, u32_small by lia. done. }
  intros [ok' done'] s3 Hs3 _ H3. cbn [snd] in H3. case_if; apply runs_ret; try tc_solve; done.
Qed.

(** ** Chunks *)

(** Input and output only go on. *)
Record onward (s s' : minlz) : Prop := {
  on_offset : In_Offset (mz_In s) <= In_Offset (mz_In s');
  on_output : written s <= written s';
}.

#[local] Instance onward_order : PreOrder onward.
Proof. split; [done|]. intros s1 s2 s3 [] []. split; by etransitivity. Qed.

#[local] Instance forward_onward : subrelation forward onward.
Proof. intros s s' []. by split. Qed.

#[local] Instance stable_onward : subrelation stable onward.
Proof. intros s s' [_ Hd ?]. split; by rewrite ?Hd. Qed.

#[local] Instance coding_onward : subrelation coding onward.
Proof. intros s s' ?. by apply stable_onward, coding_stable. Qed.

Lemma runs_eq {A B} (R : relation minlz) `{!Transitive R} s s1 (c : LZ A) (x : A) (f : A -> LZ B) Q :
  c s = Done (x, s1) -> R s s1 -> runs R s1 (f x) Q -> runs R s (c ≫= f) Q.
Proof.
  intros Hc HR (y & s2 & R2 & S2 & T2 & H2). exists y, s2. rewrite (run_bind _ _ _ _ _ Hc).
  split_and!; try done. by etransitivity.
Qed.

(** *** The head *)
Lemma runs_load8 {B} (R : relation minlz) `{!PreOrder R} s o i p (f : Z -> LZ B) Q :
  safe s -> 0 <= o + i < isize -> 0 <= o -> 0 <= i -> p = u32 (ib + o) + i ->
  (forall b, is_byte b -> runs R s (f b) Q) -> runs R s (mz_load8 p ≫= f) Q.
Proof using Hbytes Hinput.
  intros Hs Hoi Ho Hi -> Hf. destruct (safe_input s o Hs) as (? & _); [lia|].
  destruct (safe_input s (o + i) Hs) as (? & b & Hb & ?); [lia|].
  eapply runs_eq; [tc_solve| |reflexivity|by apply Hf]. by rewrite u32_small, <- Z.add_assoc by lia.
Qed.

Lemma runs_chunk_sizes s o ctrl p :
  safe s -> is_byte ctrl -> 0 <= o -> p = u32 (ib + o) -> o + (if Common_IsLzma ctrl then 4 else 2) <= isize ->
  runs coding s (chunk_sizes ctrl p) (fun x s' => s' = s /\ 1 <= x.1 <= 2 ^ 21 /\ 0 <= x.2 < 2 ^ 16).
Proof using Hbytes Hinput Hisize.
  intros Hs Hc Ho -> Hend. unfold chunk_sizes.
  eapply (runs_then coding) with (P := fun x s' => s' = s /\ 0 <= x.1 <= Z.shiftl 31 16 /\ 0 <= x.2 < 2 ^ 16).
  - destruct (Common_IsLzma ctrl) eqn:Hl.
    + apply (runs_load8 coding _ o 2); [done|lia..|]. intros b2 H2. apply (runs_load8 coding _ o 3); [done|lia..|]. intros b3 H3.
      apply runs_ret; [tc_solve|done|]. cbn [fst snd]. split; [done|]. split; [|apply (wrap_range 16); lia].
      unfold Lzma_RawSize. change 31 with (2 ^ 5 - 1). rewrite land_low, !Z.shiftl_mul_pow2 by lia. lia.
    + apply runs_ret; [tc_solve|done|]. cbn [fst snd]. split; [done|]. change (Z.shiftl 31 16) with 2031616. lia.
  - intros [raw comp] s1 _ _ (-> & Hr & Hcomp). cbn [fst snd] in *. change (Z.shiftl 31 16) with 2031616 in Hr.
    apply (runs_load8 coding _ o 0); [done|destruct (Common_IsLzma ctrl); lia|lia..|]. intros b0 H0.
    apply (runs_load8 coding _ o 1); [done|destruct (Common_IsLzma ctrl); lia|lia..|]. intros b1 H1. unfold is_byte in *.
    apply runs_ret; [tc_solve|done|]. cbn [fst snd]. rewrite Z.shiftl_mul_pow2, (u32_small (raw + _)), u32_small by lia. split; [done|lia].
Qed.

Lemma runs_LzResetState_loop n i s : safe s -> 0 <= i -> i + Z.of_nat n <= 7318 -> runs coding s (LzResetState_loop n i) any.
Proof.
  revert i s. induction n as [|n IH]; intros i s Hs Hi Hn; cbn [LzResetState_loop]; [by apply runs_ret; [tc_solve|..]|].
  eapply (runs_then coding); [apply runs_set_probability; [done|lia]|]. intros [] s1 Hs1 _ _. apply IH; [done|lia..].
Qed.

Lemma runs_LzResetState s : safe s -> runs stable s LzResetState any.
Proof.
  intros Hs. unfold LzResetState, mod_Sequence. apply runs_change; [done..|]. intros Hs1.
  apply runs_change; [done..|]. intros Hs2.
  eapply (runs_weaken coding); [apply runs_LzResetState_loop; [done|lia|reflexivity || by vm_compute]|apply coding_stable|done].
Qed.

Lemma runs_chunk_reset s ctrl : safe s -> runs stable s (chunk_reset ctrl) any.
Proof using Hbytes Hinput Hisize.
  intros Hs. unfold chunk_reset. cbv zeta. case_if.
  - eapply runs_bits; [by apply runs_BfRead|]. intros [ok b] s1 Hs1 _ _. destruct ok; cbn [negb]; [|by apply runs_ret; [tc_solve|..]].
    unfold LzInitialize. case_if; [by apply runs_ret; [tc_solve|..]|].
    eapply (runs_then stable); [by apply runs_LzResetState|]. intros [] s2 Hs2 _ _. by apply runs_ret; [tc_solve|..].
  - case_if; [|by apply runs_ret; [tc_solve|..]].
    eapply (runs_then stable); [by apply runs_LzResetState|]. intros [] s2 Hs2 _ _. by apply runs_ret; [tc_solve|..].
Qed.

Lemma runs_DtSetLimit s raw : safe s -> 1 <= raw <= 2 ^ 21 ->
  runs onward s (DtSetLimit raw) (fun ok s' => written s' = written s /\
    if ok : bool then Dictionary_Start (mz_Dictionary s') = written s' /\ goal s' = written s' + raw /\ goal s' <= osize else True).
Proof using Hosize.
  intros Hs Hr. pose proof (written_bounds _ Hs). pose proof (sf_history_size _ Hs). unfold DtSetLimit. apply runs_gets.
  rewrite u32_small by lia. case_if; b2p; [by apply runs_ret; [tc_solve|..]|].
  eexists true, _. split; [by rewrite run_modify|]. pose proof Hs as []. split; [by split|]. split; [by split; cbn|].
  cbn. split_and!; done || lia.
Qed.

(** *** The body *)
Lemma runs_copy_raw n s o : safe s -> 0 <= o -> o + Z.of_nat n <= isize -> written s + Z.of_nat n <= osize ->
  runs forward s (copy_raw n (ib + o)) (fun _ s' => written s' = written s + Z.of_nat n).
Proof using Hbytes Hinput Houtput Hosize.
  revert s o. induction n as [|n IH]; intros s o Hs Ho Hin Hout; cbn [copy_raw]; [apply runs_ret; [tc_solve|done|lia]|].
  destruct (safe_input s o Hs) as (? & _); [lia|].
  apply (runs_load8 forward _ o 0); [done|lia|lia|lia|rewrite u32_small; lia|]. intros b Hb.
  eapply (runs_then forward); [apply runs_DtPutSymbol; [done|lia|done]|]. intros [] s1 Hs1 _ H1.
  replace (ib + o + 1) with (ib + (o + 1)) by lia.
  eapply (runs_weaken forward); [apply IH; [done|lia..]|done|]. cbn. intros. lia.
Qed.

Lemma runs_BfSetSoftLimit s c : safe s -> 0 <= c -> runs coding s (BfSetSoftLimit c) any.
Proof using Hisize.
  intros Hs Hc. pose proof Hs as []. unfold BfSetSoftLimit. apply runs_gets. rewrite sf_size0, u32_small by lia.
  case_if; b2p; [by apply runs_ret; [tc_solve|..]|].
  eexists true, _. split; [by rewrite run_modify|]. rewrite u32_small by lia.
  split; [|by split; [split|]]. split; cbn; done || lia.
Qed.

Lemma runs_BfResetSoftLimit s : safe s -> runs coding s BfResetSoftLimit any.
Proof.
  intros Hs. pose proof Hs as []. apply runs_modify; [|by split|done]. split; cbn; done || lia.
Qed.

Lemma runs_RcInitialize_loop n s code : safe s -> runs coding s (RcInitialize_loop n code) any.
Proof using Hbytes Hinput Hisize.
  revert s code. induction n as [|n IH]; intros s code Hs; cbn [RcInitialize_loop]; [by apply runs_ret; [tc_solve|..]|].
  eapply (runs_then coding); [by apply runs_BfRead|]. intros [ok b] s1 Hs1 _ _. by apply IH.
Qed.

(** The size of the chunk is tried, and the offset goes back. *)
Lemma runs_RcInitialize s c : safe s -> 0 <= c < 2 ^ 16 -> runs coding s (RcInitialize c) any.
Proof using Hbytes Hinput Hisize.
  intros Hs Hc. pose proof Hs as []. unfold RcInitialize. destruct (runs_BfSeek s c Hs) as ([ok p] & s1 & R1 & Hs1 & T1 & H1); [lia|].
  unfold sought in H1. destruct ok; cbn in H1.
  - destruct H1 as (_ & Ho1 & ?). pose proof T1 as [? ? ? ?].
    assert (BfSeek (u32 (- c)) s1 = Done (true, u32 (In_Buffer (mz_In s1) + In_Offset (mz_In s1)), set_In (set_Offset (In_Offset (mz_In s)) (mz_In s1)) s1)) as R2.
    { unfold BfSeek. rewrite run_gets. pose proof (sf_offset_limit _ Hs1).
      assert (u32 (In_Offset (mz_In s1) + u32 (- c)) = In_Offset (mz_In s)) as ->.
      { rewrite Ho1. unfold u32, wrap. rewrite Zplus_mod_idemp_r. rewrite Z.mod_small by lia. lia. }
      bdec. by rewrite run_modify. }
    assert (safe (set_In (set_Offset (In_Offset (mz_In s)) (mz_In s1)) s1)) as Hs2.
    { apply safe_advance; [done|]. pose proof (sf_offset_limit _ Hs1). lia. }
    set (s2 := set_In _ s1) in *.
    assert (coding s s2) as T2 by (split; cbn; done || lia).
    assert (runs coding s2 (Code ← RcInitialize_loop (Z.to_nat LZMA_RC_INIT_BYTES) 0; '(_, Start) ← BfSeek 0;
      _ ← modify (set_RcState (RcState_ Start (u32 (Start + c)) (u32 (-1)) Code)); mret (true, u16 (c - LZMA_RC_INIT_BYTES))) any) as Hrest.
    { eapply (runs_then coding); [by apply runs_RcInitialize_loop|]. intros code s3 Hs3 _ _.
      eapply (runs_then coding); [by apply runs_BfSeek_0|]. intros [b start] s4 Hs4 _ _.
      eapply (runs_then coding); [apply runs_modify with (Q := any); [destruct Hs4; by split|by split|done]|].
      intros [] s5 Hs5 _ _. by apply runs_ret; [tc_solve|..]. }
    destruct Hrest as (x & s3 & R3 & Hs3 & T3 & _). exists x, s3.
    split; [|split_and!; [done|by etransitivity|done]]. rewrite (run_bind _ _ _ _ _ R1). cbn [negb]. by rewrite (run_bind _ _ _ _ _ R2).
  - eapply (runs_eq coding); [exact R1|exact T1|]. by apply runs_ret; [tc_solve|..].
Qed.

(** *** A round *)

(** The count is that of the output, and not above it when the round ends the
    stream. *)
Definition counted (s : minlz) (e : chunk_end) : Prop :=
  match e with
  | NextChunk b => b = written s
  | StreamEnd ok b => b <= written s /\ (ok = true -> b = written s)
  end.

Lemma counted_break (R : relation minlz) `{!PreOrder R} s b : safe s -> b <= written s ->
  runs R s (mret (StreamEnd false b)) (fun e s' => counted s' e).
Proof. intros. apply runs_ret; [tc_solve|done|done]. Qed.

Lemma runs_raw_body s raw : safe s -> 1 <= raw <= 2 ^ 21 -> written s + raw <= osize ->
  runs onward s ('(ok, inBytes) ← BfSeek raw;
    if negb (ok : bool) then mret (StreamEnd false (written s)) else
    _ ← copy_raw (Z.to_nat raw) inBytes;
    mret (NextChunk (u32 (written s + raw)))) (fun e s' => counted s' e).
Proof using Hbytes Hinput Hisize Houtput Hosize.
  intros Hs Hr Hg. pose proof (written_bounds _ Hs). pose proof (sf_offset _ Hs).
  eapply (runs_then onward); [apply (runs_sub coding _), runs_BfSeek; [done|lia]|].
  intros [ok p] s1 Hs1 _ [Hp [_ E1 _ _]]. unfold sought in Hp. cbn [fst snd] in Hp.
  destruct ok; cbn [negb]; [|apply counted_break; [tc_solve|done|by rewrite E1]].
  destruct Hp as (-> & Ho1 & Hend). destruct (safe_input s (In_Offset (mz_In s)) Hs) as (? & _); [lia|].
  rewrite (u32_small (ib + _)) by lia. eapply (runs_then onward).
  - apply (runs_sub forward _), runs_copy_raw; [done|lia|lia|rewrite E1; lia].
  - intros [] s2 Hs2 _ [H2 _]. rewrite E1 in H2. apply runs_ret; [tc_solve|done|]. cbn. rewrite u32_small; lia.
Qed.

Lemma runs_lzma_body n s raw compressed : safe s -> osize <= Z.of_nat n -> 0 <= compressed < 2 ^ 16 -> 1 <= raw ->
  Dictionary_Start (mz_Dictionary s) = written s -> goal s = written s + raw -> goal s <= osize ->
  runs onward s (ok ← BfSetSoftLimit compressed;
    if negb (ok : bool) then mret (StreamEnd false (written s)) else
    '(ok, compressedSize) ← RcInitialize compressed;
    if negb (ok : bool) then mret (StreamEnd false (written s)) else
    '(ok, bytesProcessed) ← Lz2DecodeChunk n raw compressedSize;
    if negb (ok : bool) then mret (StreamEnd false (written s)) else
    _ ← BfResetSoftLimit;
    mret (NextChunk (u32 (written s + bytesProcessed)))) (fun e s' => counted s' e).
Proof using Hbytes Hinput Hisize Houtput Hosize.
  intros Hs Hn Hc Hr Hst Hgoal Hg. pose proof (written_bounds _ Hs).
  eapply (runs_then onward); [apply (runs_sub coding _), runs_BfSetSoftLimit; [done|lia]|]. intros ok s1 Hs1 _ [_ [_ E1 _ _]].
  destruct ok; cbn [negb]; [|apply counted_break; [tc_solve|done|by rewrite E1]].
  eapply (runs_then onward); [by apply (runs_sub coding _), runs_RcInitialize|]. intros [ok left] s2 Hs2 _ [_ [_ E2 _ _]].
  rewrite E1 in E2. destruct ok; cbn [negb]; [|apply counted_break; [tc_solve|done|by rewrite E2]].
  eapply (runs_then onward); [apply (runs_sub forward _), runs_Lz2DecodeChunk; rewrite ?E2; done || lia|].
  intros [ok bytes] s3 Hs3 _ [Hb [_ _ _ Hw]]. rewrite E2 in Hb, Hw. cbn [fst snd] in Hb.
  destruct ok; cbn [negb]; [|apply counted_break; [tc_solve|done|done]].
  eapply (runs_then onward); [by apply (runs_sub coding _), runs_BfResetSoftLimit|]. intros [] s4 Hs4 _ [_ [_ E4 _ _]].
  apply runs_ret; [tc_solve|done|]. pose proof (written_bounds _ Hs3). cbn. rewrite E4, Hb, u32_small; lia.
Qed.

Lemma runs_Lz2DecodeStream_chunk n s : safe s -> osize <= Z.of_nat n ->
  runs onward s (Lz2DecodeStream_chunk n false (written s))
    (fun e s' => counted s' e /\ (if e is NextChunk _ then In_Offset (mz_In s) < In_Offset (mz_In s') else True)).
Proof using Hbytes Hinput Hisize Houtput Hosize.
  intros Hs Hn. unfold Lz2DecodeStream_chunk. cbv zeta.
  eapply (runs_then onward); [by apply (runs_sub coding _), runs_BfRead|].
  intros [ok ctrl] s1 Hs1 _ [[Hctrl Ho1] [_ E1 _ _]]. cbn [fst snd] in *.
  destruct ok; cbn [negb]; [|apply runs_ret; [tc_solve|done|]; cbn; rewrite E1; done].
  case_if; [apply runs_ret; [tc_solve|done|]; cbn; rewrite E1; done|].
  apply (runs_weaken onward _ _ _ (fun e s' => counted s' e /\ onward s1 s')); [|done|].
  2: { intros e s' Hs' _ [He [Ho _]]. split; [done|]. destruct e; [lia|done]. }
  apply (runs_sub onward _).
  eapply (runs_then onward); [apply (runs_sub coding _), runs_BfSeek; [done|case_if; lia]|].
  intros [ok p] s2 Hs2 _ [Hp [_ E2 T2 _]]. unfold sought in Hp. cbn [fst snd] in Hp. rewrite <- E1, <- E2.
  destruct ok; cbn [negb]; [|by apply counted_break; [tc_solve|..]].
  destruct Hp as (-> & Ho2 & Hend). pose proof (sf_offset _ Hs1).
  eapply (runs_then onward).
  { apply (runs_sub coding _). by apply (runs_chunk_sizes _ (In_Offset (mz_In s1))). }
  intros [raw comp] s0 _ _ [(-> & Hr & Hc) _]. cbn [fst snd] in *.
  eapply (runs_then onward); [by apply runs_DtSetLimit|]. intros ok s3 Hs3 _ [H3 Hlim]. rewrite <- H3.
  destruct ok; cbn [negb]; [|by apply counted_break; [tc_solve|..]]. destruct Hlim as (Hst & Hgoal & Hg).
  eapply (runs_then onward); [by apply (runs_sub stable _), runs_chunk_reset|]. intros ok s4 Hs4 _ [_ [_ E4 _]].
  rewrite <- E4 in *. destruct ok; cbn [negb]; [|by apply counted_break; [tc_solve|..]].
  case_if; [apply runs_raw_body|apply runs_lzma_body]; done || lia.
Qed.

(** Every round reads a byte or more: the input bounds the rounds. *)
Lemma runs_Lz2DecodeStream_loop n k s : safe s -> osize <= Z.of_nat n -> isize - In_Offset (mz_In s) < Z.of_nat k ->
  runs onward s (Lz2DecodeStream_loop n k false (written s))
    (fun x s' => x.2 <= written s' /\ (x.1 = true -> x.2 = written s')).
Proof using Hbytes Hinput Hisize Houtput Hosize.
  intros Hs Hn. revert s Hs. induction k as [|k IH]; intros s Hs Hk; pose proof Hs as []; [lia|]. cbn [Lz2DecodeStream_loop].
  eapply (runs_then onward); [by apply runs_Lz2DecodeStream_chunk|]. intros [b|ok b] s1 Hs1 _ [He Ho]; cbn [counted] in He.
  - subst b. apply IH; [done|lia].
  - apply runs_ret; [tc_solve|done|done].
Qed.

(** ** The container *)

(** Headers, index and footer only move in the input. *)
Record calm (s s' : minlz) : Prop := {
  cl_mem : mz_mem s' = mz_mem s;
  cl_dict : mz_Dictionary s' = mz_Dictionary s;
}.

#[local] Instance calm_order : PreOrder calm.
Proof. split; [done|]. intros s1 s2 s3 [] []. split; by etransitivity. Qed.

#[local] Instance coding_calm : subrelation coding calm.
Proof. intros s s' []. by split. Qed.

Lemma runs_seek s n : safe s -> runs calm s (BfSeek n) any.
Proof. intros Hs. destruct (BfSeek_safe s n Hs) as (x & s' & ? & ? & ? & ?). by exists x, s'. Qed.

Lemma runs_read s : safe s -> runs calm s BfRead any.
Proof using Hbytes Hinput Hisize. intros Hs. eapply (runs_weaken coding); [by apply runs_BfRead|apply coding_calm|done]. Qed.

Lemma runs_get_Container {A B} s (g : CONTAINER_STATE -> A) (f : A -> LZ B) Q :
  (forall x, runs calm s (f x) Q) -> runs calm s (get_Container g ≫= f) Q.
Proof. intros Hf. by apply runs_gets. Qed.

Lemma runs_mod_Container s g : safe s -> runs calm s (mod_Container g) any.
Proof. intros []. by apply runs_modify. Qed.

Lemma runs_Container s (g : CONTAINER_STATE -> Z) : safe s -> runs calm s (get_Container g) any.
Proof. intros Hs. by exists (g (mz_Container s)), s. Qed.

Lemma runs_mz_load s o i n p : safe s -> 0 <= o -> 0 <= i -> (0 < n)%nat -> o + i + Z.of_nat n <= isize -> p = u32 (ib + o) + i ->
  runs calm s (mz_load n p) any.
Proof using Hbytes Hinput.
  intros Hs Ho Hi Hn Hend ->. destruct (safe_input s o Hs) as (? & _); [lia|]. rewrite u32_small by lia.
  assert (region m0 (ib + o + i) (Z.of_nat n)) as Hr by (eapply region_sub; [exact Hinput|lia..]).
  pose proof Hs as []. destruct sf_output0 as (out & Hm & _).
  destruct (region_write _ _ _ ob out Hr) as (old & Hl & Hold).
  exists (le_value old), s. split; [|done]. unfold mz_load. rewrite Hm. replace n with (length old) by (unfold zlen in Hl; lia).
  by rewrite load_le_bytes_at.
Qed.

(** [ret] ends a branch. *)
#[local] Ltac ret := by apply runs_ret; [tc_solve|..].
#[local] Ltac step H := eapply (runs_then calm); [by apply H|].

Lemma runs_Vli_loop n b v s : safe s -> (n <= 3)%nat -> runs calm s (XzDecodeVli_loop (S (S n)) b (7 * (4 - Z.of_nat n)) v) any.
Proof using Hbytes Hinput Hisize.
  intros Hs Hn. revert b v s Hs.
  induction n as [|n IH]; intros b v s Hs; cbn [XzDecodeVli_loop]; (case_if; [ret|]); step runs_read;
    intros [ok b'] s1 Hs1 _ _; (destruct ok; cbn [negb]; [|ret]).
  - change (7 * (4 - Z.of_nat 0) =? 7 * VLI_BYTES_MAX) with true. cbn [orb]. ret.
  - case_if; [ret|]. replace (7 * (4 - Z.of_nat (S n)) + 7) with (7 * (4 - Z.of_nat n)) by lia. apply IH; [lia|done].
Qed.

Lemma runs_XzDecodeVli s v : safe s -> runs calm s (XzDecodeVli v) any.
Proof using Hbytes Hinput Hisize.
  intros Hs. unfold XzDecodeVli. step runs_read. intros [ok b] s1 Hs1 _ _. destruct ok; cbn [negb]; [|ret].
  by apply (runs_Vli_loop 3).
Qed.

(** At most three bytes of padding. *)
Lemma runs_Align_loop n s : safe s -> (- In_Offset (mz_In s)) mod 4 < Z.of_nat n -> runs calm s (BfAlign_loop n) any.
Proof using Hbytes Hinput Hisize.
  revert s. induction n as [|n IH]; intros s Hs Hn; cbn [BfAlign_loop]; [lia|]. apply runs_gets.
  change 3 with (2 ^ 2 - 1). rewrite land_low by lia. case_if; b2p; [ret|].
  eapply (runs_then calm); [apply (runs_sub coding _); by apply runs_BfRead|].
  intros [ok b] s1 Hs1 _ [[_ Ho] _]. cbn [fst] in Ho. destruct ok; cbn [negb orb]; [|ret]. case_if; [ret|]. apply IH; [done|].
  rewrite Ho. change (2 ^ 2) with 4 in *. lia.
Qed.

Lemma runs_BfAlign s : safe s -> runs calm s BfAlign any.
Proof using Hbytes Hinput Hisize. intros Hs. apply runs_Align_loop; [done|lia]. Qed.

Lemma runs_XzDecodeIndex s : safe s -> runs calm s XzDecodeIndex any.
Proof using Hbytes Hinput Hisize.
  intros Hs. unfold XzDecodeIndex. step runs_seek. intros [b0 start] s1 Hs1 _ _.
  step runs_read. intros [ok b] s2 Hs2 _ _. case_if; [ret|].
  step runs_XzDecodeVli. intros [ok1 v1] s3 Hs3 _ _. case_if; [ret|].
  step runs_XzDecodeVli. intros [ok2 v2] s4 Hs4 _ _. apply runs_get_Container. intros x. case_if; [ret|].
  step runs_XzDecodeVli. intros [ok3 v3] s5 Hs5 _ _. apply runs_get_Container. intros y. case_if; [ret|].
  step runs_BfAlign. intros ok4 s6 Hs6 _ _. case_if; [ret|].
  step runs_seek. intros [b1 e] s7 Hs7 _ _. step runs_mod_Container. intros [] s8 Hs8 _ _.
  step runs_seek. intros [ok5 p] s9 Hs9 _ _. ret.
Qed.

(** A header of 12 bytes: the reads that follow are inside. *)
Lemma runs_header {A} s (f : bool * Z -> LZ A) :
  safe s -> (forall p s1, safe s1 -> runs calm s1 (f (false, p)) any) ->
  (forall o s1, safe s1 -> 0 <= o -> o + 12 <= isize -> runs calm s1 (f (true, u32 (ib + o))) any) ->
  runs calm s (BfSeek 12 ≫= f) any.
Proof using Hisize.
  intros Hs Hfail Hok. eapply (runs_then calm); [apply (runs_sub coding _), runs_BfSeek; [done|lia]|].
  intros [ok p] s1 Hs1 _ [Hp _]. unfold sought in Hp. cbn [fst snd] in Hp. destruct ok; [|by apply Hfail].
  destruct Hp as (-> & _ & ?). apply Hok; [done|apply (sf_offset _ Hs)|done].
Qed.

#[local] Ltac load o i := eapply (runs_then calm); [apply (runs_mz_load _ o i); (done || (unfold sf_Magic, sf_Flags, sf_BackwardSize, sh_Flags; lia))|].
#[local] Ltac byte o i := apply (runs_load8 calm _ o i); [done|lia|lia|lia|unfold bh_Size, bh_Flags, bh_LzmaFlags_Id, bh_LzmaFlags_Size, bh_LzmaFlags_Properties; lia|].

Lemma runs_XzDecodeStreamFooter s : safe s -> runs calm s XzDecodeStreamFooter any.
Proof using Hbytes Hinput Hisize.
  intros Hs. apply runs_header; [done|intros; cbn [negb]; ret|]. intros o s1 Hs1 Ho Hend. cbn [negb].
  load o sf_Magic. intros magic s2 Hs2 _ _. case_if; [ret|]. load o sf_Flags. intros flags s3 Hs3 _ _. case_if; [ret|].
  load o sf_BackwardSize. intros back s4 Hs4 _ _. apply runs_get_Container. intros x. case_if; ret.
Qed.

Lemma runs_XzDecodeStreamHeader s : safe s -> runs calm s XzDecodeStreamHeader any.
Proof using Hbytes Hinput Hisize.
  intros Hs. apply runs_header; [done|intros; cbn [negb]; ret|]. intros o s1 Hs1 Ho Hend. cbn [negb].
  load o 1. intros magic s2 Hs2 _ _. case_if; [ret|]. byte o 0. intros b0 _. case_if; [ret|].
  byte o 5. intros b5 _. case_if; [ret|]. load o sh_Flags. intros flags s3 Hs3 _ _. case_if; [ret|].
  cbv zeta. step runs_mod_Container. intros [] s4 Hs4 _ _. ret.
Qed.

Lemma runs_XzDecodeBlockHeader s : safe s -> runs calm s XzDecodeBlockHeader any.
Proof using Hbytes Hinput Hisize.
  intros Hs. apply runs_header; [done|intros; cbn [negb]; ret|]. intros o s1 Hs1 Ho Hend. cbn [negb].
  byte o 0. intros size _. case_if.
  - step runs_seek. intros x s2 Hs2 _ _. ret.
  - cbv zeta. step runs_mod_Container. intros [] s2 Hs2 _ _. case_if; [ret|].
    byte o 1. intros flags _. case_if; [ret|]. byte o 2. intros id _. case_if; [ret|].
    byte o 3. intros fsize _. case_if; [ret|]. byte o 4. intros props _. case_if; ret.
Qed.

(** Back and forth: what is left is the invariant. *)
Definition anywhere (s s' : minlz) : Prop := True.

#[local] Instance anywhere_order : PreOrder anywhere.
Proof. by split. Qed.

#[local] Instance sub_anywhere R : subrelation R anywhere.
Proof. by intros s s' ?. Qed.

(** What is reported of the output. *)
Definition reported (s : minlz) (ok : bool) (size : Z) : Prop :=
  size <= osize /\ (ok = true -> size = written s).

#[local] Ltac calmly H := eapply (runs_then anywhere); [apply (runs_sub calm _); by apply H|].
#[local] Ltac end_report := apply runs_ret; [tc_solve|done|].

Lemma runs_XzDecodeBlock n k s : safe s -> written s = 0 -> ob <> 0 -> osize <= Z.of_nat n -> isize < Z.of_nat k ->
  runs anywhere s (XzDecodeBlock n k ob) (fun x s' => reported s' x.1 x.2).
Proof using Hbytes Hinput Hisize Houtput Hosize.
  intros Hs Hw Hob Hn Hk. unfold XzDecodeBlock, Lz2DecodeStream. calmly runs_seek.
  intros [b0 start] s1 Hs1 _ [_ [_ E1]]. rewrite (proj2 (Z.eqb_neq _ _) Hob).
  eapply (runs_then anywhere).
  { apply (runs_sub onward _). rewrite <- Hw, <- E1. apply runs_Lz2DecodeStream_loop; [done|done|]. pose proof (sf_offset _ Hs1). lia. }
  intros [ok size] s2 Hs2 _ [[Hsize Heq] _]. cbn [fst snd] in *. pose proof (written_bounds _ Hs2).
  destruct ok; cbn [negb]; [|end_report; split; [cbn; lia|done]]. specialize (Heq eq_refl).
  calmly runs_seek. intros [b1 e] s3 Hs3 _ [_ [_ E3]].
  calmly runs_mod_Container. intros [] s4 Hs4 _ [_ [_ E4]]. calmly runs_mod_Container. intros [] s5 Hs5 _ [_ [_ E5]].
  calmly runs_BfAlign. intros ok s6 Hs6 _ [_ [_ E6]]. destruct ok; cbn [negb]; [|end_report; split; [cbn; lia|done]].
  calmly runs_Container. intros check s7 Hs7 _ [_ [_ E7]]. calmly runs_seek. intros [ok p] s8 Hs8 _ [_ [_ E8]].
  destruct ok; cbn [negb]; [|end_report; split; [cbn; lia|done]].
  calmly runs_mod_Container. intros [] s9 Hs9 _ [_ [_ E9]]. end_report. unfold reported. cbn [fst snd].
  rewrite E9, E8, E7, E6, E5, E4, E3. split; [lia|done].
Qed.

Definition answered (isz : Z) (x : bool * Z * Z) s : Prop := reported s x.1.1 x.2 /\ (isz <> 0 -> x.1.2 = isz).

Lemma runs_XzDecode_tail s isz size : safe s -> size <= osize -> size = written s ->
  runs anywhere s (XzDecode_tail isz size) (answered isz).
Proof using Hbytes Hinput Hisize.
  intros Hs Hsize Heq. unfold XzDecode_tail. calmly runs_XzDecodeIndex. intros ok s1 Hs1 _ [_ [_ E1]].
  destruct ok; cbn [negb]; [|end_report; by split; [split|]]. calmly runs_XzDecodeStreamFooter. intros ok s2 Hs2 _ [_ [_ E2]].
  destruct ok; cbn [negb]; [|end_report; by split; [split|]]. unfold BfTell. apply runs_gets. end_report.
  split; [split; [done|]; cbn [fst snd]; by rewrite E2, E1|]. cbn [fst snd]. intros Hz. by rewrite (proj2 (Z.eqb_neq _ _) Hz).
Qed.

Lemma runs_XzDecode n k s isz : safe s -> written s = 0 -> ob <> 0 -> osize <= Z.of_nat n -> isize < Z.of_nat k ->
  runs anywhere s (ok ← XzDecodeStreamHeader;
    if negb (ok : bool) then mret (false, isz, osize) else
    r ← XzDecodeBlockHeader;
    match r with
    | XzBlockHeaderFail => mret (false, isz, osize)
    | XzBlockHeaderNoBlock => XzDecode_tail isz 0
    | XzBlockHeaderSuccess =>
        '(ok, size) ← XzDecodeBlock n k ob;
        if negb (ok : bool) then mret (false, isz, size) else XzDecode_tail isz size
    end) (answered isz).
Proof using Hbytes Hinput Hisize Houtput Hosize.
  intros Hs Hw Hob Hn Hk. pose proof (written_bounds _ Hs). calmly runs_XzDecodeStreamHeader. intros ok s1 Hs1 _ [_ [_ E1]].
  destruct ok; cbn [negb]; [|end_report; by split; [split|]]. calmly runs_XzDecodeBlockHeader. intros r s2 Hs2 _ [_ [_ E2]].
  rewrite <- E1, <- E2 in Hw. destruct r; [end_report; by split| |by apply runs_XzDecode_tail; [|lia|]].
  eapply (runs_then anywhere); [by apply runs_XzDecodeBlock|]. intros [ok size] s3 Hs3 _ [Hsize Heq]. cbn [fst snd] in *.
  destruct ok; cbn [negb]; [|end_report; by split; [split|]]. by apply runs_XzDecode_tail; [| |apply Heq].
Qed.
End safe.

(** ** The property *)

(** The sequence state and the size of the model, as LzResetState leaves them
    and as they are at the start. *)
Definition decoder_wf (d : DECODER_STATE) : Prop := 0 <= Sequence d < 12 /\ zlen (RawProbabilities d) = 7318.

Definition holds_bytes (m : mem) : Prop := forall a b, m !! a = Some b -> is_byte b.

(** C2: On an arbitrary input of known size the decoder ends: it reads inside
    the input, it writes the output from its start on and not behind its end,
    and nothing else in memory changes.  The size that it reports is not above
    the size of the output, and when it accepts the file it is the number of
    bytes written.  As many rounds as the output and the input have bytes are
    enough, and the decoder can be called again. *)
Theorem XzDecode_safe (s : minlz) (ib isize ob osize : Z) (n k : nat) :
  decoder_wf (mz_Decoder s) -> holds_bytes (mz_mem s) ->
  region (mz_mem s) ib isize -> 0 < isize < 2 ^ 32 - 2 ^ 21 ->
  region (mz_mem s) ob osize -> ob <> 0 -> osize < 2 ^ 32 - 2 ^ 21 ->
  osize <= Z.of_nat n -> isize < Z.of_nat k ->
  exists ok size out s', XzDecode n k ib isize ob osize s = Done ((ok, isize, size), s') /\
    mz_mem s' = write_bytes (mz_mem s) ob out /\ zlen out <= osize /\ size <= osize /\
    (ok = true -> size = zlen out) /\ decoder_wf (mz_Decoder s').
Proof.
  intros [Hseq Hslots] Hbytes Hin Hisize Hout Hob Hosize Hn Hk.
  pose proof Hout as (old & Hold & _). pose proof (zlen_nonneg old).
  set (s1 := set_Dictionary (Dictionary_ ob osize (Dictionary_Start (mz_Dictionary s)) 0 (Dictionary_Limit (mz_Dictionary s)))
    (set_In (In_ ib 0 isize isize) s)).
  assert (safe (mz_mem s) ib isize ob osize s1) as Hs1.
  { split; cbn; try done; try lia. exists []. split_and!; try done. change (zlen (@nil Z)) with 0. lia. }
  destruct (runs_XzDecode (mz_mem s) ib isize ob osize Hbytes Hin Hout (proj2 Hisize) Hosize n k s1 isize Hs1 eq_refl Hob Hn Hk)
    as ([[ok used] size] & s2 & R & Hs2 & _ & [[Hsize Heq] Hused]). cbn [fst snd] in *. rewrite Hused in R by lia.
  pose proof Hs2 as []. destruct sf_output0 as (out & Hm & _ & Hl & ?).
  exists ok, size, out, s2. split; [|split_and!; try done; intros Hok; by rewrite Hl, Heq].
  unfold XzDecode, BfInitialize, DtInitialize. rewrite !run_modify, (proj2 (Z.eqb_neq isize 0)) by lia. exact R.
Qed.

Lemma holds_bytes_write m a bs : holds_bytes m -> are_bytes bs -> holds_bytes (write_bytes m a bs).
Proof.
  intros Hm Hbs k b. rewrite lookup_write_bytes. case_match; [|apply Hm]. intros Hk.
  by apply (proj1 (Forall_lookup _ _) Hbs _ _ Hk).
Qed.

(** The file without its second half. *)
Lemma XzDecode_safe_witness :
  exists ok size out s', XzDecode 64 41 4096 40 65536 64 demo_state = Done ((ok, 40, size), s') /\
    mz_mem s' = write_bytes (mz_mem demo_state) 65536 out /\ zlen out <= 64 /\ size <= 64 /\ (ok = true -> size = zlen out).
Proof.
  assert (region (mz_mem demo_state) 4096 72) as Hin.
  { assert (zlen (xz_bytes demo_file) = 72) as <- by (rewrite demo_bytes; reflexivity).
    apply bytes_at_region, bytes_at_write_eq; [lia|]. rewrite demo_bytes. by vm_compute. }
  assert (zlen (replicate (Z.to_nat 64) 170) = 64) as H64 by reflexivity.
  destruct (XzDecode_safe demo_state 4096 40 65536 64 64 41) as (ok & size & out & s' & R & Hm & Hl & Hs & He & _); try lia.
  - split; [cbn; lia|]. cbn [mz_Decoder demo_state RawProbabilities]. by rewrite zlen_replicate.
  - assert (are_bytes (xz_bytes demo_file)) as Hfile by (rewrite demo_bytes; by repeat constructor).
    assert (are_bytes (replicate (Z.to_nat 64) 170)) as Hpad by (apply Forall_replicate; unfold is_byte; lia).
    apply holds_bytes_write; [|exact Hfile]. apply holds_bytes_write; [|exact Hpad]. intros a b Hab.
    by rewrite lookup_empty in Hab.
  - eapply region_sub; [exact Hin|lia..].
  - apply region_write. rewrite <- H64. apply bytes_at_region, bytes_at_write_eq; lia.
  - exists ok, size, out, s'. exact (conj R (conj Hm (conj Hl (conj Hs He)))).
Defined.
