(* ===== verification/Mmu.v ===== *)
(** * Caches and address translation (src/memory.c, src/memory.h)

    The translation table is [__pgtables], 4096 sections of 1 MiB each; the
    system registers are fields of the state, and the operations the code does
    on the processor (cache maintenance, writes of system registers) are also
    recorded in order. *)
From S2P Require Import Prelude Machine CString Adt.

Definition SZ_1M : Z := 2 ^ 20.
Definition CACHE_LINE_SIZE : Z := 64.

(** ** memory.h *)
Definition ATTR_SECTION : Z := BIT 1.
Definition ATTR_BUFFERABLE : Z := BIT 2.
Definition ATTR_CACHEABLE : Z := BIT 3.
Definition ATTR_SHARABLE : Z := BIT 16.
Definition ATTR_NS : Z := BIT 19.
Definition AP_RW_ALL : Z := 3.
(** [FIELD_PREP(ATTR_DOMAIN, 0)] *)
Definition ATTR_DOMAIN_0 : Z := 0 * BIT 5.

(** ** arm_cpu_regs.h *)
Definition SCTLR_M : Z := BIT 0.
Definition SCTLR_A : Z := BIT 1.
Definition SCTLR_C : Z := BIT 2.
Definition SCTLR_Z : Z := BIT 11.
Definition SCTLR_I : Z := BIT 12.

(** ** State *)
Inductive cache_op := Icimvau | Dcimvac | Dccmvac | Dccmvau | Dccimvac.

Inductive cpu_event :=
| Cacheop (op : cache_op) (p : Z)
| Dcsw_op_all (op_type : Z)
| Write_dacr (v : Z)
| Write_ttbr0 (v : Z)
| Write_ttbcr (v : Z)
| Write_sctlr (v : Z).

Record mmu_state := Mmu {
  pgtables : list Z;
  sctlr : Z;
  events : list cpu_event;
}.

Definition emit_events (s : mmu_state) (es : list cpu_event) : mmu_state :=
  Mmu (pgtables s) (sctlr s) (events s ++ es).
Definition write_sctlr (s : mmu_state) (v : Z) : mmu_state :=
  Mmu (pgtables s) v (events s ++ [Write_sctlr v]).

(** ** Cache maintenance by address *)
Fixpoint cache_range_loop (fuel : nat) (op : cache_op) (p end_ : Z) : outcome (list cpu_event) :=
  match fuel with
  | O => Stuck
  | S fuel' =>
      if p <? end_ then
        es ← cache_range_loop fuel' op (u64 (p + CACHE_LINE_SIZE)) end_;
        Done (Cacheop op (u32 p) :: es)
      else Done []
  end.

(** [CACHE_RANGE_OP(func, op)]: the bounds are 64-bit, so they do not wrap; one
    round per line and the test that ends the loop. *)
Definition cache_range (op : cache_op) (s : mmu_state) (addr length : Z) : outcome mmu_state :=
  es ← cache_range_loop (S (Z.to_nat ((length + 63) / 64))) op addr (u64 (addr + length));
  Done (emit_events s es).

Definition ic_ivau_range := cache_range Icimvau.
Definition dc_ivac_range := cache_range Dcimvac.
Definition dc_cvac_range := cache_range Dccmvac.
Definition dc_cvau_range := cache_range Dccmvau.
Definition dc_civac_range := cache_range Dccimvac.

(** ** The translation table *)
Definition set_or_clear (c : bool) (section bit : Z) : Z :=
  if c then Z.lor section bit else Z.land section (u32 (Z.lnot bit)).

Definition mmu_add_ap (section perms : Z) : Z :=
  let section := set_or_clear (negb (Z.land perms (BIT 0) =? 0)) section (BIT 10) in
  let section := set_or_clear (negb (Z.land perms (BIT 1) =? 0)) section (BIT 11) in
  set_or_clear (negb (Z.land perms (BIT 2) =? 0)) section (BIT 15).

(** [while (index--) __pgtables[from_off++] = ((to_off++) << 20) | attr;] *)
Fixpoint section_loop (n : nat) (pt : list Z) (from_off to_off attr : Z) : outcome (list Z) :=
  match n with
  | O => Done pt
  | S n' =>
      pt ← zset pt from_off (Z.lor (u32 (Z.shiftl to_off 20)) attr);
      section_loop n' pt (from_off + 1) (to_off + 1) attr
  end.

Definition mmu_add_mapping (pt : list Z) (from to size perms attr : Z) : outcome (list Z) :=
  _ ← c_assert (to =? ALIGN_UP 32 to SZ_1M);
  _ ← c_assert (from =? ALIGN_UP 32 from SZ_1M);
  _ ← c_assert (size =? ALIGN_UP 32 size SZ_1M);
  let attr := Z.land attr (u32 (Z.lnot 3)) in
  let attr := mmu_add_ap attr perms in
  let attr := Z.lor attr (Z.lor ATTR_SECTION ATTR_NS) in
  let attr := Z.lor attr ATTR_DOMAIN_0 in
  section_loop (Z.to_nat (Z.shiftr size 20)) pt (Z.shiftr from 20) (Z.shiftr to 20) attr.

(** The loop over the ranges of the I/O bus, 12 bytes each. *)
Fixpoint io_ranges_loop (n : nat) (m : mem) (pt : list Z) (ranges : Z) : outcome (list Z) :=
  match n with
  | O => Done pt
  | S n' =>
      bus ← load_le 4 m (ranges + 4);
      size ← load_le 4 m (ranges + 8);
      pt ← mmu_add_mapping pt bus bus size AP_RW_ALL ATTR_BUFFERABLE;
      io_ranges_loop n' m pt (ranges + 12)
  end.

(** What [mmu_init] takes from the rest of the program: the tree, the string
    literals "/arm-io" and "ranges", the address of the table, and the boot
    arguments. *)
Record mmu_env := MmuEnv {
  me_adt : Z;
  me_arm_io : Z;
  me_ranges : Z;
  me_pgtables : Z;
  me_phys_base : Z;
  me_mem_size : Z;
}.

(** The part after the table is written. *)
Definition enable_translation (e : mmu_env) (s : mmu_state) : outcome mmu_state :=
  let s := emit_events s [Write_dacr 0x55555555; Write_ttbr0 (me_pgtables e); Write_ttbcr 0] in
  s ← dc_cvac_range s (me_pgtables e) (4 * zlen (pgtables s));
  let sctlr2 := Z.land (sctlr s) (u32 (Z.lnot SCTLR_A)) in
  let sctlr2 := Z.lor sctlr2 (Z.lor (Z.lor SCTLR_Z SCTLR_M) SCTLR_I) in
  Done (write_sctlr s sctlr2).

Definition mmu_init (r : adt_rodata) (m : mem) (e : mmu_env) (s : mmu_state) : outcome mmu_state :=
  node ← adt_path_offset r m (me_adt e) (me_arm_io e);
  if node <? 0 then Done s else
  p ← adt_getprop m (me_adt e) node (me_ranges e);
  match p with
  | None => Done s
  | Some (ranges, ranges_len) =>
      let pt := replicate (length (pgtables s)) 0 in
      pt ← io_ranges_loop (Z.to_nat (ranges_len / 12)) m pt ranges;
      pt ← mmu_add_mapping pt (me_phys_base e) (me_phys_base e) (ALIGN_UP 32 (me_mem_size e) (BIT 24))
             AP_RW_ALL (Z.lor (Z.lor ATTR_BUFFERABLE ATTR_CACHEABLE) ATTR_SHARABLE);
      enable_translation e (Mmu pt (sctlr s) (events s))
  end.

(** ** Switching translation off and on *)
Definition DCSW_OP_DCCISW : Z := 1.

Definition mmu_shutdown (s : mmu_state) : mmu_state :=
  let sctlr2 := Z.land (sctlr s) (u32 (Z.lnot (Z.lor (Z.lor (Z.lor SCTLR_A SCTLR_I) SCTLR_C) SCTLR_M))) in
  write_sctlr (emit_events s [Dcsw_op_all DCSW_OP_DCCISW]) sctlr2.

Definition mmu_disable (s : mmu_state) : Z * mmu_state :=
  let sctlr_old := sctlr s in
  if Z.land sctlr_old SCTLR_M =? 0 then (sctlr_old, s) else
  let s := emit_events s [Dcsw_op_all DCSW_OP_DCCISW] in
  (sctlr_old, write_sctlr s (Z.land sctlr_old (u32 (Z.lnot (Z.lor (Z.lor SCTLR_I SCTLR_C) SCTLR_M))))).

Definition mmu_restore (s : mmu_state) (state : Z) : mmu_state := write_sctlr s state.

Definition mmu_active (s : mmu_state) : bool := negb (Z.land (sctlr s) SCTLR_M =? 0).

(** ** What the processor makes of the table

    Short descriptors without a second level: a descriptor whose low bits are
    10 maps the 1 MiB section of the address. *)
Record translation := Translation {
  t_pa : Z;
  t_ap : Z;
  t_bufferable : bool;
  t_cacheable : bool;
  t_shareable : bool;
  t_non_secure : bool;
}.

Definition descriptor (e va : Z) : option translation :=
  if Z.land e 3 =? 2 then
    Some (Translation (2 ^ 20 * (e / 2 ^ 20) + va mod 2 ^ 20)
            (4 * Z.b2z (Z.testbit e 15) + 2 * Z.b2z (Z.testbit e 11) + Z.b2z (Z.testbit e 10))
            (Z.testbit e 2) (Z.testbit e 3) (Z.testbit e 16) (Z.testbit e 19))
  else None.

Definition table_walk (pt : list Z) (va : Z) : option translation :=
  pt !! Z.to_nat (va / 2 ^ 20) ≫= fun e => descriptor e va.

(** The translation of a mapping's address with [perms] and [attr]. *)
Definition mapped_as (pa perms attr : Z) : translation :=
  Translation pa (perms mod 8) (Z.testbit attr 2) (Z.testbit attr 3) (Z.testbit attr 16) true.

(** [va] is one of the [size] addresses from [from] on. *)
Definition in_block (va from size : Z) : bool := (from <=? va) && (va <? from + size).

Section table.
Implicit Types (pt : list Z) (s : mmu_state).

Lemma set_or_clear_testbit c x k n :
  0 <= k < 32 -> 0 <= x < 2 ^ 32 -> 0 <= n ->
  Z.testbit (set_or_clear c x (BIT k)) n = if n =? k then c else Z.testbit x n.
Proof.
  intros Hk Hx Hn. unfold set_or_clear, BIT. destruct c.
  - rewrite Z.lor_spec, Z.pow2_bits_eqb, Z.eqb_sym by lia. destruct (n =? k); [apply orb_true_r|apply orb_false_r].
  - unfold wrap. rewrite Z.land_spec. destruct (decide (n < 32)).
    + rewrite Z.mod_pow2_bits_low, Z.lnot_spec, Z.pow2_bits_eqb, Z.eqb_sym by lia.
      destruct (n =? k); [apply andb_false_r|apply andb_true_r].
    + rewrite (testbit_high x 32) by lia. by destruct (n =? k).
Qed.

(** A value is below [2^w] when its bits are. *)
Lemma below_testbit x w : 0 <= w -> (forall n, w <= n -> Z.testbit x n = false) -> 0 <= x < 2 ^ w.
Proof.
  intros Hw H. replace x with (x mod 2 ^ w); [apply Z.mod_pos_bound; by apply Z.pow_pos_nonneg|].
  apply Z.bits_inj'. intros n Hn. destruct (decide (n < w)).
  - by rewrite Z.mod_pow2_bits_low by lia.
  - rewrite Z.mod_pow2_bits_high by lia. by rewrite H by lia.
Qed.

Lemma set_or_clear_range c x k w :
  0 <= k < w -> w <= 32 -> 0 <= x < 2 ^ w -> 0 <= set_or_clear c x (BIT k) < 2 ^ w.
Proof.
  intros Hk Hw Hx. assert (2 ^ w <= 2 ^ 32) by (apply Z.pow_le_mono_r; lia).
  apply below_testbit; [lia|]. intros n Hn.
  rewrite set_or_clear_testbit by lia. bdec. apply (testbit_high x w); lia.
Qed.

Lemma land_bit_testbit x k : 0 <= k -> negb (Z.land x (BIT k) =? 0) = Z.testbit x k.
Proof.
  intros Hk. unfold BIT. destruct (Z.testbit x k) eqn:E.
  - apply negb_true_iff, Z.eqb_neq. intros H. assert (Z.testbit (Z.land x (2 ^ k)) k = false) as Hf by (rewrite H; apply Z.bits_0).
    rewrite Z.land_spec, Z.pow2_bits_true, E in Hf by lia. done.
  - apply negb_false_iff, Z.eqb_eq. apply Z.bits_inj'. intros n Hn. rewrite Z.land_spec, Z.bits_0, Z.pow2_bits_eqb by lia.
    destruct (Z.eqb_spec k n) as [->|]; [by rewrite E|apply andb_false_r].
Qed.

Lemma mmu_add_ap_testbit x perms n :
  0 <= x < 2 ^ 32 -> 0 <= n ->
  Z.testbit (mmu_add_ap x perms) n =
    if n =? 15 then Z.testbit perms 2 else if n =? 11 then Z.testbit perms 1
    else if n =? 10 then Z.testbit perms 0 else Z.testbit x n.
Proof.
  intros Hx Hn. unfold mmu_add_ap. rewrite !land_bit_testbit by lia.
  assert (forall c y k, 0 <= k < 32 -> 0 <= y < 2 ^ 32 -> 0 <= set_or_clear c y (BIT k) < 2 ^ 32) as Hr
    by (intros; apply set_or_clear_range; lia).
  rewrite !set_or_clear_testbit by (repeat apply Hr; lia). done.
Qed.

(** Split on every condition of the goal, and drop the impossible cases. *)
Ltac bcases :=
  repeat case_if;
  repeat match goal with H : (_ && _)%bool = false |- _ => apply andb_false_iff in H as [?|?] end; b2p; try lia.

(** Evaluate the comparisons of two literals in the goal. *)
Ltac eval_eqb :=
  repeat match goal with
  | |- context [Zpos ?a =? ?b] => let r := eval vm_compute in (Zpos a =? b) in change (Zpos a =? b) with r
  end; cbn [orb].

(** The attribute word a mapping writes. *)
Definition attr_word (attr perms : Z) : Z :=
  Z.lor (Z.lor (mmu_add_ap (Z.land attr (u32 (Z.lnot 3))) perms) (Z.lor ATTR_SECTION ATTR_NS)) ATTR_DOMAIN_0.

Lemma attr_word_testbit attr perms n :
  0 <= attr < 2 ^ 20 -> 0 <= n ->
  Z.testbit (attr_word attr perms) n =
    if (n =? 1) || (n =? 19) then true else if n =? 0 then false
    else if n =? 15 then Z.testbit perms 2 else if n =? 11 then Z.testbit perms 1
    else if n =? 10 then Z.testbit perms 0 else Z.testbit attr n.
Proof.
  intros Ha Hn. unfold attr_word. change ATTR_DOMAIN_0 with 0. rewrite Z.lor_0_r, !Z.lor_spec.
  change 3 with (2 ^ 2 - 1). rewrite land_align_mask by lia.
  assert (forall k, 0 <= k -> Z.testbit (2 ^ 2 * (attr / 2 ^ 2)) k = (if k <? 2 then false else Z.testbit attr k)) as Hm.
  { intros k Hk. rewrite Z.mul_comm. destruct (Z.ltb_spec k 2).
    - by rewrite Z.mul_pow2_bits_low by lia.
    - rewrite Z.mul_pow2_bits, Z.div_pow2_bits by lia. f_equal. lia. }
  rewrite mmu_add_ap_testbit, Hm by lia. unfold ATTR_SECTION, ATTR_NS, BIT. rewrite !Z.pow2_bits_eqb by lia.
  repeat match goal with |- context [?a =? ?b] => destruct (Z.eqb_spec a b); subst; try lia end; cbn [orb];
    rewrite ?orb_true_r, ?orb_false_r; try done; destruct (Z.ltb_spec n 2); done || lia.
Qed.

Lemma attr_word_range attr perms : 0 <= attr < 2 ^ 20 -> 0 <= attr_word attr perms < 2 ^ 20.
Proof.
  intros Ha. apply below_testbit; [lia|]. intros n Hn. rewrite attr_word_testbit by lia. bdec. by apply (testbit_high attr 20).
Qed.

(** The descriptor of section [k] with such a word maps its 1 MiB. *)
Lemma descriptor_spec k attr perms va :
  0 <= k < 2 ^ 12 -> 0 <= attr < 2 ^ 20 -> 0 <= perms ->
  descriptor (Z.lor (u32 (Z.shiftl k 20)) (attr_word attr perms)) va =
    Some (mapped_as (2 ^ 20 * k + va mod 2 ^ 20) perms attr).
Proof.
  intros Hk Ha Hp. pose proof (attr_word_range attr perms Ha) as Hw.
  rewrite Z.shiftl_mul_pow2, u32_small, Z.lor_comm, (Z.mul_comm k), lor_disjoint by lia.
  assert (forall n, 0 <= n < 20 -> Z.testbit (attr_word attr perms + 2 ^ 20 * k) n = Z.testbit (attr_word attr perms) n) as Hb.
  { intros n Hn. rewrite <- (Z.mod_pow2_bits_low _ 20) by lia. rewrite (Z.mul_comm (2 ^ 20)), Z_mod_plus_full, Z.mod_small by lia. done. }
  unfold descriptor. assert (Z.land (attr_word attr perms + 2 ^ 20 * k) 3 = 2) as ->.
  { apply Z.bits_inj'. intros n Hn. rewrite Z.land_spec. destruct (decide (n < 2)).
    - rewrite Hb, attr_word_testbit by lia. assert (n = 0 \/ n = 1) as [-> | ->] by lia; reflexivity.
    - rewrite (testbit_high 3 2), (testbit_high 2 2) by lia. apply andb_false_r. }
  cbn [Z.eqb Pos.eqb]. rewrite !Hb, !attr_word_testbit by lia. unfold mapped_as. eval_eqb. do 2 f_equal.
  - lia.
  - rewrite !Z.testbit_spec' by lia. change (2 ^ 0) with 1. change (2 ^ 1) with 2. change (2 ^ 2) with 4. lia.
Qed.

Lemma section_loop_spec n pt f t attr :
  0 <= f -> f + Z.of_nat n <= zlen pt ->
  exists pt', section_loop n pt f t attr = Done pt' /\ length pt' = length pt /\
    forall i, pt' !! i = if (f <=? Z.of_nat i) && (Z.of_nat i <? f + Z.of_nat n)
                         then Some (Z.lor (u32 (Z.shiftl (t + (Z.of_nat i - f)) 20)) attr) else pt !! i.
Proof.
  revert pt f t. induction n as [|n IH]; intros pt f t Hf Hlen; cbn [section_loop].
  - exists pt. split; [done|]. split; [done|]. intros i. case_if; [b2p; lia|done].
  - rewrite zset_Done, bind_Done by lia.
    destruct (IH (<[Z.to_nat f := Z.lor (u32 (Z.shiftl t 20)) attr]> pt) (f + 1) (t + 1)) as (pt' & Hrun & Hl & Hi);
      [lia|unfold zlen in *; rewrite length_insert; lia|].
    exists pt'. rewrite length_insert in Hl. split; [done|]. split; [done|]. intros i. rewrite Hi.
    destruct (decide (Z.of_nat i = f)) as [<-|].
    + bdec. rewrite Nat2Z.id, list_lookup_insert_eq by (unfold zlen in *; lia). do 4 f_equal. lia.
    + replace (t + 1 + (Z.of_nat i - (f + 1))) with (t + (Z.of_nat i - f)) by lia.
      rewrite list_lookup_insert_ne by lia. by bcases.
Qed.

(** Block [from, from + size) is mapped to [to] on; the rest is left alone. *)
Lemma mmu_add_mapping_spec pt from to size perms attr :
  zlen pt = 4096 -> from mod SZ_1M = 0 -> to mod SZ_1M = 0 -> size mod SZ_1M = 0 ->
  0 <= from -> 0 <= to -> 0 <= size -> from + size <= 2 ^ 32 -> to + size <= 2 ^ 32 -> 0 <= attr < 2 ^ 20 -> 0 <= perms ->
  size < 2 ^ 32 -> from < 2 ^ 32 -> to < 2 ^ 32 ->
  exists pt', mmu_add_mapping pt from to size perms attr = Done pt' /\ length pt' = length pt /\
    forall va, 0 <= va < 2 ^ 32 ->
      table_walk pt' va = if in_block va from size then Some (mapped_as (to + (va - from)) perms attr) else table_walk pt va.
Proof.
  intros Hpt Hfrom Hto Hsz Hf0 Ht0 Hs0 Hfe Hte Ha Hp Hs32 Hf32 Ht32. unfold SZ_1M in *.
  assert (forall x, 0 <= x < 2 ^ 32 -> x mod 2 ^ 20 = 0 -> ALIGN_UP 32 x (2 ^ 20) = x) as Hal.
  { intros x Hx Hm. rewrite ALIGN_UP_pow2 by lia. lia. }
  unfold mmu_add_mapping. fold (attr_word attr perms). unfold SZ_1M. rewrite !Hal, !Z.eqb_refl by lia. cbn [c_assert]. rewrite !bind_Done.
  rewrite !Z.shiftr_div_pow2 by lia.
  destruct (section_loop_spec (Z.to_nat (size / 2 ^ 20)) pt (from / 2 ^ 20) (to / 2 ^ 20) (attr_word attr perms)) as (pt' & Hrun & Hl & Hi); [lia|lia|].
  exists pt'. split; [done|]. split; [done|]. intros va Hva. unfold table_walk, in_block. rewrite Hi.
  rewrite !Z2Nat.id by lia. bcases; try done.
  cbn [mbind option_bind]. rewrite descriptor_spec by lia. do 2 f_equal. lia.
Qed.
End table.

(** ** Cache lines *)

(** The operation on every line from [p] on, [n] times. *)
Definition cache_lines (op : cache_op) (p : Z) (n : nat) : list cpu_event :=
  map (fun i => Cacheop op (p + CACHE_LINE_SIZE * Z.of_nat i)) (seq 0 n).

Section caches.
Implicit Types (s : mmu_state).

Lemma cache_lines_S op p n : cache_lines op p (S n) = Cacheop op p :: cache_lines op (p + CACHE_LINE_SIZE) n.
Proof.
  unfold cache_lines. cbn [seq map]. f_equal; [f_equal; lia|]. rewrite <- seq_shift, map_map.
  apply map_ext. intros i. f_equal. lia.
Qed.

Lemma cache_range_loop_spec fuel op p end_ n :
  0 <= p -> p + 64 * Z.of_nat n < end_ + 64 -> end_ <= p + 64 * Z.of_nat n -> end_ <= 2 ^ 32 -> (n < fuel)%nat ->
  cache_range_loop fuel op p end_ = Done (cache_lines op p n).
Proof.
  revert p n. induction fuel as [|fuel IH]; intros p n Hp Hlt Hle H32 Hn; [lia|]. cbn [cache_range_loop].
  destruct n as [|n]; bdec; [done|]. unfold CACHE_LINE_SIZE. rewrite (wrap_small 64) by lia.
  rewrite (IH _ n), bind_Done, u32_small, cache_lines_S by lia. done.
Qed.

(** Every line of a range that starts on a line is maintained. *)
Lemma cache_range_spec op s addr length :
  0 <= addr -> 0 <= length -> addr + length <= 2 ^ 32 ->
  cache_range op s addr length = Done (emit_events s (cache_lines op addr (Z.to_nat ((length + 63) / 64)))).
Proof.
  intros Ha Hl H32. unfold cache_range. rewrite (wrap_small 64) by lia.
  by rewrite (cache_range_loop_spec _ op addr (addr + length) (Z.to_nat ((length + 63) / 64))) by lia.
Qed.

Lemma cache_lines_cover op addr length a :
  addr mod 64 = 0 -> addr <= a < addr + length ->
  Cacheop op (64 * (a / 64)) ∈ cache_lines op addr (Z.to_nat ((length + 63) / 64)).
Proof.
  intros Hal Ha. unfold cache_lines, CACHE_LINE_SIZE. apply list_elem_of_In, in_map_iff. exists (Z.to_nat ((a - addr) / 64)).
  split; [f_equal; lia|]. apply in_seq. lia.
Qed.
End caches.

(** A range that starts inside a line: its last byte, at 64, lies in a line
    that no operation reaches. *)
Example cache_range_misses_a_line :
  dc_civac_range (Mmu [] 0 []) 60 8 = Done (Mmu [] 0 [Cacheop Dccimvac 60]).
Proof. reflexivity. Qed.

(** ** mmu_init *)

(** An entry of the "ranges" property: child address, bus address, size. *)
Definition range_entry (r : Z * Z * Z) : list Z :=
  let '(child, bus, size) := r in le_bytes 4 child ++ le_bytes 4 bus ++ le_bytes 4 size.

Definition entry_covers (va : Z) (r : Z * Z * Z) : bool := let '(_, bus, size) := r in in_block va bus size.

(** Whole sections inside the address space. *)
Definition sections_ok (start size : Z) : Prop :=
  start mod SZ_1M = 0 /\ size mod SZ_1M = 0 /\ 0 <= start < 2 ^ 32 /\ 0 <= size < 2 ^ 32 /\ start + size <= 2 ^ 32.

Definition entry_ok (r : Z * Z * Z) : Prop := let '(_, bus, size) := r in sections_ok bus size.

(** RAM is mapped up to the next multiple of 16 MiB. *)
Definition ram_size (e : mmu_env) : Z := 2 ^ 24 * ((me_mem_size e + 2 ^ 24 - 1) / 2 ^ 24).

Definition io_translation (va : Z) : translation := mapped_as va AP_RW_ALL ATTR_BUFFERABLE.
Definition ram_translation (va : Z) : translation :=
  mapped_as va AP_RW_ALL (Z.lor (Z.lor ATTR_BUFFERABLE ATTR_CACHEABLE) ATTR_SHARABLE).

Section init.
Implicit Types (m : mem) (pt : list Z) (s : mmu_state) (e : mmu_env).

Lemma identity_mapping_spec pt start size attr :
  zlen pt = 4096 -> sections_ok start size -> 0 <= attr < 2 ^ 20 ->
  exists pt', mmu_add_mapping pt start start size AP_RW_ALL attr = Done pt' /\ zlen pt' = 4096 /\
    forall va, 0 <= va < 2 ^ 32 ->
      table_walk pt' va = if in_block va start size then Some (mapped_as va AP_RW_ALL attr) else table_walk pt va.
Proof.
  intros Hpt (Hb & Hs & Hbr & Hsr & Hend) Ha. assert (0 <= AP_RW_ALL) by (unfold AP_RW_ALL; lia).
  destruct (mmu_add_mapping_spec pt start start size AP_RW_ALL attr) as (pt' & -> & Hl & Hw); try lia; try done.
  exists pt'. split; [done|]. split; [unfold zlen in *; lia|]. intros va Hva. rewrite (Hw va Hva).
  by replace (start + (va - start)) with va by lia.
Qed.

Lemma buffered_attr : 0 <= ATTR_BUFFERABLE < 2 ^ 20.
Proof. by vm_compute. Qed.

Lemma io_ranges_loop_spec m pt a es :
  zlen pt = 4096 -> Forall entry_ok es -> bytes_at m a (flat_map range_entry es) ->
  exists pt', io_ranges_loop (length es) m pt a = Done pt' /\ zlen pt' = 4096 /\
    forall va, 0 <= va < 2 ^ 32 ->
      table_walk pt' va = if existsb (entry_covers va) es then Some (io_translation va) else table_walk pt va.
Proof.
  intros Hpt Hes. revert pt a Hpt. induction Hes as [|[[child bus] size] es Hok _ IH]; intros pt a Hpt Hat; cbn [length io_ranges_loop].
  - exists pt. done.
  - cbn [flat_map range_entry] in Hat. rewrite <- !app_assoc in Hat. apply bytes_at_app in Hat as [_ Hat].
    apply bytes_at_app in Hat as [Hbus Hat]. apply bytes_at_app in Hat as [Hsize Hat]. rewrite !zlen_le_bytes in *.
    change (Z.of_nat 4) with 4 in *. replace (a + 4 + 4) with (a + 8) in * by lia. replace (a + 8 + 4) with (a + 12) in * by lia.
    destruct Hok as (Hb & Hs & Hbr & Hsr & Hend).
    rewrite (load_le_le_bytes 4 m _ _ Hbus), (load_le_le_bytes 4 m _ _ Hsize), !bind_Done by lia.
    destruct (identity_mapping_spec pt bus size ATTR_BUFFERABLE Hpt (conj Hb (conj Hs (conj Hbr (conj Hsr Hend)))) buffered_attr)
      as (pt1 & -> & Hpt1 & Hw1). rewrite bind_Done.
    destruct (IH pt1 (a + 12) Hpt1 Hat) as (pt' & -> & Hl & Hw). exists pt'. split; [done|]. split; [done|].
    intros va Hva. rewrite (Hw va Hva), (Hw1 va Hva). cbn [existsb entry_covers].
    destruct (existsb (entry_covers va) es); [by rewrite orb_true_r|]. by rewrite orb_false_r.
Qed.

Lemma enable_translation_spec e s :
  0 <= me_pgtables e -> me_pgtables e mod 64 = 0 -> me_pgtables e + 4 * zlen (pgtables s) <= 2 ^ 32 ->
  exists s' lines, enable_translation e s = Done s' /\ pgtables s' = pgtables s /\ mmu_active s' = true /\
    events s' = events s ++ [Write_dacr 0x55555555; Write_ttbr0 (me_pgtables e); Write_ttbcr 0] ++ lines ++ [Write_sctlr (sctlr s')] /\
    forall a, me_pgtables e <= a < me_pgtables e + 4 * zlen (pgtables s) -> Cacheop Dccmvac (64 * (a / 64)) ∈ lines.
Proof.
  intros H0 Hal H32. pose proof (zlen_nonneg (pgtables s)). unfold enable_translation, dc_cvac_range.
  cbn [pgtables emit_events]. rewrite cache_range_spec, bind_Done by lia.
  eexists. exists (cache_lines Dccmvac (me_pgtables e) (Z.to_nat ((4 * zlen (pgtables s) + 63) / 64))).
  split; [done|]. cbn [pgtables emit_events write_sctlr sctlr events]. split; [done|]. split; [|split].
  - unfold mmu_active. cbn [sctlr write_sctlr emit_events]. unfold SCTLR_M. rewrite land_bit_testbit by lia. rewrite !Z.lor_spec. change (Z.testbit (BIT 0) 0) with true. by rewrite !orb_true_r.
  - by rewrite <- !app_assoc.
  - intros a Ha. apply cache_lines_cover; lia.
Qed.
End init.

(** What [mmu_init] relies on: a well-formed tree with an I/O bus [io] whose
    ranges are whole sections, RAM that starts on a section and ends below
    4 GiB, and a table that starts on a cache line. *)
Record mmu_env_ok (r : adt_rodata) (m : mem) (e : mmu_env) (t io : adt_tree) (es : list (Z * Z * Z)) : Prop := {
  eo_tree : tree_at m (me_adt e) 0 t /\ root_ok t /\ tree_named t;
  eo_name : cstr_at m (lit_name r) (bytes_of "name");
  eo_arm_io : cstr_at m (me_arm_io e) (bytes_of "/arm-io") /\ 0 < me_arm_io e;
  eo_ranges : cstr_at m (me_ranges e) (bytes_of "ranges");
  eo_node : tree_walk t [bytes_of "arm-io"] = Some io;
  eo_entries : assoc_prop (tree_props io) (bytes_of "ranges") = Some (flat_map range_entry es) /\ Forall entry_ok es;
  eo_ram : 0 <= me_mem_size e /\ me_mem_size e + 2 ^ 24 <= 2 ^ 32 /\ sections_ok (me_phys_base e) (ram_size e);
  eo_table : 0 <= me_pgtables e /\ me_pgtables e mod 64 = 0 /\ me_pgtables e + 16384 <= 2 ^ 32;
}.

(** C8: after [mmu_init] translation is on and is the identity: an address of RAM
    (up to the next multiple of 16 MiB) is mapped to itself as cacheable and
    shareable memory, any other address that a range of the I/O bus covers is
    mapped to itself as uncached memory, and every other address is unmapped.
    Before the write to SCTLR that turns translation on, the domain and table
    registers have been written and the cache line of every byte of the table
    has been cleaned. *)
Theorem mmu_init_identity_map (r : adt_rodata) (m : mem) (e : mmu_env) (s : mmu_state) (t io : adt_tree) (es : list (Z * Z * Z)) :
  mmu_env_ok r m e t io es -> zlen (pgtables s) = 4096 ->
  exists s' lines, mmu_init r m e s = Done s' /\ mmu_active s' = true /\
    (forall va, 0 <= va < 2 ^ 32 ->
       table_walk (pgtables s') va =
         if in_block va (me_phys_base e) (ram_size e) then Some (ram_translation va)
         else if existsb (entry_covers va) es then Some (io_translation va) else None) /\
    events s' = events s ++ [Write_dacr 0x55555555; Write_ttbr0 (me_pgtables e); Write_ttbcr 0] ++ lines ++ [Write_sctlr (sctlr s')] /\
    forall a, me_pgtables e <= a < me_pgtables e + 16384 -> Cacheop Dccmvac (64 * (a / 64)) ∈ lines.
Proof.
  intros [(Ht & Hroot & Hnamed) Hname [Hio Hio0] Hrg Hnode [Hes Hok] (Hm0 & Hm32 & Hram) (Hp0 & Hp64 & Hp32)] Hpt.
  unfold mmu_init. destruct (path_offset_spec r m (me_adt e) (me_arm_io e) t _ io Ht Hroot Hnamed Hname Hio Hio0 Hnode) as (node & -> & Hn).
  rewrite bind_Done. assert (0 <= node) by apply Hn. bdec.
  pose proof (adt_getprop_spec m (me_adt e) node io (me_ranges e) _ Hn Hrg) as Hp. rewrite Hes in Hp. destruct Hp as (a & -> & Hat & Ha).
  rewrite bind_Done.
  assert (Z.to_nat (zlen (flat_map range_entry es) / 12) = length es) as ->.
  { assert (zlen (flat_map range_entry es) = 12 * zlen es) as ->; [|unfold zlen; lia].
    clear. induction es as [|[[c b] z] es IH]; [done|]. cbn [flat_map range_entry]. rewrite zlen_cons, !zlen_app, !zlen_le_bytes, IH. lia. }
  assert (bytes_at m (u32 a) (flat_map range_entry es)) as Hat'.
  { destruct es as [|x es']; [done|]. rewrite u32_small; [done|]. apply Ha. by destruct x as [[??]?]. }
  destruct (io_ranges_loop_spec m (replicate (length (pgtables s)) 0) (u32 a) es) as (pt & -> & Hl & Hw); [|done..|].
  { rewrite zlen_replicate. done. }
  rewrite bind_Done. change (BIT 24) with (2 ^ 24). rewrite ALIGN_UP_pow2 by lia. fold (ram_size e).
  destruct (identity_mapping_spec pt (me_phys_base e) (ram_size e) (Z.lor (Z.lor ATTR_BUFFERABLE ATTR_CACHEABLE) ATTR_SHARABLE) Hl Hram)
    as (pt' & -> & Hl' & Hw'); [by vm_compute|].
  rewrite bind_Done. destruct (enable_translation_spec e (Mmu pt' (sctlr s) (events s))) as (s' & lines & Hrun & Hpg & Hact & Hev & Hcov);
    [lia|lia|cbn [pgtables]; lia|]. cbn [pgtables events] in *.
  exists s', lines. split; [done|]. split; [done|]. split; [|split; [done|]].
  - intros va Hva. rewrite Hpg, (Hw' va Hva). case_if; [done|]. rewrite (Hw va Hva). case_if; [done|].
    unfold table_walk. rewrite lookup_replicate_2 by (unfold zlen in *; lia). done.
  - intros x Hx. apply Hcov. lia.
Qed.

(** ** A concrete machine: 256 MiB of RAM and two I/O ranges *)
Definition demo_ranges : list (Z * Z * Z) := [(0, 0x38000000, 0x1000000); (0x2000000, 0x80000000, 0x10000000)].
Definition demo_io : adt_tree :=
  ANode [(bytes_of "name", bytes_of "arm-io" ++ [0]); (bytes_of "ranges", flat_map range_entry demo_ranges)] [].
Definition demo_machine : adt_tree := ANode [(bytes_of "name", bytes_of "device-tree" ++ [0])] [demo_io].
Definition demo_mmu_mem : mem :=
  write_bytes (write_bytes (write_bytes (write_bytes ∅ 256 (bytes_of "name" ++ [0])) 512 (bytes_of "/arm-io" ++ [0]))
    768 (bytes_of "ranges" ++ [0])) 4096 (flatten demo_machine).
Definition demo_mmu_env : mmu_env := MmuEnv 4096 512 768 0x40100000 0x40000000 0x0FF00000.

Lemma mmu_init_identity_map_witness :
  exists s' lines, mmu_init adt_demo_rodata demo_mmu_mem demo_mmu_env (Mmu (replicate (Z.to_nat 4096) 0) 0 []) = Done s' /\
    mmu_active s' = true /\
    (forall va, 0 <= va < 2 ^ 32 ->
       table_walk (pgtables s') va =
         if in_block va 0x40000000 0x10000000 then Some (ram_translation va)
         else if existsb (entry_covers va) demo_ranges then Some (io_translation va) else None) /\
    events s' = [] ++ [Write_dacr 0x55555555; Write_ttbr0 0x40100000; Write_ttbcr 0] ++ lines ++ [Write_sctlr (sctlr s')] /\
    forall a, 0x40100000 <= a < 0x40100000 + 16384 -> Cacheop Dccmvac (64 * (a / 64)) ∈ lines.
Proof.
  refine (mmu_init_identity_map adt_demo_rodata demo_mmu_mem demo_mmu_env (Mmu (replicate (Z.to_nat 4096) 0) 0 [])
            demo_machine demo_io demo_ranges _ _).
  - split.
    + split; [|split; [repeat split; vm_compute; congruence|]].
      * split; [repeat constructor; vm_compute; congruence|].
        do 4 (split; [vm_compute; congruence|]). apply bytes_at_write_eq; vm_compute; congruence.
      * constructor. constructor; [|constructor]. split; [|repeat constructor].
        exists (bytes_of "arm-io"). split; [repeat constructor|reflexivity].
    + split; [repeat constructor|concrete].
    + split; [split; [repeat constructor|concrete]|reflexivity].
    + split; [repeat constructor|concrete].
    + reflexivity.
    + split; [reflexivity|]. repeat constructor; vm_compute; congruence.
    + split; [vm_compute; congruence|]. split; [vm_compute; congruence|]. repeat split; vm_compute; congruence.
    + repeat split; vm_compute; congruence.
  - reflexivity.
Defined.
