(* ===== verification/Fdt.v ===== *)
(** * Flattened device trees: reading (src/libfdt/fdt.c, fdt_ro.c)

    A blob is a header of big-endian words, a memory reservation map, a
    structure block of tags and a block of strings.  Offsets are [int]s into
    the structure block; every access to it goes through [fdt_offset_ptr],
    which checks it against the header.  None of the assumptions of
    libfdt_internal.h is enabled, so every [can_assume] is false.  The tags of
    a blob decide how far a loop runs: such loops take fuel.  A function that
    returns a pointer and sets [*lenp] returns both. *)
From S2P Require Import Prelude Machine CString.

(** ** fdt.h, libfdt.h *)
Definition FDT_MAGIC : Z := 0xd00dfeed.
Definition FDT_SW_MAGIC : Z := u32 (Z.lnot FDT_MAGIC).
Definition FDT_TAGSIZE : Z := 4.
Definition FDT_BEGIN_NODE : Z := 1.
Definition FDT_END_NODE : Z := 2.
Definition FDT_PROP : Z := 3.
Definition FDT_NOP : Z := 4.
Definition FDT_END : Z := 9.
Definition FDT_V1_SIZE : Z := 7 * 4.
Definition FDT_V2_SIZE : Z := FDT_V1_SIZE + 4.
Definition FDT_V3_SIZE : Z := FDT_V2_SIZE + 4.
Definition FDT_V16_SIZE : Z := FDT_V3_SIZE.
Definition FDT_V17_SIZE : Z := FDT_V16_SIZE + 4.
Definition FDT_FIRST_SUPPORTED_VERSION : Z := 2.
Definition FDT_LAST_SUPPORTED_VERSION : Z := 17.
Definition FDT_MAX_PHANDLE : Z := 0xfffffffe.
Definition FDT_ERR_NOTFOUND : Z := 1.
Definition FDT_ERR_EXISTS : Z := 2.
Definition FDT_ERR_NOSPACE : Z := 3.
Definition FDT_ERR_BADOFFSET : Z := 4.
Definition FDT_ERR_BADPATH : Z := 5.
Definition FDT_ERR_BADPHANDLE : Z := 6.
Definition FDT_ERR_BADSTATE : Z := 7.
Definition FDT_ERR_TRUNCATED : Z := 8.
Definition FDT_ERR_BADMAGIC : Z := 9.
Definition FDT_ERR_BADVERSION : Z := 10.
Definition FDT_ERR_BADSTRUCTURE : Z := 11.
Definition FDT_ERR_BADLAYOUT : Z := 12.
Definition FDT_ERR_INTERNAL : Z := 13.
Definition FDT_ERR_BADNCELLS : Z := 14.
Definition FDT_ERR_BADVALUE : Z := 15.
Definition FDT_ERR_NOPHANDLES : Z := 17.
Definition INT32_MAX : Z := 2147483647.

(** ** Big-endian words *)
Definition fdt32_ld (m : mem) (p : Z) : outcome Z :=
  b0 ← load8 m p; b1 ← load8 m (p + 1); b2 ← load8 m (p + 2); b3 ← load8 m (p + 3);
  Done (Z.lor (Z.lor (Z.lor (u32 (Z.shiftl b0 24)) (u32 (Z.shiftl b1 16))) (u32 (Z.shiftl b2 8))) b3).

Definition fdt64_ld (m : mem) (p : Z) : outcome Z :=
  b0 ← load8 m p; b1 ← load8 m (p + 1); b2 ← load8 m (p + 2); b3 ← load8 m (p + 3);
  b4 ← load8 m (p + 4); b5 ← load8 m (p + 5); b6 ← load8 m (p + 6); b7 ← load8 m (p + 7);
  let hi := Z.lor (Z.lor (Z.lor (u64 (Z.shiftl b0 56)) (u64 (Z.shiftl b1 48))) (u64 (Z.shiftl b2 40))) (u64 (Z.shiftl b3 32)) in
  Done (Z.lor (Z.lor (Z.lor (Z.lor hi (u64 (Z.shiftl b4 24))) (u64 (Z.shiftl b5 16))) (u64 (Z.shiftl b6 8))) b7).

Definition fdt32_st (m : mem) (p value : Z) : outcome mem :=
  m ← store8 m p (Z.shiftr value 24);
  m ← store8 m (p + 1) (Z.land (Z.shiftr value 16) 0xff);
  m ← store8 m (p + 2) (Z.land (Z.shiftr value 8) 0xff);
  store8 m (p + 3) (Z.land value 0xff).

Definition fdt64_st (m : mem) (p value : Z) : outcome mem :=
  m ← store8 m p (Z.shiftr value 56);
  m ← store8 m (p + 1) (Z.land (Z.shiftr value 48) 0xff);
  m ← store8 m (p + 2) (Z.land (Z.shiftr value 40) 0xff);
  m ← store8 m (p + 3) (Z.land (Z.shiftr value 32) 0xff);
  m ← store8 m (p + 4) (Z.land (Z.shiftr value 24) 0xff);
  m ← store8 m (p + 5) (Z.land (Z.shiftr value 16) 0xff);
  m ← store8 m (p + 6) (Z.land (Z.shiftr value 8) 0xff);
  store8 m (p + 7) (Z.land value 0xff).

Definition fdt_magic (m : mem) (fdt : Z) : outcome Z := fdt32_ld m fdt.
Definition fdt_totalsize (m : mem) (fdt : Z) : outcome Z := fdt32_ld m (fdt + 4).
Definition fdt_off_dt_struct (m : mem) (fdt : Z) : outcome Z := fdt32_ld m (fdt + 8).
Definition fdt_off_dt_strings (m : mem) (fdt : Z) : outcome Z := fdt32_ld m (fdt + 12).
Definition fdt_off_mem_rsvmap (m : mem) (fdt : Z) : outcome Z := fdt32_ld m (fdt + 16).
Definition fdt_version (m : mem) (fdt : Z) : outcome Z := fdt32_ld m (fdt + 20).
Definition fdt_last_comp_version (m : mem) (fdt : Z) : outcome Z := fdt32_ld m (fdt + 24).
Definition fdt_boot_cpuid_phys (m : mem) (fdt : Z) : outcome Z := fdt32_ld m (fdt + 28).
Definition fdt_size_dt_strings (m : mem) (fdt : Z) : outcome Z := fdt32_ld m (fdt + 32).
Definition fdt_size_dt_struct (m : mem) (fdt : Z) : outcome Z := fdt32_ld m (fdt + 36).

(** [FDT_TAGALIGN] of an [int]. *)
Definition FDT_TAGALIGN (x : Z) : Z := s32 (ALIGN_UP 32 (u32 x) FDT_TAGSIZE).

(** ** fdt.c: the header *)
Definition fdt_ro_probe_ (m : mem) (fdt : Z) : outcome Z :=
  totalsize ← fdt_totalsize m fdt;
  magic ← fdt_magic m fdt;
  err ← (if magic =? FDT_MAGIC then
           version ← fdt_version m fdt;
           last ← fdt_last_comp_version m fdt;
           if version <? FDT_FIRST_SUPPORTED_VERSION then Done (- FDT_ERR_BADVERSION) else
           if FDT_LAST_SUPPORTED_VERSION <? last then Done (- FDT_ERR_BADVERSION) else Done 0
         else if magic =? FDT_SW_MAGIC then
           size ← fdt_size_dt_struct m fdt;
           Done (if size =? 0 then - FDT_ERR_BADSTATE else 0)
         else Done (- FDT_ERR_BADMAGIC));
  if err <? 0 then Done err else
  if totalsize <? INT32_MAX then Done totalsize else Done (- FDT_ERR_TRUNCATED).

Definition check_off_ (hdrsize totalsize off : Z) : bool := (hdrsize <=? off) && (off <=? totalsize).

Definition check_block_ (hdrsize totalsize base size : Z) : bool :=
  if negb (check_off_ hdrsize totalsize base) then false else
  if u32 (base + size) <? base then false else
  check_off_ hdrsize totalsize (u32 (base + size)).

Definition fdt_header_size_ (version : Z) : Z :=
  if version <=? 1 then FDT_V1_SIZE else if version <=? 2 then FDT_V2_SIZE
  else if version <=? 3 then FDT_V3_SIZE else if version <=? 16 then FDT_V16_SIZE else FDT_V17_SIZE.

Definition fdt_header_size (m : mem) (fdt : Z) : outcome Z :=
  version ← fdt_version m fdt; Done (fdt_header_size_ version).

Definition fdt_check_header (m : mem) (fdt : Z) : outcome Z :=
  magic ← fdt_magic m fdt;
  if negb (magic =? FDT_MAGIC) then Done (- FDT_ERR_BADMAGIC) else
  version ← fdt_version m fdt;
  last ← fdt_last_comp_version m fdt;
  if (version <? FDT_FIRST_SUPPORTED_VERSION) || (FDT_LAST_SUPPORTED_VERSION <? last) then Done (- FDT_ERR_BADVERSION) else
  if version <? last then Done (- FDT_ERR_BADVERSION) else
  hdrsize ← fdt_header_size m fdt;
  total ← fdt_totalsize m fdt;
  if (total <? hdrsize) || (INT32_MAX <? total) then Done (- FDT_ERR_TRUNCATED) else
  rsv ← fdt_off_mem_rsvmap m fdt;
  if negb (check_off_ hdrsize total rsv) then Done (- FDT_ERR_TRUNCATED) else
  off ← fdt_off_dt_struct m fdt;
  ok ← (if version <? 17 then Done (check_off_ hdrsize total off)
        else size ← fdt_size_dt_struct m fdt; Done (check_block_ hdrsize total off size));
  if negb ok then Done (- FDT_ERR_TRUNCATED) else
  off ← fdt_off_dt_strings m fdt;
  size ← fdt_size_dt_strings m fdt;
  if negb (check_block_ hdrsize total off size) then Done (- FDT_ERR_TRUNCATED) else Done 0.

(** ** fdt.c: walking the structure block *)

(** [fdt_offset_ptr_] *)
Definition fdt_offset_ptr_ (m : mem) (fdt offset : Z) : outcome Z :=
  off ← fdt_off_dt_struct m fdt; Done (u32 (fdt + off + offset)).

Definition fdt_offset_ptr (m : mem) (fdt offset len : Z) : outcome Z :=
  let uoffset := u32 offset in
  off ← fdt_off_dt_struct m fdt;
  let absoffset := u32 (offset + off) in
  if offset <? 0 then Done NULL else
  total ← fdt_totalsize m fdt;
  if (absoffset <? uoffset) || (u32 (absoffset + len) <? absoffset) || (total <? u32 (absoffset + len)) then Done NULL else
  version ← fdt_version m fdt;
  size ← fdt_size_dt_struct m fdt;
  if (17 <=? version) && ((u32 (uoffset + len) <? uoffset) || (size <? u32 (offset + len))) then Done NULL else
  fdt_offset_ptr_ m fdt offset.

(** [do p = fdt_offset_ptr(fdt, offset++, 1); while (p && *p != 0);]: the last
    [p] and the offset behind it. *)
Fixpoint skip_name_loop (fuel : nat) (m : mem) (fdt offset : Z) : outcome (Z * Z) :=
  match fuel with
  | O => Stuck
  | S fuel' =>
      p ← fdt_offset_ptr m fdt offset 1;
      if p =? NULL then Done (NULL, s32 (offset + 1)) else
      c ← load8 m p;
      if c =? 0 then Done (p, s32 (offset + 1)) else skip_name_loop fuel' m fdt (s32 (offset + 1))
  end.

(** The offset behind the tag at [startoffset] before alignment; [None] is a
    premature end. *)
Definition tag_end (fuel : nat) (m : mem) (fdt tag offset : Z) : outcome (option Z) :=
  if tag =? FDT_BEGIN_NODE then
    '(p, offset) ← skip_name_loop fuel m fdt offset;
    Done (if p =? NULL then None else Some offset)
  else if tag =? FDT_PROP then
    lenp ← fdt_offset_ptr m fdt offset 4;
    if lenp =? NULL then Done None else
    len ← fdt32_ld m lenp;
    let offset := s32 (offset + (12 - FDT_TAGSIZE + len)) in
    version ← fdt_version m fdt;
    Done (Some (if (version <? 16) && (8 <=? len) && negb (u32 (offset - len) mod 8 =? 0) then s32 (offset + 4) else offset))
  else if (tag =? FDT_END) || (tag =? FDT_END_NODE) || (tag =? FDT_NOP) then Done (Some offset)
  else Done None.

(** The tag and [*nextoffset]. *)
Definition fdt_next_tag (fuel : nat) (m : mem) (fdt startoffset : Z) : outcome (Z * Z) :=
  tagp ← fdt_offset_ptr m fdt startoffset FDT_TAGSIZE;
  if tagp =? NULL then Done (FDT_END, - FDT_ERR_TRUNCATED) else
  tag ← fdt32_ld m tagp;
  r ← tag_end fuel m fdt tag (s32 (startoffset + FDT_TAGSIZE));
  match r with
  | None => Done (FDT_END, - FDT_ERR_BADSTRUCTURE)
  | Some offset =>
      p ← fdt_offset_ptr m fdt startoffset (u32 (offset - startoffset));
      if p =? NULL then Done (FDT_END, - FDT_ERR_BADSTRUCTURE) else Done (tag, FDT_TAGALIGN offset)
  end.

Definition fdt_check_tag (fuel : nat) (m : mem) (fdt offset expected : Z) : outcome Z :=
  if (offset <? 0) || negb (offset mod FDT_TAGSIZE =? 0) then Done (- FDT_ERR_BADOFFSET) else
  '(tag, offset) ← fdt_next_tag fuel m fdt offset;
  Done (if tag =? expected then offset else - FDT_ERR_BADOFFSET).

Definition fdt_check_node_offset_ (fuel : nat) (m : mem) (fdt offset : Z) : outcome Z :=
  fdt_check_tag fuel m fdt offset FDT_BEGIN_NODE.
Definition fdt_check_prop_offset_ (fuel : nat) (m : mem) (fdt offset : Z) : outcome Z :=
  fdt_check_tag fuel m fdt offset FDT_PROP.

(** [depth] is [None] for a null pointer; the second result is what it points
    to afterwards. *)
Fixpoint next_node_loop (fuel : nat) (m : mem) (fdt nextoffset : Z) (depth : option Z) : outcome (Z * option Z) :=
  match fuel with
  | O => Stuck
  | S fuel' =>
      let offset := nextoffset in
      '(tag, nextoffset) ← fdt_next_tag fuel m fdt offset;
      if tag =? FDT_BEGIN_NODE then Done (offset, option_map (fun d => s32 (d + 1)) depth)
      else if tag =? FDT_END_NODE then
        match depth with
        | None => next_node_loop fuel' m fdt nextoffset None
        | Some d =>
            let d := s32 (d - 1) in
            if d <? 0 then Done (nextoffset, Some d) else next_node_loop fuel' m fdt nextoffset (Some d)
        end
      else if tag =? FDT_END then
        Done (if (0 <=? nextoffset) || ((nextoffset =? - FDT_ERR_TRUNCATED) && bool_decide (depth = None))
              then - FDT_ERR_NOTFOUND else nextoffset, depth)
      else next_node_loop fuel' m fdt nextoffset depth
  end.

Definition fdt_next_node (fuel : nat) (m : mem) (fdt offset : Z) (depth : option Z) : outcome (Z * option Z) :=
  nextoffset ← (if 0 <=? offset then fdt_check_node_offset_ fuel m fdt offset else Done 0);
  if nextoffset <? 0 then Done (nextoffset, depth) else next_node_loop fuel m fdt nextoffset depth.

Definition fdt_first_subnode (fuel : nat) (m : mem) (fdt offset : Z) : outcome Z :=
  '(offset, depth) ← fdt_next_node fuel m fdt offset (Some 0);
  Done (if (offset <? 0) || negb (bool_decide (depth = Some 1)) then - FDT_ERR_NOTFOUND else offset).

Fixpoint next_subnode_loop (n fuel : nat) (m : mem) (fdt offset depth : Z) : outcome Z :=
  match n with
  | O => Stuck
  | S n' =>
      '(offset, d) ← fdt_next_node fuel m fdt offset (Some depth);
      let depth := default 0 d in
      if (offset <? 0) || (depth <? 1) then Done (- FDT_ERR_NOTFOUND)
      else if 1 <? depth then next_subnode_loop n' fuel m fdt offset depth else Done offset
  end.
Definition fdt_next_subnode (fuel : nat) (m : mem) (fdt offset : Z) : outcome Z :=
  next_subnode_loop fuel fuel m fdt offset 1.

(** [for (p = strtab; p <= last; p++)]: [n] positions are left. *)
Fixpoint find_string_loop (n : nat) (m : mem) (p s len : Z) : outcome Z :=
  match n with
  | O => Done NULL
  | S n' => r ← memcmp m p s len; if r =? 0 then Done p else find_string_loop n' m (p + 1) s len
  end.
Definition fdt_find_string_ (m : mem) (strtab tabsize s : Z) : outcome Z :=
  l ← strlen m s;
  let len := l + 1 in
  find_string_loop (Z.to_nat (tabsize - len + 1)) m strtab s len.

Definition fdt_move (m : mem) (fdt buf bufsize : Z) : outcome (Z * mem) :=
  if bufsize <? 0 then Done (- FDT_ERR_NOSPACE, m) else
  probe ← fdt_ro_probe_ m fdt;
  if probe <? 0 then Done (probe, m) else
  total ← fdt_totalsize m fdt;
  if bufsize <? total then Done (- FDT_ERR_NOSPACE, m) else
  '(_, m) ← memmove m buf fdt total; Done (0, m).

(** ** fdt_ro.c: strings *)

(** The length of the strings block from [stroffset] on, as the header allows;
    an error otherwise. *)
Definition string_room (m : mem) (fdt stroffset totalsize absoffset : Z) : outcome (Z + Z) :=
  let len := totalsize - absoffset in
  magic ← fdt_magic m fdt;
  size ← fdt_size_dt_strings m fdt;
  if magic =? FDT_MAGIC then
    if stroffset <? 0 then Done (inr (- FDT_ERR_BADOFFSET)) else
    version ← fdt_version m fdt;
    if 17 <=? version then
      if size <=? stroffset then Done (inr (- FDT_ERR_BADOFFSET))
      else Done (inl (if size - stroffset <? len then size - stroffset else len))
    else Done (inl len)
  else if magic =? FDT_SW_MAGIC then
    let sw_stroffset := u32 (- stroffset) in
    if (0 <=? stroffset) || (size <? sw_stroffset) then Done (inr (- FDT_ERR_BADOFFSET))
    else Done (inl (if sw_stroffset <? len then sw_stroffset else len))
  else Done (inr (- FDT_ERR_INTERNAL)).

(** The string's address and length, or [NULL] and the error. *)
Definition fdt_get_string (m : mem) (fdt stroffset : Z) : outcome (Z * Z) :=
  totalsize ← fdt_ro_probe_ m fdt;
  if totalsize <? 0 then Done (NULL, totalsize) else
  off ← fdt_off_dt_strings m fdt;
  let absoffset := u32 (stroffset + off) in
  if totalsize <=? absoffset then Done (NULL, - FDT_ERR_BADOFFSET) else
  r ← string_room m fdt stroffset totalsize absoffset;
  match r with
  | inr err => Done (NULL, err)
  | inl len =>
      let s := u32 (fdt + absoffset) in
      n ← memchr m s 0 len;
      Done (if n =? NULL then (NULL, - FDT_ERR_TRUNCATED) else (s, s32 (n - s)))
  end.

Definition fdt_string (m : mem) (fdt stroffset : Z) : outcome Z :=
  '(s, _) ← fdt_get_string m fdt stroffset; Done s.

Definition fdt_string_eq_ (m : mem) (fdt stroffset s len : Z) : outcome bool :=
  '(p, slen) ← fdt_get_string m fdt stroffset;
  if p =? NULL then Done false else
  if negb (slen =? len) then Done false else
  r ← memcmp m p s len; Done (r =? 0).

(** ** fdt_ro.c: names *)
Definition fdt_get_name (fuel : nat) (m : mem) (fdt nodeoffset : Z) : outcome (Z * Z) :=
  nh ← fdt_offset_ptr_ m fdt nodeoffset;
  probe ← fdt_ro_probe_ m fdt;
  if probe <? 0 then Done (NULL, probe) else
  err ← fdt_check_node_offset_ fuel m fdt nodeoffset;
  if err <? 0 then Done (NULL, err) else
  let nameptr := u32 (nh + 4) in
  version ← fdt_version m fdt;
  if version <? 16 then
    leaf ← strrchr m nameptr 47;
    if leaf =? NULL then Done (NULL, - FDT_ERR_BADSTRUCTURE)
    else l ← strlen m (leaf + 1); Done (u32 (leaf + 1), l)
  else l ← strlen m nameptr; Done (nameptr, l).

Definition fdt_nodename_eq_ (fuel : nat) (m : mem) (fdt offset s len : Z) : outcome bool :=
  '(p, olen) ← fdt_get_name fuel m fdt offset;
  if (p =? NULL) || (olen <? len) then Done false else
  r ← memcmp m p s len;
  if negb (r =? 0) then Done false else
  c ← load8 m (p + len);
  if c =? 0 then Done true else
  a ← memchr m s 64 len;
  Done ((a =? NULL) && (c =? 64)).

(** ** fdt_ro.c: properties *)
Fixpoint nextprop_ (fuel : nat) (m : mem) (fdt offset : Z) : outcome Z :=
  match fuel with
  | O => Stuck
  | S fuel' =>
      '(tag, nextoffset) ← fdt_next_tag fuel m fdt offset;
      if tag =? FDT_END then Done (if 0 <=? nextoffset then - FDT_ERR_BADSTRUCTURE else nextoffset)
      else if tag =? FDT_PROP then Done offset
      else if tag =? FDT_NOP then nextprop_ fuel' m fdt nextoffset
      else Done (- FDT_ERR_NOTFOUND)
  end.

Definition fdt_first_property_offset (fuel : nat) (m : mem) (fdt nodeoffset : Z) : outcome Z :=
  offset ← fdt_check_node_offset_ fuel m fdt nodeoffset;
  if offset <? 0 then Done offset else nextprop_ fuel m fdt offset.

Definition fdt_next_property_offset (fuel : nat) (m : mem) (fdt offset : Z) : outcome Z :=
  offset ← fdt_check_prop_offset_ fuel m fdt offset;
  if offset <? 0 then Done offset else nextprop_ fuel m fdt offset.

(** The fields of [struct fdt_property] at [prop]. *)
Definition prop_len (m : mem) (prop : Z) : outcome Z := l ← fdt32_ld m (prop + 4); Done (s32 l).
Definition prop_nameoff (m : mem) (prop : Z) : outcome Z := n ← fdt32_ld m (prop + 8); Done (s32 n).
Definition prop_data (prop : Z) : Z := u32 (prop + 12).

Definition fdt_get_property_by_offset_ (fuel : nat) (m : mem) (fdt offset : Z) : outcome (Z * Z) :=
  err ← fdt_check_prop_offset_ fuel m fdt offset;
  if err <? 0 then Done (NULL, err) else
  prop ← fdt_offset_ptr_ m fdt offset;
  len ← prop_len m prop; Done (prop, len).

Definition fdt_get_property_by_offset (fuel : nat) (m : mem) (fdt offset : Z) : outcome (Z * Z) :=
  version ← fdt_version m fdt;
  if version <? 16 then Done (NULL, - FDT_ERR_BADVERSION) else fdt_get_property_by_offset_ fuel m fdt offset.

(** The property, its length and [*poffset]; or [NULL], the error and 0. *)
Fixpoint get_property_loop (n fuel : nat) (m : mem) (fdt offset name namelen : Z) : outcome (Z * Z * Z) :=
  match n with
  | O => Stuck
  | S n' =>
      if offset <? 0 then Done (NULL, offset, 0) else
      '(prop, len) ← fdt_get_property_by_offset_ fuel m fdt offset;
      if prop =? NULL then Done (NULL, - FDT_ERR_INTERNAL, 0) else
      nameoff ← prop_nameoff m prop;
      eq ← fdt_string_eq_ m fdt nameoff name namelen;
      if eq : bool then Done (prop, len, offset) else
      offset ← fdt_next_property_offset fuel m fdt offset;
      get_property_loop n' fuel m fdt offset name namelen
  end.

Definition fdt_get_property_namelen_ (fuel : nat) (m : mem) (fdt offset name namelen : Z) : outcome (Z * Z * Z) :=
  offset ← fdt_first_property_offset fuel m fdt offset;
  get_property_loop fuel fuel m fdt offset name namelen.

Definition fdt_get_property_namelen (fuel : nat) (m : mem) (fdt offset name namelen : Z) : outcome (Z * Z) :=
  version ← fdt_version m fdt;
  if version <? 16 then Done (NULL, - FDT_ERR_BADVERSION) else
  '(prop, len, _) ← fdt_get_property_namelen_ fuel m fdt offset name namelen; Done (prop, len).

Definition fdt_get_property (fuel : nat) (m : mem) (fdt nodeoffset name : Z) : outcome (Z * Z) :=
  l ← strlen m name; fdt_get_property_namelen fuel m fdt nodeoffset name l.

(** The data of a property, which versions before 16 align to 8. *)
Definition realigned_data (m : mem) (fdt prop offset len : Z) : outcome Z :=
  version ← fdt_version m fdt;
  Done (if (version <? 16) && negb (u32 (offset + 12) mod 8 =? 0) && (8 <=? u32 len)
        then u32 (prop_data prop + 4) else prop_data prop).

Definition fdt_getprop_namelen (fuel : nat) (m : mem) (fdt nodeoffset name namelen : Z) : outcome (Z * Z) :=
  '(prop, len, poffset) ← fdt_get_property_namelen_ fuel m fdt nodeoffset name namelen;
  if prop =? NULL then Done (NULL, len) else
  data ← realigned_data m fdt prop poffset len; Done (data, len).

(** The value, its length (or [NULL] and the error) and the name. *)
Definition fdt_getprop_by_offset (fuel : nat) (m : mem) (fdt offset : Z) : outcome (Z * Z * Z) :=
  '(prop, len) ← fdt_get_property_by_offset_ fuel m fdt offset;
  if prop =? NULL then Done (NULL, len, NULL) else
  nameoff ← prop_nameoff m prop;
  '(name, namelen) ← fdt_get_string m fdt nameoff;
  if name =? NULL then Done (NULL, namelen, NULL) else
  data ← realigned_data m fdt prop offset len; Done (data, len, name).

Definition fdt_getprop (fuel : nat) (m : mem) (fdt nodeoffset name : Z) : outcome (Z * Z) :=
  l ← strlen m name; fdt_getprop_namelen fuel m fdt nodeoffset name l.

(** Where the string literals of the library live. *)
Record fdt_rodata := FdtRodata {
  lit_phandle : Z;         (* "phandle" *)
  lit_linux_phandle : Z;   (* "linux,phandle" *)
  lit_aliases : Z;         (* "/aliases" *)
  lit_fdt_compatible : Z;  (* "compatible" *)
  lit_address_cells : Z;   (* "#address-cells" *)
  lit_size_cells : Z;      (* "#size-cells" *)
}.

Definition fdt_get_phandle (r : fdt_rodata) (fuel : nat) (m : mem) (fdt nodeoffset : Z) : outcome Z :=
  '(php, len) ← fdt_getprop fuel m fdt nodeoffset (lit_phandle r);
  if negb (php =? NULL) && (len =? 4) then fdt32_ld m php else
  '(php, len) ← fdt_getprop fuel m fdt nodeoffset (lit_linux_phandle r);
  if negb (php =? NULL) && (len =? 4) then fdt32_ld m php else Done 0.

(** The loop over all nodes of [fdt_find_max_phandle]. *)
Fixpoint max_phandle_loop (n : nat) (r : fdt_rodata) (fuel : nat) (m : mem) (fdt offset max : Z) : outcome (Z * Z) :=
  match n with
  | O => Stuck
  | S n' =>
      '(offset, _) ← fdt_next_node fuel m fdt offset None;
      if offset <? 0 then Done (if offset =? - FDT_ERR_NOTFOUND then 0 else offset, max) else
      value ← fdt_get_phandle r fuel m fdt offset;
      max_phandle_loop n' r fuel m fdt offset (if max <? value then value else max)
  end.

(** The result and [*phandle] where it is set. *)
Definition fdt_find_max_phandle (r : fdt_rodata) (fuel : nat) (m : mem) (fdt : Z) : outcome (Z * option Z) :=
  '(err, max) ← max_phandle_loop fuel r fuel m fdt (-1) 0;
  Done (err, if err =? 0 then Some max else None).

Definition fdt_generate_phandle (r : fdt_rodata) (fuel : nat) (m : mem) (fdt : Z) : outcome (Z * option Z) :=
  '(err, max) ← fdt_find_max_phandle r fuel m fdt;
  match max with
  | None => Done (err, None)
  | Some max => Done (if max =? FDT_MAX_PHANDLE then (- FDT_ERR_NOPHANDLES, None) else (0, Some (u32 (max + 1))))
  end.

(** ** fdt_ro.c: the memory reservation map *)
Definition fdt_mem_rsv_ (m : mem) (fdt n : Z) : outcome Z :=
  off ← fdt_off_mem_rsvmap m fdt; Done (u32 (fdt + off + n * 16)).

Definition fdt_mem_rsv (m : mem) (fdt n : Z) : outcome Z :=
  off ← fdt_off_mem_rsvmap m fdt;
  let absoffset := u32 (off + u32 (n * 16)) in
  if absoffset <? off then Done NULL else
  total ← fdt_totalsize m fdt;
  if u32 (total - 16) <? absoffset then Done NULL else fdt_mem_rsv_ m fdt n.

(** The result, [*address] and [*size]. *)
Definition fdt_get_mem_rsv (m : mem) (fdt n : Z) : outcome (Z * option (Z * Z)) :=
  probe ← fdt_ro_probe_ m fdt;
  if probe <? 0 then Done (probe, None) else
  re ← fdt_mem_rsv m fdt n;
  if re =? NULL then Done (- FDT_ERR_BADOFFSET, None) else
  address ← fdt64_ld m re;
  size ← fdt64_ld m (re + 8);
  Done (0, Some (address, size)).

Fixpoint num_mem_rsv_loop (n : nat) (m : mem) (fdt i : Z) : outcome Z :=
  match n with
  | O => Stuck
  | S n' =>
      re ← fdt_mem_rsv m fdt i;
      if re =? NULL then Done (- FDT_ERR_TRUNCATED) else
      size ← fdt64_ld m (re + 8);
      if size =? 0 then Done i else num_mem_rsv_loop n' m fdt (i + 1)
  end.
Definition fdt_num_mem_rsv (fuel : nat) (m : mem) (fdt : Z) : outcome Z := num_mem_rsv_loop fuel m fdt 0.

(** ** fdt_ro.c: finding nodes *)
Fixpoint fdt_subnode_loop (n fuel : nat) (m : mem) (fdt offset depth name namelen : Z) : outcome Z :=
  match n with
  | O => Stuck
  | S n' =>
      if (0 <=? offset) && (0 <=? depth) then
        eq ← (if depth =? 1 then fdt_nodename_eq_ fuel m fdt offset name namelen else Done false);
        if eq : bool then Done offset else
        '(offset, d) ← fdt_next_node fuel m fdt offset (Some depth);
        fdt_subnode_loop n' fuel m fdt offset (default 0 d) name namelen
      else Done (if depth <? 0 then - FDT_ERR_NOTFOUND else offset)
  end.

Definition fdt_subnode_offset_namelen (fuel : nat) (m : mem) (fdt offset name namelen : Z) : outcome Z :=
  probe ← fdt_ro_probe_ m fdt;
  if probe <? 0 then Done probe else fdt_subnode_loop fuel fuel m fdt offset 0 name namelen.

Definition fdt_subnode_offset (fuel : nat) (m : mem) (fdt parentoffset name : Z) : outcome Z :=
  l ← strlen m name; fdt_subnode_offset_namelen fuel m fdt parentoffset name l.

(** [while ( *p == '/') { p++; if (p == end) return offset; }]: [None] is the
    return. *)
Fixpoint skip_slash_loop (fuel : nat) (m : mem) (p end_ : Z) : outcome (option Z) :=
  match fuel with
  | O => Stuck
  | S fuel' =>
      c ← load8 m p;
      if c =? 47 then if p + 1 =? end_ then Done None else skip_slash_loop fuel' m (p + 1) end_ else Done (Some p)
  end.

Fixpoint path_components (n fuel : nat) (m : mem) (fdt p end_ offset : Z) : outcome Z :=
  match n with
  | O => Stuck
  | S n' =>
      if p <? end_ then
        r ← skip_slash_loop (S (Z.to_nat (end_ - p))) m p end_;
        match r with
        | None => Done offset
        | Some p =>
            q ← memchr m p 47 (end_ - p);
            let q := if q =? NULL then end_ else q in
            offset ← fdt_subnode_offset_namelen fuel m fdt offset p (q - p);
            if offset <? 0 then Done offset else path_components n' fuel m fdt q end_ offset
        end
      else Done offset
  end.

(** [fdt_path_offset_namelen] and [fdt_get_alias_namelen] call each other; [n]
    bounds how deep. *)
Fixpoint path_offset_namelen (n : nat) (r : fdt_rodata) (fuel : nat) (m : mem) (fdt path namelen : Z) : outcome Z :=
  match n with
  | O => Stuck
  | S n' =>
      let end_ := path + namelen in
      probe ← fdt_ro_probe_ m fdt;
      if probe <? 0 then Done probe else
      c ← load8 m path;
      if negb (c =? 47) then
        q ← memchr m path 47 namelen;
        let q := if q =? NULL then end_ else q in
        l ← strlen m (lit_aliases r);
        aliasoffset ← path_offset_namelen n' r fuel m fdt (lit_aliases r) l;
        p ← (if aliasoffset <? 0 then Done NULL
             else '(p, _) ← fdt_getprop_namelen fuel m fdt aliasoffset path (q - path); Done p);
        if p =? NULL then Done (- FDT_ERR_BADPATH) else
        l ← strlen m p;
        offset ← path_offset_namelen n' r fuel m fdt p l;
        path_components (S (Z.to_nat namelen)) fuel m fdt q end_ offset
      else path_components (S (Z.to_nat namelen)) fuel m fdt path end_ 0
  end.

Definition fdt_path_offset_namelen (r : fdt_rodata) (fuel : nat) := path_offset_namelen fuel r fuel.

Definition fdt_path_offset (r : fdt_rodata) (fuel : nat) (m : mem) (fdt path : Z) : outcome Z :=
  l ← strlen m path; fdt_path_offset_namelen r fuel m fdt path l.

Definition fdt_get_alias_namelen (r : fdt_rodata) (fuel : nat) (m : mem) (fdt name namelen : Z) : outcome Z :=
  aliasoffset ← fdt_path_offset r fuel m fdt (lit_aliases r);
  if aliasoffset <? 0 then Done NULL else
  '(p, _) ← fdt_getprop_namelen fuel m fdt aliasoffset name namelen; Done p.

Definition fdt_get_alias (r : fdt_rodata) (fuel : nat) (m : mem) (fdt name : Z) : outcome Z :=
  l ← strlen m name; fdt_get_alias_namelen r fuel m fdt name l.

(** The loop over the nodes up to [nodeoffset]: the offset it ends with, the
    depth there and the last node at [supernodedepth]. *)
Fixpoint supernode_loop (n fuel : nat) (m : mem) (fdt nodeoffset supernodedepth offset depth super : Z) : outcome (Z * Z * Z) :=
  match n with
  | O => Stuck
  | S n' =>
      if (0 <=? offset) && (offset <=? nodeoffset) then
        let super := if depth =? supernodedepth then offset else super in
        if offset =? nodeoffset then Done (offset, depth, super) else
        '(offset, d) ← fdt_next_node fuel m fdt offset (Some depth);
        supernode_loop n' fuel m fdt nodeoffset supernodedepth offset (default 0 d) super
      else Done (offset, depth, super)
  end.

(** The result and [*nodedepth] where it is set. *)
Definition fdt_supernode_atdepth_offset (fuel : nat) (m : mem) (fdt nodeoffset supernodedepth : Z) : outcome (Z * option Z) :=
  probe ← fdt_ro_probe_ m fdt;
  if probe <? 0 then Done (probe, None) else
  if supernodedepth <? 0 then Done (- FDT_ERR_NOTFOUND, None) else
  '(offset, depth, super) ← supernode_loop fuel fuel m fdt nodeoffset supernodedepth 0 0 (- FDT_ERR_INTERNAL);
  if offset =? nodeoffset then Done (if depth <? supernodedepth then - FDT_ERR_NOTFOUND else super, Some depth) else
  Done (if (offset =? - FDT_ERR_NOTFOUND) || (0 <=? offset) then - FDT_ERR_BADOFFSET
        else if offset =? - FDT_ERR_BADOFFSET then - FDT_ERR_BADSTRUCTURE else offset, None).

Definition fdt_node_depth (fuel : nat) (m : mem) (fdt nodeoffset : Z) : outcome Z :=
  '(err, nodedepth) ← fdt_supernode_atdepth_offset fuel m fdt nodeoffset 0;
  Done (if negb (err =? 0) then if err <? 0 then err else - FDT_ERR_INTERNAL else default 0 nodedepth).

Definition fdt_parent_offset (fuel : nat) (m : mem) (fdt nodeoffset : Z) : outcome Z :=
  nodedepth ← fdt_node_depth fuel m fdt nodeoffset;
  if nodedepth <? 0 then Done nodedepth else
  '(err, _) ← fdt_supernode_atdepth_offset fuel m fdt nodeoffset (nodedepth - 1); Done err.

(** The loops of the searches over all nodes after [offset]; [None] goes on. *)
Fixpoint search_nodes (n fuel : nat) (test : Z -> outcome (option Z)) (m : mem) (fdt offset : Z) : outcome Z :=
  match n with
  | O => Stuck
  | S n' =>
      '(offset, _) ← fdt_next_node fuel m fdt offset None;
      if offset <? 0 then Done offset else
      r ← test offset;
      match r with Some v => Done v | None => search_nodes n' fuel test m fdt offset end
  end.

Definition fdt_node_offset_by_prop_value (fuel : nat) (m : mem) (fdt startoffset propname propval proplen : Z) : outcome Z :=
  probe ← fdt_ro_probe_ m fdt;
  if probe <? 0 then Done probe else
  search_nodes fuel fuel (fun offset =>
    '(val, len) ← fdt_getprop fuel m fdt offset propname;
    if negb (val =? NULL) && (len =? proplen)
    then c ← memcmp m val propval len; Done (if c =? 0 then Some offset else None)
    else Done None) m fdt startoffset.

Definition fdt_node_offset_by_phandle (r : fdt_rodata) (fuel : nat) (m : mem) (fdt phandle : Z) : outcome Z :=
  if (phandle =? 0) || (phandle =? 0xFFFFFFFF) then Done (- FDT_ERR_BADPHANDLE) else
  probe ← fdt_ro_probe_ m fdt;
  if probe <? 0 then Done probe else
  search_nodes fuel fuel (fun offset =>
    h ← fdt_get_phandle r fuel m fdt offset; Done (if h =? phandle then Some offset else None)) m fdt (-1).

(** ** fdt_ro.c: lists of strings *)
Fixpoint stringlist_contains_loop (fuel : nat) (m : mem) (strlist listlen str len : Z) : outcome bool :=
  match fuel with
  | O => Stuck
  | S fuel' =>
      if len <=? listlen then
        c ← memcmp m str strlist (len + 1);
        if c =? 0 then Done true else
        p ← memchr m strlist 0 listlen;
        if p =? NULL then Done false else
        stringlist_contains_loop fuel' m (p + 1) (listlen - (p - strlist + 1)) str len
      else Done false
  end.
Definition fdt_stringlist_contains (m : mem) (strlist listlen str : Z) : outcome bool :=
  len ← strlen m str;
  stringlist_contains_loop (S (Z.to_nat (listlen + 1))) m strlist listlen str len.

Fixpoint stringlist_count_loop (fuel : nat) (m : mem) (list_ end_ count : Z) : outcome Z :=
  match fuel with
  | O => Stuck
  | S fuel' =>
      if list_ <? end_ then
        l ← strnlen m list_ (end_ - list_);
        if end_ <? list_ + (l + 1) then Done (- FDT_ERR_BADVALUE)
        else stringlist_count_loop fuel' m (list_ + (l + 1)) end_ (count + 1)
      else Done count
  end.
Definition fdt_stringlist_count (fuel : nat) (m : mem) (fdt nodeoffset property : Z) : outcome Z :=
  '(list_, length) ← fdt_getprop fuel m fdt nodeoffset property;
  if list_ =? NULL then Done length else
  stringlist_count_loop (S (Z.to_nat length)) m list_ (list_ + length) 0.

Fixpoint stringlist_search_loop (fuel : nat) (m : mem) (list_ end_ string len idx : Z) : outcome Z :=
  match fuel with
  | O => Stuck
  | S fuel' =>
      if list_ <? end_ then
        l ← strnlen m list_ (end_ - list_);
        let length := l + 1 in
        if end_ <? list_ + length then Done (- FDT_ERR_BADVALUE) else
        c ← (if length =? len then memcmp m list_ string length else Done 1);
        if (length =? len) && (c =? 0) then Done idx
        else stringlist_search_loop fuel' m (list_ + length) end_ string len (idx + 1)
      else Done (- FDT_ERR_NOTFOUND)
  end.
Definition fdt_stringlist_search (fuel : nat) (m : mem) (fdt nodeoffset property string : Z) : outcome Z :=
  '(list_, length) ← fdt_getprop fuel m fdt nodeoffset property;
  if list_ =? NULL then Done length else
  l ← strlen m string;
  stringlist_search_loop (S (Z.to_nat length)) m list_ (list_ + length) string (l + 1) 0.

Fixpoint stringlist_get_loop (fuel : nat) (m : mem) (list_ end_ idx : Z) : outcome (Z * Z) :=
  match fuel with
  | O => Stuck
  | S fuel' =>
      if list_ <? end_ then
        l ← strnlen m list_ (end_ - list_);
        let length := l + 1 in
        if end_ <? list_ + length then Done (NULL, - FDT_ERR_BADVALUE) else
        if idx =? 0 then Done (list_, length - 1)
        else stringlist_get_loop fuel' m (list_ + length) end_ (idx - 1)
      else Done (NULL, - FDT_ERR_NOTFOUND)
  end.
Definition fdt_stringlist_get (fuel : nat) (m : mem) (fdt nodeoffset property idx : Z) : outcome (Z * Z) :=
  '(list_, length) ← fdt_getprop fuel m fdt nodeoffset property;
  if list_ =? NULL then Done (NULL, length) else
  stringlist_get_loop (S (Z.to_nat length)) m list_ (list_ + length) idx.

Definition fdt_node_check_compatible (r : fdt_rodata) (fuel : nat) (m : mem) (fdt nodeoffset compatible : Z) : outcome Z :=
  '(prop, len) ← fdt_getprop fuel m fdt nodeoffset (lit_fdt_compatible r);
  if prop =? NULL then Done len else
  found ← fdt_stringlist_contains m prop len compatible;
  Done (if found : bool then 0 else 1).

Definition fdt_node_offset_by_compatible (r : fdt_rodata) (fuel : nat) (m : mem) (fdt startoffset compatible : Z) : outcome Z :=
  probe ← fdt_ro_probe_ m fdt;
  if probe <? 0 then Done probe else
  search_nodes fuel fuel (fun offset =>
    err ← fdt_node_check_compatible r fuel m fdt offset compatible;
    Done (if (err <? 0) && negb (err =? - FDT_ERR_NOTFOUND) then Some err
          else if err =? 0 then Some offset else None)) m fdt startoffset.

(** ** fdt_ro.c: fdt_get_path *)

(** [do p--; while (buf[p-1] != '/');] *)
Fixpoint path_up_loop (fuel : nat) (m : mem) (buf p : Z) : outcome Z :=
  match fuel with
  | O => Stuck
  | S fuel' => let p := p - 1 in c ← load8 m (buf + p - 1); if c =? 47 then Done p else path_up_loop fuel' m buf p
  end.

Fixpoint pop_components (n : nat) (m : mem) (buf p : Z) : outcome Z :=
  match n with
  | O => Done p
  | S n' => p ← path_up_loop (Z.to_nat p) m buf p; pop_components n' m buf p
  end.

Fixpoint get_path_loop (n fuel : nat) (m : mem) (fdt nodeoffset buf buflen offset depth p pdepth : Z) : outcome (Z * mem) :=
  match n with
  | O => Stuck
  | S n' =>
      if (0 <=? offset) && (offset <=? nodeoffset) then
        p ← pop_components (Z.to_nat (pdepth - depth)) m buf p;
        let pdepth := Z.min pdepth depth in
        '(err, m, p, pdepth) ←
          (if depth <=? pdepth then
             '(name, namelen) ← fdt_get_name fuel m fdt offset;
             if name =? NULL then Done (Some namelen, m, p, pdepth) else
             if p + namelen + 1 <=? buflen then
               '(_, m) ← memcpy m (buf + p) name namelen;
               m ← store8 m (buf + (p + namelen)) 47;
               Done (None, m, p + namelen + 1, pdepth + 1)
             else Done (None, m, p, pdepth)
           else Done (None, m, p, pdepth));
        match err with
        | Some e => Done (e, m)
        | None =>
            if offset =? nodeoffset then
              if pdepth <? depth + 1 then Done (- FDT_ERR_NOSPACE, m) else
              let p := if 1 <? p then p - 1 else p in
              m ← store8 m (buf + p) 0; Done (0, m)
            else
              '(offset, d) ← fdt_next_node fuel m fdt offset (Some depth);
              get_path_loop n' fuel m fdt nodeoffset buf buflen offset (default 0 d) p pdepth
        end
      else Done (if (offset =? - FDT_ERR_NOTFOUND) || (0 <=? offset) then - FDT_ERR_BADOFFSET
                 else if offset =? - FDT_ERR_BADOFFSET then - FDT_ERR_BADSTRUCTURE else offset, m)
  end.

Definition fdt_get_path (fuel : nat) (m : mem) (fdt nodeoffset buf buflen : Z) : outcome (Z * mem) :=
  probe ← fdt_ro_probe_ m fdt;
  if probe <? 0 then Done (probe, m) else
  if buflen <? 2 then Done (- FDT_ERR_NOSPACE, m) else
  get_path_loop fuel fuel m fdt nodeoffset buf buflen 0 0 0 0.
