(* ===== verification/FdtSpec.v ===== *)
(** * Flattened device trees: what a blob holds

    The structure block of a blob is a list of tokens; the position of a token
    is the length of the tokens before it.  [blob_at] says that the memory
    holds a blob with given tokens and strings.  The functions of fdt.c and
    fdt_ro.c are characterised on the token list: [next_tag_token] is the only
    place that looks at bytes. *)
From S2P Require Import Prelude Machine CString Adt Fdt.

(** Lists of tokens that differ in the grouping only. *)
Ltac tok_norm := repeat progress (cbn [app]; rewrite <- ?app_assoc).
Ltac tok_assoc := tok_norm; reflexivity.

(** ** Big-endian words *)
Definition be32 (v : Z) : list Z := [u8 (v / 2 ^ 24); u8 (v / 2 ^ 16); u8 (v / 2 ^ 8); u8 v].

(** ** Tokens, with the padding that follows a name or a value *)
Inductive token :=
| TBegin (name pad : list Z)
| TProp (nameoff : Z) (value pad : list Z)
| TEnd
| TNop
| TFin.

Definition tok_tag (t : token) : Z :=
  match t with
  | TBegin _ _ => FDT_BEGIN_NODE
  | TProp _ _ _ => FDT_PROP
  | TEnd => FDT_END_NODE
  | TNop => FDT_NOP
  | TFin => FDT_END
  end.

Definition tok_body (t : token) : list Z :=
  match t with
  | TBegin name pad => (name ++ [0]) ++ pad
  | TProp nameoff value pad => be32 (zlen value) ++ be32 nameoff ++ value ++ pad
  | _ => []
  end.

Definition tok_bytes (t : token) : list Z := be32 (tok_tag t) ++ tok_body t.

(** [pad] fills up to a multiple of 4. *)
Definition padded (body pad : list Z) : Prop := zlen pad = pad4 (zlen body) - zlen body.

Definition tok_ok (t : token) : Prop :=
  match t with
  | TBegin name pad => Forall (fun c => 0 < c < 256) name /\ padded (name ++ [0]) pad
  | TProp nameoff value pad => 0 <= nameoff < 2 ^ 31 /\ are_bytes value /\ padded value pad
  | _ => True
  end.

Definition toks_bytes (ts : list token) : list Z := flat_map tok_bytes ts.
(** The offset behind the tokens [ts]. *)
Definition pos (ts : list token) : Z := zlen (toks_bytes ts).

Record blob := Blob {
  b_total : Z;
  b_off_struct : Z;
  b_off_strings : Z;
  b_off_rsv : Z;
  b_last : Z;
  b_cpuid : Z;
  b_toks : list token;
  b_strings : list Z;
}.

Definition header_words (b : blob) : list Z :=
  [FDT_MAGIC; b_total b; b_off_struct b; b_off_strings b; b_off_rsv b; 17; b_last b; b_cpuid b;
   zlen (b_strings b); pos (b_toks b)].

(** The sizes are consistent and the header precedes the blocks. *)
Record blob_ok (b : blob) : Prop := {
  bo_total : b_total b < INT32_MAX;
  bo_struct : 40 <= b_off_struct b;
  bo_order : b_off_struct b + pos (b_toks b) <= b_off_strings b;
  bo_strings : b_off_strings b + zlen (b_strings b) <= b_total b;
  bo_rsv : 0 <= b_off_rsv b < 2 ^ 32;
  bo_last : 0 <= b_last b <= 17;
  bo_cpuid : 0 <= b_cpuid b < 2 ^ 32;
  bo_toks : Forall tok_ok (b_toks b);
}.

Record blob_at (m : mem) (fdt : Z) (b : blob) : Prop := {
  ba_ok : blob_ok b;
  ba_fdt : 0 < fdt;
  ba_end : fdt + b_total b < 2 ^ 32;
  ba_header : bytes_at m fdt (flat_map be32 (header_words b));
  ba_struct : bytes_at m (fdt + b_off_struct b) (toks_bytes (b_toks b));
  ba_strings : bytes_at m (fdt + b_off_strings b) (b_strings b);
}.

Section words.
Implicit Types (m : mem).

Lemma fdt32_ld_bytes m a b0 b1 b2 b3 :
  bytes_at m a [b0; b1; b2; b3] -> is_byte b0 -> is_byte b1 -> is_byte b2 -> is_byte b3 ->
  fdt32_ld m a = Done (2 ^ 24 * b0 + 2 ^ 16 * b1 + 2 ^ 8 * b2 + b3).
Proof.
  intros ([H0 A0] & [H1 A1] & [H2 A2] & [H3 A3] & _) B0 B1 B2 B3. unfold fdt32_ld.
  replace (a + 1 + 1) with (a + 2) in * by lia. replace (a + 2 + 1) with (a + 3) in * by lia.
  ld H0. ld H1. ld H2. ld H3. unfold is_byte in *. rewrite !Z.shiftl_mul_pow2, !u32_small by lia.
  rewrite (Z.lor_comm _ b3), (Z.lor_comm _ (b2 * 2 ^ 8)), (Z.lor_comm (b0 * 2 ^ 24)), !Z.lor_assoc, !(Z.mul_comm _ (2 ^ _)).
  rewrite (lor_disjoint _ 8), (lor_disjoint _ 16), (lor_disjoint _ 24) by lia. f_equal. lia.
Qed.

Lemma fdt32_ld_be32 m a v rest : bytes_at m a (be32 v ++ rest) -> 0 <= v < 2 ^ 32 -> fdt32_ld m a = Done v.
Proof.
  intros H Hv. apply bytes_at_app in H as [H _].
  rewrite (fdt32_ld_bytes _ _ _ _ _ _ H) by apply u8_byte. f_equal. unfold wrap. change (2 ^ 8) with 256. lia.
Qed.

Lemma zlen_be32 v : zlen (be32 v) = 4.
Proof. done. Qed.
End words.

Section reading.
Implicit Types (m : mem) (b : blob) (ts pre post : list token).

Lemma words_lookup m a ws i v :
  bytes_at m a (flat_map be32 ws) -> ws !! i = Some v -> 0 <= v < 2 ^ 32 -> fdt32_ld m (a + 4 * Z.of_nat i) = Done v.
Proof.
  revert a i. induction ws as [|w ws IH]; intros a i H Hi Hv; [done|]. cbn [flat_map] in H. destruct i as [|i]; cbn in Hi.
  - simplify_eq. replace (a + 4 * Z.of_nat 0) with a by lia. by eapply fdt32_ld_be32.
  - apply bytes_at_app in H as [_ H]. rewrite zlen_be32 in H.
    replace (a + 4 * Z.of_nat (S i)) with (a + 4 + 4 * Z.of_nat i) by lia. by apply IH.
Qed.

Lemma pos_nonneg ts : 0 <= pos ts.
Proof. apply zlen_nonneg. Qed.

Lemma pos_app ts ts' : pos (ts ++ ts') = pos ts + pos ts'.
Proof. unfold pos, toks_bytes. by rewrite flat_map_app, zlen_app. Qed.

Lemma pos_cons t ts : pos (t :: ts) = zlen (tok_bytes t) + pos ts.
Proof. unfold pos, toks_bytes. cbn [flat_map]. by rewrite zlen_app. Qed.

Lemma zlen_tok t : zlen (tok_bytes t) = 4 + zlen (tok_body t).
Proof. unfold tok_bytes. by rewrite zlen_app, zlen_be32. Qed.

Lemma zlen_padded body pad : padded body pad -> zlen (body ++ pad) = pad4 (zlen body).
Proof. unfold padded. rewrite zlen_app. lia. Qed.

(** How long a token is. *)
Lemma tok_length t : tok_ok t ->
  zlen (tok_bytes t) = match t with
                       | TBegin name _ => 4 + pad4 (zlen name + 1)
                       | TProp _ value _ => 12 + pad4 (zlen value)
                       | _ => 4
                       end.
Proof.
  intros H. rewrite zlen_tok. destruct t as [name pad|o v pad| | |]; cbn [tok_body tok_ok] in *; try done.
  - destruct H as [_ H]. rewrite (zlen_padded _ _ H), zlen_app. change (zlen [0]) with 1. lia.
  - destruct H as (_ & _ & H). rewrite !zlen_app, !zlen_be32, <- zlen_app, (zlen_padded _ _ H). lia.
Qed.

Lemma tok_tag_range t : 0 <= tok_tag t < 2 ^ 32.
Proof. destruct t; cbn [tok_tag]; unfold FDT_BEGIN_NODE, FDT_PROP, FDT_END_NODE, FDT_NOP, FDT_END; lia. Qed.

Lemma tok_length_ge t : 4 <= zlen (tok_bytes t).
Proof. rewrite zlen_tok. pose proof (zlen_nonneg (tok_body t)). lia. Qed.

Lemma pos_mod4 ts : Forall tok_ok ts -> pos ts mod 4 = 0.
Proof.
  induction 1 as [|t ts Ht _ IH]; [done|]. rewrite pos_cons, tok_length by done. destruct t; unfold pad4; lia.
Qed.

(** ** The header *)
Lemma header_fields m fdt b : blob_at m fdt b ->
  fdt_magic m fdt = Done FDT_MAGIC /\ fdt_totalsize m fdt = Done (b_total b) /\
  fdt_off_dt_struct m fdt = Done (b_off_struct b) /\ fdt_off_dt_strings m fdt = Done (b_off_strings b) /\
  fdt_off_mem_rsvmap m fdt = Done (b_off_rsv b) /\ fdt_version m fdt = Done 17 /\
  fdt_last_comp_version m fdt = Done (b_last b) /\ fdt_boot_cpuid_phys m fdt = Done (b_cpuid b) /\
  fdt_size_dt_strings m fdt = Done (zlen (b_strings b)) /\ fdt_size_dt_struct m fdt = Done (pos (b_toks b)).
Proof.
  intros [[Ht Hs Ho Hst Hr Hl Hc _] Hf He Hh _ _]. unfold INT32_MAX in *.
  pose proof (pos_nonneg (b_toks b)). pose proof (zlen_nonneg (b_strings b)).
  pose proof (fun i v => words_lookup m fdt _ i v Hh) as L.
  unfold fdt_magic, fdt_totalsize, fdt_off_dt_struct, fdt_off_dt_strings, fdt_off_mem_rsvmap, fdt_version,
    fdt_last_comp_version, fdt_boot_cpuid_phys, fdt_size_dt_strings, fdt_size_dt_struct.
  pose proof (L 0%nat FDT_MAGIC eq_refl ltac:(by vm_compute)) as L0. replace (fdt + 4 * Z.of_nat 0) with fdt in L0 by lia.
  split; [exact L0|].
  repeat match goal with
  | |- _ /\ _ => split
  | |- fdt32_ld m (fdt + 4) = _ => apply (L 1%nat); [done|lia]
  | |- fdt32_ld m (fdt + 8) = _ => apply (L 2%nat); [done|lia]
  | |- fdt32_ld m (fdt + 12) = _ => apply (L 3%nat); [done|lia]
  | |- fdt32_ld m (fdt + 16) = _ => apply (L 4%nat); [done|lia]
  | |- fdt32_ld m (fdt + 20) = _ => apply (L 5%nat); [done|lia]
  | |- fdt32_ld m (fdt + 24) = _ => apply (L 6%nat); [done|lia]
  | |- fdt32_ld m (fdt + 28) = _ => apply (L 7%nat); [done|lia]
  | |- fdt32_ld m (fdt + 32) = _ => apply (L 8%nat); [done|lia]
  | |- fdt32_ld m (fdt + 36) = _ => apply (L 9%nat); [done|lia]
  end.
Qed.

Lemma ro_probe_spec m fdt b : blob_at m fdt b -> fdt_ro_probe_ m fdt = Done (b_total b).
Proof.
  intros H. destruct (header_fields _ _ _ H) as (Hm & Ht & _ & _ & _ & Hv & Hl & _). destruct (ba_ok _ _ _ H).
  unfold fdt_ro_probe_. rewrite Ht, Hm, !bind_Done, Z.eqb_refl, Hv, Hl, !bind_Done.
  change (17 <? FDT_FIRST_SUPPORTED_VERSION) with false. unfold FDT_LAST_SUPPORTED_VERSION. bdec. done.
Qed.

(** Access to the structure block: granted exactly inside it. *)
Lemma offset_ptr_spec m fdt b off len :
  blob_at m fdt b -> 0 <= off -> 0 <= len -> off < 2 ^ 31 -> len < 2 ^ 31 ->
  fdt_offset_ptr m fdt off len = Done (if off + len <=? pos (b_toks b) then fdt + b_off_struct b + off else NULL).
Proof.
  intros H Ho Hl Ho31 Hl31. destruct (header_fields _ _ _ H) as (_ & Ht & Hs & _ & _ & Hv & _ & _ & _ & Hz).
  destruct (ba_ok _ _ _ H) as [Bt Bs Bo Bst _ _ _ _]. destruct H as [_ Hf He _ _ _].
  pose proof (zlen_nonneg (b_strings b)). pose proof (pos_nonneg (b_toks b)). unfold INT32_MAX in *.
  unfold fdt_offset_ptr, fdt_offset_ptr_. rewrite Hs, bind_Done. bdec. rewrite Ht, bind_Done. rewrite !(u32_small off) by lia.
  rewrite (u32_small (off + b_off_struct b)) by lia. bdec. rewrite Hv, Hz, !bind_Done. bdec.
  destruct (Z.leb_spec (off + len) (pos (b_toks b))).
  - rewrite !u32_small by lia. bdec. reflexivity.
  - destruct (decide (off + b_off_struct b + len < 2 ^ 32)).
    + rewrite !u32_small by lia. case_if; [done|]. bdec. done.
    + assert (u32 (off + b_off_struct b + len) = off + b_off_struct b + len - 2 ^ 32) as -> by (unfold wrap; lia).
      bdec. done.
Qed.

(** ** Tags *)

(** What a blob says about the token at the end of [pre]. *)
Lemma token_at m fdt b pre t post : blob_at m fdt b -> b_toks b = pre ++ t :: post ->
  bytes_at m (fdt + b_off_struct b + pos pre) (tok_bytes t) /\ tok_ok t /\ Forall tok_ok pre /\
  pos pre + zlen (tok_bytes t) + pos post = pos (b_toks b).
Proof.
  intros [Hok _ _ _ Hs _] E. destruct Hok as [_ _ _ _ _ _ _ Hf]. rewrite E in *.
  unfold toks_bytes in Hs. rewrite flat_map_app in Hs. apply bytes_at_app in Hs as [_ Hs]. cbn [flat_map] in Hs.
  apply bytes_at_app in Hs as [Hs _]. apply Forall_app in Hf as [Hpre Hf]. inversion Hf; subst.
  split; [exact Hs|]. split; [done|]. split; [done|]. rewrite pos_app, pos_cons. lia.
Qed.

Lemma struct_bounds m fdt b : blob_at m fdt b ->
  0 < fdt /\ 40 <= b_off_struct b /\ 0 <= pos (b_toks b) < 2 ^ 31 - 1 /\ fdt + b_off_struct b + pos (b_toks b) < 2 ^ 32.
Proof.
  intros [[Bt Bs Bo Bst _ _ _ _] Hf He _ _ _]. pose proof (zlen_nonneg (b_strings b)). pose proof (pos_nonneg (b_toks b)).
  unfold INT32_MAX in *. lia.
Qed.

Lemma skip_name_spec fuel m fdt b off name :
  blob_at m fdt b -> Forall (fun c => 0 < c < 256) name -> bytes_at m (fdt + b_off_struct b + off) (name ++ [0]) ->
  0 <= off -> off + zlen name + 1 <= pos (b_toks b) -> (length name < fuel)%nat ->
  skip_name_loop fuel m fdt off = Done (fdt + b_off_struct b + off + zlen name, off + zlen name + 1).
Proof.
  intros H Hn. destruct (struct_bounds _ _ _ H) as (Hf & Hs & Hp & He). revert fuel off.
  induction Hn as [|c name Hc _ IH]; intros fuel off Hat Ho Hle Hfu; (destruct fuel as [|fuel]; [cbn in Hfu; lia|]);
    cbn [skip_name_loop]; rewrite ?zlen_cons in *; change (zlen (@nil Z)) with 0 in *; cbn [app] in Hat;
    destruct Hat as [[Hb Ha] Hat]; try (pose proof (zlen_nonneg name)).
  - rewrite (offset_ptr_spec _ _ _ _ _ H) by lia. bdec. rewrite bind_Done. unfold NULL. bdec. ld Hb.
    rewrite Z.eqb_refl, s32_small by lia. do 2 f_equal; lia.
  - rewrite (offset_ptr_spec _ _ _ _ _ H) by lia. bdec. rewrite bind_Done. unfold NULL. bdec. ld Hb. bdec.
    rewrite s32_small by lia. rewrite IH.
    + do 2 f_equal; lia.
    + by replace (fdt + b_off_struct b + (off + 1)) with (fdt + b_off_struct b + off + 1) by lia.
    + lia.
    + lia.
    + cbn in Hfu. lia.
Qed.

(** The unaligned end of a token. *)
Definition raw_end (off : Z) (t : token) : Z :=
  match t with
  | TBegin name _ => off + 4 + zlen name + 1
  | TProp _ value _ => off + 12 + zlen value
  | _ => off + 4
  end.

Lemma raw_end_aligned off t : tok_ok t -> off mod 4 = 0 -> pad4 (raw_end off t) = off + zlen (tok_bytes t).
Proof. intros Ht Ho. rewrite tok_length by done. destruct t; cbn [raw_end]; unfold pad4; lia. Qed.

Lemma raw_end_bounds off t : tok_ok t -> off < raw_end off t <= off + zlen (tok_bytes t).
Proof.
  intros Ht. rewrite tok_length by done. destruct t as [name ?|? value ?| | |]; cbn [raw_end]; unfold pad4;
    try (pose proof (zlen_nonneg name)); try (pose proof (zlen_nonneg value)); lia.
Qed.

Lemma tag_end_spec fuel m fdt b pre t post :
  blob_at m fdt b -> b_toks b = pre ++ t :: post -> pos (b_toks b) < Z.of_nat fuel ->
  tag_end fuel m fdt (tok_tag t) (pos pre + 4) = Done (Some (raw_end (pos pre) t)).
Proof.
  intros H E Hfu. destruct (token_at _ _ _ _ _ _ H E) as (Hat & Hok & Hpre & Hsum). destruct (struct_bounds _ _ _ H) as (Hf & Hs & Hp & He).
  pose proof (tok_length _ Hok) as Hlen. pose proof (pos_nonneg pre). pose proof (pos_nonneg post).
  unfold tag_end. destruct t as [name pad|o v pad| | |]; try reflexivity; cbn [tok_tag] in *.
  - change (FDT_BEGIN_NODE =? FDT_BEGIN_NODE) with true. cbn iota. destruct Hok as [Hn _]. pose proof (pad4_bounds (zlen name + 1)).
    unfold tok_bytes in Hat. cbn [tok_body] in Hat. apply bytes_at_app in Hat as [_ Hat]. rewrite zlen_be32 in Hat.
    apply bytes_at_app in Hat as [Hat _]. pose proof (zlen_nonneg name).
    rewrite (skip_name_spec fuel m fdt b (pos pre + 4) name) by
      (done || lia || (unfold zlen in *; lia) || by replace (fdt + b_off_struct b + (pos pre + 4)) with (fdt + b_off_struct b + pos pre + 4) by lia).
    rewrite bind_Done. unfold NULL. bdec. reflexivity.
  - change (FDT_PROP =? FDT_BEGIN_NODE) with false. change (FDT_PROP =? FDT_PROP) with true. cbn iota.
    pose proof (pad4_bounds (zlen v)). pose proof (zlen_nonneg v).
    rewrite (offset_ptr_spec _ _ _ _ _ H) by lia. bdec. rewrite bind_Done. unfold NULL. bdec.
    unfold tok_bytes in Hat. cbn [tok_body] in Hat. apply bytes_at_app in Hat as [_ Hat]. rewrite zlen_be32 in Hat.
    replace (fdt + b_off_struct b + (pos pre + 4)) with (fdt + b_off_struct b + pos pre + 4) by lia.
    rewrite (fdt32_ld_be32 _ _ _ _ Hat) by lia. rewrite bind_Done. destruct (header_fields _ _ _ H) as (_ & _ & _ & _ & _ & -> & _).
    rewrite bind_Done. change (17 <? 16) with false. cbn [andb raw_end]. do 2 f_equal. unfold FDT_TAGSIZE. rewrite s32_small by lia. lia.
Qed.

(** [fdt_next_tag] reads one token. *)
Lemma next_tag_token fuel m fdt b pre t post :
  blob_at m fdt b -> b_toks b = pre ++ t :: post -> pos (b_toks b) < Z.of_nat fuel ->
  fdt_next_tag fuel m fdt (pos pre) = Done (tok_tag t, pos (pre ++ [t])).
Proof.
  intros H E Hfu. destruct (token_at _ _ _ _ _ _ H E) as (Hat & Hok & Hpre & Hsum). destruct (struct_bounds _ _ _ H) as (Hf & Hs & Hp & He).
  pose proof (pos_nonneg pre). pose proof (pos_nonneg post). pose proof (tok_length_ge t). pose proof (pos_mod4 _ Hpre) as Hm4.
  unfold fdt_next_tag, FDT_TAGSIZE. rewrite (offset_ptr_spec _ _ _ _ _ H) by lia. bdec. rewrite bind_Done. unfold NULL. bdec.
  pose proof (tok_tag_range t). unfold tok_bytes in Hat. rewrite (fdt32_ld_be32 _ _ _ _ Hat), bind_Done, s32_small by lia.
  rewrite (tag_end_spec fuel m fdt b pre t post), bind_Done by done.
  pose proof (raw_end_bounds (pos pre) t Hok). pose proof (raw_end_aligned (pos pre) t Hok Hm4) as Hal.
  rewrite u32_small by lia. rewrite (offset_ptr_spec _ _ _ _ _ H) by lia. bdec. rewrite bind_Done. bdec.
  do 2 f_equal. rewrite pos_app, pos_cons. change (pos []) with 0. rewrite Z.add_0_r, <- Hal.
  unfold FDT_TAGALIGN, FDT_TAGSIZE. rewrite u32_small by lia. change 4 with (2 ^ 2). rewrite ALIGN_UP_pow2 by lia.
  unfold pad4 in *. rewrite s32_small by lia. f_equal. f_equal. lia.
Qed.

(** Behind the last token the walk ends prematurely. *)
Lemma next_tag_end fuel m fdt b : blob_at m fdt b -> fdt_next_tag fuel m fdt (pos (b_toks b)) = Done (FDT_END, - FDT_ERR_TRUNCATED).
Proof.
  intros H. destruct (struct_bounds _ _ _ H) as (Hf & Hs & Hp & He). unfold fdt_next_tag, FDT_TAGSIZE.
  rewrite (offset_ptr_spec _ _ _ _ _ H) by lia. bdec. reflexivity.
Qed.
End reading.

(** ** Walking nodes

    [scan pre post depth] is what [fdt_next_node] finds behind the tokens
    [pre]: the next node and its depth, or the end of the enclosing one. *)
Fixpoint scan (pre post : list token) (depth : option Z) : Z * option Z :=
  match post with
  | [] => (match depth with Some _ => - FDT_ERR_TRUNCATED | None => - FDT_ERR_NOTFOUND end, depth)
  | t :: post' =>
      match t with
      | TBegin _ _ => (pos pre, option_map (Z.add 1) depth)
      | TEnd =>
          match depth with
          | None => scan (pre ++ [t]) post' None
          | Some d => if d - 1 <? 0 then (pos (pre ++ [t]), Some (d - 1)) else scan (pre ++ [t]) post' (Some (d - 1))
          end
      | TFin => (- FDT_ERR_NOTFOUND, depth)
      | _ => scan (pre ++ [t]) post' depth
      end
  end.

(** Fuel for one walk: every token takes a round, and a name is no longer than
    the structure block. *)
Definition walk_fuel (b : blob) (fuel : nat) : Prop := 2 * pos (b_toks b) + 2 < Z.of_nat fuel.

Definition depth_fits (depth : option Z) (n : Z) : Prop :=
  match depth with Some d => 0 <= d /\ d + n < 2 ^ 31 | None => True end.

Section walking.
Implicit Types (m : mem) (b : blob) (ts pre post : list token).

Lemma toks_length ts : Forall tok_ok ts -> 4 * zlen ts <= pos ts.
Proof. induction 1 as [|t ts _ _ IH]; [done|]. rewrite zlen_cons, pos_cons. pose proof (tok_length_ge t). lia. Qed.

Lemma next_node_loop_spec fuel m fdt b pre post depth :
  blob_at m fdt b -> b_toks b = pre ++ post -> pos (b_toks b) + zlen post < Z.of_nat fuel ->
  depth_fits depth (zlen post) ->
  next_node_loop fuel m fdt (pos pre) depth = Done (scan pre post depth).
Proof.
  intros H. revert fuel pre depth. induction post as [|t post IH]; intros fuel pre depth E Hfu Hd.
  - rewrite app_nil_r in E. subst pre. pose proof (pos_nonneg (b_toks b)). change (zlen (@nil token)) with 0 in *.
    destruct fuel as [|fuel]; [lia|]. cbn [next_node_loop]. rewrite (next_tag_end _ _ _ _ H), bind_Done. cbn [scan].
    by destruct depth.
  - pose proof (pos_nonneg (b_toks b)). pose proof (zlen_nonneg post). rewrite zlen_cons in *.
    destruct fuel as [|fuel]; [lia|]. cbn [next_node_loop].
    rewrite (next_tag_token _ _ _ b pre t post), bind_Done by (done || lia).
    assert (b_toks b = (pre ++ [t]) ++ post) as E' by (by rewrite E, <- app_assoc).
    pose proof (pos_nonneg (pre ++ [t])).
    destruct t as [name pad|o v pad| | |]; cbn [tok_tag scan].
    + change (FDT_BEGIN_NODE =? FDT_BEGIN_NODE) with true. cbn iota. destruct depth as [d|]; [|done]. cbn [option_map depth_fits] in *.
      do 3 f_equal. rewrite s32_small by lia. lia.
    + apply (IH fuel _ _ E'); [lia|]. destruct depth; [cbn [depth_fits] in *; lia|done].
    + change (FDT_END_NODE =? FDT_BEGIN_NODE) with false. change (FDT_END_NODE =? FDT_END_NODE) with true. cbn iota.
      destruct depth as [d|]; [|apply (IH fuel _ _ E'); [lia|done]]. cbn [depth_fits] in *.
      destruct (Z.eqb_spec d 0) as [->|].
      * change (s32 (0 - 1)) with (-1). done.
      * rewrite s32_small by lia. bdec. apply (IH fuel _ _ E'); [lia|]. cbn [depth_fits]. lia.
    + apply (IH fuel _ _ E'); [lia|]. destruct depth; [cbn [depth_fits] in *; lia|done].
    + change (FDT_END =? FDT_BEGIN_NODE) with false. change (FDT_END =? FDT_END_NODE) with false. change (FDT_END =? FDT_END) with true.
      cbn iota. bdec. done.
Qed.

(** The next node after the one at the end of [pre]. *)
Lemma next_node_spec fuel m fdt b pre name pad post depth :
  blob_at m fdt b -> b_toks b = pre ++ TBegin name pad :: post -> walk_fuel b fuel -> depth_fits depth (zlen post) ->
  fdt_next_node fuel m fdt (pos pre) depth = Done (scan (pre ++ [TBegin name pad]) post depth).
Proof.
  intros H E Hfu Hd. destruct (token_at _ _ _ _ _ _ H E) as (_ & _ & Hpre & _). unfold walk_fuel in Hfu.
  pose proof (pos_nonneg pre). pose proof (pos_nonneg (b_toks b)). pose proof (pos_nonneg (pre ++ [TBegin name pad])).
  unfold fdt_next_node, fdt_check_node_offset_, fdt_check_tag. bdec.
  pose proof (pos_mod4 _ Hpre). unfold FDT_TAGSIZE. bdec. rewrite (next_tag_token fuel m fdt b pre (TBegin name pad) post), bind_Done by (done || lia).
  change (tok_tag (TBegin name pad) =? FDT_BEGIN_NODE) with true. cbn iota. rewrite bind_Done. bdec.
  apply (next_node_loop_spec fuel m fdt b); [done|by rewrite E, <- app_assoc| |done].
  destruct (ba_ok _ _ _ H) as [_ _ _ _ _ _ _ Hf]. pose proof (toks_length _ Hf) as Hl. rewrite E in Hl.
  rewrite zlen_app, zlen_cons in Hl. pose proof (zlen_nonneg pre). rewrite <- E in Hl. lia.
Qed.

(** From -1 the walk starts at the first token. *)
Lemma first_node_spec fuel m fdt b depth :
  blob_at m fdt b -> walk_fuel b fuel -> depth_fits depth (zlen (b_toks b)) ->
  fdt_next_node fuel m fdt (-1) depth = Done (scan [] (b_toks b) depth).
Proof.
  intros H Hfu Hd. unfold fdt_next_node, walk_fuel in *. change (0 <=? -1) with false. cbn iota. rewrite bind_Done.
  change (0 <? 0) with false. cbn iota. change 0 with (pos []).
  apply (next_node_loop_spec fuel m fdt b [] (b_toks b)); [done|done| |done].
  destruct (ba_ok _ _ _ H) as [_ _ _ _ _ _ _ Hf]. pose proof (toks_length _ Hf). pose proof (pos_nonneg (b_toks b)). lia.
Qed.
End walking.

(** ** Names and strings *)

(** The string at [off] of a block of strings. *)
Definition string_at (strings : list Z) (off : Z) (s : list Z) : Prop :=
  0 <= off /\ Forall (fun c => 0 < c < 256) s /\ exists rest, drop (Z.to_nat off) strings = s ++ 0 :: rest.

Section names.
Implicit Types (m : mem) (b : blob) (pre post : list token).

(** [memchr] finds the terminator. *)
Lemma memchr_terminator m p s rest n :
  Forall (fun c => 0 < c < 256) s -> bytes_at m p (s ++ 0 :: rest) -> n = zlen (s ++ 0 :: rest) ->
  memchr m p 0 n = Done (p + zlen s).
Proof.
  intros Hs Hat ->. unfold memchr. rewrite to_nat_zlen. destruct (memchr_loop_spec _ _ _ 0 Hat) as [(i & Hi & Hmin & ->)|[Hn _]].
  - change (u8 0) with 0 in *. f_equal. unfold zlen. assert (i = length s) as ->; [|done].
    destruct (decide (i < length s)%nat).
    + rewrite lookup_app_l in Hi by done. rewrite Forall_forall in Hs. specialize (Hs 0). apply list_elem_of_lookup_2, list_elem_of_In in Hi.
      apply list_elem_of_In in Hi. specialize (Hs Hi). lia.
    + destruct (decide (i = length s)); [done|]. exfalso. apply (Hmin (length s)); [lia|]. by rewrite lookup_app_r, Nat.sub_diag by lia.
  - exfalso. apply Hn. change (u8 0) with 0. apply elem_of_app. right. by left.
Qed.

Lemma string_at_bytes m fdt b off s : blob_at m fdt b -> string_at (b_strings b) off s ->
  exists rest, bytes_at m (fdt + b_off_strings b + off) (s ++ 0 :: rest) /\ off + zlen (s ++ 0 :: rest) = zlen (b_strings b).
Proof.
  intros H (Ho & Hs & rest & E). exists rest. destruct H as [_ _ _ _ _ Hst].
  assert (Z.to_nat off < length (b_strings b))%nat.
  { destruct (decide (Z.to_nat off < length (b_strings b))%nat); [done|]. rewrite drop_ge in E by lia. by destruct s. }
  assert (b_strings b = take (Z.to_nat off) (b_strings b) ++ s ++ 0 :: rest) as E' by (by rewrite <- E, take_drop).
  rewrite E' in Hst. apply bytes_at_app in Hst as [_ Hst]. unfold zlen at 1 in Hst. rewrite length_take, Nat.min_l, Z2Nat.id in Hst by lia.
  split; [done|]. rewrite <- E. unfold zlen. rewrite length_drop. lia.
Qed.

Lemma get_string_spec m fdt b off s : blob_at m fdt b -> string_at (b_strings b) off s ->
  fdt_get_string m fdt off = Done (fdt + b_off_strings b + off, zlen s).
Proof.
  intros H Hs. destruct (string_at_bytes _ _ _ _ _ H Hs) as (rest & Hat & Hlen). destruct Hs as (Ho & Hs & _).
  destruct (header_fields _ _ _ H) as (Hm & Ht & _ & Hso & _ & Hv & _ & _ & Hsz & _).
  destruct (struct_bounds _ _ _ H) as (Hf & Hst & Hp & He).
  destruct (ba_ok _ _ _ H) as [Bt Bs Bo Bst _ _ _ _]. pose proof (ba_end _ _ _ H). unfold INT32_MAX in *.
  pose proof (zlen_nonneg s). pose proof (zlen_nonneg rest). rewrite zlen_app, zlen_cons in Hlen.
  unfold fdt_get_string. rewrite (ro_probe_spec _ _ _ H), bind_Done. bdec. rewrite Hso, bind_Done, (u32_small (off + b_off_strings b)) by lia.
  bdec. unfold string_room. rewrite Hm, Hsz, !bind_Done, Z.eqb_refl. bdec. rewrite Hv, bind_Done.
  change (17 <=? 17) with true. cbn iota. bdec. rewrite bind_Done, u32_small by lia.
  replace (fdt + (off + b_off_strings b)) with (fdt + b_off_strings b + off) by lia.
  assert ((if zlen (b_strings b) - off <? b_total b - (off + b_off_strings b) then zlen (b_strings b) - off
           else b_total b - (off + b_off_strings b)) = zlen (s ++ 0 :: rest)) as ->
    by (rewrite zlen_app, zlen_cons; case_if; b2p; lia).
  rewrite (memchr_terminator m _ s rest) by done. rewrite bind_Done. unfold NULL. bdec. do 2 f_equal.
  rewrite s32_small by lia. lia.
Qed.

(** Comparison of a property's name with a name of the caller. *)
Lemma string_eq_spec m fdt b off s q name :
  blob_at m fdt b -> string_at (b_strings b) off s -> bytes_at m q name ->
  fdt_string_eq_ m fdt off q (zlen name) = Done (bool_decide (s = name)).
Proof.
  intros H Hs Hq. unfold fdt_string_eq_. rewrite (get_string_spec _ _ _ _ _ H Hs), bind_Done.
  destruct (string_at_bytes _ _ _ _ _ H Hs) as (rest & Hat & _). destruct Hs as (Ho & _).
  destruct (struct_bounds _ _ _ H) as (Hf & Hst & Hp & He). destruct (ba_ok _ _ _ H) as [_ _ Bo _ _ _ _ _].
  unfold NULL. bdec. destruct (decide (zlen s = zlen name)) as [El|]; bdec.
  - apply bytes_at_app in Hat as [Hat _]. destruct (memcmp_spec s name m (fdt + b_off_strings b + off) q (zlen name)) as (r & -> & Hr); [done..|].
    rewrite bind_Done. f_equal. case_bool_decide; [apply Z.eqb_eq; tauto|apply Z.eqb_neq; tauto].
  - by rewrite bool_decide_false by (intros ->; done).
Qed.

Lemma begin_name_at m fdt b pre name pad post :
  blob_at m fdt b -> b_toks b = pre ++ TBegin name pad :: post -> cstr_at m (fdt + b_off_struct b + pos pre + 4) name.
Proof.
  intros H E. destruct (token_at _ _ _ _ _ _ H E) as (Hat & [Hn _] & _). split; [done|].
  unfold tok_bytes in Hat. cbn [tok_body] in Hat. apply bytes_at_app in Hat as [_ Hat]. rewrite zlen_be32 in Hat.
  by apply bytes_at_app in Hat as [Hat _].
Qed.

Lemma check_node_spec fuel m fdt b pre name pad post :
  blob_at m fdt b -> b_toks b = pre ++ TBegin name pad :: post -> walk_fuel b fuel ->
  fdt_check_node_offset_ fuel m fdt (pos pre) = Done (pos (pre ++ [TBegin name pad])).
Proof.
  intros H E Hfu. destruct (token_at _ _ _ _ _ _ H E) as (_ & _ & Hpre & _). unfold walk_fuel in Hfu.
  pose proof (pos_nonneg pre). pose proof (pos_nonneg (b_toks b)). pose proof (pos_mod4 _ Hpre).
  unfold fdt_check_node_offset_, fdt_check_tag, FDT_TAGSIZE. bdec.
  rewrite (next_tag_token fuel m fdt b pre (TBegin name pad) post), bind_Done by (done || lia). done.
Qed.

Lemma get_name_spec fuel m fdt b pre name pad post :
  blob_at m fdt b -> b_toks b = pre ++ TBegin name pad :: post -> walk_fuel b fuel ->
  fdt_get_name fuel m fdt (pos pre) = Done (fdt + b_off_struct b + pos pre + 4, zlen name).
Proof.
  intros H E Hfu. pose proof (begin_name_at _ _ _ _ _ _ _ H E) as Hn. destruct (header_fields _ _ _ H) as (_ & _ & Hs & _ & _ & Hv & _).
  destruct (struct_bounds _ _ _ H) as (Hf & Hst & Hp & He). destruct (token_at _ _ _ _ _ _ H E) as (_ & _ & _ & Hsum).
  pose proof (tok_length_ge (TBegin name pad)). pose proof (pos_nonneg pre). pose proof (pos_nonneg post). pose proof (pos_nonneg (pre ++ [TBegin name pad])).
  destruct (ba_ok _ _ _ H) as [_ _ Bo Bst _ _ _ _]. pose proof (zlen_nonneg (b_strings b)).
  unfold fdt_get_name, fdt_offset_ptr_. rewrite Hs, !bind_Done, (ro_probe_spec _ _ _ H), bind_Done. bdec.
  rewrite (check_node_spec fuel m fdt b pre name pad post), bind_Done by done. bdec. rewrite Hv, bind_Done.
  change (17 <? 16) with false. cbn iota. rewrite (u32_small (fdt + _ + _)), u32_small by lia. by rewrite (strlen_spec _ _ _ Hn), bind_Done.
Qed.

(** A name without its unit address matches too. *)
Lemma fdt_nodename_eq_spec fuel m fdt b pre name pad post q s :
  blob_at m fdt b -> b_toks b = pre ++ TBegin name pad :: post -> walk_fuel b fuel ->
  bytes_at m q s -> 0 < q -> fdt_nodename_eq_ fuel m fdt (pos pre) q (zlen s) = Done (nodename_match name s).
Proof.
  intros H E Hfu Hq Hq0. pose proof (begin_name_at _ _ _ _ _ _ _ H E) as [Hnf Hn]. pose proof (pos_nonneg pre).
  destruct (struct_bounds _ _ _ H) as (Hf & Hst & Hp & He).
  unfold fdt_nodename_eq_. rewrite (get_name_spec fuel m fdt b pre name pad post), bind_Done by done. unfold NULL. bdec.
  unfold nodename_match. set (p := fdt + b_off_struct b + pos pre + 4) in *.
  destruct (Z.ltb_spec (zlen name) (zlen s)) as [Hlt|Hge].
  { unfold zlen in Hlt. rewrite bool_decide_false by (intros ->; lia). rewrite (bool_decide_false (take _ _ = _)); [by rewrite andb_false_r|].
    intros Et. apply (f_equal length) in Et. rewrite length_take in Et. lia. }
  assert (exists u1 u2, name = u1 ++ u2 /\ zlen u1 = zlen s) as (u1 & u2 & -> & Hl).
  { exists (take (length s) name), (drop (length s) name). rewrite take_drop. split; [done|]. unfold zlen in *. rewrite length_take. lia. }
  rewrite <- app_assoc in Hn. apply bytes_at_app in Hn as [Hn1 Hn2].
  destruct (memcmp_spec u1 s m p q (zlen s)) as (r & -> & Hr); [done..|]. rewrite bind_Done.
  assert (length u1 = length s) as Hl' by (unfold zlen in Hl; lia). rewrite <- Hl', take_app_length, lookup_app_r, Nat.sub_diag by lia.
  destruct (decide (r = 0)) as [->|]; bdec.
  2: { rewrite (bool_decide_false (u1 = s)) by tauto. rewrite andb_false_r. rewrite bool_decide_false; [done|].
       intros Eq. apply n, Hr. apply (f_equal (take (length u1))) in Eq. rewrite take_app_length in Eq. rewrite Eq. rewrite Hl'. apply firstn_all. }
  assert (u1 = s) as -> by tauto. rewrite (bool_decide_true (s = s)) by done. rewrite andb_true_r. apply Forall_app in Hnf as [_ Hnf].
  destruct u2 as [|c u2]; cbn [app] in Hn2; destruct Hn2 as [[Hc ?] _]; ld Hc.
  - change (0 =? 0) with true. by rewrite app_nil_r, bool_decide_true.
  - inversion Hnf; subst. bdec. rewrite (bool_decide_false (s ++ c :: u2 = s)).
    2: { intros Eq. apply (f_equal length) in Eq. rewrite length_app in Eq. cbn in Eq. lia. }
    unfold memchr. rewrite to_nat_zlen. cbn [orb lookup list_lookup].
    destruct (memchr_loop_spec s m q 64 Hq) as [(i & Hi & _ & ->)|[Hno ->]]; rewrite bind_Done.
    + change (u8 64) with 64 in Hi. rewrite bool_decide_false by (intros Hno; apply Hno; by eapply list_elem_of_lookup_2).
      unfold NULL. bdec. done.
    + change (u8 64) with 64 in Hno. rewrite bool_decide_true by done. change (NULL =? NULL) with true. cbn [andb]. f_equal.
      destruct (Z.eqb_spec c 64) as [->|]; [by rewrite bool_decide_true|]. rewrite bool_decide_false by congruence. done.
Qed.
End names.

(** ** Properties *)

(** A token before the property [name] is reached: another property or a gap. *)
Definition other_tok (strings name : list Z) (t : token) : Prop :=
  match t with
  | TNop => True
  | TProp o _ _ => exists s, string_at strings o s /\ s <> name
  | _ => False
  end.

(** The token behind the properties of a node. *)
Definition stops (t : token) : Prop := match t with TBegin _ _ | TEnd => True | _ => False end.

Section properties.
Implicit Types (m : mem) (b : blob) (pre post : list token).

Lemma check_prop_spec fuel m fdt b pre o v pad post :
  blob_at m fdt b -> b_toks b = pre ++ TProp o v pad :: post -> walk_fuel b fuel ->
  fdt_check_prop_offset_ fuel m fdt (pos pre) = Done (pos (pre ++ [TProp o v pad])).
Proof.
  intros H E Hfu. destruct (token_at _ _ _ _ _ _ H E) as (_ & _ & Hpre & _). unfold walk_fuel in Hfu.
  pose proof (pos_nonneg pre). pose proof (pos_nonneg (b_toks b)). pose proof (pos_mod4 _ Hpre).
  unfold fdt_check_prop_offset_, fdt_check_tag, FDT_TAGSIZE. bdec.
  rewrite (next_tag_token fuel m fdt b pre (TProp o v pad) post), bind_Done by (done || lia). done.
Qed.

(** The fields of a property in memory. *)
Lemma property_fields m fdt b pre o v pad post :
  blob_at m fdt b -> b_toks b = pre ++ TProp o v pad :: post ->
  let p := fdt + b_off_struct b + pos pre in
  prop_len m p = Done (zlen v) /\ prop_nameoff m p = Done o /\ bytes_at m (p + 12) (v ++ pad) /\
  0 < p /\ p + 12 + zlen v < 2 ^ 32 /\ zlen v < 2 ^ 31.
Proof.
  intros H E p. destruct (token_at _ _ _ _ _ _ H E) as (Hat & Hok & Hpre & Hsum). destruct (struct_bounds _ _ _ H) as (Hf & Hs & Hp & He).
  pose proof (tok_length _ Hok) as Hlen. cbn iota in Hlen. cbn [tok_ok] in Hok. destruct Hok as (Ho & Hv & _).
  pose proof (pos_nonneg pre). pose proof (pos_nonneg post). pose proof (pad4_bounds (zlen v)). pose proof (zlen_nonneg v).
  unfold tok_bytes in Hat. cbn [tok_body] in Hat. apply bytes_at_app in Hat as [_ Hat]. rewrite zlen_be32 in Hat. fold p in Hat.
  unfold prop_len, prop_nameoff. rewrite (fdt32_ld_be32 _ _ _ _ Hat) by lia.
  apply bytes_at_app in Hat as [_ Hat]. rewrite zlen_be32 in Hat. replace (p + 4 + 4) with (p + 8) in Hat by lia.
  rewrite (fdt32_ld_be32 _ _ _ _ Hat) by lia. apply bytes_at_app in Hat as [_ Hat]. rewrite zlen_be32 in Hat.
  replace (p + 8 + 4) with (p + 12) in Hat by lia. rewrite !bind_Done, !s32_small by lia. repeat split; try done; lia.
Qed.

Lemma by_offset_spec fuel m fdt b pre o v pad post :
  blob_at m fdt b -> b_toks b = pre ++ TProp o v pad :: post -> walk_fuel b fuel ->
  fdt_get_property_by_offset_ fuel m fdt (pos pre) = Done (fdt + b_off_struct b + pos pre, zlen v).
Proof.
  intros H E Hfu. destruct (property_fields _ _ _ _ _ _ _ _ H E) as (Hl & _ & _ & Hp0 & Hp & _). pose proof (zlen_nonneg v).
  destruct (header_fields _ _ _ H) as (_ & _ & Hs & _). pose proof (pos_nonneg (pre ++ [TProp o v pad])).
  unfold fdt_get_property_by_offset_, fdt_offset_ptr_. rewrite (check_prop_spec fuel m fdt b pre o v pad post), bind_Done by done. bdec.
  rewrite Hs, !bind_Done, u32_small by lia. by rewrite Hl, bind_Done.
Qed.

Lemma fdt_next_property_spec fuel m fdt b pre o v pad post :
  blob_at m fdt b -> b_toks b = pre ++ TProp o v pad :: post -> walk_fuel b fuel ->
  fdt_next_property_offset fuel m fdt (pos pre) = nextprop_ fuel m fdt (pos (pre ++ [TProp o v pad])).
Proof.
  intros H E Hfu. pose proof (pos_nonneg (pre ++ [TProp o v pad])). unfold fdt_next_property_offset.
  rewrite (check_prop_spec fuel m fdt b pre o v pad post), bind_Done by done. by bdec.
Qed.

(** One step of the search: the token at the end of [pre] is not the one. *)
Lemma get_property_step k n fuel m fdt b pre t post q name :
  blob_at m fdt b -> b_toks b = pre ++ t :: post -> walk_fuel b fuel -> other_tok (b_strings b) name t ->
  bytes_at m q name -> pos (b_toks b) < Z.of_nat k ->
  (o ← nextprop_ (S k) m fdt (pos pre); get_property_loop (S n) fuel m fdt o q (zlen name)) =
  match t with
  | TNop => o ← nextprop_ k m fdt (pos (pre ++ [t])); get_property_loop (S n) fuel m fdt o q (zlen name)
  | _ => o ← nextprop_ fuel m fdt (pos (pre ++ [t])); get_property_loop n fuel m fdt o q (zlen name)
  end.
Proof.
  intros H E Hfu Ho Hq Hk. cbn [nextprop_]. rewrite (next_tag_token _ m fdt b pre t post), bind_Done by (done || lia).
  pose proof (pos_nonneg pre).
  destruct t as [| o v pad| | |]; try done. destruct Ho as (s & Hs & Hne). cbn [tok_tag].
  change (FDT_PROP =? FDT_END) with false. change (FDT_PROP =? FDT_PROP) with true. cbn iota. rewrite bind_Done. cbn [get_property_loop]. bdec.
  destruct (property_fields _ _ _ _ _ _ _ _ H E) as (Hl & Hno & _ & Hp0 & Hp & _).
  rewrite (by_offset_spec fuel m fdt b pre o v pad post), bind_Done by done. unfold NULL. bdec. rewrite Hno, bind_Done.
  rewrite (string_eq_spec _ _ _ _ s q name), bind_Done, bool_decide_false by done.
  by rewrite (fdt_next_property_spec fuel m fdt b pre o v pad post).
Qed.

(** The property is found behind others ... *)
Lemma get_property_found k n fuel m fdt b pre gap o v pad post q name :
  blob_at m fdt b -> b_toks b = pre ++ gap ++ TProp o v pad :: post -> walk_fuel b fuel ->
  Forall (other_tok (b_strings b) name) gap -> string_at (b_strings b) o name -> bytes_at m q name ->
  pos (b_toks b) + zlen gap < Z.of_nat k -> (length gap < n)%nat ->
  (o ← nextprop_ (S k) m fdt (pos pre); get_property_loop n fuel m fdt o q (zlen name)) =
  Done (fdt + b_off_struct b + pos (pre ++ gap), zlen v, pos (pre ++ gap)).
Proof.
  intros H E Hfu Hg Hs Hq. revert k n pre E. induction Hg as [|t gap Ht _ IH]; intros k n pre E Hk Hn;
    (destruct n as [|n]; [cbn in Hn; lia|]).
  - rewrite app_nil_r. change (zlen (@nil token)) with 0 in *. cbn [app] in E. pose proof (pos_nonneg pre).
    cbn [nextprop_]. rewrite (next_tag_token _ m fdt b pre _ post), bind_Done by (done || lia). cbn [tok_tag].
    change (FDT_PROP =? FDT_END) with false. change (FDT_PROP =? FDT_PROP) with true. cbn iota. rewrite bind_Done. cbn [get_property_loop]. bdec.
    destruct (property_fields _ _ _ _ _ _ _ _ H E) as (Hl & Hno & _ & Hp0 & Hp & _).
    rewrite (by_offset_spec fuel m fdt b pre o v pad post), bind_Done by done. unfold NULL. bdec. rewrite Hno, bind_Done.
    by rewrite (string_eq_spec _ _ _ _ name q name), bind_Done, bool_decide_true by done.
  - rewrite zlen_cons in Hk. pose proof (zlen_nonneg gap). cbn in Hn. pose proof (pos_nonneg (b_toks b)).
    assert (b_toks b = (pre ++ [t]) ++ gap ++ TProp o v pad :: post) as E' by (by rewrite E, <- app_assoc).
    rewrite (get_property_step k n fuel m fdt b pre t _ q name H E Hfu Ht Hq) by lia.
    replace (pre ++ t :: gap) with ((pre ++ [t]) ++ gap) by (by rewrite <- app_assoc).
    unfold walk_fuel in Hfu. pose proof (toks_length _ (bo_toks _ (ba_ok _ _ _ H))) as Hc. rewrite E, !zlen_app, (zlen_cons _ gap) in Hc.
    pose proof (zlen_nonneg pre). pose proof (zlen_nonneg (TProp o v pad :: post)). rewrite <- E in Hc.
    destruct t as [| o' v' pad'| | |]; try done.
    + destruct fuel as [|fuel]; [lia|]. apply (IH fuel n _ E'); lia.
    + destruct k as [|k]; [lia|]. apply (IH k (S n) _ E'); cbn; lia.
Qed.

(** ... or the node's properties end without it. *)
Lemma get_property_missing k n fuel m fdt b pre gap t post q name :
  blob_at m fdt b -> b_toks b = pre ++ gap ++ t :: post -> walk_fuel b fuel -> stops t ->
  Forall (other_tok (b_strings b) name) gap -> bytes_at m q name ->
  pos (b_toks b) + zlen gap < Z.of_nat k -> (length gap < n)%nat ->
  (o ← nextprop_ (S k) m fdt (pos pre); get_property_loop n fuel m fdt o q (zlen name)) = Done (NULL, - FDT_ERR_NOTFOUND, 0).
Proof.
  intros H E Hfu Hst Hg Hq. revert k n pre E. induction Hg as [|t' gap Ht _ IH]; intros k n pre E Hk Hn;
    (destruct n as [|n]; [cbn in Hn; lia|]).
  - change (zlen (@nil token)) with 0 in *. cbn [app] in E. cbn [nextprop_].
    rewrite (next_tag_token _ m fdt b pre _ post), bind_Done by (done || lia). by destruct t.
  - rewrite zlen_cons in Hk. pose proof (zlen_nonneg gap). cbn in Hn. pose proof (pos_nonneg (b_toks b)).
    assert (b_toks b = (pre ++ [t']) ++ gap ++ t :: post) as E' by (by rewrite E, <- app_assoc).
    rewrite (get_property_step k n fuel m fdt b pre t' _ q name H E Hfu Ht Hq) by lia.
    unfold walk_fuel in Hfu. pose proof (toks_length _ (bo_toks _ (ba_ok _ _ _ H))) as Hc. rewrite E, !zlen_app, (zlen_cons _ gap) in Hc.
    pose proof (zlen_nonneg pre). pose proof (zlen_nonneg (t :: post)). rewrite <- E in Hc.
    destruct t' as [| o' v' pad'| | |]; try done.
    + destruct fuel as [|fuel]; [lia|]. apply (IH fuel n _ E'); lia.
    + destruct k as [|k]; [lia|]. apply (IH k (S n) _ E'); cbn; lia.
Qed.
End properties.

(** ** Trees *)
Inductive fdt_tree :=
| FNode (name : list Z) (props : list (list Z * list Z)) (children : list fdt_tree).

Definition ft_name (t : fdt_tree) := let '(FNode n _ _) := t in n.
Definition ft_props (t : fdt_tree) := let '(FNode _ ps _) := t in ps.
Definition ft_children (t : fdt_tree) := let '(FNode _ _ cs) := t in cs.

(** The tokens of a list of properties, gaps allowed. *)
Inductive props_toks (strings : list Z) : list (list Z * list Z) -> list token -> Prop :=
| props_nil : props_toks strings [] []
| props_nop ps ts : props_toks strings ps ts -> props_toks strings ps (TNop :: ts)
| props_cons o name v pad ps ts :
    string_at strings o name -> props_toks strings ps ts ->
    props_toks strings ((name, v) :: ps) (TProp o v pad :: ts).

(** The tokens of a list of sibling nodes. *)
Inductive forest_toks (strings : list Z) : list fdt_tree -> list token -> Prop :=
| forest_nil : forest_toks strings [] []
| forest_nop f ts : forest_toks strings f ts -> forest_toks strings f (TNop :: ts)
| forest_node name pad ps cs f pts cts ts :
    props_toks strings ps pts -> forest_toks strings cs cts -> forest_toks strings f ts ->
    forest_toks strings (FNode name ps cs :: f) (TBegin name pad :: pts ++ cts ++ TEnd :: ts).

(** The tree [t] is a node of the blob, at offset [off]. *)
Definition node_at (b : blob) (off : Z) (t : fdt_tree) : Prop :=
  exists pre pad pts cts post,
    b_toks b = pre ++ TBegin (ft_name t) pad :: pts ++ cts ++ TEnd :: post /\ off = pos pre /\
    props_toks (b_strings b) (ft_props t) pts /\ forest_toks (b_strings b) (ft_children t) cts.

(** The blob is the tree [t]. *)
Definition fdt_at (m : mem) (fdt : Z) (b : blob) (t : fdt_tree) : Prop :=
  blob_at m fdt b /\ exists ts, b_toks b = ts ++ [TFin] /\
    exists pad pts cts, ts = TBegin (ft_name t) pad :: pts ++ cts ++ [TEnd] /\
      props_toks (b_strings b) (ft_props t) pts /\ forest_toks (b_strings b) (ft_children t) cts.

Definition fdt_find_child (cs : list fdt_tree) (q : list Z) : option fdt_tree :=
  List.find (fun c => nodename_match (ft_name c) q) cs.

Fixpoint fdt_walk (t : fdt_tree) (path : list (list Z)) : option fdt_tree :=
  match path with
  | [] => Some t
  | q :: path' => c ← fdt_find_child (ft_children t) q; fdt_walk c path'
  end.

(** The surroundings of a node: for every ancestor, innermost first, its name,
    its properties and the children on either side. *)
Record frame := Frame {
  fr_name : list Z;
  fr_props : list (list Z * list Z);
  fr_before : list fdt_tree;
  fr_after : list fdt_tree;
}.

Fixpoint plug (ctx : list frame) (t : fdt_tree) : fdt_tree :=
  match ctx with
  | [] => t
  | fr :: ctx' => plug ctx' (FNode (fr_name fr) (fr_props fr) (fr_before fr ++ t :: fr_after fr))
  end.

(** A child with its siblings on either side. *)
Fixpoint split_child (cs : list fdt_tree) (q : list Z) : option (list fdt_tree * fdt_tree * list fdt_tree) :=
  match cs with
  | [] => None
  | c :: cs' =>
      if nodename_match (ft_name c) q then Some ([], c, cs')
      else '(f1, x, f2) ← split_child cs' q; Some (c :: f1, x, f2)
  end.

(** The walk, with the surroundings of the node it ends at. *)
Fixpoint fdt_focus (ctx : list frame) (t : fdt_tree) (path : list (list Z)) : option (list frame * fdt_tree) :=
  match path with
  | [] => Some (ctx, t)
  | q :: path' =>
      '(f1, c, f2) ← split_child (ft_children t) q;
      fdt_focus (Frame (ft_name t) (ft_props t) f1 f2 :: ctx) c path'
  end.

Definition node_toks (strings : list Z) (t : fdt_tree) (nts : list token) : Prop :=
  exists pad pts cts, nts = TBegin (ft_name t) pad :: pts ++ cts ++ [TEnd] /\
    props_toks strings (ft_props t) pts /\ forest_toks strings (ft_children t) cts.

(** The tokens before and behind a node with given surroundings. *)
Inductive ctx_toks (strings : list Z) : list frame -> list token -> list token -> Prop :=
| ctx_root : ctx_toks strings [] [] [TFin]
| ctx_child ctx pre post name pad ps pts f1 ts1 f2 ts2 :
    ctx_toks strings ctx pre post -> props_toks strings ps pts ->
    forest_toks strings f1 ts1 -> forest_toks strings f2 ts2 ->
    ctx_toks strings (Frame name ps f1 f2 :: ctx) (pre ++ TBegin name pad :: pts ++ ts1) (ts2 ++ TEnd :: post).

(** The tree [t] is the node at [off], with surroundings [ctx]. *)
Definition located (b : blob) (off : Z) (ctx : list frame) (t : fdt_tree) : Prop :=
  exists pre nts post, b_toks b = pre ++ nts ++ post /\ off = pos pre /\
    ctx_toks (b_strings b) ctx pre post /\ node_toks (b_strings b) t nts.

Section trees.
Implicit Types (m : mem) (b : blob) (pre post ts : list token) (t : fdt_tree) (f : list fdt_tree).

Lemma node_at_root m fdt b t : fdt_at m fdt b t -> node_at b 0 t.
Proof.
  intros (_ & ts & E & pad & pts & cts & -> & Hps & Hcs). exists [], pad, pts, cts, [TFin].
  split; [|done]. rewrite E. cbn [app]. f_equal. by rewrite <- !app_assoc.
Qed.

Lemma node_at_intro b pre nts post t :
  b_toks b = pre ++ nts ++ post -> node_toks (b_strings b) t nts -> node_at b (pos pre) t.
Proof.
  intros E (pad & pts & cts & -> & Hps & Hcs). exists pre, pad, pts, cts, post. split; [|done].
  rewrite E. cbn [app]. by rewrite <- !app_assoc.
Qed.

Lemma located_node b off ctx t : located b off ctx t -> node_at b off t.
Proof. intros (pre & nts & post & E & -> & _ & Hn). by eapply node_at_intro. Qed.

Lemma located_root m fdt b t : fdt_at m fdt b t -> located b 0 [] t.
Proof.
  intros (_ & ts & E & pad & pts & cts & Hts & Hps & Hcs). exists [], ts, [TFin].
  split; [done|]. split; [done|]. split; [constructor|]. by exists pad, pts, cts.
Qed.

Lemma forest_toks_app strings f1 f2 ts1 ts2 :
  forest_toks strings f1 ts1 -> forest_toks strings f2 ts2 -> forest_toks strings (f1 ++ f2) (ts1 ++ ts2).
Proof.
  intros H1 H2. induction H1 as [|f ts _ IH|name pad ps cs f pts cts ts Hps Hcs _ _ IH]; [done|by constructor|].
  cbn [app]. rewrite <- !app_assoc. cbn [app]. by constructor.
Qed.

Lemma node_forest strings t nts f ts :
  node_toks strings t nts -> forest_toks strings f ts -> forest_toks strings (t :: f) (nts ++ ts).
Proof.
  intros (pad & pts & cts & -> & Hps & Hcs) Hf. cbn [app]. rewrite <- !app_assoc. destruct t as [name ps cs]. by constructor.
Qed.

(** A node in its surroundings is the whole tree. *)
Lemma located_fdt m fdt b off ctx t : blob_at m fdt b -> located b off ctx t -> fdt_at m fdt b (plug ctx t).
Proof.
  intros H (pre & nts & post & E & _ & Hc & Hn). split; [done|]. revert nts t E Hn.
  induction Hc as [|ctx pre post name pad ps pts f1 ts1 f2 ts2 _ IH Hps H1 H2]; intros nts t E Hn.
  - exists nts. split; [done|]. destruct Hn as (pad & pts & cts & Hn). by exists pad, pts, cts.
  - cbn [plug fr_name fr_props fr_before fr_after].
    apply (IH (TBegin name pad :: pts ++ (ts1 ++ nts ++ ts2) ++ [TEnd])).
    + rewrite E. tok_assoc.
    + exists pad, pts, (ts1 ++ nts ++ ts2). split; [done|]. split; [done|]. cbn [ft_children].
      by apply forest_toks_app, node_forest.
Qed.

Lemma split_child_find cs q : fdt_find_child cs q = (fun r => r.1.2) <$> split_child cs q.
Proof.
  unfold fdt_find_child. induction cs as [|c cs IH]; [done|]. cbn [List.find split_child]. destruct (nodename_match (ft_name c) q); [done|].
  rewrite IH. by destruct (split_child cs q) as [[[f1 x] f2]|].
Qed.

Lemma split_child_app cs q f1 c f2 : split_child cs q = Some (f1, c, f2) -> cs = f1 ++ c :: f2.
Proof.
  revert f1. induction cs as [|c' cs IH]; intros f1; [done|]. cbn [split_child]. destruct (nodename_match (ft_name c') q); [by intros [= <- <- <-]|].
  destruct (split_child cs q) as [[[g1 x] g2]|]; [|done]. intros [= <- <- <-]. cbn [app]. f_equal. by apply IH.
Qed.

(** Only the name of the child decides. *)
Lemma split_child_rename cs q f1 c f2 c' :
  split_child cs q = Some (f1, c, f2) -> ft_name c' = ft_name c -> split_child (f1 ++ c' :: f2) q = Some (f1, c', f2).
Proof.
  intros H Hn. revert f1 H. induction cs as [|c0 cs IH]; intros f1; [done|]. cbn [split_child].
  destruct (nodename_match (ft_name c0) q) eqn:E.
  - intros [= <- -> ->]. cbn [app split_child]. by rewrite Hn, E.
  - destruct (split_child cs q) as [[[g1 x] g2]|]; [|done]. intros [= <- -> ->]. cbn [app split_child]. by rewrite E, IH.
Qed.

Lemma fdt_focus_walk ctx t path : fdt_walk t path = snd <$> fdt_focus ctx t path.
Proof.
  revert ctx t. induction path as [|q path IH]; intros ctx t; [done|]. cbn [fdt_walk fdt_focus]. rewrite split_child_find.
  destruct (split_child _ q) as [[[f1 c] f2]|]; [|done]. cbn. apply IH.
Qed.

Lemma fdt_focus_plug ctx t path ctx' t' : fdt_focus ctx t path = Some (ctx', t') -> plug ctx' t' = plug ctx t.
Proof.
  revert ctx t. induction path as [|q path IH]; intros ctx t; [by intros [= -> ->]|]. cbn [fdt_focus].
  destruct (split_child _ q) as [[[f1 c] f2]|] eqn:E; [|done]. cbn. intros H. rewrite (IH _ _ H). cbn [plug fr_name fr_props fr_before fr_after].
  rewrite <- (split_child_app _ _ _ _ _ E). by destruct t.
Qed.

(** A node that keeps its name is found again after a change. *)
Lemma fdt_focus_change ctx t path ctx' t' t'' :
  fdt_focus ctx t path = Some (ctx', t') -> ft_name t'' = ft_name t' ->
  exists t0, fdt_focus ctx t0 path = Some (ctx', t'') /\ plug ctx t0 = plug ctx' t'' /\ ft_name t0 = ft_name t.
Proof.
  intros H Hn. revert ctx t H. induction path as [|q path IH]; intros ctx t; [intros [= -> ->]; by exists t''|]. cbn [fdt_focus].
  destruct (split_child _ q) as [[[f1 c] f2]|] eqn:E; [|done]. cbn. intros H.
  destruct (IH _ _ H) as (c0 & Hf & Hp & Hc). exists (FNode (ft_name t) (ft_props t) (f1 ++ c0 :: f2)). cbn [ft_children ft_name ft_props].
  rewrite (split_child_rename _ _ _ _ _ c0 E Hc). cbn. split; [done|]. by split.
Qed.

Lemma scan_props strings ps pts pre post d :
  props_toks strings ps pts -> scan pre (pts ++ post) d = scan (pre ++ pts) post d.
Proof.
  intros H. revert pre. induction H as [|ps ts _ IH|o name v pad ps ts _ _ IH]; intros pre; cbn [app scan].
  - by rewrite app_nil_r.
  - by rewrite IH, <- app_assoc.
  - by rewrite IH, <- app_assoc.
Qed.

(** The properties a search passes over, or up to the one it finds. *)
Lemma props_find strings ps pts name :
  props_toks strings ps pts ->
  match assoc_prop ps name with
  | Some v => exists gap o pad rest, pts = gap ++ TProp o v pad :: rest /\ Forall (other_tok strings name) gap /\ string_at strings o name
  | None => Forall (other_tok strings name) pts
  end.
Proof.
  induction 1 as [|ps ts _ IH|o s v pad ps ts Hs _ IH]; [constructor|..].
  - destruct (assoc_prop ps name) as [v|]; [|by constructor]. destruct IH as (gap & o & pad & rest & -> & Hg & Ho).
    exists (TNop :: gap), o, pad, rest. split; [done|]. split; [by constructor|done].
  - unfold assoc_prop in *. cbn [List.find fst]. case_bool_decide as Hd; cbn [fmap option_fmap option_map snd].
    + subst s. exists [], o, pad, ts. split; [done|]. split; [constructor|done].
    + destruct (snd <$> List.find _ ps) as [v'|]; [|constructor; [by exists s|done]].
      destruct IH as (gap & o' & pad' & rest & -> & Hg & Ho). exists (TProp o v pad :: gap), o', pad', rest.
      split; [done|]. split; [constructor; [by exists s|done]|done].
Qed.

(** Behind the properties a node begins or ends, after gaps. *)
Lemma forest_head strings name f cts post :
  forest_toks strings f cts -> exists gap tk rest, cts ++ TEnd :: post = gap ++ tk :: rest /\ Forall (other_tok strings name) gap /\ stops tk.
Proof.
  induction 1 as [|f ts _ IH|nm pad ps cs f pts cts ts _ _ _ _ _].
  - by exists [], TEnd, post.
  - destruct IH as (gap & tk & rest & E & Hg & Ht). exists (TNop :: gap), tk, rest. cbn [app]. rewrite E. split; [done|]. split; [by constructor|done].
  - exists [], (TBegin nm pad). eexists. by split; [|split; [constructor|]].
Qed.

Lemma fuel_facts m fdt b fuel pre ts : blob_at m fdt b -> b_toks b = pre ++ ts -> walk_fuel b fuel ->
  pos (b_toks b) + zlen ts + 1 < Z.of_nat fuel /\ (length ts < fuel)%nat /\ zlen ts < 2 ^ 29.
Proof.
  intros H E Hfu. unfold walk_fuel in Hfu. pose proof (toks_length _ (bo_toks _ (ba_ok _ _ _ H))) as Hc. rewrite E, zlen_app, <- E in Hc.
  destruct (struct_bounds _ _ _ H) as (_ & _ & Hp & _). pose proof (zlen_nonneg pre). pose proof (zlen_nonneg ts). unfold zlen in *. lia.
Qed.

(** [fdt_get_property_namelen_] on a node, in terms of its tokens. *)
Lemma get_property_tokens fuel m fdt b pre nm pad pts cts post ps cs q name :
  blob_at m fdt b -> b_toks b = pre ++ TBegin nm pad :: pts ++ cts ++ TEnd :: post ->
  props_toks (b_strings b) ps pts -> forest_toks (b_strings b) cs cts -> walk_fuel b fuel -> bytes_at m q name ->
  match assoc_prop ps name with
  | Some v => exists gap o pad' rest, pts = gap ++ TProp o v pad' :: rest /\ Forall (other_tok (b_strings b) name) gap /\
      string_at (b_strings b) o name /\
      fdt_get_property_namelen_ fuel m fdt (pos pre) q (zlen name) =
        Done (fdt + b_off_struct b + pos (pre ++ TBegin nm pad :: gap), zlen v, pos (pre ++ TBegin nm pad :: gap))
  | None => fdt_get_property_namelen_ fuel m fdt (pos pre) q (zlen name) = Done (NULL, - FDT_ERR_NOTFOUND, 0)
  end.
Proof.
  intros H E Hps Hcs Hfu Hq. pose proof (pos_nonneg (pre ++ [TBegin nm pad])).
  assert (b_toks b = (pre ++ [TBegin nm pad]) ++ pts ++ cts ++ TEnd :: post) as E1 by (by rewrite E, <- app_assoc).
  destruct (fuel_facts _ _ _ _ _ _ H E1 Hfu) as (Hf1 & Hf2 & _).
  unfold fdt_get_property_namelen_, fdt_first_property_offset. rewrite (check_node_spec fuel m fdt b pre nm pad _ H E Hfu), bind_Done. bdec.
  destruct fuel as [|k]; [lia|].
  pose proof (props_find _ _ _ name Hps) as Hfind. destruct (assoc_prop ps name) as [v|].
  - destruct Hfind as (gap & o & pad' & rest & -> & Hg & Ho). rewrite <- (app_assoc gap) in E1. cbn [app] in E1.
    rewrite <- (app_assoc gap), zlen_app in Hf1. rewrite <- (app_assoc gap), length_app in Hf2.
    exists gap, o, pad', rest. split; [done|]. split; [done|]. split; [done|].
    replace (pre ++ TBegin nm pad :: gap) with ((pre ++ [TBegin nm pad]) ++ gap) by tok_assoc.
    pose proof (zlen_nonneg ((TProp o v pad' :: rest) ++ cts ++ TEnd :: post)).
    apply (get_property_found k (S k) (S k) m fdt b _ gap o v pad' _ q name H E1 Hfu Hg Ho Hq); [lia|lia].
  - destruct (forest_head _ name _ _ post Hcs) as (gap & tk & rest & Eg & Hg & Htk). rewrite Eg, (app_assoc pts) in E1.
    rewrite Eg, app_assoc, zlen_app in Hf1. rewrite Eg, app_assoc, length_app in Hf2. pose proof (zlen_nonneg (tk :: rest)).
    apply (get_property_missing k (S k) (S k) m fdt b _ (pts ++ gap) tk rest q name H E1 Hfu Htk); [by apply Forall_app|done|lia|lia].
Qed.

Lemma get_property_spec fuel m fdt b off t q name :
  blob_at m fdt b -> node_at b off t -> walk_fuel b fuel -> bytes_at m q name ->
  match assoc_prop (ft_props t) name with
  | Some v => exists pre o pad post, b_toks b = pre ++ TProp o v pad :: post /\
      fdt_get_property_namelen_ fuel m fdt off q (zlen name) = Done (fdt + b_off_struct b + pos pre, zlen v, pos pre)
  | None => fdt_get_property_namelen_ fuel m fdt off q (zlen name) = Done (NULL, - FDT_ERR_NOTFOUND, 0)
  end.
Proof.
  intros H (pre & pad & pts & cts & post & E & -> & Hps & Hcs) Hfu Hq.
  pose proof (get_property_tokens fuel m fdt b _ _ _ _ _ _ _ _ q name H E Hps Hcs Hfu Hq) as L.
  destruct (assoc_prop (ft_props t) name) as [v|]; [|done]. destruct L as (gap & o & pad' & rest & -> & _ & _ & L).
  exists (pre ++ TBegin (ft_name t) pad :: gap), o, pad', (rest ++ cts ++ TEnd :: post). split; [|exact L]. rewrite E. tok_assoc.
Qed.

Lemma fdt_getprop_namelen_spec fuel m fdt b off t q name :
  blob_at m fdt b -> node_at b off t -> walk_fuel b fuel -> bytes_at m q name ->
  match assoc_prop (ft_props t) name with
  | Some v => exists a, fdt_getprop_namelen fuel m fdt off q (zlen name) = Done (a, zlen v) /\ bytes_at m a v /\ 0 < a /\ a + zlen v < 2 ^ 32
  | None => fdt_getprop_namelen fuel m fdt off q (zlen name) = Done (NULL, - FDT_ERR_NOTFOUND)
  end.
Proof.
  intros H Hn Hfu Hq. pose proof (get_property_spec fuel m fdt b off t q name H Hn Hfu Hq) as L. unfold fdt_getprop_namelen.
  destruct (assoc_prop (ft_props t) name) as [v|]; [|by rewrite L, bind_Done].
  destruct L as (pre & o & pad & post & E & ->). rewrite bind_Done.
  destruct (property_fields _ _ _ _ _ _ _ _ H E) as (_ & _ & Hv & Hp0 & Hp & _). unfold NULL. pose proof (zlen_nonneg v). bdec.
  unfold realigned_data. destruct (header_fields _ _ _ H) as (_ & _ & _ & _ & _ & -> & _). rewrite !bind_Done.
  change (17 <? 16) with false. cbn [andb]. unfold prop_data. rewrite u32_small by lia. eexists. split; [done|].
  apply bytes_at_app in Hv as [Hv _]. split; [exact Hv|]. lia.
Qed.
End trees.

(** ** Finding a child *)

(** A search [R], which goes on from what a scan found, is past the
    descendants of a node when it passes the nodes deeper than its children. *)
Section passing.
Context (b : blob) (R : nat -> Z * option Z -> outcome Z).
Implicit Types (pre post ts : list token) (f : list fdt_tree).
Context (Hpass : forall n pre name pad post d, b_toks b = pre ++ TBegin name pad :: post -> 2 <= d -> d + zlen post < 2 ^ 31 ->
  R (S n) (pos pre, Some d) = R n (scan (pre ++ [TBegin name pad]) post (Some d))).

Lemma forest_passed f ts : forest_toks (b_strings b) f ts -> forall pre post d,
  b_toks b = pre ++ ts ++ post -> 1 <= d -> d + zlen (ts ++ post) < 2 ^ 31 ->
  exists k, (k <= length ts)%nat /\ forall n, R (k + n)%nat (scan pre (ts ++ post) (Some d)) = R n (scan (pre ++ ts) post (Some d)).
Proof using Hpass.
  induction 1 as [|f ts _ IH|name pad ps cs f pts cts ts Hps Hcs IHc Hts IHt]; intros pre post d E Hd Hd31.
  - exists O. split; [done|]. intros n. by rewrite app_nil_r.
  - cbn [app] in E, Hd31. rewrite zlen_cons in Hd31. destruct (IH (pre ++ [TNop]) post d) as (k & Hk & Hr); [by rewrite E, <- app_assoc|lia|lia|].
    exists k. split; [cbn; lia|]. intros n. cbn [app scan]. by rewrite Hr, <- app_assoc.
  - cbn [app] in E, Hd31. rewrite <- !(app_assoc pts), <- !(app_assoc cts) in E, Hd31. cbn [app] in E, Hd31.
    rewrite zlen_cons, !zlen_app, zlen_cons, zlen_app in Hd31. pose proof (zlen_nonneg pts). pose proof (zlen_nonneg cts).
    pose proof (zlen_nonneg ts). pose proof (zlen_nonneg post).
    set (pre1 := pre ++ [TBegin name pad]). set (pre2 := (pre1 ++ pts) ++ cts).
    destruct (IHt (pre2 ++ [TEnd]) post d) as (kt & Hkt & Hrt); [by unfold pre2, pre1; rewrite E, <- !app_assoc|lia|rewrite zlen_app; lia|].
    destruct (IHc (pre1 ++ pts) (TEnd :: ts ++ post) (1 + d)) as (kc & Hkc & Hrc);
      [by unfold pre1; rewrite E, <- !app_assoc|lia|rewrite zlen_app, zlen_cons, zlen_app; lia|].
    exists (S (kc + kt)). split; [cbn [length]; rewrite !length_app; cbn; lia|]. intros n.
    cbn [app scan option_map]. rewrite (Z.add_comm 1 d) in *. replace (S (kc + kt) + n)%nat with (S (kc + (kt + n)))%nat by lia.
    rewrite (Hpass _ pre name pad (pts ++ cts ++ TEnd :: ts ++ post)) by (done || lia || (rewrite !zlen_app, zlen_cons, zlen_app; lia)).
    rewrite (scan_props _ _ _ _ _ _ Hps). fold pre1. rewrite Hrc. fold pre2. cbn [scan]. replace (d + 1 - 1) with d by lia. bdec.
    rewrite Hrt. do 2 f_equal. unfold pre2, pre1. by rewrite <- !app_assoc.
Qed.
End passing.

(** The search for a child by name. *)
Definition resume (n fuel : nat) (m : mem) (fdt : Z) (r : Z * option Z) (q len : Z) : outcome Z :=
  fdt_subnode_loop n fuel m fdt r.1 (default 0 r.2) q len.

Section subnodes.
Context (m : mem) (fdt : Z) (b : blob) (fuel : nat) (q : Z) (s : list Z).
Context (H : blob_at m fdt b) (Hfu : walk_fuel b fuel) (Hq : bytes_at m q s) (Hq0 : 0 < q).
#[local] Set Default Proof Using "Type*".
Implicit Types (pre post ts : list token) (f : list fdt_tree).

#[local] Abbreviation resume_at n r := (resume n fuel m fdt r q (zlen s)).

(** A node at a depth other than 1 is passed. *)
Lemma resume_pass n pre name pad post d :
  b_toks b = pre ++ TBegin name pad :: post -> 0 <= d -> d <> 1 -> d + zlen post < 2 ^ 31 ->
  resume_at (S n) (pos pre, Some d) = resume_at n (scan (pre ++ [TBegin name pad]) post (Some d)).
Proof.
  intros E Hd Hd1 Hd31. pose proof (pos_nonneg pre). unfold resume. cbn [fst snd default id fdt_subnode_loop]. bdec. rewrite bind_Done.
  rewrite (next_node_spec fuel m fdt b pre name pad post) by (done || split; lia). rewrite bind_Done.
  by destruct (scan _ _ _).
Qed.

Lemma resume_forest f ts pre post d : forest_toks (b_strings b) f ts ->
  b_toks b = pre ++ ts ++ post -> 1 <= d -> d + zlen (ts ++ post) < 2 ^ 31 ->
  exists k, (k <= length ts)%nat /\ forall n,
    resume_at (k + n)%nat (scan pre (ts ++ post) (Some d)) = resume_at n (scan (pre ++ ts) post (Some d)).
Proof.
  intros Hf E Hd Hd31. refine (forest_passed b (fun n r => resume_at n r) _ f ts Hf pre post d E Hd Hd31).
  intros. apply resume_pass; [done|lia..].
Qed.

(** The children are searched in order. *)
Lemma resume_find f ts : forest_toks (b_strings b) f ts -> forall pre post n,
  b_toks b = pre ++ ts ++ TEnd :: post -> (length ts < n)%nat ->
  match split_child f s with
  | Some (f1, c, f2) => exists ts1 nts ts2, ts = ts1 ++ nts ++ ts2 /\
      resume_at n (scan pre (ts ++ TEnd :: post) (Some 0)) = Done (pos (pre ++ ts1)) /\
      forest_toks (b_strings b) f1 ts1 /\ node_toks (b_strings b) c nts /\ forest_toks (b_strings b) f2 ts2
  | None => resume_at n (scan pre (ts ++ TEnd :: post) (Some 0)) = Done (- FDT_ERR_NOTFOUND)
  end.
Proof.
  induction 1 as [|f ts _ IH|name pad ps cs f pts cts ts Hps Hcs _ Hts IHt]; intros pre post n E Hn; (destruct n as [|n]; [cbn in Hn; lia|]).
  - cbn [split_child app scan]. change (0 - 1 <? 0) with true. unfold resume. cbn [fst snd default id fdt_subnode_loop].
    change (0 <=? 0 - 1) with false. by rewrite andb_false_r.
  - cbn [app scan] in *. specialize (IH (pre ++ [TNop]) post (S n)). destruct (split_child f s) as [[[f1 c] f2]|].
    + destruct IH as (ts1 & nts & ts2 & -> & -> & H1 & Hc & H2); [by rewrite E, <- app_assoc|cbn in Hn; lia|].
      exists (TNop :: ts1), nts, ts2. rewrite <- app_assoc. split; [done|]. split; [done|]. split; [by constructor|done].
    + apply IH; [by rewrite E, <- app_assoc|cbn in Hn; lia].
  - cbn [app] in E. rewrite <- !(app_assoc pts), <- !(app_assoc cts) in E. cbn [app] in E. pose proof (pos_nonneg pre).
    cbn [app scan option_map].
    change (1 + 0) with 1. destruct (fuel_facts _ _ _ _ _ _ H E Hfu) as (_ & _ & Hlen).
    rewrite zlen_cons, !zlen_app, zlen_cons, zlen_app, zlen_cons in Hlen. pose proof (zlen_nonneg pts). pose proof (zlen_nonneg cts).
    pose proof (zlen_nonneg ts). pose proof (zlen_nonneg post).
    cbn [split_child ft_name].
    assert (resume_at (S n) (pos pre, Some 1) =
            if nodename_match name s then Done (pos pre)
            else resume_at n (scan ((pre ++ [TBegin name pad]) ++ pts) (cts ++ TEnd :: ts ++ TEnd :: post) (Some 1))) as ->.
    { unfold resume at 1. cbn [fst snd default id fdt_subnode_loop]. bdec.
      rewrite (fdt_nodename_eq_spec fuel m fdt b pre name pad _ q s H E Hfu Hq Hq0), bind_Done. destruct (nodename_match name s); [done|].
      rewrite (next_node_spec fuel m fdt b pre name pad _ (Some 1) H E Hfu) by (split; [lia|rewrite !zlen_app, zlen_cons, zlen_app, zlen_cons; lia]).
      rewrite bind_Done, (scan_props _ _ _ _ _ _ Hps). unfold resume. by destruct (scan _ _ _). }
    destruct (nodename_match name s).
    + exists [], (TBegin name pad :: pts ++ cts ++ [TEnd]), ts. rewrite app_nil_r. cbn [app]. rewrite <- !app_assoc.
      split; [done|]. split; [done|]. split; [constructor|]. split; [by exists pad, pts, cts|done].
    + cbn [length] in Hn. rewrite !length_app in Hn. cbn [length] in Hn. set (pre1 := (pre ++ [TBegin name pad]) ++ pts).
      destruct (resume_forest _ _ pre1 (TEnd :: ts ++ TEnd :: post) 1 Hcs) as (k & Hk & Hr);
        [by unfold pre1; rewrite E, <- !app_assoc|lia|rewrite zlen_app, zlen_cons, zlen_app, zlen_cons; lia|].
      replace n with (k + (n - k))%nat by lia. rewrite Hr. cbn [scan]. change (1 - 1 <? 0) with false. change (1 - 1) with 0. cbn iota.
      specialize (IHt ((pre1 ++ cts) ++ [TEnd]) post (n - k)%nat).
      assert (b_toks b = ((pre1 ++ cts) ++ [TEnd]) ++ ts ++ TEnd :: post) as E' by (unfold pre1; by rewrite E, <- !app_assoc).
      destruct (split_child f s) as [[[f1 c] f2]|]; cbn [mbind option_bind]; [|apply IHt; [done|lia]].
      destruct IHt as (ts1 & nts & ts2 & -> & -> & Hf1 & Hc & Hf2); [done|lia|].
      exists (TBegin name pad :: pts ++ cts ++ TEnd :: ts1), nts, ts2.
      split; [tok_assoc|]. split; [|split; [by constructor|done]].
      do 2 f_equal. unfold pre1. tok_assoc.
Qed.

(** [fdt_subnode_offset_namelen] is the lookup of a child. *)
Lemma fdt_subnode_offset_spec off ctx t : located b off ctx t ->
  match split_child (ft_children t) s with
  | Some (f1, c, f2) => exists off', fdt_subnode_offset_namelen fuel m fdt off q (zlen s) = Done off' /\
      located b off' (Frame (ft_name t) (ft_props t) f1 f2 :: ctx) c
  | None => fdt_subnode_offset_namelen fuel m fdt off q (zlen s) = Done (- FDT_ERR_NOTFOUND)
  end.
Proof.
  intros (pre & nts & post & E & -> & Hctx & pad & pts & cts & -> & Hps & Hcs). cbn [app] in E.
  rewrite <- !app_assoc in E. cbn [app] in E. destruct (struct_bounds _ _ _ H) as (_ & _ & Hp & _).
  destruct (fuel_facts _ _ _ _ _ _ H E Hfu) as (_ & Hf2 & Hlen). rewrite zlen_cons in Hlen. cbn [length] in Hf2. rewrite !length_app in Hf2.
  destruct (ba_ok _ _ _ H) as [_ _ Bo Bst _ _ _ _]. destruct (struct_bounds _ _ _ H) as (_ & Hb40 & _). pose proof (zlen_nonneg (b_strings b)).
  unfold fdt_subnode_offset_namelen. rewrite (ro_probe_spec _ _ _ H), bind_Done. bdec. assert (fuel = S (pred fuel)) as Ek by lia.
  assert (fdt_subnode_loop fuel fuel m fdt (pos pre) 0 q (zlen s) = resume_at (S (pred fuel)) (pos pre, Some 0)) as -> by (by rewrite <- Ek).
  rewrite (resume_pass (pred fuel) pre (ft_name t) pad (pts ++ cts ++ TEnd :: post)) by (done || lia).
  rewrite (scan_props _ _ _ _ _ _ Hps).
  pose proof (resume_find _ _ Hcs ((pre ++ [TBegin (ft_name t) pad]) ++ pts) post (pred fuel)) as L.
  destruct (split_child (ft_children t) s) as [[[f1 c] f2]|]; [|apply L; [by rewrite E, <- !app_assoc|lia]].
  destruct L as (ts1 & nts & ts2 & -> & -> & H1 & Hc & H2); [by rewrite E, <- !app_assoc|lia|].
  eexists. split; [done|]. exists (pre ++ TBegin (ft_name t) pad :: pts ++ ts1), nts, (ts2 ++ TEnd :: post).
  tok_norm. split; [by rewrite E, <- !app_assoc|]. split; [done|]. split; [by constructor|done].
Qed.
End subnodes.

(** ** Visiting the children *)
Section children.
Context (m : mem) (fdt : Z) (b : blob) (fuel : nat) (H : blob_at m fdt b) (Hfu : walk_fuel b fuel).
#[local] Set Default Proof Using "Type*".
Implicit Types (pre post ts : list token) (f : list fdt_tree).

(** [fdt_next_subnode] goes on from what a scan found. *)
Definition next_at (n : nat) (r : Z * option Z) : outcome Z :=
  if (r.1 <? 0) || (default 0 r.2 <? 1) then Done (- FDT_ERR_NOTFOUND)
  else if 1 <? default 0 r.2 then next_subnode_loop n fuel m fdt r.1 (default 0 r.2) else Done r.1.

Lemma next_pass n pre name pad post d :
  b_toks b = pre ++ TBegin name pad :: post -> 2 <= d -> d + zlen post < 2 ^ 31 ->
  next_at (S n) (pos pre, Some d) = next_at n (scan (pre ++ [TBegin name pad]) post (Some d)).
Proof.
  intros E Hd Hd31. pose proof (pos_nonneg pre). unfold next_at at 1. cbn [fst snd default id]. bdec. cbn [orb next_subnode_loop].
  rewrite (next_node_spec fuel m fdt b pre name pad post) by (done || split; lia). rewrite bind_Done. by destruct (scan _ _ _).
Qed.

(** What a scan at the depth of the parent's children finds. *)
Lemma scan_siblings f ts pre post :
  forest_toks (b_strings b) f ts ->
  match f with
  | [] => scan pre (ts ++ TEnd :: post) (Some 0) = (pos (pre ++ ts ++ [TEnd]), Some (-1))
  | c :: f' => exists ts1 nts ts2, ts = ts1 ++ nts ++ ts2 /\ forest_toks (b_strings b) [] ts1 /\
      scan pre (ts ++ TEnd :: post) (Some 0) = (pos (pre ++ ts1), Some 1) /\
      node_toks (b_strings b) c nts /\ forest_toks (b_strings b) f' ts2
  end.
Proof.
  intros Hf. revert pre. induction Hf as [|f ts _ IH|name pad ps cs f pts cts ts Hps Hcs _ Hts _]; intros pre.
  - done.
  - cbn [app scan]. specialize (IH (pre ++ [TNop])). destruct f as [|c f].
    + rewrite IH. tok_norm. done.
    + destruct IH as (ts1 & nts & ts2 & -> & H1 & -> & Hc & H2). exists (TNop :: ts1), nts, ts2.
      split; [done|]. split; [by constructor|]. split; [by tok_norm|done].
  - exists [], (TBegin name pad :: pts ++ cts ++ [TEnd]), ts. split; [tok_assoc|]. split; [constructor|].
    split; [cbn [app scan option_map]; by rewrite app_nil_r|]. split; [by exists pad, pts, cts|done].
Qed.

(** The next child, as a node in its surroundings. *)
Definition next_child (ctx : list frame) (fr : frame) (c : fdt_tree) (off : Z) : Prop :=
  match fr_after fr with
  | [] => off = - FDT_ERR_NOTFOUND
  | c' :: f' => located b off (Frame (fr_name fr) (fr_props fr) (fr_before fr ++ [c]) f' :: ctx) c'
  end.

Lemma fdt_next_subnode_spec off ctx fr c : located b off (fr :: ctx) c ->
  exists off', fdt_next_subnode fuel m fdt off = Done off' /\ next_child ctx fr c off'.
Proof.
  intros (pre & nts & post & E & -> & Hctx & pad & pts & cts & -> & Hps & Hcs).
  inversion Hctx as [|? pre0 post0 nm pad0 ps pts0 f1 ts1 f2 ts2 Hctx0 Hps0 H1 H2]; subst.
  set (pre := pre0 ++ TBegin nm pad0 :: pts0 ++ ts1) in *. set (pre1 := (pre ++ [TBegin (ft_name c) pad]) ++ pts).
  assert (b_toks b = pre ++ TBegin (ft_name c) pad :: pts ++ cts ++ TEnd :: ts2 ++ TEnd :: post0) as E1 by (rewrite E; tok_assoc).
  destruct (fuel_facts _ _ _ _ _ _ H E1 Hfu) as (_ & Hf & Hlen). rewrite zlen_cons, !zlen_app, zlen_cons, zlen_app, zlen_cons in Hlen.
  cbn [length] in Hf. rewrite !length_app in Hf. cbn [length] in Hf. rewrite length_app in Hf. cbn [length] in Hf.
  pose proof (zlen_nonneg pts). pose proof (zlen_nonneg cts). pose proof (zlen_nonneg ts2). pose proof (zlen_nonneg post0).
  assert (fdt_next_subnode fuel m fdt (pos pre) = next_at (pred fuel) (scan pre1 (cts ++ TEnd :: ts2 ++ TEnd :: post0) (Some 1))) as ->.
  { assert (fuel = S (pred fuel)) as Ek by lia. unfold fdt_next_subnode. rewrite Ek at 1. cbn [next_subnode_loop].
    rewrite (next_node_spec fuel m fdt b pre (ft_name c) pad _ (Some 1) H E1 Hfu), bind_Done by (split; [lia|rewrite !zlen_app, zlen_cons, zlen_app, zlen_cons; lia]).
    rewrite (scan_props _ _ _ _ _ _ Hps). fold pre1. by destruct (scan _ _ _). }
  destruct (forest_passed b next_at next_pass (ft_children c) cts Hcs pre1 (TEnd :: ts2 ++ TEnd :: post0) 1) as (k & Hk & Hr);
    [unfold pre1; rewrite E1; tok_assoc|lia|rewrite zlen_app, zlen_cons, zlen_app, zlen_cons; lia|].
  replace (pred fuel) with (k + (pred fuel - k))%nat by lia. rewrite Hr. cbn [scan]. change (1 - 1 <? 0) with false. change (1 - 1) with 0. cbn iota.
  set (pre2 := (pre1 ++ cts) ++ [TEnd]). pose proof (scan_siblings f2 ts2 pre2 post0 H2) as L. unfold next_child. cbn [fr_after fr_name fr_props fr_before].
  destruct f2 as [|c' f2].
  - rewrite L. eexists. split; [|done]. unfold next_at. cbn [fst snd default id]. by rewrite orb_true_r.
  - destruct L as (ts3 & nts & ts4 & -> & Hts3 & -> & Hc' & Hts4). pose proof (pos_nonneg (pre2 ++ ts3)). eexists.
    split; [unfold next_at; cbn [fst snd default id]; bdec; reflexivity|].
    exists (pre0 ++ TBegin nm pad0 :: pts0 ++ (ts1 ++ (TBegin (ft_name c) pad :: pts ++ cts ++ [TEnd]) ++ ts3)), nts, (ts4 ++ TEnd :: post0).
    split; [unfold pre in E1; rewrite E1; tok_assoc|]. split; [unfold pre2, pre1, pre; f_equal; tok_assoc|]. split; [|done].
    constructor; [done|done| |done]. apply forest_toks_app; [done|]. apply node_forest; [by exists pad, pts, cts|done].
Qed.

Lemma fdt_first_subnode_spec off ctx t : located b off ctx t ->
  exists off', fdt_first_subnode fuel m fdt off = Done off' /\
    match ft_children t with
    | [] => off' = - FDT_ERR_NOTFOUND
    | c :: f => located b off' (Frame (ft_name t) (ft_props t) [] f :: ctx) c
    end.
Proof.
  intros (pre & nts & post & E & -> & Hctx & pad & pts & cts & -> & Hps & Hcs).
  assert (b_toks b = pre ++ TBegin (ft_name t) pad :: pts ++ cts ++ TEnd :: post) as E1 by (rewrite E; tok_assoc).
  destruct (fuel_facts _ _ _ _ _ _ H E1 Hfu) as (_ & _ & Hlen). rewrite zlen_cons in Hlen.
  unfold fdt_first_subnode. rewrite (next_node_spec fuel m fdt b pre _ pad _ (Some 0) H E1 Hfu), bind_Done by (split; lia).
  rewrite (scan_props _ _ _ _ _ _ Hps). set (pre1 := (pre ++ [TBegin (ft_name t) pad]) ++ pts).
  pose proof (scan_siblings _ cts pre1 post Hcs) as L. destruct (ft_children t) as [|c f].
  - rewrite L. eexists. split; [|done]. by rewrite bool_decide_false, orb_true_r.
  - destruct L as (ts1 & nts & ts2 & -> & H1 & -> & Hc & H2). pose proof (pos_nonneg (pre1 ++ ts1)). eexists.
    split; [rewrite bool_decide_true by done; bdec; reflexivity|].
    exists (pre ++ TBegin (ft_name t) pad :: pts ++ ts1), nts, (ts2 ++ TEnd :: post).
    split; [rewrite E1; tok_assoc|]. split; [unfold pre1; f_equal; tok_assoc|]. split; [by constructor|done].
Qed.
End children.

(** ** Paths *)
Section paths.
Implicit Types (m : mem) (b : blob) (t : fdt_tree) (s : list Z).

Lemma skip_slash_spec fuel m p s :
  cstr_at m p s -> s <> [] -> (length s < fuel)%nat ->
  exists n s', s = replicate n 47 ++ s' /\ head s' <> Some 47 /\
    skip_slash_loop fuel m p (p + zlen s) = Done (match s' with [] => None | _ => Some (p + Z.of_nat n) end).
Proof.
  revert p s. induction fuel as [|fuel IH]; intros p s Hs Hne Hf; [lia|]. destruct s as [|c s]; [done|]. cbn [skip_slash_loop].
  apply cstr_cons in Hs as (Hc & [Hb ?] & Hs). ld Hb. rewrite zlen_cons. pose proof (zlen_nonneg s). cbn [length] in Hf.
  destruct (Z.eqb_spec c 47) as [->|Hc47].
  - destruct s as [|c' s].
    + change (zlen (@nil Z)) with 0. rewrite Z.add_0_r, Z.eqb_refl. by exists 1%nat, [].
    + rewrite zlen_cons in *. pose proof (zlen_nonneg s). bdec. destruct (IH (p + 1) (c' :: s) Hs) as (n & s' & E & Hh & Hr); [done|lia|].
      exists (S n), s'. split; [by rewrite E|]. split; [done|]. rewrite zlen_cons in Hr.
      replace (p + (1 + (1 + zlen s))) with (p + 1 + (1 + zlen s)) by lia. rewrite Hr. destruct s'; [done|]. do 2 f_equal. lia.
  - exists 0%nat, (c :: s). split; [done|]. split; [cbn; congruence|]. do 2 f_equal. lia.
Qed.

Lemma component_end_memchr m p s :
  bytes_at m p s -> s <> [] -> head s <> Some 47 -> 0 < p ->
  exists w u x, s = w ++ u /\ w <> [] /\ 47 ∉ w /\ (u = [] \/ head u = Some 47) /\
    memchr m p 47 (zlen s) = Done x /\ (if x =? NULL then p + zlen s else x) = p + zlen w.
Proof.
  intros H Hne Hh Hp. unfold memchr. rewrite to_nat_zlen.
  destruct (memchr_loop_spec s m p 47 H) as [(i & Hi & Hj & ->)|[Hn ->]]; change (u8 47) with 47 in *.
  - pose proof (lookup_lt_Some _ _ _ Hi). exists (take i s), (drop i s), (p + Z.of_nat i). rewrite take_drop. repeat split.
    + intros E. apply (f_equal length) in E. rewrite length_take in E. cbn in E. assert (i = 0)%nat as -> by lia. destruct s; naive_solver.
    + intros E. apply list_elem_of_lookup in E as [j E]. apply lookup_take_Some in E as [E ?]. by apply (Hj j).
    + right. by rewrite head_lookup, lookup_drop, Nat.add_0_r.
    + unfold NULL. bdec. unfold zlen. rewrite length_take. f_equal. lia.
  - exists s, [], NULL. rewrite app_nil_r. repeat split; [done|done|by left].
Qed.

Lemma path_components_spec n fuel m fdt b p s off ctx t :
  blob_at m fdt b -> walk_fuel b fuel -> cstr_at m p s -> 0 < p -> (length s < n)%nat -> located b off ctx t ->
  match fdt_focus ctx t (split_path [] s) with
  | Some (ctx', t') => exists off', path_components n fuel m fdt p (p + zlen s) off = Done off' /\ located b off' ctx' t'
  | None => path_components n fuel m fdt p (p + zlen s) off = Done (- FDT_ERR_NOTFOUND)
  end.
Proof.
  intros H Hfu. revert p s off ctx t. induction n as [|n IH]; intros p s off ctx t Hs Hp Hf Ht; [lia|]. cbn [path_components].
  destruct (decide (s = [])) as [->|Hne].
  { change (zlen (@nil Z)) with 0. bdec. cbn. by exists off. }
  assert (0 < zlen s) by (destruct s; [done|rewrite zlen_cons; pose proof (zlen_nonneg s); lia]). bdec.
  destruct (skip_slash_spec (S (Z.to_nat (p + zlen s - p))) m p s Hs Hne) as (k & s' & -> & Hh & ->); [unfold zlen; lia|].
  rewrite bind_Done, split_path_slashes. destruct (decide (s' = [])) as [->|Hne']; [by exists off|].
  replace (match s' with [] => None | _ => Some (p + Z.of_nat k) end) with (Some (p + Z.of_nat k)) by (by destruct s').
  pose proof (cstr_at_drop _ _ _ _ Hs) as Hs'. rewrite zlen_app, zlen_replicate, Z.add_assoc in *.
  pose proof (cstr_at_bytes _ _ _ Hs') as Hb'.
  destruct (component_end_memchr m (p + Z.of_nat k) s' Hb') as (w & u & x & -> & Hw & Hsl & Hu & Hchr & Hend); [done..|lia|].
  replace (p + Z.of_nat k + zlen (w ++ u) - (p + Z.of_nat k)) with (zlen (w ++ u)) by lia.
  rewrite Hchr, bind_Done. cbv zeta. rewrite Hend, split_path_word, app_nil_l, (split_path_break _ _ Hw Hu) by done.
  replace (p + Z.of_nat k + zlen w - (p + Z.of_nat k)) with (zlen w) by lia. cbn [fdt_focus].
  apply bytes_at_app in Hb' as [Hwb _].
  pose proof (fdt_subnode_offset_spec m fdt b fuel (p + Z.of_nat k) w H Hfu Hwb ltac:(lia) off ctx t Ht) as L.
  destruct (split_child (ft_children t) w) as [[[f1 c] f2]|]; cbn [mbind option_bind].
  2: { rewrite L, bind_Done. unfold FDT_ERR_NOTFOUND. by bdec. }
  destruct L as (off1 & -> & Hc). rewrite bind_Done. assert (0 <= off1) by (destruct Hc as (pre & _ & _ & _ & -> & _); apply pos_nonneg). bdec.
  specialize (IH (p + Z.of_nat k + zlen w) u off1 (Frame (ft_name t) (ft_props t) f1 f2 :: ctx) c). rewrite <- (Z.add_assoc _ (zlen w)), <- zlen_app in IH.
  apply cstr_at_drop in Hs'. rewrite !length_app, length_replicate in Hf. pose proof (zlen_nonneg w).
  assert (length w <> 0)%nat by (destruct w; cbn; [done|lia]). apply IH; [done|lia|lia|done].
Qed.

(** An absolute path names the node that the walk of the tree ends at. *)
Lemma fdt_path_offset_absolute r fuel m fdt b t path s :
  fdt_at m fdt b t -> walk_fuel b fuel -> cstr_at m path (47 :: s) -> 0 < path ->
  match fdt_focus [] t (split_path [] s) with
  | Some (ctx, t') => exists off, fdt_path_offset r fuel m fdt path = Done off /\ located b off ctx t'
  | None => fdt_path_offset r fuel m fdt path = Done (- FDT_ERR_NOTFOUND)
  end.
Proof.
  intros Hat Hfu Hs Hp. pose proof (located_root _ _ _ _ Hat) as Hroot. destruct Hat as [H _].
  pose proof (path_components_spec (S (Z.to_nat (zlen (47 :: s)))) fuel m fdt b path (47 :: s) 0 [] t H Hfu Hs Hp) as L.
  change (split_path [] (47 :: s)) with (split_path [] s) in L.
  unfold fdt_path_offset. rewrite (strlen_spec _ _ _ Hs), bind_Done. unfold fdt_path_offset_namelen.
  destruct (ba_ok _ _ _ H) as [_ _ Bo _ _ _ _ _]. destruct (struct_bounds _ _ _ H) as (_ & Hb40 & Hp0 & _).
  unfold walk_fuel in Hfu. destruct fuel as [|k]; [lia|]. cbn [path_offset_namelen].
  rewrite (ro_probe_spec _ _ _ H), bind_Done. pose proof (bo_strings _ (ba_ok _ _ _ H)). pose proof (zlen_nonneg (b_strings b)). bdec.
  apply cstr_cons in Hs as (_ & [Hc ?] & _). ld Hc. change (negb (47 =? 47)) with false. cbn iota.
  apply L; [|done]. unfold zlen. cbn [length]. lia.
Qed.
End paths.
