(* ===== verification/FdtRw.v ===== *)
(** * Flattened device trees: changing (src/libfdt/fdt_rw.c, fdt_wip.c, fdt_addresses.c)

    A change makes room in the blob with [fdt_splice_], which moves everything
    behind the splice point, and then corrects the header.  The functions
    return their error code and the memory; the caller gets the memory back in
    whatever state it is when an error is found. *)
From S2P Require Import Prelude Machine CString Fdt.

(** ** The header fields that change *)
Definition fdt_set_magic (m : mem) (fdt val : Z) : outcome mem := fdt32_st m fdt (u32 val).
Definition fdt_set_totalsize (m : mem) (fdt val : Z) : outcome mem := fdt32_st m (fdt + 4) (u32 val).
Definition fdt_set_off_dt_struct (m : mem) (fdt val : Z) : outcome mem := fdt32_st m (fdt + 8) (u32 val).
Definition fdt_set_off_dt_strings (m : mem) (fdt val : Z) : outcome mem := fdt32_st m (fdt + 12) (u32 val).
Definition fdt_set_off_mem_rsvmap (m : mem) (fdt val : Z) : outcome mem := fdt32_st m (fdt + 16) (u32 val).
Definition fdt_set_version (m : mem) (fdt val : Z) : outcome mem := fdt32_st m (fdt + 20) (u32 val).
Definition fdt_set_last_comp_version (m : mem) (fdt val : Z) : outcome mem := fdt32_st m (fdt + 24) (u32 val).
Definition fdt_set_boot_cpuid_phys (m : mem) (fdt val : Z) : outcome mem := fdt32_st m (fdt + 28) (u32 val).
Definition fdt_set_size_dt_strings (m : mem) (fdt val : Z) : outcome mem := fdt32_st m (fdt + 32) (u32 val).
Definition fdt_set_size_dt_struct (m : mem) (fdt val : Z) : outcome mem := fdt32_st m (fdt + 36) (u32 val).

(** ** Probing *)
Definition fdt_blocks_misordered_ (m : mem) (fdt mem_rsv_size struct_size : Z) : outcome bool :=
  rsv ← fdt_off_mem_rsvmap m fdt;
  str ← fdt_off_dt_struct m fdt;
  strs ← fdt_off_dt_strings m fdt;
  size ← fdt_size_dt_strings m fdt;
  total ← fdt_totalsize m fdt;
  Done ((rsv <? ALIGN_UP 32 40 8) || (str <? u32 (rsv + mem_rsv_size)) || (strs <? u32 (str + struct_size)) ||
        (total <? u32 (strs + size))).

Definition fdt_rw_probe_ (m : mem) (fdt : Z) : outcome (Z * mem) :=
  probe ← fdt_ro_probe_ m fdt;
  if probe <? 0 then Done (probe, m) else
  version ← fdt_version m fdt;
  if version <? 17 then Done (- FDT_ERR_BADVERSION, m) else
  size ← fdt_size_dt_struct m fdt;
  bad ← fdt_blocks_misordered_ m fdt 16 (s32 size);
  if bad : bool then Done (- FDT_ERR_BADLAYOUT, m) else
  m ← (if 17 <? version then fdt_set_version m fdt 17 else Done m);
  Done (0, m).

Definition fdt_data_size_ (m : mem) (fdt : Z) : outcome Z :=
  off ← fdt_off_dt_strings m fdt;
  size ← fdt_size_dt_strings m fdt;
  Done (u32 (off + size)).

(** ** Making room *)
Definition fdt_splice_ (m : mem) (fdt p oldlen newlen : Z) : outcome (Z * mem) :=
  dsize ← fdt_data_size_ m fdt;
  let soff := u32 (p - fdt) in
  if (oldlen <? 0) || (u32 (soff + oldlen) <? soff) || (dsize <? u32 (soff + oldlen)) then Done (- FDT_ERR_BADOFFSET, m) else
  if (p <? fdt) || (u32 (dsize + newlen) <? u32 oldlen) then Done (- FDT_ERR_BADOFFSET, m) else
  total ← fdt_totalsize m fdt;
  if total <? u32 (dsize - oldlen + newlen) then Done (- FDT_ERR_NOSPACE, m) else
  '(_, m) ← memmove m (p + newlen) (p + oldlen) (fdt + dsize - (p + oldlen));
  Done (0, m).

Definition fdt_splice_mem_rsv_ (m : mem) (fdt p oldn newn : Z) : outcome (Z * mem) :=
  let delta := s32 ((newn - oldn) * 16) in
  '(err, m) ← fdt_splice_ m fdt p (oldn * 16) (newn * 16);
  if negb (err =? 0) then Done (err, m) else
  off ← fdt_off_dt_struct m fdt;
  m ← fdt_set_off_dt_struct m fdt (off + delta);
  off ← fdt_off_dt_strings m fdt;
  m ← fdt_set_off_dt_strings m fdt (off + delta);
  Done (0, m).

Definition fdt_splice_struct_ (m : mem) (fdt p oldlen newlen : Z) : outcome (Z * mem) :=
  let delta := s32 (newlen - oldlen) in
  '(err, m) ← fdt_splice_ m fdt p oldlen newlen;
  if negb (err =? 0) then Done (err, m) else
  size ← fdt_size_dt_struct m fdt;
  m ← fdt_set_size_dt_struct m fdt (size + delta);
  off ← fdt_off_dt_strings m fdt;
  m ← fdt_set_off_dt_strings m fdt (off + delta);
  Done (0, m).

Definition fdt_del_last_string_ (m : mem) (fdt s : Z) : outcome mem :=
  l ← strlen m s;
  size ← fdt_size_dt_strings m fdt;
  fdt_set_size_dt_strings m fdt (size - (l + 1)).

Definition fdt_splice_string_ (m : mem) (fdt newlen : Z) : outcome (Z * mem) :=
  off ← fdt_off_dt_strings m fdt;
  size ← fdt_size_dt_strings m fdt;
  '(err, m) ← fdt_splice_ m fdt (u32 (fdt + off + size)) 0 newlen;
  if negb (err =? 0) then Done (err, m) else
  size ← fdt_size_dt_strings m fdt;
  m ← fdt_set_size_dt_strings m fdt (size + newlen);
  Done (0, m).

(** The offset of the string or the error, [*allocated], the memory. *)
Definition fdt_find_add_string_ (m : mem) (fdt s : Z) : outcome (Z * bool * mem) :=
  off ← fdt_off_dt_strings m fdt;
  size ← fdt_size_dt_strings m fdt;
  let strtab := u32 (fdt + off) in
  l ← strlen m s;
  let len := l + 1 in
  p ← fdt_find_string_ m strtab (s32 size) s;
  if negb (p =? NULL) then Done (s32 (p - strtab), false, m) else
  let new := u32 (strtab + size) in
  '(err, m) ← fdt_splice_string_ m fdt len;
  if negb (err =? 0) then Done (err, false, m) else
  '(_, m) ← memcpy m new s len;
  Done (s32 (new - strtab), true, m).

(** ** Memory reservations *)
Definition fdt_add_mem_rsv (fuel : nat) (m : mem) (fdt address size : Z) : outcome (Z * mem) :=
  '(err, m) ← fdt_rw_probe_ m fdt;
  if negb (err =? 0) then Done (err, m) else
  n ← fdt_num_mem_rsv fuel m fdt;
  re ← fdt_mem_rsv_ m fdt n;
  '(err, m) ← fdt_splice_mem_rsv_ m fdt re 0 1;
  if negb (err =? 0) then Done (err, m) else
  m ← fdt64_st m re (u64 address);
  m ← fdt64_st m (re + 8) (u64 size);
  Done (0, m).

Definition fdt_del_mem_rsv (fuel : nat) (m : mem) (fdt n : Z) : outcome (Z * mem) :=
  re ← fdt_mem_rsv_ m fdt n;
  '(err, m) ← fdt_rw_probe_ m fdt;
  if negb (err =? 0) then Done (err, m) else
  num ← fdt_num_mem_rsv fuel m fdt;
  if num <=? n then Done (- FDT_ERR_NOTFOUND, m) else fdt_splice_mem_rsv_ m fdt re 1 0.

(** ** Properties *)

(** The result, [*prop] and the memory. *)
Definition fdt_resize_property_ (fuel : nat) (m : mem) (fdt nodeoffset name len : Z) : outcome (Z * Z * mem) :=
  '(prop, oldlen) ← fdt_get_property fuel m fdt nodeoffset name;
  if prop =? NULL then Done (oldlen, prop, m) else
  '(err, m) ← fdt_splice_struct_ m fdt (prop_data prop) (FDT_TAGALIGN oldlen) (FDT_TAGALIGN len);
  if negb (err =? 0) then Done (err, prop, m) else
  m ← fdt32_st m (prop + 4) (u32 len);
  Done (0, prop, m).

(** The second half of [fdt_add_property_]: the name is at [namestroff]. *)
Definition add_property_at (m : mem) (fdt nextoffset name len namestroff : Z) (allocated : bool) : outcome (Z * Z * mem) :=
  prop ← fdt_offset_ptr_ m fdt nextoffset;
  let proplen := s32 (12 + FDT_TAGALIGN len) in
  '(err, m) ← fdt_splice_struct_ m fdt prop 0 proplen;
  if negb (err =? 0) then
    m ← (if allocated then fdt_del_last_string_ m fdt name else Done m);
    Done (err, prop, m)
  else
    m ← fdt32_st m prop FDT_PROP;
    m ← fdt32_st m (prop + 8) (u32 namestroff);
    m ← fdt32_st m (prop + 4) (u32 len);
    Done (0, prop, m).

Definition fdt_add_property_ (fuel : nat) (m : mem) (fdt nodeoffset name len : Z) : outcome (Z * Z * mem) :=
  nextoffset ← fdt_check_node_offset_ fuel m fdt nodeoffset;
  if nextoffset <? 0 then Done (nextoffset, NULL, m) else
  '(namestroff, allocated, m) ← fdt_find_add_string_ m fdt name;
  if namestroff <? 0 then Done (namestroff, NULL, m) else
  add_property_at m fdt nextoffset name len namestroff allocated.

Definition fdt_set_name (fuel : nat) (m : mem) (fdt nodeoffset name : Z) : outcome (Z * mem) :=
  '(err, m) ← fdt_rw_probe_ m fdt;
  if negb (err =? 0) then Done (err, m) else
  '(namep, oldlen) ← fdt_get_name fuel m fdt nodeoffset;
  if namep =? NULL then Done (oldlen, m) else
  newlen ← strlen m name;
  '(err, m) ← fdt_splice_struct_ m fdt namep (FDT_TAGALIGN (oldlen + 1)) (FDT_TAGALIGN (newlen + 1));
  if negb (err =? 0) then Done (err, m) else
  '(_, m) ← memcpy m namep name (newlen + 1);
  Done (0, m).

(** The result, [*prop_data] and the memory. *)
Definition fdt_setprop_placeholder (fuel : nat) (m : mem) (fdt nodeoffset name len : Z) : outcome (Z * Z * mem) :=
  '(err, m) ← fdt_rw_probe_ m fdt;
  if negb (err =? 0) then Done (err, NULL, m) else
  '(err, prop, m) ← fdt_resize_property_ fuel m fdt nodeoffset name len;
  '(err, prop, m) ← (if err =? - FDT_ERR_NOTFOUND then fdt_add_property_ fuel m fdt nodeoffset name len else Done (err, prop, m));
  if negb (err =? 0) then Done (err, NULL, m) else Done (0, prop_data prop, m).

Definition fdt_setprop (fuel : nat) (m : mem) (fdt nodeoffset name val len : Z) : outcome (Z * mem) :=
  '(err, prop_data, m) ← fdt_setprop_placeholder fuel m fdt nodeoffset name len;
  if negb (err =? 0) then Done (err, m) else
  m ← (if negb (len =? 0) then '(_, m) ← memcpy m prop_data val (u32 len); Done m else Done m);
  Done (0, m).

Definition fdt_appendprop (fuel : nat) (m : mem) (fdt nodeoffset name val len : Z) : outcome (Z * mem) :=
  '(err, m) ← fdt_rw_probe_ m fdt;
  if negb (err =? 0) then Done (err, m) else
  '(prop, oldlen) ← fdt_get_property fuel m fdt nodeoffset name;
  if negb (prop =? NULL) then
    let newlen := s32 (len + oldlen) in
    '(err, m) ← fdt_splice_struct_ m fdt (prop_data prop) (FDT_TAGALIGN oldlen) (FDT_TAGALIGN newlen);
    if negb (err =? 0) then Done (err, m) else
    m ← fdt32_st m (prop + 4) (u32 newlen);
    '(_, m) ← memcpy m (prop_data prop + oldlen) val (u32 len);
    Done (0, m)
  else
    '(err, prop, m) ← fdt_add_property_ fuel m fdt nodeoffset name len;
    if negb (err =? 0) then Done (err, m) else
    '(_, m) ← memcpy m (prop_data prop) val (u32 len);
    Done (0, m).

Definition fdt_delprop (fuel : nat) (m : mem) (fdt nodeoffset name : Z) : outcome (Z * mem) :=
  '(err, m) ← fdt_rw_probe_ m fdt;
  if negb (err =? 0) then Done (err, m) else
  '(prop, len) ← fdt_get_property fuel m fdt nodeoffset name;
  if prop =? NULL then Done (len, m) else
  fdt_splice_struct_ m fdt prop (s32 (12 + FDT_TAGALIGN len)) 0.

(** ** Nodes *)

(** The loop over the properties of the parent: where the new node goes. *)
Fixpoint past_properties_loop (n fuel : nat) (m : mem) (fdt nextoffset : Z) : outcome Z :=
  match n with
  | O => Stuck
  | S n' =>
      let offset := nextoffset in
      '(tag, nextoffset) ← fdt_next_tag fuel m fdt offset;
      if (tag =? FDT_PROP) || (tag =? FDT_NOP) then past_properties_loop n' fuel m fdt nextoffset else Done offset
  end.

Definition fdt_add_subnode_namelen (fuel : nat) (m : mem) (fdt parentoffset name namelen : Z) : outcome (Z * mem) :=
  '(err, m) ← fdt_rw_probe_ m fdt;
  if negb (err =? 0) then Done (err, m) else
  offset ← fdt_subnode_offset_namelen fuel m fdt parentoffset name namelen;
  if 0 <=? offset then Done (- FDT_ERR_EXISTS, m) else
  if negb (offset =? - FDT_ERR_NOTFOUND) then Done (offset, m) else
  '(_, nextoffset) ← fdt_next_tag fuel m fdt parentoffset;
  offset ← past_properties_loop fuel fuel m fdt nextoffset;
  nh ← fdt_offset_ptr_ m fdt offset;
  let nodelen := s32 (4 + FDT_TAGALIGN (namelen + 1) + FDT_TAGSIZE) in
  '(err, m) ← fdt_splice_struct_ m fdt nh 0 nodelen;
  if negb (err =? 0) then Done (err, m) else
  m ← fdt32_st m nh FDT_BEGIN_NODE;
  '(_, m) ← memset m (nh + 4) 0 (u32 (FDT_TAGALIGN (namelen + 1)));
  '(_, m) ← memcpy m (nh + 4) name (u32 namelen);
  m ← fdt32_st m (nh + nodelen - FDT_TAGSIZE) FDT_END_NODE;
  Done (offset, m).

Definition fdt_add_subnode (fuel : nat) (m : mem) (fdt parentoffset name : Z) : outcome (Z * mem) :=
  l ← strlen m name; fdt_add_subnode_namelen fuel m fdt parentoffset name l.

(** fdt_wip.c: the offset behind the node, or the error. *)
Fixpoint node_end_loop (n fuel : nat) (m : mem) (fdt offset depth : Z) : outcome Z :=
  match n with
  | O => Stuck
  | S n' =>
      if (0 <=? offset) && (0 <=? depth) then
        '(offset, depth) ← fdt_next_node fuel m fdt offset (Some depth);
        node_end_loop n' fuel m fdt offset (default 0 depth)
      else Done offset
  end.

Definition fdt_node_end_offset_ (fuel : nat) (m : mem) (fdt offset : Z) : outcome Z :=
  node_end_loop fuel fuel m fdt offset 0.

Definition fdt_del_node (fuel : nat) (m : mem) (fdt nodeoffset : Z) : outcome (Z * mem) :=
  '(err, m) ← fdt_rw_probe_ m fdt;
  if negb (err =? 0) then Done (err, m) else
  endoffset ← fdt_node_end_offset_ fuel m fdt nodeoffset;
  if endoffset <? 0 then Done (endoffset, m) else
  p ← fdt_offset_ptr_ m fdt nodeoffset;
  fdt_splice_struct_ m fdt p (endoffset - nodeoffset) 0.

(** ** The layout of the whole blob *)
Definition fdt_packblocks_ (m : mem) (old new mem_rsv_size struct_size : Z) : outcome mem :=
  let mem_rsv_off := ALIGN_UP 32 40 8 in
  let struct_off := mem_rsv_off + mem_rsv_size in
  let strings_off := struct_off + struct_size in
  off ← fdt_off_mem_rsvmap m old;
  '(_, m) ← memmove m (new + mem_rsv_off) (old + off) (u32 mem_rsv_size);
  m ← fdt_set_off_mem_rsvmap m new mem_rsv_off;
  off ← fdt_off_dt_struct m old;
  '(_, m) ← memmove m (new + struct_off) (old + off) (u32 struct_size);
  m ← fdt_set_off_dt_struct m new struct_off;
  m ← fdt_set_size_dt_struct m new struct_size;
  off ← fdt_off_dt_strings m old;
  size ← fdt_size_dt_strings m old;
  '(_, m) ← memmove m (new + strings_off) (old + off) size;
  m ← fdt_set_off_dt_strings m new strings_off;
  size ← fdt_size_dt_strings m old;
  fdt_set_size_dt_strings m new size.

(** The scan of [fdt_open_into] for the end of a structure block without a
    size: the last [*nextoffset]. *)
Fixpoint struct_size_loop (n fuel : nat) (m : mem) (fdt struct_size : Z) : outcome Z :=
  match n with
  | O => Stuck
  | S n' =>
      '(tag, struct_size) ← fdt_next_tag fuel m fdt struct_size;
      if negb (tag =? FDT_END) then struct_size_loop n' fuel m fdt struct_size else Done struct_size
  end.

Definition fdt_open_into (fuel : nat) (m : mem) (fdt buf bufsize : Z) : outcome (Z * mem) :=
  total ← fdt_totalsize m fdt;
  let fdtend := u32 (fdt + total) in
  probe ← fdt_ro_probe_ m fdt;
  if probe <? 0 then Done (probe, m) else
  rsv ← fdt_num_mem_rsv fuel m fdt;
  let mem_rsv_size := s32 ((rsv + 1) * 16) in
  version ← fdt_version m fdt;
  struct_size ← (if 17 <=? version then size ← fdt_size_dt_struct m fdt; Done (s32 size)
                 else struct_size_loop fuel fuel m fdt 0);
  if (version <? 17) && (struct_size <? 0) then Done (struct_size, m) else
  bad ← fdt_blocks_misordered_ m fdt mem_rsv_size struct_size;
  if negb (bad : bool) then
    '(err, m) ← fdt_move m fdt buf bufsize;
    if negb (err =? 0) then Done (err, m) else
    m ← fdt_set_version m buf 17;
    m ← fdt_set_size_dt_struct m buf struct_size;
    m ← fdt_set_totalsize m buf bufsize;
    Done (0, m)
  else
    strsize ← fdt_size_dt_strings m fdt;
    let newsize := s32 (ALIGN_UP 32 40 8 + mem_rsv_size + struct_size + strsize) in
    if bufsize <? newsize then Done (- FDT_ERR_NOSPACE, m) else
    let overlaps := (fdt <? u32 (buf + newsize)) && (buf <? fdtend) in
    let tmp := if overlaps then fdtend else buf in
    if overlaps && (u32 (buf + bufsize) <? u32 (tmp + newsize)) then Done (- FDT_ERR_NOSPACE, m) else
    m ← fdt_packblocks_ m fdt tmp mem_rsv_size struct_size;
    '(_, m) ← memmove m buf tmp (u32 newsize);
    m ← fdt_set_magic m buf FDT_MAGIC;
    m ← fdt_set_totalsize m buf bufsize;
    m ← fdt_set_version m buf 17;
    m ← fdt_set_last_comp_version m buf 16;
    cpu ← fdt_boot_cpuid_phys m fdt;
    m ← fdt_set_boot_cpuid_phys m buf cpu;
    Done (0, m).

Definition fdt_pack (fuel : nat) (m : mem) (fdt : Z) : outcome (Z * mem) :=
  '(err, m) ← fdt_rw_probe_ m fdt;
  if negb (err =? 0) then Done (err, m) else
  rsv ← fdt_num_mem_rsv fuel m fdt;
  let mem_rsv_size := s32 ((rsv + 1) * 16) in
  size ← fdt_size_dt_struct m fdt;
  m ← fdt_packblocks_ m fdt fdt mem_rsv_size (s32 size);
  total ← fdt_data_size_ m fdt;
  m ← fdt_set_totalsize m fdt total;
  Done (0, m).

(** ** fdt_wip.c: writing in place *)
Definition fdt_setprop_inplace_namelen_partial (fuel : nat) (m : mem) (fdt nodeoffset name namelen idx val len : Z)
    : outcome (Z * mem) :=
  '(propval, proplen) ← fdt_getprop_namelen fuel m fdt nodeoffset name namelen;
  if propval =? NULL then Done (proplen, m) else
  if u32 proplen <? u32 (len + idx) then Done (- FDT_ERR_NOSPACE, m) else
  '(_, m) ← memcpy m (propval + idx) val (u32 len);
  Done (0, m).

Definition fdt_setprop_inplace (fuel : nat) (m : mem) (fdt nodeoffset name val len : Z) : outcome (Z * mem) :=
  '(propval, proplen) ← fdt_getprop fuel m fdt nodeoffset name;
  if propval =? NULL then Done (proplen, m) else
  if negb (proplen =? len) then Done (- FDT_ERR_NOSPACE, m) else
  l ← strlen m name;
  fdt_setprop_inplace_namelen_partial fuel m fdt nodeoffset name l 0 val len.

(** The words of the region, [n] of them left at most. *)
Fixpoint nop_region_loop (n : nat) (m : mem) (p end_ : Z) : outcome mem :=
  match n with
  | O => Stuck
  | S n' => if p <? end_ then m ← fdt32_st m p FDT_NOP; nop_region_loop n' m (u32 (p + 4)) end_ else Done m
  end.

Definition fdt_nop_region_ (m : mem) (start len : Z) : outcome mem :=
  nop_region_loop (S (Z.to_nat len)) m start (u32 (start + len)).

Definition fdt_nop_property (fuel : nat) (m : mem) (fdt nodeoffset name : Z) : outcome (Z * mem) :=
  '(prop, len) ← fdt_get_property fuel m fdt nodeoffset name;
  if prop =? NULL then Done (len, m) else
  m ← fdt_nop_region_ m prop (s32 (len + 12)); Done (0, m).

Definition fdt_nop_node (fuel : nat) (m : mem) (fdt nodeoffset : Z) : outcome (Z * mem) :=
  endoffset ← fdt_node_end_offset_ fuel m fdt nodeoffset;
  if endoffset <? 0 then Done (endoffset, m) else
  p ← fdt_offset_ptr m fdt nodeoffset 0;
  m ← fdt_nop_region_ m p (endoffset - nodeoffset); Done (0, m).

(** ** libfdt.h: values by type

    [tmp] is the address of the local copy of the value. *)
Definition fdt_setprop_inplace_u32 (fuel : nat) (m : mem) (tmp fdt nodeoffset name val : Z) : outcome (Z * mem) :=
  m ← fdt32_st m tmp (u32 val); fdt_setprop_inplace fuel m fdt nodeoffset name tmp 4.
Definition fdt_setprop_inplace_u64 (fuel : nat) (m : mem) (tmp fdt nodeoffset name val : Z) : outcome (Z * mem) :=
  m ← fdt64_st m tmp (u64 val); fdt_setprop_inplace fuel m fdt nodeoffset name tmp 8.
Definition fdt_setprop_inplace_cell := fdt_setprop_inplace_u32.

Definition fdt_setprop_u32 (fuel : nat) (m : mem) (tmp fdt nodeoffset name val : Z) : outcome (Z * mem) :=
  m ← fdt32_st m tmp (u32 val); fdt_setprop fuel m fdt nodeoffset name tmp 4.
Definition fdt_setprop_u64 (fuel : nat) (m : mem) (tmp fdt nodeoffset name val : Z) : outcome (Z * mem) :=
  m ← fdt64_st m tmp (u64 val); fdt_setprop fuel m fdt nodeoffset name tmp 8.
Definition fdt_setprop_cell := fdt_setprop_u32.
Definition fdt_setprop_string (fuel : nat) (m : mem) (fdt nodeoffset name str : Z) : outcome (Z * mem) :=
  l ← strlen m str; fdt_setprop fuel m fdt nodeoffset name str (s32 (l + 1)).
Definition fdt_setprop_empty (fuel : nat) (m : mem) (fdt nodeoffset name : Z) : outcome (Z * mem) :=
  fdt_setprop fuel m fdt nodeoffset name NULL 0.

Definition fdt_appendprop_u32 (fuel : nat) (m : mem) (tmp fdt nodeoffset name val : Z) : outcome (Z * mem) :=
  m ← fdt32_st m tmp (u32 val); fdt_appendprop fuel m fdt nodeoffset name tmp 4.
Definition fdt_appendprop_u64 (fuel : nat) (m : mem) (tmp fdt nodeoffset name val : Z) : outcome (Z * mem) :=
  m ← fdt64_st m tmp (u64 val); fdt_appendprop fuel m fdt nodeoffset name tmp 8.
Definition fdt_appendprop_cell := fdt_appendprop_u32.
Definition fdt_appendprop_string (fuel : nat) (m : mem) (fdt nodeoffset name str : Z) : outcome (Z * mem) :=
  l ← strlen m str; fdt_appendprop fuel m fdt nodeoffset name str (s32 (l + 1)).

(** ** fdt_addresses.c *)
Definition FDT_MAX_NCELLS : Z := 4.

(** [UINT32_MAX + 1] is computed in 32 bits, so it is 0. *)
Definition UINT32_MAX : Z := 2 ^ 32 - 1.

Definition fdt_cells (fuel : nat) (m : mem) (fdt nodeoffset name : Z) : outcome Z :=
  '(c, len) ← fdt_getprop fuel m fdt nodeoffset name;
  if c =? NULL then Done len else
  if negb (len =? 4) then Done (- FDT_ERR_BADNCELLS) else
  val ← fdt32_ld m c;
  if FDT_MAX_NCELLS <? val then Done (- FDT_ERR_BADNCELLS) else Done val.

Definition fdt_address_cells (r : fdt_rodata) (fuel : nat) (m : mem) (fdt nodeoffset : Z) : outcome Z :=
  val ← fdt_cells fuel m fdt nodeoffset (lit_address_cells r);
  Done (if val =? 0 then - FDT_ERR_BADNCELLS else if val =? - FDT_ERR_NOTFOUND then 2 else val).

Definition fdt_size_cells (r : fdt_rodata) (fuel : nat) (m : mem) (fdt nodeoffset : Z) : outcome Z :=
  val ← fdt_cells fuel m fdt nodeoffset (lit_size_cells r);
  Done (if val =? - FDT_ERR_NOTFOUND then 1 else val).

(** The checks and the stores of the address and of the size: the error, or
    nothing. *)
Definition store_address (m : mem) (prop addr_cells addr size : Z) : outcome (Z * mem) :=
  if addr_cells =? 1 then
    if (UINT32_MAX <? addr) || (u64 (u32 (UINT32_MAX + 1) - addr) <? size) then Done (- FDT_ERR_BADVALUE, m) else
    m ← fdt32_st m prop (u32 addr); Done (0, m)
  else if addr_cells =? 2 then m ← fdt64_st m prop addr; Done (0, m)
  else Done (- FDT_ERR_BADNCELLS, m).

Definition store_size (m : mem) (prop size_cells size : Z) : outcome (Z * mem) :=
  if size_cells =? 1 then
    if UINT32_MAX <? size then Done (- FDT_ERR_BADVALUE, m) else
    m ← fdt32_st m prop (u32 size); Done (0, m)
  else if size_cells =? 2 then m ← fdt64_st m prop size; Done (0, m)
  else Done (- FDT_ERR_BADNCELLS, m).

(** [data] is the address of the local array. *)
Definition fdt_appendprop_addrrange (r : fdt_rodata) (fuel : nat) (m : mem) (data fdt parent nodeoffset name addr size : Z)
    : outcome (Z * mem) :=
  addr_cells ← fdt_address_cells r fuel m fdt parent;
  if addr_cells <? 0 then Done (addr_cells, m) else
  size_cells ← fdt_size_cells r fuel m fdt parent;
  if size_cells <? 0 then Done (size_cells, m) else
  '(err, m) ← store_address m data addr_cells addr size;
  if negb (err =? 0) then Done (err, m) else
  '(err, m) ← store_size m (data + addr_cells * 4) size_cells size;
  if negb (err =? 0) then Done (err, m) else
  fdt_appendprop fuel m fdt nodeoffset name data ((addr_cells + size_cells) * 4).
