(* ===== verification/FdtRwSpec.v ===== *)
(** * Flattened device trees: what a change does

    [struct_at] says that the memory holds a blob whose structure block is a
    given list of bytes.  Making room replaces a part of that list by a part
    of another length, and a store replaces one by another of the same length;
    the header follows.  The functions of fdt_rw.c are then characterised on
    the tree. *)
From S2P Require Import Prelude Machine CString Adt Fdt FdtSpec FdtRw.

(** ** Blocks of bytes *)
Definition byte_region (m : mem) (a n : Z) : Prop :=
  forall k, a <= k < a + n -> exists x, m !! k = Some x /\ is_byte x /\ 0 <= k < 2 ^ 32.

(** The memories agree but for the [n] bytes from [a] on. *)
Definition same_outside (m m' : mem) (a n : Z) : Prop := forall k, k < a \/ a + n <= k -> m' !! k = m !! k.

Section blocks.
Implicit Types (m : mem) (bs : list Z).

Lemma byte_region_region m a n : 0 <= n -> byte_region m a n -> region m a n.
Proof. intros Hn H. apply region_intro; [done|]. intros k Hk. destruct (H k Hk) as (x & Hx & _ & ?). split; [by exists x|done]. Qed.

Lemma byte_region_sub m a n a' n' : byte_region m a n -> a <= a' -> a' + n' <= a + n -> byte_region m a' n'.
Proof. intros H ?? k Hk. apply H. lia. Qed.

Lemma byte_region_bytes m a n : 0 <= n -> byte_region m a n -> exists bs, zlen bs = n /\ are_bytes bs /\ bytes_at m a bs.
Proof.
  intros Hn H. destruct (byte_region_region _ _ _ Hn H) as (bs & Hl & Hb). exists bs. split; [done|]. split; [|done].
  apply Forall_lookup_2. intros i x Hi. destruct (bytes_at_lookup _ _ _ _ _ Hb Hi) as [Hx ?]. apply lookup_lt_Some in Hi. unfold zlen in Hl.
  destruct (H (a + Z.of_nat i)) as (y & Hy & ? & _); [lia|]. by simplify_eq.
Qed.

Lemma byte_region_write m a n k bs : byte_region m a n -> are_bytes bs -> byte_region (write_bytes m k bs) a n.
Proof.
  intros H Hb j Hj. destruct (H j Hj) as (x & Hx & ? & ?). rewrite lookup_write_bytes. case_if; b2p; [|by exists x].
  destruct (lookup_lt_is_Some_2 bs (Z.to_nat (j - k))) as [y Hy]; [unfold zlen in *; lia|]. exists y. split; [done|]. split; [|done].
  by apply (Forall_lookup_1 _ _ _ _ Hb Hy).
Qed.

Lemma same_outside_refl m a n : same_outside m m a n.
Proof. by intros k _. Qed.

Lemma same_outside_write m m' a n k bs :
  same_outside m m' a n -> a <= k -> k + zlen bs <= a + n -> same_outside m (write_bytes m' k bs) a n.
Proof. intros H ?? j Hj. rewrite lookup_write_bytes. pose proof (zlen_nonneg bs). case_if; b2p; [lia|]. by apply H. Qed.

Lemma same_outside_trans m m' m'' a n : same_outside m m' a n -> same_outside m' m'' a n -> same_outside m m'' a n.
Proof. intros H1 H2 k Hk. by rewrite H2, H1. Qed.

Lemma bytes_at_outside m m' a n p bs : same_outside m m' a n -> p + zlen bs <= a \/ a + n <= p -> bytes_at m p bs -> bytes_at m' p bs.
Proof.
  intros H Hd Hb. apply bytes_at_of_lookup. intros i x Hi. destruct (bytes_at_lookup _ _ _ _ _ Hb Hi) as [Hx ?].
  apply lookup_lt_Some in Hi. unfold zlen in Hd. by rewrite H by lia.
Qed.

(** A block replaced by another of the same length. *)
Lemma bytes_at_replace m a P old Q new :
  bytes_at m a (P ++ old ++ Q) -> zlen new = zlen old -> 0 <= a + zlen P -> a + zlen P + zlen new <= 2 ^ 32 ->
  bytes_at (write_bytes m (a + zlen P) new) a (P ++ new ++ Q).
Proof.
  intros H Hl H0 H32. apply bytes_at_app in H as [HP H]. apply bytes_at_app in H as [_ HQ].
  apply bytes_at_app. split; [apply bytes_at_write_disj; [lia|done]|]. apply bytes_at_app.
  split; [by apply bytes_at_write_eq|]. rewrite Hl. apply bytes_at_write_disj; [rewrite Hl; lia|done].
Qed.

(** What a move takes along. *)
Lemma bytes_at_moved m s d tail i bs :
  bytes_at m s tail -> bytes_at m (s + i) bs -> 0 <= i -> i + zlen bs <= zlen tail -> 0 <= d -> d + zlen tail <= 2 ^ 32 ->
  bytes_at (write_bytes m d tail) (d + i) bs.
Proof.
  intros Ht Hb Hi Hl Hd H32. apply bytes_at_of_lookup. intros j x Hj. destruct (bytes_at_lookup _ _ _ _ _ Hb Hj) as [Hx ?].
  apply lookup_lt_Some in Hj. rewrite lookup_write_bytes. unfold zlen in *. bdec. split; [|lia].
  destruct (lookup_lt_is_Some_2 tail (Z.to_nat (i + Z.of_nat j))) as [y Hy]; [lia|].
  replace (Z.to_nat (d + i + Z.of_nat j - d)) with (Z.to_nat (i + Z.of_nat j)) by lia.
  destruct (bytes_at_lookup _ _ _ _ _ Ht Hy) as [Hy' _]. rewrite Z2Nat.id, Z.add_assoc in Hy' by lia. congruence.
Qed.

(** Two readings of the same bytes agree as far as both reach. *)
Lemma bytes_at_agree m m' p l l' :
  bytes_at m' p l -> bytes_at m p l' -> (forall k, p <= k < p + zlen l -> m' !! k = m !! k) ->
  take (length l') l = take (length l) l'.
Proof.
  intros H H' Hk. apply list_eq. intros i. destruct (decide (i < length l)%nat), (decide (i < length l')%nat).
  2: { rewrite (lookup_take_ge _ _ i) by lia. by rewrite lookup_ge_None_2 by (rewrite length_take; lia). }
  2: { rewrite (lookup_take_ge _ (length l)) by lia. by rewrite lookup_ge_None_2 by (rewrite length_take; lia). }
  2: { by rewrite !lookup_take_ge by lia. }
  rewrite !lookup_take_lt by done. destruct (lookup_lt_is_Some_2 l i) as [x Hx]; [done|]. destruct (lookup_lt_is_Some_2 l' i) as [y Hy]; [done|].
  destruct (bytes_at_lookup _ _ _ _ _ H Hx) as [Hx' _]. destruct (bytes_at_lookup _ _ _ _ _ H' Hy) as [Hy' _].
  rewrite Hk in Hx' by (unfold zlen; lia). congruence.
Qed.

Lemma s32_id x : - 2 ^ 31 <= x < 2 ^ 31 -> s32 x = x.
Proof. intros. unfold signed. change (2 ^ (32 - 1)) with (2 ^ 31). case_if; b2p; lia. Qed.

Lemma be32_bytes v : are_bytes (be32 v).
Proof. unfold be32. repeat apply Forall_cons_2; try apply u8_byte. apply Forall_nil_2. Qed.

Lemma store8_mod m a v : store8 m a (v mod 2 ^ 8) = store8 m a v.
Proof. unfold store8. case_match; [|done]. unfold wrap. by rewrite Z.mod_mod by lia. Qed.

Lemma fdt32_st_spec m a v : region m a 4 -> fdt32_st m a v = Done (write_bytes m a (be32 v)).
Proof.
  intros H. change 4 with (zlen [v / 2 ^ 24; v / 2 ^ 16; v / 2 ^ 8; v]) in H. pose proof (store_bytes_u8 _ _ _ H) as L.
  change (map u8 [v / 2 ^ 24; v / 2 ^ 16; v / 2 ^ 8; v]) with (be32 v) in L. rewrite <- L. cbn [store_bytes]. unfold fdt32_st.
  rewrite !Z.shiftr_div_pow2 by lia. change 255 with (Z.ones 8). rewrite !Z.land_ones by lia.
  replace (a + 1 + 1) with (a + 2) by lia. replace (a + 2 + 1) with (a + 3) by lia.
  repeat (rewrite ?store8_mod; first [reflexivity|destruct (store8 _ _ _); [rewrite ?bind_Done|done..]]).
Qed.
End blocks.

(** ** A blob with a structure block of given bytes *)
Definition header_with (b : blob) (n : Z) : list Z :=
  [FDT_MAGIC; b_total b; b_off_struct b; b_off_strings b; b_off_rsv b; 17; b_last b; b_cpuid b; zlen (b_strings b); n].

Record struct_at (m : mem) (fdt : Z) (b : blob) (sb : list Z) : Prop := {
  sa_total : b_total b < INT32_MAX;
  sa_rsv : 40 <= b_off_rsv b /\ b_off_rsv b + 16 <= b_off_struct b;
  sa_order : b_off_struct b + zlen sb <= b_off_strings b;
  sa_fits : b_off_strings b + zlen (b_strings b) <= b_total b;
  sa_last : 0 <= b_last b <= 17;
  sa_cpuid : 0 <= b_cpuid b < 2 ^ 32;
  sa_fdt : 0 < fdt;
  sa_end : fdt + b_total b < 2 ^ 32;
  sa_header : bytes_at m fdt (flat_map be32 (header_with b (zlen sb)));
  sa_struct : bytes_at m (fdt + b_off_struct b) sb;
  sa_strings : bytes_at m (fdt + b_off_strings b) (b_strings b);
  sa_region : byte_region m fdt (b_total b);
}.

Definition with_toks (b : blob) (ts : list token) : blob :=
  Blob (b_total b) (b_off_struct b) (b_off_strings b) (b_off_rsv b) (b_last b) (b_cpuid b) ts (b_strings b).
(** The strings block moved by [d] bytes. *)
Definition shifted (b : blob) (d : Z) : blob :=
  Blob (b_total b) (b_off_struct b) (b_off_strings b + d) (b_off_rsv b) (b_last b) (b_cpuid b) (b_toks b) (b_strings b).

(** A blob that may be changed: its blocks are in order and all its bytes are
    in memory. *)
Definition rw_at (m : mem) (fdt : Z) (b : blob) : Prop :=
  struct_at m fdt b (toks_bytes (b_toks b)) /\ Forall tok_ok (b_toks b).

Section splicing.
Implicit Types (m : mem) (b : blob) (sb : list Z).

Lemma struct_at_blob m fdt b ts : struct_at m fdt b (toks_bytes ts) -> Forall tok_ok ts -> blob_at m fdt (with_toks b ts).
Proof.
  intros [Ht [Hr1 Hr2] Ho Hf Hl Hc H0 He Hh Hs Hst Hreg] Hts. split; [|done..]. pose proof (zlen_nonneg (toks_bytes ts)).
  pose proof (zlen_nonneg (b_strings b)). unfold INT32_MAX in *. split; cbn; unfold pos; try done; lia.
Qed.

Lemma rw_at_blob m fdt b : rw_at m fdt b -> blob_at m fdt b.
Proof. intros [H Hts]. apply (struct_at_blob _ _ _ _ H) in Hts. by destruct b. Qed.

Lemma struct_at_frame m m' fdt b sb :
  struct_at m fdt b sb -> (forall k, fdt <= k < fdt + b_total b -> m' !! k = m !! k) -> struct_at m' fdt b sb.
Proof.
  intros [Ht Hr Ho Hf Hl Hc H0 He Hh Hs Hst Hreg] Hk. pose proof (zlen_nonneg sb). pose proof (zlen_nonneg (b_strings b)).
  assert (zlen (flat_map be32 (header_with b (zlen sb))) = 40) as E40 by done.
  split; try done; try (eapply bytes_at_frame; [|eassumption]; intros; apply Hk; lia).
  intros k Hkr. rewrite Hk by lia. by apply Hreg.
Qed.

Lemma rw_at_frame m m' fdt b : rw_at m fdt b -> (forall k, fdt <= k < fdt + b_total b -> m' !! k = m !! k) -> rw_at m' fdt b.
Proof. intros [H Hts] Hk. split; [by eapply struct_at_frame|done]. Qed.

Lemma rw_at_intro m fdt b ts : struct_at m fdt b (toks_bytes ts) -> Forall tok_ok ts -> rw_at m fdt (with_toks b ts).
Proof. intros [] Hts. split; [by split|done]. Qed.

Lemma struct_facts m fdt b sb : struct_at m fdt b sb ->
  40 <= b_off_rsv b /\ b_off_rsv b + 16 <= b_off_struct b /\ b_off_struct b + zlen sb <= b_off_strings b /\
  b_off_strings b + zlen (b_strings b) <= b_total b /\ b_total b < 2 ^ 31 - 1 /\ 0 < fdt /\ fdt + b_total b < 2 ^ 32 /\
  0 <= zlen sb /\ 0 <= zlen (b_strings b).
Proof.
  intros [Ht [Hr1 Hr2] Ho Hf _ _ H0 He _ _ _ _]. pose proof (zlen_nonneg sb). pose proof (zlen_nonneg (b_strings b)).
  unfold INT32_MAX in *. lia.
Qed.

(** Two headers agree where the blobs do. *)
Lemma header_sizes m fdt b sb : struct_at m fdt b sb ->
  fdt_totalsize m fdt = Done (b_total b) /\ fdt_off_dt_struct m fdt = Done (b_off_struct b) /\
  fdt_off_dt_strings m fdt = Done (b_off_strings b) /\ fdt_size_dt_strings m fdt = Done (zlen (b_strings b)) /\
  fdt_size_dt_struct m fdt = Done (zlen sb) /\ fdt_off_mem_rsvmap m fdt = Done (b_off_rsv b) /\ fdt_version m fdt = Done 17.
Proof.
  intros H. destruct (struct_facts _ _ _ _ H) as (? & ? & ? & ? & ? & ? & ? & ? & ?). pose proof (sa_header _ _ _ _ H) as Hh.
  repeat split.
  - apply (words_lookup m fdt _ 1%nat _ Hh); [done|lia].
  - apply (words_lookup m fdt _ 2%nat _ Hh); [done|lia].
  - apply (words_lookup m fdt _ 3%nat _ Hh); [done|lia].
  - apply (words_lookup m fdt _ 8%nat _ Hh); [done|lia].
  - apply (words_lookup m fdt _ 9%nat _ Hh); [done|lia].
  - apply (words_lookup m fdt _ 4%nat _ Hh); [done|lia].
  - apply (words_lookup m fdt _ 5%nat _ Hh); [done|lia].
Qed.

(** [fdt_splice_]: everything behind the point moves, when there is room. *)
Lemma splice_spec m fdt b sb soff oldlen newlen :
  struct_at m fdt b sb -> 0 <= soff -> 0 <= oldlen -> 0 <= newlen < 2 ^ 31 ->
  soff + oldlen <= b_off_strings b + zlen (b_strings b) ->
  let dsize := b_off_strings b + zlen (b_strings b) in
  if b_total b <? dsize - oldlen + newlen then fdt_splice_ m fdt (fdt + soff) oldlen newlen = Done (- FDT_ERR_NOSPACE, m)
  else exists tail, zlen tail = dsize - soff - oldlen /\ are_bytes tail /\ bytes_at m (fdt + soff + oldlen) tail /\
    fdt_splice_ m fdt (fdt + soff) oldlen newlen = Done (0, write_bytes m (fdt + soff + newlen) tail).
Proof.
  intros H Hs Ho Hn Hle dsize. destruct (struct_facts _ _ _ _ H) as (? & ? & ? & ? & ? & ? & ? & ? & ?).
  destruct (header_sizes _ _ _ _ H) as (Ht & _ & Hso & Hsz & _).
  unfold fdt_splice_, fdt_data_size_. rewrite Hso, Hsz, !bind_Done, (u32_small (b_off_strings b + _)) by lia. fold dsize in Hle |- *.
  replace (fdt + soff - fdt) with soff by lia. rewrite (u32_small soff), (u32_small (soff + oldlen)), (u32_small (dsize + newlen)), (u32_small oldlen) by lia.
  bdec. cbn [orb]. rewrite Ht, bind_Done, u32_small by lia. case_if; b2p; [done|].
  destruct (byte_region_bytes m (fdt + soff + oldlen) (dsize - soff - oldlen)) as (tail & Hl & Hb & Hat); [lia| |].
  { apply (byte_region_sub _ fdt (b_total b)); [apply (sa_region _ _ _ _ H)|lia|lia]. }
  exists tail. split; [done|]. split; [done|]. split; [done|].
  replace (fdt + dsize - (fdt + soff + oldlen)) with (zlen tail) by lia. rewrite memmove_spec; [by rewrite bind_Done|done|done|].
  apply byte_region_region; [apply zlen_nonneg|]. apply (byte_region_sub _ fdt (b_total b)); [apply (sa_region _ _ _ _ H)|lia|lia].
Qed.

Lemma zlen_words ws : zlen (flat_map be32 ws) = 4 * zlen ws.
Proof. induction ws as [|w ws IH]; [done|]. cbn [flat_map]. rewrite zlen_app, zlen_be32, IH, zlen_cons. lia. Qed.

(** A header field changes. *)
Lemma header_write m fdt ws i w v :
  bytes_at m fdt (flat_map be32 ws) -> ws !! i = Some w -> 0 <= fdt -> fdt + 4 * zlen ws <= 2 ^ 32 ->
  bytes_at (write_bytes m (fdt + 4 * Z.of_nat i) (be32 v)) fdt (flat_map be32 (<[i := v]> ws)).
Proof.
  intros H Hi H0 He. apply list_elem_of_split_length in Hi as (l1 & l2 & -> & ->).
  rewrite insert_app_r_alt, Nat.sub_diag by lia. cbn [list_insert insert]. rewrite flat_map_app in *. cbn [flat_map] in *.
  change (Z.of_nat (length l1)) with (zlen l1). rewrite <- zlen_words. rewrite zlen_app, zlen_cons in He.
  pose proof (zlen_nonneg l1). pose proof (zlen_nonneg l2).
  apply (bytes_at_replace m fdt _ (be32 w)); [done|done|rewrite zlen_words; lia|rewrite zlen_words, zlen_be32; lia].
Qed.

(** A store to a header field leaves the blocks alone. *)
Lemma fdt_set_spec m fdt b i v :
  byte_region m fdt (b_total b) -> 0 < fdt -> 40 <= b_total b -> (i < 10)%nat ->
  fdt32_st m (fdt + 4 * Z.of_nat i) v = Done (write_bytes m (fdt + 4 * Z.of_nat i) (be32 v)).
Proof.
  intros H H0 Ht Hi. apply fdt32_st_spec. apply byte_region_region; [lia|]. apply (byte_region_sub _ _ _ _ _ H); lia.
Qed.

(** [fdt_splice_struct_] replaces a part of the structure block; the new part
    starts with what the old one held. *)
Lemma splice_struct_spec m fdt b P O Q newlen :
  struct_at m fdt b (P ++ O ++ Q) -> 0 <= newlen < 2 ^ 31 ->
  let p := fdt + b_off_struct b + zlen P in
  if b_total b <? b_off_strings b + zlen (b_strings b) - zlen O + newlen
  then fdt_splice_struct_ m fdt p (zlen O) newlen = Done (- FDT_ERR_NOSPACE, m)
  else exists m' hole, fdt_splice_struct_ m fdt p (zlen O) newlen = Done (0, m') /\
    zlen hole = newlen /\ take (length O) hole = take (Z.to_nat newlen) O /\
    struct_at m' fdt (shifted b (newlen - zlen O)) (P ++ hole ++ Q) /\ same_outside m m' fdt (b_total b).
Proof.
  intros H Hn p. destruct (struct_facts _ _ _ _ H) as (? & ? & ? & ? & ? & ? & ? & ? & ?). rewrite !zlen_app in *.
  pose proof (zlen_nonneg P). pose proof (zlen_nonneg O). pose proof (zlen_nonneg Q).
  pose proof (splice_spec m fdt b _ (b_off_struct b + zlen P) (zlen O) newlen H ltac:(lia) ltac:(lia) Hn ltac:(lia)) as L.
  cbv zeta in L. rewrite (Z.add_assoc fdt) in L. fold p in L. unfold fdt_splice_struct_. case_if; [by rewrite L, bind_Done|].
  destruct L as (tail & Hl & Htb & Hta & ->). b2p. rewrite bind_Done. change (negb (0 =? 0)) with false. cbn iota.
  set (m1 := write_bytes m (p + newlen) tail). set (d := newlen - zlen O).
  pose proof H as [_ _ _ _ _ _ _ _ Hh Hs Hst Hreg]. apply bytes_at_app in Hs as [HP Hs]. apply bytes_at_app in Hs as [HO HQ].
  fold p in HO, HQ. replace (fdt + (b_off_struct b + zlen P) + zlen O) with (p + zlen O) in Hta by (unfold p; lia).
  assert (zlen (flat_map be32 (header_with b (zlen P + (zlen O + zlen Q)))) = 40) as Hh40 by done.
  assert (bytes_at m1 fdt (flat_map be32 (header_with b (zlen P + (zlen O + zlen Q))))) as Hh1.
  { apply bytes_at_write_disj; [rewrite Hh40; unfold p; lia|]. by rewrite !zlen_app in Hh. }
  assert (byte_region m1 fdt (b_total b)) as Hreg1 by (by apply byte_region_write).
  destruct (byte_region_bytes m1 p newlen) as (hole & Hhl & _ & Hhole); [lia|apply (byte_region_sub _ _ _ _ _ Hreg1); unfold p; lia|].
  assert (bytes_at m1 (fdt + b_off_struct b) (P ++ hole ++ Q)) as Hs1.
  { apply bytes_at_app. split; [apply bytes_at_write_disj; [unfold p; lia|done]|]. apply bytes_at_app. fold p. split; [done|].
    rewrite Hhl. replace (p + newlen) with (p + newlen + 0) by lia.
    apply (bytes_at_moved m (p + zlen O)); [done|by rewrite Z.add_0_r|lia|lia|unfold p; lia|unfold p; lia]. }
  assert (bytes_at m1 (fdt + (b_off_strings b + d)) (b_strings b)) as Hst1.
  { replace (fdt + (b_off_strings b + d)) with (p + newlen + (b_off_strings b - b_off_struct b - zlen P - zlen O)) by (unfold p, d; lia).
    apply (bytes_at_moved m (p + zlen O)); [done| |lia|lia|unfold p; lia|unfold p; lia].
    by replace (p + zlen O + _) with (fdt + b_off_strings b) by (unfold p; lia). }
  pose proof (words_lookup m1 fdt _ 9%nat _ Hh1 eq_refl ltac:(lia)) as R9. change (fdt + 4 * Z.of_nat 9) with (fdt + 36) in R9.
  unfold fdt_size_dt_struct, fdt_set_size_dt_struct. rewrite R9, bind_Done.
  rewrite (fdt_set_spec m1 fdt b 9), bind_Done by (done || lia).
  assert (s32 d = d) as -> by (unfold d; apply s32_id; lia). rewrite u32_small by (unfold d; lia).
  set (n' := zlen P + (zlen O + zlen Q) + d). set (m2 := write_bytes m1 (fdt + 4 * Z.of_nat 9) (be32 n')).
  pose proof (header_write _ _ _ 9%nat _ n' Hh1 eq_refl ltac:(lia) ltac:(change (zlen (header_with _ _)) with 10; lia)) as Hh2. fold m2 in Hh2.
  pose proof (words_lookup m2 fdt _ 3%nat _ Hh2 eq_refl ltac:(cbn; lia)) as R3. change (fdt + 4 * Z.of_nat 3) with (fdt + 12) in R3.
  unfold fdt_off_dt_strings, fdt_set_off_dt_strings. rewrite R3, bind_Done. cbn [header_with list_lookup lookup].
  assert (byte_region m2 fdt (b_total b)) as Hreg2 by (apply byte_region_write; [done|apply be32_bytes]).
  rewrite (fdt_set_spec m2 fdt b 3), bind_Done, u32_small by (done || lia || (unfold d; lia)).
  set (m3 := write_bytes m2 (fdt + 4 * Z.of_nat 3) (be32 (b_off_strings b + d))).
  pose proof (header_write _ _ _ 3%nat _ (b_off_strings b + d) Hh2 eq_refl ltac:(lia) ltac:(change (zlen _) with 10; lia)) as Hh3. fold m3 in Hh3.
  assert (forall o bs, 40 <= o -> o + zlen bs <= b_total b -> bytes_at m1 (fdt + o) bs -> bytes_at m3 (fdt + o) bs) as Hlow.
  { intros o bs Ho Hob Hb. apply bytes_at_write_disj; [rewrite zlen_be32; lia|]. apply bytes_at_write_disj; [rewrite zlen_be32; lia|done]. }
  exists m3, hole. split; [done|]. split; [done|]. split; [|split].
  - replace (Z.to_nat newlen) with (length hole) by (unfold zlen in Hhl; lia). apply (bytes_at_agree m m1 p); [done|done|].
    intros k Hk. unfold m1. rewrite lookup_write_bytes. by bdec.
  - split; cbn [shifted b_total b_off_struct b_off_strings b_off_rsv b_last b_cpuid b_strings]; rewrite ?zlen_app, ?Hhl;
      try apply H; try (unfold d, INT32_MAX in *; lia).
    + replace (zlen P + (newlen + zlen Q)) with n' by (unfold n', d; lia). exact Hh3.
    + apply Hlow; [lia| |done]. rewrite !zlen_app, Hhl. lia.
    + apply Hlow; [unfold d; lia|unfold d; lia|done].
    + apply byte_region_write; [done|apply be32_bytes].
  - unfold m3, m2, m1. repeat apply same_outside_write; try apply same_outside_refl; rewrite ?zlen_be32, ?Hl; unfold p in *; try lia.
Qed.
End splicing.

(** ** Stores into the structure block *)
Section stores.
Implicit Types (m : mem) (b : blob).

Lemma struct_write m fdt b P old Q new :
  struct_at m fdt b (P ++ old ++ Q) -> zlen new = zlen old -> are_bytes new ->
  let m' := write_bytes m (fdt + b_off_struct b + zlen P) new in
  struct_at m' fdt b (P ++ new ++ Q) /\ same_outside m m' fdt (b_total b).
Proof.
  intros H Hl Hb m'. destruct (struct_facts _ _ _ _ H) as (? & ? & Ho & ? & ? & ? & ? & ? & ?). rewrite !zlen_app in Ho.
  pose proof (zlen_nonneg P). pose proof (zlen_nonneg old). pose proof (zlen_nonneg Q).
  assert (zlen (P ++ new ++ Q) = zlen (P ++ old ++ Q)) as El by (rewrite !zlen_app, Hl; done). split.
  - destruct H. split; try done; rewrite ?El; try done.
    + apply bytes_at_write_disj; [rewrite zlen_words; change (zlen (header_with _ _)) with 10; lia|done].
    + by apply (bytes_at_replace m _ P old Q new); [done|done|lia|lia].
    + apply bytes_at_write_disj; [lia|done].
    + by apply byte_region_write.
  - apply same_outside_write; [apply same_outside_refl|lia|lia].
Qed.

Lemma struct_region m fdt b P old Q : struct_at m fdt b (P ++ old ++ Q) -> region m (fdt + b_off_struct b + zlen P) (zlen old).
Proof.
  intros H. destruct (struct_facts _ _ _ _ H) as (? & ? & Ho & ? & ? & ? & ? & ? & ?). rewrite !zlen_app in Ho.
  pose proof (zlen_nonneg P). pose proof (zlen_nonneg old). pose proof (zlen_nonneg Q).
  apply byte_region_region; [done|]. apply (byte_region_sub _ _ _ _ _ (sa_region _ _ _ _ H)); lia.
Qed.

(** A word, and a block of the caller's bytes. *)
Lemma struct_st32 m fdt b P old Q v p :
  struct_at m fdt b (P ++ old ++ Q) -> zlen old = 4 -> p = fdt + b_off_struct b + zlen P ->
  exists m', fdt32_st m p v = Done m' /\ struct_at m' fdt b (P ++ be32 v ++ Q) /\ same_outside m m' fdt (b_total b).
Proof.
  intros H Hl ->. eexists. split; [apply fdt32_st_spec; rewrite <- Hl; by eapply struct_region|].
  apply (struct_write m fdt b P old Q); [done|by rewrite zlen_be32|apply be32_bytes].
Qed.

Lemma struct_memcpy m fdt b P old Q v p val :
  struct_at m fdt b (P ++ old ++ Q) -> zlen old = zlen v -> p = fdt + b_off_struct b + zlen P ->
  are_bytes v -> bytes_at m val v -> val + zlen v <= fdt \/ fdt + b_total b <= val ->
  exists m', memcpy m p val (zlen v) = Done (p, m') /\ struct_at m' fdt b (P ++ v ++ Q) /\ same_outside m m' fdt (b_total b).
Proof.
  intros H Hl -> Hv Hat Hd. destruct (struct_facts _ _ _ _ H) as (? & ? & Ho & ? & ? & ? & ? & ? & ?). rewrite !zlen_app in Ho.
  pose proof (zlen_nonneg P). pose proof (zlen_nonneg old). pose proof (zlen_nonneg Q).
  eexists. split; [apply (memcpy_spec v); [done|done|done|rewrite <- Hl; by eapply struct_region|lia]|].
  by apply (struct_write m fdt b P old Q).
Qed.

Lemma rw_probe_spec m fdt b : rw_at m fdt b -> fdt_rw_probe_ m fdt = Done (0, m).
Proof.
  intros H. pose proof (rw_at_blob _ _ _ H) as Hb. destruct H as [H _].
  destruct (struct_facts _ _ _ _ H) as (? & ? & ? & ? & ? & ? & ? & ? & ?).
  destruct (header_sizes _ _ _ _ H) as (Ht & Hs & Hso & Hsz & Hn & Hr & Hv).
  unfold fdt_rw_probe_, fdt_blocks_misordered_. rewrite (ro_probe_spec _ _ _ Hb), bind_Done. bdec.
  rewrite Hv, !bind_Done. change (17 <? 17) with false. cbn iota. rewrite Hn, Hr, Hs, Hso, Hsz, Ht, !bind_Done.
  rewrite s32_id, !u32_small by lia. change (ALIGN_UP 32 40 8) with 40. bdec. reflexivity.
Qed.

Lemma tagalign_pad4 n : 0 <= n < 2 ^ 31 - 4 -> FDT_TAGALIGN n = pad4 n.
Proof.
  intros. unfold FDT_TAGALIGN, FDT_TAGSIZE. rewrite u32_small by lia. change 4 with (2 ^ 2). rewrite ALIGN_UP_pow2 by lia.
  unfold pad4 in *. change (2 ^ 2) with 4. rewrite s32_id by lia. f_equal. f_equal. lia.
Qed.
End stores.

(** ** Properties *)
Section properties.
Implicit Types (m : mem) (b : blob) (pre post : list token).

Lemma toks_bytes_app ts ts' : toks_bytes (ts ++ ts') = toks_bytes ts ++ toks_bytes ts'.
Proof. apply flat_map_app. Qed.

Lemma toks_bytes_cons t ts : toks_bytes (t :: ts) = tok_bytes t ++ toks_bytes ts.
Proof. done. Qed.

Lemma prop_bytes o v pad : tok_bytes (TProp o v pad) = (be32 FDT_PROP ++ be32 (zlen v) ++ be32 o) ++ v ++ pad.
Proof. unfold tok_bytes. cbn [tok_body tok_tag]. by rewrite <- !app_assoc. Qed.

(** The room a value of [n] bytes takes, and what is left in the blob. *)
Definition free_bytes (b : blob) : Z := b_total b - b_off_strings b - zlen (b_strings b).

(** The value of a property gets room for [n] bytes: it keeps what it held as
    far as that fits. *)
Lemma resize_spec m fdt b pre o v pad post n :
  rw_at m fdt b -> b_toks b = pre ++ TProp o v pad :: post -> 0 <= n < 2 ^ 31 - 16 ->
  let p := fdt + b_off_struct b + pos pre in
  if free_bytes b <? pad4 n - pad4 (zlen v)
  then fdt_splice_struct_ m fdt (prop_data p) (FDT_TAGALIGN (zlen v)) (FDT_TAGALIGN n) = Done (- FDT_ERR_NOSPACE, m)
  else exists m1 m' hole, fdt_splice_struct_ m fdt (prop_data p) (FDT_TAGALIGN (zlen v)) (FDT_TAGALIGN n) = Done (0, m1) /\
    fdt32_st m1 (p + 4) (u32 n) = Done m' /\ zlen hole = pad4 n /\
    take (length (v ++ pad)) hole = take (Z.to_nat (pad4 n)) (v ++ pad) /\
    struct_at m' fdt (shifted b (pad4 n - pad4 (zlen v)))
      (toks_bytes pre ++ (be32 FDT_PROP ++ be32 n ++ be32 o) ++ hole ++ toks_bytes post) /\
    same_outside m m' fdt (b_total b).
Proof.
  intros [H Hok] E Hn p. pose proof (rw_at_blob m fdt b (conj H Hok)) as Hb.
  destruct (property_fields _ _ _ _ _ _ _ _ Hb E) as (_ & _ & _ & Hp0 & Hp & Hv). fold p in Hp0, Hp.
  destruct (struct_facts _ _ _ _ H) as (? & ? & Ho & Hfits & ? & ? & ? & ? & ?).
  rewrite E, toks_bytes_app, toks_bytes_cons, prop_bytes, <- !(app_assoc (be32 FDT_PROP ++ _)) in H. rewrite <- (app_assoc v) in H.
  rewrite E in Hok. apply Forall_app in Hok as [_ Hok]. inversion Hok as [|? ? Hprop _]; subst. cbn [tok_ok] in Hprop. destruct Hprop as (_ & _ & Hpad).
  assert (zlen (tok_bytes (TProp o v pad)) = 12 + pad4 (zlen v)) as Hlen.
  { rewrite prop_bytes, zlen_app. rewrite (zlen_padded _ _ Hpad). done. }
  pose proof (zlen_nonneg v). pose proof (pad4_bounds n). pose proof (pad4_bounds (zlen v)). pose proof (pos_nonneg pre).
  assert (zlen (toks_bytes (b_toks b)) = pos pre + (12 + pad4 (zlen v)) + pos post) as Hsum.
  { rewrite E, toks_bytes_app, toks_bytes_cons, !zlen_app, Hlen. unfold pos. lia. } pose proof (pos_nonneg post).
  unfold prop_data. rewrite u32_small by lia. rewrite !tagalign_pad4 by lia.
  set (hd := be32 FDT_PROP ++ be32 (zlen v) ++ be32 o). rewrite app_assoc, (app_assoc v) in H. fold hd in H.
  pose proof (splice_struct_spec m fdt b (toks_bytes pre ++ hd) (v ++ pad) (toks_bytes post) (pad4 n) H ltac:(lia)) as L.
  cbv zeta in L. rewrite (zlen_padded _ _ Hpad), zlen_app in L. change (zlen hd) with 12 in L. change (zlen (toks_bytes pre)) with (pos pre) in L.
  replace (fdt + b_off_struct b + (pos pre + 12)) with (p + 12) in L by (unfold p; lia).
  revert L. unfold free_bytes. case_if; case_if; b2p; try lia; intros L; [exact L|].
  destruct L as (m1 & hole & -> & Hl & Hk & Hm1 & Hs1). unfold hd in Hm1.
  replace ((toks_bytes pre ++ be32 FDT_PROP ++ be32 (zlen v) ++ be32 o) ++ hole ++ toks_bytes post)
    with ((toks_bytes pre ++ be32 FDT_PROP) ++ be32 (zlen v) ++ (be32 o ++ hole ++ toks_bytes post)) in Hm1 by tok_assoc.
  destruct (struct_st32 m1 fdt _ _ _ _ (u32 n) (p + 4) Hm1) as (m' & Hst & Hm2 & Hs2); [done| |].
  { cbn [shifted b_off_struct]. rewrite zlen_app, zlen_be32. unfold p, pos. lia. }
  exists m1, m', hole. split; [done|]. split; [done|]. split; [done|]. split; [done|]. split.
  - rewrite u32_small in Hm2 by lia. rewrite <- !app_assoc in Hm2 |- *. exact Hm2.
  - by eapply same_outside_trans.
Qed.

(** The value is copied into the room. *)
Lemma fill_spec m fdt b pre o v hole post val :
  struct_at m fdt b (toks_bytes pre ++ (be32 FDT_PROP ++ be32 (zlen v) ++ be32 o) ++ hole ++ toks_bytes post) ->
  zlen hole = pad4 (zlen v) -> Forall tok_ok pre -> Forall tok_ok post -> 0 <= o < 2 ^ 31 -> are_bytes v -> zlen v < 2 ^ 31 ->
  bytes_at m val v -> val + zlen v <= fdt \/ fdt + b_total b <= val ->
  exists m' pad', memcpy m (fdt + b_off_struct b + pos pre + 12) val (zlen v) = Done (fdt + b_off_struct b + pos pre + 12, m') /\
    rw_at m' fdt (with_toks b (pre ++ TProp o v pad' :: post)) /\ same_outside m m' fdt (b_total b).
Proof.
  intros H Hl Hpre Hpost Ho Hv Hv31 Hat Hd. pose proof (pad4_bounds (zlen v)). pose proof (zlen_nonneg v).
  rewrite <- (take_drop (length v) hole) in H. set (pad' := drop (length v) hole) in H.
  set (hd := be32 FDT_PROP ++ be32 (zlen v) ++ be32 o) in H. rewrite (app_assoc (toks_bytes pre)), <- (app_assoc (take _ _)) in H.
  assert (zlen (take (length v) hole) = zlen v) as Ht by (unfold zlen in *; rewrite length_take; lia).
  destruct (struct_memcpy m fdt b _ _ _ v (fdt + b_off_struct b + pos pre + 12) val H) as (m' & Hc & Hm' & Hs); [done| |done..|].
  { rewrite zlen_app. change (zlen hd) with 12. unfold pos. lia. }
  exists m', pad'. split; [done|]. split; [|done]. apply rw_at_intro.
  - rewrite toks_bytes_app, toks_bytes_cons, prop_bytes. fold hd. rewrite <- !app_assoc in Hm'. rewrite <- !app_assoc. exact Hm'.
  - apply Forall_app. split; [done|]. constructor; [|done]. cbn [tok_ok]. split; [done|]. split; [done|].
    unfold padded, pad'. unfold zlen in *. rewrite length_drop. lia.
Qed.
End properties.

(** ** The strings block *)
Section strings_block.
Implicit Types (m : mem) (b : blob) (s t : list Z).

Lemma find_sub_short s t i : (length s < length t)%nat -> find_sub s t i = None.
Proof.
  revert i. induction s as [|c s IH]; intros i Hl; cbn [find_sub]; rewrite bool_decide_false; try done.
  - intros [k E]. apply (f_equal length) in E. rewrite length_app in E. cbn in *. lia.
  - apply IH. cbn in Hl. lia.
  - intros [k E]. apply (f_equal length) in E. rewrite length_app in E. cbn in *. lia.
Qed.

Lemma find_sub_Some s t i j : find_sub s t i = Some j -> i <= j /\ exists rest, drop (Z.to_nat (j - i)) s = t ++ rest.
Proof.
  revert i. induction s as [|c s IH]; intros i; cbn [find_sub]; case_bool_decide as Hp; try done.
  - intros [= <-]. split; [lia|]. destruct Hp as [k E]. exists k. by rewrite Z.sub_diag.
  - intros [= <-]. split; [lia|]. destruct Hp as [k E]. exists k. by rewrite Z.sub_diag.
  - intros H. destruct (IH _ H) as (? & rest & E). split; [lia|]. exists rest.
    by replace (Z.to_nat (j - i)) with (S (Z.to_nat (j - (i + 1)))) by lia.
Qed.

Lemma find_string_loop_spec m p q s t i :
  bytes_at m p s -> bytes_at m q t -> t <> [] ->
  find_string_loop (Z.to_nat (zlen s - zlen t + 1)) m p q (zlen t) =
    Done (match find_sub s t i with Some j => p + (j - i) | None => NULL end).
Proof.
  revert p i. induction s as [|c s IH]; intros p i Hs Ht Hne.
  - assert (0 < zlen t) by (destruct t; [done|rewrite zlen_cons; pose proof (zlen_nonneg t); lia]).
    rewrite find_sub_short by (unfold zlen in *; cbn; lia). change (zlen (@nil Z)) with 0.
    by replace (Z.to_nat (0 - zlen t + 1)) with O by lia.
  - rewrite zlen_cons. destruct (decide (zlen t <= 1 + zlen s)) as [Hle|].
    2: { replace (Z.to_nat _) with O by lia. rewrite find_sub_short; [done|]. unfold zlen in *. cbn. lia. }
    replace (Z.to_nat (1 + zlen s - zlen t + 1)) with (S (Z.to_nat (zlen s - zlen t + 1))) by lia. cbn [find_string_loop].
    assert (bytes_at m p (take (length t) (c :: s))) as Htk.
    { pose proof Hs as Hs'. rewrite <- (take_drop (length t) (c :: s)) in Hs'. by apply bytes_at_app in Hs' as [Hs' _]. }
    assert (zlen (take (length t) (c :: s)) = zlen t) as Hl by (unfold zlen in *; rewrite length_take; cbn; lia).
    destruct (memcmp_spec (take (length t) (c :: s)) t m p q (zlen t)) as (r & -> & Hr); [done..|]. rewrite bind_Done. cbn [find_sub].
    destruct (decide (r = 0)) as [->|Hr0]; bdec.
    + assert (take (length t) (c :: s) = t) as E by tauto.
      rewrite bool_decide_true; [f_equal; lia|]. exists (drop (length t) (c :: s)). by rewrite <- E at 1; rewrite take_drop.
    + rewrite bool_decide_false.
      2: { intros [k E]. apply Hr0, Hr. rewrite E. apply take_app_length. }
      destruct Hs as [_ Hs]. rewrite (IH (p + 1) (i + 1)) by done. destruct (find_sub s t (i + 1)); [|done]. f_equal. lia.
Qed.

Lemma string_at_app strings more off s : string_at strings off s -> string_at (strings ++ more) off s.
Proof.
  intros (Ho & Hs & rest & E). split; [done|]. split; [done|]. exists (rest ++ more).
  rewrite drop_app_le, E, <- app_assoc; [done|]. destruct (decide (Z.to_nat off <= length strings)%nat); [done|].
  rewrite drop_ge in E by lia. by destruct s.
Qed.

(** A blob with more strings. *)
Definition with_strings (b : blob) (strings : list Z) : blob :=
  Blob (b_total b) (b_off_struct b) (b_off_strings b) (b_off_rsv b) (b_last b) (b_cpuid b) (b_toks b) strings.

(** A size field of the header is stored and only that changes. *)
Lemma strings_resize m fdt b sb strings sz :
  struct_at m fdt b sb -> bytes_at m (fdt + b_off_strings b) strings -> sz = zlen strings ->
  b_off_strings b + sz <= b_total b ->
  let m' := write_bytes m (fdt + 32) (be32 sz) in
  fdt32_st m (fdt + 32) sz = Done m' /\ struct_at m' fdt (with_strings b strings) sb /\ same_outside m m' fdt (b_total b).
Proof.
  intros H Hst -> Hle m'. destruct (struct_facts _ _ _ _ H) as (? & ? & ? & ? & ? & ? & ? & ? & ?). pose proof (sa_region _ _ _ _ H) as Hreg.
  split; [apply (fdt_set_spec m fdt b 8); [done|lia|lia|lia]|]. split.
  - destruct H. split; try done.
    + apply (header_write m fdt (header_with b (zlen sb)) 8 (zlen (b_strings b)) (zlen strings)); [done|done|lia|].
      change (zlen (header_with _ _)) with 10. lia.
    + apply bytes_at_write_disj; [rewrite zlen_be32; cbn; lia|done].
    + apply bytes_at_write_disj; [rewrite zlen_be32; cbn; lia|done].
    + apply byte_region_write; [done|apply be32_bytes].
  - apply same_outside_write; [apply same_outside_refl|lia|rewrite zlen_be32; lia].
Qed.

Lemma strings_write m fdt b sb s old new :
  struct_at m fdt (with_strings b (s ++ old)) sb -> zlen new = zlen old -> are_bytes new ->
  let m' := write_bytes m (fdt + b_off_strings b + zlen s) new in
  struct_at m' fdt (with_strings b (s ++ new)) sb /\ same_outside m m' fdt (b_total b).
Proof.
  intros H Hl Hb m'. destruct (struct_facts _ _ _ _ H) as (? & ? & ? & Hfit & ? & ? & ? & ? & ?).
  cbn [with_strings b_total b_off_struct b_off_strings b_off_rsv b_strings] in *. rewrite zlen_app in Hfit.
  pose proof (zlen_nonneg s). pose proof (zlen_nonneg old).
  assert (zlen (s ++ new) = zlen (s ++ old)) as El by (rewrite !zlen_app; lia). split.
  - destruct H as [? ? ? ? ? ? ? ? Hh Hs Hst Hreg]. cbn [with_strings b_total b_off_struct b_off_strings b_off_rsv b_strings b_last b_cpuid] in *.
    split; cbn [with_strings b_total b_off_struct b_off_strings b_off_rsv b_strings b_last b_cpuid]; rewrite ?El; try done.
    + apply bytes_at_write_disj; [rewrite zlen_words; change (zlen (header_with _ _)) with 10; lia|].
      unfold header_with in *. cbn [with_strings b_total b_off_struct b_off_strings b_off_rsv b_strings b_last b_cpuid] in *. by rewrite El.
    + apply bytes_at_write_disj; [lia|done].
    + rewrite <- (app_nil_r new), (app_nil_r new). pose proof (bytes_at_replace m (fdt + b_off_strings b) s old [] new) as L.
      rewrite !app_nil_r in L. apply L; [done|done|lia|lia].
    + by apply byte_region_write.
  - apply same_outside_write; [apply same_outside_refl|lia|lia].
Qed.

Lemma find_add_spec m fdt b sb q name :
  struct_at m fdt b sb -> cstr_at m q name -> q + zlen name + 1 <= fdt \/ fdt + b_total b <= q -> zlen name < 2 ^ 31 - 1 ->
  match find_sub (b_strings b) (name ++ [0]) 0 with
  | Some o => fdt_find_add_string_ m fdt q = Done (o, false, m) /\ string_at (b_strings b) o name /\ o < 2 ^ 31
  | None =>
      if free_bytes b <? zlen name + 1 then fdt_find_add_string_ m fdt q = Done (- FDT_ERR_NOSPACE, false, m)
      else exists m', fdt_find_add_string_ m fdt q = Done (zlen (b_strings b), true, m') /\
        struct_at m' fdt (with_strings b (b_strings b ++ name ++ [0])) sb /\ same_outside m m' fdt (b_total b)
  end.
Proof.
  intros H Hq Hd Hn. destruct (struct_facts _ _ _ _ H) as (? & ? & ? & ? & ? & ? & ? & ? & ?).
  destruct (header_sizes _ _ _ _ H) as (Ht & Hs & Hso & Hsz & _). pose proof (zlen_nonneg name).
  pose proof Hq as [Hnm Hqb]. assert (zlen (name ++ [0]) = zlen name + 1) as Hl by (rewrite zlen_app; done).
  unfold fdt_find_add_string_. rewrite Hso, Hsz, !bind_Done, (strlen_spec _ _ _ Hq), bind_Done. cbv zeta.
  rewrite (u32_small (fdt + b_off_strings b)), (s32_id (zlen (b_strings b))) by lia.
  unfold fdt_find_string_. rewrite (strlen_spec _ _ _ Hq), bind_Done. pose proof (sa_strings _ _ _ _ H) as Hst. rewrite <- Hl.
  rewrite (find_string_loop_spec _ _ _ _ _ 0 Hst Hqb), bind_Done by (by destruct name).
  destruct (find_sub (b_strings b) (name ++ [0]) 0) as [o|] eqn:Ef.
  - destruct (find_sub_Some _ _ _ _ Ef) as (Ho & rest & E). rewrite Z.sub_0_r in *.
    assert (o < 2 ^ 31).
    { apply (f_equal length) in E. rewrite length_drop, !length_app in E. unfold zlen in *. cbn in E. lia. }
    unfold NULL. bdec. cbn [negb]. rewrite s32_id by lia. split; [do 3 f_equal; lia|]. split; [|done].
    split; [done|]. split; [done|]. exists rest. by rewrite E, <- app_assoc.
  - change (NULL =? NULL) with true. cbn iota. cbn [negb]. unfold fdt_splice_string_. rewrite Hso, Hsz, !bind_Done, !(u32_small (fdt + b_off_strings b + zlen (b_strings b))) by lia.
    pose proof (splice_spec m fdt b sb (b_off_strings b + zlen (b_strings b)) 0 (zlen name + 1) H ltac:(lia) ltac:(lia) ltac:(lia) ltac:(lia)) as L.
    cbv zeta in L. rewrite <- Hl, (Z.add_assoc fdt) in L. revert L. unfold free_bytes.
    case_if; case_if; b2p; try lia; intros L; [by rewrite L, bind_Done|].
    destruct L as (tail & Htl & _ & _ & ->). assert (tail = []) as -> by (destruct tail; [done|rewrite zlen_cons in Htl; pose proof (zlen_nonneg tail); lia]).
    cbn [write_bytes]. rewrite bind_Done. change (negb (0 =? 0)) with false. cbn iota. rewrite Hsz, bind_Done.
    destruct (byte_region_bytes m (fdt + b_off_strings b + zlen (b_strings b)) (zlen (name ++ [0]))) as (junk & Hj & Hjb & Hjat);
      [apply zlen_nonneg|apply (byte_region_sub _ _ _ _ _ (sa_region _ _ _ _ H)); lia|].
    assert (bytes_at m (fdt + b_off_strings b) (b_strings b ++ junk)) as Hsj by (by apply bytes_at_app).
    destruct (strings_resize m fdt b sb _ (zlen (b_strings b) + zlen (name ++ [0])) H Hsj) as (Hset & H1' & Hs1);
      [rewrite (zlen_app _ junk); lia|lia|].
    unfold fdt_set_size_dt_strings. rewrite u32_small, Hset, !bind_Done by lia. change (negb (0 =? 0)) with false. cbn iota.
    assert (are_bytes (name ++ [0])) as Hnb.
    { apply Forall_app. split; [by eapply cstr_bytes|]. constructor; [unfold is_byte; lia|constructor]. }
    rewrite (memcpy_spec (name ++ [0])); [|done|done|eapply (bytes_at_outside m); [exact Hs1|rewrite Hl; lia|exact Hqb]| |lia].
    2: { apply byte_region_region; [apply zlen_nonneg|].
         apply (byte_region_sub _ _ _ _ _ (sa_region _ _ _ _ H1')); cbn; lia. }
    rewrite bind_Done, s32_id by lia. eexists. split; [do 3 f_equal; lia|].
    destruct (strings_write _ fdt b sb (b_strings b) junk (name ++ [0]) H1') as [H2' Hs2]; [done|done|].
    split; [done|]. by eapply same_outside_trans.
Qed.

Lemma del_last_string_spec m fdt b sb strings q name :
  struct_at m fdt (with_strings b (strings ++ name ++ [0])) sb -> cstr_at m q name ->
  exists m', fdt_del_last_string_ m fdt q = Done m' /\ struct_at m' fdt (with_strings b strings) sb /\ same_outside m m' fdt (b_total b).
Proof.
  intros H Hq. destruct (struct_facts _ _ _ _ H) as (? & ? & ? & Hfit & ? & ? & ? & ? & ?). destruct (header_sizes _ _ _ _ H) as (_ & _ & _ & Hsz & _).
  cbn [with_strings b_total b_off_struct b_off_strings b_off_rsv b_strings] in *. rewrite !zlen_app in *. change (zlen [0]) with 1 in *.
  pose proof (zlen_nonneg strings). pose proof (zlen_nonneg name). pose proof (sa_strings _ _ _ _ H) as Hst. cbn [with_strings b_off_strings b_strings] in Hst.
  apply bytes_at_app in Hst as [Hst _].
  unfold fdt_del_last_string_, fdt_set_size_dt_strings. rewrite (strlen_spec _ _ _ Hq), Hsz, !bind_Done, u32_small by lia.
  destruct (strings_resize m fdt _ sb strings (zlen strings + (zlen name + 1) - (zlen name + 1)) H Hst) as (Hset & H1' & Hs1); [lia|cbn; lia|].
  eexists. split; [exact Hset|]. split; [exact H1'|exact Hs1].
Qed.
End strings_block.

(** ** A new property *)
Section adding.
Implicit Types (m : mem) (b : blob) (pre post : list token).

Lemma split_words (l : list Z) n : zlen l = 12 + n -> 0 <= n ->
  exists w0 w1 w2 r, l = w0 ++ w1 ++ w2 ++ r /\ zlen w0 = 4 /\ zlen w1 = 4 /\ zlen w2 = 4 /\ zlen r = n.
Proof.
  intros Hl Hn. exists (take 4 l), (take 4 (drop 4 l)), (take 4 (drop 8 l)), (drop 12 l).
  split; [|unfold zlen in *; rewrite !length_take, !length_drop; lia].
  replace (drop 12 l) with (drop 4 (drop 8 l)) by (by rewrite drop_drop). rewrite take_drop.
  replace (drop 8 l) with (drop 4 (drop 4 l)) by (by rewrite drop_drop). by rewrite !take_drop.
Qed.

Lemma add_room_spec m fdt b pre post n o :
  struct_at m fdt b (toks_bytes pre ++ toks_bytes post) -> 0 <= n < 2 ^ 31 - 16 -> 0 <= o < 2 ^ 31 ->
  let p := fdt + b_off_struct b + pos pre in
  if free_bytes b <? 12 + pad4 n then fdt_splice_struct_ m fdt p 0 (12 + pad4 n) = Done (- FDT_ERR_NOSPACE, m)
  else exists m1 m2 m3 m4 hole, fdt_splice_struct_ m fdt p 0 (12 + pad4 n) = Done (0, m1) /\
    fdt32_st m1 p FDT_PROP = Done m2 /\ fdt32_st m2 (p + 8) (u32 o) = Done m3 /\ fdt32_st m3 (p + 4) (u32 n) = Done m4 /\
    zlen hole = pad4 n /\
    struct_at m4 fdt (shifted b (12 + pad4 n)) (toks_bytes pre ++ (be32 FDT_PROP ++ be32 n ++ be32 o) ++ hole ++ toks_bytes post) /\
    same_outside m m4 fdt (b_total b).
Proof.
  intros H Hn Ho p. pose proof (pad4_bounds n).
  pose proof (splice_struct_spec m fdt b (toks_bytes pre) [] (toks_bytes post) (12 + pad4 n) H ltac:(lia)) as L. cbv zeta in L.
  change (zlen (@nil Z)) with 0 in L. change (zlen (toks_bytes pre)) with (pos pre) in L. fold p in L.
  revert L. unfold free_bytes. case_if; case_if; b2p; try lia; intros L; [exact L|].
  destruct L as (m1 & hole0 & -> & Hl & _ & H1 & Hs1). rewrite Z.sub_0_r in H1.
  destruct (split_words hole0 (pad4 n) Hl ltac:(lia)) as (w0 & w1 & w2 & hole & -> & L0 & L1 & L2 & Lh).
  rewrite <- !app_assoc in H1.
  destruct (struct_st32 m1 fdt _ _ _ _ FDT_PROP p H1 L0) as (m2 & Hst2 & H2 & Hs2); [done|].
  rewrite (app_assoc (toks_bytes pre)), (app_assoc (toks_bytes pre ++ _)) in H2.
  destruct (struct_st32 m2 fdt _ _ _ _ (u32 o) (p + 8) H2 L2) as (m3 & Hst3 & H3 & Hs3).
  { cbn [shifted b_off_struct]. rewrite !zlen_app, zlen_be32, L1. unfold p, pos. lia. }
  rewrite <- (app_assoc (toks_bytes pre ++ _)) in H3.
  destruct (struct_st32 m3 fdt _ _ _ _ (u32 n) (p + 4) H3 L1) as (m4 & Hst4 & H4 & Hs4).
  { cbn [shifted b_off_struct]. rewrite !zlen_app, zlen_be32. unfold p, pos. lia. }
  exists m1, m2, m3, m4, hole. do 5 (split; [done|]). split.
  - rewrite !u32_small in H4 by lia. rewrite <- !app_assoc in H4. rewrite <- !app_assoc. exact H4.
  - cbn [shifted b_total] in *. eauto using same_outside_trans.
Qed.

(** The strings with the name where it was added. *)
Definition strings_with (b : blob) (name : list Z) (allocated : bool) : blob :=
  with_strings b (b_strings b ++ if allocated then name ++ [0] else []).

Lemma strings_with_false b name : strings_with b name false = b.
Proof. unfold strings_with, with_strings. rewrite app_nil_r. by destruct b. Qed.

(** Without room the name is taken back. *)
Lemma add_property_at_spec m fdt b pre post q name n o allocated :
  let b1 := strings_with b name allocated in
  struct_at m fdt b1 (toks_bytes pre ++ toks_bytes post) -> cstr_at m q name ->
  0 <= n < 2 ^ 31 - 16 -> 0 <= o < 2 ^ 31 ->
  let p := fdt + b_off_struct b + pos pre in
  if free_bytes b1 <? 12 + pad4 n then
    exists r m', add_property_at m fdt (pos pre) q n o allocated = Done (- FDT_ERR_NOSPACE, r, m') /\
      struct_at m' fdt b (toks_bytes pre ++ toks_bytes post) /\ same_outside m m' fdt (b_total b)
  else exists m' hole, add_property_at m fdt (pos pre) q n o allocated = Done (0, p, m') /\ zlen hole = pad4 n /\
    struct_at m' fdt (shifted b1 (12 + pad4 n)) (toks_bytes pre ++ (be32 FDT_PROP ++ be32 n ++ be32 o) ++ hole ++ toks_bytes post) /\
    same_outside m m' fdt (b_total b).
Proof.
  intros b1 H Hq Hn Ho p. pose proof (pad4_bounds n). destruct (struct_facts _ _ _ _ H) as (? & ? & Hle & ? & ? & ? & ? & ? & ?).
  change (b_total b1) with (b_total b) in *. change (b_off_struct b1) with (b_off_struct b) in *. change (b_off_strings b1) with (b_off_strings b) in *.
  rewrite zlen_app in Hle. pose proof (pos_nonneg pre). pose proof (zlen_nonneg (toks_bytes post)). change (zlen (toks_bytes pre)) with (pos pre) in Hle.
  destruct (header_sizes _ _ _ _ H) as (_ & Hs & _).
  unfold add_property_at, fdt_offset_ptr_. rewrite Hs, !bind_Done, (u32_small (fdt + _ + _)), tagalign_pad4, s32_id
    by (change (b_off_struct b1) with (b_off_struct b); lia).
  pose proof (add_room_spec m fdt b1 pre post n o H Hn Ho) as L. cbv zeta in L. change (b_off_struct b1) with (b_off_struct b) in *.
  fold p in L |- *. case_if.
  - rewrite L, bind_Done. change (negb (- FDT_ERR_NOSPACE =? 0)) with true. cbn iota. destruct allocated.
    + destruct (del_last_string_spec m fdt b _ (b_strings b) q name H Hq) as (m' & -> & H' & Hs'). rewrite bind_Done.
      exists p, m'. split; [done|]. split; [|done]. by destruct b.
    + rewrite bind_Done. exists p, m. split; [done|]. split; [|apply same_outside_refl]. unfold b1 in H. by rewrite strings_with_false in H.
  - destruct L as (m1 & m2 & m3 & m4 & hole & -> & E2 & E3 & E4 & Hl & Hm4 & Hs4). rewrite bind_Done. change (negb (0 =? 0)) with false. cbn iota.
    rewrite E2, bind_Done, E3, bind_Done, E4, bind_Done. by exists m4, hole.
Qed.

(** What the property and, when it is new, its name take. *)
Definition prop_need (b : blob) (name : list Z) (n : Z) : Z :=
  12 + pad4 n + match find_sub (b_strings b) (name ++ [0]) 0 with Some _ => 0 | None => zlen name + 1 end.

Lemma add_property_spec fuel m fdt b pre nm pad post q name n :
  rw_at m fdt b -> b_toks b = pre ++ TBegin nm pad :: post -> walk_fuel b fuel ->
  cstr_at m q name -> q + zlen name + 1 <= fdt \/ fdt + b_total b <= q -> zlen name < 2 ^ 31 - 1 -> 0 <= n < 2 ^ 31 - 16 ->
  let p := fdt + b_off_struct b + pos (pre ++ [TBegin nm pad]) in
  if free_bytes b <? prop_need b name n then
    exists r m', fdt_add_property_ fuel m fdt (pos pre) q n = Done (- FDT_ERR_NOSPACE, r, m') /\ rw_at m' fdt b /\
      same_outside m m' fdt (b_total b)
  else exists m' o more hole, fdt_add_property_ fuel m fdt (pos pre) q n = Done (0, p, m') /\
    string_at (b_strings b ++ more) o name /\ 0 <= o < 2 ^ 31 /\ zlen hole = pad4 n /\
    struct_at m' fdt (shifted (with_strings b (b_strings b ++ more)) (12 + pad4 n))
      (toks_bytes (pre ++ [TBegin nm pad]) ++ (be32 FDT_PROP ++ be32 n ++ be32 o) ++ hole ++ toks_bytes post) /\
    same_outside m m' fdt (b_total b).
Proof.
  intros H E Hfu Hq Hd Hnl Hn p. pose proof (rw_at_blob _ _ _ H) as Hb. pose proof H as [Hsa Htok].
  destruct (struct_facts _ _ _ _ Hsa) as (? & ? & ? & ? & ? & ? & ? & ? & ?). pose proof (pos_nonneg (pre ++ [TBegin nm pad])).
  assert (toks_bytes (b_toks b) = toks_bytes (pre ++ [TBegin nm pad]) ++ toks_bytes post) as Et by (rewrite E, <- toks_bytes_app; f_equal; tok_assoc).
  pose proof (pos_nonneg post). pose proof (zlen_nonneg name). pose proof (pad4_bounds n).
  assert (pos (pre ++ [TBegin nm pad]) + pos post = zlen (toks_bytes (b_toks b))) as Hsum by (rewrite Et, zlen_app; done).
  unfold fdt_add_property_. rewrite (check_node_spec fuel m fdt b pre nm pad _ Hb E Hfu), bind_Done. bdec. rewrite Et in *.
  pose proof (find_add_spec m fdt b _ q name Hsa Hq Hd Hnl) as L. unfold prop_need. set (pre1 := pre ++ [TBegin nm pad]) in *.
  destruct (find_sub (b_strings b) (name ++ [0]) 0) as [o|].
  - destruct L as (-> & Hso & Ho). rewrite bind_Done. assert (0 <= o) by (by destruct Hso). bdec. rewrite Z.add_0_r.
    pose proof (add_property_at_spec m fdt b pre1 post q name n o false) as L. cbv zeta in L. rewrite strings_with_false in L.
    specialize (L Hsa Hq Hn ltac:(lia)). case_if.
    + destruct L as (r & m' & -> & H' & Hs'). exists r, m'. split; [done|]. split; [|done]. split; [by rewrite Et|done].
    + destruct L as (m' & hole & -> & Hl & H' & Hs'). exists m', o, [], hole. rewrite app_nil_r. do 4 (split; [done|]). split; [|done].
      by destruct b.
  - destruct (free_bytes b <? zlen name + 1) eqn:Ef; b2p.
    + rewrite L, bind_Done. change (- FDT_ERR_NOSPACE <? 0) with true. cbn iota. bdec. exists NULL, m. split; [done|]. split; [done|apply same_outside_refl].
    + destruct L as (m1 & -> & Hm1 & Hs1). rewrite bind_Done. bdec.
      assert (cstr_at m1 q name) as Hq1.
      { destruct Hq as [Hnm Hq]. split; [done|]. apply (bytes_at_outside m m1 _ _ _ _ Hs1); [rewrite zlen_app; change (zlen [0]) with 1; lia|done]. }
      pose proof (add_property_at_spec m1 fdt b pre1 post q name n (zlen (b_strings b)) true Hm1 Hq1 Hn ltac:(lia)) as L. cbv zeta in L.
      assert (free_bytes (strings_with b name true) = free_bytes b - (zlen name + 1)) as Efb.
      { unfold free_bytes, strings_with. cbn [with_strings b_total b_off_strings b_strings]. rewrite !zlen_app. change (zlen [0]) with 1. lia. }
      rewrite Efb in L. revert L. case_if; case_if; b2p; try lia; intros L.
      * destruct L as (r & m' & -> & H' & Hs'). exists r, m'. split; [done|]. split; [|by eapply same_outside_trans]. split; [by rewrite Et|done].
      * destruct L as (m' & hole & -> & Hl & H' & Hs'). exists m', (zlen (b_strings b)), (name ++ [0]), hole. split; [done|]. split.
        { split; [lia|]. split; [apply Hq|]. exists []. by rewrite to_nat_zlen, drop_app_length. }
        split; [lia|]. split; [done|]. split; [done|]. by eapply same_outside_trans.
Qed.
End adding.

(** ** Setting a property of a tree *)
Fixpoint props_replace (ps : list (list Z * list Z)) (name v : list Z) : list (list Z * list Z) :=
  match ps with
  | [] => []
  | (n, w) :: ps' => if bool_decide (n = name) then (n, v) :: ps' else (n, w) :: props_replace ps' name v
  end.

(** The value is replaced where the property exists; a new one comes first. *)
Definition set_prop (ps : list (list Z * list Z)) (name v : list Z) : list (list Z * list Z) :=
  match assoc_prop ps name with Some _ => props_replace ps name v | None => (name, v) :: ps end.
Definition tree_set (t : fdt_tree) (name v : list Z) : fdt_tree :=
  FNode (ft_name t) (set_prop (ft_props t) name v) (ft_children t).

(** The bytes that setting the property takes from what is free. *)
Definition setprop_need (b : blob) (ps : list (list Z * list Z)) (name v : list Z) : Z :=
  match assoc_prop ps name with
  | Some old => pad4 (zlen v) - pad4 (zlen old)
  | None => prop_need b name (zlen v)
  end.

Section setting.
Implicit Types (m : mem) (b : blob) (t : fdt_tree) (ctx : list frame).

Lemma nonzero_split_inj (s s' r r' : list Z) :
  Forall (fun c => 0 < c < 256) s -> Forall (fun c => 0 < c < 256) s' -> s ++ 0 :: r = s' ++ 0 :: r' -> s = s'.
Proof.
  intros Hs. revert s'. induction Hs as [|c s Hc _ IH]; intros s' Hs' E; (destruct Hs' as [|c' s' Hc' Hs']; cbn in E; [|]).
  - done.
  - injection E as E1 E2. lia.
  - injection E as E1 E2. lia.
  - injection E as -> E2. f_equal. by apply IH.
Qed.

Lemma string_at_inj strings o s s' : string_at strings o s -> string_at strings o s' -> s = s'.
Proof. intros (_ & Hs & r & E) (_ & Hs' & r' & E'). rewrite E in E'. by eapply nonzero_split_inj. Qed.

Lemma props_toks_app strings more ps ts : props_toks strings ps ts -> props_toks (strings ++ more) ps ts.
Proof. induction 1; constructor; auto using string_at_app. Qed.

Lemma forest_toks_strings strings more f ts : forest_toks strings f ts -> forest_toks (strings ++ more) f ts.
Proof. induction 1; constructor; auto using props_toks_app. Qed.

Lemma ctx_toks_strings strings more ctx pre post : ctx_toks strings ctx pre post -> ctx_toks (strings ++ more) ctx pre post.
Proof. induction 1; constructor; auto using props_toks_app, forest_toks_strings. Qed.

Lemma props_replace_toks strings ps gap o old pad rest name v pad' :
  props_toks strings ps (gap ++ TProp o old pad :: rest) -> Forall (other_tok strings name) gap -> string_at strings o name ->
  props_toks strings (props_replace ps name v) (gap ++ TProp o v pad' :: rest).
Proof.
  remember (gap ++ TProp o old pad :: rest) as ts eqn:E. intros H. revert gap E.
  induction H as [|ps ts _ IH|o' s w pad0 ps ts Hs Hps IH]; intros gap E Hg Ho.
  - by destruct gap.
  - destruct gap as [|t gap]; [done|]. injection E as <- E. inversion Hg; subst. cbn [app]. constructor. by apply IH.
  - destruct gap as [|t gap]; cbn [app] in *.
    + injection E as -> -> -> E. subst ts. rewrite (string_at_inj _ _ _ _ Hs Ho). cbn [props_replace]. rewrite bool_decide_true by done.
      by constructor.
    + injection E as <- E. inversion Hg as [|? ? Ht Hg']; subst. destruct Ht as (s' & Hs' & Hne). rewrite (string_at_inj _ _ _ _ Hs' Hs) in Hne.
      cbn [props_replace]. rewrite bool_decide_false by done. constructor; [done|]. by apply IH.
Qed.

(** The copy of the value, which is left out when there is nothing to copy. *)
Lemma fill_copy m fdt b pre o v hole post val p :
  struct_at m fdt b (toks_bytes pre ++ (be32 FDT_PROP ++ be32 (zlen v) ++ be32 o) ++ hole ++ toks_bytes post) ->
  zlen hole = pad4 (zlen v) -> Forall tok_ok pre -> Forall tok_ok post -> 0 <= o < 2 ^ 31 -> are_bytes v -> zlen v < 2 ^ 31 ->
  bytes_at m val v -> val + zlen v <= fdt \/ fdt + b_total b <= val -> p = fdt + b_off_struct b + pos pre + 12 ->
  exists m' pad', (if negb (zlen v =? 0) then '(_, m) ← memcpy m p val (u32 (zlen v)); Done m else Done m) = Done m' /\
    rw_at m' fdt (with_toks b (pre ++ TProp o v pad' :: post)) /\ same_outside m m' fdt (b_total b).
Proof.
  intros H Hl Hpre Hpost Ho Hv Hv31 Hat Hd ->. pose proof (zlen_nonneg v).
  destruct (fill_spec m fdt b pre o v hole post val) as (m' & pad' & E & H' & Hs); [done..|].
  exists m', pad'. split; [|done]. rewrite u32_small by lia. destruct (Z.eqb_spec (zlen v) 0) as [E0|]; cbn [negb].
  - assert (v = []) as -> by (destruct v; [done|rewrite zlen_cons in E0; pose proof (zlen_nonneg v); lia]).
    unfold memcpy in E. change (Z.to_nat (zlen [])) with O in E. cbn [copy_up] in E. rewrite bind_Done in E. congruence.
  - by rewrite E, bind_Done.
Qed.

(** The whole of [fdt_setprop]. *)
Lemma setprop_existing fuel m fdt b pre nm pad pts cts post ps cs old q name val v :
  rw_at m fdt b -> b_toks b = pre ++ TBegin nm pad :: pts ++ cts ++ TEnd :: post ->
  props_toks (b_strings b) ps pts -> forest_toks (b_strings b) cs cts -> assoc_prop ps name = Some old ->
  walk_fuel b fuel -> cstr_at m q name -> are_bytes v -> bytes_at m val v -> zlen v < 2 ^ 31 - 16 ->
  val + zlen v <= fdt \/ fdt + b_total b <= val ->
  if free_bytes b <? pad4 (zlen v) - pad4 (zlen old) then fdt_setprop fuel m fdt (pos pre) q val (zlen v) = Done (- FDT_ERR_NOSPACE, m)
  else exists m' pts', fdt_setprop fuel m fdt (pos pre) q val (zlen v) = Done (0, m') /\
    props_toks (b_strings b) (props_replace ps name v) pts' /\
    rw_at m' fdt (with_toks (shifted b (pad4 (zlen v) - pad4 (zlen old))) (pre ++ TBegin nm pad :: pts' ++ cts ++ TEnd :: post)) /\
    same_outside m m' fdt (b_total b).
Proof.
  intros H E Hps Hcs Hold Hfu Hq Hv Hval Hvl Hd. pose proof (rw_at_blob _ _ _ H) as Hb. pose proof (zlen_nonneg v). pose proof (zlen_nonneg old).
  pose proof (get_property_tokens fuel m fdt b pre nm pad pts cts post ps cs q name Hb E Hps Hcs Hfu (cstr_at_bytes _ _ _ Hq)) as L.
  rewrite Hold in L. destruct L as (gap & o & pad' & rest & -> & Hg & Ho & L).
  set (pre1 := pre ++ TBegin nm pad :: gap) in *.
  assert (b_toks b = pre1 ++ TProp o old pad' :: rest ++ cts ++ TEnd :: post) as E1 by (unfold pre1; rewrite E; tok_assoc).
  destruct (property_fields _ _ _ _ _ _ _ _ Hb E1) as (_ & _ & _ & Hp0 & Hp & Holdl).
  pose proof (resize_spec m fdt b pre1 o old pad' _ (zlen v) H E1 ltac:(lia)) as R. cbv zeta in R.
  destruct (header_fields _ _ _ Hb) as (_ & _ & _ & _ & _ & Hver & _).
  unfold fdt_setprop, fdt_setprop_placeholder, fdt_resize_property_, fdt_get_property, fdt_get_property_namelen.
  rewrite (rw_probe_spec _ _ _ H), bind_Done. change (negb (0 =? 0)) with false. cbn iota.
  rewrite (strlen_spec _ _ _ Hq), Hver, !bind_Done. change (17 <? 16) with false. cbn iota. rewrite L, !bind_Done. unfold NULL. bdec.
  set (p := fdt + b_off_struct b + pos pre1) in *. case_if.
  { rewrite R, !bind_Done. change (negb (- FDT_ERR_NOSPACE =? 0)) with true. cbn iota. rewrite bind_Done.
    change (- FDT_ERR_NOSPACE =? - FDT_ERR_NOTFOUND) with false. cbn iota. by rewrite !bind_Done. }
  destruct R as (m1 & m2 & hole & -> & Hst & Hl & _ & H2 & Hs2). rewrite !bind_Done. change (negb (0 =? 0)) with false. cbn iota.
  rewrite Hst, !bind_Done. change (0 =? - FDT_ERR_NOTFOUND) with false. cbn iota. rewrite !bind_Done. change (negb (0 =? 0)) with false. cbn iota.
  rewrite !bind_Done. change (negb (0 =? 0)) with false. cbn iota.
  destruct H as [Hsa Hok]. rewrite E1 in Hok. apply Forall_app in Hok as [Hok1 Hok2]. inversion Hok2 as [|? ? Hprop Hok3]; subst.
  destruct Hprop as (Ho31 & _ & _).
  destruct (fill_copy m2 fdt _ pre1 o v hole _ val (prop_data p) H2) as (m3 & pad2 & -> & H3 & Hs3); try done; try lia.
  { eapply bytes_at_outside; [exact Hs2|lia|done]. }
  { unfold prop_data. rewrite u32_small by lia. cbn [shifted b_off_struct]. done. }
  rewrite bind_Done. exists m3, (gap ++ TProp o v pad2 :: rest). split; [done|]. split; [by eapply props_replace_toks|]. split.
  - unfold pre1 in H3. by rewrite <- app_assoc in H3 |- *.
  - by eapply same_outside_trans.
Qed.

Lemma setprop_new fuel m fdt b pre nm pad pts cts post ps cs q name val v :
  rw_at m fdt b -> b_toks b = pre ++ TBegin nm pad :: pts ++ cts ++ TEnd :: post ->
  props_toks (b_strings b) ps pts -> forest_toks (b_strings b) cs cts -> assoc_prop ps name = None ->
  walk_fuel b fuel -> cstr_at m q name -> zlen name < 2 ^ 31 - 1 -> are_bytes v -> bytes_at m val v -> zlen v < 2 ^ 31 - 16 ->
  q + zlen name + 1 <= fdt \/ fdt + b_total b <= q -> val + zlen v <= fdt \/ fdt + b_total b <= val ->
  if free_bytes b <? prop_need b name (zlen v) then
    exists m', fdt_setprop fuel m fdt (pos pre) q val (zlen v) = Done (- FDT_ERR_NOSPACE, m') /\ rw_at m' fdt b /\
      same_outside m m' fdt (b_total b)
  else exists m' more o pad', fdt_setprop fuel m fdt (pos pre) q val (zlen v) = Done (0, m') /\
    string_at (b_strings b ++ more) o name /\
    rw_at m' fdt (with_toks (shifted (with_strings b (b_strings b ++ more)) (12 + pad4 (zlen v)))
      (pre ++ TBegin nm pad :: TProp o v pad' :: pts ++ cts ++ TEnd :: post)) /\
    same_outside m m' fdt (b_total b).
Proof.
  intros H E Hps Hcs Hno Hfu Hq Hnl Hv Hval Hvl Hdq Hd. pose proof (rw_at_blob _ _ _ H) as Hb. pose proof (zlen_nonneg v).
  pose proof (get_property_tokens fuel m fdt b pre nm pad pts cts post ps cs q name Hb E Hps Hcs Hfu (cstr_at_bytes _ _ _ Hq)) as L.
  rewrite Hno in L.
  pose proof (add_property_spec fuel m fdt b pre nm pad _ q name (zlen v) H E Hfu Hq Hdq Hnl ltac:(lia)) as R. cbv zeta in R.
  destruct (header_fields _ _ _ Hb) as (_ & _ & _ & _ & _ & Hver & _).
  unfold fdt_setprop, fdt_setprop_placeholder, fdt_resize_property_, fdt_get_property, fdt_get_property_namelen.
  rewrite (rw_probe_spec _ _ _ H), bind_Done. change (negb (0 =? 0)) with false. cbn iota.
  rewrite (strlen_spec _ _ _ Hq), Hver, !bind_Done. change (17 <? 16) with false. cbn iota. rewrite L, !bind_Done.
  change (NULL =? NULL) with true. cbn iota. rewrite bind_Done. rewrite (Z.eqb_refl (- FDT_ERR_NOTFOUND)). cbn iota.
  set (p := fdt + b_off_struct b + pos (pre ++ [TBegin nm pad])) in *. case_if.
  { destruct R as (r & m' & -> & H' & Hs'). rewrite !bind_Done. change (negb (- FDT_ERR_NOSPACE =? 0)) with true. cbn iota.
    rewrite bind_Done. change (negb (- FDT_ERR_NOSPACE =? 0)) with true. cbn iota. by exists m'. }
  destruct R as (m2 & o & more & hole & -> & Hso & Ho & Hl & Hm2 & Hs2). rewrite !bind_Done. change (negb (0 =? 0)) with false. cbn iota.
  rewrite bind_Done. change (negb (0 =? 0)) with false. cbn iota.
  destruct (token_at _ _ _ _ _ _ Hb E) as (_ & Hbegin & Hpre & Hsum). pose proof H as [Hsa Hok].
  destruct (struct_facts _ _ _ _ Hsa) as (? & ? & ? & ? & ? & ? & ? & ? & ?).
  rewrite E in Hok. apply Forall_app in Hok as [_ Hok]. inversion Hok as [|? ? _ Hok3]; subst.
  pose proof (pos_nonneg (pre ++ [TBegin nm pad])). pose proof (pos_nonneg (pts ++ cts ++ TEnd :: post)).
  assert (pos (pre ++ [TBegin nm pad]) <= zlen (toks_bytes (b_toks b))) as Hpb.
  { change (zlen (toks_bytes (b_toks b))) with (pos (b_toks b)). rewrite <- Hsum, pos_app, pos_cons. change (pos []) with 0. lia. }
  destruct (struct_facts _ _ _ _ Hm2) as (_ & _ & Hle2 & Hfit2 & _). rewrite !zlen_app in Hle2.
  change (zlen (toks_bytes (pre ++ [TBegin nm pad]))) with (pos (pre ++ [TBegin nm pad])) in Hle2.
  change (zlen (be32 FDT_PROP)) with 4 in Hle2. change (zlen (be32 (zlen v))) with 4 in Hle2. change (zlen (be32 o)) with 4 in Hle2.
  pose proof (zlen_nonneg hole). pose proof (zlen_nonneg (toks_bytes (pts ++ cts ++ TEnd :: post))).
  pose proof (zlen_nonneg (b_strings (shifted (with_strings b (b_strings b ++ more)) (12 + pad4 (zlen v))))).
  change (b_off_struct (shifted (with_strings b (b_strings b ++ more)) (12 + pad4 (zlen v)))) with (b_off_struct b) in *.
  change (b_total (shifted (with_strings b (b_strings b ++ more)) (12 + pad4 (zlen v)))) with (b_total b) in *.
  destruct (fill_copy m2 fdt _ (pre ++ [TBegin nm pad]) o v hole _ val (prop_data p) Hm2) as (m3 & pad2 & -> & Hm3 & Hs3);
    try done; try lia.
  { apply Forall_app. split; [done|]. by constructor. }
  { eapply bytes_at_outside; [exact Hs2|lia|done]. }
  { unfold prop_data. change (b_off_struct (shifted (with_strings b (b_strings b ++ more)) (12 + pad4 (zlen v)))) with (b_off_struct b).
    rewrite u32_small by (unfold p; lia). done. }
  rewrite bind_Done. exists m3, more, o, pad2. split; [done|]. split; [done|]. split.
  - by rewrite <- app_assoc in Hm3.
  - by eapply same_outside_trans.
Qed.

(** The blob after the call holds the tree with the property set; without room
    it still holds the old one. *)
Lemma fdt_setprop_spec fuel m fdt b off ctx t q name val v :
  rw_at m fdt b -> located b off ctx t -> walk_fuel b fuel ->
  cstr_at m q name -> zlen name < 2 ^ 31 - 1 -> q + zlen name + 1 <= fdt \/ fdt + b_total b <= q ->
  are_bytes v -> bytes_at m val v -> zlen v < 2 ^ 31 - 16 -> val + zlen v <= fdt \/ fdt + b_total b <= val ->
  if free_bytes b <? setprop_need b (ft_props t) name v then
    exists m', fdt_setprop fuel m fdt off q val (zlen v) = Done (- FDT_ERR_NOSPACE, m') /\ rw_at m' fdt b /\
      same_outside m m' fdt (b_total b)
  else exists m' b', fdt_setprop fuel m fdt off q val (zlen v) = Done (0, m') /\ rw_at m' fdt b' /\
    located b' off ctx (tree_set t name v) /\ b_total b' = b_total b /\ same_outside m m' fdt (b_total b).
Proof.
  intros H (pre & nts & post & E & -> & Hctx & pad & pts & cts & -> & Hps & Hcs) Hfu Hq Hnl Hdq Hv Hval Hvl Hd.
  assert (b_toks b = pre ++ TBegin (ft_name t) pad :: pts ++ cts ++ TEnd :: post) as E1 by (rewrite E; tok_assoc).
  unfold setprop_need, tree_set, set_prop. destruct (assoc_prop (ft_props t) name) as [old|] eqn:Ea.
  - pose proof (setprop_existing fuel m fdt b pre _ pad pts cts post _ _ old q name val v H E1 Hps Hcs Ea Hfu Hq Hv Hval Hvl Hd) as L.
    case_if; [exists m; split; [done|]; split; [done|apply same_outside_refl]|].
    destruct L as (m' & pts' & -> & Hps' & H' & Hs'). eexists m', _. split; [done|]. split; [exact H'|]. split; [|done].
    exists pre, (TBegin (ft_name t) pad :: pts' ++ cts ++ [TEnd]), post. split; [cbn [with_toks b_toks]; tok_assoc|]. split; [done|].
    split; [done|]. by exists pad, pts', cts.
  - pose proof (setprop_new fuel m fdt b pre _ pad pts cts post _ _ q name val v H E1 Hps Hcs Ea Hfu Hq Hnl Hv Hval Hvl Hdq Hd) as L.
    case_if; [done|]. destruct L as (m' & more & o & pad' & -> & Hso & H' & Hs'). eexists m', _. split; [done|]. split; [exact H'|]. split; [|done].
    exists pre, (TBegin (ft_name t) pad :: (TProp o v pad' :: pts) ++ cts ++ [TEnd]), post. split; [cbn [with_toks b_toks]; tok_assoc|]. split; [done|].
    cbn [with_toks shifted with_strings b_strings]. split; [by apply ctx_toks_strings|].
    exists pad, (TProp o v pad' :: pts), cts. split; [done|]. cbn [ft_props ft_children].
    split; [constructor; [done|by apply props_toks_app]|by apply forest_toks_strings].
Qed.
End setting.
