(* ===== verification/FdtProps.v ===== *)
(** * Flattened device trees: the properties

    Reading and changing a blob through paths, in terms of the tree it holds,
    and what the library does with blobs that are not well formed. *)
From S2P Require Import Prelude Machine CString Adt Fdt FdtSpec FdtRw FdtRwSpec.

(** ** A small blob

<<
/ { model = "mh"; chosen { bootargs = "x"; }; };
>>
    with 64 bytes to spare, and the caller's strings behind it. *)
Definition demo_strings : list Z := bytes_of "model" ++ [0] ++ bytes_of "bootargs" ++ [0].
Definition demo_chosen : fdt_tree := FNode (bytes_of "chosen") [(bytes_of "bootargs", bytes_of "x" ++ [0])] [].
Definition demo_fdt : fdt_tree := FNode [] [(bytes_of "model", bytes_of "mh" ++ [0])] [demo_chosen].
Definition demo_toks : list token :=
  [TBegin [] [0; 0; 0]; TProp 0 (bytes_of "mh" ++ [0]) [0];
   TBegin (bytes_of "chosen") [0]; TProp 6 (bytes_of "x" ++ [0]) [0; 0]; TEnd; TEnd; TFin].
Definition demo_blob : blob := Blob 232 56 (56 + pos demo_toks) 40 16 0 demo_toks demo_strings.
Definition blob_bytes (b : blob) : list Z :=
  flat_map be32 (header_words b) ++ replicate 16 0 ++ toks_bytes (b_toks b) ++ b_strings b ++
  replicate (Z.to_nat (free_bytes b)) 0.
Definition demo_strs : list Z :=
  bytes_of "/chosen" ++ [0] ++ bytes_of "bootargs" ++ [0] ++ bytes_of "linux,initrd-start" ++ [0] ++ [8; 16; 0; 0; 9].
Example demo_total : zlen (blob_bytes demo_blob) = b_total demo_blob.
Proof. reflexivity. Qed.

(** Evaluation of the side conditions on concrete lists. *)
Definition between (lo hi : Z) (l : list Z) : bool := forallb (fun c => (lo <? c) && (c <? hi)) l.
Definition tok_okb (t : token) : bool :=
  match t with
  | TBegin name pad => between 0 256 name && (zlen pad =? pad4 (zlen (name ++ [0])) - zlen (name ++ [0]))
  | TProp o v pad => (0 <=? o) && (o <? 2 ^ 31) && between (-1) 256 v && (zlen pad =? pad4 (zlen v) - zlen v)
  | _ => true
  end.

Lemma between_Forall lo hi l : between lo hi l = true -> Forall (fun c => lo < c < hi) l.
Proof. unfold between. intros H%Is_true_true_2%forallb_True. eapply Forall_impl; [exact H|]. cbn. intros x Hx. apply Is_true_true in Hx. b2p. lia. Qed.

Lemma between_bytes l : between (-1) 256 l = true -> are_bytes l.
Proof. intros H%between_Forall. eapply Forall_impl; [exact H|]. unfold is_byte. cbn. lia. Qed.

Lemma tok_okb_ok ts : forallb tok_okb ts = true -> Forall tok_ok ts.
Proof.
  intros H%Is_true_true_2%forallb_True. eapply Forall_impl; [exact H|]. cbn. intros t Ht. apply Is_true_true in Ht.
  destruct t as [name pad|o v pad| | |]; cbn [tok_okb tok_ok] in *; try done; b2p.
  - split; [by apply between_Forall|done].
  - split; [lia|]. split; [by apply between_bytes|done].
Qed.

Lemma bytes_byte_region m a bs : bytes_at m a bs -> are_bytes bs -> byte_region m a (zlen bs).
Proof.
  intros H Hb k Hk. destruct (lookup_lt_is_Some_2 bs (Z.to_nat (k - a))) as [x Hx]; [unfold zlen in *; lia|].
  destruct (bytes_at_lookup _ _ _ _ _ H Hx) as [Hl ?]. replace (a + Z.of_nat (Z.to_nat (k - a))) with k in * by lia.
  exists x. split; [done|]. split; [by apply (Forall_lookup_1 _ _ _ _ Hb Hx)|done].
Qed.

(** A memory with a blob that leaves no gaps, and strings of the caller's. *)
Definition blob_mem (b : blob) (strs : list Z) : mem := write_bytes (write_bytes ∅ 0x1000 (blob_bytes b)) 0x2000 strs.
Definition compact (b : blob) : bool :=
  (zlen (blob_bytes b) =? b_total b) && (b_total b <? 0x1000) && (b_off_struct b =? 56) && (b_off_strings b =? 56 + pos (b_toks b)) &&
  (b_off_rsv b =? 40) && (b_last b =? 16) && (b_cpuid b =? 0) && (b_off_strings b + zlen (b_strings b) <=? b_total b) &&
  forallb tok_okb (b_toks b) && between (-1) 256 (blob_bytes b).

Section blob_mem.
Context (b : blob) (strs : list Z) (Hc : compact b = true).
#[local] Set Default Proof Using "Type*".

Lemma compact_facts :
  zlen (blob_bytes b) = b_total b /\ b_total b < 0x1000 /\ b_off_struct b = 56 /\ b_off_strings b = 56 + pos (b_toks b) /\
  b_off_rsv b = 40 /\ b_last b = 16 /\ b_cpuid b = 0 /\ b_off_strings b + zlen (b_strings b) <= b_total b /\
  Forall tok_ok (b_toks b) /\ are_bytes (blob_bytes b).
Proof. pose proof Hc as H. unfold compact in H. b2p. eauto 20 using tok_okb_ok, between_bytes. Qed.

Lemma blob_mem_part P l Q : blob_bytes b = P ++ l ++ Q -> bytes_at (blob_mem b strs) (0x1000 + zlen P) l.
Proof.
  intros E. destruct compact_facts as (Hl & Ht & _). assert (bytes_at (blob_mem b strs) 0x1000 (blob_bytes b)) as H.
  { apply bytes_at_write_disj; [lia|]. apply bytes_at_write_eq; lia. }
  rewrite E in H. apply bytes_at_app in H as [_ H]. by apply bytes_at_app in H as [H _].
Qed.

Lemma blob_mem_rw : rw_at (blob_mem b strs) 0x1000 b.
Proof.
  destruct compact_facts as (Hl & Ht & Hs & Hst & Hr & Hla & Hcp & Hf & Htk & Hb).
  split; [|done]. change (zlen (toks_bytes (b_toks b))) with (pos (b_toks b)).
  pose proof (pos_nonneg (b_toks b)). split; try (unfold INT32_MAX; lia).
  - change (zlen (toks_bytes (b_toks b))) with (pos (b_toks b)). lia.
  - by apply (blob_mem_part [] _ _ eq_refl).
  - pose proof (blob_mem_part (flat_map be32 (header_words b) ++ replicate 16 0) (toks_bytes (b_toks b))
      (b_strings b ++ replicate (Z.to_nat (free_bytes b)) 0)) as L.
    rewrite Hs. apply L. unfold blob_bytes. by rewrite <- app_assoc.
  - pose proof (blob_mem_part ((flat_map be32 (header_words b) ++ replicate 16 0) ++ toks_bytes (b_toks b)) (b_strings b)
      (replicate (Z.to_nat (free_bytes b)) 0)) as L.
    rewrite Hst. rewrite zlen_app in L. apply L. unfold blob_bytes. by rewrite <- !app_assoc.
  - rewrite <- Hl. apply bytes_byte_region; [|done]. rewrite <- (Z.add_0_r 0x1000). change 0 with (zlen (@nil Z)).
    apply (blob_mem_part [] _ []). by rewrite app_nil_r.
Qed.

(** Bytes and a string of the caller's. *)
Lemma blob_mem_bytes P l Q : strs = P ++ l ++ Q -> zlen strs <= 0x1000 -> bytes_at (blob_mem b strs) (0x2000 + zlen P) l.
Proof.
  intros E Hl. assert (bytes_at (blob_mem b strs) 0x2000 strs) as H by (apply bytes_at_write_eq; lia).
  rewrite E in H at 2. apply bytes_at_app in H as [_ H]. by apply bytes_at_app in H as [H _].
Qed.

Lemma blob_mem_str P s Q : strs = P ++ s ++ [0] ++ Q -> zlen strs <= 0x1000 -> between 0 256 s = true ->
  cstr_at (blob_mem b strs) (0x2000 + zlen P) s.
Proof. intros E Hl Hs. split; [by apply between_Forall|]. apply (blob_mem_bytes P _ Q); [by rewrite E, <- app_assoc|done]. Qed.
End blob_mem.

(** Constants one after the other, found by what they are. *)
Fixpoint const_at (g : list Z) (l : list (list Z)) (a : Z) : Z :=
  match l with [] => 0 | x :: l' => if bool_decide (x = g) then a else const_at g l' (a + zlen x) end.

Lemma const_at_part g l a : g ∈ l -> exists P Q, concat l = P ++ g ++ Q /\ const_at g l a = a + zlen P.
Proof.
  revert a. induction l as [|x l IH]; intros a Hg; [by apply not_elem_of_nil in Hg|]. cbn [const_at concat]. case_bool_decide as Hx.
  - subst. exists [], (concat l). rewrite zlen_nil. split; [done|lia].
  - apply elem_of_cons in Hg as [?|Hg]; [congruence|]. destruct (IH (a + zlen x) Hg) as (P & Q & -> & ->). exists (x ++ P), Q.
    rewrite zlen_app, <- app_assoc. split; [done|lia].
Qed.

Lemma blob_mem_const b l g :
  compact b = true -> zlen (concat l) <= 0x1000 -> g ∈ l ->
  bytes_at (blob_mem b (concat l)) (const_at g l 0x2000) g /\ 0x2000 <= const_at g l 0x2000.
Proof.
  intros Hc Hl Hg. destruct (const_at_part g l 0x2000 Hg) as (P & Q & E & ->). pose proof (zlen_nonneg P). split; [|lia].
  by eapply blob_mem_bytes.
Qed.

Definition demo_fdt_mem : mem := blob_mem demo_blob demo_strs.

Lemma demo_rw : rw_at demo_fdt_mem 0x1000 demo_blob.
Proof. by apply blob_mem_rw. Qed.

Lemma demo_string_at strings o s rest :
  0 <= o -> between 0 256 s = true -> drop (Z.to_nat o) strings = s ++ 0 :: rest -> string_at strings o s.
Proof. intros Ho Hs E. split; [done|]. split; [by apply between_Forall|]. by exists rest. Qed.

Lemma demo_at : fdt_at demo_fdt_mem 0x1000 demo_blob demo_fdt.
Proof.
  split; [apply rw_at_blob, demo_rw|]. exists (take 6 demo_toks). split; [reflexivity|].
  exists [0; 0; 0], [TProp 0 (bytes_of "mh" ++ [0]) [0]], (take 3 (drop 2 demo_toks)). split; [reflexivity|]. split.
  - constructor; [|constructor]. by eapply (demo_string_at _ _ _ (bytes_of "bootargs" ++ [0])).
  - apply (forest_node _ _ _ _ _ _ [TProp 6 (bytes_of "x" ++ [0]) [0; 0]] [] []); try constructor; [|constructor].
    by eapply (demo_string_at _ _ _ []).
Qed.

(** ** Setting and reading a property *)
Section properties.
Implicit Types (m : mem) (b : blob) (t : fdt_tree).

Lemma total_fuel m fdt b fuel : blob_at m fdt b -> 2 * b_total b + 2 < Z.of_nat fuel -> walk_fuel b fuel.
Proof.
  intros H. destruct (ba_ok _ _ _ H) as [_ Hs Ho Hf _ _ _ _]. pose proof (zlen_nonneg (b_strings b)). unfold walk_fuel. lia.
Qed.

Lemma located_nonneg b off ctx t : located b off ctx t -> 0 <= off.
Proof. intros (pre & _ & _ & _ & -> & _). apply pos_nonneg. Qed.

Lemma assoc_prop_cons n w ps name : assoc_prop ((n, w) :: ps) name = if bool_decide (n = name) then Some w else assoc_prop ps name.
Proof. unfold assoc_prop. cbn [List.find fst]. by case_bool_decide. Qed.

Lemma assoc_replace ps name v name' :
  assoc_prop (props_replace ps name v) name' =
    if bool_decide (name' = name) then (fun _ => v) <$> assoc_prop ps name else assoc_prop ps name'.
Proof.
  induction ps as [|[n w] ps IH]; [by case_bool_decide|]. cbn [props_replace].
  destruct (decide (n = name)) as [->|Hn]; [rewrite bool_decide_true by done|rewrite bool_decide_false by done];
    rewrite !assoc_prop_cons, ?IH; destruct (decide (name' = name)) as [->|].
  - by rewrite !bool_decide_true.
  - by rewrite !bool_decide_false by congruence.
  - by rewrite bool_decide_false, bool_decide_true by done.
  - by rewrite (bool_decide_false (name' = name)).
Qed.

Lemma assoc_set_prop ps name v : assoc_prop (set_prop ps name v) name = Some v.
Proof.
  unfold set_prop. destruct (assoc_prop ps name) as [w|] eqn:E.
  - by rewrite assoc_replace, bool_decide_true, E.
  - by rewrite assoc_prop_cons, bool_decide_true.
Qed.

Lemma fdt_getprop_spec fuel m fdt b off t q name :
  blob_at m fdt b -> node_at b off t -> walk_fuel b fuel -> cstr_at m q name ->
  match assoc_prop (ft_props t) name with
  | Some v => exists a, fdt_getprop fuel m fdt off q = Done (a, zlen v) /\ bytes_at m a v
  | None => fdt_getprop fuel m fdt off q = Done (NULL, - FDT_ERR_NOTFOUND)
  end.
Proof.
  intros H Hn Hfu Hq. pose proof (fdt_getprop_namelen_spec fuel m fdt b off t q name H Hn Hfu (cstr_at_bytes _ _ _ Hq)) as L.
  unfold fdt_getprop. rewrite (strlen_spec _ _ _ Hq), bind_Done. destruct (assoc_prop (ft_props t) name) as [v|]; [|done].
  destruct L as (a & -> & Hv & _). by exists a.
Qed.

(** C11: A device tree is read through its paths as the tree it encodes: on a
    well-formed blob an absolute path leads to exactly the node that the walk
    of the tree by its components ends at (names may leave out the unit
    address, repeated slashes count once), where reading a property gives the
    bytes that the tree has under that name and reading another name is
    FDT_ERR_NOTFOUND; a path that leads nowhere is FDT_ERR_NOTFOUND. *)
Theorem fdt_read_refines_tree r fuel m fdt b t path s q name :
  fdt_at m fdt b t -> 2 * b_total b + 2 < Z.of_nat fuel -> cstr_at m path (47 :: s) -> 0 < path -> cstr_at m q name ->
  match fdt_walk t (split_path [] s) with
  | None => fdt_path_offset r fuel m fdt path = Done (- FDT_ERR_NOTFOUND)
  | Some n => exists off, fdt_path_offset r fuel m fdt path = Done off /\ 0 <= off /\
      match assoc_prop (ft_props n) name with
      | Some v => exists a, fdt_getprop fuel m fdt off q = Done (a, zlen v) /\ bytes_at m a v
      | None => fdt_getprop fuel m fdt off q = Done (NULL, - FDT_ERR_NOTFOUND)
      end
  end.
Proof.
  intros Hat Hfu Hp Hp0 Hq. pose proof (proj1 Hat) as H. assert (walk_fuel b fuel) as Hw by (by eapply total_fuel).
  pose proof (fdt_path_offset_absolute r fuel m fdt b t path s Hat Hw Hp Hp0) as L. rewrite (fdt_focus_walk [] t).
  destruct (fdt_focus [] t (split_path [] s)) as [[ctx n]|]; [|exact L]. destruct L as (off & -> & Hl). exists off. split; [done|].
  split; [by eapply located_nonneg|]. apply (fdt_getprop_spec fuel m fdt b); [done|by eapply located_node|done|done].
Qed.

Lemma fdt_read_refines_tree_witness :
  exists off, fdt_path_offset (FdtRodata 0 0 0 0 0 0) 500 demo_fdt_mem 0x1000 0x2000 = Done off /\ 0 <= off /\
    exists a, fdt_getprop 500 demo_fdt_mem 0x1000 off (0x2000 + 8) = Done (a, 2) /\ bytes_at demo_fdt_mem a [120; 0].
Proof.
  refine (fdt_read_refines_tree (FdtRodata 0 0 0 0 0 0) 500 demo_fdt_mem 0x1000 demo_blob demo_fdt 0x2000 (bytes_of "chosen")
    (0x2000 + 8) (bytes_of "bootargs") demo_at _ _ _ _).
  - by vm_compute.
  - by apply (blob_mem_str demo_blob demo_strs eq_refl [] (bytes_of "/chosen") (drop 8 demo_strs)).
  - done.
  - by apply (blob_mem_str demo_blob demo_strs eq_refl (take 8 demo_strs) (bytes_of "bootargs") (drop 17 demo_strs)).
Defined.

(** C10: Setting a property changes the tree in that property only: when the
    blob is a tree [t] and the path leads to the node [n] of it, [fdt_setprop]
    at the offset of the path either succeeds, and then the blob is the same
    tree with the property replaced (or added in front), the rest of the memory
    is untouched, and the path leads to a node whose property is read back as
    the new value; or it fails with FDT_ERR_NOSPACE exactly when
    the free bytes of the blob do not cover what the value and a new name take,
    and then the blob still is the tree [t]. *)
Theorem fdt_setprop_refines_tree r fuel m fdt b t path s ctx n q name val v :
  rw_at m fdt b -> fdt_at m fdt b t -> 2 * b_total b + 2 < Z.of_nat fuel ->
  cstr_at m path (47 :: s) -> 0 < path -> path + zlen (47 :: s) + 1 <= fdt \/ fdt + b_total b <= path ->
  cstr_at m q name -> zlen name < 2 ^ 31 - 1 -> q + zlen name + 1 <= fdt \/ fdt + b_total b <= q ->
  are_bytes v -> bytes_at m val v -> zlen v < 2 ^ 31 - 16 -> val + zlen v <= fdt \/ fdt + b_total b <= val ->
  fdt_focus [] t (split_path [] s) = Some (ctx, n) ->
  exists off m', fdt_path_offset r fuel m fdt path = Done off /\ same_outside m m' fdt (b_total b) /\
    if free_bytes b <? setprop_need b (ft_props n) name v then
      fdt_setprop fuel m fdt off q val (zlen v) = Done (- FDT_ERR_NOSPACE, m') /\ fdt_at m' fdt b t
    else fdt_setprop fuel m fdt off q val (zlen v) = Done (0, m') /\
      exists b', rw_at m' fdt b' /\ b_total b' = b_total b /\ fdt_at m' fdt b' (plug ctx (tree_set n name v)) /\
        exists off' a, fdt_path_offset r fuel m' fdt path = Done off' /\
          fdt_getprop fuel m' fdt off' q = Done (a, zlen v) /\ bytes_at m' a v.
Proof.
  intros Hrw Hat Hfu Hp Hp0 Hdp Hq Hnl Hdq Hv Hval Hvl Hd Hfocus. pose proof (proj1 Hat) as H.
  assert (walk_fuel b fuel) as Hw by (by eapply total_fuel).
  pose proof (fdt_path_offset_absolute r fuel m fdt b t path s Hat Hw Hp Hp0) as L. rewrite Hfocus in L. destruct L as (off & Hoff & Hl).
  pose proof (fdt_setprop_spec fuel m fdt b off ctx n q name val v Hrw Hl Hw Hq Hnl Hdq Hv Hval Hvl Hd) as L. exists off. case_if.
  - destruct L as (m' & -> & H' & Hs'). exists m'. split; [done|]. split; [done|]. split; [done|].
    split; [by apply rw_at_blob|by destruct Hat].
  - destruct L as (m' & b' & -> & H' & Hl' & Ht & Hs'). exists m'. split; [done|]. split; [done|]. split; [done|].
    pose proof (rw_at_blob _ _ _ H') as Hb'. assert (walk_fuel b' fuel) as Hw' by (eapply total_fuel; [done|lia]).
    pose proof (located_fdt _ _ _ _ _ _ Hb' Hl') as Hat'.
    assert (cstr_at m' q name) as Hq' by (destruct Hq; split; [done|]; eapply bytes_at_outside; [done| |done]; rewrite zlen_app; change (zlen [0]) with 1; lia).
    assert (cstr_at m' path (47 :: s)) as Hp' by (destruct Hp; split; [done|]; eapply bytes_at_outside; [done| |done]; rewrite zlen_app; change (zlen [0]) with 1; lia).
    exists b'. split; [done|]. split; [done|]. split; [done|].
    destruct (fdt_focus_change [] t _ ctx n (tree_set n name v) Hfocus eq_refl) as (t0 & Hf0 & Hplug & _). cbn [plug] in Hplug. subst t0.
    pose proof (fdt_path_offset_absolute r fuel m' fdt b' _ path s Hat' Hw' Hp' Hp0) as L. rewrite Hf0 in L. destruct L as (off' & Ho' & Hl2).
    pose proof (fdt_getprop_spec fuel m' fdt b' off' (tree_set n name v) q name Hb' (located_node _ _ _ _ Hl2) Hw' Hq') as G.
    unfold tree_set in G at 1. cbn [ft_props] in G. rewrite assoc_set_prop in G. destruct G as (a & G & Ha). by exists off', a.
Qed.

Lemma fdt_setprop_refines_tree_witness :
  exists off m', fdt_path_offset (FdtRodata 0 0 0 0 0 0) 500 demo_fdt_mem 0x1000 0x2000 = Done off /\
    same_outside demo_fdt_mem m' 0x1000 232 /\
    fdt_setprop 500 demo_fdt_mem 0x1000 off (0x2000 + 17) (0x2000 + 36) 5 = Done (0, m') /\
    exists b', rw_at m' 0x1000 b' /\ b_total b' = 232 /\
      fdt_at m' 0x1000 b' (FNode [] [(bytes_of "model", bytes_of "mh" ++ [0])]
        [FNode (bytes_of "chosen") [(bytes_of "linux,initrd-start", [8; 16; 0; 0; 9]); (bytes_of "bootargs", bytes_of "x" ++ [0])] []]) /\
      exists off' a, fdt_path_offset (FdtRodata 0 0 0 0 0 0) 500 m' 0x1000 0x2000 = Done off' /\
        fdt_getprop 500 m' 0x1000 off' (0x2000 + 17) = Done (a, 5) /\ bytes_at m' a [8; 16; 0; 0; 9].
Proof.
  refine (fdt_setprop_refines_tree (FdtRodata 0 0 0 0 0 0) 500 demo_fdt_mem 0x1000 demo_blob demo_fdt 0x2000 (bytes_of "chosen")
    [Frame [] [(bytes_of "model", bytes_of "mh" ++ [0])] [] []] demo_chosen
    (0x2000 + 17) (bytes_of "linux,initrd-start") (0x2000 + 36) [8; 16; 0; 0; 9] demo_rw demo_at _ _ _ _ _ _ _ _ _ _ _ _).
  - by vm_compute.
  - by apply (blob_mem_str demo_blob demo_strs eq_refl [] (bytes_of "/chosen") (drop 8 demo_strs)).
  - done.
  - right. by vm_compute.
  - by apply (blob_mem_str demo_blob demo_strs eq_refl (take 17 demo_strs) (bytes_of "linux,initrd-start") (drop 36 demo_strs)).
  - by vm_compute.
  - right. by vm_compute.
  - by apply between_bytes.
  - by apply (blob_mem_bytes demo_blob demo_strs eq_refl (take 36 demo_strs) [8; 16; 0; 0; 9] []).
  - by vm_compute.
  - right. by vm_compute.
  - reflexivity.
Defined.
End properties.

(** ** A property of negative length

    [fdt_next_tag] adds the length of a property to the offset without looking
    at its sign. *)
Section negative_length.
Context (m : mem) (fdt s total size o : Z).
Context (Hs : fdt_off_dt_struct m fdt = Done s) (Ht : fdt_totalsize m fdt = Done total).
Context (Hv : fdt_version m fdt = Done 17) (Hz : fdt_size_dt_struct m fdt = Done size).
Context (Ho : 0 <= o /\ o mod 4 = 0) (Hsize : o + 8 <= size) (Hs0 : 0 <= s) (Hst : s + size <= total) (Hend : 0 < fdt /\ fdt + total < 2 ^ 31).
Context (Htag : fdt32_ld m (fdt + s + o) = Done FDT_PROP) (Hlen : fdt32_ld m (fdt + s + o + 4) = Done (2 ^ 32 - 12)).
#[local] Set Default Proof Using "Type*".

Lemma raw_offset_ptr off len : 0 <= off -> 0 <= len -> off + len <= size -> fdt_offset_ptr m fdt off len = Done (fdt + s + off).
Proof.
  intros. unfold fdt_offset_ptr, fdt_offset_ptr_. rewrite Hs, bind_Done. bdec. rewrite Ht, bind_Done, !u32_small by lia. bdec.
  cbn [orb]. rewrite Hv, Hz, !bind_Done. bdec. cbn [orb andb].
  rewrite ?bind_Done, u32_small by lia. done.
Qed.

Lemma next_tag_stays fuel : fdt_next_tag fuel m fdt o = Done (FDT_PROP, o).
Proof.
  unfold fdt_next_tag, FDT_TAGSIZE. rewrite raw_offset_ptr, bind_Done by lia. unfold NULL. bdec. rewrite Htag, bind_Done, s32_id by lia.
  unfold tag_end. change (FDT_PROP =? FDT_BEGIN_NODE) with false. change (FDT_PROP =? FDT_PROP) with true. cbn iota.
  rewrite raw_offset_ptr, bind_Done by lia. unfold NULL. bdec. replace (fdt + s + (o + 4)) with (fdt + s + o + 4) by lia.
  rewrite Hlen, bind_Done, Hv, bind_Done. change (17 <? 16) with false. cbn [andb]. unfold FDT_TAGSIZE.
  assert (s32 (o + 4 + (12 - 4 + (2 ^ 32 - 12))) = o) as ->.
  { replace (o + 4 + (12 - 4 + (2 ^ 32 - 12))) with (o + 1 * 2 ^ 32) by lia. unfold signed. rewrite Z.mod_add by lia. exact (s32_id o ltac:(lia)). }
  rewrite bind_Done, Z.sub_diag, u32_small by lia. rewrite raw_offset_ptr, bind_Done by lia. bdec.
  do 2 f_equal. rewrite tagalign_pad4 by lia. unfold pad4. lia.
Qed.
End negative_length.

(** From offset [o1] the properties and fillers of a node lead to offset [o2]. *)
Inductive passes (m : mem) (fdt : Z) : Z -> Z -> Prop :=
| passes_here o : passes m fdt o o
| passes_tag tag o1 o2 o3 : tag = FDT_PROP \/ tag = FDT_NOP -> (forall fuel, fdt_next_tag fuel m fdt o1 = Done (tag, o2)) ->
    passes m fdt o2 o3 -> passes m fdt o1 o3.

Lemma next_node_passes m fdt o1 o2 depth fuel :
  passes m fdt o1 o2 -> (forall fuel, next_node_loop fuel m fdt o2 depth = Stuck) -> next_node_loop fuel m fdt o1 depth = Stuck.
Proof.
  intros Hp. revert fuel. induction Hp as [o|tag o1 o2 o3 Htag Hnext _ IH]; intros fuel Hs; [done|].
  destruct fuel as [|fuel]; [done|]. cbn [next_node_loop]. rewrite Hnext, bind_Done. destruct Htag as [-> | ->]; by apply IH.
Qed.

(** C38: A property whose length field is 0xfffffff4 is never passed.  In a blob
    of version 17 whose structure block lies inside its total size, let such a
    property, at offset [o], follow the node at [off] with only well-formed
    properties and fillers in between: [fdt_next_tag] comes back from [o] to
    [o], and [fdt_next_node] and [fdt_first_subnode], started at the node, do
    not return, however many rounds they are given (enough to read the node's
    name).  The header checks of the library do not help: the witness is a blob
    that fdt_check_header accepts. *)
Theorem fdt_negative_length_diverges m fdt s total size off o1 o depth fuel :
  fdt_off_dt_struct m fdt = Done s -> fdt_totalsize m fdt = Done total -> fdt_version m fdt = Done 17 ->
  fdt_size_dt_struct m fdt = Done size -> 0 <= o /\ o mod 4 = 0 -> o + 8 <= size -> 0 <= s -> s + size <= total ->
  0 < fdt /\ fdt + total < 2 ^ 31 ->
  0 <= off -> off mod 4 = 0 -> fdt_next_tag fuel m fdt off = Done (FDT_BEGIN_NODE, o1) -> 0 <= o1 -> passes m fdt o1 o ->
  fdt32_ld m (fdt + s + o) = Done FDT_PROP -> fdt32_ld m (fdt + s + o + 4) = Done 0xfffffff4 ->
  fdt_next_tag fuel m fdt o = Done (FDT_PROP, o) /\ fdt_next_node fuel m fdt off depth = Stuck /\
  fdt_first_subnode fuel m fdt off = Stuck.
Proof.
  intros Hs Ht Hv Hz Ho Hsize Hs0 Hst Hend Hoff Hal Hbegin Ho1 Hp Htag Hlen.
  pose proof (next_tag_stays m fdt s total size o Hs Ht Hv Hz Ho Hsize Hs0 Hst Hend Htag Hlen) as L.
  assert (forall d fuel, next_node_loop fuel m fdt o d = Stuck) as Hloop
    by (intros d f; induction f as [|f IH]; [done|]; cbn [next_node_loop]; rewrite L, bind_Done; exact IH).
  assert (forall d, fdt_next_node fuel m fdt off d = Stuck) as Hnode.
  { intros d. unfold fdt_next_node, fdt_check_node_offset_, fdt_check_tag, FDT_TAGSIZE. rewrite Hal. bdec.
    change (false || negb (0 =? 0)) with false. cbn iota. rewrite Hbegin, bind_Done, Z.eqb_refl, bind_Done. bdec.
    eapply next_node_passes; [exact Hp|]. intros f. apply Hloop. }
  split; [apply L|]. split; [apply Hnode|]. unfold fdt_first_subnode. by rewrite Hnode.
Qed.

(** A root node with a property and then such a one. *)
Definition bad_fdt_bytes : list Z :=
  flat_map be32 [FDT_MAGIC; 116; 56; 100; 40; 17; 16; 0; 0; 44] ++ replicate 16 0 ++
  flat_map be32 [FDT_BEGIN_NODE; 0; FDT_PROP; 4; 0; 7; FDT_PROP; 2 ^ 32 - 12; 0; FDT_END_NODE; FDT_END] ++ replicate 16 0.
Definition bad_fdt_mem : mem := write_bytes ∅ 0x1000 bad_fdt_bytes.

Lemma fdt_negative_length_diverges_witness :
  fdt_check_header bad_fdt_mem 0x1000 = Done 0 /\
  fdt_next_tag 1000 bad_fdt_mem 0x1000 24 = Done (FDT_PROP, 24) /\ fdt_next_node 1000 bad_fdt_mem 0x1000 0 (Some 0) = Stuck /\
  fdt_first_subnode 1000 bad_fdt_mem 0x1000 0 = Stuck.
Proof.
  split; [by vm_compute|]. apply (fdt_negative_length_diverges bad_fdt_mem 0x1000 56 116 44 0 8 24 (Some 0) 1000); try by vm_compute.
  eapply (passes_tag _ _ FDT_PROP 8 24); [by left|intros fuel; vm_compute; reflexivity|constructor].
Defined.

(** ** Address ranges *)
Section addresses.
Implicit Types (m : mem) (b : blob) (t : fdt_tree).

(** What a cell-count property reads as. *)
Definition cells_value (v : option (list Z)) : Z :=
  match v with
  | None => - FDT_ERR_NOTFOUND
  | Some [b0; b1; b2; b3] =>
      let n := 2 ^ 24 * b0 + 2 ^ 16 * b1 + 2 ^ 8 * b2 + b3 in
      if FDT_MAX_NCELLS <? n then - FDT_ERR_BADNCELLS else n
  | Some _ => - FDT_ERR_BADNCELLS
  end.

Lemma fdt_cells_spec fuel m fdt b off t q name :
  blob_at m fdt b -> node_at b off t -> walk_fuel b fuel -> cstr_at m q name ->
  (forall v, assoc_prop (ft_props t) name = Some v -> are_bytes v) ->
  fdt_cells fuel m fdt off q = Done (cells_value (assoc_prop (ft_props t) name)).
Proof.
  intros H Hn Hfu Hq Hb. pose proof (fdt_getprop_namelen_spec fuel m fdt b off t q name H Hn Hfu (cstr_at_bytes _ _ _ Hq)) as L.
  unfold fdt_cells, fdt_getprop. rewrite (strlen_spec _ _ _ Hq), bind_Done.
  destruct (assoc_prop (ft_props t) name) as [v|]; [|by rewrite L, bind_Done].
  destruct L as (a & -> & Hv & Ha & _). specialize (Hb v eq_refl). rewrite bind_Done. unfold NULL. bdec.
  destruct (decide (length v = 4%nat)) as [Hl|Hl].
  - destruct v as [|b0 [|b1 [|b2 [|b3 [|]]]]]; try done. rewrite !Forall_cons in Hb. destruct Hb as (B0 & B1 & B2 & B3 & _).
    change (negb (zlen [b0; b1; b2; b3] =? 4)) with false. cbn iota.
    rewrite (fdt32_ld_bytes _ _ _ _ _ _ Hv B0 B1 B2 B3), bind_Done. cbn [cells_value]. cbv zeta. by case_if.
  - assert (negb (zlen v =? 4) = true) as -> by (apply negb_true_iff, Z.eqb_neq; unfold zlen; lia). cbn iota.
    by destruct v as [|b0 [|b1 [|b2 [|b3 [|]]]]].
Qed.

(** Address 0 cannot be appended with one address cell:
    [UINT32_MAX + 1 - addr] is 0 at address 0, because [UINT32_MAX + 1] wraps
    to 0 in 32 bits, so that [fdt_appendprop_addrrange] refuses every range of
    at least one byte there with FDT_ERR_BADVALUE and leaves the blob alone. *)
Theorem fdt_addrrange_refuses_address_0 r fuel m data fdt b parent t nodeoffset name size :
  blob_at m fdt b -> node_at b parent t -> walk_fuel b fuel ->
  cstr_at m (lit_address_cells r) (bytes_of "#address-cells") -> cstr_at m (lit_size_cells r) (bytes_of "#size-cells") ->
  assoc_prop (ft_props t) (bytes_of "#address-cells") = Some (be32 1) ->
  (forall v, assoc_prop (ft_props t) (bytes_of "#size-cells") = Some v -> are_bytes v) ->
  - FDT_ERR_NOTFOUND <= cells_value (assoc_prop (ft_props t) (bytes_of "#size-cells")) -> 0 < size ->
  fdt_appendprop_addrrange r fuel m data fdt parent nodeoffset name 0 size = Done (- FDT_ERR_BADVALUE, m).
Proof.
  intros H Hn Hfu Hla Hls Ha Hsb Hsv Hsize. unfold fdt_appendprop_addrrange, fdt_address_cells, fdt_size_cells.
  rewrite (fdt_cells_spec fuel m fdt b parent t _ _ H Hn Hfu Hla) by (intros v; rewrite Ha; intros [= <-]; apply be32_bytes).
  rewrite Ha, !bind_Done. change (cells_value (Some (be32 1))) with 1. change (1 =? 0) with false. change (1 =? - FDT_ERR_NOTFOUND) with false.
  cbn iota. change (1 <? 0) with false. cbn iota. rewrite (fdt_cells_spec fuel m fdt b parent t _ _ H Hn Hfu Hls Hsb), !bind_Done.
  set (c := cells_value _) in *. unfold FDT_ERR_NOTFOUND in *.
  assert ((if c =? - (1) then 1 else c) <? 0 = false) as -> by (apply Z.ltb_ge; case_if; b2p; lia).
  unfold store_address. change (1 =? 1) with true. change (UINT32_MAX <? 0) with false. change (u64 (u32 (UINT32_MAX + 1) - 0)) with 0.
  bdec. done.
Qed.
End addresses.

(** A bus with one address cell. *)
Definition bus_tree : fdt_tree := FNode [] [(bytes_of "#address-cells", be32 1)] [].
Definition bus_toks : list token := [TBegin [] [0; 0; 0]; TProp 0 (be32 1) []; TEnd; TFin].
Definition bus_blob : blob := Blob 200 56 (56 + pos bus_toks) 40 16 0 bus_toks (bytes_of "#address-cells" ++ [0]).
Definition bus_strs : list Z := bytes_of "#size-cells" ++ [0].
Definition bus_mem : mem := blob_mem bus_blob bus_strs.

Lemma bus_node : node_at bus_blob 0 bus_tree.
Proof.
  exists [], [0; 0; 0], [TProp 0 (be32 1) []], [], [TFin]. split; [reflexivity|]. split; [done|]. split; [|constructor].
  constructor; [|constructor]. by eapply (demo_string_at _ _ _ []).
Qed.

Lemma fdt_addrrange_refuses_address_0_witness :
  fdt_appendprop_addrrange (FdtRodata 0 0 0 0 (0x1000 + 88) 0x2000) 500 bus_mem 0x3000 0x1000 0 0 0x2000 0 0x1000 =
    Done (- FDT_ERR_BADVALUE, bus_mem).
Proof.
  apply (fdt_addrrange_refuses_address_0 _ 500 bus_mem 0x3000 0x1000 bus_blob 0 bus_tree).
  - apply rw_at_blob. by apply blob_mem_rw.
  - apply bus_node.
  - by vm_compute.
  - split; [by apply between_Forall|]. by apply (blob_mem_part bus_blob bus_strs eq_refl (take 88 (blob_bytes bus_blob)) _ (drop 103 (blob_bytes bus_blob))).
  - by apply (blob_mem_str bus_blob bus_strs eq_refl [] _ []).
  - reflexivity.
  - by intros v [=].
  - by vm_compute.
  - done.
Defined.
