(* ===== verification/Kboot.v ===== *)
(** * Booting Linux (src/kboot.c, src/kboot.h)

    The kernel's device tree is copied to the top of memory and completed
    there: memory reservations, the chosen node, the framebuffer, the serial
    number, the usable memory.  The functions change the memory, the allocator
    at the top of it and the static variables of the file; they are written in
    a state monad over [kboot].  Messages that are printed are left out.

    The C heap is the class [Malloc]; the addresses of string literals are a
    function [lit] of their text; [ke_stack] is where local variables that are
    passed by address live. *)
From S2P Require Import Prelude Machine CString Alloc Adt Vsprintf Iodev Fdt FdtRw.

Definition MAX_CHOSEN_PARAMS : Z := 16.
Definition MAX_MEM_REGIONS : Z := 8.
Definition SZ_16K : Z := 2 ^ 14.
Definition LOGBUF_SIZE : Z := SZ_16K.

(** ** State *)

(** xnuboot.h, the fields the program uses; [phys_base] and [mem_size] are in
    [top_mem], since allocations change the latter. *)
Record boot_video := BootVideo {
  v_base : Z;
  v_stride : Z;
  v_width : Z;
  v_height : Z;
  v_depth : Z;
}.

Record vector_args := VectorArgs { va_entry : Z; va_args : list Z; va_restore_logo : bool }.

(** The C heap, with its own state. *)
Class Malloc (A : Type) : Type := {
  calloc : Z -> A -> mem -> outcome (Z * A * mem);
  free : Z -> A -> mem -> outcome (A * mem);
}.

Record kboot (A : Type) := Kboot {
  kb_mem : mem;
  kb_heap : A;
  kb_top : top_mem;
  kb_dt : Z;
  kb_dt_bufsize : Z;
  kb_initrd_start : Z;
  kb_initrd_size : Z;
  kb_chosen_params : list (Z * Z);
  kb_log_buffer : Z;
  kb_log_wp : Z;
  kb_next_stage : option vector_args;
}.
Arguments Kboot {A}.
Arguments kb_mem {A}.
Arguments kb_heap {A}.
Arguments kb_top {A}.
Arguments kb_dt {A}.
Arguments kb_dt_bufsize {A}.
Arguments kb_initrd_start {A}.
Arguments kb_initrd_size {A}.
Arguments kb_chosen_params {A}.
Arguments kb_log_buffer {A}.
Arguments kb_log_wp {A}.
Arguments kb_next_stage {A}.

(** What does not change. *)
Record kboot_env := KbootEnv {
  ke_fuel : nat;
  ke_lit : string -> Z;
  ke_fdt_rodata : fdt_rodata;
  ke_adt_rodata : adt_rodata;
  ke_stack : Z;
  ke_adt : Z;
  ke_devtree_size : Z;
  ke_virt_base : Z;
  ke_video : boot_video;
  ke_fw_iboot : Z;
  ke_fw_string : Z;
  ke_mini_version : Z;
  ke_base : Z;
  ke_end : Z;
  ke_null_str : Z;
  ke_nil_str : Z;
}.

(** ** The monad *)
Section monad.
Context {A : Type}.
Implicit Types (s : kboot A).

#[local] Abbreviation K := (ST (kboot A)).

(** A computation that reads the memory, and one that changes it. *)
Definition reads {B} (f : mem -> outcome B) : K B := fun s => b ← f (kb_mem s); Done (b, s).

Definition set_mem s m := Kboot m (kb_heap s) (kb_top s) (kb_dt s) (kb_dt_bufsize s) (kb_initrd_start s) (kb_initrd_size s)
  (kb_chosen_params s) (kb_log_buffer s) (kb_log_wp s) (kb_next_stage s).
Definition set_heap s (h : A) := Kboot (kb_mem s) h (kb_top s) (kb_dt s) (kb_dt_bufsize s) (kb_initrd_start s) (kb_initrd_size s)
  (kb_chosen_params s) (kb_log_buffer s) (kb_log_wp s) (kb_next_stage s).
Definition set_top s t := Kboot (kb_mem s) (kb_heap s) t (kb_dt s) (kb_dt_bufsize s) (kb_initrd_start s) (kb_initrd_size s)
  (kb_chosen_params s) (kb_log_buffer s) (kb_log_wp s) (kb_next_stage s).
Definition set_dt d n s := Kboot (kb_mem s) (kb_heap s) (kb_top s) d n (kb_initrd_start s) (kb_initrd_size s)
  (kb_chosen_params s) (kb_log_buffer s) (kb_log_wp s) (kb_next_stage s).
Definition set_initrd p n s := Kboot (kb_mem s) (kb_heap s) (kb_top s) (kb_dt s) (kb_dt_bufsize s) p n
  (kb_chosen_params s) (kb_log_buffer s) (kb_log_wp s) (kb_next_stage s).
Definition set_chosen_params c s := Kboot (kb_mem s) (kb_heap s) (kb_top s) (kb_dt s) (kb_dt_bufsize s) (kb_initrd_start s) (kb_initrd_size s)
  c (kb_log_buffer s) (kb_log_wp s) (kb_next_stage s).
Definition set_logbuf b w s := Kboot (kb_mem s) (kb_heap s) (kb_top s) (kb_dt s) (kb_dt_bufsize s) (kb_initrd_start s) (kb_initrd_size s)
  (kb_chosen_params s) b w (kb_next_stage s).
Definition set_next_stage n s := Kboot (kb_mem s) (kb_heap s) (kb_top s) (kb_dt s) (kb_dt_bufsize s) (kb_initrd_start s) (kb_initrd_size s)
  (kb_chosen_params s) (kb_log_buffer s) (kb_log_wp s) n.

Definition writes {B} (f : mem -> outcome (B * mem)) : K B := fun s => '(b, m) ← f (kb_mem s); Done (b, set_mem s m).
Definition stores (f : mem -> outcome mem) : K unit := fun s => m ← f (kb_mem s); Done (tt, set_mem s m).
Definition top_alloc (size : Z) : K Z := fun s => let '(p, t) := top_of_memory_alloc size (kb_top s) in Done (p, set_top s t).

(** [if (cond) bail(...)]: -1, or go on. *)
Definition bail_if (cond : bool) (rest : K Z) : K Z := if cond then mret (-1) else rest.

Lemma run_reads {B C} (f : mem -> outcome B) (k : B -> K C) s b : f (kb_mem s) = Done b -> (reads f ≫= k) s = k b s.
Proof. intros H. apply run_bind. unfold reads. by rewrite H. Qed.

Lemma run_writes {B C} (f : mem -> outcome (B * mem)) (k : B -> K C) s b m :
  f (kb_mem s) = Done (b, m) -> (writes f ≫= k) s = k b (set_mem s m).
Proof. intros H. apply run_bind. unfold writes. by rewrite H. Qed.

Lemma run_stores {C} (f : mem -> outcome mem) (k : unit -> K C) s m : f (kb_mem s) = Done m -> (stores f ≫= k) s = k tt (set_mem s m).
Proof. intros H. apply run_bind. unfold stores. by rewrite H. Qed.
End monad.

Section kboot.
Context {A : Type} `{!Malloc A} (E : kboot_env).
#[local] Abbreviation K := (ST (kboot A)).
#[local] Abbreviation lit := (ke_lit E).
#[local] Abbreviation fuel := (ke_fuel E).
#[local] Abbreviation video := (ke_video E).

Definition k_calloc (n : Z) : K Z := fun s => '(p, h, m) ← calloc n (kb_heap s) (kb_mem s); Done (p, set_mem (set_heap s h) m).
Definition k_free (p : Z) : K unit := fun s => '(h, m) ← free p (kb_heap s) (kb_mem s); Done (tt, set_mem (set_heap s h) m).

(** Calls of libfdt on [dt]. *)
Definition dt_path (path : Z) : K Z := d ← gets kb_dt; reads (fun m => fdt_path_offset (ke_fdt_rodata E) fuel m d path).
Definition dt_setprop (node name val len : Z) : K Z := d ← gets kb_dt; writes (fun m => fdt_setprop fuel m d node name val len).
Definition dt_setprop_u32 (node name val : Z) : K Z := d ← gets kb_dt; writes (fun m => fdt_setprop_u32 fuel m (ke_stack E) d node name val).
Definition dt_setprop_u64 (node name val : Z) : K Z := d ← gets kb_dt; writes (fun m => fdt_setprop_u64 fuel m (ke_stack E) d node name val).
Definition dt_setprop_string (node name str : Z) : K Z := d ← gets kb_dt; writes (fun m => fdt_setprop_string fuel m d node name str).
Definition dt_setprop_empty (node name : Z) : K Z := d ← gets kb_dt; writes (fun m => fdt_setprop_empty fuel m d node name).
Definition dt_getprop (node name : Z) : K (Z * Z) := d ← gets kb_dt; reads (fun m => fdt_getprop fuel m d node name).

(** [snprintf] into a local buffer at [buf]. *)
Definition k_snprintf (buf size fmt : Z) (args : list varg) : K Z :=
  writes (fun m => vsnprintf (ke_null_str E) (ke_nil_str E) m buf size fmt args).

(** ** The chosen node *)
Definition get_notchless_fb : Z * Z := (v_base video, v_height video).

Definition dt_set_rng_seed_adt (node : Z) : K Z :=
  anode ← reads (fun m => adt_path_offset (ke_adt_rodata E) m (ke_adt E) (lit "/chosen"));
  bail_if (anode <? 0) (
  seed ← reads (fun m => adt_getprop m (ke_adt E) anode (lit "random-seed"));
  match seed with
  | None => mret 0
  | Some (random_seed, seed_length) =>
      r ← (if 8 <=? seed_length then
             kaslr ← reads (fun m => load_le 8 m random_seed);
             dt_setprop_u64 node (lit "kaslr-seed") (Z.lxor kaslr (ke_virt_base E))
           else mret 0);
      bail_if (negb (r =? 0)) (
      if negb (seed_length =? 0) then
        r ← dt_setprop node (lit "rng-seed") random_seed (s32 seed_length);
        bail_if (negb (r =? 0)) (mret 0)
      else mret 0)
  end).

(** The local variables of [dt_set_fb]. *)
Definition fbreg_addr : Z := ke_stack E + 16.
Definition fbname_addr : Z := ke_stack E + 32.

Definition fb_format (depth : Z) : option Z :=
  let d := Z.land depth 0xff in
  if d =? 32 then Some (lit "x8r8g8b8") else if d =? 30 then Some (lit "x2r10g10b10")
  else if d =? 16 then Some (lit "r5g6b5") else None.

(** The end of [dt_set_fb], with a format. *)
Definition dt_enable_fb (fb format fb_height : Z) : K Z :=
  r ← dt_setprop_string fb (lit "format") format;
  bail_if (negb (r =? 0)) (
  d ← gets kb_dt;
  _ ← writes (fun m => fdt_delprop fuel m d fb (lit "status"));
  let notch := u32 (v_height video - fb_height) in
  if negb (notch =? 0) then
    dcp ← dt_path (lit "dcp");
    if 0 <=? dcp then
      _ ← writes (fun m => fdt_appendprop_u32 fuel m (ke_stack E) d dcp (lit "apple,notch-height") notch); mret 0
    else mret 0
  else mret 0).

Definition dt_set_fb : K Z :=
  if v_base video =? 0 then mret 0 else
  fb ← dt_path (lit "/chosen/framebuffer");
  if fb <? 0 then mret 0 else
  let '(fb_base, fb_height) := get_notchless_fb in
  let fb_size := u32 (v_stride video * fb_height) in
  _ ← stores (fun m => fdt32_st m fbreg_addr fb_base);
  _ ← stores (fun m => fdt32_st m (fbreg_addr + 4) fb_size);
  _ ← k_snprintf fbname_addr 32 (lit "framebuffer@%lx") [A32 fb_base];
  r ← dt_setprop fb (lit "reg") fbreg_addr 8;
  bail_if (negb (r =? 0)) (
  d ← gets kb_dt;
  r ← writes (fun m => fdt_set_name fuel m d fb fbname_addr);
  bail_if (negb (r =? 0)) (
  r ← dt_setprop_u32 fb (lit "width") (v_width video);
  bail_if (negb (r =? 0)) (
  r ← dt_setprop_u32 fb (lit "height") fb_height;
  bail_if (negb (r =? 0)) (
  r ← dt_setprop_u32 fb (lit "stride") (v_stride video);
  bail_if (negb (r =? 0)) (
  match fb_format (v_depth video) with
  | None => mret 0
  | Some format => dt_enable_fb fb format fb_height
  end))))).

(** The loop over the variables set by the payloads: -1, or 0. *)
Fixpoint set_chosen_loop (params : list (Z * Z)) (node : Z) : K Z :=
  match params with
  | [] => mret 0
  | (name, value) :: params' =>
      if name =? NULL then mret 0 else
      l ← reads (fun m => strlen m value);
      r ← dt_setprop node name value (s32 (l + 1));
      bail_if (r <? 0) (set_chosen_loop params' node)
  end.

Definition set_chosen_initrd (node : Z) : K Z :=
  start ← gets kb_initrd_start;
  size ← gets kb_initrd_size;
  if negb (start =? NULL) && negb (size =? 0) then
    r ← dt_setprop_u32 node (lit "linux,initrd-start") start;
    bail_if (negb (r =? 0)) (
    r ← dt_setprop_u32 node (lit "linux,initrd-end") (u32 (start + size));
    bail_if (negb (r =? 0)) (
    d ← gets kb_dt;
    r ← writes (fun m => fdt_add_mem_rsv fuel m d start size);
    bail_if (negb (r =? 0)) (mret 0)))
  else mret 0.

(** [fdt_setprop(dt, node, name, str, strlen(str) + 1)] *)
Definition set_version (node name str : Z) : K Z :=
  l ← reads (fun m => strlen m str);
  r ← dt_setprop node name str (s32 (l + 1));
  bail_if (negb (r =? 0)) (mret 0).

Definition dt_set_chosen : K Z :=
  node ← dt_path (lit "/chosen");
  bail_if (node <? 0) (
  params ← gets kb_chosen_params;
  r ← set_chosen_loop params node;
  bail_if (r <? 0) (
  r ← set_chosen_initrd node;
  bail_if (r <? 0) (
  r ← dt_set_fb;
  bail_if (negb (r =? 0)) (
  node ← dt_path (lit "/chosen");
  bail_if (node <? 0) (
  r ← set_version node (lit "asahi,iboot2-version") (ke_fw_iboot E);
  bail_if (negb (r =? 0)) (
  r ← set_version node (lit "asahi,os-fw-version") (ke_fw_string E);
  bail_if (negb (r =? 0)) (
  r ← set_version node (lit "asahi,m1n1-stage2-version") (ke_mini_version E);
  bail_if (negb (r =? 0)) (
  dt_set_rng_seed_adt node)))))))).

(** ** The memory node *)

Definition not_page_aligned (a size : Z) : bool := negb (Z.land (Z.lor a size) (PAGE_SIZE - 1) =? 0).

(** A region outside of the usable memory is added to it; [None] is a [bail]. *)
Definition add_region (start size : Z) (regions : list (Z * Z)) : option (list (Z * Z)) :=
  if not_page_aligned start size then None else
  if MAX_MEM_REGIONS <=? zlen regions then None else Some (regions ++ [(start, size)]).

(** One reserved-memory node. *)
Definition reserved_region (dram_min dram_max node : Z) (regions : list (Z * Z)) : K (option (list (Z * Z))) :=
  d ← gets kb_dt;
  _ ← reads (fun m => fdt_get_name fuel m d node);
  '(status, _) ← dt_getprop node (lit "status");
  disabled ← (if status =? NULL then mret false else reads (fun m => r ← strcmp m status (lit "disabled"); Done (r =? 0)));
  if disabled : bool then mret (Some regions) else
  '(nomap, _) ← dt_getprop node (lit "no-map");
  if negb (nomap =? NULL) then mret (Some regions) else
  '(reg, _) ← dt_getprop node (lit "reg");
  if reg =? NULL then mret (Some regions) else
  resv_start ← reads (fun m => fdt32_ld m reg);
  resv_len ← reads (fun m => fdt32_ld m (reg + 4));
  let resv_end := u32 (resv_start + resv_len) in
  if resv_start <? dram_min then
    if dram_min <? resv_end then mret None else
    mret (add_region resv_start resv_len regions)
  else if dram_max <? resv_end then
    if resv_start <? dram_max then mret None else
    mret (add_region resv_start resv_len regions)
  else mret (Some regions).

Fixpoint reserved_loop (n : nat) (dram_min dram_max node : Z) (regions : list (Z * Z)) : K (option (list (Z * Z))) :=
  match n with
  | O => fun _ => Stuck
  | S n' =>
      if node <? 0 then mret (Some regions) else
      r ← reserved_region dram_min dram_max node regions;
      match r with
      | None => mret None
      | Some regions =>
          d ← gets kb_dt;
          node ← reads (fun m => fdt_next_subnode fuel m d node);
          reserved_loop n' dram_min dram_max node regions
      end
  end.

Definition memreg_addr : Z := ke_stack E + 16.
(** [memreg] as the bytes of the local array. *)
Fixpoint store_regions (m : mem) (a : Z) (regions : list (Z * Z)) : outcome mem :=
  match regions with
  | [] => Done m
  | (start, size) :: regions' =>
      m ← fdt32_st m a start;
      m ← fdt32_st m (a + 4) size;
      store_regions m (a + 8) regions'
  end.

Definition dt_set_memory : K Z :=
  anode ← reads (fun m => adt_path_offset (ke_adt_rodata E) m (ke_adt E) (lit "/chosen"));
  bail_if (anode <? 0) (
  top ← gets kb_top;
  let dram_min := phys_base top in
  let dram_max := u32 (phys_base top + mem_size top) in
  resv_node ← dt_path (lit "/reserved-memory");
  let dram := [(dram_min, u32 (dram_max - dram_min))] in
  regions ← (if resv_node <? 0 then mret (Some dram) else
             d ← gets kb_dt;
             node ← reads (fun m => fdt_first_subnode fuel m d resv_node);
             reserved_loop fuel dram_min dram_max node dram);
  match regions with
  | None => mret (-1)
  | Some regions =>
      initrd_start ← gets kb_initrd_start;
      initrd_size ← gets kb_initrd_size;
      let has_initrd := negb (initrd_start =? NULL) && negb (initrd_size =? 0) in
      bail_if (has_initrd && (MAX_MEM_REGIONS <=? zlen regions)) (
      bail_if (has_initrd && not_page_aligned initrd_start initrd_size) (
      let regions := if has_initrd then regions ++ [(initrd_start, initrd_size)] else regions in
      bail_if (MAX_MEM_REGIONS <=? zlen regions) (
      d ← gets kb_dt;
      bufsize ← gets kb_dt_bufsize;
      bail_if (not_page_aligned d (u32 bufsize)) (
      let regions := regions ++ [(initrd_start, initrd_size)] in
      node ← dt_path (lit "/memory");
      bail_if (node <? 0) (
      _ ← stores (fun m => store_regions m memreg_addr regions);
      r ← dt_setprop node (lit "reg") memreg_addr (8 * zlen regions);
      bail_if (negb (r =? 0)) (mret 0))))))
  end).

(** ** Serial number *)
Definition dt_set_serial_number : K Z :=
  fdt_root ← dt_path (lit "/");
  adt_root ← reads (fun m => adt_path_offset (ke_adt_rodata E) m (ke_adt E) (lit "/"));
  bail_if (fdt_root <? 0) (
  bail_if (adt_root <? 0) (
  p ← reads (fun m => adt_getprop m (ke_adt E) adt_root (lit "serial-number"));
  let serial_number := match p with Some (v, _) => v | None => NULL end in
  r ← dt_setprop_string fdt_root (lit "serial-number") serial_number;
  bail_if (negb (r =? 0)) (mret 0))).

(** ** U-Boot

    The power domains of a node are marked before their parents; [n] bounds
    the depth of the recursion and [i] counts the phandles that are left. *)
Section preloc.
Context (dt_set_uboot_dm_preloc : Z -> K unit).

Fixpoint preloc_phandles (i : nat) (p : Z) : K unit :=
  match i with
  | O => mret tt
  | S i' =>
      d ← gets kb_dt;
      phandle ← reads (fun m => fdt32_ld m p);
      node ← reads (fun m => fdt_node_offset_by_phandle (ke_fdt_rodata E) fuel m d phandle);
      _ ← (if node <? 0 then mret tt else
           _ ← dt_set_uboot_dm_preloc node;
           phandle ← reads (fun m => fdt32_ld m p);
           node ← reads (fun m => fdt_node_offset_by_phandle (ke_fdt_rodata E) fuel m d phandle);
           if node <? 0 then mret tt else
           node ← reads (fun m => fdt_parent_offset fuel m d node);
           if node <? 0 then mret tt else dt_set_uboot_dm_preloc node);
      preloc_phandles i' (p + 4)
  end.
End preloc.

Fixpoint dt_set_uboot_dm_preloc (n : nat) (node : Z) : K unit :=
  match n with
  | O => fun _ => Stuck
  | S n' =>
      _ ← dt_setprop_empty node (lit "u-boot,dm-pre-reloc");
      _ ← dt_setprop_empty node (lit "bootph-all");
      '(pds, pds_size) ← dt_getprop node (lit "power-domains");
      if pds =? NULL then mret tt else
      phandles ← k_calloc (u32 pds_size);
      if phandles =? NULL then mret tt else
      _ ← writes (fun m => memcpy m phandles pds (u32 pds_size));
      _ ← preloc_phandles (dt_set_uboot_dm_preloc n') (Z.to_nat (Z.quot pds_size 4)) phandles;
      k_free phandles
  end.

Definition dt_set_uboot : K Z :=
  d ← gets kb_dt;
  path ← reads (fun m => fdt_get_alias (ke_fdt_rodata E) fuel m d (lit "serial2"));
  if path =? NULL then mret 0 else
  node ← dt_path path;
  if node <? 0 then mret 0 else
  _ ← dt_set_uboot_dm_preloc fuel node; mret 0.

(** ** Reserved memory *)
Definition reg_addr : Z := ke_stack E + 8.

(** The properties that are set on a new node: 0, or -1. *)
Definition add_phandle (node : Z) : K Z :=
  d ← gets kb_dt;
  '(ret, phandle) ← reads (fun m => fdt_generate_phandle (ke_fdt_rodata E) fuel m d);
  bail_if (negb (ret =? 0)) (
  ret ← dt_setprop_u32 node (lit "phandle") (default 0 phandle);
  bail_if (negb (ret =? 0)) (mret 0)).

Definition set_reserved (node compat : Z) (nomap : bool) (paddr size : Z) : K Z :=
  _ ← stores (fun m => fdt32_st m reg_addr (u32 paddr));
  _ ← stores (fun m => fdt32_st m (reg_addr + 4) size);
  ret ← dt_setprop node (lit "reg") reg_addr 8;
  bail_if (negb (ret =? 0)) (
  ret ← dt_setprop_string node (lit "compatible") compat;
  bail_if (negb (ret =? 0)) (
  if nomap then
    ret ← dt_setprop_empty node (lit "no-map");
    bail_if (negb (ret =? 0)) (mret node)
  else mret node)).

Definition dt_get_or_add_reserved_mem (node_name compat : Z) (nomap : bool) (paddr size : Z) : K Z :=
  resv_node ← dt_path (lit "/reserved-memory");
  bail_if (resv_node <? 0) (
  d ← gets kb_dt;
  node ← reads (fun m => fdt_subnode_offset fuel m d resv_node node_name);
  if node <? 0 then
    node ← writes (fun m => fdt_add_subnode fuel m d resv_node node_name);
    bail_if (node <? 0) (
    r ← add_phandle node;
    bail_if (r <? 0) (set_reserved node compat nomap paddr size))
  else set_reserved node compat nomap paddr size).

(** ** What the payloads set *)
Definition kboot_set_initrd (start size : Z) : K unit :=
  initrd ← top_alloc size;
  _ ← writes (fun m => memcpy m initrd start size);
  modify (set_initrd initrd (ALIGN_UP 32 size PAGE_SIZE)).

(** A copy of the string on the heap. *)
Definition heap_copy (s : Z) : K Z :=
  l ← reads (fun m => strlen m s);
  p ← k_calloc (u32 (l + 1));
  _ ← writes (fun m => strcpy m p s);
  mret p.

(** The loop over the table: the index it stops at. *)
Fixpoint find_param (n : nat) (i : Z) (name : Z) : K Z :=
  match n with
  | O => mret i
  | S n' =>
      params ← gets kb_chosen_params;
      '(key, value) ← lift (znth params i);
      if key =? NULL then
        p ← heap_copy name;
        _ ← modify (set_chosen_params (<[Z.to_nat i := (p, value)]> params));
        mret i
      else
        r ← reads (fun m => strcmp m name key);
        if r =? 0 then
          _ ← k_free value;
          _ ← modify (set_chosen_params (<[Z.to_nat i := (key, NULL)]> params));
          mret i
        else find_param n' (i + 1) name
  end.

Definition kboot_set_chosen (name value : Z) : K Z :=
  if name =? NULL then mret (-1) else
  i ← find_param (Z.to_nat MAX_CHOSEN_PARAMS) 0 name;
  if MAX_CHOSEN_PARAMS <=? i then mret (-1) else
  if negb (value =? NULL) then
    p ← heap_copy value;
    params ← gets kb_chosen_params;
    '(key, _) ← lift (znth params i);
    _ ← modify (set_chosen_params (<[Z.to_nat i := (key, p)]> params));
    mret i
  else mret i.

(** ** The log device *)
Definition log_console_iodev_can_write (opaque : Z) : K bool :=
  b ← gets kb_log_buffer; mret (negb (b =? NULL)).

(** The loop while the rest of the buffer is too small: what is left to be
    written and how much has been. *)
Fixpoint log_wrap_loop (n : nat) (buf len wrote remain : Z) : K (Z * Z * Z) :=
  match n with
  | O => fun _ => Stuck
  | S n' =>
      if remain <? len then
        b ← gets kb_log_buffer;
        wp ← gets kb_log_wp;
        _ ← writes (fun m => memcpy m (b + wp) buf remain);
        _ ← modify (set_logbuf b 0);
        log_wrap_loop n' (u32 (buf + remain)) (u32 (len - remain)) (wrote + remain) LOGBUF_SIZE
      else mret (buf, len, wrote)
  end.

Definition log_console_iodev_write (opaque buf len : Z) : K Z :=
  b ← gets kb_log_buffer;
  if b =? NULL then mret 0 else
  wp ← gets kb_log_wp;
  '(buf, len, wrote) ← log_wrap_loop (S (Z.to_nat len)) buf len 0 (u32 (LOGBUF_SIZE - wp));
  wp ← gets kb_log_wp;
  _ ← writes (fun m => memcpy m (b + wp) buf len);
  _ ← modify (set_logbuf b (u32 (wp + len) mod LOGBUF_SIZE));
  mret (wrote + len).

Definition node_name_addr : Z := ke_stack E + 16.

Definition phram_label (node label : Z) : K Z :=
  if 0 <? node then
    ret ← dt_setprop_string node (lit "label") label;
    bail_if (negb (ret =? 0)) (mret 0)
  else mret 0.

Definition dt_setup_mtd_phram : K Z :=
  _ ← k_snprintf node_name_addr 64 (lit "flash@%lx") [A32 (ke_adt E)];
  node ← dt_get_or_add_reserved_mem node_name_addr (lit "phram") false (ke_adt E) (ALIGN_UP 32 (ke_devtree_size E) SZ_16K);
  r ← phram_label node (lit "adt");
  bail_if (r <? 0) (
  wp ← gets kb_log_wp;
  b ← top_alloc LOGBUF_SIZE;
  _ ← modify (set_logbuf b wp);
  bail_if (b =? NULL) (
  _ ← k_snprintf node_name_addr 64 (lit "flash@%lx") [A32 b];
  node ← dt_get_or_add_reserved_mem node_name_addr (lit "phram") false b SZ_16K;
  phram_label node (lit "m1n1_stage2.log"))).

(** ** The whole tree, and the start of the kernel *)
Definition kboot_prepare_dt (fdt : Z) : K Z :=
  old ← gets kb_dt;
  _ ← (if negb (old =? NULL) then _ ← k_free old; n ← gets kb_dt_bufsize; modify (set_dt NULL n) else mret tt);
  total ← reads (fun m => fdt_totalsize m fdt);
  let dt_bufsize := s32 total in
  _ ← lift (c_assert (negb (dt_bufsize =? 0)));
  let dt_bufsize := s32 (ALIGN_UP 32 (u32 (dt_bufsize + 4 * SZ_16K)) PAGE_SIZE) in
  d ← top_alloc (u32 dt_bufsize);
  _ ← modify (set_dt d dt_bufsize);
  r ← writes (fun m => fdt_open_into fuel m fdt d dt_bufsize);
  bail_if (r <? 0) (
  r ← writes (fun m => fdt_add_mem_rsv fuel m d d (u64 dt_bufsize));
  bail_if (negb (r =? 0)) (
  r ← writes (fun m => fdt_add_mem_rsv fuel m d (ke_base E) (u32 (ke_end E - ke_base E)));
  bail_if (negb (r =? 0)) (
  _ ← dt_setup_mtd_phram;
  r ← dt_set_chosen;
  bail_if (negb (r =? 0)) (
  r ← dt_set_serial_number;
  bail_if (negb (r =? 0)) (
  r ← dt_set_uboot;
  bail_if (negb (r =? 0)) (
  r ← dt_set_memory;
  bail_if (negb (r =? 0)) (
  r ← writes (fun m => fdt_pack fuel m d);
  bail_if (negb (r =? 0)) (mret 0)))))))).

(** [usb_init] brings up the USB controller for the kernel. *)
Definition kboot_boot (usb_init : K unit) (kernel : Z) : K Z :=
  _ ← usb_init;
  d ← gets kb_dt;
  _ ← modify (set_next_stage (Some (VectorArgs kernel [0; u32 (-1); d; 0] false)));
  mret 0.
End kboot.
