(* ===== verification/KbootProps.v ===== *)
(** * Booting Linux: the properties

    The log device keeps the end of what was written, the memory node describes
    the usable memory, and the boot variables are a dictionary. *)
From S2P Require Import Prelude Machine CString Alloc Adt Vsprintf Iodev Fdt FdtSpec FdtRw FdtRwSpec FdtProps Kboot.

(** ** The log

    The ring at [b] holds the last 16 KiB of a stream of bytes. *)
Definition ring_holds (m : mem) (b : Z) (stream : list Z) : Prop :=
  forall j x, stream !! j = Some x -> zlen stream - LOGBUF_SIZE <= Z.of_nat j -> m !! (b + Z.of_nat j mod LOGBUF_SIZE) = Some x.

(** The log buffer after [stream] was written to it. *)
Record log_at {A} (s : kboot A) (stream : list Z) : Prop := {
  log_buffer : 0 < kb_log_buffer s;
  log_region : region (kb_mem s) (kb_log_buffer s) LOGBUF_SIZE;
  log_wp : kb_log_wp s = zlen stream mod LOGBUF_SIZE;
  log_holds : ring_holds (kb_mem s) (kb_log_buffer s) stream;
}.

(** Only the ring and its write position differ. *)
Definition only_log {A} (s s' : kboot A) : Prop :=
  exists m wp, s' = set_logbuf (kb_log_buffer s) wp (set_mem s m) /\ same_outside (kb_mem s) m (kb_log_buffer s) LOGBUF_SIZE.

Lemma mod_window j s l n :
  0 < n -> 0 <= j < s -> 0 <= l -> s + l - n <= j -> j mod n < s mod n \/ s mod n + l <= j mod n.
Proof.
  intros Hn Hj Hl Hw. assert (s = n * (s / n) + s mod n) as Es by (apply Z.div_mod; lia).
  assert (0 <= s mod n < n) as Hm by (by apply Z.mod_pos_bound). set (q := s / n) in *. set (r := s mod n) in *. clearbody q r.
  destruct (decide (n * q <= j)).
  - left. rewrite <- (Z.mod_unique_pos j n q (j - n * q)); lia.
  - right. rewrite <- (Z.mod_unique_pos j n (q - 1) (j - n * (q - 1))); lia.
Qed.

Section log.
Context {A : Type}.
Implicit Types (s : kboot A) (stream l : list Z).

Lemma ring_store m b stream l :
  ring_holds m b stream -> zlen l <= LOGBUF_SIZE - zlen stream mod LOGBUF_SIZE ->
  ring_holds (write_bytes m (b + zlen stream mod LOGBUF_SIZE) l) b (stream ++ l).
Proof.
  unfold ring_holds, LOGBUF_SIZE, SZ_16K. change (2 ^ 14) with 16384. intros H Hl j x Hj Hlast. rewrite zlen_app in Hlast. rewrite lookup_write_bytes.
  pose proof (zlen_nonneg stream). apply lookup_app_Some in Hj as [Hj|[Hge Hj]]; pose proof (lookup_lt_Some _ _ _ Hj) as Hlt.
  - assert (Z.of_nat j < zlen stream) by (unfold zlen; lia). pose proof (zlen_nonneg l).
    destruct (mod_window (Z.of_nat j) (zlen stream) (zlen l) 16384) as [?|?]; [lia..| |].
    + bdec. apply H; [done|lia].
    + bdec. apply H; [done|lia].
  - set (i := (j - length stream)%nat) in *. assert (Z.of_nat j = zlen stream + Z.of_nat i) as -> by (unfold zlen; lia).
    assert (Z.of_nat i < zlen l) by (unfold zlen; lia).
    assert ((zlen stream + Z.of_nat i) mod 16384 = zlen stream mod 16384 + Z.of_nat i) as -> by lia.
    bdec. by replace (Z.to_nat (b + (zlen stream mod 16384 + Z.of_nat i) - (b + zlen stream mod 16384))) with i by lia.
Qed.

Lemma only_log_refl s : only_log s s.
Proof. exists (kb_mem s), (kb_log_wp s). split; [by destruct s|apply same_outside_refl]. Qed.

Lemma only_log_trans s s1 s2 : only_log s s1 -> only_log s1 s2 -> only_log s s2.
Proof.
  intros (m1 & w1 & -> & H1) (m2 & w2 & -> & H2). cbn in H2. exists m2, w2. split; [done|]. by eapply same_outside_trans.
Qed.

(** One block that does not pass the end of the ring. *)
Lemma log_block s stream buf l wp :
  log_at s stream -> bytes_at (kb_mem s) buf l -> are_bytes l -> zlen l <= LOGBUF_SIZE - kb_log_wp s ->
  buf + zlen l <= kb_log_buffer s \/ kb_log_buffer s + LOGBUF_SIZE <= buf -> wp = (kb_log_wp s + zlen l) mod LOGBUF_SIZE ->
  exists m, memcpy (kb_mem s) (kb_log_buffer s + kb_log_wp s) buf (zlen l) = Done (kb_log_buffer s + kb_log_wp s, m) /\
    let s' := set_logbuf (kb_log_buffer s) wp (set_mem s m) in log_at s' (stream ++ l) /\ only_log s s'.
Proof.
  intros [Hb Hr Hw Hh] Hbuf Hl Hfit Hd ->. eexists. rewrite Hw in *. pose proof (zlen_nonneg l). pose proof (zlen_nonneg stream).
  unfold LOGBUF_SIZE, SZ_16K in *. change (2 ^ 14) with 16384 in *.
  split; [apply memcpy_spec; [done|done|done|eapply region_sub; [exact Hr|lia..]|lia]|]. split.
  - split; cbn; [done|by apply region_write| |by apply ring_store].
    unfold LOGBUF_SIZE, SZ_16K. change (2 ^ 14) with 16384. rewrite zlen_app. by rewrite Zplus_mod_idemp_l.
  - eexists _, _. split; [done|]. apply same_outside_write; [apply same_outside_refl|lia|unfold LOGBUF_SIZE, SZ_16K; lia].
Qed.
End log.

(** *** The device *)
Section log_device.
Context {A : Type}.
Implicit Types (s : kboot A) (stream l : list Z).

(** [buf] and the ring are apart. *)
Definition off_ring s buf l : Prop := buf + zlen l <= kb_log_buffer s \/ kb_log_buffer s + LOGBUF_SIZE <= buf.

Lemma only_log_bytes s s' buf l : only_log s s' -> off_ring s buf l -> bytes_at (kb_mem s) buf l -> bytes_at (kb_mem s') buf l.
Proof. intros (m & wp & -> & Hs) Hd H. by eapply bytes_at_outside. Qed.

Lemma log_wrap_spec n buf wrote s stream l :
  log_at s stream -> bytes_at (kb_mem s) buf l -> are_bytes l -> off_ring s buf l -> (length l < n)%nat ->
  exists l1 l2 s1, l = l1 ++ l2 /\
    log_wrap_loop n buf (zlen l) wrote (LOGBUF_SIZE - kb_log_wp s) s = Done ((buf + zlen l1, zlen l2, wrote + zlen l1), s1) /\
    log_at s1 (stream ++ l1) /\ zlen l2 <= LOGBUF_SIZE - kb_log_wp s1 /\ only_log s s1.
Proof.
  revert buf wrote s stream l. induction n as [|n IH]; intros buf wrote s stream l Hs Hb Hl Hd Hn; [lia|]. cbn [log_wrap_loop].
  destruct (LOGBUF_SIZE - kb_log_wp s <? zlen l) eqn:Hlt; b2p.
  2: { exists [], l, s. rewrite app_nil_r, zlen_nil, !Z.add_0_r. split; [done|]. split; [done|]. split; [done|]. split; [done|apply only_log_refl]. }
  rewrite !run_gets. pose proof (log_wp _ _ Hs) as Hw. set (r := LOGBUF_SIZE - kb_log_wp s) in *.
  assert (0 < r <= 16384 /\ LOGBUF_SIZE = 16384) as [Hr HL] by (unfold r, LOGBUF_SIZE, SZ_16K in *; change (2 ^ 14) with 16384 in *; lia).
  rewrite <- (take_drop (Z.to_nat r) l) in Hb, Hl, Hd. set (l1 := take (Z.to_nat r) l) in *. set (l2 := drop (Z.to_nat r) l) in *.
  assert (zlen l1 = r) as H1 by (unfold l1, zlen in *; rewrite length_take; lia).
  assert (zlen l2 = zlen l - r) as H2 by (unfold l2, zlen in *; rewrite length_drop; lia).
  pose proof Hb as [_ Hl32]%bytes_at_bounds; [|intros E; apply (f_equal length) in E; unfold l1, l2 in E; rewrite take_drop in E; cbn in E; unfold zlen in Hlt; lia].
  unfold off_ring in Hd. rewrite zlen_app in Hd, Hl32. apply Forall_app in Hl as [Hl1 Hl2]. apply bytes_at_app in Hb as [Hb1 Hb2]. rewrite H1 in Hb2.
  destruct (log_block s stream buf l1 0 Hs Hb1 Hl1) as (m & Hc & Hat & Ho); [lia|lia| |].
  { rewrite H1. unfold r. replace (kb_log_wp s + (LOGBUF_SIZE - kb_log_wp s)) with LOGBUF_SIZE by lia. by rewrite HL. }
  rewrite H1 in Hc. rewrite (run_writes _ _ s _ _ Hc), run_modify. set (s1 := set_logbuf _ _ _) in *.
  destruct (decide (0 <= buf)) as [Hb0|]; [|destruct l1; [rewrite zlen_nil in H1; lia|destruct Hb1 as [[_ ?] _]; lia]].
  rewrite !u32_small by lia. rewrite <- H2.
  destruct (IH (buf + r) (wrote + r) s1 (stream ++ l1) l2 Hat) as (l3 & l4 & s2 & E & Hrun & Hat2 & Hl4 & Ho2).
  { eapply only_log_bytes; [exact Ho| |done]. unfold off_ring. lia. }
  { done. }
  { unfold off_ring. cbn. lia. }
  { unfold zlen in *. lia. }
  change (LOGBUF_SIZE - kb_log_wp s1) with (LOGBUF_SIZE - 0) in Hrun. rewrite Z.sub_0_r in Hrun.
  exists (l1 ++ l3), l4, s2. split; [by rewrite <- app_assoc, <- E; unfold l1, l2; rewrite take_drop|].
  rewrite zlen_app, H1, !Z.add_assoc, app_assoc. split; [exact Hrun|]. split; [done|]. split; [done|by eapply only_log_trans].
Qed.

(** C23: The log device keeps the end of everything that was ever written to it:
    if the buffer holds the last 16 KiB of a stream, then writing any number of
    bytes (also more than the buffer holds, across its end or up to exactly
    its end) returns their number and leaves the last 16 KiB of the stream with
    the bytes appended; nothing outside the buffer changes. *)
Theorem log_keeps_the_end s stream buf l opaque :
  log_at s stream -> bytes_at (kb_mem s) buf l -> are_bytes l ->
  buf + zlen l <= kb_log_buffer s \/ kb_log_buffer s + LOGBUF_SIZE <= buf ->
  exists s', log_console_iodev_write opaque buf (zlen l) s = Done (zlen l, s') /\ log_at s' (stream ++ l) /\ only_log s s'.
Proof.
  intros Hs Hb Hl Hd. unfold log_console_iodev_write. pose proof (log_buffer _ _ Hs) as H0. rewrite !run_gets. unfold NULL. bdec.
  rewrite run_gets, u32_small.
  2: { rewrite (log_wp _ _ Hs). unfold LOGBUF_SIZE, SZ_16K. change (2 ^ 14) with 16384. lia. }
  destruct (log_wrap_spec (S (Z.to_nat (zlen l))) buf 0 s stream l Hs Hb Hl Hd) as (l1 & l2 & s1 & -> & Hrun & Hs1 & Hl2 & Ho); [unfold zlen; lia|].
  rewrite (run_bind _ _ s _ _ Hrun). cbn beta iota. rewrite run_gets. rewrite zlen_app in *. pose proof (zlen_nonneg l1).
  pose proof (only_log_bytes _ _ _ _ Ho ltac:(unfold off_ring; rewrite zlen_app; exact Hd) Hb) as [_ Hb2]%bytes_at_app.
  assert (kb_log_buffer s1 = kb_log_buffer s) as Eb by (by destruct Ho as (? & ? & -> & _)). apply Forall_app in Hl as [_ Hl].
  destruct (log_block s1 (stream ++ l1) (buf + zlen l1) l2 (u32 (kb_log_wp s1 + zlen l2) mod LOGBUF_SIZE) Hs1 Hb2 Hl) as (m & Hc & Hat & Ho2).
  { done. }
  { lia. }
  { pose proof (log_wp _ _ Hs1) as Hw. pose proof (zlen_nonneg l2). unfold LOGBUF_SIZE, SZ_16K in *. change (2 ^ 14) with 16384 in *.
    rewrite u32_small by lia. done. }
  rewrite <- Eb, (run_writes _ _ s1 _ _ Hc), run_modify. cbn [kb_log_buffer]. rewrite <- app_assoc in Hat.
  eexists. split; [done|]. split; [exact Hat|by eapply only_log_trans].
Qed.
End log_device.

(** A ring with two bytes left, and a text to write. *)
Definition demo_log_mem : mem := write_bytes (write_bytes ∅ 0x10000 (replicate (Z.to_nat 16384) 65)) 0x1000 (bytes_of "boot!").
Definition demo_log : kboot unit := Kboot demo_log_mem tt (Top 0 0 false) 0 0 0 0 [] 0x10000 16382 None.

Lemma demo_log_lookup k : 0x10000 <= k < 0x10000 + 16384 -> demo_log_mem !! k = Some 65.
Proof.
  intros Hk. unfold demo_log_mem. rewrite lookup_write_bytes, lookup_write_bytes. change (zlen (bytes_of "boot!")) with 5. rewrite zlen_replicate, Z2Nat.id by done.
  rewrite andb_false_intro2 by lia. bdec. apply lookup_replicate_2. lia.
Qed.

Lemma demo_log_at : log_at demo_log (replicate (Z.to_nat 16382) 65).
Proof.
  split; unfold demo_log; cbn [kb_log_buffer kb_mem kb_log_wp]; change LOGBUF_SIZE with 16384.
  - done.
  - apply region_intro; [done|]. intros k Hk. split; [exists 65; exact (demo_log_lookup k Hk)|lia].
  - by rewrite zlen_replicate.
  - intros j x Hj _. apply lookup_replicate in Hj as [-> Hj]. change LOGBUF_SIZE with 16384. apply demo_log_lookup. lia.
Qed.

Lemma log_keeps_the_end_witness :
  exists s', log_console_iodev_write 0 0x1000 5 demo_log = Done (5, s') /\ log_at s' (replicate (Z.to_nat 16382) 65 ++ bytes_of "boot!") /\
    only_log demo_log s'.
Proof.
  apply (log_keeps_the_end demo_log (replicate (Z.to_nat 16382) 65) 0x1000 (bytes_of "boot!") 0 demo_log_at).
  - apply bytes_at_write_eq; [done|by vm_compute].
  - by apply between_bytes.
  - left. by vm_compute.
Defined.

(** ** The memory node

    What a node of /reserved-memory asks for. *)
Section reserved.
Implicit Types (t : fdt_tree) (v : list Z).

Definition prop_of t (name : string) : option (list Z) := assoc_prop (ft_props t) (bytes_of name).

Definition is_disabled t : bool :=
  match prop_of t "status" with Some v => bool_decide (bytes_of "disabled" ++ [0] `prefix_of` v) | None => false end.

Definition word_at v (i : nat) : Z :=
  match drop i v with b0 :: b1 :: b2 :: b3 :: _ => 2 ^ 24 * b0 + 2 ^ 16 * b1 + 2 ^ 8 * b2 + b3 | _ => 0 end.

Definition resv_range t : option (Z * Z) :=
  if is_disabled t then None else
  match prop_of t "no-map", prop_of t "reg" with
  | None, Some v => Some (word_at v 0, word_at v 4)
  | _, _ => None
  end.

(** The strings are terminated and the ranges have both words. *)
Definition resv_ok t : Prop :=
  (forall v, prop_of t "status" = Some v -> are_bytes v /\ 0 ∈ v) /\
  (forall v, prop_of t "reg" = Some v -> are_bytes v /\ (8 <= length v)%nat).

(** Ranges outside of the usable memory are added to it. *)
Definition add_reserved (dram_min dram_max : Z) (regions : option (list (Z * Z))) t : option (list (Z * Z)) :=
  rs ← regions;
  match resv_range t with
  | None => Some rs
  | Some (start, len) =>
      let end_ := u32 (start + len) in
      if (dram_min <=? start) && (end_ <=? dram_max) then Some rs
      else if (start <? dram_min) && (dram_min <? end_) || (dram_min <=? start) && (start <? dram_max) then None
      else add_region start len rs
  end.

Definition reserved_children t : list fdt_tree :=
  match fdt_focus [] t [bytes_of "reserved-memory"] with Some (_, r) => ft_children r | None => [] end.

(** The ranges of the memory node; [None] when the preparation fails. *)
Definition memory_regions (top : top_mem) t (start size : Z) : option (list (Z * Z)) :=
  let dram_min := phys_base top in
  let dram_max := u32 (phys_base top + mem_size top) in
  regions ← foldl (add_reserved dram_min dram_max) (Some [(dram_min, u32 (dram_max - dram_min))]) (reserved_children t);
  let initrd := if negb (start =? NULL) && negb (size =? 0) then [(start, size)] else [] in
  if existsb (fun r => not_page_aligned r.1 r.2) initrd then None
  else if MAX_MEM_REGIONS <? zlen (regions ++ initrd) + 1 then None
  else Some (regions ++ initrd ++ [(start, size)]).

Definition region_bytes (r : Z * Z) : list Z := be32 r.1 ++ be32 r.2.

Lemma store_regions_spec regions m a :
  region m a (8 * zlen regions) -> store_regions m a regions = Done (write_bytes m a (flat_map region_bytes regions)).
Proof.
  revert m a. induction regions as [|[x n] rs IH]; intros m a Hr; [done|]. cbn [store_regions flat_map]. rewrite zlen_cons in Hr. pose proof (zlen_nonneg rs).
  rewrite fdt32_st_spec, bind_Done by (eapply region_sub; [exact Hr|lia..]).
  rewrite fdt32_st_spec, bind_Done by (apply region_write; eapply region_sub; [exact Hr|lia..]).
  rewrite IH by (apply region_write, region_write; eapply region_sub; [exact Hr|lia..]). unfold region_bytes at 2. cbn [fst snd].
  rewrite <- app_assoc, !write_bytes_app_up. rewrite !zlen_be32. by replace (a + 4 + 4) with (a + 8) by lia.
Qed.

Lemma zlen_regions regions : zlen (flat_map region_bytes regions) = 8 * zlen regions.
Proof.
  induction regions as [|r rs IH]; [done|]. cbn [flat_map]. rewrite zlen_app, zlen_cons, IH. unfold region_bytes. rewrite zlen_app, !zlen_be32. lia.
Qed.

Lemma regions_bytes regions : are_bytes (flat_map region_bytes regions).
Proof.
  induction regions as [|r rs IH]; [constructor|]. cbn [flat_map]. apply Forall_app. split; [|done]. apply Forall_app. split; apply be32_bytes.
Qed.

Lemma word_ld m a v i :
  bytes_at m a v -> are_bytes v -> (i + 4 <= length v)%nat -> fdt32_ld m (a + Z.of_nat i) = Done (word_at v i).
Proof.
  intros H Hb Hl. rewrite <- (take_drop i v) in H. apply bytes_at_app in H as [_ H].
  replace (zlen (take i v)) with (Z.of_nat i) in H by (unfold zlen; rewrite length_take; lia). unfold word_at.
  assert (are_bytes (drop i v)) as Hd by (by apply Forall_drop). assert (4 <= length (drop i v))%nat as Hl' by (rewrite length_drop; lia).
  destruct (drop i v) as [|b0 [|b1 [|b2 [|b3 r]]]]; cbn in Hl'; try lia. rewrite !Forall_cons in Hd. destruct Hd as (? & ? & ? & ? & _).
  change (b0 :: b1 :: b2 :: b3 :: r) with ([b0; b1; b2; b3] ++ r) in H. apply bytes_at_app in H as [H _]. by apply fdt32_ld_bytes.
Qed.

(** [strcmp] with a property that holds a terminated string. *)
Lemma strcmp_prop m a q v s :
  bytes_at m a v -> are_bytes v -> 0 ∈ v -> cstr_at m q s ->
  exists r, strcmp m a q = Done r /\ (r =? 0) = bool_decide (s ++ [0] `prefix_of` v).
Proof.
  intros Hv Hb H0 Hq. assert (exists w v', v = w ++ 0 :: v' /\ 0 ∉ w) as (w & v' & -> & Hw).
  { clear -H0. induction v as [|c v IH]; [by apply not_elem_of_nil in H0|]. destruct (decide (c = 0)) as [->|Hc]; [by exists [], v; split; [|apply not_elem_of_nil]|].
    apply elem_of_cons in H0 as [?|H0]; [congruence|]. destruct (IH H0) as (w & v' & -> & Hw). exists (c :: w), v'. split; [done|]. rewrite not_elem_of_cons. auto. }
  apply Forall_app in Hb as [Hbw _]. assert (Forall (fun c => 0 < c < 256) w) as Hw'.
  { apply Forall_forall. intros c Hc. rewrite Forall_forall in Hbw. specialize (Hbw c Hc). unfold is_byte in Hbw. assert (c <> 0) by (intros ->; done). lia. }
  assert (cstr_at m a w) as Ha.
  { split; [done|]. replace (w ++ 0 :: v') with ((w ++ [0]) ++ v') in Hv by (by rewrite <- app_assoc). by apply bytes_at_app in Hv as [Hv _]. }
  rewrite (strcmp_spec _ _ _ _ _ Ha Hq). eexists. split; [done|]. apply Bool.eq_iff_eq_true. rewrite Z.eqb_eq, bool_decide_eq_true.
  destruct Hq as [Hs _]. rewrite str_compare_eq by (eapply Forall_impl; [eassumption|cbn; lia]). split.
  - intros ->. exists v'. by rewrite <- app_assoc.
  - intros [r E]. rewrite <- app_assoc in E. cbn [app] in E.
    assert (0 ∉ s) as Hs0 by (intros Hin; rewrite Forall_forall in Hs; specialize (Hs _ Hin); cbn in Hs; lia).
    clear -E Hw Hs0. revert s Hs0 E. induction w as [|c w IH]; intros [|c' s] Hs0 E; cbn in E; simplify_eq; rewrite ?not_elem_of_cons in *; try tauto.
    f_equal. apply IH; tauto || done.
Qed.
End reserved.

(** *** The loop over the nodes *)
Lemma add_reserved_None dmin dmax f : foldl (add_reserved dmin dmax) None f = None.
Proof. by induction f. Qed.

Lemma forest_length strings f ts : forest_toks strings f ts -> (length f <= length ts)%nat.
Proof. induction 1; cbn [length]; rewrite ?length_app; cbn [length]; rewrite ?length_app; cbn [length]; lia. Qed.

Section memory_node.
Context {A : Type} (E : kboot_env) (s : kboot A) (b : blob) (t : fdt_tree).
#[local] Abbreviation m := (kb_mem s).
#[local] Abbreviation d := (kb_dt s).
#[local] Abbreviation lit := (ke_lit E).
#[local] Abbreviation fuel := (ke_fuel E).

(** The literals, apart from the tree and from the local array. *)
Definition lits_ok (names : list string) : Prop :=
  Forall (fun x => cstr_at m (lit x) (bytes_of x) /\ 0 < lit x /\
    (lit x + zlen (bytes_of x) + 1 <= d \/ d + b_total b <= lit x) /\
    (lit x + zlen (bytes_of x) + 1 <= memreg_addr E \/ memreg_addr E + 64 <= lit x)) names.
Definition memory_lits : list string := ["/reserved-memory"; "/memory"; "status"; "disabled"; "no-map"; "reg"]%string.

Context (Hat : fdt_at m d b t) (Hfu : 2 * b_total b + 2 < Z.of_nat fuel) (Hlits : lits_ok memory_lits).
#[local] Set Default Proof Using "Type*".

Lemma memory_lit x : x ∈ memory_lits -> cstr_at m (lit x) (bytes_of x) /\ 0 < lit x /\
  (lit x + zlen (bytes_of x) + 1 <= d \/ d + b_total b <= lit x) /\ (lit x + zlen (bytes_of x) + 1 <= memreg_addr E \/ memreg_addr E + 64 <= lit x).
Proof. unfold lits_ok in Hlits. rewrite Forall_forall in Hlits. apply Hlits. Qed.

Lemma memory_walk : walk_fuel b fuel.
Proof. eapply total_fuel; [apply Hat|done]. Qed.

Lemma dt_getprop_spec off c name :
  node_at b off c -> name ∈ memory_lits ->
  match prop_of c name with
  | Some v => exists a, bytes_at m a v /\ 0 < a /\ dt_getprop E off (lit name) s = Done ((a, zlen v), s)
  | None => dt_getprop E off (lit name) s = Done ((NULL, - FDT_ERR_NOTFOUND), s)
  end.
Proof.
  intros Hn Hx. destruct (memory_lit name Hx) as (Hl & _). pose proof (proj1 Hat) as H.
  pose proof (fdt_getprop_namelen_spec fuel m d b off c _ _ H Hn memory_walk (cstr_at_bytes _ _ _ Hl)) as L.
  assert (forall r, fdt_getprop_namelen fuel m d off (lit name) (zlen (bytes_of name)) = Done r -> dt_getprop E off (lit name) s = Done (r, s)) as Hrun.
  { intros r Hr. unfold dt_getprop, reads. rewrite run_gets. unfold fdt_getprop. by rewrite (strlen_spec _ _ _ Hl), bind_Done, Hr. }
  unfold prop_of. destruct (assoc_prop (ft_props c) (bytes_of name)) as [v|]; [|by apply Hrun].
  destruct L as (a & L & Hv & Ha & _). exists a. auto.
Qed.

#[local] Ltac lit_in := apply (bool_decide_unpack _); reflexivity.

Lemma run_reserved dmin dmax off ctx c rs :
  located b off ctx c -> resv_ok c -> reserved_region E dmin dmax off rs s = Done (add_reserved dmin dmax (Some rs) c, s).
Proof.
  intros Hl [Hst Hrg]. pose proof (located_node _ _ _ _ Hl) as Hn. destruct Hl as (pre & nts & post & Et & Eo & _ & pad & pts & cts & -> & _ & _).
  cbn [app] in Et. unfold reserved_region. rewrite run_gets.
  assert (fdt_get_name fuel m d off = Done (d + b_off_struct b + pos pre + 4, zlen (ft_name c))) as Hname.
  { rewrite Eo. eapply get_name_spec; [apply Hat|exact Et|exact memory_walk]. }
  rewrite (run_reads _ _ s _ Hname). unfold add_reserved, resv_range, is_disabled. cbn [mbind option_bind].
  pose proof (dt_getprop_spec off c "status" Hn ltac:(lit_in)) as G1. pose proof (dt_getprop_spec off c "no-map" Hn ltac:(lit_in)) as G2.
  pose proof (dt_getprop_spec off c "reg" Hn ltac:(lit_in)) as G3.
  assert (exists x, (if x =? NULL then mret false else reads (fun m => r ← strcmp m x (lit "disabled"); Done (r =? 0))) s = Done (is_disabled c, s) /\
    (exists y, dt_getprop E off (lit "status") s = Done ((x, y), s))) as (x & Hdis & y & Hs).
  { unfold is_disabled. destruct (prop_of c "status") as [v|].
    - destruct G1 as (a & Hv & Ha & G1). destruct (Hst v eq_refl) as [Hvb Hv0]. exists a. split; [|by eexists]. unfold NULL. bdec.
      destruct (strcmp_prop m a (lit "disabled") v (bytes_of "disabled") Hv Hvb Hv0) as (r & Hr & Hr0); [apply memory_lit; lit_in|].
      unfold reads. rewrite Hr, bind_Done, bind_Done. by rewrite Hr0.
    - exists NULL. split; [done|by eexists]. }
  rewrite (run_bind _ _ s _ _ Hs). cbn beta iota. rewrite (run_bind _ _ s _ _ Hdis). fold (is_disabled c). destruct (is_disabled c); [done|].
  destruct (prop_of c "no-map") as [v|].
  { destruct G2 as (a & _ & Ha & G2). rewrite (run_bind _ _ s _ _ G2). cbn beta iota. unfold NULL. by bdec. }
  rewrite (run_bind _ _ s _ _ G2). cbn beta iota. change (negb (NULL =? NULL)) with false. cbn iota.
  destruct (prop_of c "reg") as [v|]; [|by rewrite (run_bind _ _ s _ _ G3)].
  destruct G3 as (a & Hv & Ha & G3). rewrite (run_bind _ _ s _ _ G3). cbn beta iota. unfold NULL. bdec. destruct (Hrg v eq_refl) as [Hvb Hvl].
  pose proof (word_ld m a v 0 Hv Hvb ltac:(lia)) as W0. pose proof (word_ld m a v 4 Hv Hvb ltac:(lia)) as W4. rewrite Z.add_0_r in W0.
  rewrite (run_reads _ _ s _ W0), (run_reads _ _ s _ W4). set (st := word_at v 0). set (e := u32 (st + word_at v 4)).
  destruct (st <? dmin) eqn:?, (dmin <=? st) eqn:?, (e <=? dmax) eqn:?, (dmax <? e) eqn:?, (dmin <? e) eqn:?, (st <? dmax) eqn:?; b2p; try lia; done.
Qed.

Lemma reserved_loop_spec n dmin dmax ctx fr c off rs :
  located b off (fr :: ctx) c -> Forall resv_ok (c :: fr_after fr) -> (length (fr_after fr) + 1 < n)%nat ->
  reserved_loop E n dmin dmax off rs s = Done (foldl (add_reserved dmin dmax) (Some rs) (c :: fr_after fr), s).
Proof.
  revert fr c off rs. induction n as [|n IH]; intros fr c off rs Hl Hok Hn; [lia|]. inversion Hok as [|? ? Hc Hf]; subst.
  pose proof (located_nonneg _ _ _ _ Hl). cbn [reserved_loop]. bdec. rewrite (run_bind _ _ s _ _ (run_reserved dmin dmax off _ c rs Hl Hc)).
  cbn [foldl]. destruct (add_reserved dmin dmax (Some rs) c) as [rs'|]; [|by rewrite add_reserved_None]. rewrite run_gets.
  destruct (fdt_next_subnode_spec m d b fuel (proj1 Hat) memory_walk off ctx fr c Hl) as (off' & Hnext & Hch). rewrite (run_reads _ _ s _ Hnext).
  unfold next_child in Hch. destruct (fr_after fr) as [|c' f].
  - subst off'. destruct n as [|n]; [cbn in Hn; lia|]. done.
  - rewrite (IH _ _ _ _ Hch); [done|done|cbn in *; lia].
Qed.

Lemma located_children off ctx c : located b off ctx c -> (length (ft_children c) < fuel)%nat.
Proof.
  intros (pre & nts & post & Et & _ & _ & pad & pts & cts & -> & _ & Hcs). apply forest_length in Hcs.
  destruct (fuel_facts _ _ _ _ _ _ (proj1 Hat) Et memory_walk) as (_ & Hl & _). rewrite length_app in Hl. cbn [length] in Hl. rewrite !length_app in Hl. lia.
Qed.

(** The ranges from the nodes of /reserved-memory. *)
Definition reserved_run (dmin dmax : Z) (dram : list (Z * Z)) : ST (kboot A) (option (list (Z * Z))) :=
  resv_node ← dt_path E (lit "/reserved-memory");
  if resv_node <? 0 then mret (Some dram) else
  d ← gets kb_dt;
  node ← reads (fun m => fdt_first_subnode fuel m d resv_node);
  reserved_loop E fuel dmin dmax node dram.

Lemma dt_path_spec name q :
  name ∈ memory_lits -> bytes_of name = 47 :: q ->
  match fdt_focus [] t (split_path [] q) with
  | Some (ctx, n) => exists off, dt_path E (lit name) s = Done (off, s) /\ located b off ctx n
  | None => dt_path E (lit name) s = Done (- FDT_ERR_NOTFOUND, s)
  end.
Proof.
  intros Hx Eq. destruct (memory_lit name Hx) as (Hl & H0 & _). rewrite Eq in Hl.
  pose proof (fdt_path_offset_absolute (ke_fdt_rodata E) fuel m d b t _ _ Hat memory_walk Hl H0) as L.
  unfold dt_path, reads. rewrite run_gets. destruct (fdt_focus [] t (split_path [] q)) as [[ctx n]|].
  - destruct L as (off & -> & Hloc). by exists off.
  - by rewrite L.
Qed.

Lemma reserved_run_spec dmin dmax dram :
  Forall resv_ok (reserved_children t) ->
  reserved_run dmin dmax dram s = Done (foldl (add_reserved dmin dmax) (Some dram) (reserved_children t), s).
Proof.
  intros Hok. unfold reserved_run, reserved_children in *.
  pose proof (dt_path_spec "/reserved-memory" (bytes_of "reserved-memory") ltac:(lit_in) eq_refl) as L.
  change (split_path [] (bytes_of "reserved-memory")) with [bytes_of "reserved-memory"] in L.
  destruct (fdt_focus [] t [bytes_of "reserved-memory"]) as [[ctx r]|].
  - destruct L as (off & Hrun & Hl). rewrite (run_bind _ _ s _ _ Hrun). pose proof (located_nonneg _ _ _ _ Hl). bdec. rewrite run_gets.
    destruct (fdt_first_subnode_spec m d b fuel (proj1 Hat) memory_walk off ctx r Hl) as (off' & Hfirst & Hch). rewrite (run_reads _ _ s _ Hfirst).
    pose proof (located_children _ _ _ Hl) as Hlen. destruct (ft_children r) as [|c f].
    + subst off'. destruct fuel as [|n]; [cbn in Hlen; lia|]. done.
    + apply (reserved_loop_spec fuel dmin dmax _ _ c off' dram Hch); [done|cbn in *; lia].
  - by rewrite (run_bind _ _ s _ _ L).
Qed.

(** The node is set when there is room for it. *)
Lemma set_memory_node regions :
  rw_at m d b -> region m (memreg_addr E) 64 -> memreg_addr E + 64 <= d \/ d + b_total b <= memreg_addr E -> zlen regions <= MAX_MEM_REGIONS ->
  let bytes := flat_map region_bytes regions in
  let m1 := write_bytes m (memreg_addr E) bytes in
  store_regions m (memreg_addr E) regions = Done m1 /\
  forall off ctx n, located b off ctx n ->
    if free_bytes b <? setprop_need b (ft_props n) (bytes_of "reg") bytes then
      exists m', fdt_setprop fuel m1 d off (lit "reg") (memreg_addr E) (8 * zlen regions) = Done (- FDT_ERR_NOSPACE, m') /\ fdt_at m' d b t /\
        same_outside m1 m' d (b_total b)
    else exists m' b', fdt_setprop fuel m1 d off (lit "reg") (memreg_addr E) (8 * zlen regions) = Done (0, m') /\ rw_at m' d b' /\
      fdt_at m' d b' (plug ctx (tree_set n (bytes_of "reg") bytes)) /\ same_outside m1 m' d (b_total b).
Proof.
  intros Hrw Hreg Hd Hn bytes m1. unfold MAX_MEM_REGIONS in Hn. pose proof (zlen_nonneg regions). pose proof (zlen_regions regions) as Hlen. fold bytes in Hlen.
  split; [apply store_regions_spec; eapply region_sub; [exact Hreg|lia..]|]. intros off ctx n Hl.
  assert (forall k, k < memreg_addr E \/ memreg_addr E + 64 <= k -> m1 !! k = m !! k) as Hm1.
  { intros k Hk. unfold m1. rewrite lookup_write_bytes. case_if; b2p; [lia|done]. }
  destruct (memory_lit "reg" ltac:(lit_in)) as (Hq & _ & Hqd & Hqs).
  assert (cstr_at m1 (lit "reg") (bytes_of "reg")) as Hq1.
  { destruct Hq as [Hq0 Hq]. split; [done|]. eapply bytes_at_frame; [|exact Hq]. intros k Hk. apply Hm1. rewrite zlen_app in Hk. change (zlen [0]) with 1 in Hk. lia. }
  assert (rw_at m1 d b) as Hrw1 by (eapply rw_at_frame; [exact Hrw|]; intros k Hk; apply Hm1; lia).
  assert (0 <= memreg_addr E) as H0 by (destruct (region_lookup _ _ _ (memreg_addr E) Hreg); lia).
  assert (memreg_addr E + 64 <= 2 ^ 32) as He by (destruct (region_lookup _ _ _ (memreg_addr E + 63) Hreg); lia).
  pose proof (fdt_setprop_spec fuel m1 d b off ctx n (lit "reg") (bytes_of "reg") (memreg_addr E) bytes Hrw1 Hl memory_walk Hq1) as L.
  rewrite Hlen in L. specialize (L ltac:(by vm_compute) ltac:(exact Hqd) (regions_bytes _) ltac:(apply bytes_at_write_eq; lia) ltac:(lia) ltac:(lia)).
  case_if.
  - destruct L as (m' & L & H' & Hs). exists m'. split; [done|]. split; [|done]. split; [by apply rw_at_blob|]. by destruct Hat.
  - destruct L as (m' & b' & L & H' & Hl' & _ & Hs). exists m', b'. split; [done|]. split; [done|]. split; [|done]. by eapply located_fdt; [apply rw_at_blob|].
Qed.
End memory_node.

(** What is left when the ranges are known. *)
Definition set_memory_tail {A} (E : kboot_env) (regions : list (Z * Z)) : ST (kboot A) Z :=
  node ← dt_path E (ke_lit E "/memory");
  bail_if (node <? 0) (
  _ ← stores (fun m => store_regions m (memreg_addr E) regions);
  r ← dt_setprop E node (ke_lit E "reg") (memreg_addr E) (8 * zlen regions);
  bail_if (negb (r =? 0)) (mret 0)).

Lemma dt_set_memory_run {A} E (s : kboot A) b t anode :
  fdt_at (kb_mem s) (kb_dt s) b t -> 2 * b_total b + 2 < Z.of_nat (ke_fuel E) -> lits_ok E s b memory_lits ->
  adt_path_offset (ke_adt_rodata E) (kb_mem s) (ke_adt E) (ke_lit E "/chosen") = Done anode -> 0 <= anode -> Forall resv_ok (reserved_children t) ->
  dt_set_memory E s = match memory_regions (kb_top s) t (kb_initrd_start s) (kb_initrd_size s) with
    | None => Done (-1, s)
    | Some regions => if not_page_aligned (kb_dt s) (u32 (kb_dt_bufsize s)) then Done (-1, s) else set_memory_tail E regions s
    end.
Proof.
  intros Hat Hfu Hl Hadt Ha Hok. unfold dt_set_memory. rewrite (run_reads _ _ s _ Hadt). unfold bail_if at 1. bdec.
  rewrite run_gets. cbv zeta. set (dmin := phys_base (kb_top s)). set (dmax := u32 (dmin + mem_size (kb_top s))).
  rewrite (run_bind_bind _ _ _ _ _ _ (reserved_run_spec E s b t Hat Hfu Hl dmin dmax [(dmin, u32 (dmax - dmin))] Hok)).
  unfold memory_regions. fold dmin dmax. destruct (foldl _ _ _) as [rs|]; cbn [mbind option_bind]; [|done].
  rewrite !run_gets. unfold MAX_MEM_REGIONS. set (has := negb (kb_initrd_start s =? NULL) && negb (kb_initrd_size s =? 0)).
  destruct has; cbn [andb existsb].
  - unfold bail_if at 1 2. rewrite orb_false_r. cbn [fst snd]. destruct (not_page_aligned (kb_initrd_start s) (kb_initrd_size s)); [by destruct (8 <=? zlen rs)|].
    rewrite zlen_app. change (zlen [(kb_initrd_start s, kb_initrd_size s)]) with 1. unfold bail_if at 1. destruct (8 <=? zlen rs) eqn:?, (8 <=? zlen rs + 1) eqn:?, (8 <? zlen rs + 1 + 1) eqn:?; b2p; try lia; try done.
    rewrite !run_gets, <- app_assoc. unfold bail_if at 1. by destruct (not_page_aligned _ _).
  - unfold bail_if at 1 2 3. cbn [app]. rewrite app_nil_r. destruct (8 <=? zlen rs) eqn:?, (8 <? zlen rs + 1) eqn:?; b2p; try lia; try done.
    rewrite !run_gets. unfold bail_if at 1. by destruct (not_page_aligned _ _).
Qed.

Lemma memory_regions_length top t start size rs : memory_regions top t start size = Some rs -> zlen rs <= MAX_MEM_REGIONS.
Proof.
  unfold memory_regions. destruct (foldl _ _ _) as [l|]; [|done]. cbn [mbind option_bind]. set (initrd := if negb (start =? NULL) && negb (size =? 0) then [(start, size)] else []).
  destruct (existsb _ _); [done|]. case_if; [done|]. intros [= <-]. b2p. rewrite !zlen_app in *. change (zlen [(start, size)]) with 1. lia.
Qed.

(** *** What the memory node must list

    Said with numbers, not with machine words: usable memory is [lo] up to [hi]. *)
Definition page_aligned (r : Z * Z) : bool := (r.1 mod 4096 =? 0) && (r.2 mod 4096 =? 0).

(** What a reserved range adds: nothing when it lies inside, itself when it lies
    outside and has page boundaries, and otherwise ([None]) it is an error. *)
Definition wanted (lo hi : Z) t : option (list (Z * Z)) :=
  match resv_range t with
  | None => Some []
  | Some (start, len) =>
      if (lo <=? start) && (start + len <=? hi) then Some []
      else if (start + len <=? lo) || (hi <=? start) then (if page_aligned (start, len) then Some [(start, len)] else None)
      else None
  end.

Definition memory_ranges (lo hi : Z) t (start size : Z) : option (list (Z * Z)) :=
  extra ← mapM (wanted lo hi) (reserved_children t);
  let initrd := if (start =? 0) || (size =? 0) then [] else [(start, size)] in
  let all := (lo, hi - lo) :: concat extra ++ initrd ++ [(start, size)] in
  if forallb page_aligned initrd && (zlen all <=? 8) then Some all else None.

Lemma not_page_aligned_mod a n : not_page_aligned a n = negb (page_aligned (a, n)).
Proof.
  unfold not_page_aligned, page_aligned. f_equal. change (PAGE_SIZE - 1) with (Z.ones 12). rewrite Z.land_ones by lia. cbn [fst snd].
  change 4096 with (2 ^ 12). rewrite <- !Z.land_ones, Z.land_lor_distr_l by lia. apply Bool.eq_iff_eq_true.
  by rewrite andb_true_iff, !Z.eqb_eq, Z.lor_eq_0_iff.
Qed.

Lemma page_aligned_u32 a n : page_aligned (a, u32 n) = page_aligned (a, n).
Proof. unfold page_aligned, wrap. cbn [fst snd]. do 2 f_equal. change (2 ^ 32) with (4096 * 1048576). lia. Qed.

Lemma word_at_range v i : are_bytes v -> 0 <= word_at v i < 2 ^ 32.
Proof.
  intros Hb. unfold word_at. assert (are_bytes (drop i v)) as Hd by by apply Forall_drop.
  destruct (drop i v) as [|b0 [|b1 [|b2 [|b3 r]]]]; try lia. rewrite !Forall_cons in Hd. unfold is_byte in Hd. lia.
Qed.

Lemma resv_range_nonneg t start len : resv_ok t -> resv_range t = Some (start, len) -> 0 <= start < 2 ^ 32 /\ 0 <= len < 2 ^ 32.
Proof.
  intros [_ Hr] H. unfold resv_range in H. destruct (is_disabled t); [done|]. destruct (prop_of t "no-map"); [done|].
  destruct (prop_of t "reg") as [v|] eqn:Ev; [|done]. destruct (Hr v eq_refl) as [Hv _]. injection H as <- <-. split; by apply word_at_range.
Qed.

(** One node: the code's loop against [wanted], while there is room. *)
Lemma add_reserved_wanted lo hi rs t :
  0 <= lo <= hi -> resv_ok t -> (forall start len, resv_range t = Some (start, len) -> start + len < 2 ^ 32) ->
  add_reserved lo hi (Some rs) t =
    (l ← wanted lo hi t; if (zlen l =? 0) || (zlen rs <? 8) then Some (rs ++ l) else None).
Proof.
  intros Hlo Hok Hend. unfold add_reserved, wanted. cbn [mbind option_bind].
  destruct (resv_range t) as [[start len]|] eqn:Er; [|cbn; by rewrite app_nil_r].
  pose proof (resv_range_nonneg _ _ _ Hok Er). specialize (Hend _ _ eq_refl). rewrite u32_small by lia. unfold add_region. rewrite not_page_aligned_mod.
  destruct ((lo <=? start) && (start + len <=? hi)) eqn:E1; [cbn; by rewrite app_nil_r|].
  destruct ((start + len <=? lo) || (hi <=? start)) eqn:E2.
  - replace ((start <? lo) && (lo <? start + len) || (lo <=? start) && (start <? hi)) with false.
    2:{ symmetry. apply orb_false_iff. rewrite !andb_false_iff, !Z.ltb_ge, !Z.leb_gt. apply andb_false_iff in E1. apply orb_true_iff in E2.
        rewrite !Z.leb_gt in E1. rewrite !Z.leb_le in E2. lia. }
    destruct (page_aligned (start, len)); cbn [negb mbind option_bind]; [|done]. change (zlen [(start, len)] =? 0) with false. cbn [orb].
    unfold MAX_MEM_REGIONS. destruct (8 <=? zlen rs) eqn:?, (zlen rs <? 8) eqn:?; b2p; try lia; done.
  - replace ((start <? lo) && (lo <? start + len) || (lo <=? start) && (start <? hi)) with true; [done|].
    symmetry. apply orb_true_iff. rewrite !andb_true_iff, !Z.ltb_lt, Z.leb_le. apply andb_false_iff in E1. apply orb_false_iff in E2.
    rewrite !Z.leb_gt in E1. rewrite !Z.leb_gt in E2. lia.
Qed.

Definition resv_bounded t : Prop := forall start len, resv_range t = Some (start, len) -> start + len < 2 ^ 32.

(** The loop fails, or ends with the list wanted; it can only fail early for
    lack of room if the list would be too long. *)
Lemma add_reserved_all lo hi ts rs :
  0 <= lo <= hi -> Forall resv_ok ts -> Forall resv_bounded ts ->
  match foldl (add_reserved lo hi) (Some rs) ts with
  | Some l => exists extra, mapM (wanted lo hi) ts = Some extra /\ l = rs ++ concat extra
  | None => forall extra, mapM (wanted lo hi) ts = Some extra -> 8 < zlen (rs ++ concat extra)
  end.
Proof.
  intros Hlo Hok. revert rs. induction Hok as [|t ts Ht _ IH]; intros rs Hb; [exists []; by rewrite app_nil_r|].
  inversion_clear Hb as [|? ? Hbt Hbts]. cbn [foldl mapM]. rewrite add_reserved_wanted by done.
  destruct (wanted lo hi t) as [l|] eqn:El; cbn [mbind option_bind]; [|rewrite add_reserved_None; by intros].
  destruct ((zlen l =? 0) || (zlen rs <? 8)) eqn:Er.
  - specialize (IH (rs ++ l) Hbts). destruct (foldl _ _ ts) as [r|].
    + destruct IH as (extra & -> & ->). exists (l :: extra). split; [done|]. cbn [concat]. by rewrite app_assoc.
    + intros extra' He. destruct (mapM (wanted lo hi) ts) as [extra|]; cbn in He; [|done]. injection He as <-. cbn [concat].
      specialize (IH extra eq_refl). by rewrite app_assoc.
  - rewrite add_reserved_None. intros extra' He. destruct (mapM (wanted lo hi) ts) as [extra|]; cbn in He; [|done]. injection He as <-.
    cbn [concat]. rewrite !zlen_app. apply orb_false_iff in Er as [E1 E2]. b2p. pose proof (zlen_nonneg l). pose proof (zlen_nonneg (concat extra)). lia.
Qed.

Lemma memory_regions_ranges top t start size :
  0 <= phys_base top -> 0 <= mem_size top -> phys_base top + mem_size top < 2 ^ 32 ->
  Forall resv_ok (reserved_children t) -> Forall resv_bounded (reserved_children t) ->
  memory_regions top t start size = memory_ranges (phys_base top) (phys_base top + mem_size top) t start size.
Proof.
  intros H0 H1 H2 Hok Hb. unfold memory_regions, memory_ranges. rewrite (u32_small (phys_base top + mem_size top)) by lia.
  rewrite u32_small by lia. set (lo := phys_base top) in *. set (hi := lo + mem_size top) in *.
  pose proof (add_reserved_all lo hi (reserved_children t) [(lo, hi - lo)] ltac:(lia) Hok Hb) as L.
  set (ini := if (start =? 0) || (size =? 0) then [] else [(start, size)]).
  assert ((if negb (start =? NULL) && negb (size =? 0) then [(start, size)] else []) = ini) as ->
    by (unfold ini, NULL; by destruct (start =? 0), (size =? 0)).
  assert (existsb (fun r => not_page_aligned r.1 r.2) ini = negb (forallb page_aligned ini)) as ->.
  { unfold ini. case_if; [done|]. cbn. rewrite not_page_aligned_mod, orb_false_r, andb_true_r. done. }
  destruct (foldl _ _ _) as [l|]; cbn [mbind option_bind].
  - destruct L as (extra & -> & ->). cbn [mbind option_bind]. destruct (forallb page_aligned ini); cbn [negb andb]; [|done].
    rewrite <- app_assoc. cbn [app]. unfold MAX_MEM_REGIONS. rewrite !zlen_cons, !zlen_app. change (zlen [(start, size)]) with 1.
    destruct (8 <? _) eqn:?, (_ <=? 8) eqn:?; b2p; try lia; done.
  - destruct (mapM _ _) as [extra|]; [|done]. specialize (L extra eq_refl). cbn [mbind option_bind].
    destruct (forallb page_aligned ini); [|done]. cbn [andb]. cbn [app] in L. rewrite zlen_cons in L. rewrite zlen_cons, !zlen_app.
    pose proof (zlen_nonneg ini). change (zlen [(start, size)]) with 1. bdec. done.
Qed.

(** C17: The memory node tells the kernel which memory it may use:
    dt_set_memory replaces the property "reg" of /memory, and nothing else of
    the tree, by start and size of the usable range of the boot arguments, of
    the ranges of the enabled children of /reserved-memory that lie outside of
    it (in their order; a child that may not be mapped, has no range or lies
    inside is passed over), and of the initrd.  It fails, with the tree as it
    was, when a reserved range sticks out of the usable memory, when one that is
    listed, the initrd or the tree does not begin and end on a page of 4096
    bytes, when there are more than 8 ranges, or when there is no room.  The
    initrd comes twice: the last range is meant to be the device tree's.  The
    usable memory and the reserved ranges end below 2^32. *)
Theorem dt_set_memory_correct {A} E (s : kboot A) b t anode :
  let m := kb_mem s in let d := kb_dt s in let lo := phys_base (kb_top s) in let hi := lo + mem_size (kb_top s) in
  rw_at m d b -> fdt_at m d b t -> 2 * b_total b + 2 < Z.of_nat (ke_fuel E) -> lits_ok E s b memory_lits ->
  adt_path_offset (ke_adt_rodata E) m (ke_adt E) (ke_lit E "/chosen") = Done anode -> 0 <= anode ->
  region m (memreg_addr E) 64 -> memreg_addr E + 64 <= d \/ d + b_total b <= memreg_addr E ->
  0 <= lo <= hi -> hi < 2 ^ 32 -> Forall resv_ok (reserved_children t) -> Forall resv_bounded (reserved_children t) ->
  match memory_ranges lo hi t (kb_initrd_start s) (kb_initrd_size s), fdt_focus [] t [bytes_of "memory"] with
  | Some ranges, Some (ctx, n) =>
      if negb (page_aligned (d, kb_dt_bufsize s)) then dt_set_memory E s = Done (-1, s) else
      let bytes := flat_map (fun r => be32 r.1 ++ be32 r.2) ranges in
      exists m', (forall k, (k < memreg_addr E \/ memreg_addr E + 64 <= k) /\ (k < d \/ d + b_total b <= k) -> m' !! k = m !! k) /\
        if free_bytes b <? setprop_need b (ft_props n) (bytes_of "reg") bytes then
          dt_set_memory E s = Done (-1, set_mem s m') /\ fdt_at m' d b t
        else dt_set_memory E s = Done (0, set_mem s m') /\
          exists b', rw_at m' d b' /\ fdt_at m' d b' (plug ctx (tree_set n (bytes_of "reg") bytes))
  | _, _ => dt_set_memory E s = Done (-1, s)
  end.
Proof.
  intros m d lo hi Hrw Hat Hfu Hl Hadt Ha Hreg Hd Hlo Hhi Hok Hbd. rewrite (dt_set_memory_run E s b t anode Hat Hfu Hl Hadt Ha Hok).
  rewrite not_page_aligned_mod, page_aligned_u32. fold d.
  assert (memory_regions (kb_top s) t (kb_initrd_start s) (kb_initrd_size s) = memory_ranges lo hi t (kb_initrd_start s) (kb_initrd_size s)) as Eq
    by (apply memory_regions_ranges; done || lia).
  rewrite <- Eq. destruct (memory_regions (kb_top s) t _ _) as [rs|] eqn:Er; [|done]. change (fun r : Z * Z => be32 r.1 ++ be32 r.2) with region_bytes.
  pose proof (dt_path_spec E s b t Hat Hfu Hl "/memory" (bytes_of "memory") ltac:(apply (bool_decide_unpack _); reflexivity) eq_refl) as L.
  change (split_path [] (bytes_of "memory")) with [bytes_of "memory"] in L. unfold set_memory_tail.
  destruct (fdt_focus [] t [bytes_of "memory"]) as [[ctx n]|].
  2: { destruct (negb _); [done|]. by rewrite (run_bind _ _ s _ _ L). }
  destruct L as (off & Hpath & Hloc). destruct (negb (page_aligned _)); [done|]. rewrite !(run_bind _ _ s _ _ Hpath).
  unfold bail_if. pose proof (located_nonneg _ _ _ _ Hloc). bdec. pose proof (memory_regions_length _ _ _ _ _ Er) as Hn. pose proof (zlen_nonneg rs).
  destruct (set_memory_node E s b t Hat Hfu Hl rs Hrw Hreg Hd Hn) as [Hst Hset]. specialize (Hset off ctx n Hloc). fold m d in Hset, Hst. cbv zeta in Hset |- *.
  rewrite !(run_stores _ _ s _ Hst). set (m1 := write_bytes m (memreg_addr E) (flat_map region_bytes rs)) in *.
  assert (forall m' r, fdt_setprop (ke_fuel E) m1 d off (ke_lit E "reg") (memreg_addr E) (8 * zlen rs) = Done (r, m') ->
    dt_setprop E off (ke_lit E "reg") (memreg_addr E) (8 * zlen rs) (set_mem s m1) = Done (r, set_mem s m')) as Hrun.
  { intros m' r Hr. unfold dt_setprop. rewrite run_gets. unfold writes. cbn [kb_mem set_mem kb_dt]. fold d. rewrite Hr, bind_Done. done. }
  assert (forall m' k, same_outside m1 m' d (b_total b) -> (k < memreg_addr E \/ memreg_addr E + 64 <= k) /\ (k < d \/ d + b_total b <= k) -> m' !! k = m !! k) as Hout.
  { intros m' k Hs [H1 H2]. rewrite Hs by lia. unfold m1. rewrite lookup_write_bytes, zlen_regions. unfold MAX_MEM_REGIONS in Hn. case_if; b2p; [lia|done]. }
  case_if.
  - destruct Hset as (m' & Hset & H' & Hs). exists m'. split; [intros k Hk; by apply Hout|]. split; [|done]. by rewrite (run_bind _ _ _ _ _ (Hrun _ _ Hset)).
  - destruct Hset as (m' & b' & Hset & H' & H2 & Hs). exists m'. split; [intros k Hk; by apply Hout|]. split; [|by exists b']. by rewrite (run_bind _ _ _ _ _ (Hrun _ _ Hset)).
Qed.

(** *** A tree with a reserved range

<<
/ { memory { reg = <0 0>; };
    reserved-memory { fw@1000 { reg = <0x1000 0x1000>; }; off { status = "disabled"; }; hid { no-map; }; }; };
>> *)
Definition resv_node : fdt_tree := FNode (bytes_of "reserved-memory") []
  [FNode (bytes_of "fw@1000") [(bytes_of "reg", be32 0x1000 ++ be32 0x1000)] [];
   FNode (bytes_of "off") [(bytes_of "status", bytes_of "disabled" ++ [0])] [];
   FNode (bytes_of "hid") [(bytes_of "no-map", [])] []].
Definition memory_tree (reg : list Z) : fdt_tree := FNode [] [] [FNode (bytes_of "memory") [(bytes_of "reg", reg)] []; resv_node].
Definition resv_toks : list token :=
  [TBegin [] [0; 0; 0]; TBegin (bytes_of "memory") [0]; TProp 0 (replicate 8 0) []; TEnd;
   TBegin (bytes_of "reserved-memory") [];
   TBegin (bytes_of "fw@1000") []; TProp 0 (be32 0x1000 ++ be32 0x1000) []; TEnd;
   TBegin (bytes_of "off") []; TProp 4 (bytes_of "disabled" ++ [0]) [0; 0; 0]; TEnd;
   TBegin (bytes_of "hid") []; TProp 11 [] []; TEnd; TEnd; TEnd; TFin].
Definition resv_strings : list Z := bytes_of "reg" ++ [0] ++ bytes_of "status" ++ [0] ++ bytes_of "no-map" ++ [0].
Definition resv_blob : blob := Blob (56 + pos resv_toks + 18 + 64) 56 (56 + pos resv_toks) 40 16 0 resv_toks resv_strings.
Definition chosen_adt : adt_tree := ANode [(bytes_of "a", [1; 0; 0; 0])] [ANode [(bytes_of "name", bytes_of "chosen" ++ [0])] []].

Definition resv_consts : list (list Z) :=
  map (fun x => bytes_of x ++ [0]) (memory_lits ++ ["/chosen"; "name"]%string) ++ [flatten chosen_adt; replicate 64 0].
Definition resv_lit (x : string) : Z := const_at (bytes_of x ++ [0]) resv_consts 0x2000.
Definition resv_env : kboot_env :=
  KbootEnv 1000 resv_lit (FdtRodata 0 0 0 0 0 0) (Rodata (resv_lit "name") 0 0 0 0) (const_at (replicate 64 0) resv_consts 0x2000 - 16)
    (const_at (flatten chosen_adt) resv_consts 0x2000) 0 0 (BootVideo 0 0 0 0 0) 0 0 0 0 0 0 0.
Definition resv_state : kboot unit :=
  Kboot (blob_mem resv_blob (concat resv_consts)) tt (Top 0x10000 0x100000 false) 0x1000 0x1000 0x200000 0x2000 [] 0 0 None.

Lemma resv_rw : rw_at (kb_mem resv_state) 0x1000 resv_blob.
Proof. by apply blob_mem_rw. Qed.

Lemma resv_at : fdt_at (kb_mem resv_state) 0x1000 resv_blob (memory_tree (replicate 8 0)).
Proof.
  split; [apply rw_at_blob, resv_rw|]. exists (take 16 resv_toks). split; [reflexivity|].
  assert (string_at resv_strings 0 (bytes_of "reg")) as Hreg by (by eapply (demo_string_at _ _ _ (drop 4 resv_strings))).
  exists [0; 0; 0], [], (take 14 (drop 1 resv_toks)). split; [reflexivity|]. split; [constructor|].
  apply (forest_node _ _ _ _ _ _ [TProp 0 (replicate 8 0) []] [] (take 11 (drop 4 resv_toks))); [constructor; [exact Hreg|constructor]|constructor|].
  apply (forest_node _ _ _ _ _ _ [] (take 9 (drop 5 resv_toks)) []); [constructor| |constructor].
  apply (forest_node _ _ _ _ _ _ [TProp 0 (be32 0x1000 ++ be32 0x1000) []] [] (take 6 (drop 8 resv_toks))); [constructor; [exact Hreg|constructor]|constructor|].
  apply (forest_node _ _ _ _ _ _ [TProp 4 (bytes_of "disabled" ++ [0]) [0; 0; 0]] [] (take 3 (drop 11 resv_toks))); [|constructor|].
  { constructor; [|constructor]. by eapply (demo_string_at _ _ _ (drop 11 resv_strings)). }
  apply (forest_node _ _ _ _ _ _ [TProp 11 [] []] [] []); [|constructor|constructor].
  constructor; [|constructor]. by eapply (demo_string_at _ _ _ []).
Qed.

Lemma resv_lits : lits_ok resv_env resv_state resv_blob memory_lits.
Proof.
  unfold lits_ok. apply Forall_forall. intros x Hx. change (ke_lit resv_env x) with (resv_lit x).
  destruct (blob_mem_const resv_blob resv_consts (bytes_of x ++ [0]) eq_refl) as [Hb Hlo]; [by vm_compute| |].
  { unfold resv_consts. apply elem_of_app. left. apply (list_elem_of_fmap_2 (fun x => bytes_of x ++ [0])). apply elem_of_app. by left. }
  assert (between 0 256 (bytes_of x) && (resv_lit x + zlen (bytes_of x) + 1 <=? memreg_addr resv_env) = true) as Hx'.
  { clear Hb Hlo. revert x Hx. apply Forall_forall. apply (bool_decide_unpack _). vm_compute. reflexivity. }
  apply andb_true_iff in Hx' as [Hs Hm]. b2p. split; [split; [by apply between_Forall|exact Hb]|]. unfold resv_lit in *. split; [lia|]. split; [|by left].
  right. change (kb_dt resv_state) with 0x1000. assert (b_total resv_blob < 0x1000) by (by vm_compute). lia.
Qed.

Lemma dt_set_memory_correct_witness :
  exists m', (forall k, (k < memreg_addr resv_env \/ memreg_addr resv_env + 64 <= k) /\ (k < 0x1000 \/ 0x1000 + b_total resv_blob <= k) ->
      m' !! k = kb_mem resv_state !! k) /\
    dt_set_memory resv_env resv_state = Done (0, set_mem resv_state m') /\
    exists b', rw_at m' 0x1000 b' /\ fdt_at m' 0x1000 b'
      (memory_tree (flat_map region_bytes [(0x10000, 0x100000); (0x1000, 0x1000); (0x200000, 0x2000); (0x200000, 0x2000)])).
Proof.
  refine (dt_set_memory_correct resv_env resv_state resv_blob (memory_tree (replicate 8 0)) 48 resv_rw resv_at _ resv_lits _ _ _ _ _ _ _ _).
  - by vm_compute.
  - vm_compute. reflexivity.
  - done.
  - destruct (blob_mem_const resv_blob resv_consts (replicate 64 0) eq_refl) as [Hb Hlo]; [by vm_compute|by apply (list_elem_of_lookup_2 _ 9%nat)|].
    apply bytes_at_region in Hb. exact Hb.
  - right. by vm_compute.
  - done.
  - done.
  - unfold reserved_children. cbn. repeat apply Forall_cons_2; try apply Forall_nil_2; split; intros v Hv; vm_compute in Hv; simplify_eq;
      (split; [by apply between_bytes|first [cbn; lia|apply (bool_decide_unpack _); reflexivity]]).
  - unfold reserved_children. cbn. repeat apply Forall_cons_2; try apply Forall_nil_2; intros start len Hr; vm_compute in Hr; simplify_eq; done.
Defined.
