(* ===== verification/Payload.v ===== *)
(** * Payloads (src/payload.c, src/payload.h)

    What is appended to the image is a sequence of payloads: device trees,
    kernels, initramfs archives, variables, each possibly compressed.
    [load_one_payload] recognises one by its first bytes, loads it and returns
    where the next begins.  A compressed payload is unpacked to the end of the
    heap, which is only then reserved, and is itself loaded as a payload.

    Messages that are printed are left out.  [static] gives the address of a
    constant array with the given bytes. *)
From S2P Require Import Prelude Machine MinLz Lzma Xz CString Alloc Adt Fdt FdtRw Inflate Gzip Kboot.

Definition KERNEL_ALIGN : Z := Z.shiftl 1 18.
Definition MAX_VAR_NAME : Z := 64.
Definition MAX_VAR_SIZE : Z := 1024.
Definition MAX_CHOSEN_VARS : Z := 16.

Definition gz_magic : list Z := [0x1f; 0x8b].
Definition xz_magic : list Z := [0xfd; 55; 122; 88; 90; 0].
Definition fdt_magic_bytes : list Z := [0xd0; 0x0d; 0xfe; 0xed].
Definition kernel_magic : list Z := [0x00; 0x00; 0xa0; 0xe1; 0x00; 0x00; 0xa0; 0xe1].
Definition cpio_magic : list Z := bytes_of "07070".
Definition img4_magic : list Z := [0x16; 0x04] ++ bytes_of "IMG4".
Definition sig_magic : list Z := bytes_of "m1n1_sig".
Definition initramfs_magic : list Z := bytes_of "m1n1_initramfs".
Definition empty_magic : list Z := [0; 0; 0; 0].

(** The static variables, the heap and what kboot.c keeps; [pl_chosen] are the
    first [chosen_cnt] entries of [chosen], [pl_minlz] what minilzlib keeps
    between two calls (its memory is not used: the memory is that of kboot). *)
Record payload (A : Type) := Payload {
  pl_kb : kboot A;
  pl_heap_base : Z;
  pl_kernel : Z;
  pl_fdt : Z;
  pl_chosen : list Z;
  pl_minlz : minlz;
}.
Arguments Payload {A}.
Arguments pl_kb {A}.
Arguments pl_heap_base {A}.
Arguments pl_kernel {A}.
Arguments pl_fdt {A}.
Arguments pl_chosen {A}.
Arguments pl_minlz {A}.

Record payload_env (A : Type) := PayloadEnv {
  pe_kboot : kboot_env;
  pe_static : list Z -> Z;
  pe_expect_compatible : Z;
  pe_usb_init : ST (kboot A) unit;
}.
Arguments pe_kboot {A}.
Arguments pe_static {A}.
Arguments pe_expect_compatible {A}.
Arguments pe_usb_init {A}.

(** How often the loops of XzDecode go round at most: a packet and a chunk
    write at least one byte each. *)
Definition xz_rounds : nat := Z.to_nat (2 ^ 26).

Lemma xz_rounds_enough : (Z.to_nat (2 ^ 26) <= xz_rounds)%nat.
Proof. unfold xz_rounds. exact (le_n (Z.to_nat (2 ^ 26))). Qed.
#[global] Opaque xz_rounds.

Section payload.
Context {A : Type} `{!Malloc A} (E : payload_env A).
#[local] Abbreviation P := (ST (payload A)).
#[local] Abbreviation fuel := (ke_fuel (pe_kboot E)).
#[local] Abbreviation lit := (ke_lit (pe_kboot E)).
#[local] Abbreviation static := (pe_static E).

Definition set_kb (k : kboot A) (s : payload A) := Payload k (pl_heap_base s) (pl_kernel s) (pl_fdt s) (pl_chosen s) (pl_minlz s).
Definition set_heap_base h (s : payload A) := Payload (pl_kb s) h (pl_kernel s) (pl_fdt s) (pl_chosen s) (pl_minlz s).
Definition set_kernel k (s : payload A) := Payload (pl_kb s) (pl_heap_base s) k (pl_fdt s) (pl_chosen s) (pl_minlz s).
Definition set_fdt f (s : payload A) := Payload (pl_kb s) (pl_heap_base s) (pl_kernel s) f (pl_chosen s) (pl_minlz s).
Definition set_chosen c (s : payload A) := Payload (pl_kb s) (pl_heap_base s) (pl_kernel s) (pl_fdt s) c (pl_minlz s).
Definition set_minlz z (s : payload A) := Payload (pl_kb s) (pl_heap_base s) (pl_kernel s) (pl_fdt s) (pl_chosen s) z.

Definition in_kboot {B} (k : ST (kboot A) B) : P B := fun s => '(b, kb) ← k (pl_kb s); Done (b, set_kb kb s).
Definition p_reads {B} (f : mem -> outcome B) : P B := in_kboot (reads f).
Definition p_writes {B} (f : mem -> outcome (B * mem)) : P B := in_kboot (writes f).
Definition p_stores (f : mem -> outcome mem) : P unit := in_kboot (stores f).
(** A call into minilzlib, which works on the same memory. *)
Definition in_minlz {B} (f : LZ B) : P B := fun s =>
  '(b, z) ← f (MinLz.set_mem (kb_mem (pl_kb s)) (pl_minlz s));
  Done (b, set_minlz z (set_kb (Kboot.set_mem (pl_kb s) (mz_mem z)) s)).
Definition heap_alloc (size align : Z) : P Z := fun s =>
  '(b, h) ← heapblock_alloc_aligned size align (pl_heap_base s); Done (b, set_heap_base h s).
Definition p_assert (b : bool) : P unit := lift (c_assert b).
(** [!memcmp(p, magic, sizeof magic)] *)
Definition is_magic (p : Z) (magic : list Z) : P bool :=
  p_reads (fun m => r ← memcmp m p (static magic) (zlen magic); Done (r =? 0)).

(** ** Single payloads *)
Definition load_fdt (p : Z) : P Z :=
  r ← p_reads (fun m => fdt_node_check_compatible (ke_fdt_rodata (pe_kboot E)) fuel m p 0 (pe_expect_compatible E));
  _ ← (if r =? 0 then modify (set_fdt p) else mret tt);
  total ← p_reads (fun m => fdt_totalsize m p);
  mret (u32 (p + total)).

Definition load_cpio (p size : Z) : P Z :=
  if size =? 0 then mret NULL else
  _ ← in_kboot (kboot_set_initrd p size);
  mret (u32 (p + size)).

Definition load_kernel (p size : Z) : P Z :=
  _ ← modify (set_kernel p);
  _ ← (if negb (Z.land p (KERNEL_ALIGN - 1) =? 0) then
         new_addr ← heap_alloc size KERNEL_ALIGN;
         _ ← p_writes (fun m => memcpy m new_addr p size);
         modify (set_kernel new_addr)
       else mret tt);
  kernel ← gets pl_kernel;
  mret (u32 (kernel + 0x1400000)).

(** The variable at [p]; the result is where the next payload begins. *)
Definition check_var (p : Z) : P (option Z) :=
  n ← p_reads (fun m => strnlen m p (MAX_VAR_NAME + 1));
  val ← p_reads (fun m => memchr m p 61 n);
  if val =? NULL then mret None else
  let val := val + 1 in
  n ← p_reads (fun m => strnlen m val (MAX_VAR_SIZE + 1));
  end_ ← p_reads (fun m => memchr m val 10 n);
  if end_ =? NULL then mret None else
  _ ← p_stores (fun m => store8 m end_ 0);
  l ← p_reads (fun m => strlen m (lit "chosen."));
  r ← p_reads (fun m => strncmp m p (lit "chosen.") l);
  _ ← (if r =? 0 then
         chosen ← gets pl_chosen;
         if MAX_CHOSEN_VARS <=? zlen chosen then mret tt else modify (set_chosen (chosen ++ [p]))
       else mret tt);
  mret (Some (u32 (end_ + 1))).

(** ** Compressed payloads *)
Section compressed.
Context (load_one_payload : Z -> Z -> P Z).

Definition finalize_uncompression (dest dest_len : Z) : P unit :=
  b ← heap_alloc dest_len KERNEL_ALIGN;
  _ ← p_assert (dest =? b);
  let end_ := u32 (dest + dest_len) in
  next ← load_one_payload dest dest_len;
  _ ← p_assert ((next =? NULL) || (dest <=? next));
  if end_ <? next then
    b ← heap_alloc (u32 (next - end_)) 1;
    p_assert (end_ =? b)
  else mret tt.

Definition decompress_gz (p size : Z) : P Z :=
  dest ← heap_alloc 0 KERNEL_ALIGN;
  u ← p_writes (fun m => u ← tinf_gzip_uncompress fuel m dest (Z.shiftl 1 26) p 0; Done (u, u_mem u));
  if negb (u_res u =? TINF_OK) then mret NULL else
  source_len ← lift (of_option (u_sourceLen u));
  _ ← finalize_uncompression dest (u_destLen u);
  mret (u32 (p + source_len)).

Definition decompress_xz (p size : Z) : P Z :=
  dest ← heap_alloc 0 KERNEL_ALIGN;
  '(ok, source_len, dest_len) ← in_minlz (XzDecode xz_rounds (S xz_rounds) p 0 dest (Z.shiftl 1 26));
  if negb (ok : bool) then mret NULL else
  _ ← finalize_uncompression dest dest_len;
  mret (u32 (p + source_len)).
End compressed.

(** [n] bounds how often one payload unpacks to another. *)
Fixpoint load_one_payload (n : nat) (start size : Z) : P Z :=
  match n with
  | O => fun _ => Stuck
  | S n' =>
      let p := start in
      if p =? NULL then mret NULL else
      b ← is_magic p gz_magic;
      if b : bool then decompress_gz (load_one_payload n') p size else
      b ← is_magic p xz_magic;
      if b : bool then decompress_xz (load_one_payload n') p size else
      b ← is_magic p fdt_magic_bytes;
      if b : bool then load_fdt p else
      b ← is_magic p cpio_magic;
      if b : bool then load_cpio p size else
      b ← is_magic p kernel_magic;
      if b : bool then load_kernel p size else
      b ← is_magic p sig_magic;
      if b : bool then
        sz ← p_reads (fun m => load_le 4 m (p + 8));
        mret (u32 (p + sz))
      else
      b ← is_magic p initramfs_magic;
      if b : bool then
        sz ← p_reads (fun m => load_le 4 m (p + zlen initramfs_magic));
        load_cpio (u32 (p + (zlen initramfs_magic + 4))) sz
      else
      v ← check_var p;
      match v with
      | Some next => mret next
      | None =>
          b ← is_magic p empty_magic;
          if b : bool then mret NULL else
          b ← is_magic (p + 5) img4_magic;
          if b : bool then mret NULL else
          f ← gets pl_fdt;
          if negb (f =? NULL) then load_kernel p size else mret NULL
      end
  end.

(** ** All payloads *)

(** The copy of the target's name in lower case, as far as the array goes:
    where [p] ends. *)
Fixpoint target_loop (n : nat) (p target : Z) : P Z :=
  match n with
  | O => mret p
  | S n' =>
      c ← p_reads (fun m => load8 m target);
      if c =? 0 then mret p else
      _ ← p_stores (fun m => store8 m p (tolower c));
      target_loop n' (p + 1) (target + 1)
  end.

(** The name that a device tree must be compatible with. *)
Definition set_expect_compatible (target : Z) : P unit :=
  let e := pe_expect_compatible E in
  _ ← p_writes (fun m => strcpy m e (lit "apple,"));
  l ← p_reads (fun m => strlen m e);
  p ← target_loop (Z.to_nat (255 - l)) (e + l) target;
  p_stores (fun m => store8 m (p - 2) 0).

Fixpoint payload_loop (n : nat) (p end_ size : Z) : P unit :=
  match n with
  | O => fun _ => Stuck
  | S n' =>
      if negb (p =? NULL) && (p <? end_) then
        p ← load_one_payload n p size;
        payload_loop n' p end_ size
      else mret tt
  end.

Fixpoint chosen_loop (vars : list Z) : P unit :=
  match vars with
  | [] => mret tt
  | v :: vars' =>
      val ← p_reads (fun m => memchr m v 61 (MAX_VAR_NAME + 1));
      _ ← p_assert (negb (val =? NULL));
      _ ← p_stores (fun m => store8 m val 0);
      _ ← in_kboot (kboot_set_chosen (v + 7) (val + 1));
      chosen_loop vars'
  end.

Definition payload_run (start end_ : Z) : P Z :=
  target ← p_reads (fun m => adt_getprop m (ke_adt (pe_kboot E)) 0 (lit "compatible"));
  match target with
  | None => mret (-1)
  | Some (target, _) =>
      _ ← set_expect_compatible target;
      _ ← modify (set_chosen []);
      _ ← payload_loop fuel start end_ (u32 (end_ - start));
      kernel ← gets pl_kernel;
      fdt ← gets pl_fdt;
      if negb (kernel =? NULL) && negb (fdt =? NULL) then
        chosen ← gets pl_chosen;
        _ ← chosen_loop chosen;
        r ← in_kboot (kboot_prepare_dt (pe_kboot E) fdt);
        if negb (r =? 0) then mret (-1) else
        in_kboot (kboot_boot (pe_usb_init E) kernel)
      else mret (-1)
  end.
End payload.
