(* ===== verification/PayloadProps.v ===== *)
(** * Payloads: the properties

    An image is a sequence of payloads that the loader recognises.  The
    abstract loader keeps the last kernel, the last device tree for the
    machine, the last initramfs and the boot variables; the theorem says that
    the loop of payload_run does the same in memory: it finds every payload
    where the one before it ends and leaves each of them intact. *)
From S2P Require Import Prelude Machine MinLz Lzma Xz RangeCoder LzmaSpec XzStream XzProps CString Alloc Adt Fdt FdtSpec FdtRw FdtRwSpec FdtProps Checksum Inflate InflateBits InflateSafe Deflate Gzip Kboot Payload.

(** ** Comparing with known bytes *)
Section comparing.
Implicit Types (m : mem) (xs ys : list Z).

(** Two blocks that differ at some place. *)
Definition differ xs ys : Prop := exists i x y, xs !! i = Some x /\ ys !! i = Some y /\ x <> y.

Lemma differ_head x xs y ys : x <> y -> differ (x :: xs) (y :: ys).
Proof. intros. by exists O, x, y. Qed.

Lemma differ_cons x xs ys : differ xs ys -> differ (x :: xs) (x :: ys).
Proof. intros (i & a & b & ? & ? & ?). by exists (S i), a, b. Qed.

Lemma differ_app xs ys xs' ys' : differ xs ys -> differ (xs ++ xs') (ys ++ ys').
Proof. intros (i & x & y & Hx & Hy & ?). exists i, x, y. rewrite !lookup_app_l by (eapply lookup_lt_Some; eassumption). auto. Qed.

Lemma differ_sym xs ys : differ xs ys -> differ ys xs.
Proof. intros (i & x & y & Hx & Hy & Hn). exists i, y, x. auto. Qed.

(** A concrete beginning that differs. *)
Fixpoint differb xs ys : bool :=
  match xs, ys with x :: xs', y :: ys' => negb (x =? y) || differb xs' ys' | _, _ => false end.

Lemma differ_prefix xs rest ys : differb xs ys = true -> differ (xs ++ rest) ys.
Proof.
  revert ys. induction xs as [|x xs IH]; intros [|y ys] H; try done. cbn [differb] in H. apply orb_true_iff in H as [H|H].
  - b2p. by apply differ_head.
  - destruct (decide (x = y)) as [->|]; [apply differ_cons, IH, H|by apply differ_head].
Qed.

(** Different strings differ before the end of either. *)
Lemma strings_differ xs ys : 0 ∉ xs -> 0 ∉ ys -> xs <> ys -> differ (xs ++ [0]) (ys ++ [0]).
Proof.
  revert ys. induction xs as [|x xs IH]; intros [|y ys] Hx Hy Hn; [done|apply differ_head; set_solver..|].
  destruct (decide (x = y)) as [->|]; [|by apply differ_head]. apply differ_cons, IH; [set_solver|set_solver|congruence].
Qed.

Lemma memcmp_differ m p q xs ys n :
  bytes_at m p xs -> bytes_at m q ys -> differ (take (Z.to_nat n) xs) ys -> exists r, memcmp m p q n = Done r /\ r <> 0.
Proof.
  intros Hp Hq (i & x & y & Hx & Hy & Hn). unfold memcmp. set (k := Z.to_nat n) in *. clearbody k.
  revert p q xs ys i Hp Hq Hx Hy. induction k as [|k IH]; intros p q xs ys i Hp Hq Hx Hy; [done|].
  destruct xs as [|x0 xs]; [done|]. destruct ys as [|y0 ys]; [done|].
  destruct Hp as [[Hx0 ?] Hp], Hq as [[Hy0 ?] Hq]. cbn [memcmp_loop]. ld Hx0. ld Hy0. case_if; b2p.
  - destruct i as [|i]; [cbn in Hx, Hy; congruence|]. by eapply (IH _ _ xs ys i).
  - eexists. split; [done|lia].
Qed.
(** A mark without the separator is looked for in front of it only. *)
Lemma prefix_before (g name rest : list Z) c : c ∉ g -> g `prefix_of` name ++ c :: rest -> g `prefix_of` name.
Proof.
  revert name. induction g as [|x g IH]; intros name Hc Hp; [apply prefix_nil|]. rewrite not_elem_of_cons in Hc. destruct name as [|y name].
  - apply prefix_cons_inv_1 in Hp. cbn in Hp. naive_solver.
  - cbn [app] in Hp. pose proof (prefix_cons_inv_1 _ _ _ _ Hp) as ->. apply prefix_cons_inv_2 in Hp. apply prefix_cons, IH; tauto.
Qed.

Lemma strnlen_loop_past n m p rc ys :
  bytes_at m (p + rc) ys -> 0 ∈ ys ->
  exists k, strnlen_loop n m p rc = Done k /\ rc <= k /\ (forall w, w `prefix_of` ys -> 0 ∉ w -> zlen w <= Z.of_nat n -> rc + zlen w <= k).
Proof.
  revert rc ys. induction n as [|n IH]; intros rc ys Hb H0; cbn [strnlen_loop].
  - exists rc. split; [done|]. split; [done|]. intros w _ _ Hw. lia.
  - destruct ys as [|y ys]; [by apply not_elem_of_nil in H0|]. destruct Hb as [[Hy ?] Hb]. ld Hy. case_if; b2p; subst.
    + exists rc. split; [done|]. split; [done|]. intros [|c w] Hp Hw _; [rewrite zlen_nil; lia|]. apply prefix_cons_inv_1 in Hp as ->. set_solver.
    + replace (p + rc + 1) with (p + (rc + 1)) in Hb by lia. destruct (IH (rc + 1) ys Hb) as (k & -> & Hk & Hw); [set_solver|].
      exists k. split; [done|]. split; [lia|]. intros [|c w] Hp H0w Hl; [rewrite zlen_nil; lia|].
      pose proof (prefix_cons_inv_2 _ _ _ _ Hp) as Hp'. rewrite zlen_cons in *. specialize (Hw w Hp' ltac:(set_solver) ltac:(lia)). lia.
Qed.

Lemma memchr_finds m p c w rest k :
  bytes_at m p (w ++ c :: rest) -> c ∉ w -> 0 <= c < 256 -> zlen w < k -> memchr m p c k = Done (p + zlen w).
Proof.
  intros Hb Hw Hc Hk. unfold memchr. assert (length w < Z.to_nat k)%nat as Hn by (unfold zlen in Hk; lia). clear Hk. revert p w Hb Hw Hn.
  induction (Z.to_nat k) as [|n IH]; intros p w Hb Hw Hn; [lia|]. cbn [memchr_loop].
  destruct w as [|x w]; destruct Hb as [[Hx ?] Hb]; ld Hx; rewrite (u8_small c) by done.
  - bdec. by rewrite zlen_nil, Z.add_0_r.
  - rewrite not_elem_of_cons in Hw. bdec. rewrite (IH (p + 1) w Hb) by (tauto || (cbn in Hn; lia)). rewrite zlen_cons. f_equal. lia.
Qed.

(** Searching a line for [c], as far as a string goes. *)
Lemma find_in_string m p c w rest n :
  bytes_at m p (w ++ c :: rest) -> c ∉ w -> 0 ∉ w -> 0 < c < 256 -> 0 ∈ rest -> zlen w < n ->
  exists k, strnlen m p n = Done k /\ memchr m p c k = Done (p + zlen w).
Proof.
  intros Hb Hw H0 Hc Hr Hn. pose proof (zlen_nonneg w). destruct (strnlen_loop_past (Z.to_nat n) m p 0 (w ++ c :: rest)) as (k & Hk & _ & Hpast); [by rewrite Z.add_0_r|set_solver|].
  exists k. split; [done|]. apply (memchr_finds _ _ _ _ rest); [done|done|lia|].
  specialize (Hpast (w ++ [c])). rewrite zlen_app in Hpast. change (zlen [c]) with 1 in Hpast.
  specialize (Hpast ltac:(by exists rest; rewrite <- app_assoc)). specialize (Hpast ltac:(set_solver by lia) ltac:(lia)). lia.
Qed.

Lemma strncmp_prefix m p q g name rest c :
  bytes_at m p (name ++ c :: rest) -> bytes_at m q g -> 0 ∉ name -> c ∉ g ->
  exists r, strncmp m p q (zlen g) = Done r /\ (r =? 0) = bool_decide (g `prefix_of` name).
Proof.
  unfold strncmp. rewrite to_nat_zlen. revert p q name. induction g as [|y g IH]; intros p q name Hp Hq H0 Hc; cbn [length strncmp_loop].
  - exists 0. split; [done|]. by rewrite bool_decide_true by apply prefix_nil.
  - destruct Hq as [[Hy ?] Hq]. rewrite not_elem_of_cons in Hc. destruct name as [|x name]; destruct Hp as [[Hx ?] Hp]; ld Hx; ld Hy.
    + bdec. rewrite andb_false_r. eexists. split; [done|]. bdec. by rewrite bool_decide_false by apply prefix_nil_not.
    + rewrite not_elem_of_cons in H0. bdec. destruct (Z.eqb_spec x y) as [->|].
      * destruct (IH (p + 1) (q + 1) name Hp Hq) as (r & -> & Hr); [tauto|tauto|]. eexists. split; [done|]. rewrite Hr.
        apply bool_decide_ext. split; [apply prefix_cons|apply prefix_cons_inv_2].
      * eexists. split; [done|]. bdec. rewrite bool_decide_false; [done|]. intros Hpre%prefix_cons_inv_1. congruence.
Qed.
End comparing.

(** ** Which device trees are for this machine

    The strings of a list, each with its terminator. *)
Fixpoint strings_in (v : list Z) (s : list Z) : list (list Z) :=
  match v with
  | [] => []
  | c :: v' => if c =? 0 then s :: strings_in v' [] else strings_in v' (s ++ [c])
  end.

Definition terminated (v : list Z) : Prop := v = [] \/ last v = Some 0.

Definition is_compatible (compat : list Z) (t : fdt_tree) : bool :=
  match assoc_prop (ft_props t) (bytes_of "compatible") with
  | Some v => bool_decide (compat ∈ strings_in v [])
  | None => false
  end.

Lemma strings_in_app w v s : 0 ∉ w -> strings_in (w ++ 0 :: v) s = (s ++ w) :: strings_in v [].
Proof.
  revert s. induction w as [|c w IH]; intros s Hw; cbn [app strings_in]; [by rewrite app_nil_r|].
  rewrite not_elem_of_cons in Hw. bdec. rewrite IH by tauto. by rewrite <- app_assoc.
Qed.

(** The first string of a list. *)
Lemma terminated_split v : v <> [] -> terminated v -> exists w v', v = w ++ 0 :: v' /\ 0 ∉ w /\ terminated v'.
Proof.
  intros Hne [->|Hl]; [done|]. induction v as [|c v IH]; [done|]. destruct (decide (c = 0)) as [->|Hc].
  - exists [], v. split; [done|]. split; [apply not_elem_of_nil|]. destruct v; [by left|right; done].
  - destruct v as [|c' v]; [by injection Hl|]. destruct IH as (w & v' & E & Hw & Hv); [done|done|].
    exists (c :: w), v'. rewrite E. split; [done|]. split; [rewrite not_elem_of_cons; auto|done].
Qed.

Lemma strings_in_length v s w : w ∈ strings_in v s -> zlen w <= zlen s + zlen v.
Proof.
  revert s. induction v as [|c v IH]; intros s; cbn [strings_in]; [by intros ?%not_elem_of_nil|]. rewrite zlen_cons. pose proof (zlen_nonneg v). pose proof (zlen_nonneg s).
  case_if; [intros [->|Hin]%elem_of_cons|intros Hin].
  - lia.
  - apply IH in Hin. rewrite zlen_nil in Hin. lia.
  - apply IH in Hin. rewrite zlen_app in Hin. change (zlen [c]) with 1 in Hin. lia.
Qed.

Lemma stringlist_contains_spec m v a q s n :
  bytes_at m a v -> terminated v -> bytes_at m q (s ++ [0]) -> 0 ∉ s -> s <> [] -> 0 < a -> (length v < n)%nat ->
  stringlist_contains_loop n m a (zlen v) q (zlen s) = Done (bool_decide (s ∈ strings_in v [])).
Proof.
  revert v a. induction n as [|n IH]; intros v a Hv Ht Hq Hs Hs0 Ha Hn; [lia|]. cbn [stringlist_contains_loop].
  assert (0 < zlen s) by (destruct s; [done|rewrite zlen_cons; pose proof (zlen_nonneg s); lia]).
  destruct (decide (v = [])) as [->|Hne].
  { rewrite zlen_nil. bdec. by rewrite bool_decide_false by apply not_elem_of_nil. }
  destruct (terminated_split v Hne Ht) as (w & v' & -> & Hw & Ht'). rewrite strings_in_app by done. cbn [app].
  rewrite zlen_app, zlen_cons in *. pose proof (zlen_nonneg w). pose proof (zlen_nonneg v').
  assert (length (w ++ 0 :: v') = S (length w + length v')) as Hlen by (rewrite length_app; cbn; lia). rewrite Hlen in Hn.
  destruct (decide (s = w)) as [->|Hsw].
  - bdec. replace (w ++ 0 :: v') with ((w ++ [0]) ++ v') in Hv by (by rewrite <- app_assoc). apply bytes_at_app in Hv as [Hv _].
    destruct (memcmp_spec (w ++ [0]) (w ++ [0]) m q a (zlen w + 1)) as (r & -> & Hr); [by rewrite zlen_app|done..|].
    rewrite bind_Done, (proj2 Hr eq_refl), bool_decide_true by set_solver. done.
  - assert (differ (s ++ [0]) (w ++ 0 :: v')) as Hd.
    { replace (w ++ 0 :: v') with ((w ++ [0]) ++ v') by (by rewrite <- app_assoc). rewrite <- (app_nil_r (s ++ [0])).
      by apply differ_app, strings_differ. }
    destruct (zlen s <=? zlen w + (1 + zlen v')) eqn:Hle; b2p.
    2: { symmetry. f_equal. apply bool_decide_false. intros [->|Hin]%elem_of_cons; [done|]. apply strings_in_length in Hin. rewrite zlen_nil in Hin. lia. }
    destruct (memcmp_differ m q a (s ++ [0]) (w ++ 0 :: v') (zlen s + 1) Hq Hv) as (r & -> & Hr).
    { rewrite take_ge; [done|]. rewrite length_app. cbn. unfold zlen. lia. }
    rewrite bind_Done. bdec.
    pose proof (memchr_loop_spec _ _ _ 0 Hv) as L. unfold memchr. replace (Z.to_nat (zlen w + (1 + zlen v'))) with (length (w ++ 0 :: v')) by (unfold zlen; lia).
    destruct L as [(i & Hi & Hmin & ->)|[Hno _]]; [|exfalso; apply Hno; set_solver]. change (u8 0) with 0 in *. rewrite bind_Done. unfold NULL. bdec.
    assert (i = length w) as ->.
    { destruct (lt_eq_lt_dec i (length w)) as [[Hlt|]|Hgt]; [|done|].
      - rewrite lookup_app_l in Hi by done. exfalso. apply Hw. by apply list_elem_of_lookup_2 in Hi.
      - exfalso. apply (Hmin _ Hgt). by rewrite list_lookup_middle. }
    replace (w ++ 0 :: v') with ((w ++ [0]) ++ v') in Hv by (by rewrite <- app_assoc). apply bytes_at_app in Hv as [_ Hv]. rewrite zlen_app in Hv.
    change (zlen [0]) with 1 in Hv.
    replace (zlen w + (1 + zlen v') - (a + Z.of_nat (length w) - a + 1)) with (zlen v') by (unfold zlen; lia).
    replace (a + Z.of_nat (length w) + 1) with (a + (zlen w + 1)) by (unfold zlen; lia).
    rewrite IH by (done || lia). f_equal. apply bool_decide_ext. rewrite elem_of_cons. naive_solver.
Qed.

Lemma check_compatible_spec r fuel m fdt b t q s :
  blob_at m fdt b -> node_at b 0 t -> walk_fuel b fuel -> cstr_at m (lit_fdt_compatible r) (bytes_of "compatible") ->
  cstr_at m q s -> s <> [] -> (forall v, assoc_prop (ft_props t) (bytes_of "compatible") = Some v -> terminated v) ->
  exists c, fdt_node_check_compatible r fuel m fdt 0 q = Done c /\ (c =? 0) = is_compatible s t.
Proof.
  intros H Hn Hfu Hl Hq Hs Ht. pose proof (fdt_getprop_namelen_spec fuel m fdt b 0 t _ _ H Hn Hfu (cstr_at_bytes _ _ _ Hl)) as L.
  unfold fdt_node_check_compatible, fdt_getprop, is_compatible. rewrite (strlen_spec _ _ _ Hl), bind_Done.
  destruct (assoc_prop (ft_props t) (bytes_of "compatible")) as [v|].
  - destruct L as (a & -> & Hv & Ha & _). rewrite bind_Done. unfold NULL. bdec. unfold fdt_stringlist_contains.
    rewrite (strlen_spec _ _ _ Hq), bind_Done. destruct Hq as [Hs0 Hq]. pose proof (zlen_nonneg v).
    rewrite (stringlist_contains_spec m v a q s) by (done || auto || (unfold zlen; lia) ||
      (intros Hin; rewrite Forall_forall in Hs0; specialize (Hs0 _ Hin); cbn in Hs0; lia)).
    rewrite bind_Done. eexists. split; [done|]. by case_bool_decide.
  - rewrite L, bind_Done. eexists. by split.
Qed.

(** ** Images *)
Inductive item :=
| ISig (body : list Z)
| IVar (name value : list Z)
| IInitramfs (data : list Z)
| IFdt (b : blob) (t : fdt_tree) (bytes : list Z)
| IGz (h : gzip_header) (body : list Z) (b : block) (bs : list block)
| IXz (f : xz_file).

Definition gz_out (b : block) (bs : list block) : list Z := expand_blocks [] (b :: bs).

Definition item_bytes (i : item) : list Z :=
  match i with
  | ISig body => sig_magic ++ le_bytes 4 (12 + zlen body) ++ body
  | IVar name value => name ++ 61 :: value ++ [10]
  | IInitramfs data => initramfs_magic ++ le_bytes 4 (zlen data) ++ data
  | IFdt _ _ bytes => bytes
  | IGz h body b bs => gzip_file h body (gz_out b bs)
  | IXz f => xz_bytes f
  end.

(** The payloads one after the other, and then nothing. *)
Definition image (items : list item) : list Z := flat_map item_bytes items ++ replicate 16 0.

Definition slice (l : list Z) (o n : Z) : list Z := take (Z.to_nat n) (drop (Z.to_nat o) l).

(** The blob [b] as a file. *)
Definition blob_file (b : blob) (bytes : list Z) : Prop :=
  zlen bytes = b_total b /\ blob_ok b /\ slice bytes 0 40 = flat_map be32 (header_words b) /\
  slice bytes (b_off_struct b) (pos (b_toks b)) = toks_bytes (b_toks b) /\
  slice bytes (b_off_strings b) (zlen (b_strings b)) = b_strings b.

(** The tokens of the blob are the tree [t]. *)
Definition blob_tree (b : blob) (t : fdt_tree) : Prop := exists ts, b_toks b = ts ++ [TFin] /\ node_toks (b_strings b) t ts.

(** The marks that are looked for, in this order. *)
Definition magics : list (list Z) :=
  [gz_magic; xz_magic; fdt_magic_bytes; cpio_magic; kernel_magic; sig_magic; initramfs_magic].

(** What a compressed payload may hold. *)
Definition unpacked_ok (out : list Z) : Prop :=
  are_bytes out /\ zlen out <= 2 ^ 26 /\ (kernel_magic `prefix_of` out \/ cpio_magic `prefix_of` out).

Definition item_ok (fuel : nat) (i : item) : Prop :=
  match i with
  | ISig body => are_bytes body /\ zlen body < 2 ^ 31
  | IVar name value =>
      Forall (fun c => 0 < c < 256 /\ c <> 61) name /\ zlen name <= MAX_VAR_NAME /\
      Forall (fun c => 0 < c < 256 /\ c <> 10) value /\ zlen value <= MAX_VAR_SIZE /\
      Forall (fun g => ~ g `prefix_of` name) magics
  | IInitramfs data => are_bytes data /\ data <> [] /\ zlen data < 2 ^ 31
  | IFdt b t bytes =>
      blob_file b bytes /\ are_bytes bytes /\ blob_tree b t /\ 2 * b_total b + 2 < Z.of_nat fuel /\
      (forall v, assoc_prop (ft_props t) (bytes_of "compatible") = Some v -> terminated v)
  | IGz h body b bs =>
      let file := gzip_file h body (gz_out b bs) in
      gzip_header_ok h /\ are_bytes file /\ deflated body b bs /\ blocks_ok 0 [] b bs = true /\
      (inflate_fuel (zlen file) <= fuel)%nat /\ zlen file < 2 ^ 31 /\ unpacked_ok (gz_out b bs)
  | IXz f => xz_ok f /\ are_bytes (xz_bytes f) /\ zlen (xz_bytes f) < 2 ^ 31 /\ unpacked_ok (xz_data f)
  end.

(** ** The abstract loader *)
Record loaded := Loaded {
  ld_kernel : option (list Z);
  ld_fdt : option (list Z);
  ld_initrd : option (list Z);
  ld_vars : list (list Z);
}.

Definition load_unpacked (l : loaded) (out : list Z) : loaded :=
  if bool_decide (kernel_magic `prefix_of` out) then Loaded (Some out) (ld_fdt l) (ld_initrd l) (ld_vars l)
  else Loaded (ld_kernel l) (ld_fdt l) (Some out) (ld_vars l).

Definition load_item (compat : list Z) (l : loaded) (i : item) : loaded :=
  match i with
  | ISig _ => l
  | IVar name value =>
      if bool_decide (bytes_of "chosen." `prefix_of` name) && (zlen (ld_vars l) <? MAX_CHOSEN_VARS)
      then Loaded (ld_kernel l) (ld_fdt l) (ld_initrd l) (ld_vars l ++ [name ++ 61 :: value]) else l
  | IInitramfs data => Loaded (ld_kernel l) (ld_fdt l) (Some data) (ld_vars l)
  | IFdt _ t bytes => if is_compatible compat t then Loaded (ld_kernel l) (Some bytes) (ld_initrd l) (ld_vars l) else l
  | IGz _ _ b bs => load_unpacked l (gz_out b bs)
  | IXz f => load_unpacked l (xz_data f)
  end.

(** ** What the memory holds *)
Section loading.
Context {A : Type} `{!Malloc A} (E : payload_env A) (compat : list Z) (lo hi iend : Z).
Implicit Types (s : payload A) (l : loaded) (items : list item).

Definition pl_mem s : mem := kb_mem (pl_kb s).
Definition pl_top s : top_mem := kb_top (pl_kb s).
Definition put_mem (m : mem) s : payload A := set_kb (set_mem (pl_kb s) m) s.

#[local] Abbreviation lit := (ke_lit (pe_kboot E)).
#[local] Abbreviation fuel := (ke_fuel (pe_kboot E)).

(** The constants of the firmware, which lies below the payloads. *)
Definition rodata : list (Z * list Z) :=
  map (fun g => (pe_static E g, g)) (magics ++ [empty_magic; img4_magic]) ++
  [(lit "chosen.", bytes_of "chosen." ++ [0]);
   (lit_fdt_compatible (ke_fdt_rodata (pe_kboot E)), bytes_of "compatible" ++ [0]);
   (pe_expect_compatible E, compat ++ [0])].

(** Where the payloads that were loaded are, when the loader is at [p]. *)
Record holds s l (p : Z) : Prop := {
  h_kernel : match ld_kernel l with
    | None => pl_kernel s = NULL
    | Some bs => bytes_at (pl_mem s) (pl_kernel s) bs /\ pl_kernel s mod KERNEL_ALIGN = 0 /\ iend <= pl_kernel s /\
        pl_kernel s + zlen bs <= pl_heap_base s
    end;
  h_fdt : match ld_fdt l with
    | None => pl_fdt s = NULL
    | Some bs => bytes_at (pl_mem s) (pl_fdt s) bs /\ lo <= pl_fdt s /\ pl_fdt s + zlen bs <= p
    end;
  h_initrd : match ld_initrd l with
    | None => kb_initrd_start (pl_kb s) = NULL
    | Some bs => bytes_at (pl_mem s) (kb_initrd_start (pl_kb s)) bs /\ kb_initrd_size (pl_kb s) = page_up (zlen bs) /\
        top_lowest hi (pl_top s) <= kb_initrd_start (pl_kb s) /\ kb_initrd_start (pl_kb s) + zlen bs <= hi
    end;
  h_vars : Forall2 (fun a text => bytes_at (pl_mem s) a (text ++ [0]) /\ lo <= a /\ a + zlen text + 1 <= p) (pl_chosen s) (ld_vars l);
}.

(** The memory that loading takes: from the heap, for an initramfs from the
    top, and room for the decompressor to write into. *)
Definition unpack_need (out : list Z) : Z := KERNEL_ALIGN + Z.max (zlen out) 0x1400000 + page_up (zlen out) + PAGE_SIZE.
Definition item_need (i : item) : Z :=
  match i with
  | IInitramfs data => page_up (zlen data) + PAGE_SIZE
  | IGz _ _ b bs => unpack_need (gz_out b bs)
  | IXz f => unpack_need (xz_data f)
  | _ => 0
  end.
Definition need (items : list item) : Z := foldr (fun i n => item_need i + n) (2 ^ 26 + 2 * KERNEL_ALIGN + 2 * PAGE_SIZE) items.

(** The payloads [items] are at [p], above the firmware and below the heap. *)
Record ready s items (p : Z) : Prop := {
  r_rodata : Forall (fun x => bytes_at (pl_mem s) x.1 x.2 /\ x.1 + zlen x.2 <= lo) rodata;
  r_lo : 0 < lo <= p;
  r_image : bytes_at (pl_mem s) p (image items);
  r_iend : p + zlen (image items) = iend;
  r_heap : iend <= pl_heap_base s;
  r_top : top_ok hi (pl_top s);
  r_phys : phys_base (pl_top s) <= lo;
  r_mem : region (pl_mem s) (pl_heap_base s) (hi - pl_heap_base s);
  r_room : pl_heap_base s + need items <= top_lowest hi (pl_top s);
  r_minlz : decoder_ready (pl_minlz s);
}.

(** Only the current payload and free memory differ. *)
Definition same_but (m m' : mem) (p p' hb tl : Z) : Prop := forall k, k < p \/ p' <= k < hb \/ tl <= k -> m' !! k = m !! k.

Lemma page_up_ge n : 0 <= n -> n <= page_up n.
Proof. unfold page_up, PAGE_SIZE. lia. Qed.

Lemma unpack_need_nonneg out : 0 <= unpack_need out.
Proof.
  pose proof (zlen_nonneg out). pose proof (page_up_ge (zlen out)). unfold unpack_need, PAGE_SIZE, KERNEL_ALIGN in *.
  change (Z.shiftl 1 18) with (2 ^ 18). lia.
Qed.

Lemma item_need_nonneg i : 0 <= item_need i.
Proof.
  destruct i as [| |d| |h body b bs|f]; cbn [item_need]; try lia; [|apply unpack_need_nonneg..].
  pose proof (zlen_nonneg d). pose proof (page_up_ge (zlen d)). unfold PAGE_SIZE. lia.
Qed.

Lemma need_cons i items : need (i :: items) = item_need i + need items.
Proof. done. Qed.

Lemma need_slack items : 2 ^ 26 + 2 * KERNEL_ALIGN + 2 * PAGE_SIZE <= need items.
Proof. induction items as [|i items IH]; [done|]. rewrite need_cons. pose proof (item_need_nonneg i). lia. Qed.

Lemma image_cons i items : image (i :: items) = item_bytes i ++ image items.
Proof. unfold image. cbn [flat_map]. by rewrite app_assoc. Qed.

Lemma image_length items : 16 <= zlen (image items).
Proof. unfold image. rewrite zlen_app, zlen_replicate. pose proof (zlen_nonneg (flat_map item_bytes items)). lia. Qed.

Lemma top_lowest_le s items p : ready s items p -> top_lowest hi (pl_top s) <= hi < 2 ^ 32.
Proof. intros H. destruct (r_top _ _ _ H) as (_ & _ & ?). done. Qed.

(** *** What is kept when something else is written *)
Lemma ready_step s s' i items p :
  let p' := p + zlen (item_bytes i) in
  ready s (i :: items) p -> same_but (pl_mem s) (pl_mem s') p p' (pl_heap_base s) (top_lowest hi (pl_top s)) ->
  pl_heap_base s <= pl_heap_base s' -> region (pl_mem s') (pl_heap_base s) (hi - pl_heap_base s) ->
  top_ok hi (pl_top s') -> phys_base (pl_top s') = phys_base (pl_top s) ->
  pl_heap_base s' + need items <= top_lowest hi (pl_top s') -> decoder_ready (pl_minlz s') -> ready s' items p'.
Proof.
  intros p' [Hro Hlo Him He Hh Ht Hp Hm Hr Hz] Hs Hhb Hm' Ht' Hp' Hr' Hz'. rewrite image_cons in *. rewrite zlen_app in He.
  apply bytes_at_app in Him as [_ Him]. fold p' in Him. pose proof (zlen_nonneg (item_bytes i)). pose proof (image_length items). pose proof (need_slack items).
  assert (0 < KERNEL_ALIGN /\ 0 < PAGE_SIZE) as [? ?] by done. assert (0 < 2 ^ 26) by done.
  destruct Ht' as (? & ? & ?). split; try done.
  - eapply Forall_impl; [exact Hro|]. intros [a bs]. cbn. intros [Ha ?]. split; [|done]. eapply bytes_at_frame; [|exact Ha]. intros. apply Hs. lia.
  - unfold p'. lia.
  - eapply bytes_at_frame; [|exact Him]. intros. apply Hs. unfold p' in *. lia.
  - unfold p'. lia.
  - lia.
  - by rewrite Hp'.
  - eapply region_sub; [exact Hm'|lia..].
Qed.

Lemma holds_step s s' l p p' :
  holds s l p -> lo <= p <= p' -> p' <= iend -> iend <= pl_heap_base s -> same_but (pl_mem s) (pl_mem s') p p' (pl_heap_base s) (top_lowest hi (pl_top s)) ->
  pl_heap_base s <= pl_heap_base s' -> top_lowest hi (pl_top s') <= top_lowest hi (pl_top s) ->
  pl_kernel s' = pl_kernel s -> pl_fdt s' = pl_fdt s -> kb_initrd_start (pl_kb s') = kb_initrd_start (pl_kb s) ->
  kb_initrd_size (pl_kb s') = kb_initrd_size (pl_kb s) -> pl_chosen s' = pl_chosen s -> holds s' l p'.
Proof.
  intros [Hk Hf Hi Hv] Hp Hpe Hie Hs Hh Ht Ek Ef Ei En Ev. split; rewrite ?Ek, ?Ef, ?Ei, ?En, ?Ev.
  - destruct (ld_kernel l); [|done]. destruct Hk as (Hb & ? & ? & ?). split; [|auto with lia]. eapply bytes_at_frame; [|exact Hb]. intros. apply Hs. lia.
  - destruct (ld_fdt l); [|done]. destruct Hf as (Hb & ? & ?). split; [|auto with lia]. eapply bytes_at_frame; [|exact Hb]. intros. apply Hs. lia.
  - destruct (ld_initrd l); [|done]. destruct Hi as (Hb & ? & ? & ?). split; [|auto with lia]. eapply bytes_at_frame; [|exact Hb]. intros. apply Hs. lia.
  - eapply Forall2_impl; [exact Hv|]. intros a text (Hb & ? & ?). split; [|lia]. eapply bytes_at_frame; [|exact Hb]. intros k Hk'. apply Hs.
    rewrite zlen_app in Hk'. change (zlen [0]) with 1 in Hk'. lia.
Qed.

#[local] Ltac in_list :=
  let at_ k := apply (list_elem_of_lookup_2 _ k); reflexivity in
  match goal with
  | |- gz_magic ∈ _ => at_ 0%nat | |- xz_magic ∈ _ => at_ 1%nat | |- fdt_magic_bytes ∈ _ => at_ 2%nat
  | |- cpio_magic ∈ _ => at_ 3%nat | |- kernel_magic ∈ _ => at_ 4%nat | |- sig_magic ∈ _ => at_ 5%nat
  | |- initramfs_magic ∈ _ => at_ 6%nat | |- empty_magic ∈ _ => at_ 7%nat | |- img4_magic ∈ _ => at_ 8%nat
  end.

(** *** Runs *)
Lemma set_kb_id s : set_kb (pl_kb s) s = s.
Proof. by destruct s. Qed.

Lemma set_minlz_id s : set_minlz (pl_minlz s) s = s.
Proof. by destruct s. Qed.

Lemma run_p_reads {B C} (f : mem -> outcome B) (k : B -> ST (payload A) C) s b : f (pl_mem s) = Done b -> (p_reads f ≫= k) s = k b s.
Proof. intros H. apply run_bind. unfold p_reads, in_kboot, reads. unfold pl_mem in H. rewrite H, !bind_Done. by rewrite set_kb_id. Qed.

Lemma run_p_writes {B C} (f : mem -> outcome (B * mem)) (k : B -> ST (payload A) C) s b m :
  f (pl_mem s) = Done (b, m) -> (p_writes f ≫= k) s = k b (put_mem m s).
Proof. intros H. apply run_bind. unfold p_writes, in_kboot, writes. unfold pl_mem in H. by rewrite H, !bind_Done. Qed.

Lemma run_p_stores {C} (f : mem -> outcome mem) (k : unit -> ST (payload A) C) s m :
  f (pl_mem s) = Done m -> (p_stores f ≫= k) s = k tt (put_mem m s).
Proof. intros H. apply run_bind. unfold p_stores, in_kboot, stores. unfold pl_mem in H. by rewrite H, !bind_Done. Qed.

Lemma run_heap_alloc {C} size align (k : Z -> ST (payload A) C) s b h :
  heapblock_alloc_aligned size align (pl_heap_base s) = Done (b, h) -> (heap_alloc size align ≫= k) s = k b (set_heap_base h s).
Proof. intros H. apply run_bind. unfold heap_alloc. by rewrite H, bind_Done. Qed.

Lemma run_assert {C} (b : bool) (k : unit -> ST (payload A) C) s : b = true -> (p_assert b ≫= k) s = k tt s.
Proof. intros ->. done. Qed.

Definition has_rodata s : Prop := Forall (fun x => bytes_at (pl_mem s) x.1 x.2 /\ x.1 + zlen x.2 <= lo) rodata.

Lemma rodata_magic s g : has_rodata s -> g ∈ magics ++ [empty_magic; img4_magic] -> bytes_at (pl_mem s) (pe_static E g) g.
Proof.
  intros H Hg. unfold has_rodata in H. rewrite Forall_forall in H. apply (H (pe_static E g, g)). unfold rodata. apply elem_of_app. left.
  apply list_elem_of_fmap. by exists g.
Qed.

Lemma rodata_at s a bs : has_rodata s -> (a, bs) ∈ rodata -> bytes_at (pl_mem s) a bs.
Proof. intros H Hin. unfold has_rodata in H. rewrite Forall_forall in H. by apply (H (a, bs)). Qed.

Lemma run_is_magic {C} p g (k : bool -> ST (payload A) C) s xs :
  has_rodata s -> g ∈ magics ++ [empty_magic; img4_magic] -> bytes_at (pl_mem s) p xs -> (length g <= length xs)%nat ->
  (is_magic E p g ≫= k) s = k (bool_decide (g `prefix_of` xs)) s.
Proof.
  intros Hro Hg Hp Hl. pose proof (rodata_magic s g Hro Hg) as Hq. rewrite <- (take_drop (length g) xs) in Hp. apply bytes_at_app in Hp as [Hp _].
  assert (zlen (take (length g) xs) = zlen g) as Ht by (unfold zlen; rewrite length_take; lia).
  destruct (memcmp_spec (take (length g) xs) g (pl_mem s) p (pe_static E g) (zlen g)) as (r & Hr & Hiff); [done|done|done|done|].
  unfold is_magic. rewrite (run_bind _ _ s (bool_decide (g `prefix_of` xs)) s); [done|]. unfold p_reads, in_kboot, reads. unfold pl_mem in Hr.
  rewrite Hr, !bind_Done, set_kb_id. do 2 f_equal. apply Bool.eq_iff_eq_true. rewrite Z.eqb_eq, bool_decide_eq_true, Hiff. split.
  - intros <-. exists (drop (length g) xs). by rewrite take_drop.
  - intros [r' ->]. by rewrite take_app_length.
Qed.

Lemma run_not_magic {C} p g (k : bool -> ST (payload A) C) s xs :
  has_rodata s -> g ∈ magics ++ [empty_magic; img4_magic] -> bytes_at (pl_mem s) p xs -> differ xs g ->
  (is_magic E p g ≫= k) s = k false s.
Proof.
  intros Hro Hg Hp Hd. pose proof (rodata_magic s g Hro Hg) as Hq.
  destruct (memcmp_differ (pl_mem s) p (pe_static E g) xs g (zlen g) Hp Hq) as (r & Hr & Hn).
  { destruct Hd as (i & x & y & Hx & Hy & ?). exists i, x, y. rewrite lookup_take_lt by (apply lookup_lt_Some in Hy; unfold zlen; lia). auto. }
  unfold is_magic. rewrite (run_bind _ _ s false s); [done|]. unfold p_reads, in_kboot, reads. unfold pl_mem in Hr.
  rewrite Hr, !bind_Done, set_kb_id. by bdec.
Qed.

(** *** Single payloads *)

(** The next mark that is looked for is not there. *)
#[local] Ltac not_magic Hro Hx tac :=
  match goal with |- context [(is_magic _ ?p ?g ≫= _) _] => rewrite (run_not_magic p g _ _ _ Hro ltac:(in_list) Hx) by tac; cbv beta iota end.

(** What the loader knows when it stands at an item. *)
Lemma ready_facts s i items p :
  ready s (i :: items) p -> has_rodata s /\ bytes_at (pl_mem s) p (item_bytes i) /\ bytes_at (pl_mem s) p (image (i :: items)) /\ 0 < p /\
    p + zlen (item_bytes i) + 16 <= iend /\ iend + need (i :: items) <= top_lowest hi (pl_top s) /\ top_lowest hi (pl_top s) < 2 ^ 32.
Proof.
  intros H. pose proof (top_lowest_le _ _ _ H). destruct H as [Hro Hlo Him He Hh Ht Hp Hm Hr _]. pose proof (image_length items).
  split; [done|]. split; [by rewrite image_cons in Him; apply bytes_at_app in Him as [? _]|]. split; [done|].
  rewrite image_cons, zlen_app in He. repeat split; lia.
Qed.

(** An item that changes nothing. *)
Lemma ready_next s i items p : ready s (i :: items) p -> item_need i = 0 -> ready s items (p + zlen (item_bytes i)).
Proof.
  intros H Hi. eapply ready_step; [exact H|by intros k _|lia|apply (r_mem _ _ _ H)|apply (r_top _ _ _ H)|done| |apply (r_minlz _ _ _ H)].
  pose proof (r_room _ _ _ H) as Hr. by rewrite need_cons, Hi, Z.add_0_l in Hr.
Qed.

Lemma holds_next s l i items p : ready s (i :: items) p -> holds s l p -> holds s l (p + zlen (item_bytes i)).
Proof.
  intros H Hl. destruct (ready_facts _ _ _ _ H) as (_ & _ & _ & _ & ? & _). pose proof (zlen_nonneg (item_bytes i)).
  pose proof (r_lo _ _ _ H). eapply holds_step; [exact Hl|lia|lia|apply (r_heap _ _ _ H)|by intros k _|done..].
Qed.

Lemma load_sig n s body items p size :
  ready s (ISig body :: items) p -> item_ok fuel (ISig body) ->
  load_one_payload E (S n) p size s = Done (p + zlen (item_bytes (ISig body)), s).
Proof.
  intros H [Hb Hl]. destruct (ready_facts _ _ _ _ H) as (Hro & Hx & _ & ? & ? & Hn & ?). pose proof (zlen_nonneg body). pose proof (need_slack (ISig body :: items)).
  assert (0 < KERNEL_ALIGN /\ 0 < PAGE_SIZE) as [? ?] by done.
  cbn [item_bytes] in *. assert (zlen (sig_magic ++ le_bytes 4 (12 + zlen body) ++ body) = 12 + zlen body) as El.
  { rewrite !zlen_app, zlen_le_bytes. change (zlen sig_magic) with 8. lia. }
  rewrite El in *. cbn [load_one_payload]. unfold NULL. bdec.
  do 5 not_magic Hro Hx ltac:(apply (differ_prefix sig_magic); reflexivity).
  rewrite (run_is_magic p sig_magic _ _ _ Hro ltac:(in_list) Hx) by (rewrite length_app; lia). rewrite bool_decide_true by (by eexists).
  assert (load_le 4 (pl_mem s) (p + 8) = Done (12 + zlen body)) as Hle.
  { apply bytes_at_app in Hx as [_ Hx]. apply bytes_at_app in Hx as [Hx _]. apply load_le_le_bytes; [exact Hx|lia]. }
  rewrite (run_p_reads _ _ s _ Hle). by rewrite u32_small by lia.
Qed.

(** The initramfs is copied to the top of memory. *)
Definition with_initrd (a n : Z) (t : top_mem) (m : mem) s : payload A :=
  set_kb (set_initrd a n (set_mem (set_top (pl_kb s) t) m)) s.

Lemma set_initrd_spec s src data hb :
  top_ok hi (pl_top s) -> are_bytes data -> bytes_at (pl_mem s) src data -> src + zlen data <= hb -> 0 <= hb -> phys_base (pl_top s) <= hb ->
  region (pl_mem s) hb (hi - hb) -> hb + page_up (zlen data) + 2 * PAGE_SIZE <= top_lowest hi (pl_top s) ->
  let a := top_lowest hi (pl_top s) - page_up (zlen data) in
  exists t', in_kboot (kboot_set_initrd src (zlen data)) s =
      Done (tt, with_initrd a (page_up (zlen data)) t' (write_bytes (pl_mem s) a data) s) /\
    top_lowest hi t' = a /\ top_ok hi t' /\ phys_base t' = phys_base (pl_top s).
Proof.
  intros Ht Hd Hs Hsrc Hb Hp Hm Hr a. pose proof Ht as (? & ? & ? & ?). pose proof (zlen_nonneg data). pose proof (page_up_ge (zlen data)).
  assert (0 < PAGE_SIZE) by done. assert (page_up (zlen data) + PAGE_SIZE <= mem_size (pl_top s)) as Hfit.
  { unfold top_lowest in Hr. destruct (guard_page_inserted _); lia. }
  pose proof (top_of_memory_alloc_spec (zlen data) (pl_top s) hi Ht ltac:(lia) Hfit) as L.
  destruct (top_of_memory_alloc (zlen data) (pl_top s)) as [r t'] eqn:Ea. destruct L as (Hr' & Hl & Hok & _ & Hph & _). fold a in Hr'. subst r.
  exists t'. split; [|by rewrite <- Hl]. unfold in_kboot, kboot_set_initrd.
  rewrite (run_bind _ _ (pl_kb s) a (set_top (pl_kb s) t')) by (unfold top_alloc; unfold pl_top in Ea; by rewrite Ea).
  assert (memcpy (kb_mem (set_top (pl_kb s) t')) a src (zlen data) = Done (a, write_bytes (pl_mem s) a data)) as Hc.
  { apply memcpy_spec; [done|done|done| |unfold a; lia]. eapply region_sub; [exact Hm|lia|unfold a; lia|unfold a; lia]. }
  rewrite (run_writes _ _ _ _ _ Hc). cbn [modify]. unfold modify. rewrite ALIGN_UP_page by lia. by rewrite bind_Done.
Qed.

Lemma holds_initrd s l p a n t m data :
  let s1 := set_kb (set_mem (set_top (pl_kb s) t) m) s in
  holds s1 l p -> bytes_at m a data -> n = page_up (zlen data) -> top_lowest hi t <= a -> a + zlen data <= hi ->
  holds (with_initrd a n t m s) (Loaded (ld_kernel l) (ld_fdt l) (Some data) (ld_vars l)) p.
Proof. intros s1 [Hk Hf _ Hv] Hb Hn Ht He. by split. Qed.

Lemma load_initramfs n s data items p size l :
  ready s (IInitramfs data :: items) p -> item_ok fuel (IInitramfs data) -> holds s l p ->
  let p' := p + zlen (item_bytes (IInitramfs data)) in
  exists s', load_one_payload E (S n) p size s = Done (p', s') /\ ready s' items p' /\ holds s' (load_item compat l (IInitramfs data)) p'.
Proof.
  intros H (Hb & Hne & Hl) Hh p'. destruct (ready_facts _ _ _ _ H) as (Hro & Hx & _ & ? & ? & Hn & ?). pose proof (zlen_nonneg data).
  assert (0 < KERNEL_ALIGN /\ 0 < PAGE_SIZE) as [? ?] by done. pose proof (r_heap _ _ _ H). pose proof (r_lo _ _ _ H). pose proof (r_phys _ _ _ H).
  pose proof (r_room _ _ _ H) as Hroom. rewrite need_cons in *. cbn [item_need] in *. pose proof (need_slack items). pose proof (page_up_ge (zlen data)).
  assert (zlen (item_bytes (IInitramfs data)) = 18 + zlen data) as El.
  { cbn [item_bytes]. rewrite !zlen_app, zlen_le_bytes. change (zlen initramfs_magic) with 14. lia. }
  unfold p'. rewrite El in *. pose proof Hx as Hx0. cbn [item_bytes] in Hx. cbn [load_one_payload]. unfold NULL. bdec.
  do 6 not_magic Hro Hx ltac:(apply (differ_prefix initramfs_magic); reflexivity).
  rewrite (run_is_magic p initramfs_magic _ _ _ Hro ltac:(in_list) Hx) by (rewrite length_app; lia). rewrite bool_decide_true by (by eexists).
  apply bytes_at_app in Hx as [_ Hx]. apply bytes_at_app in Hx as [Hle Hx]. rewrite zlen_le_bytes in Hx.
  assert (load_le 4 (pl_mem s) (p + zlen initramfs_magic) = Done (zlen data)) as Hrd by (apply load_le_le_bytes; [exact Hle|lia]).
  rewrite (run_p_reads _ _ s _ Hrd). change (zlen initramfs_magic) with 14 in *. rewrite (u32_small (p + _)) by lia. unfold load_cpio.
  assert (zlen data <> 0) by (destruct data; [done|rewrite zlen_cons; pose proof (zlen_nonneg data); lia]). bdec.
  destruct (set_initrd_spec s (p + 14 + Z.of_nat 4) data (pl_heap_base s) (r_top _ _ _ H) Hb Hx) as (t' & Hrun & Htl & Hok & Hph); [lia|lia|lia|apply (r_mem _ _ _ H)|lia|].
  replace (p + (14 + 4)) with (p + 14 + Z.of_nat 4) by lia. rewrite (run_bind _ _ s _ _ Hrun), u32_small by lia.
  set (a := top_lowest hi (pl_top s) - page_up (zlen data)) in *. eexists. split; [unfold mret, ST_ret; do 2 f_equal; lia|].
  pose proof (top_lowest_le _ _ _ H).
  assert (same_but (pl_mem s) (write_bytes (pl_mem s) a data) p (p + (18 + zlen data)) (pl_heap_base s) (top_lowest hi (pl_top s))) as Hs.
  { intros k Hk. rewrite lookup_write_bytes. case_if; b2p; [unfold a in *; lia|done]. }
  split.
  - rewrite <- El. eapply ready_step; [exact H|by rewrite El|done|by apply region_write, (r_mem _ _ _ H)|done|done| |apply (r_minlz _ _ _ H)].
    change (pl_top (with_initrd _ _ _ _ s)) with t'. rewrite Htl. change (pl_heap_base (with_initrd _ _ _ _ s)) with (pl_heap_base s). unfold a. lia.
  - apply holds_initrd; [|apply bytes_at_write_eq; unfold a; lia|done|lia|unfold a; lia].
    eapply (holds_step s); [exact Hh|lia|lia|done|exact Hs|done| |done..]. change (top_lowest hi t' <= top_lowest hi (pl_top s)). unfold a in Htl. lia.
Qed.

(** A variable is a line; its end becomes the end of a string. *)
Lemma holds_var s l p a text :
  holds s l p -> bytes_at (pl_mem s) a (text ++ [0]) -> lo <= a -> a + zlen text + 1 <= p ->
  holds (set_chosen (pl_chosen s ++ [a]) s) (Loaded (ld_kernel l) (ld_fdt l) (ld_initrd l) (ld_vars l ++ [text])) p.
Proof. intros [Hk Hf Hi Hv] Hb Ha He. split; [done..|]. cbn [set_chosen pl_chosen ld_vars]. apply Forall2_app; [done|]. by constructor. Qed.

Lemma line_end_stored m p text rest :
  bytes_at m p (text ++ 10 :: rest) ->
  exists m', store8 m (p + zlen text) 0 = Done m' /\ m' = write_bytes m (p + zlen text) [0] /\ bytes_at m' p (text ++ [0]).
Proof.
  intros Hb. pose proof Hb as [Ht [[Hn ?] _]]%bytes_at_app. pose proof (zlen_nonneg text). rewrite store8_Done by (done || by eexists).
  eexists. split; [done|]. split; [done|]. apply bytes_at_app. split; [apply (bytes_at_write_disj _ _ [0]); [lia|done]|].
  apply (bytes_at_write_eq _ _ [0]); [lia|]. change (zlen [0]) with 1. lia.
Qed.

Lemma check_var_spec s name value items p l :
  ready s (IVar name value :: items) p -> item_ok fuel (IVar name value) -> holds s l p ->
  let p' := p + zlen (item_bytes (IVar name value)) in
  exists s', check_var E p s = Done (Some p', s') /\ ready s' items p' /\ holds s' (load_item compat l (IVar name value)) p'.
Proof.
  intros H (Hn & Hnl & Hv & Hvl & _) Hh p'. destruct (ready_facts _ _ _ _ H) as (Hro & Hx & Him & ? & ? & Hneed & ?).
  pose proof (zlen_nonneg name). pose proof (zlen_nonneg value). pose proof (need_slack (IVar name value :: items)).
  assert (0 < KERNEL_ALIGN /\ 0 < PAGE_SIZE) as [? ?] by done. pose proof (r_lo _ _ _ H). pose proof (r_heap _ _ _ H). pose proof (top_lowest_le _ _ _ H).
  assert ((0 ∉ name) /\ (61 ∉ name)) as [Hn0 Hn61] by (split; intros Hin; rewrite Forall_forall in Hn; specialize (Hn _ Hin); lia).
  assert ((0 ∉ value) /\ (10 ∉ value)) as [Hv0 Hv10] by (split; intros Hin; rewrite Forall_forall in Hv; specialize (Hv _ Hin); lia).
  set (text := name ++ 61 :: value). assert (zlen text = zlen name + 1 + zlen value) as Elt by (unfold text; rewrite zlen_app, zlen_cons; lia).
  assert (image (IVar name value :: items) = text ++ 10 :: image items) as Eim by (rewrite image_cons; unfold text; cbn [item_bytes]; tok_assoc).
  assert (zlen (item_bytes (IVar name value)) = zlen text + 1) as El by (unfold text; cbn [item_bytes]; rewrite !zlen_app, !zlen_cons, zlen_app; change (zlen [10]) with 1; lia).
  assert (0 ∈ image items) as Hnul by (apply elem_of_app; right; by apply (list_elem_of_lookup_2 _ 0%nat)).
  unfold p'. rewrite El in *. rewrite Eim in Him. pose proof Him as Him1. unfold text in Him1. rewrite <- app_assoc in Him1. cbn [app] in Him1.
  pose proof Him1 as [_ [_ Him2]]%bytes_at_app.
  destruct (find_in_string _ _ 61 name _ (MAX_VAR_NAME + 1) Him1) as (k1 & Hk1 & Hf1); [done|done|lia|rewrite elem_of_app, elem_of_cons; auto|lia|].
  destruct (find_in_string _ _ 10 value _ (MAX_VAR_SIZE + 1) Him2) as (k2 & Hk2 & Hf2); [done|done|lia|done|lia|].
  unfold check_var. rewrite (run_p_reads _ _ s _ Hk1), (run_p_reads _ _ s _ Hf1). unfold NULL. bdec.
  rewrite (run_p_reads _ _ s _ Hk2), (run_p_reads _ _ s _ Hf2). bdec.
  destruct (line_end_stored _ _ _ _ Him) as (m' & Hst & Em & Htext). rewrite Elt, !Z.add_assoc in Hst.
  rewrite (run_p_stores _ _ s _ Hst). set (s1 := put_mem m' s).
  assert (same_but (pl_mem s) (pl_mem s1) p (p + (zlen text + 1)) (pl_heap_base s) (top_lowest hi (pl_top s))) as Hs.
  { intros k Hk. change (pl_mem s1) with m'. rewrite Em, lookup_write_bytes. change (zlen [0]) with 1. case_if; b2p; [lia|done]. }
  assert (ready s1 items (p + (zlen text + 1))) as Hs1.
  { rewrite <- El. eapply ready_step; [exact H|by rewrite El|done| |apply (r_top _ _ _ H)|done| |apply (r_minlz _ _ _ H)].
    - change (pl_mem s1) with m'. rewrite Em. apply region_write, (r_mem _ _ _ H).
    - pose proof (r_room _ _ _ H) as Hr. rewrite need_cons in Hr. exact Hr. }
  assert (holds s1 l (p + (zlen text + 1))) as Hhs1 by (eapply holds_step; [exact Hh|lia|lia|done|exact Hs|done..]).
  pose proof (rodata_at s1 _ _ (r_rodata _ _ _ Hs1) ltac:(apply (list_elem_of_lookup_2 _ 9%nat); reflexivity)) as Hlit.
  assert (strlen (pl_mem s1) (lit "chosen.") = Done 7) as Hsl.
  { apply (strlen_spec _ _ (bytes_of "chosen.")). split; [by apply between_Forall|done]. }
  rewrite (run_p_reads _ _ s1 _ Hsl). pose proof Hlit as [Hlit' _]%bytes_at_app.
  change (bytes_at m' p (text ++ [0])) with (bytes_at (pl_mem s1) p (text ++ [0])) in Htext. unfold text in Htext. rewrite <- app_assoc in Htext. cbn [app] in Htext.
  destruct (strncmp_prefix _ _ _ (bytes_of "chosen.") name _ _ Htext Hlit' Hn0) as (r & Hr & Hpre); [by apply (bool_decide_unpack _); vm_compute|].
  rewrite (run_p_reads _ _ s1 _ Hr), Hpre. assert (zlen (pl_chosen s1) = zlen (ld_vars l)) as Elen by (unfold zlen; by rewrite (Forall2_length _ _ _ (h_vars _ _ _ Hhs1))).
  rewrite (u32_small (p + zlen name + 1 + zlen value + 1)) by lia. replace (p + zlen name + 1 + zlen value + 1) with (p + (zlen text + 1)) by lia.
  cbn [load_item]. case_bool_decide; cbn [andb]; [|by exists s1]. rewrite <- Elen.
  destruct (zlen (pl_chosen s1) <? MAX_CHOSEN_VARS) eqn:Hc; b2p.
  - exists (set_chosen (pl_chosen s1 ++ [p]) s1). split.
    + rewrite (run_bind _ _ s1 tt (set_chosen (pl_chosen s1 ++ [p]) s1)); [done|]. rewrite run_gets. bdec. done.
    + split; [by destruct Hs1|]. fold text. apply holds_var; [done|by unfold text; rewrite <- app_assoc|lia|lia].
  - exists s1. split; [|done]. rewrite (run_bind _ _ s1 tt s1); [done|]. rewrite run_gets. bdec. done.
Qed.

Lemma run_not_mark p name rest s :
  has_rodata s -> Forall (fun g => ~ g `prefix_of` name) magics -> bytes_at (pl_mem s) p (name ++ 61 :: rest) -> (14 <= length rest)%nat ->
  forall C g (k : bool -> ST (payload A) C), g ∈ magics -> (is_magic E p g ≫= k) s = k false s.
Proof.
  intros Hro Hno Hx Hl C g k Hin. assert (61 ∉ g /\ (length g <= 14)%nat) as [Hg Hgl].
  { revert g Hin. apply Forall_forall. by apply (bool_decide_unpack _); vm_compute. }
  rewrite (run_is_magic p g _ _ _ Hro (proj2 (elem_of_app _ _ _) (or_introl Hin)) Hx) by (rewrite length_app; cbn [length]; lia).
  rewrite bool_decide_false; [done|]. intros Hp. rewrite Forall_forall in Hno. exact (Hno g Hin (prefix_before _ _ _ 61 Hg Hp)).
Qed.

Lemma load_var n s name value items p size l :
  ready s (IVar name value :: items) p -> item_ok fuel (IVar name value) -> holds s l p ->
  let p' := p + zlen (item_bytes (IVar name value)) in
  exists s', load_one_payload E (S n) p size s = Done (p', s') /\ ready s' items p' /\ holds s' (load_item compat l (IVar name value)) p'.
Proof.
  intros H Hok Hh p'. destruct (ready_facts _ _ _ _ H) as (Hro & _ & Him & ? & _). destruct (check_var_spec s name value items p l H Hok Hh) as (s' & Hrun & Hs').
  exists s'. split; [|exact Hs']. destruct Hok as (_ & _ & _ & _ & Hno). cbn [load_one_payload]. unfold NULL. bdec.
  rewrite image_cons in Him. cbn [item_bytes] in Him. rewrite <- app_assoc in Him. cbn [app] in Him. pose proof (image_length items) as Hlen.
  assert (14 <= length ((value ++ [10%Z]) ++ image items))%nat as Hlong by (rewrite length_app; unfold zlen in Hlen; lia).
  pose proof (run_not_mark p name _ s Hro Hno Him Hlong) as Hrun0.
  do 7 (rewrite Hrun0 by in_list; cbv beta iota). by rewrite (run_bind _ _ s _ _ Hrun).
Qed.

(** *** Device trees *)
Lemma bytes_at_slice m p bytes o n : bytes_at m p bytes -> 0 <= o -> bytes_at m (p + o) (slice bytes o n).
Proof.
  intros H Ho. unfold slice. destruct (decide (o <= zlen bytes)) as [Hle|Hgt].
  - rewrite <- (take_drop (Z.to_nat o) bytes) in H. apply bytes_at_app in H as [_ H].
    assert (zlen (take (Z.to_nat o) bytes) = o) as El by (unfold zlen in *; rewrite length_take; lia). rewrite El in H.
    rewrite <- (take_drop (Z.to_nat n) (drop _ _)) in H. by apply bytes_at_app in H as [H _].
  - rewrite drop_ge by (unfold zlen in *; lia). by rewrite take_nil.
Qed.

Lemma blob_file_at m p b bytes : blob_file b bytes -> bytes_at m p bytes -> 0 < p -> p + b_total b < 2 ^ 32 -> blob_at m p b.
Proof.
  intros (Hl & Hok & Hh & Hs & Hst) H Hp He. destruct Hok as [Ht Ho Hor Hf Hr Hla Hc Htk] eqn:Eok. pose proof (pos_nonneg (b_toks b)). split; try done.
  - rewrite <- Hh, <- (Z.add_0_r p). by apply bytes_at_slice.
  - rewrite <- Hs. apply bytes_at_slice; [done|lia].
  - rewrite <- Hst. apply bytes_at_slice; [done|lia].
Qed.

Lemma blob_file_magic b bytes : blob_file b bytes -> exists rest, bytes = fdt_magic_bytes ++ rest.
Proof.
  intros (_ & _ & Hh & _). unfold slice in Hh. change (Z.to_nat 0) with O in Hh. rewrite drop_0 in Hh.
  exists (flat_map be32 (tail (header_words b)) ++ drop (Z.to_nat 40) bytes). rewrite <- (take_drop (Z.to_nat 40) bytes) at 1. rewrite Hh.
  unfold header_words. cbn [flat_map tail]. by rewrite <- app_assoc.
Qed.

Lemma holds_fdt s l p a bs :
  holds s l p -> bytes_at (pl_mem s) a bs -> lo <= a -> a + zlen bs <= p ->
  holds (set_fdt a s) (Loaded (ld_kernel l) (Some bs) (ld_initrd l) (ld_vars l)) p.
Proof. intros [Hk _ Hi Hv] Hb Ha He. by split. Qed.

Lemma load_fdt_spec n s b t bytes items p size l :
  ready s (IFdt b t bytes :: items) p -> item_ok fuel (IFdt b t bytes) -> Forall (fun c => 0 < c < 256) compat -> compat <> [] -> holds s l p ->
  let p' := p + zlen (item_bytes (IFdt b t bytes)) in
  exists s', load_one_payload E (S n) p size s = Done (p', s') /\ ready s' items p' /\ holds s' (load_item compat l (IFdt b t bytes)) p'.
Proof.
  intros H (Hf & Hbs & (ts & Ets & Hts) & Hfu & Hterm) Hcs Hc0 Hh p'. destruct (ready_facts _ _ _ _ H) as (Hro & Hx & _ & ? & ? & Hn & ?).
  pose proof (need_slack (IFdt b t bytes :: items)). assert (0 < KERNEL_ALIGN /\ 0 < PAGE_SIZE) as [? ?] by done.
  pose proof (r_lo _ _ _ H). cbn [item_bytes] in *. pose proof (proj1 Hf) as El. pose proof (zlen_nonneg bytes).
  assert (blob_at (pl_mem s) p b) as Hb by (eapply blob_file_at; [done..|lia]).
  assert (node_at b 0 t) as Hnode by (apply (node_at_root (pl_mem s) p); split; [done|]; exists ts; split; [done|]; exact Hts).
  assert (walk_fuel b fuel) as Hw by (by eapply total_fuel).
  destruct (check_compatible_spec (ke_fdt_rodata (pe_kboot E)) fuel (pl_mem s) p b t (pe_expect_compatible E) compat Hb Hnode Hw) as (c & Hc & Hcomp).
  { split; [by apply between_Forall|]. apply (rodata_at s); [done|]. by apply (list_elem_of_lookup_2 _ 10%nat). }
  { split; [done|]. apply (rodata_at s); [done|]. by apply (list_elem_of_lookup_2 _ 11%nat). }
  { done. }
  { done. }
  pose proof Hx as Hx0. destruct (blob_file_magic _ _ Hf) as (rest & E0). rewrite E0 in Hx.
  assert (fdt_totalsize (pl_mem s) p = Done (b_total b)) as Htot by (by destruct (header_fields _ _ _ Hb) as (_ & ? & _)).
  pose proof (holds_next s l _ _ _ H Hh) as Hh'. pose proof (ready_next _ _ _ _ H eq_refl) as Hr'. cbn [item_bytes] in Hr', Hh'.
  cbn [load_one_payload]. unfold NULL. bdec. do 2 not_magic Hro Hx ltac:(apply (differ_prefix fdt_magic_bytes); reflexivity).
  rewrite (run_is_magic p fdt_magic_bytes _ _ _ Hro ltac:(in_list) Hx) by (rewrite length_app; lia). rewrite bool_decide_true by (by eexists).
  unfold load_fdt. rewrite (run_p_reads _ _ s _ Hc), Hcomp. cbn [load_item]. unfold p'. destruct (is_compatible compat t).
  - rewrite run_modify, (run_p_reads _ _ (set_fdt p s) _ Htot), u32_small, <- El by lia. exists (set_fdt p s). split; [done|].
    split; [by destruct Hr'|]. apply holds_fdt; [exact Hh'|exact Hx0|lia|lia].
  - rewrite run_ret, (run_p_reads _ _ s _ Htot), u32_small, <- El by lia. by exists s.
Qed.

(** *** Compressed payloads *)

(** Looking at the end of the heap, and then taking a block there. *)
Lemma heap_end base size :
  0 < base -> 0 <= size -> base + 2 * KERNEL_ALIGN + size < 2 ^ 32 ->
  exists dest, heapblock_alloc_aligned 0 KERNEL_ALIGN base = Done (dest, dest) /\ base <= dest < base + KERNEL_ALIGN /\
    dest mod KERNEL_ALIGN = 0 /\ heapblock_alloc_aligned size KERNEL_ALIGN dest = Done (dest, dest + size).
Proof.
  unfold KERNEL_ALIGN. change (Z.shiftl 1 18) with (2 ^ 18). intros Hb Hs Hr.
  destruct (heapblock_alloc_aligned_spec 0 18 base) as (d & E1 & Hd & Hm); [lia..|]. rewrite Z.add_0_r, u32_small in E1 by lia.
  destruct (heapblock_alloc_aligned_spec size 18 d) as (d' & E2 & Hd' & Hm'); [lia..|].
  assert (d' = d) as -> by lia. rewrite u32_small in E2 by lia. by exists d.
Qed.

Lemma heap_next base size : 0 < base -> 0 <= size -> base + 1 + size < 2 ^ 32 -> heapblock_alloc_aligned size 1 base = Done (base, base + size).
Proof.
  intros Hb Hs Hr. destruct (heapblock_alloc_aligned_spec size 0 base) as (d & E1 & Hd & _); [lia..|]. change (2 ^ 0) with 1 in *.
  assert (d = base) as -> by lia. by rewrite u32_small in E1 by lia.
Qed.

Lemma holds_kernel s l p a bs :
  holds s l p -> bytes_at (pl_mem s) a bs -> a mod KERNEL_ALIGN = 0 -> iend <= a -> a + zlen bs <= pl_heap_base s ->
  holds (set_kernel a s) (Loaded (Some bs) (ld_fdt l) (ld_initrd l) (ld_vars l)) p.
Proof. intros [_ Hf Hi Hv] Hb Hm Ha He. by split. Qed.

(** A kernel where it may stay. *)
Lemma load_kernel_here n s a size out :
  has_rodata s -> bytes_at (pl_mem s) a out -> kernel_magic `prefix_of` out -> a mod KERNEL_ALIGN = 0 -> 0 < a -> a + 0x1400000 < 2 ^ 32 ->
  load_one_payload E (S n) a size s = Done (a + 0x1400000, set_kernel a s).
Proof.
  intros Hro Hx [rest ->] Hal Ha Hr. cbn [load_one_payload]. unfold NULL. bdec.
  do 4 not_magic Hro Hx ltac:(apply (differ_prefix kernel_magic); reflexivity).
  rewrite (run_is_magic a kernel_magic _ _ _ Hro ltac:(in_list) Hx) by (rewrite length_app; lia). rewrite bool_decide_true by (by eexists).
  unfold load_kernel. rewrite run_modify. assert (Z.land a (KERNEL_ALIGN - 1) = 0) as ->.
  { change (KERNEL_ALIGN - 1) with (Z.ones 18). rewrite Z.land_ones by lia. exact Hal. }
  rewrite Z.eqb_refl. cbn [negb]. rewrite run_ret, run_gets. cbn [set_kernel pl_kernel]. by rewrite u32_small by lia.
Qed.

(** An archive that was unpacked. *)
Lemma load_cpio_here n s a out :
  has_rodata s -> bytes_at (pl_mem s) a out -> cpio_magic `prefix_of` out -> 0 < a ->
  load_one_payload E (S n) a (zlen out) s = load_cpio a (zlen out) s.
Proof.
  intros Hro Hx [rest ->] Ha. cbn [load_one_payload]. unfold NULL. bdec.
  do 3 not_magic Hro Hx ltac:(apply (differ_prefix cpio_magic); reflexivity).
  rewrite (run_is_magic a cpio_magic _ _ _ Hro ltac:(in_list) Hx) by (rewrite length_app; lia). by rewrite bool_decide_true by (by eexists).
Qed.

Lemma rodata_frame s s' : has_rodata s -> (forall k, k < lo -> pl_mem s' !! k = pl_mem s !! k) -> has_rodata s'.
Proof.
  intros H Hs. eapply Forall_impl; [exact H|]. intros [a bs]. cbn. intros [Ha ?]. split; [|done]. eapply bytes_at_frame; [|exact Ha]. intros. apply Hs. lia.
Qed.

(** Where a compressed payload is unpacked to: the end of the heap, which is
    then reserved. *)
Lemma unpack_place s i items p out :
  ready s (i :: items) p -> item_need i = unpack_need out -> zlen out <= 2 ^ 26 ->
  exists dest, heapblock_alloc_aligned 0 KERNEL_ALIGN (pl_heap_base s) = Done (dest, dest) /\ pl_heap_base s <= dest < pl_heap_base s + KERNEL_ALIGN /\
    dest mod KERNEL_ALIGN = 0 /\ heapblock_alloc_aligned (zlen out) KERNEL_ALIGN dest = Done (dest, dest + zlen out) /\
    dest + 2 ^ 26 <= hi /\ dest + KERNEL_ALIGN + 0x1400000 <= hi /\ region (pl_mem s) dest (2 ^ 26).
Proof.
  intros H Hneed Hol. destruct (ready_facts _ _ _ _ H) as (_ & _ & _ & ? & ? & _ & ?).
  pose proof (r_lo _ _ _ H). pose proof (r_heap _ _ _ H). pose proof (r_room _ _ _ H) as Hroom. rewrite need_cons, Hneed in Hroom. unfold unpack_need in Hroom.
  pose proof (zlen_nonneg (item_bytes i)). pose proof (need_slack items). pose proof (zlen_nonneg out). pose proof (page_up_ge (zlen out)). pose proof (top_lowest_le _ _ _ H).
  assert (0 < PAGE_SIZE) by done. change KERNEL_ALIGN with (2 ^ 18) in *.
  destruct (heap_end (pl_heap_base s) (zlen out)) as (dest & E1 & Hdest & Hal & E2); [lia|lia|change KERNEL_ALIGN with (2 ^ 18); lia|].
  change KERNEL_ALIGN with (2 ^ 18) in *.
  exists dest. do 4 (split; [done|]). split; [lia|]. split; [lia|]. eapply region_sub; [exact (r_mem _ _ _ H)|lia..].
Qed.

Lemma unpack_gz s h body b bs items p dest :
  ready s (IGz h body b bs :: items) p -> item_ok fuel (IGz h body b bs) ->
  pl_heap_base s <= dest -> dest + 2 ^ 26 <= hi -> region (pl_mem s) dest (2 ^ 26) ->
  tinf_gzip_uncompress fuel (pl_mem s) dest (Z.shiftl 1 26) p 0 =
    Done (Uncompressed TINF_OK (zlen (gz_out b bs)) (Some (zlen (item_bytes (IGz h body b bs)))) (write_bytes (pl_mem s) dest (gz_out b bs))).
Proof.
  intros H (Hh & Hfb & Hd & Hok & Hfu & Hfl & Hob & Hol & _) Hdest Hd1 Hreg. destruct (ready_facts _ _ _ _ H) as (_ & Hx & _ & ? & ? & ? & ?).
  pose proof (need_slack (IGz h body b bs :: items)). pose proof (zlen_nonneg (item_bytes (IGz h body b bs))). pose proof (zlen_nonneg (gz_out b bs)). assert (0 < KERNEL_ALIGN /\ 0 < PAGE_SIZE) as [? ?] by done.
  pose proof (r_lo _ _ _ H). pose proof (r_heap _ _ _ H). pose proof (top_lowest_le _ _ _ H). change (Z.shiftl 1 26) with (2 ^ 26).
  apply (gzip_uncompress_file fuel (pl_mem s) dest (2 ^ 26) p h body (gz_out b bs) b bs 0); [done| |done|done|done|exact Hol|exact Hfu|done|by right].
  cbn [item_bytes] in *. split; [exact Hx|exact Hfb|lia|exact Hfl|lia|exact Hreg|lia|lia|lia|right; lia].
Qed.

Lemma unpack_xz s f items p dest :
  ready s (IXz f :: items) p -> item_ok fuel (IXz f) ->
  pl_heap_base s <= dest -> dest + 2 ^ 26 <= hi -> region (pl_mem s) dest (2 ^ 26) ->
  exists z, XzDecode xz_rounds (S xz_rounds) p 0 dest (Z.shiftl 1 26) (MinLz.set_mem (pl_mem s) (pl_minlz s)) =
      Done ((true, zlen (xz_bytes f), zlen (xz_data f)), z) /\
    mz_mem z = write_bytes (pl_mem s) dest (xz_data f) /\ decoder_ready z.
Proof.
  intros H (Hf & Hfb & Hfl & Hob & Hol & _) Hdest Hd1 Hreg. destruct (ready_facts _ _ _ _ H) as (_ & Hx & _ & ? & ? & ? & ?).
  pose proof (need_slack (IXz f :: items)). pose proof (zlen_nonneg (item_bytes (IXz f))). assert (0 < KERNEL_ALIGN /\ 0 < PAGE_SIZE) as [? ?] by done.
  pose proof (r_lo _ _ _ H). pose proof (r_heap _ _ _ H). pose proof (top_lowest_le _ _ _ H). pose proof (zlen_nonneg (xz_data f)). change (Z.shiftl 1 26) with (2 ^ 26). cbn [item_bytes] in *.
  assert (Z.to_nat (2 ^ 26) <= xz_rounds)%nat as Hn by exact xz_rounds_enough. revert Hn. generalize xz_rounds as n. intros n Hn.
  apply (run_XzDecode f (MinLz.set_mem (pl_mem s) (pl_minlz s)) p 0 dest (2 ^ 26) n (S n) Hf Hx Hfb (r_minlz _ _ _ H));
    [lia|lia|by left|lia|lia|exact Hreg|lia|lia|exact Hn|apply le_n_S, Hn].
Qed.

(** Unpacking a kernel takes at least 20 MB, an archive what it is long. *)
Lemma finalize_kernel n s dest out :
  has_rodata (set_heap_base (dest + zlen out) s) -> bytes_at (pl_mem s) dest out -> kernel_magic `prefix_of` out ->
  heapblock_alloc_aligned (zlen out) KERNEL_ALIGN (pl_heap_base s) = Done (dest, dest + zlen out) -> dest mod KERNEL_ALIGN = 0 -> 0 < dest ->
  dest + KERNEL_ALIGN + 0x1400000 < 2 ^ 32 -> dest + zlen out < 2 ^ 32 ->
  finalize_uncompression (load_one_payload E (S n)) dest (zlen out) s =
    Done (tt, set_kernel dest (set_heap_base (dest + Z.max (zlen out) 0x1400000) s)).
Proof.
  intros Hro Hout Hmag Ha Hal Hd Hr1 Hr2. pose proof (zlen_nonneg out). unfold finalize_uncompression. rewrite (run_heap_alloc _ _ _ s _ _ Ha).
  assert (KERNEL_ALIGN = 2 ^ 18) as EK by done. rewrite (run_assert _ _ _ (Z.eqb_refl dest)).
  rewrite (run_bind _ _ _ _ _ (load_kernel_here n _ dest (zlen out) out Hro Hout Hmag Hal Hd ltac:(lia))).
  rewrite run_assert by (apply orb_true_iff; right; lia). rewrite u32_small by lia. case_if; b2p.
  - rewrite (run_heap_alloc _ _ _ _ (dest + zlen out) (dest + 0x1400000)).
    + rewrite Z.eqb_refl. unfold p_assert, lift, c_assert. rewrite bind_Done. do 2 f_equal. rewrite Z.max_r by lia. done.
    + cbn [pl_heap_base set_kernel set_heap_base]. rewrite u32_small, heap_next by lia. do 2 f_equal. lia.
  - rewrite Z.max_l by lia. done.
Qed.

Lemma finalize_archive n s dest out a t m :
  has_rodata (set_heap_base (dest + zlen out) s) -> bytes_at (pl_mem s) dest out -> cpio_magic `prefix_of` out ->
  heapblock_alloc_aligned (zlen out) KERNEL_ALIGN (pl_heap_base s) = Done (dest, dest + zlen out) -> 0 < dest -> dest + zlen out < 2 ^ 32 ->
  let s3 := set_heap_base (dest + zlen out) s in let s4 := with_initrd a (page_up (zlen out)) t m s3 in
  in_kboot (kboot_set_initrd dest (zlen out)) s3 = Done (tt, s4) ->
  finalize_uncompression (load_one_payload E (S n)) dest (zlen out) s = Done (tt, s4).
Proof.
  intros Hro Hout Hmag Ha Hd Hr s3 s4 Hrun. pose proof (zlen_nonneg out). unfold finalize_uncompression. rewrite (run_heap_alloc _ _ _ s _ _ Ha).
  rewrite (run_assert _ _ _ (Z.eqb_refl dest)). fold s3.
  assert (load_one_payload E (S n) dest (zlen out) s3 = Done (dest + zlen out, s4)) as Hload.
  { rewrite (load_cpio_here n s3 dest out Hro Hout Hmag Hd). unfold load_cpio.
    assert (zlen out <> 0) by (destruct Hmag as [r ->]; rewrite zlen_app; change (zlen cpio_magic) with 5; pose proof (zlen_nonneg r); lia).
    bdec. by rewrite (run_bind _ _ s3 _ _ Hrun), u32_small by lia. }
  rewrite (run_bind _ _ _ _ _ Hload). rewrite run_assert by (apply orb_true_iff; right; lia). rewrite u32_small by lia. by bdec.
Qed.

(** The compressed payload is done when what was unpacked is. *)
Lemma decompress_gz_run n s h body b bs items p size dest s' :
  ready s (IGz h body b bs :: items) p -> heapblock_alloc_aligned 0 KERNEL_ALIGN (pl_heap_base s) = Done (dest, dest) ->
  tinf_gzip_uncompress fuel (pl_mem s) dest (Z.shiftl 1 26) p 0 =
    Done (Uncompressed TINF_OK (zlen (gz_out b bs)) (Some (zlen (item_bytes (IGz h body b bs)))) (write_bytes (pl_mem s) dest (gz_out b bs))) ->
  finalize_uncompression (load_one_payload E n) dest (zlen (gz_out b bs)) (put_mem (write_bytes (pl_mem s) dest (gz_out b bs)) (set_heap_base dest s)) =
    Done (tt, s') ->
  load_one_payload E (S n) p size s = Done (p + zlen (item_bytes (IGz h body b bs)), s').
Proof.
  intros H E1 Ht Hf. destruct (ready_facts _ _ _ _ H) as (Hro & Hx & _ & ? & ? & _ & ?). pose proof (zlen_nonneg (item_bytes (IGz h body b bs))).
  pose proof (r_heap _ _ _ H). pose proof (r_room _ _ _ H). pose proof (need_slack (IGz h body b bs :: items)).
  assert (0 < KERNEL_ALIGN /\ 0 < PAGE_SIZE) as [? ?] by done.
  cbn [load_one_payload]. unfold NULL. bdec.
  rewrite (run_is_magic p gz_magic _ _ _ Hro ltac:(in_list) Hx) by (cbn [item_bytes]; unfold gzip_file, gzip_fields; cbn; lia).
  rewrite bool_decide_true by (cbn [item_bytes]; unfold gzip_file, gzip_fields; by eexists). unfold decompress_gz.
  rewrite (run_heap_alloc _ _ _ s _ _ E1).
  set (f := fun m => u ← tinf_gzip_uncompress fuel m dest (Z.shiftl 1 26) p 0; Done (u, u_mem u)).
  assert (f (pl_mem (set_heap_base dest s)) = Done (Uncompressed TINF_OK (zlen (gz_out b bs)) (Some (zlen (item_bytes (IGz h body b bs))))
    (write_bytes (pl_mem s) dest (gz_out b bs)), write_bytes (pl_mem s) dest (gz_out b bs))) as Hw by (unfold f; change (pl_mem (set_heap_base dest s)) with (pl_mem s); by rewrite Ht).
  rewrite (run_p_writes f _ (set_heap_base dest s) _ _ Hw).
  cbn [u_res u_sourceLen u_destLen]. change (negb (TINF_OK =? TINF_OK)) with false. cbv iota. unfold of_option.
  rewrite (run_bind (lift (Done _)) _ _ _ _ eq_refl). rewrite (run_bind _ _ _ _ _ Hf). by rewrite u32_small by lia.
Qed.

Lemma decompress_xz_run n s f items p size dest z s' :
  ready s (IXz f :: items) p -> heapblock_alloc_aligned 0 KERNEL_ALIGN (pl_heap_base s) = Done (dest, dest) ->
  XzDecode xz_rounds (S xz_rounds) p 0 dest (Z.shiftl 1 26) (MinLz.set_mem (pl_mem s) (pl_minlz s)) =
    Done ((true, zlen (xz_bytes f), zlen (xz_data f)), z) ->
  finalize_uncompression (load_one_payload E n) dest (zlen (xz_data f)) (set_minlz z (put_mem (mz_mem z) (set_heap_base dest s))) = Done (tt, s') ->
  load_one_payload E (S n) p size s = Done (p + zlen (item_bytes (IXz f)), s').
Proof.
  intros H E1 Hx Hf. destruct (ready_facts _ _ _ _ H) as (Hro & Hb & _ & ? & ? & _ & ?). pose proof (zlen_nonneg (item_bytes (IXz f))).
  pose proof (r_heap _ _ _ H). pose proof (r_room _ _ _ H). pose proof (need_slack (IXz f :: items)).
  assert (0 < KERNEL_ALIGN /\ 0 < PAGE_SIZE) as [? ?] by done.
  cbn [load_one_payload]. unfold NULL. bdec. cbn [item_bytes] in *. unfold xz_bytes, xz_stream_header in Hb. rewrite <- app_assoc in Hb.
  not_magic Hro Hb ltac:(apply (differ_prefix [0xFD; 0x37; 0x7A; 0x58; 0x5A; 0; 0; xf_check f]); reflexivity).
  rewrite (run_is_magic p xz_magic _ _ _ Hro ltac:(in_list) Hb) by (rewrite length_app; cbn; lia).
  rewrite bool_decide_true by (eexists (0 :: xf_check f :: _); reflexivity). unfold decompress_xz.
  rewrite (run_heap_alloc _ _ _ s _ _ E1).
  rewrite (run_bind (in_minlz _) _ _ (true, zlen (xz_bytes f), zlen (xz_data f)) (set_minlz z (put_mem (mz_mem z) (set_heap_base dest s)))).
  - cbn [negb]. rewrite (run_bind _ _ _ _ _ Hf). by rewrite u32_small by lia.
  - unfold in_minlz. change (kb_mem (pl_kb (set_heap_base dest s))) with (pl_mem s). change (pl_minlz (set_heap_base dest s)) with (pl_minlz s).
    by rewrite Hx.
Qed.

(** What is unpacked is a kernel or an archive, and is loaded where it is. *)
Lemma load_unpacked_spec n s i out items p l dest z (L : payload A -> Prop) :
  ready s (i :: items) p -> item_need i = unpack_need out -> unpacked_ok out -> holds s l p -> decoder_ready z ->
  pl_heap_base s <= dest < pl_heap_base s + KERNEL_ALIGN -> dest mod KERNEL_ALIGN = 0 ->
  heapblock_alloc_aligned (zlen out) KERNEL_ALIGN dest = Done (dest, dest + zlen out) -> dest + 2 ^ 26 <= hi -> dest + KERNEL_ALIGN + 0x1400000 <= hi ->
  (forall s', finalize_uncompression (load_one_payload E (S n)) dest (zlen out)
      (set_minlz z (put_mem (write_bytes (pl_mem s) dest out) (set_heap_base dest s))) = Done (tt, s') -> L s') ->
  let p' := p + zlen (item_bytes i) in
  exists s', L s' /\ ready s' items p' /\ holds s' (load_unpacked l out) p'.
Proof.
  intros H Hneed (Hob & Hol & Hkind) Hh Hz Hdest Hal E2 Hd1 Hd2 Hdec p'. destruct (ready_facts _ _ _ _ H) as (Hro & Hx & _ & ? & ? & _ & ?).
  pose proof (r_lo _ _ _ H). pose proof (r_heap _ _ _ H). pose proof (r_room _ _ _ H) as Hroom. rewrite need_cons, Hneed in Hroom. unfold unpack_need in Hroom.
  pose proof (top_lowest_le _ _ _ H). pose proof (zlen_nonneg (item_bytes i)). unfold load_unpacked.
  pose proof (need_slack items). pose proof (zlen_nonneg out). pose proof (page_up_ge (zlen out)). assert (0 < PAGE_SIZE) by done.
  assert (KERNEL_ALIGN = 2 ^ 18) as EK by done. rewrite EK in *.
  set (m2 := write_bytes (pl_mem s) dest out) in *. set (s2 := set_minlz z (put_mem m2 (set_heap_base dest s))) in *.
  assert (forall k, k < dest \/ dest + zlen out <= k -> m2 !! k = pl_mem s !! k) as Hm2.
  { intros k Hk. unfold m2. rewrite lookup_write_bytes. case_if; b2p; [lia|done]. }
  assert (has_rodata (set_heap_base (dest + zlen out) s2)) as Hro3 by (eapply rodata_frame; [exact Hro|]; intros k Hk; apply Hm2; lia).
  assert (bytes_at m2 dest out) as Hout by (apply bytes_at_write_eq; lia).
  assert (region m2 (pl_heap_base s) (hi - pl_heap_base s)) as Hreg by (apply region_write, (r_mem _ _ _ H)).
  case_bool_decide as Hk.
  - set (h' := dest + Z.max (zlen out) 0x1400000). set (t := set_heap_base h' s2).
    assert (same_but (pl_mem s) m2 p p' (pl_heap_base s) (top_lowest hi (pl_top s))) as Hs by (intros k ?; apply Hm2; unfold p' in *; lia).
    exists (set_kernel dest t). split; [|split].
    + apply Hdec. apply finalize_kernel; [done|done|done|done|by rewrite EK|lia|rewrite EK; lia|lia].
    + eapply (ready_step s); [exact H|exact Hs|change (pl_heap_base s <= h'); unfold h'; lia|exact Hreg|apply (r_top _ _ _ H)|done| |exact Hz].
      change (h' + need items <= top_lowest hi (pl_top s)). unfold h'. lia.
    + apply holds_kernel; [|done|by rewrite EK|lia|change (dest + zlen out <= h'); unfold h'; lia].
      eapply (holds_step s t); [exact Hh|unfold p' in *; lia|unfold p'; lia|done|exact Hs|change (pl_heap_base s <= h'); unfold h'; lia|done..].
  - destruct Hkind as [?|Hc]; [done|]. set (s3 := set_heap_base (dest + zlen out) s2) in *.
    destruct (set_initrd_spec s3 dest out (dest + zlen out) (r_top _ _ _ H) Hob Hout) as (t & Hrun & Htl & Htok & Hph);
      [lia|lia|change (phys_base (pl_top s) <= dest + zlen out); pose proof (r_phys _ _ _ H); lia|
       eapply region_sub; [exact Hreg|change (pl_top s3) with (pl_top s) in *; lia..]|change (pl_top s3) with (pl_top s); lia|].
    change (pl_top s3) with (pl_top s) in *. change (pl_mem s3) with m2 in *. set (a := top_lowest hi (pl_top s) - page_up (zlen out)) in *.
    set (m3 := write_bytes m2 a out) in *.
    assert (same_but (pl_mem s) m3 p p' (pl_heap_base s) (top_lowest hi (pl_top s))) as Hs.
    { intros k ?. unfold m3. rewrite lookup_write_bytes. case_if; b2p; [unfold a, p' in *; lia|]. apply Hm2. unfold p' in *. lia. }
    exists (with_initrd a (page_up (zlen out)) t m3 s3). split; [|split].
    + apply Hdec. apply finalize_archive; [done|done|done|done|lia|lia|exact Hrun].
    + eapply (ready_step s); [exact H|exact Hs|change (pl_heap_base s <= dest + zlen out); lia|by apply region_write|done|done| |exact Hz].
      change (dest + zlen out + need items <= top_lowest hi t). rewrite Htl. unfold a. lia.
    + apply holds_initrd; [|apply bytes_at_write_eq; unfold a; lia|done|lia|unfold a; lia].
      eapply (holds_step s); [exact Hh|unfold p' in *; lia|unfold p'; lia|done|exact Hs|change (pl_heap_base s <= dest + zlen out); lia| |done..].
      change (top_lowest hi t <= top_lowest hi (pl_top s)). rewrite Htl. unfold a. lia.
Qed.

Lemma load_gz n s h body b bs items p size l :
  ready s (IGz h body b bs :: items) p -> item_ok fuel (IGz h body b bs) -> holds s l p ->
  let p' := p + zlen (item_bytes (IGz h body b bs)) in
  exists s', load_one_payload E (S (S n)) p size s = Done (p', s') /\ ready s' items p' /\ holds s' (load_item compat l (IGz h body b bs)) p'.
Proof.
  intros H Hok Hh. pose proof Hok as (_ & _ & _ & _ & _ & _ & Hun). destruct (unpack_place s _ items p (gz_out b bs) H eq_refl (proj1 (proj2 Hun))) as (dest & E1 & Hdest & Hal & E2 & Hd1 & Hd2 & Hreg).
  eapply (load_unpacked_spec n s (IGz h body b bs) _ items p l dest (pl_minlz s)); [done|done|done|done|apply (r_minlz _ _ _ H)|done..|].
  intros s' Hf. eapply decompress_gz_run; [exact H|exact E1|eapply unpack_gz; [exact H|exact Hok|lia|exact Hd1|exact Hreg]|exact Hf].
Qed.

Lemma load_xz n s f items p size l :
  ready s (IXz f :: items) p -> item_ok fuel (IXz f) -> holds s l p ->
  let p' := p + zlen (item_bytes (IXz f)) in
  exists s', load_one_payload E (S (S n)) p size s = Done (p', s') /\ ready s' items p' /\ holds s' (load_item compat l (IXz f)) p'.
Proof.
  intros H Hok Hh. pose proof Hok as (_ & _ & _ & Hun). destruct (unpack_place s _ items p (xz_data f) H eq_refl (proj1 (proj2 Hun))) as (dest & E1 & Hdest & Hal & E2 & Hd1 & Hd2 & Hreg).
  destruct (unpack_xz s f items p dest H Hok (proj1 Hdest) Hd1 Hreg) as (z & Hrun & Hm & Hz).
  eapply (load_unpacked_spec n s (IXz f) _ items p l dest z); [done|done|done|done|exact Hz|done..|].
  intros s' Hf. rewrite <- Hm in Hf. eapply decompress_xz_run; [exact H|exact E1|exact Hrun|exact Hf].
Qed.

(** *** The whole image *)
Lemma load_end n s p size : ready s [] p -> load_one_payload E (S n) p size s = Done (NULL, s).
Proof.
  intros H. pose proof (r_image _ _ _ H) as Hx. pose proof (r_rodata _ _ _ H) as Hro. pose proof (r_lo _ _ _ H).
  change (image []) with (replicate 16 0) in Hx. change (replicate 16 0) with (replicate 16 0 ++ []) in Hx. cbn [load_one_payload]. unfold NULL. bdec.
  do 7 not_magic Hro Hx ltac:(apply (differ_prefix (replicate 16 0)); reflexivity). unfold check_var.
  assert (strnlen (pl_mem s) p (MAX_VAR_NAME + 1) = Done 0) as Hs.
  { destruct Hx as [[Hx ?] _]. unfold strnlen. change (Z.to_nat (MAX_VAR_NAME + 1)) with 65%nat. cbn [strnlen_loop]. rewrite Z.add_0_r. by ld Hx. }
  rewrite (run_bind _ _ s None s).
  - rewrite (run_is_magic p empty_magic _ _ _ Hro ltac:(in_list) Hx) by (cbn; lia). by rewrite bool_decide_true by (exists (replicate 12 0); reflexivity).
  - rewrite (run_p_reads _ _ s _ Hs). rewrite (run_p_reads _ _ s NULL) by reflexivity. done.
Qed.

Lemma load_each n s i items p size l :
  ready s (i :: items) p -> item_ok fuel i -> Forall (fun c => 0 < c < 256) compat -> compat <> [] -> holds s l p ->
  let p' := p + zlen (item_bytes i) in
  exists s', load_one_payload E (S (S n)) p size s = Done (p', s') /\ ready s' items p' /\ holds s' (load_item compat l i) p'.
Proof.
  intros H Hok Hc Hc0 Hh. destruct i.
  - exists s. split; [by eapply load_sig|]. split; [by apply ready_next|by eapply holds_next].
  - by apply load_var.
  - by apply load_initramfs.
  - by apply load_fdt_spec.
  - by apply load_gz.
  - by apply load_xz.
Qed.

Lemma payload_loop_spec n s items p size l :
  ready s items p -> Forall (item_ok fuel) items -> Forall (fun c => 0 < c < 256) compat -> compat <> [] -> holds s l p ->
  (length items + 2 < n)%nat ->
  exists s', payload_loop E n p iend size s = Done (tt, s') /\ holds s' (foldl (load_item compat) l items) iend.
Proof.
  intros H Hok Hc Hc0. revert n s p l H. induction Hok as [|i items Hi _ IH]; intros n s p l H Hh Hn; (destruct n as [|n]; [lia|]);
    pose proof (r_lo _ _ _ H); pose proof (r_iend _ _ _ H) as Hie; cbn [payload_loop]; unfold NULL.
  - pose proof (image_length []). bdec. cbn in Hn. rewrite (run_bind _ _ s _ _ (load_end n s p size H)).
    destruct n as [|n]; [lia|]. exists s. split; [done|]. cbn [foldl]. eapply holds_step; [exact Hh|lia|lia|apply (r_heap _ _ _ H)|by intros k _|done..].
  - pose proof (image_length (i :: items)). bdec. cbn in Hn. destruct n as [|[|n]]; [lia..|].
    destruct (load_each (S n) s i items p size l H Hi Hc Hc0 Hh) as (s1 & Hrun & Hr1 & Hh1). rewrite (run_bind _ _ s _ _ Hrun). cbn [foldl].
    apply IH; [done|done|lia].
Qed.

(** C9: The loader finds every payload of an image and keeps what it is meant to
    keep: for any sequence of signatures, variables, device trees, gzip
    or XZ kernels and archives and initramfs payloads, each directly behind
    the one before, payload_run's loop ends at the empty word behind them; the
    kernel it leaves is the last one, unpacked and aligned to 256 KiB inside
    the heap, the device tree is the last one compatible with the machine,
    the initramfs is the last one, whole and at the top of memory with its
    size rounded to pages, and the variables are the first 16 that begin with
    "chosen.", each terminated; none of them is overwritten by what is loaded
    later. *)
Theorem payloads_loaded n s items p size :
  ready s items p -> Forall (item_ok fuel) items -> Forall (fun c => 0 < c < 256) compat -> compat <> [] ->
  pl_kernel s = NULL -> pl_fdt s = NULL -> kb_initrd_start (pl_kb s) = NULL -> pl_chosen s = [] -> (length items + 2 < n)%nat ->
  exists s', payload_loop E n p iend size s = Done (tt, s') /\
    holds s' (foldl (load_item compat) (Loaded None None None []) items) iend.
Proof.
  intros H Hok Hc Hc0 Hk Hf Hi Hv Hn. apply (payload_loop_spec n s items p size); try done. split; try done. cbn. rewrite Hv. constructor.
Qed.
End loading.

(** ** An image

    A variable, a device tree for this machine and one for another, a gzip
    kernel and an XZ archive. *)
Section demo_image.
#[local] Instance demo_malloc : Malloc unit := {| calloc := fun n h m => Done (NULL, h, m); free := fun p h m => Done (h, m) |}.

Definition demo_tree (name : string) : fdt_tree := FNode [] [(bytes_of "compatible", bytes_of name ++ [0])] [].
Definition demo_tree_toks (name : string) : list FdtSpec.token := [TBegin [] [0; 0; 0]; TProp 0 (bytes_of name ++ [0]) [0; 0; 0]; TEnd; TFin].
Definition demo_tree_blob (name : string) : blob :=
  let ts := demo_tree_toks name in Blob (56 + pos ts + 11) 56 (56 + pos ts) 40 16 0 ts (bytes_of "compatible" ++ [0]).
Definition demo_tree_item (name : string) : item := IFdt (demo_tree_blob name) (demo_tree name) (blob_bytes (demo_tree_blob name)).

(** A gzip file whose one block is stored. *)
Definition demo_gz_item (out : list Z) : item :=
  IGz (GzipHeader false false None None None [0; 0; 0; 0; 0; 3])
    ([1] ++ le_bytes 2 (zlen out) ++ le_bytes 2 (0xffff - zlen out) ++ out) (Stored (replicate 5 false) out) [].

Definition demo_kernel : list Z := kernel_magic ++ [1; 2; 3; 4].
Definition demo_cpio : list Z := bytes_of "070701".
Definition demo_xz : xz_file :=
  XzFile 1 8 [RawChunk true (bytes_of "07"); LzmaChunk 2 [LzmaSpec.Match 2 2; LzmaSpec.Literal 48; LzmaSpec.Literal 49]]
    [1; 2; 3; 4] [0; 0; 0] [5; 6; 7; 8] [9; 10; 11; 12] [13; 14; 15; 16] [17; 18; 19; 20].
Definition demo_items : list item :=
  [IVar (bytes_of "chosen.bootargs") (bytes_of "quiet"); demo_tree_item "apple,me"; demo_tree_item "appl,you"; demo_gz_item demo_kernel; IXz demo_xz].

(** The constants of the firmware one after the other. *)
Definition demo_consts : list (list Z) :=
  magics ++ [empty_magic; img4_magic; bytes_of "chosen." ++ [0]; bytes_of "compatible" ++ [0]; bytes_of "apple,me" ++ [0]].
Definition demo_const (g : list Z) : Z := const_at g demo_consts 0x1000.

Definition demo_kboot_env : kboot_env :=
  KbootEnv 2000 (fun s => demo_const (bytes_of s ++ [0])) (FdtRodata 0 0 0 (demo_const (bytes_of "compatible" ++ [0])) 0 0) (Rodata 0 0 0 0 0) 0 0 0 0
    (BootVideo 0 0 0 0 0) 0 0 0 0 0 0 0.
Definition demo_payload_env : payload_env unit :=
  PayloadEnv unit demo_kboot_env demo_const (demo_const (bytes_of "apple,me" ++ [0])) (mret tt).

Definition demo_area : mem := write_bytes ∅ 0 (replicate (Z.to_nat 0x8000000) 0).
Definition demo_image_mem : mem := write_bytes (write_bytes demo_area 0x1000 (concat demo_consts)) 0x2000 (image demo_items).
Definition demo_minlz : minlz :=
  MinLz ∅ (In_ 0 0 0 0) (Dictionary_ 0 0 0 0 0) (RcState_ 0 0 0 0)
    (Decoder_ 0 0 0 0 0 0 (replicate (Z.to_nat 7318) 0)) (Container_ 0 0 0 0 0).
Definition demo_payload : payload unit :=
  Payload (Kboot demo_image_mem tt (Top 0 0x8000000 false) 0 0 0 0 [] 0 0 None) 0x3000 0 0 [] demo_minlz.
Definition demo_iend : Z := 0x2000 + zlen (image demo_items).

Lemma demo_area_region a n : 0 <= a -> 0 <= n -> a + n <= 0x8000000 -> region demo_area a n.
Proof.
  intros Ha Hn He. apply region_intro; [done|]. intros k Hk. split; [|lia]. exists 0. unfold demo_area. rewrite lookup_write_bytes, zlen_replicate, Z2Nat.id by done.
  bdec. apply lookup_replicate_2. lia.
Qed.

(** The addresses of the constants, checked by evaluation. *)
Definition const_okb (x : Z * list Z) : bool :=
  (0x1000 <=? x.1) && (x.1 + zlen x.2 <=? 0x2000) && bool_decide (slice (concat demo_consts) (x.1 - 0x1000) (zlen x.2) = x.2).

Lemma demo_rodata : Forall (fun x => bytes_at demo_image_mem x.1 x.2 /\ x.1 + zlen x.2 <= 0x2000) (rodata demo_payload_env (bytes_of "apple,me")).
Proof.
  assert (forallb const_okb (rodata demo_payload_env (bytes_of "apple,me")) = true) as Hc by (vm_compute; reflexivity).
  apply Is_true_true_2, forallb_True in Hc. eapply Forall_impl; [exact Hc|]. intros [a bs] Hx%Is_true_true. unfold const_okb in Hx. cbn [fst snd] in *.
  apply andb_true_iff in Hx as [Hx Hs]. apply bool_decide_eq_true in Hs. b2p. split; [|lia]. rewrite <- Hs. replace a with (0x1000 + (a - 0x1000)) at 1 by lia. apply bytes_at_slice; [|lia].
  apply bytes_at_write_disj; [left; by vm_compute|]. apply bytes_at_write_eq; [done|by vm_compute].
Qed.

Lemma demo_ready : ready demo_payload_env (bytes_of "apple,me") 0x2000 0x8000000 demo_iend demo_payload demo_items 0x2000.
Proof.
  split; change (pl_mem demo_payload) with demo_image_mem; change (pl_top demo_payload) with (Top 0 0x8000000 false); change (pl_heap_base demo_payload) with 0x3000.
  - exact demo_rodata.
  - done.
  - apply bytes_at_write_eq; [done|by vm_compute].
  - done.
  - by vm_compute.
  - unfold top_ok, top_lowest. cbn. lia.
  - cbn. lia.
  - apply region_write, region_write. by apply demo_area_region.
  - by vm_compute.
  - split; [reflexivity|]. apply (zlen_replicate (Z.to_nat 7318) 0).
Qed.

Lemma demo_tree_ok name :
  2 * b_total (demo_tree_blob name) + 2 < 2000 -> blob_file (demo_tree_blob name) (blob_bytes (demo_tree_blob name)) ->
  are_bytes (blob_bytes (demo_tree_blob name)) -> item_ok 2000 (demo_tree_item name).
Proof.
  intros H Hf Hb. split; [done|]. split; [done|]. split; [|split].
  - exists (take 3 (demo_tree_toks name)). split; [done|]. exists [0; 0; 0], [TProp 0 (bytes_of name ++ [0]) [0; 0; 0]], []. split; [done|]. split; [|constructor].
    constructor; [|constructor]. by eapply (demo_string_at _ _ _ []).
  - done.
  - intros v [= <-]. right. by rewrite last_snoc.
Qed.

Lemma demo_gz_ok out :
  are_bytes (item_bytes (demo_gz_item out)) -> zlen out < 100 -> deflated ([1] ++ le_bytes 2 (zlen out) ++ le_bytes 2 (0xffff - zlen out) ++ out) (Stored (replicate 5 false) out) [] ->
  blocks_ok 0 [] (Stored (replicate 5 false) out) [] = true -> gz_out (Stored (replicate 5 false) out) [] = out ->
  unpacked_ok out -> item_ok 2000 (demo_gz_item out).
Proof.
  intros Hb Hl Hd Hok Eo Hun. pose proof (zlen_nonneg out). cbn [item_ok demo_gz_item]. cbv zeta.
  assert (zlen (item_bytes (demo_gz_item out)) = 23 + zlen out) as El.
  { cbn [item_bytes demo_gz_item]. unfold gzip_file, gzip_fields. rewrite !zlen_app, !zlen_le_bytes. cbn [g_fixed g_hcrc g_extra g_name g_comment hcrc_field extra_field string_field].
    change (zlen [0; 0; 0; 0; 0; 3]) with 6. change (zlen (@nil Z)) with 0. change (zlen [1]) with 1. change (zlen [_; _; _; _]) with 4. lia. }
  cbn [item_bytes demo_gz_item] in El, Hb. rewrite Eo in *. split; [|split; [done|split; [done|split; [done|split; [|split; [|done]]]]]].
  - repeat split; try done. by apply between_bytes.
  - unfold inflate_fuel. rewrite El. lia.
  - rewrite El. lia.
Qed.

Lemma demo_xz_ok : item_ok 2000 (IXz demo_xz).
Proof.
  split; [|split; [by apply between_bytes|split; [by vm_compute|]]].
  - constructor; try (vm_compute; repeat split; congruence).
    + apply elem_of_cons. right. apply elem_of_cons. by left.
    + split; [|split; [|exact I]].
      * split; [by repeat constructor|]. by vm_compute.
      * repeat split; try (vm_compute; congruence).
  - split; [by apply between_bytes|split; [by vm_compute|]]. right. by exists (bytes_of "1").
Qed.

Lemma demo_items_ok : Forall (item_ok 2000) demo_items.
Proof.
  unfold demo_items. repeat apply Forall_cons_2; [| | | | |apply Forall_nil_2].
  - split; [|split; [|split; [|split]]]; apply (bool_decide_unpack _); vm_compute; reflexivity.
  - apply demo_tree_ok; [by vm_compute| |by apply between_bytes]. split; [reflexivity|]. split; [|by repeat split].
    split; [by vm_compute..|by apply tok_okb_ok].
  - apply demo_tree_ok; [by vm_compute| |by apply between_bytes]. split; [reflexivity|]. split; [|by repeat split].
    split; [by vm_compute..|by apply tok_okb_ok].
  - apply demo_gz_ok; [by apply between_bytes|done| |reflexivity|reflexivity|].
    + exists []. split; [by vm_compute|done].
    + split; [by apply between_bytes|]. split; [by vm_compute|]. left. by eexists.
  - exact demo_xz_ok.
Qed.

Lemma payloads_loaded_witness :
  exists s', payload_loop demo_payload_env 10 0x2000 demo_iend 0 demo_payload = Done (tt, s') /\
    holds 0x2000 0x8000000 demo_iend s' (Loaded (Some demo_kernel) (Some (blob_bytes (demo_tree_blob "apple,me"))) (Some demo_cpio)
      [bytes_of "chosen.bootargs=quiet"]) demo_iend.
Proof.
  pose proof (payloads_loaded demo_payload_env (bytes_of "apple,me") 0x2000 0x8000000 demo_iend 10 demo_payload demo_items 0x2000 0 demo_ready demo_items_ok) as Hw.
  assert (foldl (load_item (bytes_of "apple,me")) (Loaded None None None []) demo_items =
    Loaded (Some demo_kernel) (Some (blob_bytes (demo_tree_blob "apple,me"))) (Some demo_cpio) [bytes_of "chosen.bootargs=quiet"]) as Ef by (vm_compute; reflexivity).
  rewrite Ef in Hw. apply Hw; [by apply between_Forall|done|done|done|done|done|vm_compute; lia].
Defined.
End demo_image.
