(* ===== verification/Uart.v ===== *)
(** * The UART (src/uart.c, uart_regs.h)

    Registers belong to a device: [Mmio W] says what a read returns and what an
    access does to the world [W].  [uart_base], the static variable, is an
    argument.  The loops that poll the status register take a number of rounds;
    [UartLaws] is what the driver relies on, and with it the driver keeps the
    contract that the console asks of a device. *)
From S2P Require Import Prelude Machine CString Adt Vsprintf MemUtils Iodev.

(** ** Registers *)
Class Mmio (W : Type) : Type := {
  reg_read : Z -> W -> Z * W;
  reg_write : Z -> Z -> W -> W;
}.

Section mmio.
Context {W : Type} `{!Mmio W}.

Definition io_read32 (addr : Z) : ST W Z := fun w => let '(v, w) := reg_read (u32 addr) w in Done (u32 v, w).
(** [val] has 32 bits. *)
Definition io_write32 (addr val : Z) : ST W unit := modify (reg_write (u32 addr) val).

(** set32, clear32 and mask32 of utils.h, on a device. *)
Definition io_set32 (addr val : Z) : ST W unit := reg ← io_read32 addr; io_write32 addr (Z.lor reg (u32 val)).
Definition io_clear32 (addr val : Z) : ST W unit := reg ← io_read32 addr; io_write32 addr (Z.land reg (u32 (Z.lnot val))).
Definition io_mask32 (addr clear set : Z) : ST W unit :=
  reg ← io_read32 addr; io_write32 addr (Z.lor (Z.land reg (u32 (Z.lnot clear))) (u32 set)).

(** A loop that reads the register until one of the bits is set. *)
Fixpoint io_wait (n : nat) (addr bit : Z) : ST W unit :=
  match n with
  | O => lift Stuck
  | S n' => v ← io_read32 addr; if Z.land v bit =? 0 then io_wait n' addr bit else mret tt
  end.
End mmio.

(** ** uart_regs.h *)
Definition ULCON : Z := 0x000.
Definition UCON : Z := 0x004.
Definition UFCON : Z := 0x008.
Definition UTRSTAT : Z := 0x010.
Definition UMCON : Z := 0x00c.
Definition UTXH : Z := 0x020.
Definition URXH : Z := 0x024.
Definition UBRDIV : Z := 0x028.
Definition ULCON_CS8 : Z := 3.
Definition UMCOM_RTS_LOW : Z := 1.
Definition UCON_TXTHRESH_ENA : Z := BIT 13.
Definition UCON_RXTHRESH_ENA : Z := BIT 12.
Definition UCON_RXTO_ENA_S5L : Z := BIT 11.
Definition UCON_UCLK : Z := BIT 10.
Definition UCON_MODE_IRQ : Z := 1.
(** FIELD_PREP(UCON_RXMODE, ...) and FIELD_PREP(UCON_TXMODE, ...): bits 1-0 and
    3-2. *)
Definition UCON_DEFAULT : Z :=
  Z.lor (Z.lor (Z.lor (Z.lor (Z.lor UCON_MODE_IRQ (Z.shiftl UCON_MODE_IRQ 2)) UCON_UCLK) UCON_RXTO_ENA_S5L)
    UCON_TXTHRESH_ENA) UCON_RXTHRESH_ENA.
Definition UTRSTAT_RXTO : Z := BIT 9.
Definition UTRSTAT_TXTHRESH : Z := BIT 5.
Definition UTRSTAT_RXTHRESH : Z := BIT 4.
Definition UTRSTAT_TXE : Z := BIT 2.
Definition UTRSTAT_TXBE : Z := BIT 1.
Definition UTRSTAT_RXD : Z := BIT 0.

(** ** uart.c *)
Definition UART_CLOCK : Z := 24000000.

Section uart.
Context {W : Type} `{!Mmio W}.
(** How often a status is read before the loop gives up. *)
Context (n : nat).

Definition uart_putbyte (uart_base c : Z) : ST W unit :=
  if uart_base =? 0 then mret tt else
  _ ← io_wait n (uart_base + UTRSTAT) UTRSTAT_TXBE;
  io_write32 (uart_base + UTXH) c.

Definition uart_getbyte (uart_base : Z) : ST W Z :=
  if uart_base =? 0 then mret 0 else
  _ ← io_wait n (uart_base + UTRSTAT) UTRSTAT_RXD;
  v ← io_read32 (uart_base + URXH);
  mret (u8 v).

Definition uart_putchar (uart_base c : Z) : ST W unit :=
  _ ← (if c =? 10 then uart_putbyte uart_base 13 else mret tt);
  uart_putbyte uart_base c.

Definition uart_getchar (uart_base : Z) : ST W Z := uart_getbyte uart_base.

(** The loop up to the terminator. *)
Fixpoint uart_puts_loop (fuel : nat) (uart_base : Z) (m : mem) (s : Z) : ST W unit :=
  match fuel with
  | O => lift Stuck
  | S fuel' =>
      c ← lift (load8 m s);
      if c =? 0 then mret tt else
      _ ← uart_putchar uart_base c;
      uart_puts_loop fuel' uart_base m (s + 1)
  end.

Definition uart_puts (uart_base : Z) (m : mem) (s : Z) : ST W unit :=
  _ ← uart_puts_loop (str_fuel m) uart_base m s;
  uart_putchar uart_base 10.

(** The buffer is given by its contents. *)
Fixpoint uart_write (uart_base : Z) (buf : list Z) : ST W unit :=
  match buf with
  | [] => mret tt
  | c :: buf' => _ ← uart_putbyte uart_base c; uart_write uart_base buf'
  end.

(** [count--] ends the loop; the bytes are returned beside the count. *)
Fixpoint uart_read_loop (count : nat) (uart_base : Z) (recvd : Z) : ST W (Z * list Z) :=
  match count with
  | O => mret (recvd, [])
  | S count' =>
      b ← uart_getbyte uart_base;
      '(r, bs) ← uart_read_loop count' uart_base (u32 (recvd + 1));
      mret (r, b :: bs)
  end.
Definition uart_read (uart_base count : Z) : ST W (Z * list Z) := uart_read_loop (Z.to_nat count) uart_base 0.

Definition uart_flush (uart_base : Z) : ST W unit :=
  if uart_base =? 0 then mret tt else io_wait n (uart_base + UTRSTAT) UTRSTAT_TXE.

(** [int] division. *)
Definition uart_setbaud (uart_base baudrate : Z) : ST W unit :=
  if uart_base =? 0 then mret tt else
  _ ← uart_flush uart_base;
  _ ← lift (if baudrate =? 0 then Fault else Done tt);
  io_write32 (uart_base + UBRDIV) (u32 (Z.quot (Z.quot UART_CLOCK baudrate + 7) 16 - 1)).

Definition uart_clear_irqs (uart_base : Z) : ST W unit :=
  if uart_base =? 0 then mret tt else
  io_write32 (uart_base + UTRSTAT) (Z.lor (Z.lor UTRSTAT_TXTHRESH UTRSTAT_RXTHRESH) UTRSTAT_RXTO).

(** The local buffer of 512 bytes is at [buffer]. *)
Definition uart_printf (uart_base null_str nil_str : Z) (m : mem) (buffer fmt : Z) (args : list varg) : ST W (Z * mem) :=
  '(i, m) ← lift (vsnprintf null_str nil_str m buffer 512 fmt args);
  text ← lift (load_bytes (Z.to_nat (Z.min (s32 i) (512 - 1))) m buffer);
  _ ← uart_write uart_base text;
  mret (i, m).

(** *** The operations of the I/O device *)
Definition uart_iodev_can_write (opaque : Z) : ST W bool := mret true.

Definition uart_iodev_can_read (uart_base opaque : Z) : ST W Z :=
  if uart_base =? 0 then mret 0 else
  v ← io_read32 (uart_base + UTRSTAT);
  mret (if Z.land v UTRSTAT_RXD =? 0 then 0 else 1).

Definition uart_iodev_read (uart_base opaque len : Z) : ST W (Z * list Z) := uart_read uart_base len.

Definition uart_iodev_write (uart_base opaque : Z) (buf : list Z) : ST W Z :=
  _ ← uart_write uart_base buf;
  mret (zlen buf).

Definition iodev_uart_ops (uart_base : Z) : iodev_ops W :=
  Ops (Some (uart_iodev_can_read uart_base)) (Some uart_iodev_can_write) (Some (uart_iodev_read uart_base))
    (Some (uart_iodev_write uart_base)) None None None.

Definition iodev_uart (uart_base : Z) : iodev W :=
  Dev (Some (iodev_uart_ops uart_base)) SPINLOCK_INIT (Z.lor USAGE_CONSOLE USAGE_UARTPROXY) 0.

(** *** Start *)

(** [uart_init]: the result and the new [uart_base]; the strings "/arm-io/uart2"
    and "reg" are at [lit_uart2] and [lit_reg].  The result of the path lookup is
    not looked at. *)
Definition uart_init (r : adt_rodata) (m : mem) (adt lit_uart2 lit_reg uart_base : Z) : ST W (Z * Z) :=
  '(_, path) ← lift (adt_path_offset_trace r m adt lit_uart2);
  '(err, reg) ← lift (adt_get_reg r m adt path lit_reg 0);
  let uart_base := match reg with Some (base, _) => base | None => uart_base end in
  if negb (err =? 0) then mret (-1, uart_base) else
  _ ← io_write32 (uart_base + ULCON) ULCON_CS8;
  _ ← io_write32 (uart_base + UCON) UCON_DEFAULT;
  _ ← io_write32 (uart_base + UFCON) 0;
  _ ← io_write32 (uart_base + UMCON) UMCOM_RTS_LOW;
  _ ← uart_setbaud uart_base 115200;
  mret (0, uart_base).
End uart.

(** ** What the driver relies on *)

(** The device [id] at [base]: a status read sends nothing; it finds the
    transmitter free after at most [n] reads, and the receiver filled as long as
    bytes wait, fewer than 2^32.  A write to a free transmitter sends the byte, and a read takes
    the first byte that waits. *)
Class UartLaws (W : Type) `{!Mmio W, !ConsoleWorld W} (id base : Z) (n : nat) : Type := {
  tx_free : W -> Prop;
  tx_wait : W -> nat;
  ul_wait w : (tx_wait w < n)%nat;
  ul_pending w : zlen (pending id w) < 2 ^ 32;
  ul_status w : let '(v, w') := reg_read (base + UTRSTAT) w in
    accepted id w' = accepted id w /\ only_dev id w w' /\
    (if Z.land (u32 v) UTRSTAT_TXBE =? 0 then (tx_wait w' < tx_wait w)%nat else tx_free w') /\
    (pending id w <> [] -> Z.land (u32 v) UTRSTAT_RXD <> 0);
  ul_send w c : tx_free w ->
    accepted id (reg_write (base + UTXH) c w) = accepted id w ++ [c] /\ only_dev id w (reg_write (base + UTXH) c w);
  ul_receive w b rest : pending id w = b :: rest -> let '(v, w') := reg_read (base + URXH) w in
    u8 (u32 v) = b /\ (exists more, pending id w' = rest ++ more) /\ forall j, accepted j w' = accepted j w;
}.

Section laws.
Context {W : Type} `{!Mmio W, !ConsoleWorld W} (id base : Z) (n : nat) `{!UartLaws W id base n}.
Context (Hbase : 0 < base) (Hend : base + UBRDIV < 2 ^ 32).
Implicit Types w : W.

Lemma run_wait_tx k w : (tx_wait w < k)%nat ->
  exists w', io_wait k (base + UTRSTAT) UTRSTAT_TXBE w = Done (tt, w') /\ tx_free w' /\ sent id [] w w'.
Proof using Type*.
  revert w. induction k as [|k IH]; intros w Hk; [lia|]. cbn [io_wait].
  assert (u32 (base + UTRSTAT) = base + UTRSTAT) as Haddr by (apply u32_small; unfold UBRDIV, UTRSTAT in *; lia).
  pose proof (ul_status w) as Hs. destruct (reg_read (base + UTRSTAT) w) as [v w1] eqn:E. destruct Hs as (Ha & Ho & Ht & _).
  erewrite run_bind by (unfold io_read32; by rewrite Haddr, E).
  assert (sent id [] w w1) as Hsent by (split; [by rewrite app_nil_r|done]).
  destruct (Z.land (u32 v) UTRSTAT_TXBE =? 0); [|by exists w1].
  destruct (IH w1) as (w2 & R & Hf & Hs2); [lia|]. exists w2. split; [exact R|]. split; [done|].
  by eapply (sent_trans id [] []).
Qed.

Lemma run_putbyte c w : exists w', uart_putbyte n base c w = Done (tt, w') /\ sent id [c] w w'.
Proof using Type*.
  unfold uart_putbyte. replace (base =? 0) with false by lia.
  destruct (run_wait_tx n w (ul_wait w)) as (w1 & R & Hf & Hs). erewrite run_bind by exact R.
  unfold io_write32. rewrite u32_small by (unfold UBRDIV, UTXH in *; lia).
  exists (reg_write (base + UTXH) c w1). split; [done|]. eapply (sent_trans id [] [c]); [exact Hs|by apply ul_send].
Qed.

Lemma run_uart_write bs w : exists w', uart_write n base bs w = Done (tt, w') /\ sent id bs w w'.
Proof using Type*.
  revert w. induction bs as [|c bs IH]; intros w; cbn [uart_write].
  - exists w. split; [done|apply sent_nil].
  - destruct (run_putbyte c w) as (w1 & R1 & H1). destruct (IH w1) as (w2 & R2 & H2).
    exists w2. split; [by erewrite run_bind by exact R1|]. by eapply (sent_trans id [c] bs).
Qed.

Lemma run_wait_rx k w : pending id w <> [] -> (0 < k)%nat ->
  exists w', io_wait k (base + UTRSTAT) UTRSTAT_RXD w = Done (tt, w') /\ sent id [] w w'.
Proof using Type*.
  intros Hp Hk. destruct k as [|k]; [lia|]. cbn [io_wait].
  assert (u32 (base + UTRSTAT) = base + UTRSTAT) as Haddr by (apply u32_small; unfold UBRDIV, UTRSTAT in *; lia).
  pose proof (ul_status w) as Hs. destruct (reg_read (base + UTRSTAT) w) as [v w1] eqn:E. destruct Hs as (Ha & Ho & _ & Hr).
  erewrite run_bind by (unfold io_read32; by rewrite Haddr, E). rewrite (proj2 (Z.eqb_neq _ _) (Hr Hp)).
  exists w1. split; [done|]. split; [by rewrite app_nil_r|done].
Qed.

Lemma run_getbyte w b rest : pending id w = b :: rest ->
  exists w' more, uart_getbyte n base w = Done (b, w') /\ pending id w' = rest ++ more /\ forall j, accepted j w' = accepted j w.
Proof using Type*.
  intros Hp. unfold uart_getbyte. replace (base =? 0) with false by lia.
  destruct (run_wait_rx n w) as (w1 & R & Ha & Ho & Harr); [by rewrite Hp|pose proof (ul_wait w); lia|].
  erewrite run_bind by exact R. destruct (Harr id) as [m1 Hm1]. rewrite Hp in Hm1.
  pose proof (ul_receive w1 b (rest ++ m1) Hm1) as Hrec. unfold io_read32.
  destruct (reg_read (base + URXH) w1) as [v w2] eqn:E. destruct Hrec as (Hv & (m2 & Hm2) & Hacc).
  exists w2, (m1 ++ m2). split; [|split].
  - unfold mbind, ST_bind. rewrite u32_small by (unfold UBRDIV, URXH in *; lia). rewrite E. cbn. by rewrite Hv.
  - by rewrite Hm2, app_assoc.
  - intros j. rewrite Hacc. destruct (decide (j = id)) as [->|Hj]; [|by apply Ho]. by rewrite Ha, app_nil_r.
Qed.

Lemma run_uart_read k w r : (k <= length (pending id w))%nat -> 0 <= r -> r + Z.of_nat k < 2 ^ 32 ->
  exists w' more, uart_read_loop n k base r w = Done (r + Z.of_nat k, take k (pending id w), w') /\
    pending id w' = drop k (pending id w) ++ more /\ forall j, accepted j w' = accepted j w.
Proof using Type*.
  revert w r. induction k as [|k IH]; intros w r Hk Hr Hmax; cbn [uart_read_loop].
  - exists w, []. rewrite Z.add_0_r, app_nil_r. done.
  - destruct (pending id w) as [|b rest] eqn:Hp; [cbn in Hk; lia|]. cbn [length] in Hk.
    destruct (run_getbyte w b rest Hp) as (w1 & m1 & R1 & Hp1 & Ha1). erewrite run_bind by exact R1.
    rewrite u32_small by lia. destruct (IH w1 (r + 1)) as (w2 & m2 & R2 & Hp2 & Ha2); [rewrite Hp1, length_app; lia|lia|lia|].
    rewrite Hp1, take_app_le in R2 by lia. rewrite Hp1, drop_app_le, <- app_assoc in Hp2 by lia.
    exists w2, (m1 ++ m2). split; [|split; [done|intros j; by rewrite Ha2]].
    erewrite run_bind by exact R2. cbn. unfold mret, ST_ret. do 3 f_equal. lia.
Qed.
End laws.

(** ** The property *)

(** C26: On a device with the laws of the UART the operations of [iodev_uart] keep
    the contract that the console and the proxy ask of an I/O device: all bytes
    of a write reach the wire, in order and once; a read takes the bytes that
    wait from the front and loses none; nothing else is sent and the polling
    loops end. *)
Theorem uart_driver_contract (W : Type) `{!Mmio W, !ConsoleWorld W} (id base opaque : Z) (n : nat)
    `{!UartLaws W id base n} :
  0 < base -> base + UBRDIV < 2 ^ 32 -> driver_ok id opaque (iodev_uart_ops n base).
Proof.
  intros Hbase Hend. split; cbn [iodev_uart_ops op_write op_can_write op_handle_events op_read].
  - intros f bs w [= <-]. destruct (run_uart_write id base n Hbase Hend bs w) as (w' & R & Ha & Ho).
    exists (zlen bs), w'. rewrite to_nat_zlen, take_ge by done. pose proof (zlen_nonneg bs).
    split_and!; [unfold uart_iodev_write; by erewrite run_bind by exact R|lia|lia|done|apply Ho..].
  - intros f w [= <-]. exists true, w. split; [done|]. split; [done|apply only_dev_refl].
  - done.
  - intros f k w [= <-] Hk. unfold uart_iodev_read, uart_read. pose proof (ul_pending w).
    destruct (run_uart_read id base n Hbase Hend (Z.to_nat k) w 0) as (w' & more & R & Hp & Ha); [unfold zlen in *; lia|lia|lia|].
    exists w', more. rewrite R. split_and!; [by rewrite Z.add_0_l, Z2Nat.id by lia|done|done].
Qed.

(** *** A UART *)

(** The transmitter needs three status reads for a byte; the receiver holds
    one. *)
Record sim_uart := SimUart { su_tx : list Z; su_rx : option Z; su_busy : Z }.

#[export] Instance sim_uart_mmio : Mmio sim_uart := {|
  reg_read a w :=
    if a =? 0x1000 + UTRSTAT then
      let rxd := if su_rx w is Some _ then UTRSTAT_RXD else 0 in
      if 0 <? su_busy w then (rxd, SimUart (su_tx w) (su_rx w) (Z.min (su_busy w) 3 - 1)) else (Z.lor rxd UTRSTAT_TXBE, w)
    else if a =? 0x1000 + URXH then (default 0 (su_rx w), SimUart (su_tx w) None (su_busy w))
    else (0, w);
  reg_write a v w := if a =? 0x1000 + UTXH then SimUart (su_tx w ++ [v]) (su_rx w) 3 else w;
|}.

#[export] Instance sim_uart_console : ConsoleWorld sim_uart := {|
  accepted j w := if j =? 0 then su_tx w else [];
  pending j w := if j =? 0 then match su_rx w with Some b => [u8 b] | None => [] end else [];
|}.

Lemma sim_only_dev (w w' : sim_uart) : su_rx w' = su_rx w -> only_dev 0 w w'.
Proof.
  intros Hr. split.
  - intros j Hj. cbn. by rewrite (proj2 (Z.eqb_neq _ _) Hj).
  - intros j. exists []. cbn. by rewrite Hr, app_nil_r.
Qed.

#[export] Program Instance sim_uart_laws : UartLaws sim_uart 0 0x1000 4 := {|
  tx_free w := True;
  tx_wait w := Z.to_nat (Z.min (su_busy w) 3);
|}.
Next Obligation. intros w. cbn. lia. Qed.
Next Obligation. intros [tx [b|] busy]; exact (eq_refl Lt). Qed.
Next Obligation.
  intros [tx rx busy]. cbn [reg_read sim_uart_mmio su_busy su_tx su_rx]. rewrite Z.eqb_refl.
  destruct (0 <? busy) eqn:Hb; b2p; cbn [fst snd]; (split; [done|]); (split; [by apply sim_only_dev|]).
  - split; [|by destruct rx].
    replace (Z.land (u32 (if rx is Some _ then UTRSTAT_RXD else 0)) UTRSTAT_TXBE =? 0) with true by (by destruct rx).
    cbn. lia.
  - split; [|by destruct rx].
    by replace (Z.land (u32 (Z.lor (if rx is Some _ then UTRSTAT_RXD else 0) UTRSTAT_TXBE)) UTRSTAT_TXBE =? 0) with false by (by destruct rx).
Qed.
Next Obligation. intros w c _. cbn. split; [done|by apply sim_only_dev]. Qed.
Next Obligation.
  intros [tx [b|] busy] c rest; cbn; [|done]. intros [= <- <-]. split_and!; [|by exists []|done].
  unfold u8, u32, wrap. lia.
Qed.

Lemma uart_driver_contract_witness :
  driver_ok 0 0 (iodev_uart_ops (W := sim_uart) 4 0x1000) /\
  uart_iodev_write 4 0x1000 0 [104; 105; 10] (SimUart [] (Some 5) 2) = Done (3, SimUart [104; 105; 10] (Some 5) 3) /\
  uart_iodev_read 4 0x1000 0 1 (SimUart [] (Some 5) 2) = Done (1, [5], SimUart [] None 1).
Proof.
  split; [|by vm_compute]. apply (uart_driver_contract sim_uart 0 0x1000 0 4); [lia|reflexivity].
Defined.
