(* ===== verification/Drivers.v ===== *)
(** * Small drivers (src/timer.c, wdt.c, clkrstgen.c, firmware.c, udelay of utils.c)

    The timer, the watchdog and the clock and reset generator are found in the
    vendor's tree and driven through registers ([Mmio] of Uart.v); their static
    variables are arguments and results.  String literals are addresses.
    Messages that are printed are left out. *)
From S2P Require Import Prelude Machine CString Adt MemUtils Iodev Uart.

(** ** A block of registers of the tree *)
Section reg.
Context (r : adt_rodata) (m : mem) (adt lit_reg : Z).

(** The path and [adt_get_reg(adt, path, "reg", 0, &base, NULL)]: the offset of
    the node, the status, and the base when there is one. *)
Definition node_reg (lit_path : Z) : outcome (Z * list Z) := adt_path_offset_trace r m adt lit_path.
Definition get_base (path : list Z) (base : Z) : outcome (Z * Z) :=
  '(err, reg) ← adt_get_reg r m adt path lit_reg 0;
  Done (err, match reg with Some (b, _) => b | None => base end).
End reg.

(** ** timer.c *)
Definition TIMER_64_HI : Z := 0x80.
Definition TIMER_64_LO : Z := 0x84.
Definition TIMER_64_CTL : Z := 0x88.
Definition TIMER_64_CTL_EN : Z := BIT 3.
Definition TIMER_FREQ : Z := 24000000.

Section timer.
Context {W : Type} `{!Mmio W}.

(** The result and the new [timer_base]. *)
Definition timer_init (r : adt_rodata) (m : mem) (adt lit_arm_io lit_timer lit_reg timer_base : Z) : ST W (Z * Z) :=
  node ← lift (adt_path_offset r m adt lit_arm_io);
  if node <? 0 then mret (-1, timer_base) else
  '(timer_offset, path) ← lift (node_reg r m adt lit_timer);
  if timer_offset <? 0 then mret (-1, timer_base) else
  '(err, timer_base) ← lift (get_base r m adt lit_reg path timer_base);
  if err <? 0 then mret (-1, timer_base) else
  _ ← io_write32 (timer_base + TIMER_64_CTL) TIMER_64_CTL_EN;
  mret (0, timer_base).

Definition get_ticks (timer_base : Z) : ST W Z :=
  if timer_base =? 0 then mret 0 else
  hi ← io_read32 (timer_base + TIMER_64_HI);
  lo ← io_read32 (timer_base + TIMER_64_LO);
  mret (Z.lor (u64 (Z.shiftl hi 32)) lo).

Definition get_hz : Z := TIMER_FREQ.

(** The loop of [udelay]: [n] bounds its rounds.  The barrier instruction after it
    (isb, utils.c:138) changes nothing that is modelled and is left out. *)
Fixpoint udelay_loop (n : nat) (timer_base val delay : Z) : ST W unit :=
  match n with
  | O => lift Stuck
  | S n' =>
      t ← get_ticks timer_base;
      if u64 (t - val) <? delay then udelay_loop n' timer_base val delay else mret tt
  end.

Definition udelay (n : nat) (timer_base d : Z) : ST W unit :=
  let delay := u64 (d * get_hz) / 1000000 in
  val ← get_ticks timer_base;
  udelay_loop n timer_base val delay.
End timer.

(** ** wdt.c *)
Definition WDT_CTL : Z := 0.
Definition WDT_CTL_RESET : Z := BIT 20.

Section wdt.
Context {W : Type} `{!Mmio W}.

(** The new [wdt_base]. *)
Definition wdt_disable (r : adt_rodata) (m : mem) (adt lit_wdt lit_reg wdt_base : Z) : ST W Z :=
  '(node, path) ← lift (node_reg r m adt lit_wdt);
  if node <? 0 then mret wdt_base else
  '(err, wdt_base) ← lift (get_base r m adt lit_reg path wdt_base);
  if negb (err =? 0) then mret wdt_base else
  _ ← io_write32 (wdt_base + WDT_CTL) 0;
  mret wdt_base.

Definition wdt_reboot (wdt_base : Z) : ST W unit :=
  if wdt_base =? 0 then mret tt else io_write32 (wdt_base + WDT_CTL) WDT_CTL_RESET.
End wdt.

(** ** clkrstgen.c, clkrstgen.h *)
Definition CLKRSTGEN_PS0 : Z := 0x200.
Definition CLKRSTGEN_PS1 : Z := 0x204.
Definition CLKRSTGEN_PS2 : Z := 0x208.
Definition CLKRSTGEN_PS3 : Z := 0x20c.
Definition CLKRSTGEN_PS4 : Z := 0x210.

(** struct clkrstgen_device, packed. *)
Definition sizeof_clkrstgen_device : Z := 60.
Definition dev_ps (i : Z) : Z := 8 + 4 * i.
Definition dev_name : Z := 40.
Definition dev_id : Z := 59.

(** [clkrstgen_base], [clkrstgen_devices] and [clkrstgen_devices_len]. *)
Record clkrstgen := Clkrstgen {
  clkrstgen_base : Z;
  clkrstgen_devices : Z;
  clkrstgen_devices_len : Z;
}.

Section clkrstgen.
Context {W : Type} `{!Mmio W}.
Implicit Types c : clkrstgen.

Definition clkrstgen_toggle (m : mem) c (dev : Z) (enable : bool) : ST W Z :=
  let toggle reg i := (p ← lift (load_le 4 m (dev + dev_ps i));
    if enable then io_clear32 (clkrstgen_base c + reg) p else io_set32 (clkrstgen_base c + reg) p) in
  _ ← toggle CLKRSTGEN_PS0 0;
  _ ← toggle CLKRSTGEN_PS1 1;
  _ ← toggle CLKRSTGEN_PS2 2;
  _ ← toggle CLKRSTGEN_PS3 3;
  _ ← toggle CLKRSTGEN_PS4 4;
  mret 0.

(** The search for a name, the same in power_on and power_off: [n] devices from
    [dev] on are left. *)
Fixpoint find_name (n : nat) (m : mem) (dev name : Z) : outcome (option Z) :=
  match n with
  | O => Done None
  | S n' =>
      d ← strncmp m (dev + dev_name) name 0x10;
      if d =? 0 then Done (Some dev) else find_name n' m (dev + sizeof_clkrstgen_device) name
  end.

Definition clkrstgen_power_on (m : mem) c (name : Z) : ST W Z :=
  dev ← lift (find_name (Z.to_nat (clkrstgen_devices_len c)) m (clkrstgen_devices c) name);
  match dev with None => mret (-1) | Some dev => clkrstgen_toggle m c dev true end.

Definition clkrstgen_power_off (m : mem) c (name : Z) : ST W Z :=
  dev ← lift (find_name (Z.to_nat (clkrstgen_devices_len c)) m (clkrstgen_devices c) name);
  match dev with None => mret (-1) | Some dev => clkrstgen_toggle m c dev false end.

(** The loop of clkrstgen_find_device. *)
Fixpoint find_id (n : nat) (m : mem) (dev id : Z) : outcome (option Z) :=
  match n with
  | O => Done None
  | S n' =>
      i ← load8 m (dev + dev_id);
      if i =? id then Done (Some dev) else find_id n' m (dev + sizeof_clkrstgen_device) id
  end.
Definition clkrstgen_find_device (m : mem) c (id : Z) : outcome (option Z) :=
  find_id (Z.to_nat (clkrstgen_devices_len c)) m (clkrstgen_devices c) id.

(** The address and the number of the gates of a node. *)
Definition clkrstgen_adt_find_devices (r : adt_rodata) (m : mem) (adt lit_clock_gates path : Z) : outcome (option (Z * Z)) :=
  node_offset ← adt_path_offset r m adt path;
  if node_offset <? 0 then Done None else
  p ← adt_getprop m adt node_offset lit_clock_gates;
  match p with
  | None => Done None
  | Some (devices, n_devices) => if n_devices =? 0 then Done None else Done (Some (devices, n_devices / 4))
  end.

(** The loop over the gates: [n] are left, the next at [devices]. *)
Fixpoint set_mode_loop (n : nat) (m : mem) c (devices ret : Z) (target_mode : bool) : ST W Z :=
  match n with
  | O => mret ret
  | S n' =>
      gate ← lift (load_le 4 m devices);
      let device := Z.land gate 0xff in
      if device =? 0 then set_mode_loop n' m c (devices + 4) ret target_mode else
      clkdev ← lift (clkrstgen_find_device m c device);
      match clkdev with
      | None => set_mode_loop n' m c (devices + 4) (-1) target_mode
      | Some clkdev =>
          err ← clkrstgen_toggle m c clkdev target_mode;
          set_mode_loop n' m c (devices + 4) (if negb (err =? 0) then -1 else ret) target_mode
      end
  end.

Definition clkrstgen_adt_devices_set_mode (r : adt_rodata) (m : mem) (adt lit_clock_gates : Z) c (path : Z)
    (target_mode : bool) : ST W Z :=
  p ← lift (clkrstgen_adt_find_devices r m adt lit_clock_gates path);
  match p with
  | None => mret (-1)
  | Some (devices, n_devices) => set_mode_loop (Z.to_nat n_devices) m c devices 0 target_mode
  end.

Definition clkrstgen_adt_power_enable r m adt lit_clock_gates c path : ST W Z :=
  clkrstgen_adt_devices_set_mode r m adt lit_clock_gates c path true.
Definition clkrstgen_adt_power_disable r m adt lit_clock_gates c path : ST W Z :=
  clkrstgen_adt_devices_set_mode r m adt lit_clock_gates c path false.

(** The result and the new static variables. *)
Definition clkrstgen_init (r : adt_rodata) (m : mem) (adt lit_arm_io lit_clkrstgen lit_device_clocks lit_reg : Z) c
    : ST W (Z * clkrstgen) :=
  node ← lift (adt_path_offset r m adt lit_arm_io);
  if node <? 0 then mret (-1, c) else
  '(offset, path) ← lift (node_reg r m adt lit_clkrstgen);
  if offset <? 0 then mret (-1, c) else
  p ← lift (adt_getprop m adt offset lit_device_clocks);
  match p with
  | None => mret (-1, c)
  | Some (devices_4, len_4) =>
      if len_4 <? 4 then mret (-1, c) else
      '(err, base) ← lift (get_base r m adt lit_reg path (clkrstgen_base c));
      let c := Clkrstgen base (clkrstgen_devices c) (clkrstgen_devices_len c) in
      if err <? 0 then mret (-1, c) else
      let c := Clkrstgen base (devices_4 + 4) ((len_4 - 4) / sizeof_clkrstgen_device) in
      _ ← io_write32 (base + CLKRSTGEN_PS0) 0;
      _ ← io_write32 (base + CLKRSTGEN_PS1) 0;
      _ ← io_write32 (base + CLKRSTGEN_PS2) 0;
      _ ← io_write32 (base + CLKRSTGEN_PS3) 0;
      _ ← io_write32 (base + CLKRSTGEN_PS4) 0;
      mret (0, c)
  end.
End clkrstgen.

(** ** firmware.c *)
Definition IBOOT_VER_COMP : Z := 5.

(** Bytes are skipped while [keep] holds. *)
Fixpoint skip_while (fuel : nat) (keep : Z -> bool) (m : mem) (s : Z) : outcome Z :=
  match fuel with
  | O => Stuck
  | S fuel' => c ← load8 m s; if keep c then skip_while fuel' keep m (s + 1) else Done s
  end.

(** The loop over the components: [n] are left, the next is [out[i]]. *)
Fixpoint parse_version_loop (n : nat) (m : mem) (s out : Z) : outcome mem :=
  match n with
  | O => Done m
  | S n' =>
      s ← skip_while (str_fuel m) (fun c => negb (c =? 0) && negb (is_digit c)) m s;
      c ← load8 m s;
      if c =? 0 then Done m else
      v ← atol m s;
      m ← store_le 4 m out (u32 v);
      s ← skip_while (str_fuel m) is_digit m s;
      parse_version_loop n' m s (out + 4)
  end.

Definition firmware_parse_version (m : mem) (s out : Z) : outcome mem :=
  '(_, m) ← memset m out 0 (4 * IBOOT_VER_COMP);
  parse_version_loop (Z.to_nat IBOOT_VER_COMP) m s out.

(** [info] is the version and the addresses of its two strings; the table has
    the one entry V_UNKNOWN, whose strings are at [lit_unknown]. *)
Record fw_version_info := FwVersion { fw_version : Z; fw_string : Z; fw_iboot : Z }.

Definition fw_unknown (lit_unknown : Z) : fw_version_info := FwVersion 0 lit_unknown lit_unknown.

Definition detect_firmware (m : mem) (lit_unknown ver : Z) : outcome fw_version_info :=
  d ← strcmp m (fw_iboot (fw_unknown lit_unknown)) ver;
  if d =? 0 then Done (fw_unknown lit_unknown)
  else Done (FwVersion 0 lit_unknown ver).

(** Where the versions differ first, from component [i] on; [n] are left. *)
Fixpoint first_difference (n : nat) (a b : list Z) (i : Z) : outcome Z :=
  match n with
  | O => Done i
  | S n' =>
      x ← znth a i; y ← znth b i;
      if negb (x =? y) then Done i else first_difference n' a b (i + 1)
  end.

Definition firmware_iboot_in_range (min max this : list Z) : outcome bool :=
  i ← first_difference (Z.to_nat IBOOT_VER_COMP) this min 0;
  t ← znth this i; lo ← znth min i;
  if t <? lo then Done false else
  i ← first_difference (Z.to_nat IBOOT_VER_COMP) this max 0;
  t ← znth this i; hi ← znth max i;
  Done (t <? hi).

(** The result and the new [os_firmware] and [system_firmware]. *)
Definition firmware_init (r : adt_rodata) (m : mem) (adt lit_chosen lit_firmware_version lit_unknown : Z)
    (os system : fw_version_info) : outcome (Z * fw_version_info * fw_version_info) :=
  node ← adt_path_offset r m adt lit_chosen;
  if node <? 0 then Done (-1, os, system) else
  p ← adt_getprop m adt node lit_firmware_version;
  match p with
  | None => Done (-1, os, system)
  | Some (p, len) =>
      if len =? 0 then Done (-1, os, system) else
      last ← load8 m (p + len - 1);
      if negb (last =? 0) then Done (-1, os, system) else
      os ← detect_firmware m lit_unknown p;
      system ← detect_firmware m lit_unknown p;
      Done (0, os, system)
  end.

(** ** The timer counts *)

(** What the driver relies on: the registers are the halves of a counter that
    goes on, by at most [D] ticks during a read. *)
Class TimerLaws (W : Type) `{!Mmio W} (base D : Z) : Type := {
  ticks : W -> Z;
  tl_nonneg w : 0 <= ticks w;
  tl_hi w : let '(v, w') := reg_read (base + TIMER_64_HI) w in
    u32 v = (ticks w / 2 ^ 32) mod 2 ^ 32 /\ ticks w < ticks w' <= ticks w + D;
  tl_lo w : let '(v, w') := reg_read (base + TIMER_64_LO) w in
    u32 v = ticks w mod 2 ^ 32 /\ ticks w < ticks w' <= ticks w + D;
}.

Section ticks.
Context {W : Type} `{!Mmio W} (base D : Z) `{!TimerLaws W base D}.
Context (Hbase : 0 < base) (Hend : base + TIMER_64_CTL < 2 ^ 32).
Implicit Types w : W.

(** Without a carry between the two reads the time is that of the second. *)
Lemma run_get_ticks w : ticks w mod 2 ^ 32 + D < 2 ^ 32 ->
  exists t w', get_ticks base w = Done (t mod 2 ^ 64, w') /\ t / 2 ^ 32 = ticks w / 2 ^ 32 /\
    ticks w < t <= ticks w + D /\ t < ticks w' <= t + D.
Proof using Type*.
  intros Hd. unfold TIMER_64_CTL in Hend. unfold get_ticks. replace (base =? 0) with false by lia. unfold io_read32.
  rewrite !u32_small by (unfold TIMER_64_HI, TIMER_64_LO; lia).
  pose proof (tl_nonneg w). pose proof (tl_hi w) as H1. destruct (reg_read (base + TIMER_64_HI) w) as [hi w1] eqn:E1. destruct H1 as [Hhi H1].
  pose proof (tl_lo w1) as H2. destruct (reg_read (base + TIMER_64_LO) w1) as [lo w2] eqn:E2. destruct H2 as [Hlo H2].
  exists (ticks w1), w2. assert (ticks w1 / 2 ^ 32 = ticks w / 2 ^ 32) as Hq by lia. split; [|split; [done|lia]].
  unfold mbind, ST_bind. rewrite E1. cbn. rewrite E2. cbn. unfold mret, ST_ret. do 2 f_equal. rewrite Hhi, Hlo.
  rewrite Z.shiftl_mul_pow2 by lia. unfold u64, wrap. rewrite Z.mod_small by lia.
  rewrite Z.lor_comm, Z.mul_comm, lor_disjoint by lia. lia.
Qed.

(** Between [t0], the first time read, and the end of the delay. *)
Lemma run_udelay_loop n t0 delay w :
  t0 < ticks w -> ticks w <= t0 + delay + D -> 0 <= t0 -> 0 <= delay -> t0 mod 2 ^ 32 + delay + 2 * D < 2 ^ 32 ->
  t0 + delay - ticks w < Z.of_nat n -> (0 < n)%nat ->
  exists w', udelay_loop n base (t0 mod 2 ^ 64) delay w = Done (tt, w') /\ t0 + delay < ticks w' <= t0 + delay + 3 * D.
Proof using Type*.
  intros H0 Hd Ht Hdelay Hwin Hn Hpos. revert w H0 Hd Hn Hpos. induction n as [|n IH]; intros w H0 Hd Hn Hpos; [lia|]. cbn [udelay_loop].
  destruct (run_get_ticks w) as (t & w1 & R & Hq & H1 & H2); [lia|]. erewrite run_bind by exact R.
  assert (u64 (t mod 2 ^ 64 - t0 mod 2 ^ 64) = t - t0) as ->.
  { unfold u64, wrap. rewrite <- Zminus_mod. apply Z.mod_small. lia. }
  case_if; b2p; [|exists w1; split; [done|lia]].
  destruct (IH w1) as (w2 & R2 & H3); [lia|lia|lia|lia|]. by exists w2.
Qed.

(** A delay: it ends, and how long it takes. *)
Lemma run_udelay n d w : 0 <= d < 2 ^ 32 -> ticks w mod 2 ^ 32 + 24 * d + 3 * D < 2 ^ 32 -> 24 * d < Z.of_nat n ->
  exists w', udelay n base d w = Done (tt, w') /\ ticks w + 24 * d < ticks w' <= ticks w + 24 * d + 4 * D.
Proof using Type*.
  intros Hd Hwin Hn. unfold udelay. unfold get_hz, TIMER_FREQ.
  assert (u64 (d * 24000000) / 1000000 = 24 * d) as ->.
  { unfold u64, wrap. rewrite Z.mod_small by lia. replace (d * 24000000) with (24 * d * 1000000) by lia. by rewrite Z.div_mul. }
  pose proof (tl_nonneg w). destruct (run_get_ticks w) as (t & w1 & R & Hq & H1 & H2); [lia|].
  erewrite run_bind by exact R. destruct (run_udelay_loop n t (24 * d) w1) as (w2 & R2 & H3); try lia.
  exists w2. split; [exact R2|lia].
Qed.
End ticks.

(** C29: When the low half of the counter does not overflow meanwhile, [udelay]
    ends and waits for [d] microseconds at least, and for the duration of four
    reads more at most.  More rounds than the delay has ticks are enough. *)
Theorem udelay_waits (W : Type) `{!Mmio W} (base D : Z) `{!TimerLaws W base D} (n : nat) (d : Z) (w : W) :
  0 < base -> base + TIMER_64_CTL < 2 ^ 32 -> 0 <= d < 2 ^ 32 -> ticks w mod 2 ^ 32 + 24 * d + 3 * D < 2 ^ 32 ->
  24 * d < Z.of_nat n ->
  exists w', udelay n base d w = Done (tt, w') /\ ticks w + 24 * d < ticks w' <= ticks w + 24 * d + 4 * D.
Proof.
  intros Hbase Hend. by apply run_udelay.
Qed.

(** *** A timer of five ticks per read *)
#[export] Instance demo_timer_mmio : Mmio N := {|
  reg_read a w :=
    (if a =? 0x1000 + TIMER_64_HI then Z.of_N w / 2 ^ 32 else Z.of_N w, (w + 5)%N);
  reg_write _ _ w := w;
|}.

#[export] Program Instance demo_timer_laws : TimerLaws N 0x1000 5 := {| ticks := Z.of_N |}.
Next Obligation. intros w. lia. Qed.
Next Obligation. intros w. cbn. split; [done|lia]. Qed.
Next Obligation. intros w. cbn. split; [done|lia]. Qed.

Lemma udelay_waits_witness :
  exists w', udelay 500 0x1000 20 (2 ^ 33 + 7)%N = Done (tt, w') /\ ticks (2 ^ 33 + 7)%N + 24 * 20 < ticks w' <= ticks (2 ^ 33 + 7)%N + 24 * 20 + 4 * 5.
Proof. apply (udelay_waits N 0x1000 5 500 20 (2 ^ 33 + 7)%N); [lia|reflexivity|lia|reflexivity|lia]. Defined.

(** With the overflow between the two reads the time goes back, and the delay is
    over at once: 20 ticks instead of 24000. *)
Example udelay_ends_early : udelay 9 0x1000 1000 (2 ^ 32 - 3)%N = Done (tt, (2 ^ 32 - 3 + 20)%N).
Proof. vm_compute. reflexivity. Qed.
