(* ===== verification/Startup.v ===== *)
(** * Start (src/startup.c, main.c)

    [apply_rela], called by start.S before anything else, adds the load address
    to the words that the relocation table names.  [mini_start] saves the boot
    arguments and moves the vendor's tree to the top of memory.  main.c mends
    the serial number in the tree and looks for the payload. *)
From S2P Require Import Prelude Machine CString MemUtils Alloc Adt Vsprintf.

(** ** Relocation *)
Definition R_ARM_RELATIVE : Z := 23.

(** The rounds while [e < rela_end]; another type of entry hangs the machine. *)
Fixpoint apply_rela_loop (n : nat) (m : mem) (base e rela_end : Z) : outcome mem :=
  match n with
  | O => Stuck
  | S n' =>
      if e <? rela_end then
        info ← load_le 4 m (e + 4);
        if u8 (Z.land info 0xff) =? R_ARM_RELATIVE then
          off ← load_le 4 m e;
          v ← c_read 4 m (u32 (base + off));
          m ← c_write 4 m (u32 (base + off)) (u32 (v + base));
          apply_rela_loop n' m base (e + 8) rela_end
        else Stuck
      else Done m
  end.

Definition apply_rela (m : mem) (base rela_start rela_end : Z) : outcome mem :=
  apply_rela_loop (S (Z.to_nat ((rela_end - rela_start + 7) / 8))) m base rela_start rela_end.

(** ** xnuboot.h: struct boot_args, packed *)
Definition ba_virt_base : Z := 4.
Definition ba_phys_base : Z := 8.
Definition ba_mem_size : Z := 12.
Definition ba_video_base : Z := 20.
Definition ba_video_stride : Z := 28.
Definition ba_video_height : Z := 36.
Definition ba_devtree : Z := 48.
Definition ba_devtree_size : Z := 52.
Definition sizeof_boot_args : Z := 316.

(** ** startup.c: mini_start up to the set-up of the UART

    [cur] is the address of [cur_boot_args]; top_of_memory_alloc changes its field
    [mem_size].  The result is [adt]. *)
Definition mini_start (m : mem) (boot_args cur : Z) (guard : bool) : outcome (Z * top_mem * mem) :=
  '(_, m) ← memcpy m cur boot_args sizeof_boot_args;
  video_base ← load_le 4 m (cur + ba_video_base);
  stride ← load_le 4 m (cur + ba_video_stride);
  height ← load_le 4 m (cur + ba_video_height);
  phys_base ← load_le 4 m (cur + ba_phys_base);
  m ← store_le 4 m (cur + ba_mem_size) (u32 (video_base + stride * height - phys_base));
  mem_size ← load_le 4 m (cur + ba_mem_size);
  devtree_size ← load_le 4 m (cur + ba_devtree_size);
  let '(adt_new, top) := top_of_memory_alloc devtree_size (Top phys_base mem_size guard) in
  m ← store_le 4 m (cur + ba_mem_size) (Alloc.mem_size top);
  devtree ← load_le 4 m (cur + ba_devtree);
  virt_base ← load_le 4 m (cur + ba_virt_base);
  '(_, m) ← memcpy m adt_new (u32 (devtree - virt_base + phys_base)) devtree_size;
  Done (adt_new, top, m).

(** ** main.c *)

(** Where the string literals, the two variables and the local buffer are. *)
Record main_rodata := MainRodata {
  lit_chosen : Z;           (* "/chosen" *)
  lit_memory_map : Z;       (* "/chosen/memory-map" *)
  lit_board_id : Z;         (* "board-id" *)
  lit_chip_id : Z;          (* "chip-id" *)
  lit_serial_number : Z;    (* "serial-number" *)
  lit_unique_chip_id : Z;   (* "unique-chip-id" *)
  lit_serial_format : Z;    (* "%X%X" *)
  lit_ramdisk : Z;          (* "RAMDisk" *)
  lit_null : Z;             (* what vsprintf.c prints for NULL *)
  lit_nil : Z;
}.

Section main.
Context (r : adt_rodata) (l : main_rodata) (adt : Z).

(** The serial number, when it is empty, becomes the two words of the chip id in
    hexadecimal. *)
Definition fix_serial (m : mem) (chosen new_serial : Z) : outcome mem :=
  serial ← adt_getprop m adt 0 (lit_serial_number l);
  match serial with
  | None => Done m
  | Some (serial, serial_len) =>
      c ← load8 m serial;
      if negb ((c =? 0) && (serial_len =? 32)) then Done m else
      ecid ← adt_getprop m adt chosen (lit_unique_chip_id l);
      match ecid with
      | None => Done m
      | Some (ecid, ecid_len) =>
          if negb (ecid_len =? 8) then Done m else
          hi ← load_le 4 m (ecid + 4);
          lo ← load_le 4 m ecid;
          '(_, m) ← vsnprintf (lit_null l) (lit_nil l) m new_serial 32 (lit_serial_format l) [A32 hi; A32 lo];
          '(_, m) ← adt_setprop m adt 0 (lit_serial_number l) new_serial 32;
          Done m
      end
  end.

Definition get_device_info (m : mem) (board_id chip_id new_serial : Z) : outcome mem :=
  chosen ← adt_path_offset r m adt (lit_chosen l);
  if negb (0 <? chosen) then Done m else
  '(_, m) ← adt_getprop_copy m adt chosen (lit_board_id l) board_id 4;
  '(_, m) ← adt_getprop_copy m adt chosen (lit_chip_id l) chip_id 4;
  fix_serial m chosen new_serial.

(** [ADT_GETPROP_ARRAY(adt, anode, "RAMDisk", ramdisk)] on the local array. *)
Definition ramdisk_property (m : mem) (anode : Z) : outcome (option (Z * Z)) :=
  p ← adt_getprop m adt anode (lit_ramdisk l);
  match p with
  | None => Done None
  | Some (prop, len) =>
      if negb (len =? 8) then Done None else
      start ← load_le 4 m prop;
      size ← load_le 4 m (prop + 4);
      Done (Some (start, size))
  end.

(** The rest of the program is a state with the memory, and these calls. *)
Definition run_actions {S : Type} (mem_of : S -> mem) (payload_run : Z -> Z -> ST S Z)
    (usb_init usb_iodev_init uartproxy_run : ST S unit) : ST S unit :=
  let run_proxy := (_ ← usb_init; _ ← usb_iodev_init; uartproxy_run) in
  anode ← (fun s => a ← adt_path_offset r (mem_of s) adt (lit_memory_map l); Done (a, s));
  if anode <? 0 then run_proxy else
  p ← (fun s => p ← ramdisk_property (mem_of s) anode; Done (p, s));
  match p with
  | None => run_proxy
  | Some (start, size) =>
      ret ← payload_run start (u32 (start + size));
      if ret =? 0 then mret tt else run_proxy
  end.
End main.

(** ** Relocation, specified *)

(** An entry names the word at [base + off]. *)
Definition rela_bytes (e : Z * Z) : list Z := le_bytes 4 (fst e) ++ le_bytes 4 (snd e).
Definition rela_word (base : Z) (e : Z * Z) : Z := u32 (base + fst e).

(** An entry of the one type that is known, for an aligned word that is backed by
    memory and not part of the table at [a], [n] bytes long. *)
Record rela_ok (m : mem) (base a n : Z) (e : Z * Z) : Prop := {
  rl_off : 0 <= fst e < 2 ^ 32;
  rl_info : 0 <= snd e < 2 ^ 32 /\ snd e mod 256 = R_ARM_RELATIVE;
  rl_aligned : rela_word base e mod 4 = 0;
  rl_word : region m (rela_word base e) 4;
  rl_apart : rela_word base e + 4 <= a \/ a + n <= rela_word base e;
}.

Lemma load_le_ext n m m' a : (forall i, 0 <= i < Z.of_nat n -> m !! u32 (a + i) = m' !! u32 (a + i)) -> load_le n m a = load_le n m' a.
Proof.
  revert a. induction n as [|n IH]; intros a Hm; [done|]. cbn [load_le]. unfold load8.
  rewrite <- (Z.add_0_r a) at 1. rewrite (Hm 0), Z.add_0_r by lia. destruct (of_option (m' !! u32 a)); cbn; [|done..].
  rewrite (IH (a + 1)); [done|]. intros i Hi. rewrite <- Z.add_assoc. apply Hm. lia.
Qed.

Lemma region_load_le n m a : region m a (Z.of_nat n) -> exists v, load_le n m a = Done v.
Proof.
  intros (old & Hl & H). exists (le_value old). replace n with (length old) by (unfold zlen in Hl; lia). by apply load_le_bytes_at.
Qed.

(** Aligned words are the same or apart. *)
Lemma aligned_apart p q : p mod 4 = 0 -> q mod 4 = 0 -> p <> q -> p + 4 <= q \/ q + 4 <= p.
Proof. lia. Qed.

(** What the relocation of the words [ps] by [base] makes of the memory. *)
Definition relocated (base : Z) (ps : list Z) (m m' : mem) : Prop :=
  (forall p v, p ∈ ps -> load_le 4 m p = Done v -> load_le 4 m' p = Done (u32 (v + base))) /\
  (forall k, (forall p, p ∈ ps -> k < p \/ p + 4 <= k) -> m' !! k = m !! k).

Section relocate.
Context (base : Z).
#[local] Abbreviation words es := (map (rela_word base) es).

Lemma rela_ok_write m a n e p bs : rela_ok m base a n e -> rela_ok (write_bytes m p bs) base a n e.
Proof. intros []. split; try done. by apply region_write. Qed.

Lemma relocated_cons p ps m v m' :
  load_le 4 m p = Done v -> region m p 4 -> 0 <= p -> p + 4 <= 2 ^ 32 -> Forall (fun q => p + 4 <= q \/ q + 4 <= p) ps ->
  Forall (fun q => region m q 4) ps ->
  relocated base ps (write_bytes m p (le_bytes 4 (u32 (v + base)))) m' -> relocated base (p :: ps) m m'.
Proof.
  intros Hv Hp Hp0 Hp4 Hapart Hreg [Hwords Hrest]. rewrite Forall_forall in Hapart, Hreg. split.
  - intros q w [->|Hq]%elem_of_cons Hw.
    + rewrite Hv in Hw. injection Hw as <-.
      rewrite (load_le_ext 4 m' (write_bytes m p (le_bytes 4 (u32 (v + base))))).
      * apply load_le_le_bytes; [by apply bytes_at_write_eq; rewrite ?zlen_le_bytes|].
        pose proof (wrap_range 32 (v + base)). unfold u32. change (8 * Z.of_nat 4) with 32. lia.
      * intros i Hi. rewrite u32_small by lia. apply Hrest. intros q Hq. specialize (Hapart q). destruct (Hapart Hq); lia.
    + apply Hwords; [done|]. rewrite <- Hw. apply load_le_ext. intros i Hi.
      destruct (region_lookup m q 4 (q + i) (Hreg q Hq)) as [_ ?]; [lia|]. rewrite u32_small by lia.
      rewrite lookup_write_bytes, zlen_le_bytes. specialize (Hapart q). destruct (Hapart Hq); bdec; done.
  - intros k Hk. rewrite Hrest by (intros q Hq; apply Hk, elem_of_cons; by right).
    rewrite lookup_write_bytes, zlen_le_bytes. destruct (Hk p); [by apply elem_of_cons; left|bdec; done..].
Qed.

Lemma run_apply_rela n m e es :
  bytes_at m e (flat_map rela_bytes es) -> 0 <= e -> e + 8 * zlen es <= 2 ^ 32 ->
  Forall (rela_ok m base e (8 * zlen es)) es -> NoDup (words es) -> (length es < n)%nat ->
  exists m', apply_rela_loop n m base e (e + 8 * zlen es) = Done m' /\ relocated base (words es) m m'.
Proof.
  revert n m e. induction es as [|[off info] es IH]; intros n m e Hb He Hend Hok Hnd Hn;
    (destruct n as [|n]; [cbn in Hn; lia|]); cbn [apply_rela_loop].
  - change (zlen (@nil (Z * Z))) with 0. bdec. exists m. split; [done|]. split; [|done]. intros p v Hp. by apply elem_of_nil in Hp.
  - pose proof (zlen_nonneg es). rewrite zlen_cons in *. cbn [length flat_map map] in *. bdec.
    pose proof (Forall_inv Hok) as [Ho [Hi Hi'] Hal Hreg Hap]. cbn [fst snd] in *.
    unfold rela_bytes at 1 in Hb. cbn [fst snd] in Hb. rewrite <- app_assoc in Hb.
    apply bytes_at_app in Hb as [Hb1 Hb]. apply bytes_at_app in Hb as [Hb2 Hb]. rewrite !zlen_le_bytes in *.
    change (Z.of_nat 4) with 4 in *. change (Z.of_nat 4) with 4 in Hb.
    rewrite (load_le_le_bytes 4 m (e + 4) info Hb2), bind_Done by done.
    assert ((u8 (Z.land info 0xff) =? R_ARM_RELATIVE) = true) as ->.
    { change 0xff with (Z.ones 8). rewrite Z.land_ones by lia. unfold u8, wrap. change (2 ^ 8) with 256. rewrite Z.mod_mod by lia. by rewrite Hi'. }
    rewrite (load_le_le_bytes 4 m e off Hb1), bind_Done by done.
    change (u32 (base + off)) with (rela_word base (off, info)). set (p := rela_word base (off, info)) in *.
    destruct (region_load_le 4 m p Hreg) as [v Hv]. unfold c_read, c_write. change (Z.of_nat 4) with 4. rewrite Hal, Z.eqb_refl, Hv, bind_Done.
    rewrite store_le_spec, bind_Done by done.
    destruct (region_lookup m p 4 p Hreg) as [_ ?]; [lia|]. destruct (region_lookup m p 4 (p + 3) Hreg) as [_ ?]; [lia|].
    apply NoDup_cons in Hnd as [Hnin Hnd]. pose proof (Forall_inv_tail Hok) as Hoks.
    destruct (IH n (write_bytes m p (le_bytes 4 (u32 (v + base)))) (e + 8)) as (m' & R & Hm'); [|lia|lia| |done|lia|].
    + replace (e + 8) with (e + 4 + 4) by lia. apply bytes_at_write_disj; [|done]. rewrite zlen_le_bytes.
      assert (zlen (flat_map rela_bytes es) = 8 * zlen es) as -> by (clear; induction es as [|[]]; [done|]; cbn [flat_map]; rewrite zlen_app, zlen_cons, IHes; unfold rela_bytes; rewrite zlen_app, !zlen_le_bytes; cbn [fst]; lia). lia.
    + eapply Forall_impl; [exact Hoks|]. intros x Hx. apply rela_ok_write. destruct Hx. split; try done. lia.
    + exists m'. split; [rewrite <- R; f_equal; lia|]. eapply relocated_cons; [exact Hv|done|lia|lia| | |exact Hm'].
      * apply Forall_map. rewrite Forall_forall in Hoks |- *. intros x Hx. destruct (Hoks x Hx). apply aligned_apart; try done.
        intros ->. apply Hnin, list_elem_of_fmap. by exists x.
      * apply Forall_map. eapply Forall_impl; [exact Hoks|]. by intros x [].
Qed.
End relocate.

(** C27: The relocation of the image: every word that the table names has the load
    address added, once, and nothing else in memory changes; the loop ends at the
    end of the table. *)
Theorem apply_rela_relocates (m : mem) (base start : Z) (es : list (Z * Z)) :
  bytes_at m start (flat_map rela_bytes es) -> 0 <= start -> start + 8 * zlen es <= 2 ^ 32 ->
  Forall (rela_ok m base start (8 * zlen es)) es -> NoDup (map (rela_word base) es) ->
  exists m', apply_rela m base start (start + 8 * zlen es) = Done m' /\ relocated base (map (rela_word base) es) m m'.
Proof.
  intros Hb Hs Hend Hok Hnd. unfold apply_rela. apply run_apply_rela; try done. unfold zlen. lia.
Qed.

Definition demo_rela : list (Z * Z) := [(0x10, 23); (0x18, 0x117)].
Definition demo_rela_mem : mem :=
  write_bytes (write_bytes ∅ 0x8010 [1; 2; 0; 0; 9; 9; 9; 9; 0; 0; 0; 255]) 0x8100 (flat_map rela_bytes demo_rela).

Lemma apply_rela_relocates_witness :
  exists m', apply_rela demo_rela_mem 0x8000 0x8100 0x8110 = Done m' /\
    load_le 4 m' 0x8010 = Done 0x8201 /\ load_le 4 m' 0x8014 = Done 0x09090909 /\ load_le 4 m' 0x8018 = Done 0xff008000.
Proof.
  destruct (apply_rela_relocates demo_rela_mem 0x8000 0x8100 demo_rela) as (m' & R & Hw & Hr).
  - vm_compute. repeat split; congruence.
  - lia.
  - vm_compute. congruence.
  - constructor; [|constructor; [|constructor]].
    + split; [cbn; lia|split; [cbn; lia|reflexivity]|reflexivity| |left; vm_compute; congruence].
      exists [1; 2; 0; 0]. split; [done|]. vm_compute. repeat split; congruence.
    + split; [cbn; lia|split; [cbn; lia|reflexivity]|reflexivity| |left; vm_compute; congruence].
      exists [0; 0; 0; 255]. split; [done|]. vm_compute. repeat split; congruence.
  - apply (bool_decide_unpack _). vm_compute. reflexivity.
  - assert (map (rela_word 0x8000) demo_rela = [0x8010; 0x8018]) as Hws by (vm_compute; reflexivity). rewrite Hws in Hw, Hr.
    exists m'. split; [exact R|]. split; [|split].
    + rewrite (Hw 0x8010 0x201); [vm_compute; reflexivity|apply elem_of_cons; left; reflexivity|vm_compute; reflexivity].
    + rewrite (load_le_ext 4 m' demo_rela_mem); [vm_compute; reflexivity|]. intros i Hi. rewrite u32_small by lia. apply Hr.
      intros p [->|[->|[]%elem_of_nil]%elem_of_cons]%elem_of_cons; clear - Hi; lia.
    + rewrite (Hw 0x8018 0xff000000); [vm_compute; reflexivity|apply elem_of_cons; right; apply elem_of_cons; left; reflexivity|vm_compute; reflexivity].
Defined.

(** ** The boot arguments and the tree *)

(** A word of a packed structure. *)
Definition arg_word (args : list Z) (i : Z) : Z := le_value (take 4 (drop (Z.to_nat i) args)).

Lemma arg_word_nonneg args i : are_bytes args -> 0 <= arg_word args i.
Proof. intros H. apply le_value_range, Forall_take, Forall_drop, H. Qed.

Lemma load_word m a args i : bytes_at m a args -> 0 <= i -> i + 4 <= zlen args -> load_le 4 m (a + i) = Done (arg_word args i).
Proof.
  intros Hb Hi Hl. unfold zlen in Hl. rewrite <- (take_drop (Z.to_nat i) args) in Hb. apply bytes_at_app in Hb as [_ Hb].
  rewrite <- (take_drop 4 (drop (Z.to_nat i) args)) in Hb. apply bytes_at_app in Hb as [Hb _].
  replace (a + zlen (take (Z.to_nat i) args)) with (a + i) in Hb by (unfold zlen; rewrite length_take; lia).
  unfold arg_word. rewrite <- (load_le_bytes_at m (a + i)) by done. f_equal. rewrite length_take, length_drop. lia.
Qed.

(** A word that is written does not change the others. *)
Lemma load_le_write m a i j v : 0 <= a -> a + i + 4 <= 2 ^ 32 -> 0 <= i -> i + 4 <= j \/ j + 4 <= i ->
  load_le 4 (write_bytes m (a + j) (le_bytes 4 v)) (a + i) = load_le 4 m (a + i).
Proof.
  intros. apply load_le_ext. intros k Hk. rewrite u32_small by lia. rewrite lookup_write_bytes, zlen_le_bytes.
  destruct (decide (i + 4 <= j)); bdec; done.
Qed.

Lemma load_le_written m a j v : 0 <= a + j -> a + j + 4 <= 2 ^ 32 -> 0 <= v < 2 ^ 32 ->
  load_le 4 (write_bytes m (a + j) (le_bytes 4 v)) (a + j) = Done v.
Proof. intros. apply load_le_le_bytes; [by apply bytes_at_write_eq; rewrite ?zlen_le_bytes|done]. Qed.

(** What mini_start computes from the boot arguments: where the tree is, how long
    it is, the size of the memory below the frame buffer's end, and where the
    tree goes. *)
Definition tree_source (args : list Z) : Z :=
  u32 (arg_word args ba_devtree - arg_word args ba_virt_base + arg_word args ba_phys_base).
Definition args_ram_size (args : list Z) : Z :=
  u32 (arg_word args ba_video_base + arg_word args ba_video_stride * arg_word args ba_video_height - arg_word args ba_phys_base).
Definition ram_top (args : list Z) : top_mem := Top (arg_word args ba_phys_base) (args_ram_size args) false.
Definition tree_target (args : list Z) : Z := fst (top_of_memory_alloc (arg_word args ba_devtree_size) (ram_top args)).

(** The run, with the allocator's own results. *)
Lemma mini_start_runs (m : mem) (boot_args cur : Z) (args data : list Z) (t : adt_tree) :
  are_bytes args -> zlen args = sizeof_boot_args -> bytes_at m boot_args args -> region m cur sizeof_boot_args ->
  0 <= cur -> cur + sizeof_boot_args <= 2 ^ 32 -> cur <= boot_args \/ boot_args + sizeof_boot_args <= cur ->
  let size := arg_word args ba_devtree_size in
  let src := tree_source args in let dst := tree_target args in
  are_bytes data -> zlen data = size -> bytes_at m src data -> flatten t `prefix_of` data -> tree_at m src 0 t ->
  region m dst size -> 0 < dst -> dst + size <= 2 ^ 32 -> dst <= src \/ src + size <= dst ->
  src + size <= cur \/ cur + sizeof_boot_args <= src ->
  dst + size <= cur \/ cur + sizeof_boot_args <= dst ->
  exists top m', mini_start m boot_args cur false = Done (dst, top, m') /\
    top = snd (top_of_memory_alloc size (ram_top args)) /\ tree_at m' dst 0 t /\
    load_le 4 m' (cur + ba_mem_size) = Done (Alloc.mem_size top) /\
    (forall i, 0 <= i -> i + 4 <= sizeof_boot_args -> i + 4 <= ba_mem_size \/ ba_mem_size + 4 <= i ->
       load_le 4 m' (cur + i) = Done (arg_word args i)).
Proof.
  intros Hargs Hlen Hboot Hcur Hc0 Hc1 Hcb size src dst Hdata Hsize Hsrc Hpre Ht Hdst Hd0 Hd1 Hds Hsc Hdc.
  unfold sizeof_boot_args in *. unfold mini_start, sizeof_boot_args.
  rewrite (memcpy_spec args), bind_Done by (done || lia). set (m1 := write_bytes m cur args).
  assert (bytes_at m1 cur args) as H1 by (apply bytes_at_write_eq; lia).
  assert (forall i, 0 <= i -> i + 4 <= 316 -> load_le 4 m1 (cur + i) = Done (arg_word args i)) as Hw by (intros; apply load_word; done || lia).
  assert (region m1 cur 316) as Hr1 by (by apply region_write).
  unfold ba_virt_base, ba_phys_base, ba_mem_size, ba_video_base, ba_video_stride, ba_video_height, ba_devtree, ba_devtree_size in *.
  rewrite !Hw by lia. rewrite !bind_Done. change (u32 (arg_word args 20 + arg_word args 28 * arg_word args 36 - arg_word args 8)) with (args_ram_size args).
  rewrite store_le_spec, bind_Done by (eapply region_sub; [exact Hr1|lia..]). set (m2 := write_bytes m1 (cur + 12) _).
  assert (0 <= args_ram_size args < 2 ^ 32) as Hram by (pose proof (wrap_range 32 (arg_word args 20 + arg_word args 28 * arg_word args 36 - arg_word args 8)); unfold args_ram_size, u32, ba_video_base, ba_video_stride, ba_video_height, ba_phys_base; lia).
  assert (load_le 4 m2 (cur + 12) = Done (args_ram_size args)) as -> by (unfold m2; apply load_le_written; lia).
  assert (load_le 4 m2 (cur + 52) = Done size) as -> by (unfold m2; rewrite load_le_write, Hw by lia; done).
  rewrite !bind_Done. change (Top (arg_word args 8) (args_ram_size args) false) with (ram_top args).
  destruct (top_of_memory_alloc size (ram_top args)) as [dst' top] eqn:Htop.
  assert (dst' = dst) as -> by (unfold dst, tree_target, ba_devtree_size; fold size; by rewrite Htop).
  rewrite store_le_spec, bind_Done by (eapply region_sub; [apply region_write; exact Hr1|lia..]). set (m3 := write_bytes m2 (cur + 12) _).
  assert (forall i, 0 <= i -> i + 4 <= 316 -> i + 4 <= 12 \/ 16 <= i -> load_le 4 m3 (cur + i) = Done (arg_word args i)) as Hw3.
  { intros i Hi0 Hi1 Hi2. unfold m3, m2. rewrite !load_le_write by lia. by apply Hw. }
  rewrite !Hw3 by lia. rewrite !bind_Done. change (u32 (arg_word args 48 - arg_word args 4 + arg_word args 8)) with src.
  assert (bytes_at m3 src data) as Hs3 by (unfold m3, m2, m1; repeat apply bytes_at_write_disj; rewrite ?zlen_le_bytes; done || lia).
  rewrite (memcpy_spec data), bind_Done by (done || lia || by (unfold m3, m2, m1; repeat apply region_write)).
  assert (0 <= Alloc.mem_size top < 2 ^ 32) as Hms.
  { apply (f_equal snd) in Htop. cbn in Htop. rewrite <- Htop. apply (wrap_range 32). lia. }
  set (m4 := write_bytes m3 dst data).
  assert (forall i, 0 <= i -> i + 4 <= 316 -> load_le 4 m4 (cur + i) = load_le 4 m3 (cur + i)) as Hw4.
  { intros i Hi0 Hi1. pose proof (zlen_nonneg data). apply load_le_ext. intros k Hk. rewrite u32_small by lia. unfold m4. rewrite lookup_write_bytes. destruct Hdc; bdec; done. }
  exists top, m4. split; [done|]. split; [done|]. split; [|split].
  - destruct Ht as (Hok & _ & _ & Hl & _ & _). destruct Hpre as [pad ->]. rewrite zlen_app in Hsize. pose proof (zlen_nonneg pad).
    split; [done|]. split; [done|]. split; [done|]. split; [done|]. split; [lia|]. rewrite Z.add_0_r.
    assert (bytes_at m4 dst (flatten t ++ pad)) as H4 by (apply bytes_at_write_eq; rewrite ?zlen_app; lia).
    by apply bytes_at_app in H4 as [H4 _].
  - rewrite Hw4 by lia. unfold m3. by apply load_le_written; lia.
  - intros i Hi0 Hi1 Hi2. rewrite Hw4 by lia. by apply Hw3.
Qed.

(** The first allocation from the top of memory, in numbers. *)
Lemma first_top_alloc phys ram size :
  0 <= phys -> phys + ram < 2 ^ 32 -> 0 <= size -> (size + 4095) / 4096 * 4096 + 4096 <= ram ->
  top_of_memory_alloc size (Top phys ram false) =
    (phys + ram - (size + 4095) / 4096 * 4096, Top phys (ram - (size + 4095) / 4096 * 4096 - 4096) true).
Proof.
  intros H H0 H1 H2. unfold top_of_memory_alloc. cbn [negb guard_page_inserted Alloc.mem_size phys_base].
  rewrite ALIGN_UP_page by (unfold PAGE_SIZE; lia). unfold page_up, PAGE_SIZE.
  replace (size + 4096 - 1) with (size + 4095) by lia. rewrite (Z.mul_comm 4096).
  assert (0 <= (size + 4095) / 4096 * 4096) as Hp by lia. revert Hp H2. generalize ((size + 4095) / 4096 * 4096). intros p Hp H2.
  rewrite (u32_small (ram - p)), !u32_small by lia. do 2 f_equal; lia.
Qed.

(** C28: The vendor's tree survives the start.  RAM is taken to end where the
    frame buffer does; the tree is copied to the end of RAM less its own size,
    rounded up to pages of 4096 bytes, and is the same tree there.  The saved
    boot arguments are those of the boot loader, but for the size of the memory:
    it is that of RAM less those pages and one more, the guard page.  RAM holds
    the pages and the guard page and ends below 2^32; the tree's old and new
    place and the saved arguments do not overlap. *)
Theorem mini_start_moves_tree (m : mem) (boot_args cur : Z) (args data : list Z) (t : adt_tree) :
  are_bytes args -> zlen args = sizeof_boot_args -> bytes_at m boot_args args -> region m cur sizeof_boot_args ->
  0 <= cur -> cur + sizeof_boot_args <= 2 ^ 32 -> cur <= boot_args \/ boot_args + sizeof_boot_args <= cur ->
  let size := arg_word args ba_devtree_size in
  let phys := arg_word args ba_phys_base in
  let ram := arg_word args ba_video_base + arg_word args ba_video_stride * arg_word args ba_video_height - phys in
  let pages := (size + 4095) / 4096 * 4096 in
  let src := (arg_word args ba_devtree - arg_word args ba_virt_base + phys) mod 2 ^ 32 in
  let dst := phys + ram - pages in
  phys + ram < 2 ^ 32 -> pages + 4096 <= ram ->
  are_bytes data -> zlen data = size -> bytes_at m src data -> flatten t `prefix_of` data -> tree_at m src 0 t ->
  region m dst size -> 0 < dst -> dst <= src \/ src + size <= dst ->
  src + size <= cur \/ cur + sizeof_boot_args <= src ->
  dst + size <= cur \/ cur + sizeof_boot_args <= dst ->
  exists m', mini_start m boot_args cur false = Done (dst, Top phys (ram - pages - 4096) true, m') /\
    tree_at m' dst 0 t /\ load_le 4 m' (cur + ba_mem_size) = Done (ram - pages - 4096) /\
    (forall i, 0 <= i -> i + 4 <= sizeof_boot_args -> i + 4 <= ba_mem_size \/ ba_mem_size + 4 <= i ->
       load_le 4 m' (cur + i) = Done (arg_word args i)).
Proof.
  intros Hargs Hlen Hboot Hcur Hc0 Hc1 Hcb size phys ram pages src dst Hend Hfit Hdata Hsize Hsrc Hpre Ht Hdst Hd0 Hds Hsc Hdc.
  pose proof (zlen_nonneg data). assert (forall i, 0 <= arg_word args i) as Hword by (intros i; apply arg_word_nonneg; done).
  assert (0 <= phys) as Hphys by apply Hword. assert (0 <= size) as Hsz by apply Hword.
  assert (ram_top args = Top phys ram false) as Etop by (unfold ram_top, args_ram_size; fold phys ram; rewrite u32_small by lia; done).
  assert (top_of_memory_alloc size (ram_top args) = (dst, Top phys (ram - pages - 4096) true)) as Ealloc
    by (rewrite Etop; apply first_top_alloc; lia).
  assert (tree_target args = dst) as Edst by (unfold tree_target; fold size; by rewrite Ealloc).
  destruct (mini_start_runs m boot_args cur args data t Hargs Hlen Hboot Hcur Hc0 Hc1 Hcb Hdata Hsize Hsrc Hpre Ht) as (top & m' & R & Htop & H1 & H2 & H3).
  all: rewrite ?Edst; fold size src; try done; try lia.
  rewrite Edst in R, H1. fold size in Htop. rewrite Ealloc in Htop. cbn in Htop. subst top. by exists m'.
Qed.

(** The tree of Adt.v at 4096, 64 KiB of memory. *)
Definition demo_args : list Z :=
  flat_map (le_bytes 4) [0; 0; 0; 0x8000; 0; 0x10000; 0; 0; 0; 0; 0; 0; 4096; zlen (flatten demo_root)] ++ replicate 260 0.
Definition demo_start_mem : mem :=
  write_bytes (write_bytes (write_bytes (write_bytes ∅ 0xf000 (replicate 1024 0)) 0x4000 (replicate 316 0)) 0x2000 demo_args)
    4096 (flatten demo_root).

Lemma mini_start_moves_tree_witness :
  exists m', mini_start demo_start_mem 0x2000 0x4000 false = Done (0xf000, Top 0 0xe000 true, m') /\ tree_at m' 0xf000 0 demo_root /\
    load_le 4 m' 0x400c = Done 0xe000.
Proof.
  assert (zlen demo_args = 316) as Hl by (vm_compute; reflexivity).
  assert (zlen (flatten demo_root) <= 1024) as Ht by (vm_compute; congruence).
  assert (arg_word demo_args ba_devtree_size = zlen (flatten demo_root)) as Hsize by (vm_compute; reflexivity).
  assert ((zlen (flatten demo_root) + 4095) / 4096 * 4096 = 4096) as Hpages by (vm_compute; reflexivity).
  assert (arg_word demo_args ba_phys_base = 0) as Hphys by (vm_compute; reflexivity).
  assert (arg_word demo_args ba_video_base + arg_word demo_args ba_video_stride * arg_word demo_args ba_video_height - 0 = 0x10000) as Hram
    by (vm_compute; reflexivity).
  assert ((arg_word demo_args ba_devtree - arg_word demo_args ba_virt_base + 0) mod 2 ^ 32 = 4096) as Hsrc by (vm_compute; reflexivity).
  assert (forall n, Forall is_byte (replicate n 0)) as Hz by (intros n; apply Forall_replicate; unfold is_byte; lia).
  pose proof (zlen_nonneg (flatten demo_root)).
  pose proof (mini_start_moves_tree demo_start_mem 0x2000 0x4000 demo_args (flatten demo_root) demo_root) as Hw.
  cbv zeta in Hw. rewrite Hsize, Hpages, Hphys, Hram, Hsrc in Hw. change (0 + 0x10000 - 4096) with 0xf000 in Hw.
  destruct Hw as (m' & R & Hm' & Hs & _); unfold sizeof_boot_args; try lia.
  - apply Forall_app. split; [|apply Hz]. vm_compute. repeat constructor; congruence.
  - apply bytes_at_write_disj; [lia|]. apply bytes_at_write_eq; lia.
  - do 2 apply region_write. replace 316 with (zlen (replicate 316 0)) by (vm_compute; reflexivity).
    apply bytes_at_region, bytes_at_write_eq; vm_compute; congruence.
  - vm_compute. repeat constructor; congruence.
  - apply bytes_at_write_eq; lia.
  - exists []. by rewrite app_nil_r.
  - split; [exact (proj1 demo_root_at)|]. do 4 (split; [vm_compute; congruence|]). apply bytes_at_write_eq; lia.
  - apply (region_sub _ 0xf000 1024); [|lia..]. do 3 apply region_write.
    replace 1024 with (zlen (replicate 1024 0)) by (vm_compute; reflexivity).
    apply bytes_at_region, bytes_at_write_eq; vm_compute; congruence.
  - exists m'. split; [exact R|]. split; [exact Hm'|exact Hs].
Defined.
