(* ===== verification/Usb.v ===== *)
(** * The USB devices of the console (src/usb.c, usbphy.h)

    usb.c sets up the PHYs, brings up a controller of Dwc2.v for every one in the
    vendor's tree, and makes its two pipes I/O devices of Iodev.v: the first is
    registered in one of the eight USB slots, the second can be tied to the slot
    of the virtual UART.  Messages that are printed are left out. *)
From S2P Require Import Prelude Machine CString Adt Vsprintf MemUtils RingBuffer UsbDesc Dwc2 Dwc2Spec Dwc2Props Iodev Uart Drivers.

(** ** usbphy.h *)
Definition USBPHY_PWRCON : Z := 0x00.
Definition USBPHY_CLKCON : Z := 0x04.
Definition USBPHY_RSTCON : Z := 0x08.
Definition USBPHY_RSTCON_RESET : Z := BIT 0.
Definition USBPHY_PULCON : Z := 0x1c.
Definition USBPHY_CFG0 : Z := 0x40.
Definition USBPHY_CFG1 : Z := 0x44.
Definition USBPHY_COJCON : Z := 0x100.
Definition USBPHY_COJCON_PHY0_PWR_ON : Z := BIT 3.
Definition USBPHY_PWRCON_REFCLK : Z := 2.
Definition USBPHY_CLKCON_REFCLK : Z := 1.
(** GENMASK(2, 1) and GENMASK(1, 0). *)
Definition USBPHY_PWRCON_CLKSEL : Z := Z.shiftl (BIT 2 - 1) 1.
Definition USBPHY_CLKCON_CLKSEL : Z := BIT 2 - 1.
Definition USBPHY_PWRCON_SHIFT : Z := 5.
Definition USBPHY_CLKCON_SHIFT : Z := 5.
Definition USBPHY_RSTCON_SHIFT : Z := 5.
Definition USBPHY_PULCON_SHIFT : Z := 9.
Definition USBPHY_CFG0_SHIFT : Z := 11.
Definition USBPHY_CFG1_SHIFT : Z := 13.
Definition MASK (x : Z) : Z := u32 (BIT x - 1).
Definition FIELD_PREP (field val : Z) : Z := u32 (val * Z.land field (u32 (Z.lnot (field - 1)))).

(** ** The PHYs *)
Section phy.
Context {W : Type} `{!Mmio W}.

Definition usbphy_write32_internal (addr phy shift value : Z) : ST W unit :=
  let phy_mask := u32 (Z.shiftl (MASK shift) (shift * phy)) in
  io_mask32 addr phy_mask (u32 (Z.shiftl value (shift * phy))).

Definition usbphy_mask32_internal (addr phy shift clear set : Z) : ST W unit :=
  let clear := u32 (Z.shiftl clear (shift * phy)) in
  io_mask32 addr clear (u32 (Z.shiftl set (shift * phy))).

Definition usbphy_clear32 (base reg shift phy clear : Z) : ST W unit := usbphy_mask32_internal (base + reg) phy shift clear 0.
Definition usbphy_set32 (base reg shift phy set : Z) : ST W unit := usbphy_mask32_internal (base + reg) phy shift set set.

(** The registers of usbphy_init; [n] bounds the rounds of a delay. *)
Definition usbphy_setup (n : nat) (timer_base usbphy_base idx cfg0 cfg1 : Z) : ST W unit :=
  _ ← io_set32 (usbphy_base + USBPHY_COJCON) (u32 (Z.shiftl USBPHY_COJCON_PHY0_PWR_ON idx));
  _ ← udelay n timer_base 100;
  _ ← usbphy_write32_internal (usbphy_base + USBPHY_PWRCON) idx USBPHY_PWRCON_SHIFT
        (FIELD_PREP USBPHY_PWRCON_CLKSEL USBPHY_PWRCON_REFCLK);
  _ ← usbphy_write32_internal (usbphy_base + USBPHY_PULCON) idx USBPHY_PULCON_SHIFT (BIT 2);
  _ ← usbphy_write32_internal (usbphy_base + USBPHY_CFG0) idx USBPHY_CFG0_SHIFT cfg0;
  _ ← usbphy_write32_internal (usbphy_base + USBPHY_CFG1) idx USBPHY_CFG1_SHIFT cfg1;
  _ ← udelay n timer_base 10;
  _ ← usbphy_mask32_internal (usbphy_base + USBPHY_CLKCON) idx USBPHY_CLKCON_SHIFT USBPHY_CLKCON_CLKSEL USBPHY_CLKCON_REFCLK;
  _ ← usbphy_set32 usbphy_base USBPHY_RSTCON USBPHY_RSTCON_SHIFT idx USBPHY_RSTCON_RESET;
  _ ← udelay n timer_base 20;
  _ ← usbphy_clear32 usbphy_base USBPHY_RSTCON USBPHY_RSTCON_SHIFT idx USBPHY_RSTCON_RESET;
  _ ← udelay n timer_base 1000;
  usbphy_set32 usbphy_base USBPHY_PULCON USBPHY_PULCON_SHIFT idx (BIT 1).
End phy.

(** ** The state *)

(** Where the string literals and the local buffers are. *)
Record usb_rodata := UsbRodata {
  FMT_DWC2_PATH : Z;        (* "/arm-io/usb-complex%d/usb-device%d" *)
  FMT_USBPHY_PATH : Z;      (* "/arm-io/otgphyctrl%d" *)
  lit_otgphyctrl1 : Z;      (* "/arm-io/otgphyctrl1" *)
  lit_usb_complex1 : Z;     (* "/arm-io/usb-complex1" *)
  lit_usb_reg : Z;          (* "reg" *)
  lit_uotgtune1 : Z;        (* "uotgtune1-device" *)
  lit_uotgtune2 : Z;        (* "uotgtune2-device" *)
  usbphy_adt_path : Z;
  dwc2_adt_path : Z;
  usb_null_str : Z;         (* what vsprintf.c prints for NULL *)
  usb_nil_str : Z;
}.

(** The controllers by the address of their structure, the two static variables
    of usb_dwc2.c, the hardware, the memory and [usb_is_initialized]. *)
Record usb_state (W : Type) := UsbState {
  us_devs : gmap Z dwc2_dev;
  us_fifo : Z;
  us_serial : option (list Z);
  us_hw : W;
  us_mem : mem;
  usb_is_initialized : bool;
}.
Arguments UsbState {W}.
Arguments us_devs {W}.
Arguments us_fifo {W}.
Arguments us_serial {W}.
Arguments us_hw {W}.
Arguments us_mem {W}.
Arguments usb_is_initialized {W}.

(** The answers of the allocator for one controller: the address of its structure
    or 0, the DMA page, the rings, and whether there is room for the I/O device. *)
Record usb_answers := UsbAnswers { ua_dev : Z; ua_page : Z; ua_rings : list (bool * bool); ua_iodev : bool }.

Section usb.
Context {W : Type} `{!Mmio W, !Dwc2Hw W}.
Context (n : nat) (timer_base : Z) (r : adt_rodata) (l : usb_rodata) (adt : Z).
(** How many events a call on a pipe waits for, and what the controller reads
    elsewhere. *)
Context (fuel : nat) (env : usb_env) (answers : Z -> usb_answers).
#[local] Abbreviation US := (usb_state W).
#[local] Abbreviation ios := (iodev_state US).
Implicit Types (s : US).

Definition us_set_hw (w : W) s := UsbState (us_devs s) (us_fifo s) (us_serial s) w (us_mem s) (usb_is_initialized s).
Definition us_set_mem (m : mem) s := UsbState (us_devs s) (us_fifo s) (us_serial s) (us_hw s) m (usb_is_initialized s).
Definition us_set_devs d s := UsbState d (us_fifo s) (us_serial s) (us_hw s) (us_mem s) (usb_is_initialized s).
Definition us_initialized s := UsbState (us_devs s) (us_fifo s) (us_serial s) (us_hw s) (us_mem s) true.
Definition on_hw {A} (f : ST W A) : ST US A := fun s => '(a, w) ← f (us_hw s); Done (a, us_set_hw w s).
Definition us_reads {A} (f : mem -> outcome A) : ST US A := fun s => a ← f (us_mem s); Done (a, s).
Definition us_writes {A} (f : mem -> outcome (A * mem)) : ST US A := fun s => '(a, m) ← f (us_mem s); Done (a, us_set_mem m s).

(** The structure of usb_dwc2.c for a controller, and back. *)
Definition us_usb (d : dwc2_dev) s : usb W := Usb d (us_fifo s) (us_serial s) (us_hw s) (us_mem s).
Definition us_left (u : usb W) s : US := UsbState (us_devs s) (next_tx_fifo_addr u) (str_serial u) (uw u) (um u) (usb_is_initialized s).
Definition us_put (opaque : Z) (u : usb W) s : US := us_set_devs (<[opaque := dev u]> (us_devs s)) (us_left u s).

(** A call of a driver function on the device that [opaque] points to. *)
Definition on_dev {A} (f : option (usb W) -> outcome (A * option (usb W))) (opaque : Z) : ST US A := fun s =>
  if opaque =? 0 then '(a, _) ← f None; Done (a, s) else
  d ← of_option (us_devs s !! opaque);
  '(a, u) ← f (Some (us_usb d s));
  u ← of_option u;
  Done (a, us_put opaque u s).

(** *** USB_IODEV_WRAPPER and USB_IODEV_OPS *)
Definition usb_dwc2_name_can_read (pipe opaque : Z) : ST US Z := on_dev (usb_dwc2_can_read pipe) opaque.
Definition usb_dwc2_name_can_write (pipe opaque : Z) : ST US bool := on_dev (usb_dwc2_can_write pipe) opaque.
Definition usb_dwc2_name_read (pipe opaque count : Z) : ST US (Z * list Z) :=
  bs ← on_dev (usb_dwc2_read fuel env pipe count) opaque; mret (s32 (zlen bs), bs).
Definition usb_dwc2_name_write (pipe opaque : Z) (buf : list Z) : ST US Z :=
  ret ← on_dev (usb_dwc2_write fuel env pipe buf) opaque; mret (s32 ret).
Definition usb_dwc2_name_queue (pipe opaque : Z) (buf : list Z) : ST US Z :=
  ret ← on_dev (usb_dwc2_queue fuel env pipe buf) opaque; mret (s32 ret).
Definition usb_dwc2_name_flush (pipe opaque : Z) : US -> outcome US := fun s =>
  '(_, s) ← on_dev (usb_dwc2_flush fuel env pipe) opaque s; Done s.
(** usb_dwc2_handle_events and usb_dwc2_shutdown read through the pointer. *)
Definition dwc2_call (f : usb W -> outcome (usb W)) (o : option (usb W)) : outcome (unit * option (usb W)) :=
  match o with None => Fault | Some u => u ← f u; Done (tt, Some u) end.
Definition usb_dwc2_name_handle_events (opaque : Z) : US -> outcome US := fun s =>
  '(_, s) ← on_dev (dwc2_call (usb_dwc2_handle_events fuel env)) opaque s; Done s.

Definition USB_IODEV_OPS (pipe : Z) : iodev_ops US :=
  Ops (Some (usb_dwc2_name_can_read pipe)) (Some (usb_dwc2_name_can_write pipe)) (Some (usb_dwc2_name_read pipe))
    (Some (usb_dwc2_name_write pipe)) (Some (usb_dwc2_name_queue pipe)) (Some (usb_dwc2_name_flush pipe))
    (Some usb_dwc2_name_handle_events).
Definition iodev_usb_dwc2_ops : iodev_ops US := USB_IODEV_OPS 0.
Definition iodev_usb_dwc2_sec_ops : iodev_ops US := USB_IODEV_OPS 1.
Definition iodev_usb_vuart : iodev US := Iodev.Dev None SPINLOCK_INIT 0 0.

(** *** Start *)

(** [ADT_GETPROP] on a [u32]. *)
Definition getprop_u32 (m : mem) (offset name : Z) : outcome (option Z) :=
  p ← adt_getprop m adt offset name;
  match p with
  | None => Done None
  | Some (prop, len) => if negb (len =? 4) then Done None else v ← load_le 4 m prop; Done (Some v)
  end.

Definition usbphy_init (idx : Z) : ST US Z :=
  let path := usbphy_adt_path l in
  _ ← us_writes (fun m => vsnprintf (usb_null_str l) (usb_nil_str l) m path 21 (FMT_USBPHY_PATH l) [A32 idx]);
  '(otgctl_offset, otgphyctrl_path) ← us_reads (fun m => adt_path_offset_trace r m adt path);
  if otgctl_offset <? 0 then mret (-1) else
  '(err, usbphy_base) ← us_reads (fun m => get_base r m adt (lit_usb_reg l) otgphyctrl_path 0);
  if err <? 0 then mret (-1) else
  cfg0 ← us_reads (fun m => getprop_u32 m otgctl_offset (lit_uotgtune1 l));
  match cfg0 with
  | None => mret (-1)
  | Some cfg0 =>
      cfg1 ← us_reads (fun m => getprop_u32 m otgctl_offset (lit_uotgtune2 l));
      match cfg1 with
      | None => mret (-1)
      | Some cfg1 => _ ← on_hw (usbphy_setup n timer_base usbphy_base idx cfg0 cfg1); mret 0
      end
  end.

Definition usb_init : ST US unit :=
  b ← gets usb_is_initialized;
  if b : bool then mret tt else
  phy ← us_reads (fun m => adt_path_offset r m adt (lit_otgphyctrl1 l));
  _ ← (if 0 <? phy then
         complex ← us_reads (fun m => adt_path_offset r m adt (lit_usb_complex1 l));
         if 0 <? complex then _ ← usbphy_init 0; _ ← usbphy_init 1; mret tt else mret tt
       else mret tt);
  modify us_initialized.

(** The call of usb_dwc2_init: the address of the device or 0. *)
Definition dwc2_bringup (a : usb_answers) (regs0 : Z) : ST US Z := fun s =>
  '(ok, u) ← usb_dwc2_init (Alloc (negb (ua_dev a =? 0)) (ua_page a) (ua_rings a)) regs0 (us_fifo s) (us_serial s) (us_hw s) (us_mem s);
  if ok : bool then Done (ua_dev a, us_put (ua_dev a) u s) else Done (0, us_left u s).

Definition usb_iodev_bringup (idx : Z) : ST US Z :=
  let path := dwc2_adt_path l in
  _ ← us_writes (fun m => vsnprintf (usb_null_str l) (usb_nil_str l) m path 35 (FMT_DWC2_PATH l) [A32 idx; A32 idx]);
  '(offset, dwc2Path) ← us_reads (fun m => adt_path_offset_trace r m adt path);
  if offset <? 0 then mret 0 else
  '(err, DWC2Base) ← us_reads (fun m => get_base r m adt (lit_usb_reg l) dwc2Path 0);
  if err <? 0 then mret 0 else
  dwc2_bringup (answers idx) DWC2Base.

(** In the world of the I/O devices. *)
Definition in_world {A} (f : ST US A) : ST ios A := fun t => '(a, w) ← f (world t); Done (a, set_world t w).
Definition on_table (f : ios -> outcome ios) : ST ios unit := fun t => t ← f t; Done (tt, t).

(** The loop from [i] on; [k] controllers are left. *)
Fixpoint usb_iodev_init_loop (k : nat) (i : Z) : ST ios unit :=
  match k with
  | O => mret tt
  | S k' =>
      opaque ← in_world (usb_iodev_bringup i);
      _ ← (if opaque =? 0 then mret tt else
           if negb (ua_iodev (answers i)) then mret tt else
           on_table (iodev_register_device (IODEV_USB0 + i)
             (Some (Iodev.Dev (Some iodev_usb_dwc2_ops) SPINLOCK_INIT (Z.lor USAGE_CONSOLE USAGE_UARTPROXY) opaque))));
      usb_iodev_init_loop k' (i + 1)
  end.
Definition usb_iodev_init : ST ios unit := usb_iodev_init_loop (Z.to_nat USB_IODEV_COUNT) 0.

(** usb_dwc2_shutdown ends with [free(dev)]. *)
Definition dwc2_shutdown (opaque : Z) : ST US unit :=
  _ ← on_dev (dwc2_call (fun u => Done (usb_dwc2_shutdown u))) opaque;
  modify (fun s => us_set_devs (delete opaque (us_devs s)) s).

Fixpoint usb_iodev_shutdown_loop (k : nat) (i : Z) : ST ios unit :=
  match k with
  | O => mret tt
  | S k' =>
      usb_iodev ← iodev_unregister_device (IODEV_USB0 + i);
      _ ← match usb_iodev with None => mret tt | Some d => in_world (dwc2_shutdown (dev_opaque d)) end;
      usb_iodev_shutdown_loop k' (i + 1)
  end.
Definition usb_iodev_shutdown : ST ios unit := usb_iodev_shutdown_loop (Z.to_nat USB_IODEV_COUNT) 0.

(** The second pipe of the device in a slot as the virtual UART;
    [iodev_usb_vuart] is what its slot points to. *)
Definition usb_iodev_vuart_setup (iodev : Z) : ST ios unit :=
  if (iodev <? IODEV_USB0) || (IODEV_USB0 + USB_IODEV_COUNT <=? iodev) then mret tt else
  opaque ← (fun t => o ← iodev_get_opaque iodev t; Done (o, t));
  on_table (fun t =>
    d ← znth (iodevs t) IODEV_USB_VUART; vuart ← of_option d;
    devs ← zset (iodevs t) IODEV_USB_VUART (Some (Iodev.Dev (Some iodev_usb_dwc2_sec_ops) (dev_lock vuart) (dev_usage vuart) opaque));
    Done (set_iodevs t devs)).
End usb.

(** ** The lanes of the PHYs

    The registers hold a field for either PHY.  [put] is what a masked write
    makes of bit [k]: [lane] is where the field begins. *)
Definition put (lane clear set k : Z) (b : bool) : bool := (b && negb (Z.testbit clear (k - lane))) || Z.testbit set (k - lane).

Lemma testbit_u32 x k : 0 <= k < 32 -> Z.testbit (u32 x) k = Z.testbit x k.
Proof. intros. unfold u32, wrap. by rewrite Z.mod_pow2_bits_low by lia. Qed.

Lemma testbit_masked reg clear set lane k : 0 <= k < 32 ->
  Z.testbit (Z.lor (Z.land reg (u32 (Z.lnot (u32 (Z.shiftl clear lane))))) (u32 (u32 (Z.shiftl set lane)))) k =
  put lane clear set k (Z.testbit reg k).
Proof.
  intros Hk. unfold put. rewrite Z.lor_spec, Z.land_spec, !testbit_u32, Z.lnot_spec, testbit_u32, !Z.shiftl_spec by lia. done.
Qed.

Lemma ST_bind_Done {S A B} (x : ST S A) (f : A -> ST S B) s b s' :
  (x ≫= f) s = Done (b, s') -> exists a s1, x s = Done (a, s1) /\ f a s1 = Done (b, s').
Proof. unfold mbind, ST_bind. intros ([a s1] & E & H)%bind_Done_inv. by exists a, s1. Qed.

(** What the driver relies on: the registers of the PHYs keep what is written,
    reading them or the timer changes none of them, and an access to them takes at
    most [D] ticks of the timer's counter. *)
Class PhyLaws (W : Type) `{!Mmio W} (timer_base base D : Z) `{!TimerLaws W timer_base D} : Type := {
  phy_reg : W -> Z -> Z;
  py_range w o : 0 <= phy_reg w o < 2 ^ 32;
  py_read o w : 0 <= o <= USBPHY_COJCON ->
    exists w', reg_read (base + o) w = (phy_reg w o, w') /\ phy_reg w' = phy_reg w /\ ticks w <= ticks w' <= ticks w + D;
  py_write o v w o' : 0 <= o <= USBPHY_COJCON -> phy_reg (reg_write (base + o) v w) o' = if o' =? o then u32 v else phy_reg w o';
  py_write_time o v w : 0 <= o <= USBPHY_COJCON -> ticks w <= ticks (reg_write (base + o) v w) <= ticks w + D;
  py_timer o w : o = TIMER_64_HI \/ o = TIMER_64_LO -> phy_reg (snd (reg_read (timer_base + o) w)) = phy_reg w;
}.

Section lanes.
Context {W : Type} `{!Mmio W} (timer_base base D : Z) `{!TimerLaws W timer_base D} `{!PhyLaws W timer_base base D}.
Context (Htimer : 0 < timer_base) (Htend : timer_base + TIMER_64_CTL < 2 ^ 32).
Context (Hbase : 0 <= base) (Hend : base + USBPHY_COJCON < 2 ^ 32).
Implicit Types w : W.

(** From [w] to [w'] the bits of register [o] change as [f] says. *)
Definition reg_step (o : Z) (f : Z -> bool -> bool) w w' : Prop :=
  forall o' k, 0 <= k < 32 -> Z.testbit (phy_reg w' o') k = if o' =? o then f k (Z.testbit (phy_reg w o') k) else Z.testbit (phy_reg w o') k.

(** An access that reads and writes register [o]. *)
Lemma run_rmw (x : ST W unit) o v (f : Z -> bool -> bool) w : 0 <= o <= USBPHY_COJCON ->
  (forall w1, reg_read (base + o) w = (phy_reg w o, w1) -> x w = Done (tt, reg_write (base + o) v w1)) ->
  (forall k, 0 <= k < 32 -> Z.testbit v k = f k (Z.testbit (phy_reg w o) k)) ->
  exists w', x w = Done (tt, w') /\ reg_step o f w w' /\ ticks w <= ticks w' <= ticks w + 2 * D.
Proof using Type*.
  intros Ho Hx Hv. destruct (py_read o w Ho) as (w1 & E & Hw1 & T1). pose proof (py_write_time o v w1 Ho).
  exists (reg_write (base + o) v w1). split; [by apply Hx|]. split; [|lia].
  intros o' k Hk. rewrite py_write by done. rewrite Hw1. destruct (Z.eqb_spec o' o) as [->|]; [|done]. rewrite testbit_u32 by done. by apply Hv.
Qed.

Lemma run_masked o lane clear set w : 0 <= o <= USBPHY_COJCON ->
  exists w', io_mask32 (base + o) (u32 (Z.shiftl clear lane)) (u32 (Z.shiftl set lane)) w = Done (tt, w') /\
    reg_step o (put lane clear set) w w' /\ ticks w <= ticks w' <= ticks w + 2 * D.
Proof using Type*.
  intros Ho. pose proof (py_range w o).
  apply (run_rmw _ o (Z.lor (Z.land (phy_reg w o) (u32 (Z.lnot (u32 (Z.shiftl clear lane))))) (u32 (u32 (Z.shiftl set lane))))); [done| |].
  - intros w1 E. unfold io_mask32. erewrite run_bind by (unfold io_read32; by rewrite (u32_small (base + o)), E by lia).
    unfold io_write32, modify. rewrite (u32_small (base + o)), (u32_small (phy_reg w o)) by lia. done.
  - intros k Hk. by apply testbit_masked.
Qed.

Lemma run_set o set w : 0 <= o <= USBPHY_COJCON ->
  exists w', io_set32 (base + o) set w = Done (tt, w') /\ reg_step o (fun k b => b || Z.testbit set k) w w' /\
    ticks w <= ticks w' <= ticks w + 2 * D.
Proof using Type*.
  intros Ho. pose proof (py_range w o). apply (run_rmw _ o (Z.lor (phy_reg w o) (u32 set))); [done| |].
  - intros w1 E. unfold io_set32. erewrite run_bind by (unfold io_read32; by rewrite (u32_small (base + o)), E by lia).
    unfold io_write32, modify. by rewrite (u32_small (base + o)), (u32_small (phy_reg w o)) by lia.
  - intros k Hk. by rewrite Z.lor_spec, testbit_u32.
Qed.

(** Waiting changes no register of the PHYs. *)
Lemma get_ticks_keeps w t w' : get_ticks timer_base w = Done (t, w') -> phy_reg w' = phy_reg w.
Proof using Type*.
  unfold get_ticks, TIMER_64_CTL in *. replace (timer_base =? 0) with false by lia. unfold io_read32.
  rewrite !u32_small by (unfold TIMER_64_HI, TIMER_64_LO; lia).
  pose proof (py_timer TIMER_64_HI w (or_introl eq_refl)) as H1. destruct (reg_read (timer_base + TIMER_64_HI) w) as [hi w1] eqn:E1.
  pose proof (py_timer TIMER_64_LO w1 (or_intror eq_refl)) as H2. destruct (reg_read (timer_base + TIMER_64_LO) w1) as [lo w2] eqn:E2.
  cbn in H1, H2. unfold mbind, ST_bind. rewrite E1. cbn. rewrite E2. cbn. intros [= _ <-]. by rewrite H2.
Qed.

Lemma udelay_keeps n d w w' : udelay n timer_base d w = Done (tt, w') -> phy_reg w' = phy_reg w.
Proof using Type*.
  unfold udelay. intros (val & w1 & <-%get_ticks_keeps & H)%ST_bind_Done. revert w1 H.
  induction n as [|n IH]; intros w1; cbn [udelay_loop]; [done|].
  intros (t & w2 & <-%get_ticks_keeps & H)%ST_bind_Done. destruct (_ <? _); [by apply IH|by injection H as ->].
Qed.

Lemma run_wait n d w : 0 <= d <= 1000 -> ticks w mod 2 ^ 32 + 24 * d + 3 * D < 2 ^ 32 -> 24000 < Z.of_nat n ->
  exists w', udelay n timer_base d w = Done (tt, w') /\ phy_reg w' = phy_reg w /\ ticks w + 24 * d < ticks w' <= ticks w + 24 * d + 4 * D.
Proof using Type*.
  intros Hd Hw Hn. destruct (run_udelay timer_base D Htimer Htend n d w) as (w' & E & T); [lia..|].
  exists w'. split; [exact E|]. split; [by apply (udelay_keeps n d)|done].
Qed.

(** One step of a sequence, and the rest. *)
Lemma run_first (x : ST W unit) (f : unit -> ST W unit) w (P Q : W -> Prop) :
  (exists w1, x w = Done (tt, w1) /\ P w1) -> (forall w1, P w1 -> exists w2, f tt w1 = Done (tt, w2) /\ Q w2) ->
  exists w2, (x ≫= f) w = Done (tt, w2) /\ Q w2.
Proof. intros (w1 & E & H) Hf. destruct (Hf w1 H) as (w2 & E2 & H2). exists w2. split; [by erewrite run_bind by exact E|done]. Qed.
End lanes.

(** What usbphy_setup does to a register: where the field is, how wide, and which
    of its bits are cleared and then set. *)
Definition phy_field (idx cfg0 cfg1 o : Z) : option (Z * Z * Z * Z) :=
  if o =? USBPHY_PWRCON then Some (5 * idx, 5, Z.ones 5, 4)
  else if o =? USBPHY_CLKCON then Some (5 * idx, 5, 3, 1)
  else if o =? USBPHY_RSTCON then Some (5 * idx, 5, 1, 0)
  else if o =? USBPHY_PULCON then Some (9 * idx, 9, Z.ones 9, 6)
  else if o =? USBPHY_CFG0 then Some (11 * idx, 11, Z.ones 11, cfg0)
  else if o =? USBPHY_CFG1 then Some (13 * idx, 13, Z.ones 13, cfg1)
  else if o =? USBPHY_COJCON then Some (3 + idx, 1, 1, 1)
  else None.

Definition phy_bit (field : option (Z * Z * Z * Z)) (k : Z) (b : bool) : bool :=
  match field with
  | Some (lane, width, clear, set) => if (lane <=? k) && (k <? lane + width) then put lane clear set k b else b
  | None => b
  end.

Lemma testbit_outside v width j : 0 <= v < 2 ^ width -> 0 <= width -> j < 0 \/ width <= j -> Z.testbit v j = false.
Proof.
  intros Hv Hw [Hj|Hj]; [by apply Z.testbit_neg_r|]. rewrite <- (Z.mod_small v (2 ^ width)) by done. by apply Z.mod_pow2_bits_high.
Qed.

(** A masked write stays in its field. *)
Lemma put_field lane width clear set k b : 0 <= width -> 0 <= clear < 2 ^ width -> 0 <= set < 2 ^ width ->
  put lane clear set k b = phy_bit (Some (lane, width, clear, set)) k b.
Proof.
  intros Hw Hc Hs. cbn [phy_bit]. destruct ((lane <=? k) && (k <? lane + width)) eqn:E; [done|].
  apply andb_false_iff in E. unfold put. rewrite !(testbit_outside _ width) by (done || destruct E; b2p; lia).
  by rewrite andb_true_r, orb_false_r.
Qed.

(** Two masked writes to the same field: bit by bit. *)
Lemma put_twice lane c1 s1 c2 s2 c s k b :
  (forall j, 0 <= j < 9 -> forall b, put 0 c2 s2 j (put 0 c1 s1 j b) = put 0 c s j b) ->
  Forall (fun v => 0 <= v < 2 ^ 9) [c1; s1; c2; s2; c; s] ->
  put lane c2 s2 k (put lane c1 s1 k b) = put lane c s k b.
Proof.
  intros H Hv. destruct (decide (0 <= k - lane < 9)) as [Hk|Hk].
  - specialize (H (k - lane) Hk b). unfold put in *. by rewrite !Z.sub_0_r in H.
  - rewrite Forall_forall in Hv. unfold put.
    rewrite !(testbit_outside _ 9) by (lia || apply Hv; cbn; set_solver). by destruct b.
Qed.

(** The accesses of usbphy_setup to one register, in their order. *)
Lemma setup_bits idx cfg0 cfg1 o k b :
  idx = 0 \/ idx = 1 -> 0 <= cfg0 < 2 ^ 11 -> 0 <= cfg1 < 2 ^ 13 -> 0 <= k < 32 ->
  let at_ r (f : Z -> bool -> bool) b := if o =? r then f k b else b in
  let p := at_ USBPHY_PULCON (put (USBPHY_PULCON_SHIFT * idx) (BIT 1) (BIT 1)) in
  p (at_ USBPHY_RSTCON (put (USBPHY_RSTCON_SHIFT * idx) USBPHY_RSTCON_RESET 0)
    (at_ USBPHY_RSTCON (put (USBPHY_RSTCON_SHIFT * idx) USBPHY_RSTCON_RESET USBPHY_RSTCON_RESET)
    (at_ USBPHY_CLKCON (put (USBPHY_CLKCON_SHIFT * idx) USBPHY_CLKCON_CLKSEL USBPHY_CLKCON_REFCLK)
    (at_ USBPHY_CFG1 (put (USBPHY_CFG1_SHIFT * idx) (MASK USBPHY_CFG1_SHIFT) cfg1)
    (at_ USBPHY_CFG0 (put (USBPHY_CFG0_SHIFT * idx) (MASK USBPHY_CFG0_SHIFT) cfg0)
    (at_ USBPHY_PULCON (put (USBPHY_PULCON_SHIFT * idx) (MASK USBPHY_PULCON_SHIFT) (BIT 2))
    (at_ USBPHY_PWRCON (put (USBPHY_PWRCON_SHIFT * idx) (MASK USBPHY_PWRCON_SHIFT) (FIELD_PREP USBPHY_PWRCON_CLKSEL USBPHY_PWRCON_REFCLK))
    (at_ USBPHY_COJCON (fun k b => b || Z.testbit (u32 (Z.shiftl USBPHY_COJCON_PHY0_PWR_ON idx)) k) b)))))))) =
  phy_bit (phy_field idx cfg0 cfg1 o) k b.
Proof.
  intros Hidx H0 H1 Hk. cbv zeta. unfold phy_field.
  destruct (Z.eqb_spec o USBPHY_PWRCON) as [->|]; [by apply (put_field (5 * idx) 5 (Z.ones 5) 4)|].
  destruct (Z.eqb_spec o USBPHY_CLKCON) as [->|]; [by apply (put_field (5 * idx) 5 3 1)|].
  destruct (Z.eqb_spec o USBPHY_RSTCON) as [->|].
  { rewrite <- (put_field (5 * idx) 5 1 0) by done. apply (put_twice (5 * idx) 1 1 1 0 1 0); [|by repeat constructor].
    intros j Hj b'. assert (j = 0 \/ 0 < j) as [->|] by lia; [by destruct b'|]. unfold put. rewrite !(testbit_outside _ 1) by (done || lia). by destruct b'. }
  destruct (Z.eqb_spec o USBPHY_PULCON) as [->|].
  { rewrite <- (put_field (9 * idx) 9 (Z.ones 9) 6) by done. apply (put_twice (9 * idx) 511 4 2 2 511 6); [|by repeat constructor].
    intros j Hj b'. assert (j = 0 \/ j = 1 \/ j = 2 \/ j = 3 \/ j = 4 \/ j = 5 \/ j = 6 \/ j = 7 \/ j = 8) as Hc by lia.
    repeat (destruct Hc as [->|Hc]; [by destruct b'|]). subst. by destruct b'. }
  destruct (Z.eqb_spec o USBPHY_CFG0) as [->|]; [by apply (put_field (11 * idx) 11 (Z.ones 11) cfg0)|].
  destruct (Z.eqb_spec o USBPHY_CFG1) as [->|]; [by apply (put_field (13 * idx) 13 (Z.ones 13) cfg1)|].
  destruct (Z.eqb_spec o USBPHY_COJCON) as [->|]; [|done].
  change (b || Z.testbit (u32 (Z.shiftl 8 idx)) k = phy_bit (Some (3 + idx, 1, 1, 1)) k b).
  rewrite <- put_field by done. unfold put. rewrite testbit_u32, Z.shiftl_spec by lia.
  destruct (decide (k = 3 + idx)) as [->|Hn].
  - replace (3 + idx - idx) with 3 by lia. replace (3 + idx - (3 + idx)) with 0 by lia. by destruct b.
  - assert (Z.testbit 8 (k - idx) = false) as -> by (apply (Z.pow2_bits_false 3); lia).
    assert (Z.testbit 1 (k - (3 + idx)) = false) as -> by (apply (Z.pow2_bits_false 0); lia). by destruct b.
Qed.

(** C39: Setting up one of the two PHYs that share their registers, with tuning
    words that fit their fields of 11 and 13 bits (a wider one reaches the field of
    the other PHY): it returns after the four delays of the code and nine
    accesses, provided that the low half of the timer's counter does not overflow
    meanwhile; then the power bit is on, clock, pull-up and tuning fields have the
    values of the code and of the tree, the reset is over, and no bit outside the
    fields of this PHY has changed, so that the other PHY keeps its set-up. *)
Theorem usbphy_setup_own_field (W : Type) `{!Mmio W} (n : nat) (timer_base base D : Z) `{!TimerLaws W timer_base D}
    `{!PhyLaws W timer_base base D} (idx cfg0 cfg1 : Z) (w : W) :
  0 < timer_base -> timer_base + TIMER_64_CTL < 2 ^ 32 -> 0 <= base -> base + USBPHY_COJCON < 2 ^ 32 ->
  idx = 0 \/ idx = 1 -> 0 <= cfg0 < 2 ^ 11 -> 0 <= cfg1 < 2 ^ 13 ->
  ticks w mod 2 ^ 32 + 24 * 1130 + 34 * D < 2 ^ 32 -> 24 * 1000 < Z.of_nat n ->
  exists w', usbphy_setup n timer_base base idx cfg0 cfg1 w = Done (tt, w') /\
    (forall o k, 0 <= k < 32 ->
      Z.testbit (phy_reg w' o) k = phy_bit (phy_field idx cfg0 cfg1 o) k (Z.testbit (phy_reg w o) k)) /\
    ticks w + 24 * 1130 < ticks w' <= ticks w + 24 * 1130 + 34 * D.
Proof.
  intros Ht Hte Hb He Hidx H0 H1 Hwin Hn. unfold usbphy_setup, usbphy_set32, usbphy_clear32, usbphy_mask32_internal, usbphy_write32_internal.
  pose proof (run_masked timer_base base D Ht Hte Hb He) as masked.
  pose proof (fun d => run_wait timer_base base D Ht Hte Hb He n d) as wait. pose proof (tl_nonneg w) as H00.
  eapply run_first; [apply (run_set timer_base base D Ht Hte Hb He); done|]. intros w1 [S1 T1].
  eapply run_first; [apply wait; lia|]. intros w2 [S2 T2].
  eapply run_first; [by apply masked|]. intros w3 [S3 T3].
  eapply run_first; [by apply masked|]. intros w4 [S4 T4].
  eapply run_first; [by apply masked|]. intros w5 [S5 T5].
  eapply run_first; [by apply masked|]. intros w6 [S6 T6].
  eapply run_first; [apply wait; lia|]. intros w7 [S7 T7].
  eapply run_first; [by apply masked|]. intros w8 [S8 T8].
  eapply run_first; [by apply masked|]. intros w9 [S9 T9].
  eapply run_first; [apply wait; lia|]. intros w10 [S10 T10].
  eapply run_first; [by apply masked|]. intros w11 [S11 T11].
  eapply run_first; [apply wait; lia|]. intros w12 [S12 T12].
  destruct (masked USBPHY_PULCON (USBPHY_PULCON_SHIFT * idx) (BIT 1) (BIT 1) w12) as (w13 & E & S13 & T13); [done|].
  exists w13. split; [exact E|]. split; [|lia]. intros o k Hk.
  rewrite S13, S12, S11, S10, S9, S8, S7, S6, S5, S4, S3, S2, S1 by done. by apply setup_bits.
Qed.

(** *** Two PHYs *)

(** The registers, and a timer of 65536 ticks per read behind them. *)
Definition sim_phy : Type := (Z -> Z) * N.
#[export] Instance sim_phy_mmio : Mmio sim_phy := {|
  reg_read a w :=
    if a =? 0x1000 + TIMER_64_HI then (Z.of_N (snd w) / 2 ^ 32, (fst w, snd w + 65536)%N)
    else if a =? 0x1000 + TIMER_64_LO then (Z.of_N (snd w), (fst w, snd w + 65536)%N)
    else (u32 (fst w (a - 0x4000)), w);
  reg_write a v w := (fun o => if o =? a - 0x4000 then v else fst w o, snd w);
|}.

#[export] Program Instance sim_timer_laws : TimerLaws sim_phy 0x1000 65536 := {| ticks w := Z.of_N (snd w) |}.
Next Obligation. intros w. apply N2Z.is_nonneg. Qed.
Next Obligation. intros [f t]. split; [done|]. cbn [fst snd]. lia. Qed.
Next Obligation. intros [f t]. split; [done|]. cbn [fst snd]. lia. Qed.

#[export] Program Instance sim_phy_laws : PhyLaws sim_phy 0x1000 0x4000 65536 := {| phy_reg w o := u32 (fst w o) |}.
Next Obligation. intros w o. by apply wrap_range. Qed.
Next Obligation.
  intros o w Ho. unfold USBPHY_COJCON in Ho. exists w. split; [|split; [done|lia]]. unfold reg_read, sim_phy_mmio, TIMER_64_HI, TIMER_64_LO. bdec.
  by replace (0x4000 + o - 0x4000) with o by lia.
Qed.
Next Obligation.
  intros o v w o' Ho. unfold reg_write, sim_phy_mmio. cbn [fst]. replace (0x4000 + o - 0x4000) with o by lia. by destruct (o' =? o).
Qed.
Next Obligation. intros o v w Ho. cbn. lia. Qed.
Next Obligation. intros o w [-> | ->]; done. Qed.

(** The second PHY is set up where the first one is: the first one keeps its
    pull-up and clock. *)
Lemma usbphy_setup_own_field_witness :
  exists w', usbphy_setup (Z.to_nat 24001) 0x1000 0x4000 1 0x123 0x456 (fun _ => 6, 7%N) = Done (tt, w') /\
    (forall k, 0 <= k < 9 -> Z.testbit (phy_reg w' USBPHY_PULCON) k = Z.testbit 6 k) /\
    Z.testbit (phy_reg w' USBPHY_PULCON) 10 = true /\ Z.testbit (phy_reg w' USBPHY_CLKCON) 5 = true.
Proof.
  destruct (usbphy_setup_own_field sim_phy (Z.to_nat 24001) 0x1000 0x4000 65536 1 0x123 0x456 (fun _ => 6, 7%N)) as (w' & E & H & _);
    [lia|reflexivity|lia|reflexivity|by right|lia|lia|reflexivity|lia|].
  exists w'. split; [exact E|]. split; [|split].
  - intros k Hk. rewrite H by lia. cbn [phy_bit]. change (phy_field 1 0x123 0x456 USBPHY_PULCON) with (Some (9, 9, Z.ones 9, 6)).
    cbn [phy_bit]. replace (9 <=? k) with false by lia. done.
  - rewrite H by lia. reflexivity.
  - rewrite H by lia. reflexivity.
Defined.

(** A tuning value that is wider than its field reaches the field of the other
    PHY. *)
Example wide_tuning_reaches_other_phy :
  match usbphy_setup 9 0x1000 0x4000 0 (2 ^ 11) 0 (fun _ => 0, 0%N) with Done (_, w) => phy_reg w USBPHY_CFG0 | _ => 0 end = 2 ^ 11.
Proof. vm_compute. reflexivity. Qed.

(** ** The life of the devices *)

Section life.
Context {W : Type} `{!Mmio W, !Dwc2Hw W}.
#[local] Abbreviation US := (usb_state W).
#[local] Abbreviation ios := (iodev_state US).
Implicit Types (t : ios) (s : US) (i j : Z).

(** Slot [i] of the eight. *)
Definition usb_slot t i : option (option (iodev US)) := iodevs t !! Z.to_nat (IODEV_USB0 + i).
Definition holds_dev t i (p : Z) : Prop := exists d, usb_slot t i = Some (Some d) /\ dev_opaque d = p.

(** Every device that is registered belongs to a controller of its own. *)
Record slots_ok t : Prop := {
  so_len : zlen (iodevs t) = IODEV_NUM;
  so_live i p : 0 <= i < USB_IODEV_COUNT -> holds_dev t i p -> p <> 0 /\ is_Some (us_devs (world t) !! p);
  so_own i j p : 0 <= i < USB_IODEV_COUNT -> 0 <= j < USB_IODEV_COUNT -> holds_dev t i p -> holds_dev t j p -> i = j;
}.

Lemma usb_slot_lookup t i : zlen (iodevs t) = IODEV_NUM -> 0 <= i < USB_IODEV_COUNT -> exists d, usb_slot t i = Some d.
Proof.
  intros Hl Hi. unfold usb_slot. apply lookup_lt_is_Some. unfold zlen, IODEV_NUM, USB_IODEV_COUNT, IODEV_USB0 in *. lia.
Qed.

Lemma run_unregister t i d : zlen (iodevs t) = IODEV_NUM -> 0 <= i < USB_IODEV_COUNT -> usb_slot t i = Some d ->
  iodev_unregister_device (IODEV_USB0 + i) t = Done (d, set_iodevs t (<[Z.to_nat (IODEV_USB0 + i) := None]> (iodevs t))).
Proof.
  intros Hl Hi Hd. unfold iodev_unregister_device, IODEV_MAX, IODEV_NUM, USB_IODEV_COUNT, IODEV_USB0 in *. bdec. cbn [orb].
  assert (znth (iodevs t) (2 + i) = Done d) as -> by (apply znth_Done; split; [lia|exact Hd]).
  rewrite bind_Done, zset_Done by lia. done.
Qed.

Lemma run_dwc2_shutdown p s d : p <> 0 -> us_devs s !! p = Some d ->
  exists s', dwc2_shutdown p s = Done (tt, s') /\ us_devs s' = delete p (us_devs s).
Proof.
  intros Hp Hd. unfold dwc2_shutdown, on_dev. eexists. split.
  - erewrite run_bind; [unfold modify; reflexivity|]. rewrite (proj2 (Z.eqb_neq _ _) Hp), Hd. reflexivity.
  - cbn. apply delete_insert_eq.
Qed.

(** What the loop of usb_iodev_shutdown makes of the table and the controllers,
    from slot [i] on. *)
Definition shut_from i t t' : Prop :=
  (forall m, iodevs t' !! m = if decide (Z.to_nat (IODEV_USB0 + i) <= m < Z.to_nat IODEV_MAX)%nat then Some None else iodevs t !! m) /\
  (forall p, is_Some (us_devs (world t') !! p) <->
     is_Some (us_devs (world t) !! p) /\ ~ exists j, i <= j < USB_IODEV_COUNT /\ holds_dev t j p).

Lemma slots_ok_unregister t i d s' : slots_ok t -> 0 <= i < USB_IODEV_COUNT -> usb_slot t i = Some d ->
  us_devs s' = match d with Some d => delete (dev_opaque d) (us_devs (world t)) | None => us_devs (world t) end ->
  let t' := set_world (set_iodevs t (<[Z.to_nat (IODEV_USB0 + i) := None]> (iodevs t))) s' in
  slots_ok t' /\ (forall j p, 0 <= j < USB_IODEV_COUNT -> holds_dev t' j p <-> j <> i /\ holds_dev t j p).
Proof.
  intros [Hlen Hlive Hown] Hi Hd Hs t'.
  assert (forall j p, 0 <= j < USB_IODEV_COUNT -> holds_dev t' j p <-> j <> i /\ holds_dev t j p) as Hh.
  { intros j p Hj. unfold holds_dev, usb_slot, t'. cbn [iodevs set_world set_iodevs].
    destruct (decide (j = i)) as [->|Hn].
    - split; [|tauto]. intros (e & He & _). rewrite list_lookup_insert_eq in He; [done|].
      unfold zlen, IODEV_NUM, USB_IODEV_COUNT, IODEV_USB0 in *. lia.
    - rewrite list_lookup_insert_ne by (unfold USB_IODEV_COUNT, IODEV_USB0 in *; lia). tauto. }
  split; [|exact Hh]. split.
  - unfold t'. cbn [iodevs set_world set_iodevs]. unfold zlen in *. by rewrite length_insert.
  - intros j p Hj Hp. apply Hh in Hp as [Hn Hp]; [|done]. destruct (Hlive j p Hj Hp) as [H0 Hin]. split; [done|].
    unfold t'. cbn [world set_world]. rewrite Hs. destruct d as [d|]; [|done]. rewrite lookup_delete_ne; [done|].
    intros <-. apply Hn. apply (Hown j i (dev_opaque d)); [done|done|exact Hp|by exists d].
  - intros j k p Hj Hk [_ H1]%Hh [_ H2]%Hh; [|done|done]. by apply (Hown j k p).
Qed.

Lemma run_shutdown_loop (k : nat) i t : slots_ok t -> 0 <= i -> i + Z.of_nat k = USB_IODEV_COUNT ->
  exists t', usb_iodev_shutdown_loop k i t = Done (tt, t') /\ shut_from i t t'.
Proof.
  revert i t. induction k as [|k IH]; intros i t Hok Hi Hk; cbn [usb_iodev_shutdown_loop].
  - exists t. split; [done|]. split.
    + intros m. rewrite decide_False; [done|]. unfold IODEV_MAX, IODEV_USB0, USB_IODEV_COUNT in *. lia.
    + intros p. split; [|tauto]. intros H. split; [done|]. intros (j & Hj & _). lia.
  - assert (0 <= i < USB_IODEV_COUNT) as Hic by lia. destruct (usb_slot_lookup t i (so_len _ Hok) Hic) as [d Hd].
    rewrite (run_bind _ _ _ _ _ (run_unregister t i d (so_len _ Hok) Hic Hd)).
    set (t1 := set_iodevs t _).
    assert (exists s', (match d with None => mret tt | Some d => in_world (dwc2_shutdown (dev_opaque d)) end) t1 = Done (tt, set_world t1 s') /\
      us_devs s' = match d with Some d => delete (dev_opaque d) (us_devs (world t)) | None => us_devs (world t) end) as (s' & E & Hs).
    { destruct d as [d|]; [|exists (world t); split; [by destruct t|done]].
      destruct (so_live _ Hok i (dev_opaque d) Hic) as [H0 [v Hv]]; [by exists d|].
      destruct (run_dwc2_shutdown (dev_opaque d) (world t) v H0 Hv) as (s' & E & Hs). exists s'. split; [|exact Hs].
      unfold in_world. change (world t1) with (world t). by rewrite E. }
    rewrite (run_bind _ _ _ _ _ E). destruct (slots_ok_unregister t i d s' Hok Hic Hd Hs) as [Hok' Hh].
    fold t1 in Hok', Hh. destruct (IH (i + 1) _ Hok') as (t' & R & Htab & Hdev); [lia|lia|]. exists t'. split; [exact R|]. split.
    + intros m. rewrite Htab. unfold t1. cbn [iodevs set_world set_iodevs]. unfold IODEV_MAX, IODEV_USB0, USB_IODEV_COUNT in *.
      destruct (decide (m = Z.to_nat (2 + i))) as [->|Hm].
      * rewrite decide_False, decide_True by lia. apply list_lookup_insert_eq. pose proof (so_len _ Hok) as Hl. unfold zlen, IODEV_NUM in Hl. lia.
      * rewrite list_lookup_insert_ne by lia. destruct (decide (Z.to_nat (2 + i) <= m < Z.to_nat (2 + 8))%nat).
        { by rewrite decide_True by lia. } by rewrite decide_False by lia.
    + intros p. rewrite Hdev. cbn [world set_world]. rewrite Hs. split.
      * intros [Hp Hno]. assert (is_Some (us_devs (world t) !! p)) as Hp'.
        { destruct d as [d|]; [|done]. destruct Hp as [v [_ Hv]%lookup_delete_Some]. by exists v. }
        split; [done|]. intros (j & Hj & Hjp). destruct (decide (j = i)) as [->|Hn].
        { destruct Hjp as (e & He & <-). rewrite Hd in He. injection He as ->. rewrite lookup_delete_eq in Hp. by apply is_Some_None in Hp. }
        apply Hno. exists j. split; [lia|]. apply Hh; [lia|done].
      * intros [Hp Hno]. split.
        { destruct d as [d|]; [|done]. rewrite lookup_delete_ne; [done|]. intros <-. apply Hno. exists i. split; [lia|]. by exists d. }
        intros (j & Hj & [_ Hjp]%Hh); [|lia]. apply Hno. exists j. split; [lia|done].
Qed.

End life.

Section start.
Context {W : Type} `{!Mmio W, !Dwc2Hw W}.
Context (r : adt_rodata) (l : usb_rodata) (adt : Z) (fuel : nat) (env : usb_env) (answers : Z -> usb_answers).
#[local] Abbreviation US := (usb_state W).
#[local] Abbreviation ios := (iodev_state US).
Implicit Types (t : ios) (s : US) (i j : Z).

(** The outcome of a bring-up: no controller, or one of its own. *)
Lemma dwc2_bringup_Done a regs0 s p s' : dwc2_bringup a regs0 s = Done (p, s') ->
  (p = 0 /\ us_devs s' = us_devs s) \/ (p = ua_dev a /\ p <> 0 /\ exists d, us_devs s' = <[p := d]> (us_devs s)).
Proof using All.
  unfold dwc2_bringup. intros ([ok u] & E & H)%bind_Done_inv. destruct ok.
  - injection H as <- <-. right. split; [done|]. split; [|by exists (dev u)]. intros H0. revert E. rewrite H0. cbn [Z.eqb negb]. unfold usb_dwc2_init.
    cbn [al_dev]. destruct (Dwc2.reg_read _ _) as [v s1]. cbn [negb]. by destruct (negb (Z.land v DWC2_GSNPSID_MASK =? 0x4f540000)).
  - injection H as <- <-. left. done.
Qed.

Lemma bringup_Done i s p s' : usb_iodev_bringup r l adt answers i s = Done (p, s') ->
  (p = 0 /\ us_devs s' = us_devs s) \/ (p = ua_dev (answers i) /\ p <> 0 /\ exists d, us_devs s' = <[p := d]> (us_devs s)).
Proof using All.
  unfold usb_iodev_bringup. intros (v & s1 & E1 & H)%ST_bind_Done.
  assert (us_devs s1 = us_devs s) as D1 by (unfold us_writes in E1; apply bind_Done_inv in E1 as ([? ?] & _ & E1); by injection E1 as _ <-).
  apply ST_bind_Done in H as ([off path] & s2 & E2 & H).
  assert (s2 = s1) as -> by (unfold us_reads in E2; apply bind_Done_inv in E2 as (? & _ & E2); by injection E2 as _ ->).
  destruct (off <? 0); [injection H as <- <-; left; done|].
  apply ST_bind_Done in H as ([err base] & s3 & E3 & H).
  assert (s3 = s1) as -> by (unfold us_reads in E3; apply bind_Done_inv in E3 as (? & _ & E3); by injection E3 as _ ->).
  destruct (err <? 0); [injection H as <- <-; left; done|]. apply dwc2_bringup_Done in H. by rewrite D1 in H.
Qed.

(** What the loop of usb_iodev_init has done when it stands at controller [i]. *)
Definition console_device (p : Z) : iodev US :=
  Iodev.Dev (Some (iodev_usb_dwc2_ops fuel env)) SPINLOCK_INIT (Z.lor USAGE_CONSOLE USAGE_UARTPROXY) p.
Record brought i t0 t : Prop := {
  br_table m : ~ (Z.to_nat IODEV_USB0 <= m < Z.to_nat (IODEV_USB0 + i))%nat -> iodevs t !! m = iodevs t0 !! m;
  br_slot j : 0 <= j < i -> usb_slot t j = Some None \/
    ua_dev (answers j) <> 0 /\ usb_slot t j = Some (Some (console_device (ua_dev (answers j))));
  br_devs p : is_Some (us_devs (world t) !! p) <-> is_Some (us_devs (world t0) !! p) \/ exists j, 0 <= j < i /\ holds_dev t j p;
}.

Lemma brought_none i t0 t s' : brought i t0 t -> 0 <= i < USB_IODEV_COUNT -> usb_slot t0 i = Some None ->
  us_devs s' = us_devs (world t) -> brought (i + 1) t0 (set_world t s').
Proof using All.
  intros [Ht Hsl Hd] Hi H0 Hs.
  assert (usb_slot t i = Some None) as Hi0.
  { rewrite <- H0. apply Ht. unfold IODEV_USB0, USB_IODEV_COUNT in *. lia. }
  split.
  - intros m Hm. apply Ht. unfold IODEV_USB0 in *. lia.
  - intros j Hj. destruct (decide (j = i)) as [->|]; [by left|]. apply (Hsl j). lia.
  - intros p. cbn [world set_world]. rewrite Hs, Hd. split; (intros [H|(j & Hj & Hp)]; [by left|right; exists j]).
    + split; [lia|exact Hp].
    + split; [|exact Hp]. destruct (decide (j = i)) as [->|]; [|lia]. exfalso. destruct Hp as (d & Hp & _).
      change (usb_slot t i = Some (Some d)) in Hp. by rewrite Hi0 in Hp.
Qed.

Lemma brought_one i t0 t s' d : brought i t0 t -> 0 <= i < USB_IODEV_COUNT -> zlen (iodevs t0) = IODEV_NUM -> zlen (iodevs t) = IODEV_NUM ->
  ua_dev (answers i) <> 0 -> us_devs s' = <[ua_dev (answers i) := d]> (us_devs (world t)) ->
  brought (i + 1) t0
    (set_iodevs (set_world t s') (<[Z.to_nat (IODEV_USB0 + i) := Some (console_device (ua_dev (answers i)))]> (iodevs t))).
Proof using All.
  intros [Ht Hsl Hd] Hi Hlen0 Hlen H0 Hs. unfold zlen, IODEV_NUM, USB_IODEV_COUNT in *.
  set (t' := set_iodevs _ _).
  assert (usb_slot t' i = Some (Some (console_device (ua_dev (answers i))))) as Hnew.
  { unfold usb_slot, t'. cbn [iodevs set_iodevs]. apply list_lookup_insert_eq. unfold IODEV_USB0. lia. }
  assert (forall j, 0 <= j < i -> usb_slot t' j = usb_slot t j) as Hold.
  { intros j Hj. unfold usb_slot, t'. cbn [iodevs set_iodevs]. apply list_lookup_insert_ne. unfold IODEV_USB0. lia. }
  split.
  - intros m Hm. unfold t'. cbn [iodevs set_iodevs]. rewrite list_lookup_insert_ne by (unfold IODEV_USB0 in *; lia). apply Ht. unfold IODEV_USB0 in *. lia.
  - intros j Hj. destruct (decide (j = i)) as [->|]; [by right|]. rewrite Hold by lia. apply Hsl. lia.
  - intros p. unfold t' at 1. cbn [world set_world set_iodevs]. rewrite Hs. split.
    + destruct (decide (p = ua_dev (answers i))) as [->|Hp].
      * intros _. right. exists i. split; [lia|]. by eexists.
      * rewrite lookup_insert_ne by done. intros [H|(j & Hj & Hjp)]%Hd; [by left|]. right. exists j. split; [lia|].
        destruct Hjp as (e & He & Hep). exists e. by rewrite Hold.
    + destruct (decide (p = ua_dev (answers i))) as [->|Hp]; [intros _; rewrite lookup_insert_eq; by eexists|].
      rewrite lookup_insert_ne by done. intros H. apply Hd. destruct H as [H|(j & Hj & e & He & Hep)]; [by left|]. right.
      destruct (decide (j = i)) as [->|]; [rewrite Hnew in He; injection He as <-; by destruct Hp|].
      exists j. split; [lia|]. exists e. by rewrite Hold in He by lia.
Qed.

Lemma init_loop_Done (k : nat) i t0 t t1 :
  zlen (iodevs t0) = IODEV_NUM -> (forall j, 0 <= j < USB_IODEV_COUNT -> usb_slot t0 j = Some None /\ ua_iodev (answers j) = true) ->
  zlen (iodevs t) = IODEV_NUM -> brought i t0 t -> 0 <= i -> i + Z.of_nat k = USB_IODEV_COUNT ->
  usb_iodev_init_loop r l adt fuel env answers k i t = Done (tt, t1) ->
  zlen (iodevs t1) = IODEV_NUM /\ brought USB_IODEV_COUNT t0 t1.
Proof using All.
  intros Hlen0 Hslots. revert i t. induction k as [|k IH]; intros i t Hlen Hb Hi Hk; cbn [usb_iodev_init_loop].
  - intros [= <-]. replace USB_IODEV_COUNT with i by lia. done.
  - assert (0 <= i < USB_IODEV_COUNT) as Hic by lia. destruct (Hslots i Hic) as [H0 Hroom].
    intros (p & ta & E & H)%ST_bind_Done. unfold in_world in E. apply bind_Done_inv in E as ([p' s'] & E & [= -> <-]).
    apply ST_bind_Done in H as ([] & tb & Er & H). apply bringup_Done in E as [[-> Hs]|(-> & Hp & d & Hs)].
    + cbn in Er. injection Er as <-. exact (IH (i + 1) (set_world t s') Hlen (brought_none i t0 t s' Hb Hic H0 Hs) ltac:(lia) ltac:(lia) H).
    + rewrite (proj2 (Z.eqb_neq _ _) Hp), Hroom in Er. cbn [negb] in Er. unfold on_table, iodev_register_device in Er.
      pose proof (brought_one i t0 t s' d Hb Hic Hlen0 Hlen Hp Hs) as Hb'.
      unfold zlen, IODEV_NUM, IODEV_MAX, USB_IODEV_COUNT, IODEV_USB0 in *.
      replace (2 + 8 <=? 2 + i) with false in Er by lia. cbn [iodevs set_world] in Er.
      rewrite zset_Done, !bind_Done in Er by (unfold zlen; lia). injection Er as <-.
      apply (IH (i + 1)) in H; [exact H|by cbn [iodevs set_iodevs]; rewrite length_insert|exact Hb'|lia|lia].
Qed.

(** A function on every index of a list, one after the other. *)
Fixpoint in_turn (f : Z -> ST US Z) (idxs : list Z) : ST US (list Z) :=
  match idxs with
  | [] => mret []
  | i :: idxs => p ← f i; ps ← in_turn f idxs; mret (p :: ps)
  end.

(** When the bring-ups return, so does the loop, and every device that they
    return is in its slot. *)
Lemma init_loop_runs (k : nat) i t ps s1 :
  zlen (iodevs t) = IODEV_NUM -> (forall j, 0 <= j < USB_IODEV_COUNT -> ua_iodev (answers j) = true) ->
  0 <= i -> i + Z.of_nat k = USB_IODEV_COUNT ->
  in_turn (usb_iodev_bringup r l adt answers) (seqZ i (Z.of_nat k)) (world t) = Done (ps, s1) ->
  exists t1, usb_iodev_init_loop r l adt fuel env answers k i t = Done (tt, t1) /\ world t1 = s1 /\
    (forall m, (m < Z.to_nat (IODEV_USB0 + i))%nat -> iodevs t1 !! m = iodevs t !! m) /\
    (forall (j : nat) p, ps !! j = Some p -> iodevs t1 !! (Z.to_nat (IODEV_USB0 + i) + j)%nat =
       if p =? 0 then iodevs t !! (Z.to_nat (IODEV_USB0 + i) + j)%nat else Some (Some (console_device p))).
Proof using All.
  intros Hlen Hroom. revert i t ps Hlen. induction k as [|k IH]; intros i t ps Hlen Hi Hk.
  - change (seqZ i (Z.of_nat 0)) with (@nil Z). cbn [in_turn]. intros [= <- <-]. by exists t.
  - rewrite seqZ_cons by lia. replace (Z.pred (Z.of_nat (S k))) with (Z.of_nat k) by lia. rewrite <- Z.add_1_r.
    cbn [in_turn usb_iodev_init_loop]. intros (p & sa & E & H)%ST_bind_Done. apply ST_bind_Done in H as (ps' & sb & E2 & [= <- <-]).
    assert (in_world (usb_iodev_bringup r l adt answers i) t = Done (p, set_world t sa)) as Ew by (unfold in_world; by rewrite E).
    rewrite (run_bind _ _ _ _ _ Ew). rewrite (Hroom i) by lia. cbn [negb].
    pose (t' := if p =? 0 then set_world t sa else set_iodevs (set_world t sa) (<[Z.to_nat (IODEV_USB0 + i) := Some (console_device p)]> (iodevs t))).
    assert ((if p =? 0 then mret tt else
      on_table (iodev_register_device (IODEV_USB0 + i) (Some (console_device p)))) (set_world t sa) = Done (tt, t')) as Er.
    { unfold t'. destruct (p =? 0); [done|]. unfold on_table, iodev_register_device.
      unfold zlen, IODEV_NUM, IODEV_MAX, USB_IODEV_COUNT, IODEV_USB0 in *.
      replace (2 + 8 <=? 2 + i) with false by lia. cbn [iodevs set_world]. by rewrite zset_Done by (unfold zlen; lia). }
    rewrite (run_bind _ _ _ _ _ Er). destruct (IH (i + 1) t' ps') as (t1 & R & Hw & Hlow & Hps).
    { unfold t', zlen. destruct (p =? 0); [done|]. cbn [iodevs set_iodevs]. by rewrite length_insert. }
    { lia. } { lia. } { replace (world t') with sa; [exact E2|]. unfold t'. by destruct (p =? 0). }
    replace (Z.to_nat (IODEV_USB0 + (i + 1))) with (S (Z.to_nat (IODEV_USB0 + i))) in Hlow, Hps by (unfold IODEV_USB0; lia).
    assert (Hold : forall m, m <> Z.to_nat (IODEV_USB0 + i) -> iodevs t' !! m = iodevs t !! m).
    { intros m Hm. unfold t'. destruct (p =? 0); [done|]. cbn [iodevs set_iodevs]. by rewrite list_lookup_insert_ne. }
    exists t1. split; [exact R|]. split; [exact Hw|]. split.
    + intros m Hm. rewrite Hlow by lia. apply Hold. lia.
    + intros [|j] q Hq; cbn in Hq.
      * injection Hq as <-. rewrite Nat.add_0_r, Hlow by lia. unfold t'. destruct (p =? 0); [done|]. cbn [iodevs set_iodevs].
        apply list_lookup_insert_eq. unfold zlen, IODEV_NUM, USB_IODEV_COUNT, IODEV_USB0 in *. lia.
      * rewrite Nat.add_succ_r, <- Nat.add_succ_l, (Hps j q Hq). destruct (q =? 0); [|done]. apply Hold. lia.
Qed.

Lemma in_turn_length f idxs s ps s1 : in_turn f idxs s = Done (ps, s1) -> length ps = length idxs.
Proof.
  revert s ps s1. induction idxs as [|i idxs IH]; intros s ps s1; cbn [in_turn]; [by intros [= <- _]|].
  intros (p & sa & _ & H)%ST_bind_Done. apply ST_bind_Done in H as (ps' & sb & E & [= <- _]). cbn. f_equal. exact (IH _ _ _ E).
Qed.

(** From the table that the start leaves, the devices can be shut down. *)
Lemma brought_shutdown t t1 :
  (forall i, 0 <= i < USB_IODEV_COUNT -> usb_slot t i = Some None /\ ua_iodev (answers i) = true) ->
  (forall i, 0 <= i < USB_IODEV_COUNT -> us_devs (world t) !! ua_dev (answers i) = None) ->
  (forall i j, 0 <= i < USB_IODEV_COUNT -> 0 <= j < USB_IODEV_COUNT -> ua_dev (answers i) = ua_dev (answers j) ->
     ua_dev (answers i) <> 0 -> i = j) ->
  zlen (iodevs t1) = IODEV_NUM -> brought USB_IODEV_COUNT t t1 ->
  (forall i d, 0 <= i < USB_IODEV_COUNT -> usb_slot t1 i = Some (Some d) -> is_Some (us_devs (world t1) !! dev_opaque d)) /\
  exists t2, usb_iodev_shutdown t1 = Done (tt, t2) /\ iodevs t2 = iodevs t /\ dom (us_devs (world t2)) = dom (us_devs (world t)).
Proof using All.
  intros Hslots Hfresh Hown Hlen1 [Ht Hs Hd].
  assert (forall i d, 0 <= i < USB_IODEV_COUNT -> usb_slot t1 i = Some (Some d) ->
    d = console_device (ua_dev (answers i)) /\ ua_dev (answers i) <> 0) as Hdev.
  { intros i d Hi Hid. destruct (Hs i Hi) as [E|[H0 E]]; rewrite Hid in E; [done|]. by injection E as ->. }
  assert (slots_ok t1) as Hok.
  { split; [done| |].
    - intros i p Hi (d & Hid & <-). destruct (Hdev i d Hi Hid) as [-> H0]. split; [done|]. apply Hd. right. exists i. split; [done|]. by eexists.
    - intros i j p Hi Hj (d & Hid & Ep) (e & Hje & Eq). destruct (Hdev i d Hi Hid) as [-> H0]. destruct (Hdev j e Hj Hje) as [-> H0'].
      cbn in Ep, Eq. apply Hown; congruence. }
  split.
  - intros i d Hi Hid. by apply (so_live _ Hok i (dev_opaque d) Hi); exists d.
  - destruct (run_shutdown_loop (Z.to_nat USB_IODEV_COUNT) 0 t1 Hok) as (t2 & R & Htab & Hdom); [lia|done|].
    exists t2. split; [exact R|]. split.
    + apply list_eq. intros m. rewrite Htab. case_decide as Hm.
      * destruct (Hslots (Z.of_nat m - IODEV_USB0)) as [E _]; [unfold IODEV_MAX, IODEV_USB0, USB_IODEV_COUNT in *; lia|].
        unfold usb_slot in E. rewrite <- E. f_equal. lia.
      * apply Ht. unfold IODEV_MAX in Hm. rewrite Z.add_0_r in Hm. exact Hm.
    + apply set_eq. intros p. rewrite !elem_of_dom, Hdom, Hd. split.
      * intros [[H|H] Hno]; [done|]. by destruct Hno.
      * intros H. split; [by left|]. intros (j & Hj & d & Hjd & Hp). destruct (Hdev j d Hj Hjd) as [-> _]. cbn in Hp. subst p.
        rewrite Hfresh in H by done. by apply is_Some_None in H.
Qed.
End start.

(** C40: The life of the USB consoles.  The eight slots are empty at first, memory
    for every I/O device is found, and the addresses that the allocator gives to
    the controllers are new and distinct.  When the bring-ups of the eight controllers return the
    pointers [ps], usb_iodev_init returns: the slot of a null pointer stays empty,
    every other slot holds a console and proxy device with the seven calls on the
    first pipe and the pointer to its own controller, which is alive, and the other
    slots of the table are as before.  usb_iodev_shutdown then always returns,
    leaves the table of the I/O devices as it was in the beginning, and frees these
    controllers and no other. *)
Theorem usb_iodev_cycle (W : Type) `{!Mmio W, !Dwc2Hw W} (r : adt_rodata) (l : usb_rodata) (adt : Z) (fuel : nat) (env : usb_env)
    (answers : Z -> usb_answers) (t : iodev_state (usb_state W)) (ps : list Z) (s1 : usb_state W) :
  zlen (iodevs t) = IODEV_NUM ->
  (forall i, 0 <= i < USB_IODEV_COUNT -> usb_slot t i = Some None /\ ua_iodev (answers i) = true) ->
  (forall i, 0 <= i < USB_IODEV_COUNT -> us_devs (world t) !! ua_dev (answers i) = None) ->
  (forall i j, 0 <= i < USB_IODEV_COUNT -> 0 <= j < USB_IODEV_COUNT -> ua_dev (answers i) = ua_dev (answers j) ->
     ua_dev (answers i) <> 0 -> i = j) ->
  in_turn (usb_iodev_bringup r l adt answers) (seqZ 0 8) (world t) = Done (ps, s1) ->
  exists t1, usb_iodev_init r l adt fuel env answers t = Done (tt, t1) /\ world t1 = s1 /\
    (forall (i : nat) p, ps !! i = Some p -> iodevs t1 !! (Z.to_nat IODEV_USB0 + i)%nat = Some (
       if p =? 0 then None else
       Some (Iodev.Dev
         (Some (Ops (Some (on_dev (usb_dwc2_can_read 0))) (Some (on_dev (usb_dwc2_can_write 0)))
           (Some (fun o count => bs ← on_dev (usb_dwc2_read fuel env 0 count) o; mret (s32 (zlen bs), bs)))
           (Some (fun o buf => ret ← on_dev (usb_dwc2_write fuel env 0 buf) o; mret (s32 ret)))
           (Some (fun o buf => ret ← on_dev (usb_dwc2_queue fuel env 0 buf) o; mret (s32 ret)))
           (Some (fun o s => '(_, s) ← on_dev (usb_dwc2_flush fuel env 0) o s; Done s))
           (Some (fun o s => '(_, s) ← on_dev (dwc2_call (usb_dwc2_handle_events fuel env)) o s; Done s))))
         SPINLOCK_INIT (Z.lor USAGE_CONSOLE USAGE_UARTPROXY) p))) /\
    (forall p, p ∈ ps -> p <> 0 -> is_Some (us_devs s1 !! p)) /\
    (forall m, ~ (Z.to_nat IODEV_USB0 <= m < Z.to_nat (IODEV_USB0 + USB_IODEV_COUNT))%nat -> iodevs t1 !! m = iodevs t !! m) /\
    exists t2, usb_iodev_shutdown t1 = Done (tt, t2) /\ iodevs t2 = iodevs t /\ dom (us_devs (world t2)) = dom (us_devs (world t)).
Proof.
  intros Hlen Hslots Hfresh Hown Hups.
  destruct (init_loop_runs r l adt fuel env answers 8 0 t ps s1 Hlen) as (t1 & Hrun & Hworld & _ & Hps);
    [intros; by apply Hslots|lia|done|exact Hups|].
  assert (length ps = 8%nat) as Hl8 by (by apply in_turn_length in Hups).
  assert (brought fuel env answers 0 t t) as Hb0 by (split; [done|lia|intros p; split; [by left|intros [?|(j & ? & _)]; [done|lia]]]).
  pose proof (init_loop_Done r l adt fuel env answers 8 0 t t t1 Hlen Hslots Hlen Hb0 ltac:(lia) ltac:(done) Hrun) as [Hlen1 Hb].
  destruct (brought_shutdown r l adt fuel env answers t t1) as [Hlive Hshut]; [done..|].
  assert (forall (i : nat) p, ps !! i = Some p -> usb_slot t1 (Z.of_nat i) = Some (if p =? 0 then None else Some (console_device fuel env p))) as Hslot.
  { intros i p Hi. pose proof (lookup_lt_Some _ _ _ Hi) as Hlt. unfold usb_slot.
    replace (Z.to_nat (IODEV_USB0 + Z.of_nat i)) with (Z.to_nat (IODEV_USB0 + 0) + i)%nat by (unfold IODEV_USB0; lia).
    rewrite (Hps i p Hi). destruct (p =? 0); [|done]. destruct (Hslots (Z.of_nat i)) as [<- _]; [unfold USB_IODEV_COUNT; lia|].
    unfold usb_slot. f_equal. unfold IODEV_USB0. lia. }
  exists t1. split; [exact Hrun|]. split; [exact Hworld|]. split; [|split; [|split; [exact (br_table _ _ _ _ _ _ Hb)|exact Hshut]]].
  - intros i p Hi. specialize (Hslot i p Hi). unfold usb_slot in Hslot.
    replace (Z.to_nat (IODEV_USB0 + Z.of_nat i)) with (Z.to_nat IODEV_USB0 + i)%nat in Hslot by (unfold IODEV_USB0; lia). exact Hslot.
  - intros p [i Hi]%list_elem_of_lookup Hp. pose proof (lookup_lt_Some _ _ _ Hi) as Hlt. specialize (Hslot i p Hi).
    rewrite (proj2 (Z.eqb_neq _ _) Hp) in Hslot. rewrite <- Hworld. apply (Hlive (Z.of_nat i) (console_device fuel env p)); [unfold USB_IODEV_COUNT; lia|exact Hslot].
Qed.

(** A tree with one controller, the last one, whose page of memory is there when
    it is first accessed. *)
Definition demo_usb_tree : adt_tree :=
  let node name props cs := ANode ((bytes_of "name", bytes_of name ++ [0]) :: props) cs in
  node "device-tree"%string [(bytes_of "#address-cells", [1; 0; 0; 0])]
    [node "arm-io"%string [(bytes_of "#address-cells", [1; 0; 0; 0]); (bytes_of "#size-cells", [1; 0; 0; 0]); (bytes_of "ranges", [])]
      [node "usb-complex7"%string [(bytes_of "#address-cells", [1; 0; 0; 0]); (bytes_of "#size-cells", [1; 0; 0; 0]); (bytes_of "ranges", [])]
        [node "usb-device7"%string [(bytes_of "reg", [0; 0; 0; 0x36; 0; 0; 1; 0])] []]]].
Definition demo_usb_rodata : usb_rodata := UsbRodata 0x400 0x430 0x450 0x470 0x490 0x4a0 0x4c0 0x800 0x840 0x4e0 0x4f0.
Definition demo_usb_mem : mem :=
  foldl (fun m x => write_bytes m (fst x) (snd x)) ∅
    [(256, bytes_of "name" ++ [0]); (272, bytes_of "#address-cells" ++ [0]); (288, bytes_of "#size-cells" ++ [0]); (304, bytes_of "ranges" ++ [0]);
     (0x400, bytes_of "/arm-io/usb-complex%d/usb-device%d" ++ [0]); (0x490, bytes_of "reg" ++ [0]); (0x840, replicate 35 0);
     (4096, flatten demo_usb_tree)].

Definition with_page (m : mem) : mem := (u8 <$> m) ∪ demo_memory.
#[local] Instance demo_usb_mmio : Mmio unit := {| reg_read _ w := (0, w); reg_write _ _ w := w |}.
#[local] Instance demo_usb_hw : Dwc2Hw unit := {|
  mmio_read a w m := (if a =? 0x36000000 + DWC2_GSNPSID then 0x4f542000 else 0, w, with_page m);
  mmio_write _ _ w m := (w, m);
  hw_delay _ w m := (w, m) |}.
Definition demo_usb_env : usb_env := Env ∅ 0 0 true [].
Definition demo_usb_answers (i : Z) : usb_answers := UsbAnswers (if i =? 7 then 0x9000 else 0) 0x10000 (replicate 4 (true, true)) true.
Definition demo_usb_ios : iodev_state (usb_state unit) :=
  Ist (replicate 11 None) [] 0 [] 0 SPINLOCK_INIT false 0 (UsbState ∅ 0 None tt demo_usb_mem false).

Lemma with_page_bytes m : mem_bytes (with_page m).
Proof.
  intros k b. unfold with_page. rewrite lookup_union, lookup_fmap, demo_memory_lookup.
  destruct (m !! k), (_ && _); cbn; intros [= <-]; (apply u8_byte || done).
Qed.

Lemma region_union (m m' : mem) a n : region m a n \/ region m' a n -> region ((u8 <$> m) ∪ m') a n.
Proof.
  intros H. assert (0 <= n) as Hn by (destruct H as [(o & <- & _)|(o & <- & _)]; apply zlen_nonneg).
  apply region_intro; [done|]. intros k Hk.
  assert ((is_Some (m !! k) \/ is_Some (m' !! k)) /\ 0 <= k < 2 ^ 32) as [Hm Hr]
    by (destruct H as [H|H]; destruct (region_lookup _ _ _ k H Hk); auto).
  split; [|done]. rewrite lookup_union, lookup_fmap.
  destruct (m !! k), (m' !! k); cbn; try by eexists. destruct Hm as [Hm|Hm]; by apply is_Some_None in Hm.
Qed.

#[local] Instance demo_usb_laws : Dwc2Laws unit.
Proof.
  split; cbn; [|by intros ? ? ? ? ? ? [= <- <-]|by intros ? ? ? ? ? [= <- <-]]. intros a w m v w' m' [= _ _ <-].
  split; [|intros _; apply with_page_bytes]. intros b n H. apply region_union. by left.
Qed.

Definition demo_bringup : Z -> ST (usb_state unit) Z := usb_iodev_bringup adt_demo_rodata demo_usb_rodata 4096 demo_usb_answers.

(** Seven controllers are not found; the path of the last one and where it leads. *)
Definition demo_path_probe (w0 : usb_state unit) :=
  '(ps, s) ← in_turn demo_bringup (seqZ 0 7) w0;
  '(_, s1) ← us_writes (fun m => vsnprintf (usb_null_str demo_usb_rodata) (usb_nil_str demo_usb_rodata) m (dwc2_adt_path demo_usb_rodata) 35
    (FMT_DWC2_PATH demo_usb_rodata) [A32 7; A32 7]) s;
  '(offset, path, _) ← us_reads (fun m => adt_path_offset_trace adt_demo_rodata m 4096 (dwc2_adt_path demo_usb_rodata)) s1;
  found ← us_reads (fun m => get_base adt_demo_rodata m 4096 (lit_usb_reg demo_usb_rodata) path 0) s1;
  Done (ps, 0 <=? offset, fst found, us_serial s1).

Lemma in_turn_snoc {W : Type} (f : Z -> ST (usb_state W) Z) idxs i s ps s1 p s2 :
  in_turn f idxs s = Done (ps, s1) -> f i s1 = Done (p, s2) -> in_turn f (idxs ++ [i]) s = Done (ps ++ [p], s2).
Proof.
  revert s ps. induction idxs as [|j idxs IH]; intros s ps; cbn [in_turn app].
  - intros [= <- <-] E. erewrite run_bind by exact E. done.
  - intros (q & sa & E & H)%ST_bind_Done Hi. apply ST_bind_Done in H as (ps' & sb & E2 & [= <- <-]).
    erewrite run_bind by exact E. erewrite run_bind by exact (IH _ _ E2 Hi). done.
Qed.

Lemma demo_path_found : demo_path_probe (world demo_usb_ios) = Done ([0; 0; 0; 0; 0; 0; 0], true, (0, 0x36000000), None).
Proof. vm_compute. reflexivity. Qed.

Lemma demo_alloc_page m : page_ok demo_alloc (with_page m).
Proof.
  split; [done|]. split; [vm_compute; discriminate|]. split; [|apply with_page_bytes].
  apply region_union. right. exact (proj1 (proj2 (proj2 demo_page))).
Qed.

(** The last bring-up succeeds. *)
Lemma demo_bringups_run w0 : demo_path_probe w0 = Done ([0; 0; 0; 0; 0; 0; 0], true, (0, 0x36000000), None) ->
  exists s1, in_turn demo_bringup (seqZ 0 8) w0 = Done ([0; 0; 0; 0; 0; 0; 0; 0x9000], s1).
Proof.
  unfold demo_path_probe. intros Hp.
  apply bind_Done_inv in Hp as ([ps s] & E7 & Hp). apply bind_Done_inv in Hp as ([v s1] & Ev & Hp).
  apply bind_Done_inv in Hp as ([[offset path] s2] & Ea & Hp). apply bind_Done_inv in Hp as ([found s3] & Eb & Hp).
  injection Hp as -> Ho Hf Hser. apply Z.leb_le in Ho. cbn [fst] in Hf. subst found.
  assert (s2 = s1) as -> by (unfold us_reads in Ea; apply bind_Done_inv in Ea as (? & _ & Ea); by injection Ea as _ ->).
  assert (s3 = s1) as -> by (unfold us_reads in Eb; apply bind_Done_inv in Eb as (? & _ & Eb); by injection Eb as _ ->).
  assert (exists s', demo_bringup 7 s = Done (0x9000, s')) as [s' E8].
  { unfold demo_bringup, usb_iodev_bringup. erewrite run_bind by exact Ev. erewrite run_bind by exact Ea. cbn beta iota.
    replace (offset <? 0) with false by lia. erewrite run_bind by exact Eb. cbn beta iota. change (0 <? 0) with false. cbn iota.
    unfold dwc2_bringup. change (Alloc _ _ _) with demo_alloc.
    destruct (init_returns demo_alloc 0x36000000 (us_fifo s1) (us_serial s1) (us_hw s1) (us_mem s1)) as [u E].
    - by rewrite Hser.
    - reflexivity.
    - reflexivity.
    - cbn [mmio_read demo_usb_hw]. split; [reflexivity|apply demo_alloc_page].
    - rewrite E. by eexists. }
  exists s'. change (seqZ 0 8) with (seqZ 0 7 ++ [7]). exact (in_turn_snoc demo_bringup (seqZ 0 7) 7 w0 _ s _ s' E7 E8).
Qed.

Lemma usb_iodev_cycle_witness :
  exists t1 t2 o, usb_iodev_init adt_demo_rodata demo_usb_rodata 4096 10 demo_usb_env demo_usb_answers demo_usb_ios = Done (tt, t1) /\
    iodevs t1 !! 9%nat = Some (Some (Iodev.Dev (Some o) SPINLOCK_INIT (Z.lor USAGE_CONSOLE USAGE_UARTPROXY) 0x9000)) /\
    iodevs t1 !! 3%nat = Some None /\ is_Some (us_devs (world t1) !! 0x9000) /\
    usb_iodev_shutdown t1 = Done (tt, t2) /\ iodevs t2 = replicate 11 None /\ dom (us_devs (world t2)) = ∅.
Proof.
  destruct (demo_bringups_run _ demo_path_found) as [s1 E].
  destruct (usb_iodev_cycle unit adt_demo_rodata demo_usb_rodata 4096 10 demo_usb_env demo_usb_answers demo_usb_ios
    [0; 0; 0; 0; 0; 0; 0; 0x9000] s1) as (t1 & Hr & <- & Hs & Hl & _ & t2 & R & Ht & Hd).
  - reflexivity.
  - intros i Hi. split; [|reflexivity]. apply lookup_replicate_2. unfold USB_IODEV_COUNT, IODEV_USB0 in *. lia.
  - intros i Hi. apply lookup_empty.
  - intros i j Hi Hj. cbn. destruct (Z.eqb_spec i 7), (Z.eqb_spec j 7); congruence.
  - exact E.
  - eexists t1, t2, _. split; [exact Hr|]. split; [exact (Hs 7%nat 0x9000 eq_refl)|]. split; [exact (Hs 1%nat 0 eq_refl)|].
    split; [apply Hl; [apply (list_elem_of_lookup_2 _ 7%nat); reflexivity|discriminate]|]. split; [exact R|]. split; [exact Ht|]. rewrite Hd. apply dom_empty_L.
Defined.
